(* ===== verification/_CoqProject ===== *)
-Q . S2P
Prelude.v
FixedPoint.v
Primitives.v
Runtime.v
Sample.v
Support.v
Dex.v
DexQuotes.v
DexSwap.v
DexSafety.v
Treasury.v
Loans.v
Prices.v
AuctionManager.v
TreasuryAuctions.v
AuctionSpecs.v
EmergencyShutdown.v
CdpEngine.v
CdpSpecs.v
Honzon.v
World.v
Bytes.v
EvmBridge.v
EvmManager.v
EvmSample.v
StorageMeter.v
NomineesElection.v
NomineesSpecs.v
HomaValidatorList.v
HomaValidatorSpecs.v
CollatorSelection.v
CollatorSpecs.v
Incentives.v
IncentivesSpecs.v
IncentivesSample.v
PolkadotBridge.v
StakingPool.v
StakingSpecs.v
StakingSafety.v
FeeModel.v
StakingSample.v
EvmAccounts.v
EvmAccountsSample.v
Currencies.v
CurrenciesSpecs.v
CurrenciesSample.v
Evm.v
EvmRunner.v
EvmFrames.v
EvmMoves.v
EvmSpecs.v
EvmHistories.v
EvmCodes.v
EvmGas.v
EvmCalls.v
EvmPalletSample.v
TransactionPayment.v
PaymentSpecs.v
PaymentSample.v
Nft.v
NftSpecs.v
NftSample.v
Bridges.v
Starport.v
StarportSpecs.v
Renvm.v
RenvmSpecs.v
Chainsafe.v
ChainsafeSpecs.v
BridgesSample.v
Precompiles.v
PrecompileSpecs.v
PrecompileSample.v
EthPrecompiles.v
Airdrop.v
Governance.v
CallFilters.v
