(* ===== verification/Prelude.v ===== *)
(** * The pallets of Acala

    This library models the pallets of Acala as they are written in Rust under
    [modules/] and [ecosystem-modules/] - those that issue the stable currency and
    trade the currencies of the chain, those that stake, reward and collate, the
    EVM with its contracts, fees, tokens and the bridges to other chains - and
    proves what each promises to its users and to the others.

    ** The parts and how they interact

    A user deposits collateral and borrows stable currency through [honzon],
    which asks the [cdp-engine]; that checks prices and risk parameters and
    keeps the positions in [loans].  An unsafe position is confiscated into the
    [cdp-treasury], which sells its collateral through the [dex] or in auctions
    of the [auction-manager].  [prices] answers from the oracle, from a lock or
    from the pools of the exchange.  After an [emergency-shutdown] prices are
    locked, positions are settled, auctions cancelled, and what is left is
    redeemed pro rata.

    Beside the protocol, holders of the staking currency nominate in
    [nominees-election] and guarantee validators in [homa-validator-list], and
    through [homa] stake in the [staking-pool], which acts on the relay chain
    through the [polkadot-bridge]; loans, guarantees and liquidity earn rewards in
    [incentives], and collators are chosen by [collator-selection].  The
    [evm-manager] maps contracts to currency identifiers, reading them through
    the [evm-bridge].  The [evm] pallet runs contracts in nested frames, which
    pay for the storage they use, and the precompiled contracts give them the
    [currencies], the exchange and the other pallets, whose accounts
    [evm-accounts] binds to addresses.  The [transaction-payment] takes fees in any
    currency the exchange knows; [nft] keeps tokens against deposits; and
    [starport], the RenVM and the ChainSafe bridge bring assets in and out.

    - [Prelude.v]: machine integers with the bounds of their types, results
      ([Ok], [Err], and [Panic] for what aborts a block), the state and error
      monad [M] with [transactional] and [attempt], weakest preconditions
      ([wp m Q R s]: no panic, [Q] after success, [R] after an error), sums over
      maps.
    - [FixedPoint.v]: [FixedU128] of [sp_runtime], a class with laws.
    - [Primitives.v]: [primitives/src/currency.rs], trading pairs of
      [primitives/src/lib.rs].
    - [Runtime.v]: the storage of all the pallets as one record [State], their
      errors and events, and the class [Config] of the code outside the
      repository - the ledger, the auction pallet, account references, constants -
      with the laws [ConfigLaws] that state its documented behaviour.
    - [Sample.v]: an instance of [Config] that satisfies the laws.
    - [Support.v]: the traits of [modules/support/src/lib.rs] as classes, with
      the laws a client's theorems use; each pallet's file proves its laws as an
      instance, and clients are proved against the laws only.
    - [Dex.v]: [modules/dex/src/lib.rs]; [DexQuotes.v], [DexSwap.v] and
      [DexSafety.v] hold its theorems.
    - [Treasury.v] and [TreasuryAuctions.v]: [modules/cdp-treasury/src/lib.rs].
    - [Loans.v]: [modules/loans/src/lib.rs].
    - [Prices.v]: [modules/prices/src/lib.rs].
    - [AuctionManager.v]: [modules/auction-manager/src/lib.rs]; its theorems are
      in [AuctionSpecs.v].
    - [EmergencyShutdown.v]: [modules/emergency-shutdown/src/lib.rs].
    - [CdpEngine.v]: [modules/cdp-engine/src/lib.rs] and
      [debit_exchange_rate_convertor.rs]; its theorems are in [CdpSpecs.v].
    - [Honzon.v]: [modules/honzon/src/lib.rs].
    - [World.v]: all of them in one runtime, on which the theorems of the
      protocol are applied.
    - [Bytes.v]: byte strings, big-endian numbers and slices, as the standard
      library of Rust has them.
    - [EvmBridge.v]: [modules/evm-bridge/src/lib.rs], over a class [EVM] of the
      virtual machine it calls; the class [EVMBridge] is what it offers.
    - [EvmManager.v]: [modules/evm-manager/src/lib.rs] and the addresses of
      currencies ([TryFrom<CurrencyId> for EvmAddress], [Into<u32> for DexShare]
      in [primitives/src/currency.rs]), against the interface [EVMBridge];
      [EvmSample.v] instantiates both with a machine of two contracts.
    - [StorageMeter.v]: [modules/evm/src/runner/storage_meter.rs] and the
      transactions of [runner/handler.rs] that create and finish meters.  The
      references a meter holds to its parent are a stack of meters.
    - [NomineesElection.v]: [modules/nominees-election/src/lib.rs]; its theorems
      are in [NomineesSpecs.v].
    - [HomaValidatorList.v]: [modules/homa-validator-list/src/lib.rs], its calls
      written against a class of guarantee stores that both the storage of the
      pallet and its specification in [HomaValidatorSpecs.v] implement.
    - [CollatorSelection.v]: [modules/collator-selection/src/lib.rs]; its theorems
      are in [CollatorSpecs.v], about histories as a step relation.
    - [Incentives.v]: [modules/incentives/src/lib.rs], over the storage of
      [orml_rewards], which is given the pallet's [payout] and keeps what the laws
      in [IncentivesSpecs.v] say; [IncentivesSample.v] is a runtime with a small
      store in its place.
    - [PolkadotBridge.v]: the relay chain as an interface
      ([modules/support/src/homa.rs]) with laws, and the simulated one of
      [modules/polkadot-bridge/src/lib.rs] as an instance.
    - [StakingPool.v]: [modules/staking-pool/src/lib.rs] over that interface, and
      [modules/homa/src/lib.rs] over the interface of the pool.  [StakingSpecs.v]
      has the books of the pool and what keeps them, [StakingSafety.v] histories
      of the pool as a step relation, [StakingSample.v] a history over four eras.
    - [FeeModel.v]: the fee model of [runtime/common/src/homa.rs].
    - [EvmAccounts.v]: [modules/evm-accounts/src/lib.rs], with hashes and
      signatures as parameters; the class [AddressMapping] is what it offers, and
      [EvmAccountsSample.v] has toy hashes.
    - [Currencies.v]: [modules/currencies/src/lib.rs], an instance of the currency
      traits over the instances it dispatches to; [CurrenciesSpecs.v] has the one
      book it implements, [CurrenciesSample.v] a chain with three kinds of
      currencies.
    - [TransactionPayment.v]: [modules/transaction-payment/src/lib.rs]; its
      theorems are in [PaymentSpecs.v], a chain of two currencies in
      [PaymentSample.v].
    - [Evm.v]: the storage and the extrinsics of [modules/evm/src/lib.rs] and the
      deposits of [runner/handler.rs], and [EvmRunner.v]: the frames of
      [runner/handler.rs] and the runner of [runner/mod.rs], over an interpreter
      that is a parameter and makes [Request]s.  [EvmFrames.v] has a rule for what
      all frames keep, [EvmMoves.v] the laws of the chain around the pallet and the
      steps frames take on its storage, of which precompiled contracts take some,
      too; [EvmSpecs.v] has the deposits and [EvmCodes.v] the codes each
      step keeps, [EvmHistories.v] histories of the pallet as a step relation,
      [EvmGas.v] that executions end, [EvmCalls.v] creations, [set_code] and the
      interface to other pallets, [EvmPalletSample.v] a machine of small programs.
    - [Nft.v]: [modules/nft/src/lib.rs] over the token storage of [orml_nft];
      [NftSpecs.v] has its theorems, [NftSample.v] a store.
    - [Bridges.v]: the currencies the bridges move, as they call them, and what of
      a currency is outside an account.  [Starport.v] and [StarportSpecs.v]:
      [ecosystem-modules/starport/src/lib.rs] and [compound-cash/src/lib.rs];
      [Renvm.v] and [RenvmSpecs.v]: [ren/renvm-bridge/src/lib.rs]; [Chainsafe.v]
      and [ChainsafeSpecs.v]: [chainsafe/src/lib.rs]; [BridgesSample.v] has short
      histories of the three.
    - [Precompiles.v]: [runtime/common/src/precompile/], over the interfaces above;
      [PrecompileSpecs.v] has the theorems and [PrecompileSample.v] calls of them.
      [EthPrecompiles.v]: [modules/evm/src/precompiles.rs].
    - [Airdrop.v]: [modules/airdrop/src/lib.rs].
    - [Governance.v]: [runtime/mandala/src/authority.rs] and the origins of the
      runtimes' [lib.rs], over an interface of the origins of external pallets;
      [CallFilters.v]: the filters of calls and proxies and the locations of
      currencies in [lib.rs] of Mandala and Karura.

    A definition has the name of the Rust function it translates; where two
    pallets use one name, or a trait's method has the name of an extrinsic, it
    carries the pallet's prefix ([cdp_adjust_position], [dex_swap_with_exact_supply],
    [am_cancel_auction], [treasury_issue_debit]).  Extrinsics take their [Origin]
    and are [transactional] where the code says so.

    ** What is shown

    - The exchange: quotes are optimal for the constant product and sufficient
      for a target; swaps do exactly what they say and never lower a product;
      every call keeps the exchange solvent and well formed; pairs follow their
      life cycle; a swap moves the reserves of its path by its hops and nothing
      else of the exchange; removing liquidity and disabling a provision pay back exactly.
    - Loans: the totals are the sums of the positions and are backed by the
      pallet's account; adjustments and transfers have exactly their effect.
    - The treasury: debit and surplus are offset exactly; collateral in auction
      is never sold; lots add up, and their loop ends.
    - Auctions: the books balance under every handler; an accepted bid and a
      cancellation settle exactly.
    - Prices: the square root is exact and does not overflow; a liquidity token
      is never valued above its pool; a lock pins a price.
    - The engine and Honzon: an accepted position is safe; liquidation,
      settlement and closing account for all of the collateral and the debit;
      interest only accrues; authorizations are backed by deposits.
    - The shutdown only moves forward, and a redemption is pro rata.
    - The election: after any history of calls and eras the votes of a nominee
      are the recount of the ledgers that nominate it; what is unbonded becomes
      withdrawable, whatever others do.
    - The validator list refines a book of guarantees that caches no totals.
    - Collators: sets and bonds keep their bounds over any history, and the end
      of a session removes exactly whom a reference definition names.
    - Incentives: deposited liquidity tokens stay in custody while rewards are
      paid, and the pallet conforms to the interface the exchange was proved
      against.
    - The staking pool: over any history its balance covers the free pool and
      every redemption that is due, as long as the relay chain returns what was
      unbonded for redemptions; the bridge conserves the staking currency; the fee
      is at most what is available.
    - The EVM: a registered currency survives the round trip through its
      address; the views of a contract are what a reference decoder makes of its
      output; meters account for a tree of calls as a recursive count does.

    - Addresses: accounts and their addresses lead to each other over any history,
      and only who holds a key binds its address.
    - Currencies: whichever pallet or contract holds a balance, a transfer moves
      one amount in its column of one book, and a contract costs no more than the
      deposits of the storage it uses; reserved tokens of contracts can be
      released, at that cost.
    - Fees: what is taken before a call and given back after it add up to the fee of
      what the call did, whichever currency paid; currencies are tried in the order
      the code means; the multiplier follows the load.
    - Contracts: over any history, whatever programs run, the deposits cover every
      byte recorded and every slot is recorded; the code of a contract is stored
      and counted; a new contract has the code its constructor returned; every
      execution ends within steps proportional to its gas; a
      view leaves no trace, as the interface to other pallets demands.
    - Tokens: what is reserved of an account is exactly the deposits of what it
      owns, and a token moves only by its owner.
    - Bridges: what is outside of a bridge's account is what there was, less what
      was sent, plus what was received; notices take effect once; bridged
      tokens are those RenVM signed for.
    - Precompiled contracts: parameters are read back as they were encoded; a
      transfer is one of the currencies; prices are scaled by decimals.

    - The runtimes: an authority acts by its rule of delay and share
      ([dispatch_follows_rule]), and a wider share or a longer delay is never
      refused what a smaller one may; the order of proxies is the inclusion of what
      they allow; currencies and their locations lead to each other.

    The theorems about calls exclude panics, except where one says when the code
    panics: a failing call returns an error
    and, where the code undoes it, leaves no trace.

    ** Bounds and fuel

    The recursion of [integer_sqrt] gets a fuel of 129, proved enough for every
    256-bit number; [get_price] gets 3, enough for a liquidity token of the
    liquid currency ([price_fuel_enough]); the lot loop gets its number of lots,
    proved exact.  The rebonding loops and the loop over frames are structural.  The
    width of [usize], which the decoding of strings depends on, is a parameter.
    Loops over storage are structural over the list of what is
    stored, in an order that is a parameter.  An execution of the EVM gets a number
    of steps for all its frames together; [gas_ends_execution] proves that a fixed
    number for each unit of the gas limit, and what one frame may ask before it is
    charged, is enough for any program, as long as an interpreter asks a bounded
    number of times between two charges ([GasLaws]).  The loop over the
    tokens minted at once and the loop over the path of a swap run over their count.

    ** Where the code does not do what it means to

    Completing the provisioning of a pair loses the reserve of its second
    currency ([conversion_loses_second_reserve]); interest is issued on the value
    of the debit times the exchange rate once more ([interest_issue_scaled]);
    [enable_trading_pair] accepts a pair of a currency with itself.  A loan may be
    transferred to its own account, and aborts where twice the position does not
    fit ([loans_ops_safe]).  The bridge
    to the EVM aborts on an offset outside the output of a contract, or an output
    longer than a word ([erc20_views_spec]).  A frame that is rolled back leaves
    what it had reported to its ancestors ([meter_refines]).  Decoding the address of
    a pair looks contracts up by four bytes of their address and does not compare
    the rest ([currency_roundtrip]).  New invulnerable collators may be repeated or
    candidates already, and then appear twice in a session
    ([collator_histories_safe] holds for careful choices).  An early redemption of
    all that is available costs less than one of a little less
    ([curve_fee_bounded_witness]).  The list of currencies that pay fees keeps
    repeats that are not neighbours ([charge_order_witness]).  Setting the code of a
    contract writes the old account back over the new one
    ([set_code_writes_back]); a creation takes an address over from the contract
    that is there ([creation_takes_address]); genesis does not record the slots of
    its contracts.  A signature of RenVM has two encodings and mints twice
    ([one_signature_mints_twice]); notices are signed by naming the authorities
    ([anyone_may_invoke]).  The price contract divides by zero for a currency of
    more than 18 decimals ([oracle_scales_price]), and the contracts drop the high
    half of an amount ([token_contract_transfers]).  The origins of democracy that
    are meant for a unanimous council ask for more than all of its seats and admit
    only the root ([unanimity_is_refused]).

    ** What is not modelled

    Weights, benchmarks, mocks and tests; the storage, locks and randomness of
    offchain workers (the choice of what they submit is modelled); account
    existence and reference counts beyond their calls; the ledgers of the balances
    and tokens pallets, which are code of others.  So are the interpreter and the
    gas meter of the EVM, hash functions and signatures, the storage of tokens and
    rewards, the scheduler, proxies and the relay of the ChainSafe bridge: they are
    parameters, with laws where a theorem relies on them, and toy instances that
    satisfy the laws.  The laws of ledgers are about balances above the existential
    deposit: dust, which the balances pallet gives to the treasury, is not counted.
    What precompiled contracts do to the EVM pallet is a law of their own
    ([PrecompileLaws]): they move money, deposit events, hand over contracts and
    run contracts of a bounded number of steps, as [execute_moves] shows of any
    run.  The collective, authority and proxy pallets and the codec of locations
    are parameters, too.  The rest of the runtimes under [runtime/] configures the
    pallets by macros and constants; [node/], [rpc/], [inspect/] and the RPC of the
    EVM are glue around the client; [modules/example] is a template.  These have
    no logic that a definition could translate. *)
From stdpp Require Export base gmap sets list strings numbers fin_maps.
From Stdlib Require Export ZArith NArith Lia.

#[global] Open Scope Z_scope.

(** ** Machine integers

    A Rust [u128], [u32] or [U256] is a [Z] together with the range of its
    type; every operation of the code that saturates, fails or truncates is
    written out below with the bound of its type. *)

Definition U128_MAX : Z := 340282366920938463463374607431768211455.
Definition U256_MAX : Z :=
  115792089237316195423570985008687907853269984665640564039457584007913129639935.
Definition U32_MAX : Z := 4294967295.
Definition I128_MAX : Z := 170141183460469231731687303715884105727.
Definition I128_MIN : Z := -170141183460469231731687303715884105728.

Definition is_u128 (x : Z) : Prop := 0 <= x <= U128_MAX.
Definition is_u256 (x : Z) : Prop := 0 <= x <= U256_MAX.
Definition is_u32 (x : Z) : Prop := 0 <= x <= U32_MAX.
Definition is_i128 (x : Z) : Prop := I128_MIN <= x <= I128_MAX.

Module U128.
Definition saturating_add (a b : Z) : Z := Z.min (a + b) U128_MAX.
Definition saturating_sub (a b : Z) : Z := Z.max (a - b) 0.
Definition saturating_mul (a b : Z) : Z := Z.min (a * b) U128_MAX.
Definition checked_add (a b : Z) : option Z :=
  if a + b <=? U128_MAX then Some (a + b) else None.
Definition checked_sub (a b : Z) : option Z :=
  if b <=? a then Some (a - b) else None.
Definition checked_mul (a b : Z) : option Z :=
  if a * b <=? U128_MAX then Some (a * b) else None.
Definition checked_div (a b : Z) : option Z :=
  if b =? 0 then None else Some (a / b).
Definition checked_rem (a b : Z) : option Z :=
  if b =? 0 then None else Some (a mod b).
(** [10u128.checked_pow(n)] and the like *)
Definition checked_pow (a n : Z) : option Z :=
  if a ^ n <=? U128_MAX then Some (a ^ n) else None.
(** [TryInto::<u128>::try_into] of a wider unsigned integer *)
Definition try_from (x : Z) : option Z :=
  if x <=? U128_MAX then Some x else None.
End U128.

Module U256.
Definition saturating_add (a b : Z) : Z := Z.min (a + b) U256_MAX.
Definition saturating_sub (a b : Z) : Z := Z.max (a - b) 0.
Definition saturating_mul (a b : Z) : Z := Z.min (a * b) U256_MAX.
Definition checked_add (a b : Z) : option Z :=
  if a + b <=? U256_MAX then Some (a + b) else None.
Definition checked_mul (a b : Z) : option Z :=
  if a * b <=? U256_MAX then Some (a * b) else None.
Definition checked_div (a b : Z) : option Z :=
  if b =? 0 then None else Some (a / b).
End U256.

Module I128.
Definition is_positive (a : Z) : bool := 0 <? a.
Definition is_negative (a : Z) : bool := a <? 0.
(** [i128::saturating_abs]: the absolute value of the minimum is the maximum *)
Definition saturating_abs (a : Z) : Z := Z.min (Z.abs a) I128_MAX.
Definition saturating_neg (a : Z) : Z := Z.min (- a) I128_MAX.
(** [TryInto::<i128>::try_into] of an unsigned integer *)
Definition try_from (x : Z) : option Z :=
  if x <=? I128_MAX then Some x else None.
End I128.

(** [+] and [-] on unsigned integers wrap outside of debug builds. *)
Definition u128_wrapping_add (a b : Z) : Z := (a + b) mod 2 ^ 128.
Definition u128_wrapping_sub (a b : Z) : Z := (a - b) mod 2 ^ 128.
Definition u32_wrapping_add (a b : Z) : Z := (a + b) mod 2 ^ 32.

(** [uarith] exposes the bounds and closes a linear goal about them. *)
Ltac uunfold :=
  unfold is_u128, is_u256, is_u32, is_i128,
    U128.saturating_add, U128.saturating_sub, U128.saturating_mul,
    U256.saturating_add, U256.saturating_sub, U256.saturating_mul,
    I128.saturating_abs, I128.saturating_neg,
    I128.is_positive, I128.is_negative,
    U128_MAX, U256_MAX, U32_MAX, I128_MAX, I128_MIN in *.
Ltac uarith := uunfold; lia.

Ltac ucase := split; intros; destruct_and?; simplify_eq; repeat split; first [done | lia | congruence | f_equal; lia].

(** A concrete hypothesis of a witness is checked by evaluation. *)
Ltac wcheck := vm_compute; repeat split; first [reflexivity | congruence].

(** The checked operations, as equivalences a proof can rewrite with. *)
Section Checked.
Lemma checked_add_Some a b r :
  U128.checked_add a b = Some r <-> r = a + b /\ a + b <= U128_MAX.
Proof. unfold U128.checked_add. destruct (Z.leb_spec (a + b) U128_MAX); ucase. Qed.
Lemma checked_add_None a b : U128.checked_add a b = None <-> U128_MAX < a + b.
Proof. unfold U128.checked_add. destruct (Z.leb_spec (a + b) U128_MAX); ucase. Qed.
Lemma checked_sub_Some a b r : U128.checked_sub a b = Some r <-> r = a - b /\ b <= a.
Proof. unfold U128.checked_sub. destruct (Z.leb_spec b a); ucase. Qed.
Lemma checked_sub_None a b : U128.checked_sub a b = None <-> a < b.
Proof. unfold U128.checked_sub. destruct (Z.leb_spec b a); ucase. Qed.
Lemma checked_div_Some a b r : U128.checked_div a b = Some r <-> r = a / b /\ b <> 0.
Proof. unfold U128.checked_div. destruct (Z.eqb_spec b 0); ucase. Qed.
End Checked.

(** Saturation, one operation at a time. *)
Section Saturating.
Lemma saturating_back v x : is_u128 v -> is_u128 x -> x <= v ->
  U128.saturating_add (U128.saturating_sub v x) x = v.
Proof. uarith. Qed.
Lemma saturating_add_ge u x : is_u128 u -> is_u128 x -> u <= U128.saturating_add u x.
Proof. uarith. Qed.
Lemma saturating_add_le v x : U128.saturating_add v x <= v + x.
Proof. uarith. Qed.
Lemma saturating_add_exact v x : v + x <= U128_MAX -> U128.saturating_add v x = v + x.
Proof. uarith. Qed.
Lemma saturating_sub_exact v x : x <= v -> U128.saturating_sub v x = v - x.
Proof. uarith. Qed.
Lemma saturating_add_u128 v x : is_u128 v -> is_u128 x -> is_u128 (U128.saturating_add v x).
Proof. uarith. Qed.
Lemma saturating_sub_u128 v x : is_u128 v -> is_u128 x -> is_u128 (U128.saturating_sub v x).
Proof. uarith. Qed.
End Saturating.

(** ** Results

    A call of the runtime returns [Ok] or [Err], or it panics; a panic aborts
    the block, so it is kept apart from the errors a caller can handle. *)

Inductive outcome (E A : Type) : Type :=
  | Ok (a : A)
  | Err (e : E)
  | Panic.
Arguments Ok {E A} a.
Arguments Err {E A} e.
Arguments Panic {E A}.

(** The runtime monad: storage is threaded through, and an error keeps the
    changes made before it unless the call is [transactional]. *)
Definition M (E S A : Type) : Type := S -> outcome E A * S.

#[export] Instance M_ret {E S} : MRet (M E S) := fun A a s => (Ok a, s).
#[export] Instance M_bind {E S} : MBind (M E S) := fun A B k m s =>
  match m s with
  | (Ok a, s') => k a s'
  | (Err e, s') => (Err e, s')
  | (Panic, s') => (Panic, s')
  end.

#[export] Instance outcome_ret {E} : MRet (outcome E) := fun A a => Ok a.
#[export] Instance outcome_bind {E} : MBind (outcome E) := fun A B k m =>
  match m with Ok a => k a | Err e => Err e | Panic => Panic end.

(** Checks of the functions that only read storage. *)
Definition oensure {E} (b : bool) (e : E) : outcome E unit := if b then Ok tt else Err e.
Definition ook_or {E A} (o : option A) (e : E) : outcome E A :=
  match o with Some a => Ok a | None => Err e end.
(** [Result::ok] *)
Definition ok {E A} (r : outcome E A) : option A := match r with Ok a => Some a | _ => None end.

Section Monad.
Context {E S : Type}.

(** A function that only reads storage. *)
Definition reads {A} (f : S -> outcome E A) : M E S A := fun s => (f s, s).

Definition throw {A} (e : E) : M E S A := fun s => (Err e, s).
Definition panic {A} : M E S A := fun s => (Panic, s).
Definition gets {A} (f : S -> A) : M E S A := fun s => (Ok (f s), s).
Definition modify (f : S -> S) : M E S unit := fun s => (Ok tt, f s).
(** [ensure!(b, e)] *)
Definition ensure (b : bool) (e : E) : M E S unit := if b then mret tt else throw e.
(** [o.ok_or(e)?] *)
Definition ok_or {A} (o : option A) (e : E) : M E S A :=
  match o with Some a => mret a | None => throw e end.
(** [o.expect(..)] *)
Definition expect {A} (o : option A) : M E S A :=
  match o with Some a => mret a | None => panic end.
(** [#[transactional]]: storage changes are undone when the call fails *)
Definition transactional {A} (m : M E S A) : M E S A := fun s =>
  match m s with
  | (Err e, _) => (Err e, s)
  | r => r
  end.
(** [match m { Ok(a) => .., Err(e) => .. }]: the caller handles the error *)
Definition attempt {A} (m : M E S A) : M E S (A + E) := fun s =>
  match m s with
  | (Ok a, s') => (Ok (inl a), s')
  | (Err e, s') => (Ok (inr e), s')
  | (Panic, s') => (Panic, s')
  end.
(** [for x in l { f(x)?; }] *)
Fixpoint for_each {A} (f : A -> M E S unit) (l : list A) : M E S unit :=
  match l with
  | [] => mret tt
  | x :: l => _ ← f x; for_each f l
  end.
End Monad.

(** ** Weakest preconditions

    [wp m Q R s]: run in [s], [m] does not panic, and ends in [Q] when it
    succeeds, in [R] when it returns an error. *)
Ltac wp_cases := split; [intros HX; split; intros; simplify_eq; auto | intros [? ?]; auto].

(** A read that succeeded passed each of its checks. *)
Create HintDb no_panic.
Section Outcome.
Context {E : Type}.
Lemma obind_Ok {A B} (m : outcome E A) (k : A -> outcome E B) b :
  m ≫= k = Ok b <-> exists a, m = Ok a /\ k a = Ok b.
Proof. destruct m; unfold mbind, outcome_bind; naive_solver. Qed.
Lemma oensure_Ok b (e : E) u : oensure b e = Ok u <-> b = true.
Proof. destruct b, u; unfold oensure; naive_solver. Qed.
Lemma ook_or_Ok {A} (o : option A) (e : E) a : ook_or o e = Ok a <-> o = Some a.
Proof. destruct o; unfold ook_or; naive_solver. Qed.
Lemma obind_no_panic {A B} (m : outcome E A) (k : A -> outcome E B) :
  m <> Panic -> (forall a, m = Ok a -> k a <> Panic) -> m ≫= k <> Panic.
Proof. unfold mbind, outcome_bind. destruct m; intros; try done. auto. Qed.
Lemma oensure_no_panic b (e : E) : oensure b e <> Panic.
Proof. by destruct b. Qed.
Lemma ook_or_no_panic {A} (o : option A) (e : E) : ook_or o e <> Panic.
Proof. by destruct o. Qed.
Lemma oret_no_panic {A} (a : A) : (mret a : outcome E A) <> Panic.
Proof. done. Qed.
End Outcome.
#[export] Hint Resolve oensure_no_panic ook_or_no_panic oret_no_panic : no_panic.
Ltac no_panic :=
  repeat (apply obind_no_panic; [solve [eauto with no_panic] | intros]);
  try solve [eauto with no_panic].

Ltac rinv H :=
  lazymatch type of H with
  | @mbind _ _ _ _ _ _ = Ok _ =>
      let a := fresh "a" in let H1 := fresh "Ho" in
      apply obind_Ok in H as (a & H1 & H); cbv beta in H; rinv H1; rinv H
  | oensure _ _ = Ok _ => apply oensure_Ok in H
  | ook_or _ _ = Ok _ => apply ook_or_Ok in H
  | @mret _ _ _ _ = Ok _ => injection H as ?; subst
  | (if ?b then _ else _) = Ok _ => let Hb := fresh "Hif" in destruct b eqn:Hb; rinv H
  | _ => idtac
  end.

Section WP.
Context {E S : Type}.

Definition wp {A} (m : M E S A) (Q : A -> S -> Prop) (R : E -> S -> Prop) (s : S) : Prop :=
  match m s with
  | (Ok a, s') => Q a s'
  | (Err e, s') => R e s'
  | (Panic, _) => False
  end.

Lemma wp_ok {A} (m : M E S A) Q R s a s' : wp m Q R s -> m s = (Ok a, s') -> Q a s'.
Proof. unfold wp. intros H Hm. by rewrite Hm in H. Qed.
Lemma wp_err {A} (m : M E S A) Q R s e s' : wp m Q R s -> m s = (Err e, s') -> R e s'.
Proof. unfold wp. intros H Hm. by rewrite Hm in H. Qed.
Lemma wp_no_panic {A} (m : M E S A) Q R s s' : wp m Q R s -> m s <> (Panic, s').
Proof. unfold wp. intros H Hm. by rewrite Hm in H. Qed.
Lemma wp_mono {A} (m : M E S A) (Q Q' : A -> S -> Prop) (R R' : E -> S -> Prop) s :
  wp m Q R s -> (forall a t, Q a t -> Q' a t) -> (forall e t, R e t -> R' e t) ->
  wp m Q' R' s.
Proof. unfold wp. intros H HQ HR. destruct (m s) as [[a|e|] t]; auto. Qed.

Lemma wp_bind {A B} (m : M E S A) (k : A -> M E S B) Q R s :
  wp (m ≫= k) Q R s <-> wp m (fun a => wp (k a) Q R) R s.
Proof. unfold wp, mbind, M_bind. destruct (m s) as [[a|e|] t]; done. Qed.
(** A call [m ≫= k] met by a guard after its first step *)
Lemma wp_bind_mono {A B} (m : M E S A) (k : A -> M E S B) (Q Q' : B -> S -> Prop) R s :
  wp (m ≫= k) Q R s -> (forall b t, Q b t -> Q' b t) -> wp m (fun a => wp (k a) Q' R) R s.
Proof.
  intros H HQ. apply wp_bind in H. eapply wp_mono; [exact H| |done]. intros a t Ht.
  eapply wp_mono; [exact Ht|done|done].
Qed.
Lemma wp_ret {A} (a : A) Q R s : wp (mret a : M E S A) Q R s <-> Q a s.
Proof. done. Qed.
Lemma wp_throw {A} e (Q : A -> S -> Prop) R s : wp (throw e) Q R s <-> R e s.
Proof. done. Qed.
Lemma wp_gets {A} (f : S -> A) Q R s : wp (gets f) Q R s <-> Q (f s) s.
Proof. done. Qed.
Lemma wp_modify f Q R s : wp (modify f) Q R s <-> Q tt (f s).
Proof. done. Qed.
Lemma wp_reads {A} (f : S -> outcome E A) Q R s :
  wp (reads f) Q R s <->
  match f s with Ok a => Q a s | Err e => R e s | Panic => False end.
Proof. done. Qed.
Lemma reads_Ok {A} (f : S -> outcome E A) (s s' : S) a :
  reads f s = (Ok a, s') <-> f s = Ok a /\ s' = s.
Proof. unfold reads. split; [intros [= -> ->] | intros [-> ->]]; done. Qed.
Lemma wp_ensure b e Q R s :
  wp (ensure b e) Q R s <-> (b = true -> Q tt s) /\ (b = false -> R e s).
Proof. destruct b; cbv [ensure]; [rewrite wp_ret | rewrite wp_throw]; wp_cases. Qed.
Lemma wp_ok_or {A} (o : option A) e Q R s :
  wp (ok_or o e) Q R s <-> (forall a, o = Some a -> Q a s) /\ (o = None -> R e s).
Proof. destruct o; cbv [ok_or]; [rewrite wp_ret | rewrite wp_throw]; wp_cases. Qed.
Lemma wp_expect {A} (o : option A) Q R s :
  (exists a, o = Some a /\ Q a s) -> wp (expect o) Q R s.
Proof. intros (a & -> & HQ). exact HQ. Qed.
Lemma wp_transactional {A} (m : M E S A) Q R s :
  wp (transactional m) Q R s <-> wp m Q (fun e _ => R e s) s.
Proof. unfold wp, transactional. destruct (m s) as [[a|e|] t]; done. Qed.
Lemma wp_attempt {A} (m : M E S A) Q R s :
  wp (attempt m) Q R s <-> wp m (fun a => Q (inl a)) (fun e => Q (inr e)) s.
Proof. unfold wp, attempt. destruct (m s) as [[a|e|] t]; done. Qed.

(** A loop keeps an invariant its body keeps. *)
Lemma wp_for_each {A} (f : A -> M E S unit) (l : list A) (I : S -> Prop) (R : E -> S -> Prop) s :
  I s -> (forall x t, x ∈ l -> I t -> wp (f x) (fun _ => I) R t) ->
  wp (for_each f l) (fun _ => I) R s.
Proof.
  revert s. induction l as [|x l IH]; intros s HI Hf; cbn [for_each].
  - by rewrite wp_ret.
  - rewrite wp_bind. eapply wp_mono; [apply Hf; [set_solver|done]| |done].
    intros [] t Ht. apply IH; [done|]. intros y u Hy. apply Hf. set_solver.
Qed.

Lemma bind_Ok_inv {A B} (m : M E S A) (k : A -> M E S B) s b s' :
  (m ≫= k) s = (Ok b, s') -> exists a t, m s = (Ok a, t) /\ k a t = (Ok b, s').
Proof. unfold mbind, M_bind. destruct (m s) as [[a|e|] t]; naive_solver. Qed.
Lemma transactional_Ok {A} (m : M E S A) s a s' :
  transactional m s = (Ok a, s') <-> m s = (Ok a, s').
Proof. unfold transactional. destruct (m s) as [[?|?|] ?]; naive_solver. Qed.
Lemma transactional_Err {A} (m : M E S A) s e s' :
  transactional m s = (Err e, s') -> s' = s.
Proof. unfold transactional. destruct (m s) as [[?|?|] ?]; naive_solver. Qed.
Lemma ensure_Ok b e (s s' : S) u : ensure (E:=E) b e s = (Ok u, s') <-> b = true /\ s' = s.
Proof. destruct b, u; unfold ensure, mret, M_ret, throw; naive_solver. Qed.
Lemma ok_or_Ok {A} (o : option A) e (s s' : S) a :
  ok_or (E:=E) o e s = (Ok a, s') <-> o = Some a /\ s' = s.
Proof. destruct o; unfold ok_or, mret, M_ret, throw; naive_solver. Qed.
Lemma gets_Ok {A} (f : S -> A) (s s' : S) a :
  gets (E:=E) f s = (Ok a, s') <-> a = f s /\ s' = s.
Proof. unfold gets. naive_solver. Qed.
End WP.

(** A witness names the final state of a run by the run itself. *)
Lemma run_split {E S A} (m : M E S A) s r : (m s).1 = r -> m s = (r, (m s).2).
Proof. intros <-. apply surjective_pairing. Qed.

(** [minv H] opens a successful run [H : m s = (Ok a, s')] along its binds. *)
Ltac minv H :=
  lazymatch type of H with
  | @mbind _ _ _ _ _ _ _ = (Ok _, _) =>
      let a := fresh "a" in let t := fresh "t" in let H1 := fresh "Hm" in
      apply bind_Ok_inv in H as (a & t & H1 & H); cbv beta in H; minv H1; minv H
  | transactional _ _ = (Ok _, _) => apply (proj1 (transactional_Ok _ _ _ _)) in H; minv H
  | ensure _ _ _ = (Ok _, _) =>
      let Hb := fresh "Hens" in apply ensure_Ok in H as [Hb ?]; subst; rename Hb into H
  | ok_or _ _ _ = (Ok _, _) =>
      let Hb := fresh "Hopt" in apply ok_or_Ok in H as [Hb ?]; subst; rename Hb into H
  | reads _ _ = (Ok _, _) =>
      let Hb := fresh "Hread" in apply reads_Ok in H as [Hb ?]; subst; rename Hb into H
  | gets _ _ = (Ok _, _) =>
      let Hb := fresh "Hget" in apply gets_Ok in H as [Hb ?]; subst
  | modify _ _ = (Ok _, _) => first [injection H as ? ? | injection H as ?]; subst
  | @mret _ _ _ _ _ = (Ok _, _) => first [injection H as ? ? | injection H as ?]; subst
  | throw _ _ = (Ok _, _) => discriminate H
  | panic _ = (Ok _, _) => discriminate H
  | (if ?b then _ else _) _ = (Ok _, _) =>
      let Hb := fresh "Hif" in destruct b eqn:Hb; minv H
  | (match ?b with _ => _ end) _ = (Ok _, _) =>
      let Hb := fresh "Hmatch" in destruct b eqn:Hb; minv H
  | _ => idtac
  end.

(** [wp_step] advances a weakest precondition by one operation, [wp_guards] up
    to the next call or branch. *)
Ltac wp_guard :=
  lazymatch goal with
  | |- wp (@mbind _ _ _ _ _ _) _ _ _ => apply wp_bind; cbv beta
  | |- wp (@mret _ _ _ _) _ _ _ => apply wp_ret
  | |- wp (throw _) _ _ _ => apply wp_throw
  | |- wp (gets _) _ _ _ => apply wp_gets
  | |- wp (reads _) _ _ _ => apply wp_reads
  | |- wp (modify _) _ _ _ => apply wp_modify
  | |- wp (transactional _) _ _ _ => apply wp_transactional
  | |- wp (attempt _) _ _ _ => apply wp_attempt
  | |- wp (ensure _ _) _ _ _ =>
      let H := fresh "Hens" in apply wp_ensure; split; intros H
  | |- wp (ok_or _ _) _ _ _ =>
      let a := fresh "a" in let H := fresh "Hopt" in
      apply wp_ok_or; split; [intros a H | intros H]
  end.
Ltac wp_branch :=
  lazymatch goal with
  | |- wp (if ?b then _ else _) _ _ _ =>
      let H := fresh "Hif" in destruct b eqn:H
  | |- wp (match ?b with _ => _ end) _ _ _ =>
      let H := fresh "Hmatch" in destruct b eqn:H
  end.
Ltac wp_step := first [wp_guard | wp_branch].
Ltac wp_guards := repeat (wp_guard; cbv beta; try done).
Ltac wp_go := repeat (wp_step; cbv beta; try done).

(** ** Sums over a storage map *)

Section MapSum.
Context {K V : Type} `{Countable K}.
Implicit Types (f : K -> V -> Z) (m : gmap K V).

Definition map_sum f m : Z := map_fold (fun k v acc => f k v + acc) 0 m.

Lemma map_sum_empty f : map_sum f ∅ = 0.
Proof. apply map_fold_empty. Qed.
Lemma map_sum_insert_None f m k v :
  m !! k = None -> map_sum f (<[k:=v]> m) = f k v + map_sum f m.
Proof. intros Hk. unfold map_sum. rewrite map_fold_insert_L; [done| |done]. intros; lia. Qed.
Lemma map_sum_delete f m k :
  map_sum f (delete k m) = map_sum f m - from_option (f k) 0 (m !! k).
Proof.
  destruct (m !! k) as [v|] eqn:Hk; cbn [from_option].
  - rewrite <- (insert_delete_id m k v Hk) at 2.
    rewrite map_sum_insert_None by apply lookup_delete_eq. lia.
  - rewrite delete_id by done. lia.
Qed.
Lemma map_sum_insert f m k v :
  map_sum f (<[k:=v]> m) = map_sum f m - from_option (f k) 0 (m !! k) + f k v.
Proof.
  rewrite <- insert_delete_eq, map_sum_insert_None by apply lookup_delete_eq.
  rewrite map_sum_delete. lia.
Qed.
Lemma map_sum_nonneg f m :
  (forall k v, m !! k = Some v -> 0 <= f k v) -> 0 <= map_sum f m.
Proof.
  induction m as [|k v m Hk IH] using map_ind; intros Hf; [by rewrite map_sum_empty|].
  rewrite map_sum_insert_None by done.
  assert (0 <= f k v) by (apply Hf; by rewrite lookup_insert_eq).
  enough (0 <= map_sum f m) by lia. apply IH. intros k' v' Hk'. apply Hf.
  rewrite lookup_insert_ne; [done|]. intros ->. congruence.
Qed.
Lemma map_sum_lookup_le f m k v :
  (forall k v, m !! k = Some v -> 0 <= f k v) -> m !! k = Some v -> f k v <= map_sum f m.
Proof.
  intros Hf Hk. pose proof (map_sum_delete f m k) as Hd. rewrite Hk in Hd. cbn in Hd.
  enough (0 <= map_sum f (delete k m)) by lia.
  apply map_sum_nonneg. intros k' v' [_ Hk']%lookup_delete_Some. eauto.
Qed.
Lemma map_sum_ext f g m :
  (forall k v, m !! k = Some v -> f k v = g k v) -> map_sum f m = map_sum g m.
Proof.
  induction m as [|k v m Hk IH] using map_ind; intros Hf; [by rewrite !map_sum_empty|].
  rewrite !map_sum_insert_None by done. rewrite Hf by apply lookup_insert_eq.
  rewrite IH; [done|]. intros k' v' Hk'. apply Hf.
  rewrite lookup_insert_ne; [done|]. intros ->. congruence.
Qed.
Lemma map_sum_zero f m :
  (forall k v, m !! k = Some v -> f k v = 0) -> map_sum f m = 0.
Proof.
  intros Hf. rewrite (map_sum_ext f (fun _ _ => 0) m Hf). clear Hf.
  induction m as [|k v m Hk IH] using map_ind; [by rewrite map_sum_empty|].
  rewrite map_sum_insert_None by done. lia.
Qed.
Lemma map_sum_single f m k :
  (forall k' v, k' <> k -> f k' v = 0) -> map_sum f m = from_option (f k) 0 (m !! k).
Proof.
  intros Hf. pose proof (map_sum_delete f m k) as Hd.
  rewrite (map_sum_zero f (delete k m)) in Hd; [lia|].
  intros k' v [Hne _]%lookup_delete_Some. by apply Hf.
Qed.
(** The sum after an entry changed, and the summand with it *)
Lemma map_sum_delete_ext f g m k :
  (forall k' v, k' <> k -> g k' v = f k' v) -> map_sum g (delete k m) = map_sum f (delete k m).
Proof.
  intros Hfg. apply map_sum_ext. intros k' v [Hne _]%lookup_delete_Some. by apply Hfg.
Qed.
Lemma map_sum_update f g m k v :
  (forall k' v, k' <> k -> g k' v = f k' v) ->
  map_sum g (<[k:=v]> m) = map_sum f m - from_option (f k) 0 (m !! k) + g k v.
Proof.
  intros Hfg. rewrite <- insert_delete_eq, map_sum_insert_None by apply lookup_delete_eq.
  rewrite (map_sum_delete_ext f g) by done. rewrite map_sum_delete. lia.
Qed.
Lemma map_sum_change f g m k :
  (forall k' v, k' <> k -> g k' v = f k' v) ->
  map_sum g m = map_sum f m - from_option (f k) 0 (m !! k) + from_option (g k) 0 (m !! k).
Proof.
  intros Hfg. pose proof (map_sum_delete g m k) as Hg. pose proof (map_sum_delete f m k) as Hf.
  rewrite (map_sum_delete_ext f g) in Hg by done. lia.
Qed.
End MapSum.

(** Sums of values, where a missing entry counts as zero *)
Abbreviation value_sum := (map_sum (fun _ (v : Z) => v)).
Section ValueSum.
Context {K : Type} `{Countable K}.
Implicit Types m : gmap K Z.
Lemma value_sum_ext m1 m2 :
  (forall k, default 0 (m2 !! k) = default 0 (m1 !! k)) -> value_sum m2 = value_sum m1.
Proof.
  revert m2. induction m1 as [|k v m1 Hk IH] using map_ind; intros m2 Hm.
  - rewrite map_sum_empty. apply map_sum_zero. intros k v Hv. specialize (Hm k).
    by rewrite Hv, lookup_empty in Hm.
  - rewrite map_sum_insert_None, <- (IH (delete k m2)) by
      (done || (intros k'; destruct (decide (k' = k)) as [->|Hne];
        [by rewrite lookup_delete_eq, Hk|
         rewrite lookup_delete_ne by done; rewrite Hm; by rewrite lookup_insert_ne])).
    rewrite map_sum_delete. specialize (Hm k). rewrite lookup_insert_eq in Hm. cbn in Hm.
    destruct (m2 !! k); cbn in *; lia.
Qed.
Lemma value_sum_change m1 m2 k :
  (forall k', k' <> k -> default 0 (m2 !! k') = default 0 (m1 !! k')) ->
  value_sum m2 = value_sum m1 - default 0 (m1 !! k) + default 0 (m2 !! k).
Proof.
  intros Hm. pose proof (map_sum_delete (fun _ (v : Z) => v) m1 k) as H1.
  pose proof (map_sum_delete (fun _ (v : Z) => v) m2 k) as H2.
  rewrite (value_sum_ext (delete k m1) (delete k m2)) in H2.
  - destruct (m1 !! k), (m2 !! k); cbn in *; lia.
  - intros k'. destruct (decide (k' = k)) as [->|Hne]; [by rewrite !lookup_delete_eq|].
    rewrite !lookup_delete_ne by done. auto.
Qed.
End ValueSum.

Section ListSum.
Context {K V : Type} `{Countable K}.
Implicit Types (f : K -> V -> Z) (m : gmap K V).
Definition list_sum (f : K -> V -> Z) (l : list (K * V)) : Z :=
  foldr (fun kv acc => f kv.1 kv.2 + acc) 0 l.
Lemma list_sum_cons f kv l : list_sum f (kv :: l) = f kv.1 kv.2 + list_sum f l.
Proof. done. Qed.
Lemma list_sum_permutation f l1 l2 : l1 ≡ₚ l2 -> list_sum f l1 = list_sum f l2.
Proof. unfold list_sum. induction 1; cbn; lia. Qed.
Lemma map_sum_list f m : map_sum f m = list_sum f (map_to_list m).
Proof.
  induction m as [|k v m Hk IH] using map_ind; [done|].
  rewrite map_sum_insert_None, IH by done. symmetry.
  by rewrite (list_sum_permutation f _ _ (map_to_list_insert m k v Hk)).
Qed.
End ListSum.
Arguments list_sum : simpl never.

(** ** Adding up *)
Section Totals.
Context {A : Type} (f : A -> Z).
Definition sum_of (l : list A) : Z := foldr (fun x acc => f x + acc) 0 l.
Lemma sum_of_nil : sum_of [] = 0.
Proof. done. Qed.
Lemma sum_of_cons x l : sum_of (x :: l) = f x + sum_of l.
Proof. done. Qed.
Lemma sum_of_app l l' : sum_of (l ++ l') = sum_of l + sum_of l'.
Proof. induction l as [|x l IH]; [done|]. cbn [app]. rewrite !sum_of_cons. lia. Qed.
Lemma sum_of_permutation l l' : l ≡ₚ l' -> sum_of l = sum_of l'.
Proof. unfold sum_of. induction 1; cbn; lia. Qed.
Lemma sum_of_nonneg l : (forall x, x ∈ l -> 0 <= f x) -> 0 <= sum_of l.
Proof.
  intros Hl. induction l as [|x l IH]; [done|]. rewrite sum_of_cons.
  pose proof (Hl x ltac:(left)). assert (0 <= sum_of l) by (apply IH; intros; apply Hl; by right). lia.
Qed.
Lemma sum_of_zero l : (forall x, x ∈ l -> f x = 0) -> sum_of l = 0.
Proof.
  intros Hl. induction l as [|x l IH]; [done|]. rewrite sum_of_cons, Hl, IH by (left || (intros; apply Hl; by right)).
  done.
Qed.
(** Adding up with saturation *)
Lemma foldl_saturating_add acc l : 0 <= acc <= U128_MAX -> (forall x, x ∈ l -> 0 <= f x) ->
  foldl (fun acc x => U128.saturating_add acc (f x)) acc l = Z.min U128_MAX (acc + sum_of l).
Proof.
  revert acc. induction l as [|x l IH]; intros acc Ha Hl; cbn [foldl]; [cbn; lia|].
  pose proof (Hl x ltac:(left)). rewrite sum_of_cons, IH by (uarith || (intros; apply Hl; by right)).
  assert (0 <= sum_of l) by (apply sum_of_nonneg; intros; apply Hl; by right). uarith.
Qed.
Lemma sum_of_filter_split `{P : A -> Prop} `{forall x, Decision (P x)} `{Q : A -> Prop} `{forall x, Decision (Q x)} l :
  (forall x, Q x <-> ~ P x) -> sum_of l = sum_of (filter P l) + sum_of (filter Q l).
Proof.
  intros HPQ. induction l as [|x l IH]; [done|]. rewrite !filter_cons, sum_of_cons.
  repeat case_decide; rewrite ?sum_of_cons; first [lia | exfalso; naive_solver].
Qed.
End Totals.
Arguments sum_of : simpl never.
