(* ===== verification/FixedPoint.v ===== *)
(** * Fixed-point numbers

    [Price], [Ratio], [Rate] and [ExchangeRate] are all [FixedU128]
    ([modules/support/src/lib.rs]), a type of the [sp_runtime] crate: an
    unsigned 128-bit integer that counts units of 10^-18.  The crate is not
    part of the repository, so its rounding operations are the members of a
    class and what the code relies on are the laws [FixedU128Laws]: a result
    that is returned is within one unit of the exact quotient, and no result is
    returned only when the exact one does not fit.  Both a truncating and a
    rounding implementation satisfy them. *)
From S2P Require Import Prelude.

(** A [FixedU128] is represented by its inner [u128]. *)
Abbreviation Price := Z.
Abbreviation Ratio := Z.
Abbreviation Rate := Z.
Abbreviation ExchangeRate := Z.

(** [FixedU128::DIV], the inner value of [one()] *)
Definition DIV : Z := 1000000000000000000.
Definition fx_one : Z := DIV.
Definition fx_max_value : Z := U128_MAX.
(** [saturating_from_integer] *)
Definition fx_from_integer (n : Z) : Z := U128.saturating_mul n DIV.

(** [q] is [a * b / c], rounded in either direction. *)
Definition rounds (a b c q : Z) : Prop := a * b - c < q * c < a * b + c.

Class FixedU128 := {
  checked_from_rational : Z -> Z -> option Z;
  checked_mul_int : Z -> Z -> option Z;
  saturating_mul_int : Z -> Z -> Z;
  saturating_mul_acc_int : Z -> Z -> Z;
  fx_checked_mul : Z -> Z -> option Z;
  fx_saturating_mul : Z -> Z -> Z;
  fx_checked_div : Z -> Z -> option Z;
  fx_saturating_pow : Z -> Z -> Z;
}.

Class FixedU128Laws `{FixedU128} : Prop := {
  cfr_Some n d q : is_u128 n -> is_u128 d -> checked_from_rational n d = Some q ->
    0 < d /\ is_u128 q /\ rounds n DIV d q;
  cfr_None n d : is_u128 n -> is_u128 d -> checked_from_rational n d = None ->
    d = 0 \/ U128_MAX * d < n * DIV;
  cmi_Some x n q : is_u128 x -> is_u128 n -> checked_mul_int x n = Some q ->
    is_u128 q /\ rounds x n DIV q;
  cmi_None x n : is_u128 x -> is_u128 n -> checked_mul_int x n = None ->
    U128_MAX * DIV < x * n;
  smi_checked x n : saturating_mul_int x n = default U128_MAX (checked_mul_int x n);
  smai_smi x n : saturating_mul_acc_int x n = U128.saturating_add (saturating_mul_int x n) n;
  fcm_Some x y q : is_u128 x -> is_u128 y -> fx_checked_mul x y = Some q ->
    is_u128 q /\ rounds x y DIV q;
  fcm_None x y : is_u128 x -> is_u128 y -> fx_checked_mul x y = None ->
    U128_MAX * DIV < x * y;
  fsm_checked x y : fx_saturating_mul x y = default U128_MAX (fx_checked_mul x y);
  fcd_Some x y q : is_u128 x -> is_u128 y -> fx_checked_div x y = Some q ->
    0 < y /\ is_u128 q /\ rounds x DIV y q;
  fcd_None x y : is_u128 x -> is_u128 y -> fx_checked_div x y = None ->
    y = 0 \/ U128_MAX * y < x * DIV;
  pow_zero x : is_u128 x -> fx_saturating_pow x 0 = DIV;
  pow_ge_one x n : is_u128 x -> DIV <= x -> 0 <= n -> DIV <= fx_saturating_pow x n;
  pow_u128 x n : is_u128 x -> is_u128 (fx_saturating_pow x n);
}.

Section Laws.
Context `{FX : FixedU128Laws}.

Lemma smi_u128 x n : is_u128 x -> is_u128 n -> is_u128 (saturating_mul_int x n).
Proof.
  intros Hx Hn. rewrite smi_checked. destruct (checked_mul_int x n) eqn:E; cbn; [|uarith].
  by apply cmi_Some in E as [? _].
Qed.
Lemma fsm_u128 x y : is_u128 x -> is_u128 y -> is_u128 (fx_saturating_mul x y).
Proof.
  intros Hx Hn. rewrite fsm_checked. destruct (fx_checked_mul x y) eqn:E; cbn; [|uarith].
  by apply fcm_Some in E as [? _].
Qed.
Lemma smai_u128 x n : is_u128 x -> is_u128 n -> is_u128 (saturating_mul_acc_int x n).
Proof. intros Hx Hn. rewrite smai_smi. pose proof (smi_u128 x n Hx Hn). uarith. Qed.
Lemma smai_ge x n : is_u128 x -> is_u128 n -> n <= saturating_mul_acc_int x n.
Proof. intros Hx Hn. rewrite smai_smi. pose proof (smi_u128 x n Hx Hn). uarith. Qed.
Lemma cfr_default_u128 n d :
  is_u128 n -> is_u128 d -> is_u128 (default 0 (checked_from_rational n d)).
Proof.
  intros Hn Hd. destruct (checked_from_rational n d) eqn:E; cbn; [|uarith].
  by apply cfr_Some in E as (_ & ? & _).
Qed.

(** A ratio of a part to a whole is at most one. *)
Lemma cfr_le_one n d q :
  is_u128 n -> is_u128 d -> n <= d -> checked_from_rational n d = Some q -> q <= DIV.
Proof.
  intros Hn Hd Hle Hq. apply cfr_Some in Hq as (Hpos & _ & Hr); [|done..].
  unfold rounds in Hr. unfold DIV in *. nia.
Qed.
(** A share of [n] at a ratio of at most one is at most [n]. *)
Lemma smi_le_one x n : is_u128 x -> is_u128 n -> x <= DIV -> saturating_mul_int x n <= n.
Proof.
  intros Hx Hn Hle. rewrite smi_checked. destruct (checked_mul_int x n) eqn:E; cbn.
  - apply cmi_Some in E as [_ Hr]; [|done..]. destruct Hn. unfold rounds, DIV in *. nia.
  - apply cmi_None in E; [|done..]. destruct Hn. unfold U128_MAX, DIV in *. nia.
Qed.
Lemma cmi_le_one x n q :
  is_u128 x -> is_u128 n -> x <= DIV -> checked_mul_int x n = Some q -> q <= n.
Proof. intros Hx Hn Hle E. pose proof (smi_le_one x n Hx Hn Hle) as Hs. by rewrite smi_checked, E in Hs. Qed.
Lemma smi_zero_r x : is_u128 x -> saturating_mul_int x 0 = 0.
Proof.
  intros Hx. rewrite smi_checked. destruct (checked_mul_int x 0) eqn:E; cbn.
  - apply cmi_Some in E as [? Hr]; [|done|uarith]. unfold rounds, DIV in *. uarith.
  - apply cmi_None in E; [|done|uarith]. unfold DIV in *. uarith.
Qed.
End Laws.
