(* ===== verification/Primitives.v ===== *)
(** * Currencies and trading pairs

    [primitives/src/currency.rs] and the trading pairs of
    [primitives/src/lib.rs]: the currency identifiers of the chain with the
    derived ordering the code compares them by, the liquidity-token identifier
    of a pair, and the canonical order of a pair. *)
From S2P Require Import Prelude.

(** Byte arrays of fixed length compare as big-endian numbers, which is how an
    [H160], a 32-byte resource id and an account id are represented. *)
Abbreviation AccountId := N.
Abbreviation EvmAddress := N.
Abbreviation ResourceId := N.
(** [Balance = u128], [Amount = i128], [AuctionId = u32], [BlockNumber = u32] *)
Abbreviation Balance := Z.
Abbreviation Amount := Z.
Abbreviation AuctionId := Z.
Abbreviation BlockNumber := Z.

Inductive TokenSymbol :=
  | ACA | AUSD | DOT | LDOT | RENBTC
  | KAR | KUSD | KSM | LKSM
  | CASH.

Inductive DexShare :=
  | Share_Token (symbol : TokenSymbol)
  | Share_Erc20 (address : EvmAddress).

Inductive CurrencyId :=
  | Token (symbol : TokenSymbol)
  | CDexShare (symbol_0 symbol_1 : DexShare)
  | Erc20 (address : EvmAddress)
  | ChainSafe (id : ResourceId).

#[export] Instance TokenSymbol_eq_dec : EqDecision TokenSymbol.
Proof. solve_decision. Defined.
#[export] Instance DexShare_eq_dec : EqDecision DexShare.
Proof. solve_decision. Defined.
#[export] Instance CurrencyId_eq_dec : EqDecision CurrencyId.
Proof. solve_decision. Defined.

(** [Into<u8> for TokenSymbol]: the discriminant. *)
Definition token_to_u8 (t : TokenSymbol) : Z :=
  match t with
  | ACA => 0 | AUSD => 1 | DOT => 2 | LDOT => 3 | RENBTC => 4
  | KAR => 128 | KUSD => 129 | KSM => 130 | LKSM => 131
  | CASH => 140
  end.

(** [TryFrom<u8> for TokenSymbol] *)
Definition token_try_from_u8 (v : Z) : option TokenSymbol :=
  match v with
  | 0 => Some ACA | 1 => Some AUSD | 2 => Some DOT | 3 => Some LDOT | 4 => Some RENBTC
  | 128 => Some KAR | 129 => Some KUSD | 130 => Some KSM | 131 => Some LKSM
  | 140 => Some CASH
  | _ => None
  end.

(** [TokenInfo::decimals] *)
Definition token_decimals (t : TokenSymbol) : Z :=
  match t with
  | ACA => 12 | AUSD => 12 | DOT => 10 | LDOT => 10 | RENBTC => 8
  | KAR => 12 | KUSD => 12 | KSM => 12 | LKSM => 12
  | CASH => 8
  end.

Definition token_info_decimals (c : CurrencyId) : option Z :=
  match c with Token t => Some (token_decimals t) | _ => None end.

(** ** The derived ordering

    [#[derive(PartialOrd, Ord)]] orders the variants by declaration and the
    fields lexicographically. *)
Definition lex (c d : comparison) : comparison := match c with Eq => d | _ => c end.

Definition token_compare (a b : TokenSymbol) : comparison :=
  Z.compare (token_to_u8 a) (token_to_u8 b).

Definition share_compare (a b : DexShare) : comparison :=
  match a, b with
  | Share_Token s, Share_Token t => token_compare s t
  | Share_Token _, Share_Erc20 _ => Lt
  | Share_Erc20 _, Share_Token _ => Gt
  | Share_Erc20 s, Share_Erc20 t => N.compare s t
  end.

Definition currency_rank (a : CurrencyId) : Z :=
  match a with Token _ => 0 | CDexShare _ _ => 1 | Erc20 _ => 2 | ChainSafe _ => 3 end.

Definition currency_compare (a b : CurrencyId) : comparison :=
  match a, b with
  | Token s, Token t => token_compare s t
  | CDexShare s0 s1, CDexShare t0 t1 => lex (share_compare s0 t0) (share_compare s1 t1)
  | Erc20 s, Erc20 t => N.compare s t
  | ChainSafe s, ChainSafe t => N.compare s t
  | _, _ => Z.compare (currency_rank a) (currency_rank b)
  end.

(** [a > b] *)
Definition currency_gtb (a b : CurrencyId) : bool :=
  match currency_compare a b with Gt => true | _ => false end.

(** ** [impl CurrencyId] *)
Definition is_token_currency_id (c : CurrencyId) : bool :=
  match c with Token _ => true | _ => false end.
Definition is_dex_share_currency_id (c : CurrencyId) : bool :=
  match c with CDexShare _ _ => true | _ => false end.
Definition is_erc20_currency_id (c : CurrencyId) : bool :=
  match c with Erc20 _ => true | _ => false end.

(** [Into<CurrencyId> for DexShare] *)
Definition share_into (d : DexShare) : CurrencyId :=
  match d with Share_Token t => Token t | Share_Erc20 a => Erc20 a end.

Definition split_dex_share_currency_id (c : CurrencyId) : option (CurrencyId * CurrencyId) :=
  match c with
  | CDexShare s0 s1 => Some (share_into s0, share_into s1)
  | _ => None
  end.

Definition to_dex_share (c : CurrencyId) : option DexShare :=
  match c with
  | Token t => Some (Share_Token t)
  | Erc20 a => Some (Share_Erc20 a)
  | _ => None
  end.

Definition join_dex_share_currency_id (c0 c1 : CurrencyId) : option CurrencyId :=
  s0 ← to_dex_share c0; s1 ← to_dex_share c1; Some (CDexShare s0 s1).

(** ** [TradingPair] *)
Record TradingPair := mkPair { pair_0 : CurrencyId; pair_1 : CurrencyId }.

#[export] Instance TradingPair_eq_dec : EqDecision TradingPair.
Proof. solve_decision. Defined.

Definition TradingPair_new (a b : CurrencyId) : TradingPair :=
  if currency_gtb a b then mkPair b a else mkPair a b.

Definition from_token_currency_ids (c0 c1 : CurrencyId) : option TradingPair :=
  if (is_token_currency_id c0 || is_erc20_currency_id c0)
     && (is_token_currency_id c1 || is_erc20_currency_id c1)
  then Some (TradingPair_new c1 c0) else None.

Definition get_dex_share_currency_id (p : TradingPair) : option CurrencyId :=
  join_dex_share_currency_id (pair_0 p) (pair_1 p).

(** ** Countable keys for the storage maps *)
Definition token_code (t : TokenSymbol) : N := Z.to_N (token_to_u8 t).
Lemma token_try_from_into t : token_try_from_u8 (token_to_u8 t) = Some t.
Proof. by destruct t. Qed.

#[export] Instance TokenSymbol_countable : Countable TokenSymbol.
Proof.
  refine (inj_countable token_code (fun n => token_try_from_u8 (Z.of_N n)) _).
  intros t. by destruct t.
Defined.
#[export] Instance DexShare_countable : Countable DexShare.
Proof.
  refine (inj_countable'
    (fun d => match d with Share_Token t => inl t | Share_Erc20 a => inr a end)
    (fun x => match x with inl t => Share_Token t | inr a => Share_Erc20 a end) _).
  by intros [].
Defined.
#[export] Instance CurrencyId_countable : Countable CurrencyId.
Proof.
  refine (inj_countable'
    (fun c => match c with
              | Token t => inl (inl t) | CDexShare s0 s1 => inl (inr (s0, s1))
              | Erc20 a => inr (inl a) | ChainSafe r => inr (inr r) end)
    (fun x => match x with
              | inl (inl t) => Token t | inl (inr (s0, s1)) => CDexShare s0 s1
              | inr (inl a) => Erc20 a | inr (inr r) => ChainSafe r end) _).
  by intros [].
Defined.
#[export] Instance TradingPair_countable : Countable TradingPair.
Proof.
  refine (inj_countable' (fun p => (pair_0 p, pair_1 p)) (fun x => mkPair x.1 x.2) _).
  by intros [].
Defined.

(** ** The ordering is total *)
Lemma token_compare_antisym a b : token_compare b a = CompOpp (token_compare a b).
Proof. unfold token_compare. apply Z.compare_antisym. Qed.
Lemma token_compare_Eq a b : token_compare a b = Eq -> a = b.
Proof. destruct a, b; vm_compute; congruence. Qed.
Lemma share_compare_antisym a b : share_compare b a = CompOpp (share_compare a b).
Proof.
  destruct a, b; cbn; auto using token_compare_antisym. apply N.compare_antisym.
Qed.
Lemma share_compare_Eq a b : share_compare a b = Eq -> a = b.
Proof.
  destruct a, b; cbn; try done.
  - intros H. f_equal. by apply token_compare_Eq.
  - intros H. f_equal. by apply N.compare_eq.
Qed.
Lemma lex_opp c d : lex (CompOpp c) (CompOpp d) = CompOpp (lex c d).
Proof. by destruct c. Qed.

Lemma currency_compare_antisym a b : currency_compare b a = CompOpp (currency_compare a b).
Proof.
  destruct a, b; cbn [currency_compare]; try done.
  - apply token_compare_antisym.
  - by rewrite !(share_compare_antisym symbol_0), !(share_compare_antisym symbol_1), lex_opp.
  - apply N.compare_antisym.
  - apply N.compare_antisym.
Qed.
Lemma currency_compare_Eq a b : currency_compare a b = Eq -> a = b.
Proof.
  destruct a as [s|s0 s1|s|s], b as [t|t0 t1|t|t]; cbn [currency_compare]; try done.
  - intros ?%token_compare_Eq. by subst.
  - unfold lex. destruct (share_compare s0 t0) eqn:E0; try done.
    intros ?%share_compare_Eq. apply share_compare_Eq in E0. by subst.
  - intros ?%N.compare_eq. by subst.
  - intros ?%N.compare_eq. by subst.
Qed.

Lemma TradingPair_new_comm a b : TradingPair_new a b = TradingPair_new b a.
Proof.
  unfold TradingPair_new, currency_gtb.
  rewrite (currency_compare_antisym a b).
  destruct (currency_compare a b) eqn:E; cbn; try done.
  apply currency_compare_Eq in E. by subst.
Qed.
Lemma TradingPair_new_members a b :
  (pair_0 (TradingPair_new a b) = a /\ pair_1 (TradingPair_new a b) = b) \/
  (pair_0 (TradingPair_new a b) = b /\ pair_1 (TradingPair_new a b) = a).
Proof. unfold TradingPair_new. destruct (currency_gtb a b); cbn; auto. Qed.
Lemma from_token_currency_ids_new a b p :
  from_token_currency_ids a b = Some p -> p = TradingPair_new a b.
Proof.
  unfold from_token_currency_ids. destruct (_ && _); [|done].
  intros [= <-]. apply TradingPair_new_comm.
Qed.
Lemma from_token_currency_ids_comm a b :
  from_token_currency_ids a b = from_token_currency_ids b a.
Proof. unfold from_token_currency_ids. by rewrite andb_comm, TradingPair_new_comm. Qed.
Lemma to_dex_share_into c s : to_dex_share c = Some s -> share_into s = c.
Proof. destruct c; cbn; intros [= <-]; done. Qed.
Lemma from_token_currency_ids_shares a b p :
  from_token_currency_ids a b = Some p -> is_Some (get_dex_share_currency_id p).
Proof.
  unfold from_token_currency_ids, get_dex_share_currency_id, TradingPair_new.
  destruct (_ && _) eqn:E; [|done]. intros [= <-].
  destruct (currency_gtb b a), a, b; try discriminate E; eexists; reflexivity.
Qed.

(** A liquidity token determines its pair. *)
Lemma get_dex_share_inj p q c :
  get_dex_share_currency_id p = Some c -> get_dex_share_currency_id q = Some c -> p = q.
Proof.
  destruct p as [a b], q as [a' b']. unfold get_dex_share_currency_id, join_dex_share_currency_id. cbn.
  destruct (to_dex_share a) eqn:Ea, (to_dex_share b) eqn:Eb; try done.
  destruct (to_dex_share a') eqn:Ea', (to_dex_share b') eqn:Eb'; try done.
  cbn. intros [= <-] [= -> ->].
  by rewrite <- (to_dex_share_into _ _ Ea), <- (to_dex_share_into _ _ Eb),
    <- (to_dex_share_into _ _ Ea'), <- (to_dex_share_into _ _ Eb').
Qed.
