(* ===== verification/Runtime.v ===== *)
(** * The runtime: errors, events, storage and the code it calls

    The pallets share one storage and call each other, so the state of the
    whole development is one record [State] with the storage of each pallet
    as a field.  Code outside the repository (token ledger, auction pallet,
    account references, ...) is the class [Config], whose members are the
    operations the pallets call and the constants of their [Config] traits;
    [ConfigLaws] states the documented behaviour the theorems rely on. *)
From S2P Require Import Prelude FixedPoint Primitives.

(** ** Errors *)
Module DexError.
Inductive t :=
  | NotEnabledTradingPair | MustBeEnabled | MustBeProvisioning | MustBeNotEnabled
  | NotAllowedList | InvalidContributionIncrement | InvalidLiquidityIncrement
  | InvalidCurrencyId | InvalidTradingPathLength | InsufficientTargetAmount
  | ExcessiveSupplyAmount | ExceedPriceImpactLimit | InsufficientLiquidity
  | ZeroSupplyAmount | ZeroTargetAmount | UnacceptableShareIncrement
  | UnacceptableLiquidityWithdrawn | InvariantCheckFailed.
End DexError.

Module LoansError.
Inductive t := AmountConvertFailed.
End LoansError.

Module CdpTreasuryError.
Inductive t := CollateralNotEnough | SurplusPoolNotEnough | DebitPoolNotEnough | InvalidSwapPath.
End CdpTreasuryError.

Module CdpEngineError.
Inductive t :=
  | ExceedDebitValueHardCap | BelowRequiredCollateralRatio | BelowLiquidationRatio
  | MustBeUnsafe | IsUnsafe | InvalidCollateralType | RemainDebitValueTooSmall
  | InvalidFeedPrice | NoDebitValue | AlreadyShutdown | MustAfterShutdown.
End CdpEngineError.

Module AuctionManagerError.
Inductive t :=
  | AuctionNotExists | InReverseStage | InvalidFeedPrice | MustAfterShutdown
  | InvalidBidPrice | InvalidAmount.
End AuctionManagerError.

Module HonzonError.
Inductive t := NoPermission | AlreadyShutdown | AuthorizationNotExists | AlreadyAuthorized.
End HonzonError.

Module EmergencyShutdownError.
Inductive t :=
  | AlreadyShutdown | MustAfterShutdown | CanNotRefund | ExistPotentialSurplus
  | ExistUnhandledDebit.
End EmergencyShutdownError.

Module EvmBridgeError.
Inductive t :=
  | ExecutionFail | ExecutionRevert | ExecutionFatal | ExecutionError | InvalidReturnValue.
End EvmBridgeError.

Module EvmManagerError.
Inductive t := CurrencyIdExisted.
End EvmManagerError.

Module NomineesElectionError.
Inductive t :=
  | BelowMinBondThreshold | InvalidTargetsLength | MaxUnlockChunksExceeded | NoBonded
  | NoUnlockChunk | InvalidNominee | NominateesCountExceeded.
End NomineesElectionError.

Module HomaValidatorListError.
Inductive t := BelowMinBondAmount | UnbondingExists | FrozenValidator.
End HomaValidatorListError.

Module CollatorSelectionError.
Inductive t :=
  | MaxCandidatesExceeded | BelowCandidatesMin | Unknown | Permission | AlreadyCandidate
  | NotCandidate | RequireSessionKey | AlreadyInvulnerable | InvalidProof
  | MaxInvulnerablesExceeded.
End CollatorSelectionError.

Module IncentivesError.
Inductive t := NotEnough | InvalidCurrencyId | InvalidPoolId | InvalidRate.
End IncentivesError.

Module StakingPoolError.
Inductive t := InvalidEra | GetFeeFailed | InvalidConfig | RebalanceUnfinished.
End StakingPoolError.

Module PolkadotBridgeError.
Inductive t := NotEnough | MaxUnbondingExceeded.
End PolkadotBridgeError.

Module EvmAccountsError.
Inductive t :=
  | AccountIdHasMapped | EthAddressHasMapped | BadSignature | InvalidSignature | NonZeroRefCount.
End EvmAccountsError.

Module CurrenciesError.
Inductive t := AmountIntoBalanceFailed | BalanceTooLow | Erc20InvalidOperation | EvmAccountNotFound.
End CurrenciesError.

Module EvmError.
Inductive t :=
  | AddressNotMapped | ContractNotFound | NoPermission | NumOutOfBound
  | StorageExceedsStorageLimit | ContractDevelopmentNotEnabled
  | ContractDevelopmentAlreadyEnabled | ContractAlreadyDeployed
  | ContractExceedsMaxCodeSize | OutOfStorage | ChargeFeeFailed | CannotKillContract
  | ConflictContractAddress.
End EvmError.

Module NftError.
Inductive t :=
  | ClassIdNotFound | TokenIdNotFound | NoPermission | InvalidQuantity | NonTransferable | NonBurnable
  | CannotDestroyClass.
End NftError.

Module StarportError.
Inductive t :=
  | InsufficientAssetSupplyCap | NoticeAlreadyInvoked | InvalidNoticeInvoker | InsufficientAssetToUnlock
  | InsufficientValidNoticeSignatures | ExceededMaxNumberOfAuthorities | AuthoritiesListCannotBeEmpty.
End StarportError.

Module CompoundCashError.
Inductive t := YieldIsOlderThanCurrent.
End CompoundCashError.

Module RenvmError.
Inductive t := InvalidRenVmPublicKey | InvalidMintSignature | SignatureAlreadyUsed.
End RenvmError.

Module ChainsafeError.
Inductive t :=
  | InvalidDestChainId | ResourceIdAlreadyRegistered | ResourceIdNotRegistered | ResourceIdCurrencyIdNotMatch.
End ChainsafeError.

(** [sp_runtime::DispatchError] *)
Inductive DispatchError :=
  | BadOrigin
  | CannotLookup
  | ArithmeticOverflow
  | ArithmeticUnderflow
  | DexE (e : DexError.t)
  | LoansE (e : LoansError.t)
  | CdpTreasuryE (e : CdpTreasuryError.t)
  | CdpEngineE (e : CdpEngineError.t)
  | AuctionManagerE (e : AuctionManagerError.t)
  | HonzonE (e : HonzonError.t)
  | EmergencyShutdownE (e : EmergencyShutdownError.t)
  | EvmBridgeE (e : EvmBridgeError.t)
  | EvmManagerE (e : EvmManagerError.t)
  | NomineesElectionE (e : NomineesElectionError.t)
  | HomaValidatorListE (e : HomaValidatorListError.t)
  | CollatorSelectionE (e : CollatorSelectionError.t)
  | IncentivesE (e : IncentivesError.t)
  | StakingPoolE (e : StakingPoolError.t)
  | PolkadotBridgeE (e : PolkadotBridgeError.t)
  | EvmAccountsE (e : EvmAccountsError.t)
  | CurrenciesE (e : CurrenciesError.t)
  | EvmE (e : EvmError.t)
  | NftE (e : NftError.t)
  | StarportE (e : StarportError.t)
  | CompoundCashE (e : CompoundCashError.t)
  | RenvmE (e : RenvmError.t)
  | ChainsafeE (e : ChainsafeError.t)
  | ConsumerRemaining
  | Other (msg : string)
  | ExternalError (code : Z).

(** [frame_system::RawOrigin] *)
Inductive Origin := Root | Signed (who : AccountId) | NoOrigin.

(** ** Storage *)

(** *** DEX *)
Record TradingPairProvisionParameters := mkProvision {
  min_contribution : Balance * Balance;
  target_provision : Balance * Balance;
  accumulated_provision : Balance * Balance;
  not_before : BlockNumber }.

Inductive TradingPairStatus :=
  | NotEnabled
  | Provisioning (p : TradingPairProvisionParameters)
  | Enabled.

Record DexStorage := mkDex {
  LiquidityPool : gmap TradingPair (Balance * Balance);
  TradingPairStatuses : gmap TradingPair TradingPairStatus;
  ProvisioningPool : gmap TradingPair (gmap AccountId (Balance * Balance)) }.

(** *** Loans *)
Record Position := mkPosition { collateral : Balance; debit : Balance }.
Definition Position_default : Position := mkPosition 0 0.

Record LoansStorage := mkLoans {
  Positions : gmap (CurrencyId * AccountId) Position;
  TotalPositions : gmap CurrencyId Position }.

(** *** CDP treasury *)
Record TreasuryStorage := mkTreasury {
  ExpectedCollateralAuctionSize : gmap CurrencyId Balance;
  DebitPool : Balance }.

(** *** CDP engine *)
Record RiskManagementParams := mkRiskParams {
  rp_maximum_total_debit_value : Balance;
  rp_interest_rate_per_sec : option Rate;
  rp_liquidation_ratio : option Ratio;
  rp_liquidation_penalty : option Rate;
  rp_required_collateral_ratio : option Ratio }.
Definition RiskManagementParams_default : RiskManagementParams :=
  mkRiskParams 0 None None None None.

Record CdpStorage := mkCdp {
  DebitExchangeRate : gmap CurrencyId ExchangeRate;
  GlobalInterestRatePerSec : Rate;
  CollateralParams : gmap CurrencyId RiskManagementParams;
  LastAccumulationSecs : Z }.

(** *** Auction manager *)
Record CollateralAuctionItem := mkAuctionItem {
  refund_recipient : AccountId;
  currency_id : CurrencyId;
  initial_amount : Balance;
  amount : Balance;
  target : Balance;
  start_time : BlockNumber }.

Record AuctionStorage := mkAuctions {
  CollateralAuctions : gmap AuctionId CollateralAuctionItem;
  TotalCollateralInAuction : gmap CurrencyId Balance;
  TotalTargetInAuction : Balance }.

(** *** Emergency shutdown *)
Record ShutdownStorage := mkShutdown { IsShutdown : bool; CanRefund : bool }.

(** *** Honzon: authorizer -> (collateral type, authorizee) -> reserved deposit *)
Abbreviation AuthorizationMap := (gmap (AccountId * (CurrencyId * AccountId)) Balance).

(** ** Events *)
Inductive LiquidationStrategy := Auction | Exchange.

Inductive Event :=
  (* dex *)
  | AddProvision (who : AccountId) (c0 : CurrencyId) (n0 : Balance) (c1 : CurrencyId) (n1 : Balance)
  | AddLiquidity (who : AccountId) (c0 : CurrencyId) (n0 : Balance) (c1 : CurrencyId) (n1 share : Balance)
  | RemoveLiquidity (who : AccountId) (c0 : CurrencyId) (n0 : Balance) (c1 : CurrencyId) (n1 share : Balance)
  | Swap (who : AccountId) (path : list CurrencyId) (supply target : Balance)
  | EnableTradingPair (p : TradingPair)
  | ListTradingPair (p : TradingPair)
  | DisableTradingPair (p : TradingPair)
  | ProvisioningToEnabled (p : TradingPair) (n0 n1 shares : Balance)
  (* loans *)
  | PositionUpdated (who : AccountId) (c : CurrencyId) (ca da : Amount)
  | ConfiscateCollateralAndDebit (who : AccountId) (c : CurrencyId) (ca da : Balance)
  | TransferLoan (from to : AccountId) (c : CurrencyId)
  (* cdp treasury *)
  | ExpectedCollateralAuctionSizeUpdated (c : CurrencyId) (size : Balance)
  (* cdp engine *)
  | LiquidateUnsafeCDP (c : CurrencyId) (who : AccountId) (ca bad_debt : Balance) (st : LiquidationStrategy)
  | SettleCDPInDebit (c : CurrencyId) (who : AccountId)
  | CloseCDPInDebitByDEX (c : CurrencyId) (who : AccountId) (sold refund debit_value : Balance)
  | InterestRatePerSecUpdated (c : CurrencyId) (r : option Rate)
  | LiquidationRatioUpdated (c : CurrencyId) (r : option Ratio)
  | LiquidationPenaltyUpdated (c : CurrencyId) (r : option Rate)
  | RequiredCollateralRatioUpdated (c : CurrencyId) (r : option Ratio)
  | MaximumTotalDebitValueUpdated (c : CurrencyId) (v : Balance)
  | GlobalInterestRatePerSecUpdated (r : Rate)
  (* auction manager *)
  | NewCollateralAuction (id : AuctionId) (c : CurrencyId) (amount target : Balance)
  | CancelAuction (id : AuctionId)
  | CollateralAuctionDealt (id : AuctionId) (c : CurrencyId) (amount : Balance) (who : AccountId) (payment : Balance)
  | DEXTakeCollateralAuction (id : AuctionId) (c : CurrencyId) (amount turnover : Balance)
  (* prices *)
  | LockPrice (c : CurrencyId) (p : Price)
  | UnlockPrice (c : CurrencyId)
  (* emergency shutdown *)
  | Shutdown (b : BlockNumber)
  | OpenRefund (b : BlockNumber)
  | Refund (who : AccountId) (amount : Balance) (l : list (CurrencyId * Balance))
  (* honzon *)
  | Authorization (authorizer authorizee : AccountId) (c : CurrencyId)
  | UnAuthorization (authorizer authorizee : AccountId) (c : CurrencyId)
  | UnAuthorizationAll (authorizer : AccountId).

(** ** The code outside the modelled pallets *)

(** [orml_traits::AuctionInfo] *)
Record AuctionInfo := mkAuctionInfo {
  ai_bid : option (AccountId * Balance);
  ai_start : BlockNumber;
  ai_end : option BlockNumber }.

Class Config := {
  cfg_fixed :: FixedU128;

  (* [MultiCurrency] and [NamedReservableCurrency] *)
  Ledger : Type;
  cur_total_issuance : Ledger -> CurrencyId -> Balance;
  cur_free_balance : Ledger -> CurrencyId -> AccountId -> Balance;
  cur_transfer : CurrencyId -> AccountId -> AccountId -> Balance -> Ledger -> Ledger + DispatchError;
  cur_deposit : CurrencyId -> AccountId -> Balance -> Ledger -> Ledger + DispatchError;
  cur_withdraw : CurrencyId -> AccountId -> Balance -> Ledger -> Ledger + DispatchError;
  cur_reserved_named : Ledger -> AccountId -> Balance;
  cur_reserve_named : AccountId -> Balance -> Ledger -> Ledger + DispatchError;
  cur_unreserve_named : AccountId -> Balance -> Ledger -> Ledger;
  cur_unreserve_all_named : AccountId -> Ledger -> Ledger;

  (* [orml_auction] *)
  AuctionSt : Type;
  auction_info : AuctionSt -> AuctionId -> option AuctionInfo;
  new_auction : BlockNumber -> option BlockNumber -> AuctionSt -> (AuctionId * AuctionSt) + DispatchError;
  remove_auction : AuctionId -> AuctionSt -> AuctionSt;

  (* account reference counting of [frame_system] *)
  SystemSt : Type;
  sys_inc_consumers : AccountId -> SystemSt -> SystemSt + DispatchError;
  sys_dec_consumers : AccountId -> SystemSt -> SystemSt;

  (* [CurrencyIdMapping] (the EVM manager) *)
  MappingSt : Type;
  map_decimals : MappingSt -> CurrencyId -> option Z;
  map_encode_evm_address : MappingSt -> CurrencyId -> option EvmAddress;
  map_set_erc20_mapping : EvmAddress -> MappingSt -> MappingSt + DispatchError;

  (* [DEXIncentives] and [OnUpdateLoan] (the incentives pallet) *)
  IncentivesSt : Type;
  inc_deposit_dex_share : AccountId -> CurrencyId -> Balance ->
    Ledger * IncentivesSt -> (Ledger * IncentivesSt) + DispatchError;
  inc_withdraw_dex_share : AccountId -> CurrencyId -> Balance ->
    Ledger * IncentivesSt -> (Ledger * IncentivesSt) + DispatchError;
  inc_on_update_loan : AccountId * CurrencyId * Amount * Balance -> IncentivesSt -> IncentivesSt;

  (* the order a storage prefix is drained in: the order of the hashed keys *)
  drain_order : list (AccountId * (Balance * Balance)) -> list (AccountId * (Balance * Balance));

  (* origins and account lookup *)
  ListingOrigin : Origin -> bool;
  UpdateOrigin : Origin -> bool;
  LockOrigin : Origin -> bool;
  ShutdownOrigin : Origin -> bool;
  LookupSource : Type;
  lookup : LookupSource -> option AccountId;

  (* constants *)
  GetExchangeFee : Z * Z;
  TradingPathLimit : Z;
  dex_account_id : AccountId;
  loans_account_id : AccountId;
  treasury_account_id : AccountId;
  TreasuryAccount : AccountId;
  GetStableCurrencyId : CurrencyId;
  GetStakingCurrencyId : CurrencyId;
  GetLiquidCurrencyId : CurrencyId;
  StableCurrencyFixedPrice : Price;
  MaxAuctionsCount : Z;
  CollateralCurrencyIds : list CurrencyId;
  DefaultLiquidationRatio : Ratio;
  DefaultDebitExchangeRate : ExchangeRate;
  DefaultLiquidationPenalty : Rate;
  MinimumDebitValue : Balance;
  MaxSlippageSwapWithDEX : Ratio;
  MinimumIncrementSize : Rate;
  AuctionTimeToClose : BlockNumber;
  AuctionDurationSoftCap : BlockNumber;
  DepositPerAuthorization : Balance;
}.

(** What a block brings from outside: its number, the time, the oracle's feed
    and the staking module's exchange rate. *)
Record Env := mkEnv {
  block_number : BlockNumber;
  unix_time_secs : Z;
  oracle_price : CurrencyId -> option Price;
  liquid_exchange_rate : ExchangeRate }.

Record State `{Config} := mkState {
  st_dex : DexStorage;
  st_loans : LoansStorage;
  st_treasury : TreasuryStorage;
  st_cdp : CdpStorage;
  st_auctions : AuctionStorage;
  st_locked_price : gmap CurrencyId Price;
  st_shutdown : ShutdownStorage;
  st_authorization : AuthorizationMap;
  st_ledger : Ledger;
  st_auction_ext : AuctionSt;
  st_system : SystemSt;
  st_mapping : MappingSt;
  st_incentives : IncentivesSt;
  st_env : Env;
  st_events : list Event }.

Section Setters.
Context `{Config}.
Definition set_dex (x : DexStorage) (s : State) : State :=
  mkState _ x (st_loans s) (st_treasury s) (st_cdp s) (st_auctions s) (st_locked_price s) (st_shutdown s) (st_authorization s) (st_ledger s) (st_auction_ext s) (st_system s) (st_mapping s) (st_incentives s) (st_env s) (st_events s).
Definition set_loans (x : LoansStorage) (s : State) : State :=
  mkState _ (st_dex s) x (st_treasury s) (st_cdp s) (st_auctions s) (st_locked_price s) (st_shutdown s) (st_authorization s) (st_ledger s) (st_auction_ext s) (st_system s) (st_mapping s) (st_incentives s) (st_env s) (st_events s).
Definition set_treasury (x : TreasuryStorage) (s : State) : State :=
  mkState _ (st_dex s) (st_loans s) x (st_cdp s) (st_auctions s) (st_locked_price s) (st_shutdown s) (st_authorization s) (st_ledger s) (st_auction_ext s) (st_system s) (st_mapping s) (st_incentives s) (st_env s) (st_events s).
Definition set_cdp (x : CdpStorage) (s : State) : State :=
  mkState _ (st_dex s) (st_loans s) (st_treasury s) x (st_auctions s) (st_locked_price s) (st_shutdown s) (st_authorization s) (st_ledger s) (st_auction_ext s) (st_system s) (st_mapping s) (st_incentives s) (st_env s) (st_events s).
Definition set_auctions (x : AuctionStorage) (s : State) : State :=
  mkState _ (st_dex s) (st_loans s) (st_treasury s) (st_cdp s) x (st_locked_price s) (st_shutdown s) (st_authorization s) (st_ledger s) (st_auction_ext s) (st_system s) (st_mapping s) (st_incentives s) (st_env s) (st_events s).
Definition set_locked_price (x : (gmap CurrencyId Price)) (s : State) : State :=
  mkState _ (st_dex s) (st_loans s) (st_treasury s) (st_cdp s) (st_auctions s) x (st_shutdown s) (st_authorization s) (st_ledger s) (st_auction_ext s) (st_system s) (st_mapping s) (st_incentives s) (st_env s) (st_events s).
Definition set_shutdown (x : ShutdownStorage) (s : State) : State :=
  mkState _ (st_dex s) (st_loans s) (st_treasury s) (st_cdp s) (st_auctions s) (st_locked_price s) x (st_authorization s) (st_ledger s) (st_auction_ext s) (st_system s) (st_mapping s) (st_incentives s) (st_env s) (st_events s).
Definition set_authorization (x : AuthorizationMap) (s : State) : State :=
  mkState _ (st_dex s) (st_loans s) (st_treasury s) (st_cdp s) (st_auctions s) (st_locked_price s) (st_shutdown s) x (st_ledger s) (st_auction_ext s) (st_system s) (st_mapping s) (st_incentives s) (st_env s) (st_events s).
Definition set_ledger (x : Ledger) (s : State) : State :=
  mkState _ (st_dex s) (st_loans s) (st_treasury s) (st_cdp s) (st_auctions s) (st_locked_price s) (st_shutdown s) (st_authorization s) x (st_auction_ext s) (st_system s) (st_mapping s) (st_incentives s) (st_env s) (st_events s).
Definition set_auction_ext (x : AuctionSt) (s : State) : State :=
  mkState _ (st_dex s) (st_loans s) (st_treasury s) (st_cdp s) (st_auctions s) (st_locked_price s) (st_shutdown s) (st_authorization s) (st_ledger s) x (st_system s) (st_mapping s) (st_incentives s) (st_env s) (st_events s).
Definition set_system (x : SystemSt) (s : State) : State :=
  mkState _ (st_dex s) (st_loans s) (st_treasury s) (st_cdp s) (st_auctions s) (st_locked_price s) (st_shutdown s) (st_authorization s) (st_ledger s) (st_auction_ext s) x (st_mapping s) (st_incentives s) (st_env s) (st_events s).
Definition set_mapping (x : MappingSt) (s : State) : State :=
  mkState _ (st_dex s) (st_loans s) (st_treasury s) (st_cdp s) (st_auctions s) (st_locked_price s) (st_shutdown s) (st_authorization s) (st_ledger s) (st_auction_ext s) (st_system s) x (st_incentives s) (st_env s) (st_events s).
Definition set_incentives (x : IncentivesSt) (s : State) : State :=
  mkState _ (st_dex s) (st_loans s) (st_treasury s) (st_cdp s) (st_auctions s) (st_locked_price s) (st_shutdown s) (st_authorization s) (st_ledger s) (st_auction_ext s) (st_system s) (st_mapping s) x (st_env s) (st_events s).
Definition set_env (x : Env) (s : State) : State :=
  mkState _ (st_dex s) (st_loans s) (st_treasury s) (st_cdp s) (st_auctions s) (st_locked_price s) (st_shutdown s) (st_authorization s) (st_ledger s) (st_auction_ext s) (st_system s) (st_mapping s) (st_incentives s) x (st_events s).
Definition set_events (x : (list Event)) (s : State) : State :=
  mkState _ (st_dex s) (st_loans s) (st_treasury s) (st_cdp s) (st_auctions s) (st_locked_price s) (st_shutdown s) (st_authorization s) (st_ledger s) (st_auction_ext s) (st_system s) (st_mapping s) (st_incentives s) (st_env s) x.
End Setters.

(** ** Calls out of the pallets *)
Section Calls.
Context `{Config}.

Definition lift_ledger (f : Ledger -> Ledger + DispatchError) : M DispatchError State unit :=
  fun s => match f (st_ledger s) with
           | inl l => (Ok tt, set_ledger l s)
           | inr e => (Err e, s)
           end.
Definition transfer (c : CurrencyId) (from to : AccountId) (n : Balance) :=
  lift_ledger (cur_transfer c from to n).
Definition deposit (c : CurrencyId) (who : AccountId) (n : Balance) :=
  lift_ledger (cur_deposit c who n).
Definition withdraw (c : CurrencyId) (who : AccountId) (n : Balance) :=
  lift_ledger (cur_withdraw c who n).
Definition free_balance (c : CurrencyId) (who : AccountId) (s : State) : Balance :=
  cur_free_balance (st_ledger s) c who.
Definition total_issuance (c : CurrencyId) (s : State) : Balance :=
  cur_total_issuance (st_ledger s) c.

Definition deposit_event (e : Event) : M DispatchError State unit :=
  modify (fun s => set_events (st_events s ++ [e]) s).

(** [frame_system::inc_consumers]; the callers only log a failure. *)
Definition inc_consumers (who : AccountId) : M DispatchError State unit :=
  modify (fun s => match sys_inc_consumers who (st_system s) with
                   | inl y => set_system y s
                   | inr _ => s
                   end).
Definition dec_consumers (who : AccountId) : M DispatchError State unit :=
  modify (fun s => set_system (sys_dec_consumers who (st_system s)) s).

Definition do_deposit_dex_share (who : AccountId) (c : CurrencyId) (n : Balance)
    : M DispatchError State unit :=
  fun s => match inc_deposit_dex_share who c n (st_ledger s, st_incentives s) with
           | inl (l, i) => (Ok tt, set_incentives i (set_ledger l s))
           | inr e => (Err e, s)
           end.
Definition do_withdraw_dex_share (who : AccountId) (c : CurrencyId) (n : Balance)
    : M DispatchError State unit :=
  fun s => match inc_withdraw_dex_share who c n (st_ledger s, st_incentives s) with
           | inl (l, i) => (Ok tt, set_incentives i (set_ledger l s))
           | inr e => (Err e, s)
           end.
Definition set_erc20_mapping (a : EvmAddress) : M DispatchError State unit :=
  fun s => match map_set_erc20_mapping a (st_mapping s) with
           | inl m => (Ok tt, set_mapping m s)
           | inr e => (Err e, s)
           end.

(** [ensure_signed], [ensure_none], [EnsureOrigin::ensure_origin], [StaticLookup::lookup] *)
Definition ensure_signed {S} (o : Origin) : M DispatchError S AccountId :=
  match o with Signed who => mret who | _ => throw BadOrigin end.
Definition ensure_none {S} (o : Origin) : M DispatchError S unit :=
  match o with NoOrigin => mret tt | _ => throw BadOrigin end.
Definition ensure_origin {S} (allowed : Origin -> bool) (o : Origin) : M DispatchError S unit :=
  ensure (allowed o) BadOrigin.
Definition lookup_source (src : LookupSource) : M DispatchError State AccountId :=
  ok_or (lookup src) CannotLookup.
End Calls.

(** ** Documented behaviour of that code

    [delta c a n c' x] is the change of [x]'s balance of [c'] when [n] of [c]
    is added to the balance of [a]. *)
Definition delta (c : CurrencyId) (a : AccountId) (n : Balance) (c' : CurrencyId) (x : AccountId) : Z :=
  if decide (c' = c /\ x = a) then n else 0.

(** What the exchange relies on where the incentives pallet moves liquidity
    tokens: nothing is issued, and its own account is left alone. *)
Definition shares_moved `{Config} (l l' : Ledger) : Prop :=
  (forall c, cur_total_issuance l' c = cur_total_issuance l c) /\
  (forall c, cur_free_balance l' c dex_account_id = cur_free_balance l c dex_account_id).

Class ConfigLaws `{Config} : Prop := {
  laws_fixed :: FixedU128Laws;

  free_balance_u128 l c a : is_u128 (cur_free_balance l c a);
  total_issuance_u128 l c : is_u128 (cur_total_issuance l c);
  free_le_issuance l c a : cur_free_balance l c a <= cur_total_issuance l c;
  transfer_law c a b n l l' : is_u128 n -> cur_transfer c a b n l = inl l' ->
    (forall c' x, cur_free_balance l' c' x
       = cur_free_balance l c' x + delta c b n c' x - delta c a n c' x) /\
    (forall c', cur_total_issuance l' c' = cur_total_issuance l c') /\
    (forall x, cur_reserved_named l' x = cur_reserved_named l x);
  deposit_law c a n l l' : is_u128 n -> cur_deposit c a n l = inl l' ->
    (forall c' x, cur_free_balance l' c' x = cur_free_balance l c' x + delta c a n c' x) /\
    (forall c', cur_total_issuance l' c' =
       cur_total_issuance l c' + if decide (c' = c) then n else 0) /\
    (forall x, cur_reserved_named l' x = cur_reserved_named l x);
  withdraw_law c a n l l' : is_u128 n -> cur_withdraw c a n l = inl l' ->
    (forall c' x, cur_free_balance l' c' x = cur_free_balance l c' x - delta c a n c' x) /\
    (forall c', cur_total_issuance l' c' =
       cur_total_issuance l c' - if decide (c' = c) then n else 0) /\
    (forall x, cur_reserved_named l' x = cur_reserved_named l x);
  reserve_law a n l l' : is_u128 n -> cur_reserve_named a n l = inl l' ->
    forall x, cur_reserved_named l' x =
      cur_reserved_named l x + if decide (x = a) then n else 0;
  unreserve_law a n l : is_u128 n -> forall x,
    cur_reserved_named (cur_unreserve_named a n l) x =
      cur_reserved_named l x - if decide (x = a) then Z.min n (cur_reserved_named l x) else 0;
  unreserve_all_law a l x : cur_reserved_named (cur_unreserve_all_named a l) x =
    if decide (x = a) then 0 else cur_reserved_named l x;

  new_auction_law start fin st id st' : new_auction start fin st = inl (id, st') ->
    auction_info st id = None /\
    auction_info st' id = Some (mkAuctionInfo None start fin) /\
    (forall i, i <> id -> auction_info st' i = auction_info st i);
  remove_auction_law id st i : auction_info (remove_auction id st) i =
    if decide (i = id) then None else auction_info st i;

  (* depositing or withdrawing liquidity tokens, and the rewards paid with it,
     move funds of the caller and of the incentives pallet only *)
  inc_deposit_law who c n l i l' i' : who <> dex_account_id -> is_u128 n ->
    inc_deposit_dex_share who c n (l, i) = inl (l', i') -> shares_moved l l';
  inc_withdraw_law who c n l i l' i' : who <> dex_account_id -> is_u128 n ->
    inc_withdraw_dex_share who c n (l, i) = inl (l', i') -> shares_moved l l';

  drain_order_law l : drain_order l ≡ₚ l;

  (* the accounts of the pallets are derived from different pallet ids *)
  module_accounts : dex_account_id <> loans_account_id /\ dex_account_id <> treasury_account_id /\
    loans_account_id <> treasury_account_id;

  default_rates_u128 : is_u128 DefaultDebitExchangeRate /\ is_u128 DefaultLiquidationRatio /\
    is_u128 DefaultLiquidationPenalty /\ is_u128 StableCurrencyFixedPrice;
  authorization_deposit_u128 : is_u128 DepositPerAuthorization;
  max_auctions_u32 : is_u32 MaxAuctionsCount;
  exchange_fee_u32 : is_u32 GetExchangeFee.1 /\ is_u32 GetExchangeFee.2;
  exchange_fee_valid : 0 < GetExchangeFee.2 /\ GetExchangeFee.1 < GetExchangeFee.2;
}.

Lemma delta_nonneg c a n c' x : 0 <= n -> 0 <= delta c a n c' x.
Proof. unfold delta. case_decide; lia. Qed.
Lemma delta_eq c a n : delta c a n c a = n.
Proof. unfold delta. by rewrite decide_True. Qed.
Lemma delta_ne_account c a n c' x : x <> a -> delta c a n c' x = 0.
Proof. intros ?. unfold delta. rewrite decide_False; [done|]. naive_solver. Qed.
Lemma delta_ne_currency c a n c' x : c' <> c -> delta c a n c' x = 0.
Proof. intros ?. unfold delta. rewrite decide_False; [done|]. naive_solver. Qed.
Lemma delta_opp c a n c' x : delta c a (- n) c' x = - delta c a n c' x.
Proof. unfold delta. case_decide; lia. Qed.
Lemma delta_zero c a c' x : delta c a 0 c' x = 0.
Proof. unfold delta. by case_decide. Qed.
Lemma delta_account c a n c' : delta c a n c' a = if decide (c' = c) then n else 0.
Proof. unfold delta. repeat case_decide; naive_solver. Qed.

(** ** What a call into the ledger does to the state *)
Section CallLemmas.
Context `{ConfigLaws}.

Lemma lift_ledger_Ok f s u s' :
  lift_ledger f s = (Ok u, s') <-> exists l, f (st_ledger s) = inl l /\ s' = set_ledger l s.
Proof. unfold lift_ledger. destruct u, (f (st_ledger s)); naive_solver. Qed.
Lemma wp_lift_ledger f Q R s :
  wp (lift_ledger f) Q R s <->
  (forall l, f (st_ledger s) = inl l -> Q tt (set_ledger l s)) /\
  (forall e, f (st_ledger s) = inr e -> R e s).
Proof. unfold wp, lift_ledger. destruct (f (st_ledger s)); naive_solver. Qed.
Lemma wp_transfer c a b n Q R s : is_u128 n ->
  (forall l, (forall c' x, cur_free_balance l c' x
     = free_balance c' x s + delta c b n c' x - delta c a n c' x) ->
   (forall c', cur_total_issuance l c' = total_issuance c' s) ->
   Q tt (set_ledger l s)) ->
  (forall e, R e s) -> wp (transfer c a b n) Q R s.
Proof.
  intros Hn HQ HR. apply wp_lift_ledger. split; [|auto].
  intros l Hl. apply transfer_law in Hl as (? & ? & _); auto.
Qed.
Lemma wp_deposit c a n Q R s : is_u128 n ->
  (forall l, (forall c' x, cur_free_balance l c' x = free_balance c' x s + delta c a n c' x) ->
   (forall c', cur_total_issuance l c' =
      total_issuance c' s + if decide (c' = c) then n else 0) ->
   Q tt (set_ledger l s)) ->
  (forall e, R e s) -> wp (deposit c a n) Q R s.
Proof.
  intros Hn HQ HR. apply wp_lift_ledger. split; [|auto].
  intros l Hl. apply deposit_law in Hl as (? & ? & _); auto.
Qed.
Lemma wp_withdraw c a n Q R s : is_u128 n ->
  (forall l, (forall c' x, cur_free_balance l c' x = free_balance c' x s - delta c a n c' x) ->
   (forall c', cur_total_issuance l c' =
      total_issuance c' s - if decide (c' = c) then n else 0) ->
   Q tt (set_ledger l s)) ->
  (forall e, R e s) -> wp (withdraw c a n) Q R s.
Proof.
  intros Hn HQ HR. apply wp_lift_ledger. split; [|auto].
  intros l Hl. apply withdraw_law in Hl as (? & ? & _); auto.
Qed.
Lemma wp_signed {S} o (Q : AccountId -> S -> Prop) (R : DispatchError -> S -> Prop) s :
  (forall who, o = Signed who -> Q who s) -> R BadOrigin s -> wp (ensure_signed o) Q R s.
Proof. destruct o; cbn; intros HQ HR; try exact HR. by apply HQ. Qed.
Lemma wp_none {S} o (Q : unit -> S -> Prop) (R : DispatchError -> S -> Prop) s :
  (o = NoOrigin -> Q tt s) -> R BadOrigin s -> wp (ensure_none o) Q R s.
Proof. destruct o; cbn; intros HQ HR; try exact HR. by apply HQ. Qed.
Lemma wp_origin {S} allowed o (Q : unit -> S -> Prop) (R : DispatchError -> S -> Prop) s :
  (allowed o = true -> Q tt s) -> R BadOrigin s -> wp (ensure_origin allowed o) Q R s.
Proof. unfold ensure_origin. intros HQ HR. apply wp_ensure. auto. Qed.
Lemma wp_event e Q R s :
  Q tt (set_events (st_events s ++ [e]) s) -> wp (deposit_event e) Q R s.
Proof. done. Qed.

(** Nothing but the ledger changed, by one transfer, issuance or burning. *)
Definition moved (c : CurrencyId) (a b : AccountId) (n : Balance) (s s' : State) : Prop :=
  exists l, s' = set_ledger l s /\
    (forall c' x, cur_free_balance l c' x
       = free_balance c' x s + delta c b n c' x - delta c a n c' x) /\
    (forall c', cur_total_issuance l c' = total_issuance c' s).
Definition minted (c : CurrencyId) (a : AccountId) (n : Balance) (s s' : State) : Prop :=
  exists l, s' = set_ledger l s /\
    (forall c' x, cur_free_balance l c' x = free_balance c' x s + delta c a n c' x) /\
    (forall c', cur_total_issuance l c' = total_issuance c' s + if decide (c' = c) then n else 0).
Definition burned (c : CurrencyId) (a : AccountId) (n : Balance) (s s' : State) : Prop :=
  exists l, s' = set_ledger l s /\
    (forall c' x, cur_free_balance l c' x = free_balance c' x s - delta c a n c' x) /\
    (forall c', cur_total_issuance l c' = total_issuance c' s - if decide (c' = c) then n else 0).

Lemma transfer_moved c a b n s : is_u128 n ->
  wp (transfer c a b n) (fun _ => moved c a b n s) (fun _ s' => s' = s) s.
Proof.
  intros Hn. apply wp_lift_ledger. split; [|done].
  intros l Hl. apply transfer_law in Hl as (? & ? & _); [|done]. by exists l.
Qed.
Lemma deposit_minted c a n s : is_u128 n ->
  wp (deposit c a n) (fun _ => minted c a n s) (fun _ s' => s' = s) s.
Proof.
  intros Hn. apply wp_lift_ledger. split; [|done].
  intros l Hl. apply deposit_law in Hl as (? & ? & _); [|done]. by exists l.
Qed.
Lemma withdraw_burned c a n s : is_u128 n ->
  wp (withdraw c a n) (fun _ => burned c a n s) (fun _ s' => s' = s) s.
Proof.
  intros Hn. apply wp_lift_ledger. split; [|done].
  intros l Hl. apply withdraw_law in Hl as (? & ? & _); [|done]. by exists l.
Qed.
End CallLemmas.
