(* ===== verification/Sample.v ===== *)
(** * A concrete runtime

    An instance of [Config] the witnesses run the model on, with proofs of the
    laws: truncating fixed-point arithmetic, a token ledger kept as a finite
    map, a numbered table of auctions, and the constants of the pallets' mock
    runtimes.  It shows that the hypotheses the theorems make about code
    outside the repository can hold together. *)
From S2P Require Import Prelude FixedPoint Primitives Runtime.

Definition fits (x : Z) : option Z := if x <=? U128_MAX then Some x else None.

#[local] Instance sample_fixed : FixedU128 := {
  checked_from_rational n d := if d =? 0 then None else fits (n * DIV / d);
  checked_mul_int x n := fits (x * n / DIV);
  saturating_mul_int x n := default U128_MAX (fits (x * n / DIV));
  saturating_mul_acc_int x n :=
    U128.saturating_add (default U128_MAX (fits (x * n / DIV))) n;
  fx_checked_mul x y := fits (x * y / DIV);
  fx_saturating_mul x y := default U128_MAX (fits (x * y / DIV));
  fx_checked_div x y := if y =? 0 then None else fits (x * DIV / y);
  fx_saturating_pow x n :=
    if n =? 0 then DIV else Z.max 0 (Z.min U128_MAX (x ^ n / DIV ^ (n - 1)));
}.

Lemma fits_Some x q : fits x = Some q <-> q = x /\ x <= U128_MAX.
Proof. unfold fits. destruct (Z.leb_spec x U128_MAX); ucase. Qed.
Lemma fits_None x : fits x = None <-> U128_MAX < x.
Proof. unfold fits. destruct (Z.leb_spec x U128_MAX); ucase. Qed.
Lemma floor_rounds a b c : 0 < c -> rounds a b c (a * b / c).
Proof. intros Hc. unfold rounds. pose proof (Z.div_mod (a * b) c). pose proof (Z.mod_pos_bound (a * b) c). nia. Qed.
Lemma floor_fits a b c q : 0 <= a -> 0 <= b -> 0 < c -> fits (a * b / c) = Some q ->
  is_u128 q /\ rounds a b c q.
Proof.
  intros Ha Hb Hc [-> Hq]%fits_Some. split; [|by apply floor_rounds].
  split; [apply Z.div_pos; nia|done].
Qed.
Lemma floor_big a b c : 0 < c -> fits (a * b / c) = None -> U128_MAX * c < a * b.
Proof. intros Hc Hf%fits_None. pose proof (Z.mul_div_le (a * b) c Hc). nia. Qed.
Lemma pow_floor_ge x n : DIV <= x -> 0 < n -> DIV <= x ^ n / DIV ^ (n - 1).
Proof.
  intros Hx Hn. assert (0 < DIV) by (unfold DIV; lia).
  apply Z.div_le_lower_bound; [apply Z.pow_pos_nonneg; lia|].
  replace (DIV ^ (n - 1) * DIV) with (DIV ^ n).
  - apply Z.pow_le_mono_l; lia.
  - rewrite Z.mul_comm, <- Z.pow_succ_r by lia. f_equal. lia.
Qed.

#[local] Instance sample_fixed_laws : FixedU128Laws.
Proof.
  assert (HD : 0 < DIV) by (unfold DIV; lia).
  split; cbn -[DIV]; unfold is_u128.
  - intros n d q Hn Hd. destruct (Z.eqb_spec d 0); [done|]. intros Hq.
    split; [lia|]. apply floor_fits; [lia..|done].
  - intros n d Hn Hd. destruct (Z.eqb_spec d 0); [auto|]. intros Hq. right.
    apply floor_big; [lia|done].
  - intros x n q Hx Hn. apply floor_fits; lia.
  - intros x n Hx Hn. apply floor_big; lia.
  - done.
  - done.
  - intros x n q Hx Hn. apply floor_fits; lia.
  - intros x n Hx Hn. apply floor_big; lia.
  - done.
  - intros n d q Hn Hd. destruct (Z.eqb_spec d 0); [done|]. intros Hq.
    split; [lia|]. apply floor_fits; [lia..|done].
  - intros n d Hn Hd. destruct (Z.eqb_spec d 0); [auto|]. intros Hq. right.
    apply floor_big; [lia|done].
  - done.
  - intros x n Hx Hge Hn. destruct (Z.eqb_spec n 0); [done|].
    pose proof (pow_floor_ge x n Hge). assert (DIV <= U128_MAX) by (unfold DIV, U128_MAX; lia). lia.
  - intros x n Hx. destruct (Z.eqb_spec n 0); [unfold DIV, U128_MAX; lia|].
    assert (0 <= U128_MAX) by (unfold U128_MAX; lia). lia.
Qed.

(** ** The ledger *)
Record SampleLedger := mkLedger {
  l_free : gmap (CurrencyId * AccountId) N;
  l_reserved : gmap AccountId N }.

Definition l_raw (l : SampleLedger) (c : CurrencyId) (a : AccountId) : Z :=
  Z.of_N (default 0%N (l_free l !! (c, a))).
Definition l_weight (c : CurrencyId) (k : CurrencyId * AccountId) (v : N) : Z :=
  if decide (k.1 = c) then Z.of_N v else 0.
Definition l_sum (l : SampleLedger) (c : CurrencyId) : Z := map_sum (l_weight c) (l_free l).
(** Operations fail on a ledger whose issuance does not fit its type. *)
Definition l_ok (l : SampleLedger) (c : CurrencyId) (n : Z) : bool := l_sum l c + n <=? U128_MAX.
Definition l_put (l : SampleLedger) (c : CurrencyId) (a : AccountId) (v : Z) : SampleLedger :=
  mkLedger (<[(c, a) := Z.to_N v]> (l_free l)) (l_reserved l).
Definition l_total (l : SampleLedger) (c : CurrencyId) : Z := Z.min U128_MAX (l_sum l c).
Definition l_balance (l : SampleLedger) (c : CurrencyId) (a : AccountId) : Z :=
  Z.min U128_MAX (l_raw l c a).

Definition l_transfer (c : CurrencyId) (a b : AccountId) (n : Z) (l : SampleLedger)
    : SampleLedger + DispatchError :=
  if l_ok l c 0 && (n <=? l_raw l c a) then
    let l1 := l_put l c a (l_raw l c a - n) in
    inl (l_put l1 c b (l_raw l1 c b + n))
  else inr (ExternalError 1).
Definition l_deposit (c : CurrencyId) (a : AccountId) (n : Z) (l : SampleLedger)
    : SampleLedger + DispatchError :=
  if l_ok l c n then inl (l_put l c a (l_raw l c a + n)) else inr (ExternalError 2).
Definition l_withdraw (c : CurrencyId) (a : AccountId) (n : Z) (l : SampleLedger)
    : SampleLedger + DispatchError :=
  if l_ok l c 0 && (n <=? l_raw l c a) then inl (l_put l c a (l_raw l c a - n))
  else inr (ExternalError 1).

Definition l_reserved_of (l : SampleLedger) (a : AccountId) : Z :=
  Z.of_N (default 0%N (l_reserved l !! a)).
Definition l_set_reserved (l : SampleLedger) (a : AccountId) (v : Z) : SampleLedger :=
  mkLedger (l_free l) (<[a := Z.to_N v]> (l_reserved l)).

Lemma l_raw_put l c a v c' x : 0 <= v ->
  l_raw (l_put l c a v) c' x = if decide (c' = c /\ x = a) then v else l_raw l c' x.
Proof.
  intros Hv. unfold l_raw, l_put. cbn. destruct (decide (c' = c /\ x = a)) as [[-> ->]|Hne].
  - rewrite lookup_insert_eq. cbn. lia.
  - rewrite lookup_insert_ne; [done|]. intros [= -> ->]. naive_solver.
Qed.
Lemma l_raw_nonneg l c a : 0 <= l_raw l c a.
Proof. unfold l_raw. lia. Qed.
Lemma l_weight_nonneg (m : gmap (CurrencyId * AccountId) N) c k v :
  m !! k = Some v -> 0 <= l_weight c k v.
Proof. intros _. unfold l_weight. case_decide; lia. Qed.
Lemma l_sum_nonneg l c : 0 <= l_sum l c.
Proof. apply map_sum_nonneg. intros. by eapply l_weight_nonneg. Qed.
Lemma l_raw_le_sum l c a : l_raw l c a <= l_sum l c.
Proof.
  unfold l_raw. destruct (l_free l !! (c, a)) as [v|] eqn:E; cbn; [|apply l_sum_nonneg].
  pose proof (map_sum_lookup_le (l_weight c) _ _ _ (fun k v => l_weight_nonneg _ c k v) E) as Hle.
  unfold l_weight in Hle at 1. rewrite decide_True in Hle by done. done.
Qed.
Lemma l_sum_put l c a v c' : 0 <= v ->
  l_sum (l_put l c a v) c' = l_sum l c' + if decide (c' = c) then v - l_raw l c a else 0.
Proof.
  intros Hv. unfold l_sum, l_put. cbn. rewrite map_sum_insert. unfold l_weight at 2 3. cbn.
  unfold l_raw. destruct (decide (c' = c)) as [->|Hne].
  - rewrite decide_True by done.
    destruct (l_free l !! (c, a)); cbn; unfold l_weight; cbn; rewrite ?decide_True by done; lia.
  - rewrite decide_False by congruence.
    destruct (l_free l !! (c, a)); cbn; unfold l_weight; cbn; rewrite ?decide_False by congruence; lia.
Qed.

(** The runtime with [I] as the storage of the incentives pallet *)
Definition sample_with (I : Type) : Config := {|
  cfg_fixed := sample_fixed;
  Ledger := SampleLedger;
  cur_total_issuance := l_total;
  cur_free_balance := l_balance;
  cur_transfer := l_transfer;
  cur_deposit := l_deposit;
  cur_withdraw := l_withdraw;
  cur_reserved_named := l_reserved_of;
  cur_reserve_named a n l := inl (l_set_reserved l a (l_reserved_of l a + n));
  cur_unreserve_named a n l :=
    l_set_reserved l a (l_reserved_of l a - Z.min n (l_reserved_of l a));
  cur_unreserve_all_named a l := l_set_reserved l a 0;

  AuctionSt := Z * gmap Z AuctionInfo;
  auction_info st id := st.2 !! id;
  new_auction start fin st :=
    match st.2 !! st.1 with
    | None => inl (st.1, (st.1 + 1, <[st.1 := mkAuctionInfo None start fin]> st.2))
    | Some _ => inr (ExternalError 3)
    end;
  remove_auction id st := (st.1, delete id st.2);

  SystemSt := gmap AccountId Z;
  sys_inc_consumers a st := inl (<[a := default 0 (st !! a) + 1]> st);
  sys_dec_consumers a st := <[a := default 0 (st !! a) - 1]> st;

  MappingSt := unit;
  map_decimals _ c := token_info_decimals c;
  map_encode_evm_address _ _ := None;
  map_set_erc20_mapping _ st := inl st;

  IncentivesSt := I;
  inc_deposit_dex_share _ _ _ li := inl li;
  inc_withdraw_dex_share _ _ _ li := inl li;
  inc_on_update_loan _ i := i;

  drain_order l := l;

  ListingOrigin o := match o with Root => true | _ => false end;
  UpdateOrigin o := match o with Root => true | _ => false end;
  LockOrigin o := match o with Root => true | _ => false end;
  ShutdownOrigin o := match o with Root => true | _ => false end;
  LookupSource := AccountId;
  lookup := Some;

  GetExchangeFee := (1, 100);
  TradingPathLimit := 3;
  dex_account_id := 1001%N;
  loans_account_id := 1002%N;
  treasury_account_id := 1003%N;
  TreasuryAccount := 1004%N;
  GetStableCurrencyId := Token AUSD;
  GetStakingCurrencyId := Token DOT;
  GetLiquidCurrencyId := Token LDOT;
  StableCurrencyFixedPrice := DIV;
  MaxAuctionsCount := 5;
  CollateralCurrencyIds := [Token DOT; Token RENBTC; Token LDOT];
  DefaultLiquidationRatio := DIV * 3 / 2;
  DefaultDebitExchangeRate := DIV / 10;
  DefaultLiquidationPenalty := DIV / 10;
  MinimumDebitValue := 2;
  MaxSlippageSwapWithDEX := DIV / 2;
  MinimumIncrementSize := DIV / 20;
  AuctionTimeToClose := 100;
  AuctionDurationSoftCap := 2000;
  DepositPerAuthorization := 100
|}.

Lemma l_ok_true l c n : l_ok l c n = true -> l_sum l c + n <= U128_MAX.
Proof. apply Z.leb_le. Qed.
Lemma l_balance_raw l c a : l_sum l c <= U128_MAX -> l_balance l c a = l_raw l c a.
Proof. intros. unfold l_balance. pose proof (l_raw_le_sum l c a). lia. Qed.
Lemma l_raw_set l a v c x : l_raw (l_set_reserved l a v) c x = l_raw l c x.
Proof. done. Qed.
Lemma l_reserved_set l a v x : 0 <= v ->
  l_reserved_of (l_set_reserved l a v) x = if decide (x = a) then v else l_reserved_of l x.
Proof.
  intros Hv. unfold l_reserved_of, l_set_reserved. cbn. destruct (decide (x = a)) as [->|?].
  - rewrite lookup_insert_eq. cbn. lia.
  - by rewrite lookup_insert_ne.
Qed.
Lemma l_reserved_nonneg l a : 0 <= l_reserved_of l a.
Proof. unfold l_reserved_of. lia. Qed.

Lemma l_put_balance l c a v c' x : 0 <= v -> l_sum l c <= U128_MAX -> v <= U128_MAX ->
  l_balance (l_put l c a v) c' x =
    l_balance l c' x + delta c a (v - l_raw l c a) c' x.
Proof.
  intros Hv Hs Hm. unfold l_balance. rewrite l_raw_put by done. unfold delta.
  pose proof (l_raw_le_sum l c a). case_decide as E; [destruct E; subst|]; lia.
Qed.

Lemma sample_transfer_law c a b n l l' : is_u128 n -> l_transfer c a b n l = inl l' ->
  (forall c' x, l_balance l' c' x = l_balance l c' x + delta c b n c' x - delta c a n c' x) /\
  (forall c', l_total l' c' = l_total l c') /\
  (forall x, l_reserved_of l' x = l_reserved_of l x).
Proof.
  intros Hn. unfold l_transfer. destruct (l_ok l c 0 && _) eqn:E; [|done].
  apply andb_true_iff in E as [Hok Hle]. apply l_ok_true in Hok. apply Z.leb_le in Hle.
  intros [= <-]. set (l1 := l_put l c a (l_raw l c a - n)).
  assert (Hs1 : l_sum l1 c = l_sum l c - n).
  { subst l1. rewrite l_sum_put by lia. rewrite decide_True by done. lia. }
  pose proof (l_raw_nonneg l1 c b). pose proof (l_raw_le_sum l1 c b). pose proof (l_raw_le_sum l c a).
  destruct Hn. split; [|split; [|done]].
  - intros c' x. rewrite l_put_balance by lia.
    subst l1. rewrite l_put_balance by lia. unfold delta. repeat case_decide; lia.
  - intros c'. unfold l_total. rewrite l_sum_put by lia. subst l1.
    rewrite l_sum_put by lia. repeat case_decide; lia.
Qed.
Lemma sample_deposit_law c a n l l' : is_u128 n -> l_deposit c a n l = inl l' ->
  (forall c' x, l_balance l' c' x = l_balance l c' x + delta c a n c' x) /\
  (forall c', l_total l' c' = l_total l c' + if decide (c' = c) then n else 0) /\
  (forall x, l_reserved_of l' x = l_reserved_of l x).
Proof.
  intros Hn. unfold l_deposit. destruct (l_ok l c n) eqn:Hok; [|done].
  apply l_ok_true in Hok. intros [= <-]. destruct Hn.
  pose proof (l_raw_nonneg l c a). pose proof (l_raw_le_sum l c a).
  split; [|split; [|done]].
  - intros c' x. rewrite l_put_balance by lia. unfold delta. repeat case_decide; lia.
  - intros c'. unfold l_total. rewrite l_sum_put by lia. case_decide; subst; lia.
Qed.
Lemma sample_withdraw_law c a n l l' : is_u128 n -> l_withdraw c a n l = inl l' ->
  (forall c' x, l_balance l' c' x = l_balance l c' x - delta c a n c' x) /\
  (forall c', l_total l' c' = l_total l c' - if decide (c' = c) then n else 0) /\
  (forall x, l_reserved_of l' x = l_reserved_of l x).
Proof.
  intros Hn. unfold l_withdraw. destruct (l_ok l c 0 && _) eqn:E; [|done].
  apply andb_true_iff in E as [Hok Hle]. apply l_ok_true in Hok. apply Z.leb_le in Hle.
  intros [= <-]. destruct Hn. pose proof (l_raw_le_sum l c a).
  split; [|split; [|done]].
  - intros c' x. rewrite l_put_balance by lia. unfold delta. repeat case_decide; lia.
  - intros c'. unfold l_total. rewrite l_sum_put by lia. case_decide; subst; lia.
Qed.

Lemma sample_with_laws (I : Type) : @ConfigLaws (sample_with I).
Proof.
  split; cbn [Ledger cur_total_issuance cur_free_balance cur_transfer cur_deposit cur_withdraw
    cur_reserved_named cur_reserve_named cur_unreserve_named cur_unreserve_all_named
    auction_info new_auction remove_auction inc_deposit_dex_share inc_withdraw_dex_share
    drain_order sample_with AuctionSt IncentivesSt].
  - apply sample_fixed_laws.
  - intros l c a. unfold l_balance, is_u128. pose proof (l_raw_nonneg l c a). uarith.
  - intros l c. unfold l_total, is_u128. pose proof (l_sum_nonneg l c). uarith.
  - intros l c a. unfold l_balance, l_total. pose proof (l_raw_le_sum l c a). lia.
  - apply sample_transfer_law.
  - apply sample_deposit_law.
  - apply sample_withdraw_law.
  - intros a n l l' Hn [= <-] x. destruct Hn. pose proof (l_reserved_nonneg l a).
    rewrite l_reserved_set by lia. case_decide; subst; lia.
  - intros a n l Hn x. pose proof (l_reserved_nonneg l a). destruct Hn.
    rewrite l_reserved_set by lia. case_decide; subst; lia.
  - intros a l x. by rewrite l_reserved_set.
  - intros start fin st id st'. destruct (st.2 !! st.1) eqn:E; [done|]. intros [= <- <-]. cbn.
    rewrite lookup_insert_eq. split; [done|]. split; [done|].
    intros i Hi. by rewrite lookup_insert_ne.
  - intros id st i. cbn. rewrite lookup_delete. repeat case_decide; naive_solver.
  - by intros who c n l i l' i' _ _ [= <- <-].
  - by intros who c n l i l' i' _ _ [= <- <-].
  - done.
  - split_and!; discriminate.
  - by vm_compute.
  - by vm_compute.
  - by vm_compute.
  - unfold GetExchangeFee, is_u32, U32_MAX. cbn. lia.
  - unfold GetExchangeFee. cbn. lia.
Qed.

#[local] Instance sample : Config := sample_with unit.
#[local] Instance sample_laws : ConfigLaws := sample_with_laws unit.

(** ** An initial state *)
Definition l_empty : SampleLedger := mkLedger ∅ ∅.
Fixpoint l_of_list (bs : list (CurrencyId * AccountId * Z)) : SampleLedger :=
  match bs with
  | [] => l_empty
  | (c, a, v) :: bs => l_put (l_of_list bs) c a v
  end.

Definition sample_state_with {I : Type} (i : I) (bs : list (CurrencyId * AccountId * Z))
    (prices : CurrencyId -> option Z) : @State (sample_with I) :=
  mkState (sample_with I) (mkDex ∅ ∅ ∅) (mkLoans ∅ ∅) (mkTreasury ∅ 0) (mkCdp ∅ 0 ∅ 0) (mkAuctions ∅ ∅ 0)
    ∅ (mkShutdown false false) ∅ (l_of_list bs) (0, ∅) ∅ tt i
    (mkEnv 10 1000 prices (DIV / 10)) [].
Definition sample_state (bs : list (CurrencyId * AccountId * Z)) (prices : CurrencyId -> option Z)
    : State := sample_state_with tt bs prices.

Definition alice : AccountId := 1%N.
Definition bob : AccountId := 2%N.
