(* ===== verification/Support.v ===== *)
(** * Interfaces between the pallets

    The traits of [modules/support/src/lib.rs] as classes over the runtime
    monad: what one pallet calls in another.  The laws a client's theorems use
    are stated next to the interface and proved by the pallet that implements
    it. *)
From S2P Require Import Prelude FixedPoint Primitives Runtime.

(** The runtime monad of the pallets. *)
Abbreviation Run := (M DispatchError State).

Class RiskManager `{Config} := {
  get_bad_debt_value : CurrencyId -> Balance -> State -> Balance;
  check_position_valid : CurrencyId -> Balance -> Balance -> State -> outcome DispatchError unit;
  check_debit_cap : CurrencyId -> Balance -> State -> outcome DispatchError unit;
}.

(** [orml_traits::Change] *)
Inductive Change (A : Type) := NoChange | NewValue (v : A).
Arguments NoChange {A}.
Arguments NewValue {A} v.
(** [sp_runtime::transaction_validity] *)
Inductive Validity := InvalidCall | InvalidStale | Valid.

(** The parameters of the CDP engine are 128-bit numbers. *)
Definition opt_u128 (o : option Z) : Prop := from_option is_u128 True o.
Record params_typed (p : RiskManagementParams) : Prop := {
  pt_cap : is_u128 (rp_maximum_total_debit_value p);
  pt_interest : opt_u128 (rp_interest_rate_per_sec p);
  pt_ratio : opt_u128 (rp_liquidation_ratio p);
  pt_penalty : opt_u128 (rp_liquidation_penalty p);
  pt_required : opt_u128 (rp_required_collateral_ratio p);
}.
Record cdp_typed (x : CdpStorage) : Prop := {
  ct_rate c r : DebitExchangeRate x !! c = Some r -> is_u128 r;
  ct_global : is_u128 (GlobalInterestRatePerSec x);
  ct_params c p : CollateralParams x !! c = Some p -> params_typed p;
}.

(** [Convert<(CurrencyId, Balance), Balance>]: the value of a debit amount *)
Class DebitConvert `{Config} := { convert : CurrencyId -> Balance -> State -> Balance }.

Class RiskManagerLaws `{Config, !RiskManager, !DebitConvert} : Prop := {
  convert_u128 c n s : cdp_typed (st_cdp s) -> is_u128 n -> is_u128 (convert c n s);
  convert_frame c n s t : st_cdp t = st_cdp s -> convert c n t = convert c n s;
  bad_debt_convert c n s : get_bad_debt_value c n s = convert c n s;
  bad_debt_frame c n s t : st_cdp t = st_cdp s -> get_bad_debt_value c n t = get_bad_debt_value c n s;
  check_position_no_panic c x y s : check_position_valid c x y s <> Panic;
  check_cap_no_panic c n s : check_debit_cap c n s <> Panic;
}.

Class AuctionManager `{Config} := {
  new_collateral_auction : AccountId -> CurrencyId -> Balance -> Balance -> Run unit;
  cancel_auction : AuctionId -> Run unit;
  get_total_collateral_in_auction : CurrencyId -> State -> Balance;
  get_total_target_in_auction : State -> Balance;
}.

Class DEXManager `{Config} := {
  get_liquidity_pool : CurrencyId -> CurrencyId -> State -> Balance * Balance;
  get_liquidity_token_address : CurrencyId -> CurrencyId -> State -> option EvmAddress;
  get_swap_target_amount : list CurrencyId -> Balance -> option Ratio -> State -> option Balance;
  get_swap_supply_amount : list CurrencyId -> Balance -> option Ratio -> State -> option Balance;
  dex_swap_with_exact_supply :
    AccountId -> list CurrencyId -> Balance -> Balance -> option Ratio -> Run Balance;
  dex_swap_with_exact_target :
    AccountId -> list CurrencyId -> Balance -> Balance -> option Ratio -> Run Balance;
  dex_add_liquidity :
    AccountId -> CurrencyId -> CurrencyId -> Balance -> Balance -> Balance -> bool -> Run unit;
  dex_remove_liquidity :
    AccountId -> CurrencyId -> CurrencyId -> Balance -> Balance -> Balance -> bool -> Run unit;
}.

Class CDPTreasury `{Config} := {
  get_surplus_pool : State -> Balance;
  get_debit_pool : State -> Balance;
  get_total_collaterals : CurrencyId -> State -> Balance;
  get_debit_proportion : Balance -> State -> Ratio;
  on_system_debit : Balance -> Run unit;
  on_system_surplus : Balance -> Run unit;
  issue_debit : AccountId -> Balance -> bool -> Run unit;
  burn_debit : AccountId -> Balance -> Run unit;
  deposit_surplus : AccountId -> Balance -> Run unit;
  deposit_collateral : AccountId -> CurrencyId -> Balance -> Run unit;
  withdraw_collateral : AccountId -> CurrencyId -> Balance -> Run unit;
}.

Class CDPTreasuryExtended `{Config} := {
  swap_exact_collateral_to_stable :
    CurrencyId -> Balance -> Balance -> option Ratio -> option (list CurrencyId) -> bool -> Run Balance;
  swap_collateral_to_exact_stable :
    CurrencyId -> Balance -> Balance -> option Ratio -> option (list CurrencyId) -> bool -> Run Balance;
  create_collateral_auctions :
    CurrencyId -> Balance -> Balance -> AccountId -> bool -> Run unit;
}.

Class PriceProvider `{Config} := {
  get_relative_price : CurrencyId -> CurrencyId -> State -> option Price;
  get_price : CurrencyId -> State -> option Price;
  lock_price : CurrencyId -> Run unit;
  unlock_price : CurrencyId -> Run unit;
}.

Class EmergencyShutdown `{Config} := { is_shutdown : State -> bool }.

(** ** What the exchange promises its clients

    [swap_effect who path x y s s']: [who] paid [x] of the first currency of
    [path] to the exchange and got [y] of the last one.  In the storage of the
    exchange only the reserves of the pairs on the path changed, by what each hop
    brought in and took out; besides that and the event log nothing changed. *)
Definition pair_u128 (x : Z * Z) : Prop := is_u128 x.1 /\ is_u128 x.2.
Definition dex_typed (d : DexStorage) : Prop :=
  forall p x, LiquidityPool d !! p = Some x -> pair_u128 x.

(** The hops of a path: from, to, what comes in and what goes out *)
Fixpoint swap_hops (path : list CurrencyId) (amounts : list Balance) :
    list (CurrencyId * CurrencyId * Balance * Balance) :=
  match path, amounts with
  | a :: ((b :: _) as path'), x :: ((y :: _) as amounts') => (a, b, x, y) :: swap_hops path' amounts'
  | _, _ => []
  end.
(** What one hop makes of the reserves of [p]: nothing, unless [p] is its pair;
    the reserves stay in their type. *)
Definition hop_reserves (p : TradingPair) (r : option (Balance * Balance))
    (h : CurrencyId * CurrencyId * Balance * Balance) : option (Balance * Balance) :=
  let '(a, b, x, y) := h in
  if decide (from_token_currency_ids a b = Some p) then
    let r := default (0, 0) r in
    Some (if decide (a = pair_0 p) then (Z.min (r.1 + x) U128_MAX, Z.max (r.2 - y) 0)
          else (Z.max (r.1 - y) 0, Z.min (r.2 + x) U128_MAX))
  else r.
Definition swapped_reserves (path : list CurrencyId) (amounts : list Balance) (d d' : DexStorage) : Prop :=
  (forall p, LiquidityPool d' !! p = foldl (hop_reserves p) (LiquidityPool d !! p) (swap_hops path amounts)) /\
  TradingPairStatuses d' = TradingPairStatuses d /\ ProvisioningPool d' = ProvisioningPool d.

Definition swap_moves `{Config} (who : AccountId) (path : list CurrencyId) (amounts : list Balance)
    (x y : Balance) (s s' : State) : Prop :=
  exists a z d l,
    head path = Some a /\ last path = Some z /\
    s' = set_events (st_events s ++ [Swap who path x y]) (set_ledger l (set_dex d s)) /\
    (dex_typed d /\ length amounts = length path /\ head amounts = Some x /\ last amounts = Some y /\
     swapped_reserves path amounts (st_dex s) d) /\
    (forall c acc, cur_free_balance l c acc = free_balance c acc s
       + delta a dex_account_id x c acc - delta a who x c acc
       + delta z who y c acc - delta z dex_account_id y c acc) /\
    (forall c, cur_total_issuance l c = total_issuance c s) /\
    (forall acc, cur_reserved_named l acc = cur_reserved_named (st_ledger s) acc).
Definition swap_effect `{Config} (who : AccountId) (path : list CurrencyId) (x y : Balance) (s s' : State) : Prop :=
  exists amounts, swap_moves who path amounts x y s s'.

Class DEXManagerLaws `{Config, !DEXManager} : Prop := {
  pool_u128 a b s : dex_typed (st_dex s) -> pair_u128 (get_liquidity_pool a b s);
  pool_frame a b s t : st_dex t = st_dex s -> get_liquidity_pool a b t = get_liquidity_pool a b s;
  swap_supply_spec who path x min limit s :
    dex_typed (st_dex s) -> is_u128 x ->
    wp (dex_swap_with_exact_supply who path x min limit)
      (fun r s' => is_u128 r /\ min <= r /\ swap_effect who path x r s s')
      (fun _ s' => s' = s) s;
  swap_target_spec who path y max limit s :
    dex_typed (st_dex s) -> is_u128 y ->
    wp (dex_swap_with_exact_target who path y max limit)
      (fun r s' => is_u128 r /\ r <= max /\ swap_effect who path r y s s')
      (fun _ s' => s' = s) s;
}.

(** ** What the prices pallet promises its clients *)
Definition prices_typed `{Config} (s : State) : Prop :=
  (forall c p, oracle_price (st_env s) c = Some p -> is_u128 p) /\
  (forall c p, st_locked_price s !! c = Some p -> is_u128 p) /\
  is_u128 (liquid_exchange_rate (st_env s)) /\ dex_typed (st_dex s).
(** Nothing a price depends on differs between [s] and [t]. *)
Record price_agree `{Config} (s t : State) : Prop := {
  pa_dex : st_dex t = st_dex s;
  pa_env : st_env t = st_env s;
  pa_locked : st_locked_price t = st_locked_price s;
  pa_mapping : st_mapping t = st_mapping s;
  pa_issuance c : total_issuance c t = total_issuance c s;
}.
Class PriceProviderLaws `{Config, !PriceProvider} : Prop := {
  relative_price_u128 a b s p : prices_typed s -> get_relative_price a b s = Some p -> is_u128 p;
  relative_price_frame a b s t : price_agree s t -> get_relative_price a b t = get_relative_price a b s;
  lock_price_spec c s :
    wp (lock_price c) (fun _ s' => exists m ev, s' = set_locked_price m (set_events ev s)) (fun _ _ => False) s;
}.

(** ** What the treasury promises its clients *)
Definition debited `{Config} (n : Balance) (s s' : State) : Prop :=
  s' = set_treasury (mkTreasury (ExpectedCollateralAuctionSize (st_treasury s))
         (DebitPool (st_treasury s) + n)) s /\
  DebitPool (st_treasury s) + n <= U128_MAX.

Class CDPTreasuryLaws `{Config, !CDPTreasury} : Prop := {
  total_collaterals_free c s : get_total_collaterals c s = free_balance c treasury_account_id s;
  debit_proportion_spec n s :
    get_debit_proportion n s = default 0 (checked_from_rational n (total_issuance GetStableCurrencyId s));
  on_system_debit_spec n s :
    wp (on_system_debit n)
      (fun _ => debited n s) (fun _ s' => s' = s) s;
  on_system_surplus_spec n s : is_u128 n ->
    wp (on_system_surplus n)
      (fun _ => minted GetStableCurrencyId treasury_account_id n s) (fun _ s' => s' = s) s;
  issue_backed_spec who n s : is_u128 n ->
    wp (issue_debit who n true) (fun _ => minted GetStableCurrencyId who n s) (fun _ s' => s' = s) s;
  (* not atomic: a failed issue can leave the debit behind *)
  issue_unbacked_spec who n s : is_u128 n ->
    wp (issue_debit who n false)
      (fun _ s' => exists t, debited n s t /\ minted GetStableCurrencyId who n t s')
      (fun _ s' => s' = s \/ debited n s s') s;
  burn_debit_spec who n s : is_u128 n ->
    wp (burn_debit who n) (fun _ => burned GetStableCurrencyId who n s) (fun _ s' => s' = s) s;
  deposit_surplus_spec who n s : is_u128 n ->
    wp (deposit_surplus who n)
      (fun _ => moved GetStableCurrencyId who treasury_account_id n s) (fun _ s' => s' = s) s;
  deposit_collateral_spec who c n s : is_u128 n ->
    wp (deposit_collateral who c n)
      (fun _ => moved c who treasury_account_id n s) (fun _ s' => s' = s) s;
  withdraw_collateral_spec who c n s : is_u128 n ->
    wp (withdraw_collateral who c n)
      (fun _ => moved c treasury_account_id who n s) (fun _ s' => s' = s) s;
}.

(** ** What the auction manager promises its clients

    A new auction moves no funds: only the books of auctions, the reference
    counts and the event log change. *)
Definition auction_frame `{Config} (s s' : State) : Prop :=
  exists x y z ev, s' = set_auctions x (set_auction_ext y (set_system z (set_events ev s))).
Class AuctionManagerLaws `{Config, !AuctionManager} : Prop := {
  new_auction_spec who c n t s :
    wp (new_collateral_auction who c n t) (fun _ => auction_frame s) (fun _ _ => True) s;
}.
Lemma auction_frame_refl `{Config} s : auction_frame s s.
Proof. exists (st_auctions s), (st_auction_ext s), (st_system s), (st_events s). by destruct s. Qed.
Lemma auction_frame_trans `{Config} s t u : auction_frame s t -> auction_frame t u -> auction_frame s u.
Proof. intros (x & y & z & ev & ->) (x' & y' & z' & ev' & ->). by exists x', y', z', ev'. Qed.

(** ** What the extended treasury promises its clients *)
Definition treasury_typed (x : TreasuryStorage) : Prop :=
  is_u128 (DebitPool x) /\ forall c n, ExpectedCollateralAuctionSize x !! c = Some n -> is_u128 n.
Class CDPTreasuryExtendedLaws `{Config, !CDPTreasuryExtended} : Prop := {
  create_auctions_spec c n t who splited s : is_u128 n -> is_u128 t -> treasury_typed (st_treasury s) ->
    wp (create_collateral_auctions c n t who splited) (fun _ => auction_frame s) (fun _ _ => True) s;
  swap_exact_collateral_spec c supply min limit path in_auction s :
    dex_typed (st_dex s) -> is_u128 supply ->
    wp (swap_exact_collateral_to_stable c supply min limit path in_auction)
      (fun r s' => is_u128 r /\ min <= r /\ exists p, head p = Some c /\
         last p = Some GetStableCurrencyId /\ swap_effect treasury_account_id p supply r s s')
      (fun _ s' => s' = s) s;
  swap_collateral_exact_stable_spec c max target limit path in_auction s :
    dex_typed (st_dex s) -> is_u128 target ->
    wp (swap_collateral_to_exact_stable c max target limit path in_auction)
      (fun r s' => is_u128 r /\ r <= max /\ exists p, head p = Some c /\
         last p = Some GetStableCurrencyId /\ swap_effect treasury_account_id p r target s s')
      (fun _ s' => s' = s) s;
}.
