(* ===== verification/Dex.v ===== *)
(** * The decentralized exchange

    [modules/dex/src/lib.rs]: constant-product pools, liquidity shares, the
    provisioning stage of a trading pair and swaps along a path. *)
From S2P Require Import Prelude FixedPoint Primitives Runtime Support.

(** ** Quotes: pure arithmetic on pools *)
Section Quotes.
Context `{Config}.

(** [get_target_amount]: a Rust conversion that does not fit gives zero. *)
Definition get_target_amount (supply_pool target_pool supply_amount : Balance) : Balance :=
  if (supply_amount =? 0) || (supply_pool =? 0) || (target_pool =? 0) then 0
  else
    let '(fee_numerator, fee_denominator) := GetExchangeFee in
    let supply_amount_with_fee :=
      U128.saturating_mul supply_amount (U128.saturating_sub fee_denominator fee_numerator) in
    let numerator := U256.saturating_mul supply_amount_with_fee target_pool in
    let denominator :=
      U256.saturating_add (U256.saturating_mul supply_pool fee_denominator) supply_amount_with_fee in
    default 0 (n ← U256.checked_div numerator denominator; U128.try_from n).

Definition get_supply_amount (supply_pool target_pool target_amount : Balance) : Balance :=
  if (target_amount =? 0) || (supply_pool =? 0) || (target_pool =? 0) then 0
  else
    let '(fee_numerator, fee_denominator) := GetExchangeFee in
    let numerator :=
      U256.saturating_mul (U256.saturating_mul supply_pool target_amount) fee_denominator in
    let denominator :=
      U256.saturating_mul (U256.saturating_sub target_pool target_amount)
        (U128.saturating_sub fee_denominator fee_numerator) in
    default 0 (r ← U256.checked_div numerator denominator;
               n ← U256.checked_add r 1; U128.try_from n).

(** The check of the constant product formula both loops make. *)
Definition invariant_holds (supply_pool target_pool supply_amount target_amount : Balance) : bool :=
  U256.saturating_mul supply_pool target_pool <=?
  U256.saturating_mul (U128.saturating_add supply_pool supply_amount)
                      (U128.saturating_sub target_pool target_amount).

Definition price_impact_ok (limit : option Ratio) (target_amount target_pool : Balance) : bool :=
  match limit with
  | Some l => default 0 (checked_from_rational target_amount target_pool) <=? l
  | None => true
  end.

(** The share a contribution [c] is worth when [total] is the whole deposit. *)
Definition initial_share (total c : Balance * Balance) : Balance :=
  if total.2 <? total.1 then
    let initial_price_1_in_0 := default 0 (checked_from_rational total.1 total.2) in
    U128.saturating_add (saturating_mul_int initial_price_1_in_0 c.2) c.1
  else
    let initial_price_0_in_1 := default 0 (checked_from_rational total.2 total.1) in
    U128.saturating_add (saturating_mul_int initial_price_0_in_1 c.1) c.2.

(** Pool and share increments of [do_add_liquidity]. *)
Definition liquidity_increments (pool max_amount : Balance * Balance) (total_shares : Balance)
    : Balance * Balance * Balance :=
  let '(pool_0, pool_1) := pool in
  let '(max_amount_0, max_amount_1) := max_amount in
  if total_shares =? 0 then (max_amount_0, max_amount_1, initial_share max_amount max_amount)
  else
    let price_0_1 := default 0 (checked_from_rational pool_1 pool_0) in
    let input_price_0_1 := default 0 (checked_from_rational max_amount_1 max_amount_0) in
    if input_price_0_1 <=? price_0_1 then
      let price_1_0 := default 0 (checked_from_rational pool_0 pool_1) in
      let amount_0 := saturating_mul_int price_1_0 max_amount_1 in
      let share_increment :=
        default 0 (n ← checked_from_rational amount_0 pool_0; checked_mul_int n total_shares) in
      (amount_0, max_amount_1, share_increment)
    else
      let amount_1 := saturating_mul_int price_0_1 max_amount_0 in
      let share_increment :=
        default 0 (n ← checked_from_rational amount_1 pool_1; checked_mul_int n total_shares) in
      (max_amount_0, amount_1, share_increment).
End Quotes.

Section Dex.
Context `{Config}.

(** ** Storage access *)
Definition liquidity_pool (p : TradingPair) (s : State) : Balance * Balance :=
  default (0, 0) (LiquidityPool (st_dex s) !! p).
Definition trading_pair_statuses (p : TradingPair) (s : State) : TradingPairStatus :=
  default NotEnabled (TradingPairStatuses (st_dex s) !! p).
Definition provisions (p : TradingPair) (s : State) : gmap AccountId (Balance * Balance) :=
  default ∅ (ProvisioningPool (st_dex s) !! p).
Definition provisioning_pool (p : TradingPair) (who : AccountId) (s : State) : Balance * Balance :=
  default (0, 0) (provisions p s !! who).

Definition with_dex (f : DexStorage -> DexStorage) (s : State) : State := set_dex (f (st_dex s)) s.
Definition put_pool (p : TradingPair) (x : Balance * Balance) : Run unit :=
  modify (with_dex (fun d => mkDex (<[p := x]> (LiquidityPool d)) (TradingPairStatuses d) (ProvisioningPool d))).
Definition put_status (p : TradingPair) (x : TradingPairStatus) : Run unit :=
  modify (with_dex (fun d => mkDex (LiquidityPool d) (<[p := x]> (TradingPairStatuses d)) (ProvisioningPool d))).
Definition remove_status (p : TradingPair) : Run unit :=
  modify (with_dex (fun d => mkDex (LiquidityPool d) (delete p (TradingPairStatuses d)) (ProvisioningPool d))).
Definition put_provisions (p : TradingPair) (x : gmap AccountId (Balance * Balance)) : Run unit :=
  modify (with_dex (fun d => mkDex (LiquidityPool d) (TradingPairStatuses d) (<[p := x]> (ProvisioningPool d)))).
(** [ProvisioningPool::drain_prefix] *)
Definition drain_provisions (p : TradingPair) : Run (list (AccountId * (Balance * Balance))) :=
  l ← gets (fun s => drain_order (map_to_list (provisions p s)));
  _ ← modify (with_dex (fun d =>
        mkDex (LiquidityPool d) (TradingPairStatuses d) (delete p (ProvisioningPool d))));
  mret l.

Definition is_enabled (st : TradingPairStatus) : bool :=
  match st with Enabled => true | _ => false end.
Definition is_not_enabled (st : TradingPairStatus) : bool :=
  match st with NotEnabled => true | _ => false end.

(** The amounts of a call in the order of the pair. *)
Definition sort_amounts (currency_id_a : CurrencyId) (p : TradingPair) (a b : Balance)
    : Balance * Balance :=
  if decide (currency_id_a = pair_0 p) then (a, b) else (b, a).

Definition get_liquidity (currency_id_a currency_id_b : CurrencyId) (s : State)
    : Balance * Balance :=
  let trading_pair := TradingPair_new currency_id_a currency_id_b in
  let '(pool_0, pool_1) := liquidity_pool trading_pair s in
  if decide (currency_id_a = pair_0 trading_pair) then (pool_0, pool_1) else (pool_1, pool_0).

(** ** Quotes along a path *)
Definition path_length_ok (path : list CurrencyId) : bool :=
  (2 <=? Z.of_nat (length path)) && (Z.of_nat (length path) <=? TradingPathLimit).

(** One step of the loop of [get_target_amounts]. *)
Definition target_hop (a b : CurrencyId) (supply_amount : Balance) (limit : option Ratio)
    (s : State) : outcome DispatchError Balance :=
  _ ← oensure (is_enabled (trading_pair_statuses (TradingPair_new a b) s)) (DexE DexError.MustBeEnabled);
  let '(supply_pool, target_pool) := get_liquidity a b s in
  _ ← oensure (negb (supply_pool =? 0) && negb (target_pool =? 0)) (DexE DexError.InsufficientLiquidity);
  let target_amount := get_target_amount supply_pool target_pool supply_amount in
  _ ← oensure (negb (target_amount =? 0)) (DexE DexError.ZeroTargetAmount);
  _ ← oensure (invariant_holds supply_pool target_pool supply_amount target_amount)
        (DexE DexError.InvariantCheckFailed);
  _ ← oensure (price_impact_ok limit target_amount target_pool) (DexE DexError.ExceedPriceImpactLimit);
  mret target_amount.

(** One step of the loop of [get_supply_amounts]. *)
Definition supply_hop (a b : CurrencyId) (target_amount : Balance) (limit : option Ratio)
    (s : State) : outcome DispatchError Balance :=
  _ ← oensure (is_enabled (trading_pair_statuses (TradingPair_new a b) s)) (DexE DexError.MustBeEnabled);
  let '(supply_pool, target_pool) := get_liquidity a b s in
  _ ← oensure (negb (supply_pool =? 0) && negb (target_pool =? 0)) (DexE DexError.InsufficientLiquidity);
  let supply_amount := get_supply_amount supply_pool target_pool target_amount in
  _ ← oensure (negb (supply_amount =? 0)) (DexE DexError.ZeroSupplyAmount);
  _ ← oensure (invariant_holds supply_pool target_pool supply_amount target_amount)
        (DexE DexError.InvariantCheckFailed);
  _ ← oensure (price_impact_ok limit target_amount target_pool) (DexE DexError.ExceedPriceImpactLimit);
  mret supply_amount.

(** The loop of [get_target_amounts] fills its vector from the front. *)
Fixpoint target_amounts (path : list CurrencyId) (supply_amount : Balance) (limit : option Ratio)
    (s : State) : outcome DispatchError (list Balance) :=
  match path with
  | a :: ((b :: _) as rest) =>
      t ← target_hop a b supply_amount limit s;
      ts ← target_amounts rest t limit s;
      mret (supply_amount :: ts)
  | _ => mret [supply_amount]
  end.
Definition get_target_amounts (path : list CurrencyId) (supply_amount : Balance)
    (limit : option Ratio) (s : State) : outcome DispatchError (list Balance) :=
  _ ← oensure (path_length_ok path) (DexE DexError.InvalidTradingPathLength);
  target_amounts path supply_amount limit s.

(** The loop of [get_supply_amounts] fills its vector from the back. *)
Fixpoint supply_amounts (path : list CurrencyId) (target_amount : Balance) (limit : option Ratio)
    (s : State) : outcome DispatchError (list Balance) :=
  match path with
  | a :: ((b :: _) as rest) =>
      ts ← supply_amounts rest target_amount limit s;
      match ts with
      | t :: _ => x ← supply_hop a b t limit s; mret (x :: ts)
      | [] => Panic
      end
  | _ => mret [target_amount]
  end.
Definition get_supply_amounts (path : list CurrencyId) (target_amount : Balance)
    (limit : option Ratio) (s : State) : outcome DispatchError (list Balance) :=
  _ ← oensure (path_length_ok path) (DexE DexError.InvalidTradingPathLength);
  supply_amounts path target_amount limit s.

(** ** Swaps *)
Definition swap_pool (supply_currency_id : CurrencyId) (p : TradingPair)
    (supply_increment target_decrement : Balance) (pool : Balance * Balance) : Balance * Balance :=
  if decide (supply_currency_id = pair_0 p) then
    (U128.saturating_add pool.1 supply_increment, U128.saturating_sub pool.2 target_decrement)
  else
    (U128.saturating_sub pool.1 target_decrement, U128.saturating_add pool.2 supply_increment).

Definition _swap (supply_currency_id target_currency_id : CurrencyId)
    (supply_increment target_decrement : Balance) : Run unit :=
  match from_token_currency_ids supply_currency_id target_currency_id with
  | Some p =>
      pool ← gets (liquidity_pool p);
      put_pool p (swap_pool supply_currency_id p supply_increment target_decrement pool)
  | None => mret tt
  end.

Fixpoint _swap_by_path (path : list CurrencyId) (amounts : list Balance) : Run unit :=
  match path, amounts with
  | a :: ((b :: _) as path'), x :: ((y :: _) as amounts') =>
      _ ← _swap a b x y; _swap_by_path path' amounts'
  | _ :: _ :: _, _ => panic
  | _, _ => mret tt
  end.

Definition do_swap_with_exact_supply (who : AccountId) (path : list CurrencyId)
    (supply_amount min_target_amount : Balance) (limit : option Ratio) : Run Balance :=
  transactional (
    amounts ← reads (get_target_amounts path supply_amount limit);
    actual_target_amount ← expect (last amounts);
    _ ← ensure (min_target_amount <=? actual_target_amount) (DexE DexError.InsufficientTargetAmount);
    supply_currency ← expect (head path);
    target_currency ← expect (last path);
    _ ← transfer supply_currency who dex_account_id supply_amount;
    _ ← _swap_by_path path amounts;
    _ ← transfer target_currency dex_account_id who actual_target_amount;
    _ ← deposit_event (Swap who path supply_amount actual_target_amount);
    mret actual_target_amount).

Definition do_swap_with_exact_target (who : AccountId) (path : list CurrencyId)
    (target_amount max_supply_amount : Balance) (limit : option Ratio) : Run Balance :=
  transactional (
    amounts ← reads (get_supply_amounts path target_amount limit);
    actual_supply_amount ← expect (head amounts);
    _ ← ensure (actual_supply_amount <=? max_supply_amount) (DexE DexError.ExcessiveSupplyAmount);
    supply_currency ← expect (head path);
    target_currency ← expect (last path);
    _ ← transfer supply_currency who dex_account_id actual_supply_amount;
    _ ← _swap_by_path path amounts;
    _ ← transfer target_currency dex_account_id who target_amount;
    _ ← deposit_event (Swap who path actual_supply_amount target_amount);
    mret actual_supply_amount).

(** ** Liquidity *)
Definition do_add_liquidity (who : AccountId) (currency_id_a currency_id_b : CurrencyId)
    (max_amount_a max_amount_b min_share_increment : Balance) (deposit_increment_share : bool)
    : Run unit :=
  let trading_pair := TradingPair_new currency_id_a currency_id_b in
  lp_share_currency_id ← ok_or (get_dex_share_currency_id trading_pair) (DexE DexError.InvalidCurrencyId);
  status ← gets (trading_pair_statuses trading_pair);
  _ ← ensure (is_enabled status) (DexE DexError.MustBeEnabled);
  pool ← gets (liquidity_pool trading_pair);
  total_shares ← gets (total_issuance lp_share_currency_id);
  let max_amount := sort_amounts currency_id_a trading_pair max_amount_a max_amount_b in
  let '(pool_0_increment, pool_1_increment, share_increment) :=
    liquidity_increments pool max_amount total_shares in
  _ ← ensure (negb (share_increment =? 0) && negb (pool_0_increment =? 0)
              && negb (pool_1_increment =? 0)) (DexE DexError.InvalidLiquidityIncrement);
  _ ← ensure (min_share_increment <=? share_increment) (DexE DexError.UnacceptableShareIncrement);
  _ ← transfer (pair_0 trading_pair) who dex_account_id pool_0_increment;
  _ ← transfer (pair_1 trading_pair) who dex_account_id pool_1_increment;
  _ ← deposit lp_share_currency_id who share_increment;
  _ ← (if deposit_increment_share
       then do_deposit_dex_share who lp_share_currency_id share_increment else mret tt);
  _ ← deposit_event (AddLiquidity who (pair_0 trading_pair) pool_0_increment
                       (pair_1 trading_pair) pool_1_increment share_increment);
  put_pool trading_pair (U128.saturating_add pool.1 pool_0_increment,
                         U128.saturating_add pool.2 pool_1_increment).

Definition do_remove_liquidity (who : AccountId) (currency_id_a currency_id_b : CurrencyId)
    (remove_share min_withdrawn_a min_withdrawn_b : Balance) (by_withdraw : bool) : Run unit :=
  transactional (
    if remove_share =? 0 then mret tt else
    trading_pair ← ok_or (from_token_currency_ids currency_id_a currency_id_b) (DexE DexError.InvalidCurrencyId);
    lp_share_currency_id ← ok_or (get_dex_share_currency_id trading_pair) (DexE DexError.InvalidCurrencyId);
    pool ← gets (liquidity_pool trading_pair);
    let min_withdrawn := sort_amounts currency_id_a trading_pair min_withdrawn_a min_withdrawn_b in
    total_shares ← gets (total_issuance lp_share_currency_id);
    let proportion := default 0 (checked_from_rational remove_share total_shares) in
    let pool_0_decrement := saturating_mul_int proportion pool.1 in
    let pool_1_decrement := saturating_mul_int proportion pool.2 in
    _ ← ensure ((min_withdrawn.1 <=? pool_0_decrement) && (min_withdrawn.2 <=? pool_1_decrement))
          (DexE DexError.UnacceptableLiquidityWithdrawn);
    _ ← (if by_withdraw then do_withdraw_dex_share who lp_share_currency_id remove_share else mret tt);
    _ ← withdraw lp_share_currency_id who remove_share;
    _ ← transfer (pair_0 trading_pair) dex_account_id who pool_0_decrement;
    _ ← transfer (pair_1 trading_pair) dex_account_id who pool_1_decrement;
    _ ← deposit_event (RemoveLiquidity who (pair_0 trading_pair) pool_0_decrement
                         (pair_1 trading_pair) pool_1_decrement remove_share);
    put_pool trading_pair (U128.saturating_sub pool.1 pool_0_decrement,
                           U128.saturating_sub pool.2 pool_1_decrement)).

(** ** Provisioning *)
Definition provision_complete (pp : TradingPairProvisionParameters) (now : BlockNumber) : bool :=
  (not_before pp <=? now)
  && negb ((accumulated_provision pp).1 =? 0) && negb ((accumulated_provision pp).2 =? 0)
  && (((target_provision pp).1 <=? (accumulated_provision pp).1)
      || ((target_provision pp).2 <=? (accumulated_provision pp).2)).

(** The loop that issues shares to the contributors. *)
Fixpoint issue_shares (lp : CurrencyId) (accumulated : Balance * Balance)
    (l : list (AccountId * (Balance * Balance))) (total_shares_issued : Balance) : Run Balance :=
  match l with
  | [] => mret total_shares_issued
  | (who, contribution) :: l =>
      let share_amount := initial_share accumulated contribution in
      res ← attempt (deposit lp who share_amount);
      _ ← dec_consumers who;
      issue_shares lp accumulated l
        match res with
        | inl _ => U128.saturating_add total_shares_issued share_amount
        | inr _ => total_shares_issued
        end
  end.

(** The closure that injects the provision into the pool, as it is written:
    the second component is subtracted. *)
Definition inject_provision (accumulated pool : Balance * Balance) : Balance * Balance :=
  (U128.saturating_add pool.1 accumulated.1, U128.saturating_sub pool.2 accumulated.2).

Definition convert_to_enabled_if_possible (trading_pair : TradingPair) : Run unit :=
  status ← gets (trading_pair_statuses trading_pair);
  match status with
  | Provisioning pp =>
      now ← gets (fun s => block_number (st_env s));
      if provision_complete pp now then
        lp ← expect (get_dex_share_currency_id trading_pair);
        l ← drain_provisions trading_pair;
        total_shares_issued ← issue_shares lp (accumulated_provision pp) l 0;
        pool ← gets (liquidity_pool trading_pair);
        _ ← put_pool trading_pair (inject_provision (accumulated_provision pp) pool);
        _ ← put_status trading_pair Enabled;
        deposit_event (ProvisioningToEnabled trading_pair (accumulated_provision pp).1
                         (accumulated_provision pp).2 total_shares_issued)
      else mret tt
  | _ => mret tt
  end.

Definition add_accumulated (pp : TradingPairProvisionParameters) (c : Balance * Balance)
    : TradingPairProvisionParameters :=
  mkProvision (min_contribution pp) (target_provision pp)
    (U128.saturating_add (accumulated_provision pp).1 c.1,
     U128.saturating_add (accumulated_provision pp).2 c.2) (not_before pp).

Definition do_add_provision (who : AccountId) (currency_id_a currency_id_b : CurrencyId)
    (contribution_a contribution_b : Balance) : Run unit :=
  let trading_pair := TradingPair_new currency_id_a currency_id_b in
  status ← gets (trading_pair_statuses trading_pair);
  match status with
  | Provisioning pp =>
      let c := sort_amounts currency_id_a trading_pair contribution_a contribution_b in
      _ ← ensure (((min_contribution pp).1 <=? c.1) || ((min_contribution pp).2 <=? c.2))
            (DexE DexError.InvalidContributionIncrement);
      ps ← gets (provisions trading_pair);
      let maybe_pool := ps !! who in
      let pool := default (0, 0) maybe_pool in
      let pool := (U128.saturating_add pool.1 c.1, U128.saturating_add pool.2 c.2) in
      _ ← transfer (pair_0 trading_pair) who dex_account_id c.1;
      _ ← transfer (pair_1 trading_pair) who dex_account_id c.2;
      _ ← match maybe_pool with None => inc_consumers who | Some _ => mret tt end;
      _ ← put_status trading_pair (Provisioning (add_accumulated pp c));
      _ ← deposit_event (AddProvision who (pair_0 trading_pair) c.1 (pair_1 trading_pair) c.2);
      put_provisions trading_pair (<[who := pool]> ps)
  | _ => throw (DexE DexError.MustBeProvisioning)
  end.

(** The loop that refunds the contributors of a disabled pair. *)
Fixpoint refund_provisions (p : TradingPair) (l : list (AccountId * (Balance * Balance))) : Run unit :=
  match l with
  | [] => mret tt
  | (who, contribution) :: l =>
      _ ← transfer (pair_0 p) dex_account_id who contribution.1;
      _ ← transfer (pair_1 p) dex_account_id who contribution.2;
      _ ← dec_consumers who;
      refund_provisions p l
  end.

(** ** Extrinsics *)
Definition swap_with_exact_supply (origin : Origin) (path : list CurrencyId)
    (supply_amount min_target_amount : Balance) : Run unit :=
  transactional (
    who ← ensure_signed origin;
    _ ← do_swap_with_exact_supply who path supply_amount min_target_amount None;
    mret tt).

Definition swap_with_exact_target (origin : Origin) (path : list CurrencyId)
    (target_amount max_supply_amount : Balance) : Run unit :=
  transactional (
    who ← ensure_signed origin;
    _ ← do_swap_with_exact_target who path target_amount max_supply_amount None;
    mret tt).

Definition add_liquidity (origin : Origin) (currency_id_a currency_id_b : CurrencyId)
    (max_amount_a max_amount_b min_share_increment : Balance) (deposit_increment_share : bool)
    : Run unit :=
  transactional (
    who ← ensure_signed origin;
    trading_pair ← ok_or (from_token_currency_ids currency_id_a currency_id_b) (DexE DexError.InvalidCurrencyId);
    status ← gets (trading_pair_statuses trading_pair);
    match status with
    | Enabled => do_add_liquidity who currency_id_a currency_id_b max_amount_a max_amount_b
                   min_share_increment deposit_increment_share
    | Provisioning _ =>
        _ ← do_add_provision who currency_id_a currency_id_b max_amount_a max_amount_b;
        convert_to_enabled_if_possible trading_pair
    | NotEnabled => throw (DexE DexError.NotEnabledTradingPair)
    end).

Definition remove_liquidity (origin : Origin) (currency_id_a currency_id_b : CurrencyId)
    (remove_share min_withdrawn_a min_withdrawn_b : Balance) (by_withdraw : bool) : Run unit :=
  transactional (
    who ← ensure_signed origin;
    do_remove_liquidity who currency_id_a currency_id_b remove_share min_withdrawn_a
      min_withdrawn_b by_withdraw).

(** [if let CurrencyId::Erc20(address) = c { set_erc20_mapping(address)? }] *)
Definition map_erc20 (c : CurrencyId) : Run unit :=
  match c with Erc20 address => set_erc20_mapping address | _ => mret tt end.

Definition list_trading_pair (origin : Origin) (currency_id_a currency_id_b : CurrencyId)
    (min_contribution_a min_contribution_b target_provision_a target_provision_b : Balance)
    (not_before : BlockNumber) : Run unit :=
  transactional (
    _ ← ensure_origin ListingOrigin origin;
    _ ← ensure (negb (bool_decide (currency_id_a = currency_id_b))) (DexE DexError.NotAllowedList);
    trading_pair ← ok_or (from_token_currency_ids currency_id_a currency_id_b) (DexE DexError.InvalidCurrencyId);
    dex_share_currency_id ← ok_or (get_dex_share_currency_id trading_pair) (DexE DexError.InvalidCurrencyId);
    status ← gets (trading_pair_statuses trading_pair);
    _ ← ensure (is_not_enabled status) (DexE DexError.MustBeNotEnabled);
    issuance ← gets (total_issuance dex_share_currency_id);
    _ ← ensure (issuance =? 0) (DexE DexError.NotAllowedList);
    _ ← map_erc20 currency_id_a;
    _ ← map_erc20 currency_id_b;
    _ ← put_status trading_pair (Provisioning (mkProvision
          (sort_amounts currency_id_a trading_pair min_contribution_a min_contribution_b)
          (sort_amounts currency_id_a trading_pair target_provision_a target_provision_b)
          (0, 0) not_before));
    deposit_event (ListTradingPair trading_pair)).

Definition enable_trading_pair (origin : Origin) (currency_id_a currency_id_b : CurrencyId)
    : Run unit :=
  transactional (
    _ ← ensure_origin ListingOrigin origin;
    trading_pair ← ok_or (from_token_currency_ids currency_id_a currency_id_b) (DexE DexError.InvalidCurrencyId);
    status ← gets (trading_pair_statuses trading_pair);
    _ ← ensure (is_not_enabled status) (DexE DexError.MustBeNotEnabled);
    _ ← put_status trading_pair Enabled;
    deposit_event (EnableTradingPair trading_pair)).

Definition disable_trading_pair (origin : Origin) (currency_id_a currency_id_b : CurrencyId)
    : Run unit :=
  transactional (
    _ ← ensure_origin ListingOrigin origin;
    trading_pair ← ok_or (from_token_currency_ids currency_id_a currency_id_b) (DexE DexError.InvalidCurrencyId);
    status ← gets (trading_pair_statuses trading_pair);
    match status with
    | Enabled =>
        _ ← put_status trading_pair NotEnabled;
        deposit_event (DisableTradingPair trading_pair)
    | Provisioning _ =>
        l ← drain_provisions trading_pair;
        _ ← refund_provisions trading_pair l;
        _ ← remove_status trading_pair;
        deposit_event (DisableTradingPair trading_pair)
    | NotEnabled => throw (DexE DexError.NotEnabledTradingPair)
    end).

(** ** Genesis *)
Record GenesisConfig := mkGenesis {
  initial_listing_trading_pairs :
    list (TradingPair * (Balance * Balance) * (Balance * Balance) * BlockNumber);
  initial_enabled_trading_pairs : list TradingPair;
  initial_added_liquidity_pools :
    list (AccountId * list (TradingPair * (Balance * Balance))) }.

(** [assert!(b)] *)
Definition assert (b : bool) : Run unit := if b then mret tt else panic.
Definition has_share_id (p : TradingPair) : bool :=
  match get_dex_share_currency_id p with Some _ => true | None => false end.

Definition genesis_build (g : GenesisConfig) : Run unit :=
  _ ← for_each (fun '(trading_pair, min_contribution, target_provision, not_before) =>
        _ ← assert (has_share_id trading_pair);
        put_status trading_pair
          (Provisioning (mkProvision min_contribution target_provision (0, 0) not_before)))
      (initial_listing_trading_pairs g);
  _ ← for_each (fun trading_pair =>
        _ ← assert (has_share_id trading_pair); put_status trading_pair Enabled)
      (initial_enabled_trading_pairs g);
  for_each (fun '(who, trading_pairs_data) =>
      for_each (fun '(trading_pair, (deposit_amount_0, deposit_amount_1)) =>
          _ ← assert (has_share_id trading_pair);
          status ← gets (trading_pair_statuses trading_pair);
          result ← attempt match status with
            | Enabled => do_add_liquidity who (pair_0 trading_pair) (pair_1 trading_pair)
                           deposit_amount_0 deposit_amount_1 0 false
            | _ => throw (DexE DexError.NotEnabledTradingPair)
            end;
          assert match result with inl _ => true | inr _ => false end)
        trading_pairs_data)
    (initial_added_liquidity_pools g).

(** ** [impl DEXManager] *)
Definition dex_get_liquidity_token_address (a b : CurrencyId) (s : State) : option EvmAddress :=
  trading_pair ← from_token_currency_ids a b;
  dex_share_currency_id ← get_dex_share_currency_id trading_pair;
  map_encode_evm_address (st_mapping s) dex_share_currency_id.
Definition dex_get_swap_target_amount (path : list CurrencyId) (supply_amount : Balance)
    (limit : option Ratio) (s : State) : option Balance :=
  amounts ← ok (get_target_amounts path supply_amount limit s); last amounts.
Definition dex_get_swap_supply_amount (path : list CurrencyId) (target_amount : Balance)
    (limit : option Ratio) (s : State) : option Balance :=
  amounts ← ok (get_supply_amounts path target_amount limit s); head amounts.
End Dex.

#[export] Instance dex_manager `{Config} : DEXManager := {
  get_liquidity_pool := get_liquidity;
  get_liquidity_token_address := dex_get_liquidity_token_address;
  get_swap_target_amount := dex_get_swap_target_amount;
  get_swap_supply_amount := dex_get_swap_supply_amount;
  dex_swap_with_exact_supply := do_swap_with_exact_supply;
  dex_swap_with_exact_target := do_swap_with_exact_target;
  dex_add_liquidity who a b ma mb ms d := transactional (do_add_liquidity who a b ma mb ms d);
  dex_remove_liquidity := do_remove_liquidity;
}.
