(* ===== verification/DexQuotes.v ===== *)
(** * The exchange's quotes

    Theorems about the pure arithmetic of [Dex.v]: what a quote promises about
    the constant product, and how the two directions of quoting relate. *)
From S2P Require Import Prelude FixedPoint Primitives Runtime Sample Support Dex.

(** [n * t / (x + n)] is below [t], and is the largest amount that can leave a
    pool [(x, t)] which receives [n] without lowering the product. *)
Lemma quotient_lt x n t : 0 < x -> 0 < n -> 0 < t -> n * t / (x + n) < t.
Proof. intros. apply Z.div_lt_upper_bound; nia. Qed.
Lemma quotient_le x n t : 0 < x -> 0 < n -> 0 < t -> n * t / (x + n) <= t.
Proof. intros. apply Z.lt_le_incl, quotient_lt; done. Qed.
Lemma quotient_product x n t : 0 < x -> 0 < n -> 0 < t ->
  x * t <= (x + n) * (t - n * t / (x + n)).
Proof. intros. pose proof (Z.mul_div_le (n * t) (x + n)). nia. Qed.
Lemma quotient_maximal x n t y : 0 < x -> 0 < n -> 0 < t ->
  x * t <= (x + n) * (t - y) -> y <= n * t / (x + n).
Proof. intros. apply Z.div_le_lower_bound; nia. Qed.

Lemma saturating_mul_nonneg a b : 0 <= a -> 0 <= b -> 0 <= U256.saturating_mul a b.
Proof. intros. unfold U256.saturating_mul, U256_MAX. apply Z.min_glb; [by apply Z.mul_nonneg_nonneg|lia]. Qed.

Section FeeFacts.
Context `{ConfigLaws}.

Definition fee_keep : Z := GetExchangeFee.2 - GetExchangeFee.1.
Definition fee_base : Z := GetExchangeFee.2.

Lemma fee_facts : 0 < fee_keep /\ fee_keep <= fee_base /\ fee_base <= U32_MAX.
Proof.
  unfold fee_keep, fee_base. pose proof exchange_fee_u32. pose proof exchange_fee_valid. uarith.
Qed.

Lemma saturating_fee : U128.saturating_sub fee_base GetExchangeFee.1 = fee_keep.
Proof. pose proof fee_facts. unfold U128.saturating_sub, fee_keep, fee_base in *. lia. Qed.

(** The supplied amount net of the fee, in units of [1 / fee_base]. *)
Definition net_supply (x : Z) : Z := U128.saturating_mul x fee_keep.

Lemma net_supply_u128 x : is_u128 x -> is_u128 (net_supply x).
Proof. intros Hx. pose proof fee_facts. unfold net_supply, U128.saturating_mul, is_u128 in *. nia. Qed.
Lemma net_supply_le x : 0 <= x -> net_supply x <= x * fee_base.
Proof. intros Hx. pose proof fee_facts. unfold net_supply, U128.saturating_mul. nia. Qed.
Lemma net_supply_pos x : 0 < x -> 0 < net_supply x.
Proof. intros Hx. pose proof fee_facts. unfold net_supply, U128.saturating_mul, U128_MAX. nia. Qed.

Lemma u128_product x y : is_u128 x -> is_u128 y -> x * y <= U256_MAX.
Proof.
  unfold is_u128. intros. transitivity (U128_MAX * U128_MAX); [nia|]. by vm_compute.
Qed.
Lemma u160_product x d : is_u128 x -> 0 <= d <= U32_MAX -> x * d + U128_MAX <= U256_MAX.
Proof.
  unfold is_u128. intros. transitivity (U128_MAX * U32_MAX + U128_MAX); [nia|]. by vm_compute.
Qed.

(** No operation of the quote saturates or fails: it is the floor of the
    exact quotient. *)
Lemma get_target_amount_eq sp tp sa :
  is_u128 sp -> is_u128 tp -> is_u128 sa -> 0 < sp -> 0 < tp -> 0 < sa ->
  get_target_amount sp tp sa = net_supply sa * tp / (sp * fee_base + net_supply sa).
Proof.
  intros Hsp Htp Hsa Hsp0 Htp0 Hsa0.
  pose proof fee_facts as (Hk & Hkb & Hb). pose proof (net_supply_u128 sa Hsa) as Hn.
  pose proof (net_supply_pos sa Hsa0) as Hn0.
  unfold get_target_amount.
  rewrite !(proj2 (Z.eqb_neq _ _)) by lia. cbn [orb].
  rewrite (surjective_pairing GetExchangeFee) at 1.
  fold fee_base. rewrite saturating_fee. fold (net_supply sa).
  pose proof (u128_product _ _ Hn Htp). pose proof (u160_product sp fee_base Hsp ltac:(lia)).
  replace (U256.saturating_mul (net_supply sa) tp) with (net_supply sa * tp)
    by (unfold U256.saturating_mul; lia).
  replace (U256.saturating_mul sp fee_base) with (sp * fee_base)
    by (unfold U256.saturating_mul, is_u128, U128_MAX in *; lia).
  replace (U256.saturating_add (sp * fee_base) (net_supply sa)) with (sp * fee_base + net_supply sa)
    by (unfold U256.saturating_add, is_u128 in *; lia).
  assert (HX : 0 < sp * fee_base) by (apply Z.mul_pos_pos; lia).
  unfold U256.checked_div. rewrite (proj2 (Z.eqb_neq _ _)) by lia. cbn.
  unfold U128.try_from.
  pose proof (quotient_le (sp * fee_base) (net_supply sa) tp HX Hn0 Htp0).
  rewrite (proj2 (Z.leb_le _ _)); [done|]. unfold is_u128 in *. lia.
Qed.

(** A non-zero supply quote exists only for a target the pool can pay. *)
Lemma get_supply_amount_pos sp tp ta :
  is_u128 tp -> is_u128 ta -> get_supply_amount sp tp ta <> 0 -> 0 < ta < tp.
Proof.
  intros Htp Hta. unfold get_supply_amount.
  destruct (_ || _) eqn:Hz; [done|]. rewrite !orb_false_iff, !Z.eqb_neq in Hz.
  rewrite (surjective_pairing GetExchangeFee) at 1. fold fee_base. rewrite saturating_fee.
  destruct (Z.leb_spec tp ta) as [Hle|Hlt]; [|unfold is_u128 in *; lia].
  replace (U256.saturating_mul (U256.saturating_sub tp ta) fee_keep) with 0; [done|].
  unfold U256.saturating_sub, U256.saturating_mul. rewrite Z.max_r by lia. done.
Qed.
Lemma get_supply_amount_u128 sp tp ta :
  is_u128 sp -> is_u128 ta -> is_u128 (get_supply_amount sp tp ta).
Proof.
  intros Hsp Hta. unfold get_supply_amount.
  destruct (_ || _); [uarith|]. rewrite (surjective_pairing GetExchangeFee) at 1.
  fold fee_base. rewrite saturating_fee. pose proof fee_facts.
  unfold U256.checked_div. case_match; cbn; [uarith|].
  unfold U256.checked_add. case_match; cbn; [|uarith].
  unfold U128.try_from. case_match; cbn; [|uarith].
  apply Z.leb_le in H4. split; [|done].
  enough (0 <= U256.saturating_mul (U256.saturating_mul sp ta) fee_base /
    U256.saturating_mul (U256.saturating_sub tp ta) fee_keep) by lia.
  apply Z_div_nonneg_nonneg; repeat apply saturating_mul_nonneg;
    unfold is_u128, U256.saturating_sub in *; lia.
Qed.
Lemma get_supply_amount_eq sp tp ta :
  is_u128 sp -> is_u128 tp -> is_u128 ta -> 0 < sp -> 0 < ta < tp ->
  sp * ta * fee_base <= U256_MAX ->
  get_supply_amount sp tp ta <> 0 ->
  get_supply_amount sp tp ta = sp * ta * fee_base / ((tp - ta) * fee_keep) + 1.
Proof.
  intros Hsp Htp Hta Hsp0 Hta0 Hfit. pose proof fee_facts as (Hk & Hkb & Hb).
  unfold get_supply_amount.
  rewrite !(proj2 (Z.eqb_neq _ _)) by lia. cbn [orb].
  rewrite (surjective_pairing GetExchangeFee) at 1 2. fold fee_base. rewrite !saturating_fee.
  pose proof (u128_product sp ta Hsp Hta).
  replace (U256.saturating_mul sp ta) with (sp * ta) by (unfold U256.saturating_mul; lia).
  replace (U256.saturating_mul (sp * ta) fee_base) with (sp * ta * fee_base)
    by (unfold U256.saturating_mul; lia).
  replace (U256.saturating_sub tp ta) with (tp - ta) by (unfold U256.saturating_sub; lia).
  assert (Hd : is_u128 (tp - ta)) by (unfold is_u128 in *; lia).
  pose proof (u160_product (tp - ta) fee_keep Hd ltac:(lia)).
  replace (U256.saturating_mul (tp - ta) fee_keep) with ((tp - ta) * fee_keep)
    by (unfold U256.saturating_mul, is_u128, U128_MAX in *; lia).
  unfold U256.checked_div. rewrite (proj2 (Z.eqb_neq _ _)) by (apply Z.neq_mul_0; lia). cbn.
  unfold U256.checked_add. case_match; cbn; [|done].
  unfold U128.try_from. case_match; cbn; done.
Qed.
End FeeFacts.

Section Quotes.
Context `{ConfigLaws}.

Lemma get_target_amount_bounds supply_pool target_pool supply_amount :
  is_u128 supply_pool -> is_u128 target_pool -> is_u128 supply_amount ->
  0 < supply_pool -> 0 < target_pool -> 0 < supply_amount ->
  0 <= get_target_amount supply_pool target_pool supply_amount < target_pool.
Proof.
  intros Hsp Htp Hsa Hsp0 Htp0 Hsa0.
  rewrite get_target_amount_eq by done. pose proof fee_facts as (Hk & Hkb & Hb).
  pose proof (net_supply_pos supply_amount Hsa0) as Hn.
  assert (HX : 0 < supply_pool * fee_base) by (apply Z.mul_pos_pos; lia).
  split; [|by apply quotient_lt].
  apply Z.div_pos; [apply Z.mul_nonneg_nonneg|]; lia.
Qed.

(** C24: the quote for an exact supply never empties the target pool, keeps
    the constant product [supply_pool * target_pool] from falling even when
    the whole supplied amount (fee included) is added to the pool, and is the
    largest amount that the product formula allows for the supply net of the
    exchange fee. *)
Theorem get_target_amount_optimal supply_pool target_pool supply_amount :
  is_u128 supply_pool -> is_u128 target_pool -> is_u128 supply_amount ->
  0 < supply_pool -> 0 < target_pool -> 0 < supply_amount ->
  let out := get_target_amount supply_pool target_pool supply_amount in
  0 <= out < target_pool /\
  supply_pool * target_pool <= (supply_pool + supply_amount) * (target_pool - out) /\
  forall y, supply_pool * fee_base * target_pool <=
      (supply_pool * fee_base + net_supply supply_amount) * (target_pool - y) <-> y <= out.
Proof.
  intros Hsp Htp Hsa Hsp0 Htp0 Hsa0 out. subst out.
  pose proof (get_target_amount_bounds _ _ _ Hsp Htp Hsa Hsp0 Htp0 Hsa0) as Hbounds. revert Hbounds.
  rewrite get_target_amount_eq by done. pose proof fee_facts as (Hk & Hkb & Hb).
  pose proof (net_supply_pos supply_amount Hsa0) as Hn.
  pose proof (net_supply_le supply_amount ltac:(lia)) as Hle.
  assert (HX : 0 < supply_pool * fee_base) by (apply Z.mul_pos_pos; lia).
  pose proof (quotient_product _ _ _ HX Hn Htp0) as Hprod.
  pose proof (fun y => quotient_maximal _ _ _ y HX Hn Htp0) as Hmax.
  revert Hprod Hmax. generalize dependent (net_supply supply_amount). intros n Hn Hle.
  generalize (n * target_pool / (supply_pool * fee_base + n)). intros q Hprod Hmax Hlt.
  split; [done|split].
  - apply (Z.mul_le_mono_pos_l _ _ fee_base); [lia|]. nia.
  - intros y. split; [apply Hmax|]. nia.
Qed.

Lemma net_supply_exact x : 0 <= x -> x * fee_keep <= U128_MAX -> net_supply x = x * fee_keep.
Proof. intros. unfold net_supply, U128.saturating_mul. lia. Qed.
Lemma net_supply_keep x : net_supply x <= x * fee_keep.
Proof. unfold net_supply, U128.saturating_mul. lia. Qed.

(** The quote for an exact target is sufficient and tight.  When the
    intermediate products fit their types, supplying the quoted amount buys
    at least the target, and any supply that buys the target is at most one
    unit below the quote. *)
Theorem get_supply_amount_sufficient supply_pool target_pool target_amount :
  is_u128 supply_pool -> is_u128 target_pool -> is_u128 target_amount -> 0 < supply_pool ->
  let x := get_supply_amount supply_pool target_pool target_amount in
  x <> 0 ->
  supply_pool * target_amount * fee_base <= U256_MAX -> x * fee_keep <= U128_MAX ->
  0 < target_amount < target_pool /\
  target_amount <= get_target_amount supply_pool target_pool x /\
  forall y, is_u128 y -> 0 < y ->
    target_amount <= get_target_amount supply_pool target_pool y -> x - 1 <= y.
Proof.
  intros Hsp Htp Hta Hsp0 x Hx Hfit Hkeep. subst x.
  pose proof (get_supply_amount_pos _ _ _ Htp Hta Hx) as Hta0.
  pose proof (get_supply_amount_u128 supply_pool target_pool target_amount Hsp Hta) as Hu.
  pose proof fee_facts as (Hk & Hkb & Hb).
  pose proof (get_supply_amount_eq _ _ _ Hsp Htp Hta Hsp0 Hta0 Hfit Hx) as Heq.
  split; [done|].
  assert (HX : 0 < supply_pool * fee_base) by (apply Z.mul_pos_pos; lia).
  assert (HD : 0 < (target_pool - target_amount) * fee_keep) by (apply Z.mul_pos_pos; lia).
  revert Hx Hkeep Hu Heq. generalize (get_supply_amount supply_pool target_pool target_amount).
  intros x Hx Hkeep Hu Heq. assert (Hx0 : 0 < x) by (unfold is_u128 in *; lia).
  pose proof (Z.mul_div_le (supply_pool * target_amount * fee_base) _ HD) as Hfloor.
  pose proof (Z.mul_succ_div_gt (supply_pool * target_amount * fee_base) _ HD) as Hceil.
  revert Hfloor Hceil Heq.
  generalize (supply_pool * target_amount * fee_base / ((target_pool - target_amount) * fee_keep)).
  intros q Hfloor Hceil ->. split.
  - rewrite get_target_amount_eq by (done || lia).
    rewrite net_supply_exact by (unfold is_u128 in *; lia).
    apply Z.div_le_lower_bound; nia.
  - intros y Hy Hy0. rewrite get_target_amount_eq by (done || lia).
    pose proof (net_supply_keep y) as Hny. pose proof (net_supply_pos y Hy0) as Hny0.
    intros Hle.
    assert (HP : 0 < supply_pool * fee_base + net_supply y) by lia.
    apply (Z.mul_le_mono_pos_r _ _ _ HP) in Hle.
    pose proof (Z.mul_div_le (net_supply y * target_pool) (supply_pool * fee_base + net_supply y) HP) as Hm.
    assert (HN : supply_pool * target_amount * fee_base <= y * ((target_pool - target_amount) * fee_keep)) by nia.
    nia.
Qed.
End Quotes.

#[local] Existing Instance sample.
#[local] Existing Instance sample_laws.

Lemma get_target_amount_optimal_witness :
  get_target_amount 1000000 500000 10000 = 4901 /\
  0 <= get_target_amount 1000000 500000 10000 < 500000.
Proof.
  split; [wcheck|].
  refine (proj1 (get_target_amount_optimal 1000000 500000 10000 _ _ _ _ _ _)); wcheck.
Defined.

Lemma get_supply_amount_sufficient_witness :
  get_supply_amount 1000000 500000 4901 = 10000 /\
  4901 <= get_target_amount 1000000 500000 10000.
Proof.
  split; [wcheck|].
  refine (proj1 (proj2 (get_supply_amount_sufficient 1000000 500000 4901 _ _ _ _ _ _ _))); wcheck.
Defined.
