(* ===== verification/DexSwap.v ===== *)
(** * Swaps along a path

    What a successful quote guarantees hop by hop ([plan]), the effect of the
    swap extrinsics on balances, and the constant product of every pool across
    a swap. *)
From S2P Require Import Prelude FixedPoint Primitives Runtime Sample Support Dex DexQuotes.

Section Plan.
Context `{ConfigLaws}.

(** What one hop of a quote was checked against, in state [s]. *)
Definition hop_plan (a b : CurrencyId) (x y : Balance) (s : State) : Prop :=
  let pools := get_liquidity a b s in
  trading_pair_statuses (TradingPair_new a b) s = Enabled /\
  0 < x /\ 0 < y < pools.2 /\ 0 < pools.1 /\
  invariant_holds pools.1 pools.2 x y = true.

Fixpoint plan (path : list CurrencyId) (amounts : list Balance) (s : State) : Prop :=
  match path, amounts with
  | [_], [x] => is_u128 x
  | a :: ((b :: _) as path'), x :: ((y :: _) as amounts') =>
      is_u128 x /\ hop_plan a b x y s /\ plan path' amounts' s
  | _, _ => False
  end.

Lemma liquidity_pool_u128 p s : dex_typed (st_dex s) -> pair_u128 (liquidity_pool p s).
Proof.
  intros Ht. unfold liquidity_pool. destruct (_ !! p) eqn:E; cbn; [by eapply Ht|].
  split; cbn; uarith.
Qed.
Lemma get_liquidity_u128 a b s : dex_typed (st_dex s) -> pair_u128 (get_liquidity a b s).
Proof.
  intros Ht. unfold get_liquidity. pose proof (liquidity_pool_u128 (TradingPair_new a b) s Ht) as [? ?].
  destruct (liquidity_pool _ s) as [u v]. by case_decide; split.
Qed.
Lemma get_target_amount_u128 sp tp x :
  is_u128 sp -> is_u128 tp -> is_u128 x -> is_u128 (get_target_amount sp tp x).
Proof.
  intros Hsp Htp Hx. unfold is_u128 in Hsp, Htp, Hx |- *.
  destruct (decide (0 < sp /\ 0 < tp /\ 0 < x)) as [(?&?&?)|Hz].
  - pose proof (get_target_amount_bounds sp tp x ltac:(done) ltac:(done) ltac:(done) ltac:(lia) ltac:(lia) ltac:(lia)). lia.
  - replace (get_target_amount sp tp x) with 0; [uarith|]. unfold get_target_amount.
    destruct (_ || _) eqn:E; [done|]. rewrite !orb_false_iff, !Z.eqb_neq in E. lia.
Qed.

Lemma target_hop_plan a b x limit s y :
  dex_typed (st_dex s) -> is_u128 x -> target_hop a b x limit s = Ok y ->
  hop_plan a b x y s /\ is_u128 y.
Proof.
  intros Ht Hx Hy. unfold target_hop in Hy. rinv Hy.
  pose proof (get_liquidity_u128 a b s Ht) as [Hsp Htp].
  unfold hop_plan. destruct (get_liquidity a b s) as [sp tp] eqn:El. cbn [fst snd] in *.
  rinv Hy.
  apply andb_true_iff in Ho0 as [Hs0 Ht0]. apply negb_true_iff, Z.eqb_neq in Hs0, Ht0, Ho1.
  pose proof (get_target_amount_u128 sp tp x Hsp Htp Hx) as Hu.
  unfold is_u128 in Hsp, Htp, Hx, Hu.
  assert (Hx0 : 0 < x).
  { destruct (Z.eq_dec x 0) as [->|]; [|lia]. by unfold get_target_amount in Ho1. }
  pose proof (get_target_amount_bounds sp tp x ltac:(done) ltac:(done) ltac:(done) ltac:(lia) ltac:(lia) ltac:(lia)).
  destruct (trading_pair_statuses _ s); try discriminate Ho.
  repeat split; (done || lia).
Qed.
Lemma supply_hop_plan a b y limit s x :
  dex_typed (st_dex s) -> is_u128 y -> supply_hop a b y limit s = Ok x ->
  hop_plan a b x y s /\ is_u128 x.
Proof.
  intros Ht Hy Hx. unfold supply_hop in Hx. rinv Hx.
  pose proof (get_liquidity_u128 a b s Ht) as [Hsp Htp].
  unfold hop_plan. destruct (get_liquidity a b s) as [sp tp] eqn:El. cbn [fst snd] in *.
  rinv Hx.
  apply andb_true_iff in Ho0 as [Hs0 Ht0]. apply negb_true_iff, Z.eqb_neq in Hs0, Ht0, Ho1.
  pose proof (get_supply_amount_u128 sp tp y Hsp Hy) as Hu.
  pose proof (get_supply_amount_pos sp tp y Htp Hy Ho1).
  unfold is_u128 in Hsp, Htp, Hy, Hu.
  destruct (trading_pair_statuses _ s); try discriminate Ho.
  repeat split; (done || lia).
Qed.

Lemma target_amounts_plan path x limit s ts :
  dex_typed (st_dex s) -> is_u128 x -> path <> [] ->
  target_amounts path x limit s = Ok ts -> plan path ts s /\ head ts = Some x.
Proof.
  intros Ht. revert x ts. induction path as [|a [|b path] IH]; intros x ts Hx Hne Hts; [done|..].
  - cbn in Hts. injection Hts as <-. done.
  - cbn [target_amounts] in Hts. rinv Hts.
    apply target_hop_plan in Ho as [Hp Hu]; [|done..].
    apply IH in Ho0 as [Hplan Hhd]; [|done..].
    destruct a1 as [|y ts']; [done|]. cbn in Hhd. injection Hhd as ->.
    cbn [plan head]. done.
Qed.
Lemma supply_amounts_plan path y limit s ts :
  dex_typed (st_dex s) -> is_u128 y -> path <> [] ->
  supply_amounts path y limit s = Ok ts -> plan path ts s /\ last ts = Some y.
Proof.
  intros Ht Hy. revert ts. induction path as [|a [|b path] IH]; intros ts Hne Hts; [done|..].
  - cbn in Hts. injection Hts as <-. done.
  - cbn [supply_amounts] in Hts. apply obind_Ok in Hts as (ts' & Hts' & Hts).
    apply IH in Hts' as [Hplan Hlast]; [|done]. destruct ts' as [|t ts']; [done|].
    rinv Hts.
    assert (Hut : is_u128 t) by (destruct path, ts'; cbn in Hplan; tauto).
    apply supply_hop_plan in Ho as [Hp Hu]; [|done..]. done.
Qed.
Lemma plan_length path ts s : plan path ts s -> length ts = length path.
Proof.
  revert ts. induction path as [|a [|b path] IH]; intros [|x [|y ts]]; cbn; try done.
  intros (_ & _ & Hp). f_equal. by apply (IH (y :: ts)).
Qed.
Lemma plan_u128 path ts s x : plan path ts s -> x ∈ ts -> is_u128 x.
Proof.
  revert ts. induction path as [|a [|b path] IH]; intros [|u [|v ts]]; cbn; try done.
  - intros Hu ->%list_elem_of_singleton. done.
  - intros (Hu & _ & Hp) Hin. apply elem_of_cons in Hin as [->|Hin]; [done|]. by apply (IH (v :: ts)).
Qed.
Lemma plan_last_u128 path ts s x : plan path ts s -> last ts = Some x -> is_u128 x.
Proof. intros Hp Hl. eapply plan_u128; [done|]. by apply last_Some_elem_of. Qed.
Lemma plan_head_u128 path ts s x : plan path ts s -> head ts = Some x -> is_u128 x.
Proof. intros Hp Hl. eapply plan_u128; [done|]. by apply head_Some_elem_of. Qed.
End Plan.

Section NoPanic.
Context `{ConfigLaws}.

Lemma supply_amounts_eq a b path x limit s :
  supply_amounts (a :: b :: path) x limit s =
    (ts ← supply_amounts (b :: path) x limit s;
     match ts with
     | t :: _ => x ← supply_hop a b t limit s; mret (x :: ts)
     | [] => Panic
     end).
Proof. done. Qed.

(** Quotes fail, they do not panic. *)
Lemma target_hop_no_panic a b x limit s : target_hop a b x limit s <> Panic.
Proof.
  unfold target_hop. no_panic. destruct (get_liquidity a b s). no_panic.
Qed.
Lemma supply_hop_no_panic a b x limit s : supply_hop a b x limit s <> Panic.
Proof.
  unfold supply_hop. no_panic. destruct (get_liquidity a b s). no_panic.
Qed.
#[local] Hint Resolve target_hop_no_panic supply_hop_no_panic : no_panic.
Lemma target_amounts_no_panic path x limit s : target_amounts path x limit s <> Panic.
Proof.
  revert x. induction path as [|a [|b path] IH]; intros x; [done..|].
  cbn [target_amounts]. no_panic.
Qed.
Lemma supply_amounts_cons path x limit s ts :
  path <> [] -> supply_amounts path x limit s = Ok ts -> ts <> [].
Proof.
  destruct path as [|a [|b path]]; intros _ Hts; [|by injection Hts as <-|].
  - by injection Hts as <-.
  - rewrite supply_amounts_eq in Hts. apply obind_Ok in Hts as ([|t us] & _ & Hts); [done|]. by rinv Hts.
Qed.
Lemma supply_amounts_no_panic path x limit s : supply_amounts path x limit s <> Panic.
Proof.
  induction path as [|a [|b path] IH]; [done..|].
  rewrite supply_amounts_eq. apply obind_no_panic; [done|]. intros [|t ts] Hts.
  - by apply supply_amounts_cons in Hts.
  - no_panic.
Qed.
Lemma get_target_amounts_no_panic path x limit s : get_target_amounts path x limit s <> Panic.
Proof.
  unfold get_target_amounts, oensure. case_match; [|done]. apply target_amounts_no_panic.
Qed.
Lemma get_supply_amounts_no_panic path x limit s : get_supply_amounts path x limit s <> Panic.
Proof.
  unfold get_supply_amounts, oensure. case_match; [|done]. apply supply_amounts_no_panic.
Qed.
Lemma plan_ends path ts s : plan path ts s ->
  exists p0 pn t0 tn, head path = Some p0 /\ last path = Some pn /\
    head ts = Some t0 /\ last ts = Some tn.
Proof.
  intros Hp. pose proof (plan_length _ _ _ Hp) as Hlen.
  destruct path as [|p0 path]; [done|]. destruct ts as [|t0 ts]; [done|].
  destruct (last (p0 :: path)) as [pn|] eqn:E1; [|by apply last_None in E1].
  destruct (last (t0 :: ts)) as [tn|] eqn:E2; [|by apply last_None in E2].
  by exists p0, pn, t0, tn.
Qed.
End NoPanic.

(** ** The pool updates of a path, as a function on the exchange's storage *)
Section Apply.
Context `{ConfigLaws}.

Definition pool_of (p : TradingPair) (d : DexStorage) : Balance * Balance :=
  default (0, 0) (LiquidityPool d !! p).
Definition set_pool (p : TradingPair) (x : Balance * Balance) (d : DexStorage) : DexStorage :=
  mkDex (<[p := x]> (LiquidityPool d)) (TradingPairStatuses d) (ProvisioningPool d).
Definition swap_dex (a b : CurrencyId) (x y : Balance) (d : DexStorage) : DexStorage :=
  match from_token_currency_ids a b with
  | Some p => set_pool p (swap_pool a p x y (pool_of p d)) d
  | None => d
  end.
Fixpoint apply_swaps (path : list CurrencyId) (amounts : list Balance) (d : DexStorage)
    : DexStorage :=
  match path, amounts with
  | a :: ((b :: _) as path'), x :: ((y :: _) as amounts') =>
      apply_swaps path' amounts' (swap_dex a b x y d)
  | _, _ => d
  end.

Lemma set_dex_id s : set_dex (st_dex s) s = s.
Proof. by destruct s. Qed.
Lemma swap_run a b x y s :
  _swap a b x y s = (Ok tt, set_dex (swap_dex a b x y (st_dex s)) s).
Proof.
  unfold _swap, swap_dex. destruct (from_token_currency_ids a b); [done|].
  by rewrite set_dex_id.
Qed.
Lemma swap_by_path_run path ts s : length ts = length path ->
  _swap_by_path path ts s = (Ok tt, set_dex (apply_swaps path ts (st_dex s)) s).
Proof.
  revert ts s. induction path as [|a [|b path] IH]; intros [|x [|y ts]] s Hlen; try discriminate Hlen.
  - cbn. by rewrite set_dex_id.
  - cbn. by rewrite set_dex_id.
  - change (_swap_by_path (a :: b :: path) (x :: y :: ts))
      with (_ ← _swap a b x y; _swap_by_path (b :: path) (y :: ts)).
    unfold mbind, M_bind. rewrite swap_run, IH by (cbn in *; lia). done.
Qed.

Lemma pool_of_set p q x d : pool_of q (set_pool p x d) = if decide (q = p) then x else pool_of q d.
Proof.
  unfold pool_of, set_pool. cbn. destruct (decide (q = p)) as [->|].
  - by rewrite lookup_insert_eq.
  - by rewrite lookup_insert_ne.
Qed.
Lemma dex_typed_pool d p : dex_typed d -> pair_u128 (pool_of p d).
Proof.
  intros Ht. unfold pool_of. destruct (_ !! p) eqn:E; cbn; [by eapply Ht|]. split; cbn; uarith.
Qed.
Lemma dex_typed_set d p x : dex_typed d -> pair_u128 x -> dex_typed (set_pool p x d).
Proof.
  intros Ht Hx q y. cbn. rewrite lookup_insert. case_decide; [by intros [= <-]|apply Ht].
Qed.
Lemma swap_pool_u128 a p x y pool :
  is_u128 x -> is_u128 y -> pair_u128 pool -> pair_u128 (swap_pool a p x y pool).
Proof.
  intros Hx Hy [H1 H2]. unfold swap_pool. case_decide; split; cbn; uarith.
Qed.
Lemma swap_dex_typed a b x y d :
  is_u128 x -> is_u128 y -> dex_typed d -> dex_typed (swap_dex a b x y d).
Proof.
  intros Hx Hy Ht. unfold swap_dex. destruct (from_token_currency_ids a b); [|done].
  apply dex_typed_set; [done|]. by apply swap_pool_u128, dex_typed_pool.
Qed.
Lemma apply_swaps_typed path ts d :
  Forall is_u128 ts -> dex_typed d -> dex_typed (apply_swaps path ts d).
Proof.
  revert ts d. induction path as [|a [|b path] IH]; intros [|x [|y ts]] d Hts Ht; try done.
  change (apply_swaps (a :: b :: path) (x :: y :: ts) d)
    with (apply_swaps (b :: path) (y :: ts) (swap_dex a b x y d)).
  pose proof Hts as Hts'. apply Forall_cons in Hts' as [Hx Hts'].
  apply IH; [done|]. apply Forall_cons in Hts' as [Hy _]. by apply swap_dex_typed.
Qed.
(** The same, seen from each pair *)
Lemma swap_dex_reserves a b x y d p :
  LiquidityPool (swap_dex a b x y d) !! p = hop_reserves p (LiquidityPool d !! p) (a, b, x, y).
Proof.
  unfold swap_dex, hop_reserves. destruct (from_token_currency_ids a b) as [q|]; [|by rewrite decide_False].
  unfold set_pool. cbn [LiquidityPool]. destruct (decide (Some q = Some p)) as [[= ->]|Hne].
  - rewrite lookup_insert_eq. unfold pool_of, swap_pool, U128.saturating_add, U128.saturating_sub. by case_decide.
  - by rewrite lookup_insert_ne by congruence.
Qed.
Lemma swap_dex_rest a b x y d :
  TradingPairStatuses (swap_dex a b x y d) = TradingPairStatuses d /\ ProvisioningPool (swap_dex a b x y d) = ProvisioningPool d.
Proof. unfold swap_dex. by destruct (from_token_currency_ids a b). Qed.
Lemma apply_swaps_reserves path ts d : swapped_reserves path ts d (apply_swaps path ts d).
Proof.
  unfold swapped_reserves. revert ts d. induction path as [|a [|b path] IH]; intros [|x [|y ts]] d; try done.
  change (apply_swaps (a :: b :: path) (x :: y :: ts) d)
    with (apply_swaps (b :: path) (y :: ts) (swap_dex a b x y d)).
  destruct (IH (y :: ts) (swap_dex a b x y d)) as (Hp & Hs & Hv). destruct (swap_dex_rest a b x y d) as [Hs1 Hv1].
  rewrite Hs, Hv, Hs1, Hv1. split; [|done]. intros p. by rewrite Hp, swap_dex_reserves.
Qed.
Lemma plan_Forall path ts s : plan path ts s -> Forall is_u128 ts.
Proof. intros Hp. apply Forall_forall. intros x Hx. by eapply plan_u128. Qed.
End Apply.

(** ** The result of a swap *)
Section Effect.
Context `{ConfigLaws}.

(** A swap that paid [x] and returned [y] along [path], quoted as [ts]. *)
Definition swap_result (who : AccountId) (path : list CurrencyId) (ts : list Balance)
    (x y : Balance) (s s' : State) : Prop :=
  path_length_ok path = true /\ plan path ts s /\ head ts = Some x /\ last ts = Some y /\
  exists a z l,
    head path = Some a /\ last path = Some z /\
    s' = set_events (st_events s ++ [Swap who path x y])
           (set_ledger l (set_dex (apply_swaps path ts (st_dex s)) s)) /\
    (forall c acc, cur_free_balance l c acc = free_balance c acc s
       + delta a dex_account_id x c acc - delta a who x c acc
       + delta z who y c acc - delta z dex_account_id y c acc) /\
    (forall c, cur_total_issuance l c = total_issuance c s) /\
    (forall acc, cur_reserved_named l acc = cur_reserved_named (st_ledger s) acc).

Lemma swap_result_moves who path ts x y s s' :
  dex_typed (st_dex s) -> swap_result who path ts x y s s' -> swap_moves who path ts x y s s'.
Proof.
  intros Ht (_ & Hp & Hx & Hy & a & z & l & Ha & Hz & -> & Hf & Hi).
  assert (dex_typed (apply_swaps path ts (st_dex s)))
    by (apply apply_swaps_typed; [by eapply plan_Forall|done]).
  exists a, z, (apply_swaps path ts (st_dex s)), l. destruct Hi as [Hi Hr]. split_and!; try done; [by eapply plan_length|apply apply_swaps_reserves..].
Qed.
Lemma swap_result_effect who path ts x y s s' :
  dex_typed (st_dex s) -> swap_result who path ts x y s s' -> swap_effect who path x y s s'.
Proof. intros. exists ts. by apply swap_result_moves. Qed.

(** A transfer leaves what is reserved. *)
Lemma wp_transfer_kept c a b n Q R s : is_u128 n ->
  (forall l, (forall c' x, cur_free_balance l c' x
     = free_balance c' x s + delta c b n c' x - delta c a n c' x) ->
   (forall c', cur_total_issuance l c' = total_issuance c' s) ->
   (forall x, cur_reserved_named l x = cur_reserved_named (st_ledger s) x) ->
   Q tt (set_ledger l s)) ->
  (forall e, R e s) -> wp (transfer c a b n) Q R s.
Proof.
  intros Hn HQ HR. apply wp_lift_ledger. split; [|auto].
  intros l Hl. apply transfer_law in Hl as (? & ? & ?); auto.
Qed.

(** The part the two directions share: pay, update the pools, receive. *)
Lemma exchange_wp {A} who path ts a z x y s (r : A) (Q : A -> State -> Prop)
    (R : DispatchError -> State -> Prop) :
  plan path ts s -> is_u128 x -> is_u128 y -> (forall e t, R e t) ->
  (forall l,
    (forall c acc, cur_free_balance l c acc = free_balance c acc s
       + delta a dex_account_id x c acc - delta a who x c acc
       + delta z who y c acc - delta z dex_account_id y c acc) ->
    (forall c, cur_total_issuance l c = total_issuance c s) ->
    (forall acc, cur_reserved_named l acc = cur_reserved_named (st_ledger s) acc) ->
    Q r (set_events (st_events s ++ [Swap who path x y])
         (set_ledger l (set_dex (apply_swaps path ts (st_dex s)) s)))) ->
  wp (_ ← transfer a who dex_account_id x;
      _ ← _swap_by_path path ts;
      _ ← transfer z dex_account_id who y;
      _ ← deposit_event (Swap who path x y);
      mret r) Q R s.
Proof.
  intros Hp Hx Hy HR HQ. wp_step. apply wp_transfer_kept; [done| |done]. intros l1 Hl1 Hi1 Hr1.
  wp_step. unfold wp at 1. rewrite swap_by_path_run by (by eapply plan_length).
  wp_step. apply wp_transfer_kept; [done| |done]. intros l2 Hl2 Hi2 Hr2. cbn.
  apply (HQ l2).
  - intros c acc. rewrite Hl2. unfold free_balance at 1. cbn. rewrite Hl1. lia.
  - intros c. rewrite Hi2. unfold total_issuance at 1. cbn. apply Hi1.
  - intros acc. rewrite Hr2. cbn. apply Hr1.
Qed.

Lemma do_swap_with_exact_supply_wp who path x min limit s :
  dex_typed (st_dex s) -> is_u128 x ->
  wp (do_swap_with_exact_supply who path x min limit)
    (fun r s' => is_u128 r /\ min <= r /\ exists ts, swap_result who path ts x r s s' /\
       get_target_amounts path x limit s = Ok ts)
    (fun _ s' => s' = s) s.
Proof.
  intros Ht Hx. unfold do_swap_with_exact_supply. wp_step. wp_step. wp_step.
  destruct (get_target_amounts path x limit s) as [ts| |] eqn:Hq; [|done|].
  2: { by apply get_target_amounts_no_panic in Hq. }
  unfold get_target_amounts in Hq. rinv Hq.
  assert (Hne : path <> []) by (by intros ->).
  apply target_amounts_plan in Hq as [Hp Hhd]; [|done..].
  destruct (plan_ends path ts s Hp) as (p0 & pn & t0 & tn & Hp0 & Hpn & Ht0 & Htn).
  wp_step. apply wp_expect. exists tn. split; [done|]. wp_step. wp_step; [|done].
  apply Z.leb_le in Hens.
  wp_step. apply wp_expect. exists p0. split; [done|].
  wp_step. apply wp_expect. exists pn. split; [done|].
  assert (Hu : is_u128 tn) by (by eapply plan_last_u128).
  apply (exchange_wp who path ts p0 pn x tn); try done.
  intros l Hl Hi Hr. split; [done|]. split; [done|]. exists ts. split; [|done].
  split; [done|]. split; [done|]. split; [done|]. split; [done|].
  by exists p0, pn, l.
Qed.
Lemma do_swap_with_exact_target_wp who path y max limit s :
  dex_typed (st_dex s) -> is_u128 y ->
  wp (do_swap_with_exact_target who path y max limit)
    (fun r s' => is_u128 r /\ r <= max /\ exists ts, swap_result who path ts r y s s' /\
       get_supply_amounts path y limit s = Ok ts)
    (fun _ s' => s' = s) s.
Proof.
  intros Ht Hy. unfold do_swap_with_exact_target. wp_step. wp_step. wp_step.
  destruct (get_supply_amounts path y limit s) as [ts| |] eqn:Hq; [|done|].
  2: { by apply get_supply_amounts_no_panic in Hq. }
  unfold get_supply_amounts in Hq. rinv Hq.
  assert (Hne : path <> []) by (by intros ->).
  apply supply_amounts_plan in Hq as [Hp Hlt]; [|done..].
  destruct (plan_ends path ts s Hp) as (p0 & pn & t0 & tn & Hp0 & Hpn & Ht0 & Htn).
  wp_step. apply wp_expect. exists t0. split; [done|]. wp_step. wp_step; [|done].
  apply Z.leb_le in Hens.
  wp_step. apply wp_expect. exists p0. split; [done|].
  wp_step. apply wp_expect. exists pn. split; [done|].
  assert (Hu : is_u128 t0) by (by eapply plan_head_u128).
  apply (exchange_wp who path ts p0 pn t0 y); try done.
  intros l Hl Hi Hr. split; [done|]. split; [done|]. exists ts. split; [|done].
  split; [done|]. split; [done|]. split; [done|]. split; [done|].
  by exists p0, pn, l.
Qed.
End Effect.

#[export] Instance dex_manager_laws `{ConfigLaws} : DEXManagerLaws.
Proof.
  split.
  - intros a b s Ht. by apply get_liquidity_u128.
  - intros a b s t E. cbn. unfold get_liquidity, liquidity_pool. by rewrite E.
  - intros who path x min limit s Ht Hx.
    eapply wp_mono; [by apply do_swap_with_exact_supply_wp| |done].
    intros r s' (Hr & Hmin & ts & Hres & _). eauto using swap_result_effect.
  - intros who path y max limit s Ht Hy.
    eapply wp_mono; [by apply do_swap_with_exact_target_wp| |done].
    intros r s' (Hr & Hmax & ts & Hres & _). eauto using swap_result_effect.
Qed.

(** ** The constant product across a swap *)
Section Product.
Context `{ConfigLaws}.

Definition product (p : TradingPair) (d : DexStorage) : Z := (pool_of p d).1 * (pool_of p d).2.
Fixpoint hops_distinct (path : list CurrencyId) : Prop :=
  match path with
  | a :: ((b :: _) as path') => a <> b /\ hops_distinct path'
  | _ => True
  end.

(** The pool of a pair seen from the side of currency [a]. *)
Definition oriented (a : CurrencyId) (p : TradingPair) (x : Balance * Balance) : Balance * Balance :=
  if decide (a = pair_0 p) then (x.1, x.2) else (x.2, x.1).

Lemma get_liquidity_oriented a b s :
  get_liquidity a b s = oriented a (TradingPair_new a b) (pool_of (TradingPair_new a b) (st_dex s)).
Proof.
  unfold get_liquidity, oriented, liquidity_pool, pool_of. by destruct (default (0, 0) _).
Qed.
Lemma swap_pool_oriented a p x y pool :
  oriented a p (swap_pool a p x y pool) =
    (U128.saturating_add (oriented a p pool).1 x, U128.saturating_sub (oriented a p pool).2 y).
Proof. unfold oriented, swap_pool. by case_decide. Qed.
Lemma oriented_product a p x : (oriented a p x).1 * (oriented a p x).2 = x.1 * x.2.
Proof. unfold oriented. case_decide; cbn; lia. Qed.
Lemma oriented_u128 a p x : pair_u128 x -> pair_u128 (oriented a p x).
Proof. intros [? ?]. unfold oriented. by case_decide; split. Qed.
Lemma oriented_flip a b p x : p = TradingPair_new a b -> a <> b ->
  oriented b p x = ((oriented a p x).2, (oriented a p x).1).
Proof.
  intros -> Hne. unfold oriented.
  destruct (TradingPair_new_members a b) as [[-> _]|[-> _]].
  - rewrite decide_False by congruence. by rewrite decide_True.
  - rewrite decide_True by done. by rewrite decide_False by congruence.
Qed.

(** The check of the code, without the saturation of its 256-bit products. *)
Lemma invariant_holds_spec sp tp x y :
  is_u128 sp -> is_u128 tp -> is_u128 x -> 0 <= y <= tp -> invariant_holds sp tp x y = true ->
  sp * tp <= U128.saturating_add sp x * (tp - y).
Proof.
  intros Hsp Htp Hx Hy Hi. unfold invariant_holds in Hi. apply Z.leb_le in Hi.
  replace (U128.saturating_sub tp y) with (tp - y) in Hi by (unfold U128.saturating_sub; lia).
  pose proof (u128_product sp tp Hsp Htp). unfold U256.saturating_mul in Hi. lia.
Qed.

Lemma hop_product a b x y s p :
  dex_typed (st_dex s) -> is_u128 x -> hop_plan a b x y s ->
  product p (st_dex s) <= product p (swap_dex a b x y (st_dex s)).
Proof.
  intros Ht Hx (_ & _ & Hy & _ & Hi). unfold swap_dex.
  destruct (from_token_currency_ids a b) as [q|] eqn:Eq; [|done].
  apply from_token_currency_ids_new in Eq as ->. unfold product. rewrite pool_of_set.
  case_decide as E; [|done]. subst p. rewrite get_liquidity_oriented in Hy, Hi.
  pose proof (dex_typed_pool _ (TradingPair_new a b) Ht) as Hu.
  set (q := TradingPair_new a b) in *. set (pool := pool_of q (st_dex s)) in *.
  rewrite <- (oriented_product a q pool), <- (oriented_product a q (swap_pool _ _ _ _ _)),
    swap_pool_oriented. cbn [fst snd].
  pose proof (oriented_u128 a q _ Hu) as [? ?].
  replace (U128.saturating_sub (oriented a q pool).2 y) with ((oriented a q pool).2 - y)
    by (unfold U128.saturating_sub; lia).
  apply invariant_holds_spec; (done || lia).
Qed.

(** There and back again through one pool, both hops quoted on the initial
    pool: the second hop cannot take out more than the first put in. *)
Lemma round_trip_product u v e x1 x2 :
  0 < u -> 0 < v -> 0 <= e -> 0 <= x1 < v -> 0 <= x2 < u ->
  u * v <= (u + e) * (v - x1) -> u * v <= (v + x1) * (u - x2) ->
  u * v <= (u + e - x2) * v.
Proof.
  intros Hu Hv He H1 H2 Hfst Hsnd.
  assert (Ha : x1 * u <= e * (v - x1)) by nia.
  assert (Hb : x2 * (v + x1) <= u * x1) by nia.
  assert (Hc : x2 * (v + x1) <= e * (v - x1)) by lia.
  assert (x2 <= e); [|nia].
  destruct (Z.le_gt_cases x2 e); [done|]. nia.
Qed.

Lemma round_trip_saturated u v x0 x1 x2 :
  is_u128 u -> is_u128 v -> is_u128 x0 -> is_u128 x1 -> 0 < x1 < v -> 0 < x2 < u ->
  u * v <= U128.saturating_add u x0 * (v - x1) ->
  v * u <= U128.saturating_add v x1 * (u - x2) ->
  u * v <= U128.saturating_add (U128.saturating_sub v x1) x1 *
           U128.saturating_sub (U128.saturating_add u x0) x2.
Proof.
  intros Hu Hv H0' H1' Hx1 Hx2 Hi1 Hi2.
  pose proof (saturating_back v x1 Hv H1' ltac:(lia)) as Ea.
  pose proof (saturating_add_ge u x0 Hu H0') as Eb.
  pose proof (saturating_add_le v x1) as Ec.
  rewrite Ea. clear Ea Hu Hv H0' H1'.
  generalize dependent (U128.saturating_add u x0). intros w Hi1 Hw.
  generalize dependent (U128.saturating_add v x1). intros w' Hi2 Hw'.
  rewrite saturating_sub_exact by lia. replace (w - x2) with (u + (w - u) - x2) by ring.
  rewrite (Z.mul_comm v). apply (round_trip_product u v (w - u) x1 x2); try lia. nia.
Qed.

Lemma pool_of_swap_ne a b x y d p :
  p <> TradingPair_new a b -> pool_of p (swap_dex a b x y d) = pool_of p d.
Proof.
  intros Hne. unfold swap_dex. destruct (from_token_currency_ids a b) eqn:E; [|done].
  apply from_token_currency_ids_new in E as ->. rewrite pool_of_set. by rewrite decide_False.
Qed.
Lemma pool_of_swap_cong a b x y d1 d2 p :
  pool_of p d1 = pool_of p d2 ->
  pool_of p (swap_dex a b x y d1) = pool_of p (swap_dex a b x y d2).
Proof.
  intros Hp. unfold swap_dex. destruct (from_token_currency_ids a b) eqn:E; [|done].
  rewrite !pool_of_set. case_decide; [subst; by rewrite Hp|done].
Qed.
Lemma pair_back a b c : a <> b -> TradingPair_new a b = TradingPair_new b c -> c = a.
Proof.
  intros Hne E. pose proof (TradingPair_new_members a b) as Hm.
  pose proof (TradingPair_new_members b c) as Hm'. rewrite <- E in Hm'. destruct Hm as [[? ?]|[? ?]], Hm' as [[? ?]|[? ?]]; congruence.
Qed.

Lemma round_trip_product_dex a b x0 x1 x2 s p :
  dex_typed (st_dex s) -> is_u128 x0 -> is_u128 x1 -> a <> b ->
  hop_plan a b x0 x1 s -> hop_plan b a x1 x2 s ->
  product p (st_dex s) <= product p (swap_dex b a x1 x2 (swap_dex a b x0 x1 (st_dex s))).
Proof.
  intros Ht H0' H1' Hne (_ & _ & Hy1 & Hs1 & Hi1) (_ & _ & Hy2 & Hs2 & Hi2).
  destruct (decide (p = TradingPair_new a b)) as [->|Hp].
  2: { unfold product. rewrite !pool_of_swap_ne; [done|done|by rewrite TradingPair_new_comm]. }
  rewrite get_liquidity_oriented in Hy1, Hs1, Hi1, Hy2, Hs2, Hi2.
  rewrite (TradingPair_new_comm b a) in Hy2, Hs2, Hi2.
  unfold swap_dex. rewrite (from_token_currency_ids_comm b a).
  destruct (from_token_currency_ids a b) as [q|] eqn:Eq; [|done].
  apply from_token_currency_ids_new in Eq. rewrite <- Eq in *. unfold product.
  rewrite !pool_of_set, !decide_True by done.
  pose proof (dex_typed_pool _ q Ht) as Hu. set (pool := pool_of q (st_dex s)) in *.
  rewrite <- (oriented_product b q (swap_pool b _ _ _ _)), <- (oriented_product a q pool).
  rewrite swap_pool_oriented, (oriented_flip a b q) by done.
  rewrite swap_pool_oriented. rewrite (oriented_flip a b q) in Hy2, Hs2, Hi2 by done.
  pose proof (oriented_u128 a q _ Hu) as [Hu1 Hu2].
  destruct (oriented a q pool) as [u v]. cbn [fst snd] in *.
  apply invariant_holds_spec in Hi1, Hi2; [|done || lia..].
  by apply round_trip_saturated.
Qed.

Lemma two_hops_product a b c x0 x1 x2 s p :
  dex_typed (st_dex s) -> is_u128 x0 -> is_u128 x1 -> a <> b -> b <> c ->
  hop_plan a b x0 x1 s -> hop_plan b c x1 x2 s ->
  product p (st_dex s) <= product p (swap_dex b c x1 x2 (swap_dex a b x0 x1 (st_dex s))).
Proof.
  intros Ht H0' H1' Hab Hbc Hp1 Hp2.
  destruct (decide (TradingPair_new a b = TradingPair_new b c)) as [E|E].
  - apply pair_back in E as ->; [|done]. by apply round_trip_product_dex.
  - destruct (decide (p = TradingPair_new b c)) as [->|Hp].
    + etransitivity; [by apply (hop_product b c x1 x2)|]. unfold product.
      erewrite pool_of_swap_cong; [done|]. by rewrite pool_of_swap_ne.
    + etransitivity; [by apply (hop_product a b x0 x1)|]. unfold product.
      by rewrite (pool_of_swap_ne b c).
Qed.

Lemma swap_product path ts s p :
  dex_typed (st_dex s) -> TradingPathLimit <= 3 -> path_length_ok path = true ->
  hops_distinct path -> plan path ts s ->
  product p (st_dex s) <= product p (apply_swaps path ts (st_dex s)).
Proof.
  intros Ht Hlim Hlen Hd Hp. unfold path_length_ok in Hlen.
  apply andb_true_iff in Hlen as [H2 H3]. apply Z.leb_le in H2, H3.
  pose proof (plan_Forall _ _ _ Hp) as Hu.
  destruct path as [|a [|b [|c [|d path]]]]; cbn [length] in *; try lia.
  - destruct ts as [|x0 [|x1 [|x2 ts]]]; try (cbn in Hp; tauto).
    destruct Hp as (? & ? & _). by apply hop_product.
  - destruct ts as [|x0 [|x1 [|x2 [|x3 ts]]]]; try (cbn in Hp; tauto).
    destruct Hp as (? & ? & ? & ? & _). destruct Hd as (? & ? & _).
    by apply two_hops_product.
Qed.
End Product.

(** ** Claims *)
Section Claims.
Context `{ConfigLaws}.

(** C2: a swap of an exact supply either fails and changes nothing, or takes
    exactly [supply_amount] of the first currency of the path from the
    trader, gives it at least [min_target_amount] of the last one and moves the
    opposite amounts through the exchange's account.  The amounts of the hops are
    those quoted, each on a pair that is enabled; the reserves of each pair on the
    path gain what its hops bring in and lose what they take out.  No other pair,
    no status, no provision, no other balance, no issuance and no other pallet is
    touched; it never panics. *)
Theorem swap_exact_supply_spec who path supply_amount min_target_amount limit s r s' :
  dex_typed (st_dex s) -> is_u128 supply_amount ->
  do_swap_with_exact_supply who path supply_amount min_target_amount limit s = (r, s') ->
  match r with
  | Ok y => min_target_amount <= y /\ exists amounts,
      get_target_amounts path supply_amount limit s = Ok amounts /\ plan path amounts s /\
      swap_moves who path amounts supply_amount y s s'
  | Err _ => s' = s
  | Panic => False
  end.
Proof.
  intros Ht Hx Hrun.
  pose proof (do_swap_with_exact_supply_wp who path supply_amount min_target_amount limit s Ht Hx) as Hw.
  unfold wp in Hw. rewrite Hrun in Hw. destruct r; [|done..].
  destruct Hw as (_ & Hmin & ts & Hres & Hq). split; [done|]. exists ts. split; [done|].
  split; [apply Hres|by apply swap_result_moves].
Qed.

(** C20: a swap for an exact target either fails and changes nothing, or gives
    the trader exactly [target_amount] of the last currency of the path for
    at most [max_supply_amount] of the first one, with the opposite amounts
    moved through the exchange's account.  The amounts of the hops are those
    quoted backwards, each on a pair that is enabled; the reserves of each pair on
    the path change by its hops, and nothing else changes; it never panics. *)
Theorem swap_exact_target_spec who path target_amount max_supply_amount limit s r s' :
  dex_typed (st_dex s) -> is_u128 target_amount ->
  do_swap_with_exact_target who path target_amount max_supply_amount limit s = (r, s') ->
  match r with
  | Ok x => x <= max_supply_amount /\ exists amounts,
      get_supply_amounts path target_amount limit s = Ok amounts /\ plan path amounts s /\
      swap_moves who path amounts x target_amount s s'
  | Err _ => s' = s
  | Panic => False
  end.
Proof.
  intros Ht Hx Hrun.
  pose proof (do_swap_with_exact_target_wp who path target_amount max_supply_amount limit s Ht Hx) as Hw.
  unfold wp in Hw. rewrite Hrun in Hw. destruct r; [|done..].
  destruct Hw as (_ & Hmax & ts & Hres & Hq). split; [done|]. exists ts. split; [done|].
  split; [apply Hres|by apply swap_result_moves].
Qed.

(** C30: for paths of at most three distinct-neighbour currencies (the limit
    of every runtime), a successful swap in either direction lowers the
    constant product of no pool, even where the path passes twice through
    the same pool and the second hop was quoted on the initial reserves. *)
Theorem swap_product_monotone who path x y limit s r s' p :
  dex_typed (st_dex s) -> is_u128 x -> TradingPathLimit <= 3 -> hops_distinct path ->
  do_swap_with_exact_supply who path x y limit s = (Ok r, s') \/
  do_swap_with_exact_target who path x y limit s = (Ok r, s') ->
  product p (st_dex s) <= product p (st_dex s').
Proof.
  intros Ht Hx Hlim Hd Hrun.
  assert (Hres : exists ts x' y', swap_result who path ts x' y' s s').
  { destruct Hrun as [Hrun|Hrun].
    - apply (wp_ok _ _ _ _ _ _ (do_swap_with_exact_supply_wp _ _ _ _ _ _ Ht Hx)) in Hrun
        as (_ & _ & ts & Hres & _). eauto.
    - apply (wp_ok _ _ _ _ _ _ (do_swap_with_exact_target_wp _ _ _ _ _ _ Ht Hx)) in Hrun
        as (_ & _ & ts & Hres & _). eauto. }
  destruct Hres as (ts & x' & y' & Hlen & Hp & _ & _ & a & z & l & _ & _ & -> & _).
  cbn. by apply swap_product.
Qed.
End Claims.

#[local] Existing Instance sample.
#[local] Existing Instance sample_laws.

(** A runtime with an AUSD/DOT and an AUSD/RENBTC pool. *)
Definition pools_sample : State :=
  let s := sample_state
    [(Token AUSD, alice, 10000000); (Token DOT, alice, 10000000); (Token RENBTC, alice, 10000000);
     (Token AUSD, bob, 100000); (Token DOT, bob, 100000)] (fun _ => Some DIV) in
  let s := (enable_trading_pair Root (Token AUSD) (Token DOT) s).2 in
  let s := (enable_trading_pair Root (Token AUSD) (Token RENBTC) s).2 in
  let s := (add_liquidity (Signed alice) (Token AUSD) (Token DOT) 5000000 1000000 0 false s).2 in
  (add_liquidity (Signed alice) (Token AUSD) (Token RENBTC) 4000000 2000000 0 false s).2.

(** [dex_typed], decided. *)
Definition pair_u128b (x : Z * Z) : bool :=
  (0 <=? x.1) && (x.1 <=? U128_MAX) && (0 <=? x.2) && (x.2 <=? U128_MAX).
Definition dex_typedb (d : DexStorage) : bool :=
  forallb (fun kv => pair_u128b kv.2) (map_to_list (LiquidityPool d)).
Lemma dex_typed_dec d : dex_typedb d = true -> dex_typed d.
Proof.
  intros Hb p x Hx%elem_of_map_to_list. unfold dex_typedb in Hb. rewrite forallb_forall in Hb.
  specialize (Hb (p, x)). rewrite <- list_elem_of_In in Hb. apply Hb in Hx. unfold pair_u128b in Hx.
  cbn in Hx. rewrite !andb_true_iff, !Z.leb_le in Hx. unfold pair_u128, is_u128. lia.
Qed.
Lemma pools_sample_typed : dex_typed (st_dex pools_sample).
Proof. apply dex_typed_dec. vm_compute. reflexivity. Qed.

Lemma swap_exact_supply_spec_witness :
  let path := [Token AUSD; Token DOT] in
  let run := do_swap_with_exact_supply bob path 1000 1 None pools_sample in
  get_target_amounts path 1000 None pools_sample = Ok [1000; 197] /\
  1 <= 197 /\ exists amounts, get_target_amounts path 1000 None pools_sample = Ok amounts /\
    plan path amounts pools_sample /\ swap_moves bob path amounts 1000 197 pools_sample run.2.
Proof.
  intros path run. split; [vm_compute; reflexivity|].
  apply (swap_exact_supply_spec bob path 1000 1 None pools_sample (Ok 197) run.2
    pools_sample_typed ltac:(wcheck)).
  apply run_split. vm_compute. reflexivity.
Defined.

Lemma swap_exact_target_spec_witness :
  let path := [Token DOT; Token AUSD; Token RENBTC] in
  let run := do_swap_with_exact_target bob path 100 1000 None pools_sample in
  42 <= 1000 /\ exists amounts, get_supply_amounts path 100 None pools_sample = Ok amounts /\
    plan path amounts pools_sample /\ swap_moves bob path amounts 42 100 pools_sample run.2.
Proof.
  intros path run.
  apply (swap_exact_target_spec bob path 100 1000 None pools_sample (Ok 42) run.2
    pools_sample_typed ltac:(wcheck)).
  apply run_split. vm_compute. reflexivity.
Defined.

(** There and back again through one pool. *)
Lemma swap_product_monotone_witness :
  let path := [Token AUSD; Token DOT; Token AUSD] in
  let run := do_swap_with_exact_supply bob path 1000 1 None pools_sample in
  let p := TradingPair_new (Token AUSD) (Token DOT) in
  product p (st_dex pools_sample) <= product p (st_dex run.2).
Proof.
  intros path run p.
  apply (swap_product_monotone bob path 1000 1 None pools_sample 974 run.2 p
    pools_sample_typed ltac:(wcheck)); [wcheck|cbn; repeat split; discriminate|].
  left. apply run_split. vm_compute. reflexivity.
Defined.
