(* ===== verification/DexSafety.v ===== *)
(** * Solvency and well-formedness of the exchange

    The invariant of the exchange's storage and of its account ([dex_inv]), its
    preservation by every extrinsic, the life cycle of a trading pair and the
    bounds of adding and removing liquidity. *)
From S2P Require Import Prelude FixedPoint Primitives Runtime Sample Support Dex DexQuotes DexSwap.

(** ** What the exchange owes *)
Section Reserves.
(** The part of [x], held for the pair [p], that is in currency [c]. *)
Definition part (c : CurrencyId) (p : TradingPair) (x : Balance * Balance) : Z :=
  (if decide (c = pair_0 p) then x.1 else 0) + (if decide (c = pair_1 p) then x.2 else 0).
Definition provs (p : TradingPair) (d : DexStorage) : gmap AccountId (Balance * Balance) :=
  default ∅ (ProvisioningPool d !! p).
Definition prov_part (c : CurrencyId) (p : TradingPair) (ps : gmap AccountId (Balance * Balance)) : Z :=
  map_sum (fun _ => part c p) ps.
(** All contributions to the pair, by side. *)
Definition prov_sum (ps : gmap AccountId (Balance * Balance)) : Balance * Balance :=
  (map_sum (fun _ x => x.1) ps, map_sum (fun _ x => x.2) ps).
(** What pools and provisions hold of a currency. *)
Definition pool_reserves (c : CurrencyId) (d : DexStorage) : Z := map_sum (part c) (LiquidityPool d).
Definition prov_reserves (c : CurrencyId) (d : DexStorage) : Z :=
  map_sum (prov_part c) (ProvisioningPool d).
Definition reserves (c : CurrencyId) (d : DexStorage) : Z := pool_reserves c d + prov_reserves c d.

Definition status_of (p : TradingPair) (d : DexStorage) : TradingPairStatus :=
  default NotEnabled (TradingPairStatuses d !! p).
Definition set_status (p : TradingPair) (st : TradingPairStatus) (d : DexStorage) : DexStorage :=
  mkDex (LiquidityPool d) (<[p := st]> (TradingPairStatuses d)) (ProvisioningPool d).
Definition clear_status (p : TradingPair) (d : DexStorage) : DexStorage :=
  mkDex (LiquidityPool d) (delete p (TradingPairStatuses d)) (ProvisioningPool d).
Definition set_provs (p : TradingPair) (ps : gmap AccountId (Balance * Balance)) (d : DexStorage)
    : DexStorage :=
  mkDex (LiquidityPool d) (TradingPairStatuses d) (<[p := ps]> (ProvisioningPool d)).
Definition clear_provs (p : TradingPair) (d : DexStorage) : DexStorage :=
  mkDex (LiquidityPool d) (TradingPairStatuses d) (delete p (ProvisioningPool d)).

Lemma part_zero c p : part c p (0, 0) = 0.
Proof. unfold part. by repeat case_decide. Qed.
Lemma part_nonneg c p x : pair_u128 x -> 0 <= part c p x.
Proof. intros [[? _] [? _]]. unfold part. repeat case_decide; lia. Qed.
Lemma prov_part_empty c p : prov_part c p ∅ = 0.
Proof. apply map_sum_empty. Qed.
Lemma prov_part_sum c p ps : prov_part c p ps = part c p (prov_sum ps).
Proof.
  unfold prov_part, prov_sum. induction ps as [|k x ps Hk IH] using map_ind.
  - rewrite !map_sum_empty. by rewrite part_zero.
  - rewrite !map_sum_insert_None by done. rewrite IH. unfold part. cbn. repeat case_decide; lia.
Qed.
Lemma reserves_set_pool c p x d :
  reserves c (set_pool p x d) = reserves c d - part c p (pool_of p d) + part c p x.
Proof.
  unfold reserves, pool_reserves, set_pool, pool_of. cbn. rewrite map_sum_insert.
  replace (from_option (part c p) 0 (LiquidityPool d !! p))
    with (part c p (default (0, 0) (LiquidityPool d !! p))); [unfold prov_reserves; cbn; lia|].
  destruct (LiquidityPool d !! p); [done|apply part_zero].
Qed.
Lemma prov_lookup c p d :
  from_option (prov_part c p) 0 (ProvisioningPool d !! p) = prov_part c p (provs p d).
Proof. unfold provs. destruct (ProvisioningPool d !! p); [done|]. by rewrite prov_part_empty. Qed.
Lemma reserves_set_provs c p ps d :
  reserves c (set_provs p ps d) = reserves c d - prov_part c p (provs p d) + prov_part c p ps.
Proof.
  unfold reserves, prov_reserves, set_provs. cbn. rewrite map_sum_insert, prov_lookup.
  unfold pool_reserves. cbn. lia.
Qed.
Lemma reserves_clear_provs c p d :
  reserves c (clear_provs p d) = reserves c d - prov_part c p (provs p d).
Proof.
  unfold reserves, prov_reserves, clear_provs. cbn. rewrite map_sum_delete, prov_lookup.
  unfold pool_reserves. cbn. lia.
Qed.
Lemma reserves_set_status c p st d : reserves c (set_status p st d) = reserves c d.
Proof. done. Qed.
Lemma reserves_clear_status c p d : reserves c (clear_status p d) = reserves c d.
Proof. done. Qed.

Lemma status_of_set p q st d :
  status_of q (set_status p st d) = if decide (q = p) then st else status_of q d.
Proof.
  unfold status_of, set_status. cbn. destruct (decide (q = p)) as [->|].
  - by rewrite lookup_insert_eq.
  - by rewrite lookup_insert_ne.
Qed.
Lemma status_of_clear p q d :
  status_of q (clear_status p d) = if decide (q = p) then NotEnabled else status_of q d.
Proof.
  unfold status_of, clear_status. cbn. destruct (decide (q = p)) as [->|].
  - by rewrite lookup_delete_eq.
  - by rewrite lookup_delete_ne.
Qed.
Lemma provs_set p q ps d : provs q (set_provs p ps d) = if decide (q = p) then ps else provs q d.
Proof.
  unfold provs, set_provs. cbn. destruct (decide (q = p)) as [->|].
  - by rewrite lookup_insert_eq.
  - by rewrite lookup_insert_ne.
Qed.
Lemma provs_clear p q d : provs q (clear_provs p d) = if decide (q = p) then ∅ else provs q d.
Proof.
  unfold provs, clear_provs. cbn. destruct (decide (q = p)) as [->|].
  - by rewrite lookup_delete_eq.
  - by rewrite lookup_delete_ne.
Qed.
End Reserves.

(** ** The invariant *)
Section Invariant.
Context `{ConfigLaws}.

(** A status other than [NotEnabled] belongs to two distinct currencies that
    have a liquidity token; the accumulated provision of a pair is the sum
    of the contributions kept for it, and only a pair in provisioning keeps
    contributions. *)
Definition status_ok (p : TradingPair) (st : TradingPairStatus)
    (ps : gmap AccountId (Balance * Balance)) : Prop :=
  match st with
  | NotEnabled => ps = ∅
  | Enabled => ps = ∅ /\ is_Some (get_dex_share_currency_id p) /\ pair_0 p <> pair_1 p
  | Provisioning pp =>
      accumulated_provision pp = prov_sum ps /\
      is_Some (get_dex_share_currency_id p) /\ pair_0 p <> pair_1 p
  end.

Record dex_wf (d : DexStorage) : Prop := {
  wf_pools : dex_typed d;
  wf_provs : forall p who x, provs p d !! who = Some x -> pair_u128 x;
  wf_status : forall p, status_ok p (status_of p d) (provs p d);
}.
(** The exchange's account covers its pools and the provisions it keeps. *)
Definition solvent (s : State) : Prop :=
  forall c, reserves c (st_dex s) <= free_balance c dex_account_id s.
Definition dex_inv (s : State) : Prop := dex_wf (st_dex s) /\ solvent s.

(** Updates that keep the storage well formed. *)
Lemma wf_set_pool p x d : dex_wf d -> pair_u128 x -> dex_wf (set_pool p x d).
Proof. intros [Hp Hv Hs] Hx. split; [by apply dex_typed_set|exact Hv|exact Hs]. Qed.
Lemma wf_set_status p st d : dex_wf d -> status_ok p st (provs p d) -> dex_wf (set_status p st d).
Proof.
  intros [Hp Hv Hs] Hst. split; [exact Hp|exact Hv|].
  intros q. rewrite status_of_set. case_decide; [by subst|apply Hs].
Qed.
Lemma wf_clear_provs p d st : dex_wf d -> status_ok p st ∅ ->
  dex_wf (set_status p st (clear_provs p d)).
Proof.
  intros [Hp Hv Hs] Hst. split; [exact Hp| |].
  - intros q who x. change (provs q (set_status p st (clear_provs p d))) with (provs q (clear_provs p d)).
    rewrite provs_clear. case_decide; [done|apply Hv].
  - intros q. rewrite status_of_set.
    change (provs q (set_status p st (clear_provs p d))) with (provs q (clear_provs p d)).
    rewrite provs_clear. case_decide; [by subst|apply Hs].
Qed.
Lemma wf_clear_pair p d : dex_wf d -> dex_wf (clear_status p (clear_provs p d)).
Proof.
  intros [Hp Hv Hs]. split; [exact Hp| |].
  - intros q who x. change (provs q (clear_status p (clear_provs p d))) with (provs q (clear_provs p d)).
    rewrite provs_clear. case_decide; [done|apply Hv].
  - intros q. rewrite status_of_clear.
    change (provs q (clear_status p (clear_provs p d))) with (provs q (clear_provs p d)).
    rewrite provs_clear. case_decide; [by subst|apply Hs].
Qed.
Lemma wf_contribute p pp who x ps d : dex_wf d ->
  is_Some (get_dex_share_currency_id p) -> pair_0 p <> pair_1 p -> pair_u128 x ->
  ps = <[who := x]> (provs p d) -> accumulated_provision pp = prov_sum ps ->
  dex_wf (set_provs p ps (set_status p (Provisioning pp) d)).
Proof.
  intros [Hp Hv Hs] Hid Hne Hx -> Hacc. split; [exact Hp| |].
  - intros q w y. rewrite provs_set. case_decide; [|apply Hv]. subst.
    rewrite lookup_insert. case_decide; [by intros [= <-]|apply Hv].
  - intros q. rewrite provs_set.
    change (status_of q (set_provs ?p0 ?x0 ?d0)) with (status_of q d0).
    rewrite status_of_set. case_decide; [by subst|apply Hs].
Qed.

Lemma prov_reserves_nonneg c d : dex_wf d -> 0 <= prov_reserves c d.
Proof.
  intros Hwf. apply map_sum_nonneg. intros p ps Hp. apply map_sum_nonneg. intros who x Hx.
  apply part_nonneg. apply (wf_provs d Hwf p who). unfold provs. by rewrite Hp.
Qed.
Lemma pool_reserves_nonneg c d : dex_wf d -> 0 <= pool_reserves c d.
Proof. intros Hwf. apply map_sum_nonneg. intros p x Hx. by eapply part_nonneg, wf_pools. Qed.
Lemma prov_part_le c p d : dex_wf d -> prov_part c p (provs p d) <= reserves c d.
Proof.
  intros Hwf. pose proof (reserves_clear_provs c p d) as Hr.
  enough (0 <= reserves c (clear_provs p d)) by lia.
  assert (Hwf' : dex_wf (clear_status p (clear_provs p d))) by by apply wf_clear_pair.
  pose proof (pool_reserves_nonneg c _ Hwf'). pose proof (prov_reserves_nonneg c _ Hwf').
  unfold reserves, pool_reserves, prov_reserves, clear_status, clear_provs in *. cbn in *. lia.
Qed.
(** The contributions of a pair fit a balance. *)
Lemma prov_sum_le p s : dex_inv s -> pair_0 p <> pair_1 p ->
  (prov_sum (provs p (st_dex s))).1 <= free_balance (pair_0 p) dex_account_id s /\
  (prov_sum (provs p (st_dex s))).2 <= free_balance (pair_1 p) dex_account_id s.
Proof.
  intros [Hwf Hsol] Hne.
  pose proof (prov_part_le (pair_0 p) p _ Hwf) as Hr0. pose proof (Hsol (pair_0 p)).
  pose proof (prov_part_le (pair_1 p) p _ Hwf) as Hr1. pose proof (Hsol (pair_1 p)).
  rewrite prov_part_sum in Hr0, Hr1. unfold part in Hr0, Hr1.
  rewrite decide_True, decide_False in Hr0 by congruence.
  rewrite decide_False, decide_True in Hr1 by congruence. lia.
Qed.
Lemma prov_sum_nonneg p d : dex_wf d ->
  0 <= (prov_sum (provs p d)).1 /\ 0 <= (prov_sum (provs p d)).2.
Proof.
  intros Hwf. split; apply map_sum_nonneg; intros who x Hx;
    apply (wf_provs d Hwf p) in Hx as [[? _] [? _]]; lia.
Qed.
Lemma prov_sum_lookup p d who : dex_wf d ->
  (default (0, 0) (provs p d !! who)).1 <= (prov_sum (provs p d)).1 /\
  (default (0, 0) (provs p d !! who)).2 <= (prov_sum (provs p d)).2.
Proof.
  intros Hwf. destruct (provs p d !! who) as [x|] eqn:E; cbn; [|by apply prov_sum_nonneg].
  split.
  - apply (map_sum_lookup_le (fun _ y => y.1)) in E; [done|]. intros w y Hy.
    apply (wf_provs d Hwf p) in Hy as [[? _] _]. lia.
  - apply (map_sum_lookup_le (fun _ y => y.2)) in E; [done|]. intros w y Hy.
    apply (wf_provs d Hwf p) in Hy as [_ [? _]]. lia.
Qed.
Lemma prov_sum_insert ps who x :
  prov_sum (<[who := x]> ps) =
    ((prov_sum ps).1 - (default (0, 0) (ps !! who)).1 + x.1,
     (prov_sum ps).2 - (default (0, 0) (ps !! who)).2 + x.2).
Proof.
  unfold prov_sum. rewrite !map_sum_insert. cbn. by destruct (ps !! who).
Qed.
End Invariant.

(** ** Swaps keep the exchange solvent *)
Section SwapSolvency.
Context `{ConfigLaws}.

Lemma part_oriented c a b z : a <> b ->
  part c (TradingPair_new a b) z =
    (if decide (c = a) then (oriented a (TradingPair_new a b) z).1 else 0) +
    (if decide (c = b) then (oriented a (TradingPair_new a b) z).2 else 0).
Proof.
  intros Hne. unfold part, oriented.
  destruct (TradingPair_new_members a b) as [[-> ->]|[-> ->]].
  - by rewrite (decide_True (P := a = a)).
  - rewrite (decide_False (P := a = b)) by done. cbn. repeat case_decide; lia.
Qed.
Lemma enabled_pair_ids a b d : dex_wf d -> status_of (TradingPair_new a b) d = Enabled ->
  a <> b /\ from_token_currency_ids a b = Some (TradingPair_new a b).
Proof.
  intros Hwf Hst. pose proof (wf_status d Hwf (TradingPair_new a b)) as Hok. rewrite Hst in Hok.
  destruct Hok as (_ & [l Hl] & Hne). split.
  - intros ->. destruct (TradingPair_new_members b b) as [[? ?]|[? ?]]; congruence.
  - unfold from_token_currency_ids. rewrite (TradingPair_new_comm b a).
    unfold get_dex_share_currency_id, join_dex_share_currency_id in Hl.
    destruct (TradingPair_new_members a b) as [[E1 E2]|[E1 E2]]; rewrite E1, E2 in Hl;
      by destruct a, b.
Qed.
Lemma reserves_swap c a b x y d :
  dex_typed d -> a <> b -> from_token_currency_ids a b = Some (TradingPair_new a b) ->
  is_u128 x -> 0 <= y <= (oriented a (TradingPair_new a b) (pool_of (TradingPair_new a b) d)).2 ->
  reserves c (swap_dex a b x y d) <=
    reserves c d + (if decide (c = a) then x else 0) - (if decide (c = b) then y else 0).
Proof.
  intros Ht Hne Hp Hx Hy. unfold swap_dex. rewrite Hp, reserves_set_pool, !part_oriented by done.
  rewrite swap_pool_oriented. cbn [fst snd].
  set (o := oriented a _ (pool_of _ d)) in *.
  rewrite (saturating_sub_exact o.2 y) by lia. pose proof (saturating_add_le o.1 x).
  repeat case_decide; lia.
Qed.

Lemma hop_ids a b x y s : dex_wf (st_dex s) -> hop_plan a b x y s ->
  a <> b /\ from_token_currency_ids a b = Some (TradingPair_new a b) /\
  0 < y < (oriented a (TradingPair_new a b) (pool_of (TradingPair_new a b) (st_dex s))).2.
Proof.
  intros Hwf (Hst & _ & Hy & _ & _). rewrite get_liquidity_oriented in Hy.
  apply enabled_pair_ids in Hst as [? ?]; [|done]. done.
Qed.

(** The target of the second hop is still in the pool after the first. *)
Lemma second_hop_fits a b c x0 x1 x2 s :
  dex_wf (st_dex s) -> is_u128 x0 -> is_u128 x1 -> hop_plan a b x0 x1 s -> hop_plan b c x1 x2 s ->
  let p := TradingPair_new b c in
  x2 <= (oriented b p (pool_of p (swap_dex a b x0 x1 (st_dex s)))).2.
Proof.
  intros Hwf H0' H1' Hp1 Hp2 p. pose proof (hop_ids _ _ _ _ _ Hwf Hp1) as (Hab & Hid & Hb1).
  pose proof (hop_ids _ _ _ _ _ Hwf Hp2) as (Hbc & _ & Hb2). subst p.
  destruct (decide (TradingPair_new b c = TradingPair_new a b)) as [E|E].
  2: { rewrite pool_of_swap_ne by done. lia. }
  assert (c = a) as -> by (by eapply pair_back).
  rewrite (TradingPair_new_comm b a) in *.
  unfold swap_dex. rewrite Hid, pool_of_set, decide_True by done.
  rewrite (oriented_flip a b) in Hb2 |- * by done. cbn [snd] in *. rewrite swap_pool_oriented. cbn [fst].
  set (o := oriented a _ _) in *.
  assert (Ho : pair_u128 o) by (apply oriented_u128, dex_typed_pool, wf_pools, Hwf).
  destruct Ho as [Ho _]. pose proof (saturating_add_ge o.1 x0 Ho H0'). lia.
Qed.

Lemma reserves_swaps c path ts s x y a z :
  dex_wf (st_dex s) -> TradingPathLimit <= 3 -> path_length_ok path = true -> plan path ts s ->
  head ts = Some x -> last ts = Some y -> head path = Some a -> last path = Some z ->
  reserves c (apply_swaps path ts (st_dex s)) <=
    reserves c (st_dex s) + (if decide (c = a) then x else 0) - (if decide (c = z) then y else 0).
Proof.
  intros Hwf Hlim Hlen Hp. unfold path_length_ok in Hlen.
  apply andb_true_iff in Hlen as [H2 H3]. apply Z.leb_le in H2, H3.
  pose proof (wf_pools _ Hwf) as Ht.
  destruct path as [|c0 [|c1 [|c2 [|c3 path]]]]; cbn [length] in *; try lia;
    destruct ts as [|x0 [|x1 [|x2 [|x3 ts]]]]; try (cbn in Hp; tauto).
  - destruct Hp as (Hx0 & Hp1 & _). intros [= <-] [= <-] [= <-] [= <-].
    pose proof (hop_ids _ _ _ _ _ Hwf Hp1) as (? & ? & ?).
    apply reserves_swap; (done || lia).
  - destruct Hp as (Hx0 & Hp1 & Hx1 & Hp2 & _). intros [= <-] [= <-] [= <-] [= <-].
    pose proof (hop_ids _ _ _ _ _ Hwf Hp1) as (? & ? & ?).
    pose proof (hop_ids _ _ _ _ _ Hwf Hp2) as (? & ? & ?).
    pose proof (second_hop_fits _ _ _ _ _ _ _ Hwf Hx0 Hx1 Hp1 Hp2) as Hfit. cbv zeta in Hfit.
    change (apply_swaps [c0; c1; c2] [x0; x1; x2] (st_dex s))
      with (swap_dex c1 c2 x1 x2 (swap_dex c0 c1 x0 x1 (st_dex s))).
    pose proof (reserves_swap c c0 c1 x0 x1 (st_dex s)) as Hr1.
    pose proof (reserves_swap c c1 c2 x1 x2 (swap_dex c0 c1 x0 x1 (st_dex s))) as Hr2.
    assert (dex_typed (swap_dex c0 c1 x0 x1 (st_dex s))) by (by apply swap_dex_typed).
    specialize (Hr1 ltac:(done) ltac:(done) ltac:(done) ltac:(done) ltac:(lia)).
    specialize (Hr2 ltac:(done) ltac:(done) ltac:(done) ltac:(done) ltac:(lia)). lia.
Qed.

Lemma swap_dex_wf a b x y d :
  is_u128 x -> is_u128 y -> dex_wf d -> dex_wf (swap_dex a b x y d).
Proof.
  intros Hx Hy Hwf. unfold swap_dex. destruct (from_token_currency_ids a b); [|done].
  apply wf_set_pool; [done|]. by apply swap_pool_u128, dex_typed_pool, wf_pools.
Qed.
Lemma apply_swaps_wf path ts d : Forall is_u128 ts -> dex_wf d -> dex_wf (apply_swaps path ts d).
Proof.
  revert ts d. induction path as [|a [|b path] IH]; intros [|x [|y ts]] d Hts Ht; try done.
  change (apply_swaps (a :: b :: path) (x :: y :: ts) d)
    with (apply_swaps (b :: path) (y :: ts) (swap_dex a b x y d)).
  inversion_clear Hts as [|? ? Hx Hts']. apply IH; [done|]. inversion_clear Hts'.
  by apply swap_dex_wf.
Qed.

Lemma swap_result_inv who path ts x y s s' :
  dex_inv s -> TradingPathLimit <= 3 -> who <> dex_account_id ->
  swap_result who path ts x y s s' -> dex_inv s'.
Proof.
  intros [Hwf Hsol] Hlim Hwho (Hlen & Hp & Hx & Hy & a & z & l & Ha & Hz & -> & Hf & _).
  split; cbn.
  - apply apply_swaps_wf; [|done]. by eapply plan_Forall.
  - intros c. cbn.
    pose proof (reserves_swaps c path ts s x y a z Hwf Hlim Hlen Hp Hx Hy Ha Hz) as Hr.
    unfold free_balance. cbn. rewrite Hf, !delta_account.
    rewrite !(delta_ne_account _ who) by congruence. specialize (Hsol c). lia.
Qed.
End SwapSolvency.

(** ** Liquidity *)
Section Liquidity.
Context `{ConfigLaws}.

Lemma sort_amounts_u128 a p x y : is_u128 x -> is_u128 y -> pair_u128 (sort_amounts a p x y).
Proof. intros ? ?. unfold sort_amounts. by case_decide; split. Qed.
Lemma price_mul_u128 x y k : is_u128 x -> is_u128 y -> is_u128 k ->
  is_u128 (saturating_mul_int (default 0 (checked_from_rational x y)) k).
Proof. intros Hx Hy Hk. apply smi_u128; [by apply cfr_default_u128|done]. Qed.
Lemma initial_share_u128 total c :
  pair_u128 total -> pair_u128 c -> is_u128 (initial_share total c).
Proof.
  intros [? ?] [? ?]. unfold initial_share.
  case_match; apply saturating_add_u128; auto using price_mul_u128.
Qed.
Lemma share_increment_u128 x y n : is_u128 x -> is_u128 y -> is_u128 n ->
  is_u128 (default 0 (r ← checked_from_rational x y; checked_mul_int r n)).
Proof.
  intros Hx Hy Hn. destruct (checked_from_rational x y) as [r|] eqn:E; [|done].
  change (Some r ≫= _) with (checked_mul_int r n).
  destruct (checked_mul_int r n) eqn:E2; cbn; [|done].
  apply cfr_Some in E as (_ & ? & _); [|done..]. by apply cmi_Some in E2 as [? _].
Qed.
Lemma liquidity_increments_u128 pool m n :
  pair_u128 pool -> pair_u128 m -> is_u128 n ->
  let r := liquidity_increments pool m n in
  pair_u128 r.1 /\ is_u128 r.2.
Proof.
  intros Hp Hm Hn. unfold liquidity_increments. destruct pool as [p0 p1], m as [m0 m1].
  pose proof (initial_share_u128 _ _ Hm Hm). destruct Hp as [Hp0 Hp1], Hm as [Hm0 Hm1]. cbn [fst snd] in *.
  pose proof (price_mul_u128 p0 p1 m1 Hp0 Hp1 Hm1). pose proof (price_mul_u128 p1 p0 m0 Hp1 Hp0 Hm0).
  repeat case_match; cbn [fst snd]; split; try (by split);
    auto using share_increment_u128.
Qed.

Lemma wp_deposit_dex_share who c n Q R s : who <> dex_account_id -> is_u128 n ->
  (forall l i, (forall c', cur_total_issuance l c' = total_issuance c' s) ->
    (forall c', cur_free_balance l c' dex_account_id = free_balance c' dex_account_id s) ->
    Q tt (set_incentives i (set_ledger l s))) ->
  (forall e, R e s) -> wp (do_deposit_dex_share who c n) Q R s.
Proof.
  intros Hw Hn HQ HR. unfold wp, do_deposit_dex_share.
  destruct (inc_deposit_dex_share who c n _) as [[l i]|e] eqn:E; [|auto].
  apply inc_deposit_law in E as [? ?]; auto.
Qed.
Lemma wp_withdraw_dex_share who c n Q R s : who <> dex_account_id -> is_u128 n ->
  (forall l i, (forall c', cur_total_issuance l c' = total_issuance c' s) ->
    (forall c', cur_free_balance l c' dex_account_id = free_balance c' dex_account_id s) ->
    Q tt (set_incentives i (set_ledger l s))) ->
  (forall e, R e s) -> wp (do_withdraw_dex_share who c n) Q R s.
Proof.
  intros Hw Hn HQ HR. unfold wp, do_withdraw_dex_share.
  destruct (inc_withdraw_dex_share who c n _) as [[l i]|e] eqn:E; [|auto].
  apply inc_withdraw_law in E as [? ?]; auto.
Qed.

(** A state whose storage is [d] and whose account gained at least what the
    storage did is solvent. *)
Lemma inv_by s s' d : dex_inv s -> st_dex s' = d -> dex_wf d ->
  (forall c, reserves c d - reserves c (st_dex s) <=
     free_balance c dex_account_id s' - free_balance c dex_account_id s) ->
  dex_inv s'.
Proof.
  intros [_ Hsol] <- Hwf Hr. split; [done|]. intros c. specialize (Hsol c). specialize (Hr c). lia.
Qed.

Lemma part_delta c p x who : part c p x =
  delta (pair_0 p) who x.1 c who + delta (pair_1 p) who x.2 c who.
Proof. unfold part. by rewrite !delta_account. Qed.
Lemma part_add_le c p x y :
  part c p (U128.saturating_add x.1 y.1, U128.saturating_add x.2 y.2) <= part c p x + part c p y.
Proof.
  pose proof (saturating_add_le x.1 y.1). pose proof (saturating_add_le x.2 y.2).
  unfold part. cbn. repeat case_decide; lia.
Qed.
Lemma part_sub_eq c p x y : y.1 <= x.1 -> y.2 <= x.2 ->
  part c p (U128.saturating_sub x.1 y.1, U128.saturating_sub x.2 y.2) = part c p x - part c p y.
Proof.
  intros H1 H2. rewrite !saturating_sub_exact by done. unfold part. cbn. repeat case_decide; lia.
Qed.

Lemma add_liquidity_inv who a b ma mb ms dep s :
  dex_inv s -> who <> dex_account_id -> is_u128 ma -> is_u128 mb ->
  wp (do_add_liquidity who a b ma mb ms dep) (fun _ => dex_inv) (fun _ _ => True) s.
Proof.
  intros Hinv Hwho Hma Hmb. unfold do_add_liquidity. set (p := TradingPair_new a b).
  wp_go. rename a0 into lp.
  pose proof (liquidity_pool_u128 p s (wf_pools _ (proj1 Hinv))) as Hpool.
  pose proof (liquidity_increments_u128 (liquidity_pool p s) (sort_amounts a p ma mb)
    (total_issuance lp s) Hpool (sort_amounts_u128 _ _ _ _ Hma Hmb) (total_issuance_u128 _ _)) as Hu.
  destruct (liquidity_increments _ _ _) as [[i0 i1] sh]. cbn [fst snd] in Hu. destruct Hu as [[Hi0 Hi1] Hsh].
  cbn [fst snd] in Hi0, Hi1. simplify_eq. rename z0 into i0, z1 into i1, z into sh.
  apply wp_transfer; [done| |done]. intros l1 Hf1 _. wp_go.
  apply wp_transfer; [done| |done]. intros l2 Hf2 _. wp_go.
  apply wp_deposit; [done| |done]. intros l3 Hf3 _. wp_step.
  assert (Hdone : forall t, st_dex t = st_dex s ->
    (forall c, free_balance c dex_account_id t = cur_free_balance l3 c dex_account_id) ->
    wp (_ ← deposit_event (AddLiquidity who (pair_0 p) i0 (pair_1 p) i1 sh);
        put_pool p (U128.saturating_add (liquidity_pool p s).1 i0,
                    U128.saturating_add (liquidity_pool p s).2 i1))
      (fun _ => dex_inv) (fun _ _ => True) t).
  { intros t Ht Hft. wp_step. cbn. destruct Hpool as [? ?].
    apply (inv_by s _ (set_pool p (U128.saturating_add (liquidity_pool p s).1 i0,
                    U128.saturating_add (liquidity_pool p s).2 i1) (st_dex s)) Hinv).
    - unfold set_pool. cbn. by rewrite Ht.
    - apply wf_set_pool; [apply Hinv|]. split; apply saturating_add_u128; done.
    - intros c. rewrite reserves_set_pool. pose proof (part_add_le c p (liquidity_pool p s) (i0, i1)) as Hle.
      cbn in Hle. unfold free_balance at 1. cbn. unfold free_balance in Hft. rewrite Hft, Hf3.
      unfold free_balance at 1. cbn. rewrite Hf2. unfold free_balance at 1. cbn. rewrite Hf1.
      rewrite !(delta_ne_account _ who) by congruence. rewrite (part_delta c p (i0, i1) dex_account_id) in Hle.
      cbn in Hle. unfold liquidity_pool, pool_of in *. lia. }
  destruct dep; [|by apply Hdone].
  apply wp_deposit_dex_share; [done|done| |done]. intros l i _ Hfd. by apply Hdone.
Qed.
End Liquidity.

(** ** Removing liquidity *)
Section RemoveLiquidity.
Context `{ConfigLaws}.

(** [x] is the part [share / total] of [whole] up to the rounding of the two
    fixed-point operations. *)
Definition pro_rata (share total whole x : Z) : Prop :=
  whole * share * DIV - (whole * total + total * DIV) < x * total * DIV
    < whole * share * DIV + (whole * total + total * DIV).

Lemma proportion_spec share total whole :
  is_u128 share -> is_u128 total -> is_u128 whole -> share <= total -> 0 < total ->
  let x := saturating_mul_int (default 0 (checked_from_rational share total)) whole in
  0 <= x <= whole /\ pro_rata share total whole x.
Proof.
  intros Hs Ht Hw Hle Hpos x. subst x.
  pose proof (cfr_default_u128 share total Hs Ht) as Hu.
  destruct (checked_from_rational share total) as [q|] eqn:Eq; cbn in *.
  2: { apply cfr_None in Eq; [|done..]. destruct Hs, Ht. unfold U128_MAX, DIV in *. nia. }
  pose proof (cfr_le_one _ _ _ Hs Ht Hle Eq) as Hq1.
  pose proof (smi_le_one q whole Hu Hw Hq1) as Hx1. pose proof (smi_u128 q whole Hu Hw) as Hxu.
  apply cfr_Some in Eq as (_ & _ & Hr1); [|done..]. split; [destruct Hxu; lia|].
  rewrite smi_checked in *. destruct (checked_mul_int q whole) as [x|] eqn:Ex; cbn in *.
  2: { apply cmi_None in Ex; [|done..]. destruct Hw. unfold U128_MAX, DIV in *. nia. }
  apply cmi_Some in Ex as [_ Hr2]; [|done..]. destruct Hw as [Hw _]. clear Hs Ht Hu Hxu Hx1 Hq1.
  unfold rounds, pro_rata in *. generalize dependent DIV. intros D Hr1 Hr2.
  assert (whole * (share * D - total) <= whole * (q * total) <= whole * (share * D + total)) by nia.
  assert (total * (q * whole - D) < total * (x * D) < total * (q * whole + D)) by nia.
  lia.
Qed.

(** What a successful removal of a nonzero share did. *)
Definition removed (who : AccountId) (p : TradingPair) (share : Balance) (min : Balance * Balance)
    (s s' : State) : Prop :=
  exists lp x0 x1 l i,
    get_dex_share_currency_id p = Some lp /\
    let pool := pool_of p (st_dex s) in
    let total := total_issuance lp s in
    0 < share <= total /\
    (0 <= x0 <= pool.1 /\ pro_rata share total pool.1 x0) /\
    (0 <= x1 <= pool.2 /\ pro_rata share total pool.2 x1) /\
    min.1 <= x0 /\ min.2 <= x1 /\
    st_dex s' = set_pool p (pool.1 - x0, pool.2 - x1) (st_dex s) /\
    s' = set_dex (st_dex s') (set_events (st_events s ++
           [RemoveLiquidity who (pair_0 p) x0 (pair_1 p) x1 share])
           (set_incentives i (set_ledger l s))) /\
    total_issuance lp s' = total - share /\
    (forall c, free_balance c dex_account_id s' =
       free_balance c dex_account_id s - part c p (x0, x1)
       + (if decide (who = dex_account_id) then part c p (x0, x1)
          else 0) - delta lp who share c dex_account_id).

Lemma remove_share_ids p lp : get_dex_share_currency_id p = Some lp ->
  is_dex_share_currency_id lp = true /\
  is_dex_share_currency_id (pair_0 p) = false /\ is_dex_share_currency_id (pair_1 p) = false.
Proof.
  unfold get_dex_share_currency_id, join_dex_share_currency_id.
  destruct (pair_0 p), (pair_1 p); cbn; by intros [= <-].
Qed.

Lemma withdraw_enough c a n l l' : is_u128 n -> cur_withdraw c a n l = inl l' ->
  n <= cur_total_issuance l c.
Proof.
  intros Hn Hw. apply withdraw_law in Hw as (Hf & _); [|done]. specialize (Hf c a).
  rewrite delta_eq in Hf. pose proof (free_balance_u128 l' c a). pose proof (free_le_issuance l c a).
  unfold is_u128 in *. lia.
Qed.

(** The calls of a removal, once the amounts are fixed. *)
Lemma redeem_wp who p lp share min x0 x1 s l0 i :
  dex_typed (st_dex s) -> is_u128 share -> share <> 0 -> get_dex_share_currency_id p = Some lp ->
  let pool := pool_of p (st_dex s) in
  let proportion := default 0 (checked_from_rational share (total_issuance lp s)) in
  x0 = saturating_mul_int proportion pool.1 -> x1 = saturating_mul_int proportion pool.2 ->
  min.1 <= x0 -> min.2 <= x1 ->
  (forall c', cur_total_issuance l0 c' = total_issuance c' s) ->
  (forall c', cur_free_balance l0 c' dex_account_id = free_balance c' dex_account_id s) ->
  wp (_ ← withdraw lp who share;
      _ ← transfer (pair_0 p) dex_account_id who x0;
      _ ← transfer (pair_1 p) dex_account_id who x1;
      _ ← deposit_event (RemoveLiquidity who (pair_0 p) x0 (pair_1 p) x1 share);
      put_pool p (U128.saturating_sub pool.1 x0, U128.saturating_sub pool.2 x1))
    (fun _ s' => removed who p share min s s')
    (fun _ _ => True) (set_incentives i (set_ledger l0 s)).
Proof.
  intros Ht Hsh Hne Hlp pool proportion Ex0 Ex1 Hm0 Hm1 Hi0 Hf0.
  pose proof (dex_typed_pool _ p Ht) as [Hu0 Hu1]. fold pool in Hu0, Hu1.
  pose proof (total_issuance_u128 (st_ledger s) lp : is_u128 (total_issuance lp s)) as Htot.
  pose proof (smi_u128 _ _ (cfr_default_u128 _ _ Hsh Htot) Hu0) as Hx0.
  pose proof (smi_u128 _ _ (cfr_default_u128 _ _ Hsh Htot) Hu1) as Hx1.
  wp_step. apply wp_lift_ledger. cbn. split; [|done]. intros l1 Hw.
  pose proof (withdraw_enough _ _ _ _ _ Hsh Hw) as Hle. rewrite Hi0 in Hle.
  apply withdraw_law in Hw as (Hf1 & Hi1 & _); [|done].
  assert (Hpos : 0 < share <= total_issuance lp s) by (destruct Hsh; lia).
  pose proof (proportion_spec share _ pool.1 Hsh Htot Hu0 ltac:(lia) ltac:(lia)) as Hpr0.
  pose proof (proportion_spec share _ pool.2 Hsh Htot Hu1 ltac:(lia) ltac:(lia)) as Hpr1.
  subst proportion. cbv zeta in Hpr0, Hpr1. rewrite <- Ex0 in *. rewrite <- Ex1 in *. clear Ex0 Ex1. wp_guards.
  apply wp_transfer; [done| |done]. intros l2 Hf2 Hi2. wp_guards.
  apply wp_transfer; [done| |done]. intros l3 Hf3 Hi3. cbn.
  rewrite !saturating_sub_exact by lia.
  exists lp, x0, x1, l3, i. cbv zeta. fold pool. split_and!; try done; try lia.
  - apply Hpr0.
  - apply Hpr1.
  - unfold total_issuance at 1. cbn. rewrite Hi3. unfold total_issuance at 1. cbn. rewrite Hi2.
    unfold total_issuance at 1. cbn. rewrite Hi1, Hi0, decide_True by done. done.
  - intros c. unfold free_balance at 1. cbn. rewrite Hf3. unfold free_balance at 1. cbn. rewrite Hf2.
    unfold free_balance at 1. cbn. rewrite Hf1, Hf0, (part_delta c p (x0, x1) dex_account_id). cbn.
    destruct (decide (who = dex_account_id)) as [->|Hwho]; [lia|].
    rewrite !(delta_ne_account _ who) by congruence. lia.
Qed.

Lemma remove_liquidity_wp who a b share ma mb byw s :
  dex_typed (st_dex s) -> who <> dex_account_id -> is_u128 share ->
  wp (do_remove_liquidity who a b share ma mb byw)
    (fun _ s' => (share = 0 /\ s' = s) \/
       from_token_currency_ids a b = Some (TradingPair_new a b) /\
       removed who (TradingPair_new a b) share (sort_amounts a (TradingPair_new a b) ma mb) s s')
    (fun _ s' => s' = s) s.
Proof.
  intros Ht Hwho Hsh. unfold do_remove_liquidity. wp_step. wp_step.
  { apply Z.eqb_eq in Hif. apply wp_ret. by left. }
  apply Z.eqb_neq in Hif. wp_guards. rename Hopt into Hp.
  pose proof (from_token_currency_ids_new _ _ _ Hp) as ->.
  apply andb_true_iff in Hens as [Hm0 Hm1]. apply Z.leb_le in Hm0, Hm1.
  assert (Hdone : forall l0 i, _ -> _ -> _) by (intros l0 i; by eapply (redeem_wp who _ _ share _ _ _ s l0 i)).
  destruct byw.
  - apply wp_withdraw_dex_share; [done|done| |done]. intros l i Hi Hf.
    eapply wp_mono; [by apply Hdone| |done]. auto.
  - apply wp_ret. specialize (Hdone (st_ledger s) (st_incentives s)).
    replace (set_incentives (st_incentives s) (set_ledger (st_ledger s) s)) with s in Hdone by (by destruct s).
    eapply wp_mono; [by apply Hdone| |done]. auto.
Qed.
End RemoveLiquidity.

(** ** Provisioning *)
Section ProvisionInv.
Context `{ConfigLaws}.

Lemma removed_inv who p share min s s' :
  dex_inv s -> who <> dex_account_id -> removed who p share min s s' -> dex_inv s'.
Proof.
  intros Hinv Hwho (lp & x0 & x1 & l & i & _ & _ & (Hx0 & _) & (Hx1 & _) & _ & _ & Hd & _ & _ & Hf).
  pose proof (dex_typed_pool _ p (wf_pools _ (proj1 Hinv))) as [[? ?] [? ?]].
  apply (inv_by s s' _ Hinv Hd).
  - apply wf_set_pool; [apply Hinv|]. split; cbn; unfold is_u128; lia.
  - intros c. rewrite reserves_set_pool, Hf, decide_False by done.
    rewrite (delta_ne_account _ who) by congruence. unfold part. cbn. repeat case_decide; lia.
Qed.

(** Contributions reach the exchange's account and the books at once. *)
Lemma add_provision_inv who a b x y s :
  dex_inv s -> who <> dex_account_id -> is_u128 x -> is_u128 y ->
  wp (do_add_provision who a b x y) (fun _ => dex_inv) (fun _ _ => True) s.
Proof.
  intros Hinv Hwho Hx Hy. unfold do_add_provision. set (p := TradingPair_new a b). wp_guards.
  change (trading_pair_statuses p s) with (status_of p (st_dex s)).
  pose proof (wf_status _ (proj1 Hinv) p) as Hst.
  destruct (status_of p (st_dex s)) as [|pp|] eqn:Est; [done| |done].
  destruct Hst as (Hacc & Hid & Hne). wp_guards.
  pose proof (sort_amounts_u128 a p x y Hx Hy) as [Hc0 Hc1].
  generalize dependent (sort_amounts a p x y). intros [c0 c1] _ Hc0 Hc1. cbn [fst snd] in *.
  apply wp_transfer; [done| |done]. intros l1 Hf1 _. wp_guards.
  apply wp_transfer; [done| |done]. intros l2 Hf2 _.
  change (provisions p s) with (provs p (st_dex s)). set (ps := provs p (st_dex s)) in *.
  set (old := default (0, 0) (ps !! who)).
  pose proof (prov_sum_lookup p (st_dex s) who (proj1 Hinv)) as [Ho0 Ho1]. fold ps old in Ho0, Ho1.
  pose proof (prov_sum_le p s Hinv Hne) as [Hs0 Hs1]. fold ps in Hs0, Hs1.
  assert (Hb0 : (prov_sum ps).1 + c0 <= U128_MAX).
  { pose proof (free_balance_u128 l2 (pair_0 p) dex_account_id) as [_ Hm].
    rewrite Hf2 in Hm. unfold free_balance in Hm at 1. cbn in Hm. rewrite Hf1 in Hm.
    rewrite !(delta_ne_account _ who) in Hm by congruence.
    rewrite delta_eq, delta_ne_currency in Hm by done. lia. }
  assert (Hb1 : (prov_sum ps).2 + c1 <= U128_MAX).
  { pose proof (free_balance_u128 l2 (pair_1 p) dex_account_id) as [_ Hm].
    rewrite Hf2 in Hm. unfold free_balance in Hm at 1. cbn in Hm. rewrite Hf1 in Hm.
    rewrite !(delta_ne_account _ who) in Hm by congruence.
    rewrite delta_eq, delta_ne_currency in Hm by congruence. lia. }
  assert (Hold : pair_u128 old).
  { subst old. destruct (ps !! who) as [o|] eqn:Eo; [|done]. by eapply wf_provs; [apply Hinv|]. }
  rewrite !(saturating_add_exact old.1), !(saturating_add_exact old.2) by lia.
  set (st := Provisioning (add_accumulated pp (c0, c1))).
  set (ps' := <[who := (old.1 + c0, old.2 + c1)]> ps).
  assert (Hdone : forall t, st_dex t = st_dex s -> st_ledger t = l2 ->
    wp (_ ← put_status p st; _ ← deposit_event (AddProvision who (pair_0 p) c0 (pair_1 p) c1);
        put_provisions p ps') (fun _ => dex_inv) (fun _ _ => True) t).
  { intros t Ht Hl. wp_guards. cbn. apply (inv_by s _ (set_provs p ps' (set_status p st (st_dex s))) Hinv).
    - cbn. by rewrite Ht.
    - apply (wf_contribute p _ who (old.1 + c0, old.2 + c1)); [apply Hinv|done|done| |done|].
      + destruct Hold as [[? _] [? _]], Hc0, Hc1. split; cbn; unfold is_u128; lia.
      + cbn. rewrite Hacc. fold ps. subst ps'. rewrite prov_sum_insert. fold old. cbn.
        rewrite !saturating_add_exact by done. f_equal; lia.
    - intros c. rewrite reserves_set_provs, reserves_set_status.
      change (provs p (set_status p st (st_dex s))) with ps.
      rewrite !prov_part_sum. subst ps'. rewrite prov_sum_insert. fold old.
      unfold free_balance at 1. cbn. rewrite Hl, Hf2. unfold free_balance at 1. cbn. rewrite Hf1.
      rewrite !(delta_ne_account _ who) by congruence. rewrite !delta_account.
      unfold part. cbn. repeat case_decide; lia. }
  wp_guards. destruct (ps !! who); [by apply Hdone|].
  apply wp_modify. destruct (sys_inc_consumers who _); by apply Hdone.
Qed.
End ProvisionInv.

(** ** Draining the provisions of a pair *)
Section Drain.
Context `{ConfigLaws}.

(** [x] of the pair's two currencies, at the account [w]. *)
Definition pair_delta (p : TradingPair) (w : AccountId) (x : Balance * Balance)
    (c : CurrencyId) (acc : AccountId) : Z :=
  delta (pair_0 p) w x.1 c acc + delta (pair_1 p) w x.2 c acc.

Lemma pair_delta_self p w x c : pair_delta p w x c w = part c p x.
Proof. unfold pair_delta. by rewrite <- part_delta. Qed.
Lemma pair_delta_ne p w x c acc : acc <> w -> pair_delta p w x c acc = 0.
Proof. intros Hne. unfold pair_delta. by rewrite !delta_ne_account. Qed.

Lemma drained_typed d p who x :
  dex_wf d -> (who, x) ∈ drain_order (map_to_list (provs p d)) -> pair_u128 x.
Proof.
  intros Hwf Hin. rewrite drain_order_law in Hin. apply elem_of_map_to_list in Hin.
  by eapply wf_provs.
Qed.
Lemma drained_sum {d p} (f : AccountId -> Balance * Balance -> Z) :
  list_sum f (drain_order (map_to_list (provs p d))) = map_sum f (provs p d).
Proof. rewrite map_sum_list. apply list_sum_permutation, drain_order_law. Qed.
Lemma list_sum_prov_part c p d :
  list_sum (fun _ => part c p) (drain_order (map_to_list (provs p d))) = prov_part c p (provs p d).
Proof. apply drained_sum. Qed.

Lemma issue_shares_wp lp acc l n s :
  pair_u128 acc -> (forall w x, (w, x) ∈ l -> pair_u128 x) ->
  wp (issue_shares lp acc l n)
    (fun _ t => st_dex t = st_dex s /\
       forall c, free_balance c dex_account_id s <= free_balance c dex_account_id t)
    (fun _ _ => False) s.
Proof.
  intros Hacc. revert n s. induction l as [|[w x] l IH]; intros n s Hl; cbn [issue_shares].
  - wp_step. split; [done|]. intros c. lia.
  - pose proof (initial_share_u128 acc x Hacc (Hl w x ltac:(set_solver))) as Hsh.
    assert (Hl' : forall w x, (w, x) ∈ l -> pair_u128 x) by set_solver.
    wp_guards. apply wp_deposit; [done| |].
    + intros l1 Hf _. wp_guards. apply wp_modify. eapply wp_mono; [by apply IH| |done]. cbn.
      intros _ t [-> Hg]. split; [done|]. intros c. specialize (Hg c).
      unfold free_balance in Hg at 1. cbn in Hg. rewrite Hf in Hg.
      pose proof (delta_nonneg lp w (initial_share acc x) c dex_account_id). destruct Hsh. lia.
    + intros e. wp_guards. apply wp_modify. eapply wp_mono; [by apply IH| |done]. done.
Qed.

Lemma refund_provisions_wp p l s :
  (forall w x, (w, x) ∈ l -> pair_u128 x) ->
  wp (refund_provisions p l)
    (fun _ t => st_dex t = st_dex s /\
       (forall c, total_issuance c t = total_issuance c s) /\
       forall c acc, free_balance c acc t = free_balance c acc s
         + list_sum (fun w x => pair_delta p w x c acc) l
         - list_sum (fun _ x => pair_delta p dex_account_id x c acc) l)
    (fun _ _ => True) s.
Proof.
  revert s. induction l as [|[w x] l IH]; intros s Hl; cbn [refund_provisions].
  - wp_step. split; [done|]. split; [done|]. intros c acc. unfold list_sum. cbn. lia.
  - pose proof (Hl w x ltac:(set_solver)) as [Hx0 Hx1].
    assert (Hl' : forall w x, (w, x) ∈ l -> pair_u128 x) by set_solver.
    wp_guards. apply wp_transfer; [done| |done]. intros l1 Hf1 Hi1.
    wp_guards. apply wp_transfer; [done| |done]. intros l2 Hf2 Hi2. wp_guards. apply wp_modify.
    eapply wp_mono; [by apply IH| |done]. cbn. intros _ t (-> & Hi & Hf).
    split; [done|]. split.
    + intros c. rewrite Hi. unfold total_issuance at 1. cbn. rewrite Hi2. unfold total_issuance at 1. cbn. apply Hi1.
    + intros c acc. rewrite Hf. unfold free_balance at 1. cbn. rewrite Hf2.
      unfold free_balance at 1. cbn. rewrite Hf1, !list_sum_cons. cbn. unfold pair_delta. lia.
Qed.

Lemma convert_inv p s : dex_inv s ->
  wp (convert_to_enabled_if_possible p) (fun _ => dex_inv) (fun _ _ => False) s.
Proof.
  intros Hinv. unfold convert_to_enabled_if_possible. wp_guards.
  change (trading_pair_statuses p s) with (status_of p (st_dex s)).
  pose proof (wf_status _ (proj1 Hinv) p) as Hst.
  destruct (status_of p (st_dex s)) as [|pp|] eqn:Est; [done| |done].
  destruct Hst as (Hacc & [lp Hid] & Hne). wp_guards. wp_step; [|done].
  wp_guards. apply wp_expect. exists lp. split; [done|].
  unfold drain_provisions. wp_guards. change (provisions p s) with (provs p (st_dex s)).
  pose proof (prov_sum_le p s Hinv Hne) as [Hs0 Hs1].
  pose proof (prov_sum_nonneg p _ (proj1 Hinv)) as [? ?].
  pose proof (free_balance_u128 (st_ledger s) (pair_0 p) dex_account_id) as Hu0.
  pose proof (free_balance_u128 (st_ledger s) (pair_1 p) dex_account_id) as Hu1.
  rewrite <- Hacc in *. destruct Hu0, Hu1.
  assert (Ha : pair_u128 (accumulated_provision pp)) by (unfold pair_u128, is_u128, free_balance in *; lia).
  eapply wp_mono; [apply issue_shares_wp; [done|]| |done].
  { intros w x. apply drained_typed, Hinv. }
  intros n t [Ht Hf]. wp_guards. cbn.
  set (pool := pool_of p (st_dex s)).
  assert (Hpool : liquidity_pool p t = pool).
  { unfold liquidity_pool. rewrite Ht. done. }
  rewrite Hpool. pose proof (dex_typed_pool _ p (wf_pools _ (proj1 Hinv))) as [Hp0 Hp1]. fold pool in Hp0, Hp1.
  apply (inv_by s _ (set_pool p (inject_provision (accumulated_provision pp) pool)
    (set_status p Enabled (clear_provs p (st_dex s)))) Hinv).
  - cbn. by rewrite Ht.
  - apply wf_set_pool.
    + apply wf_clear_provs; [apply Hinv|]. split; [done|]. by split; [exists lp|].
    + destruct Ha. split; [by apply saturating_add_u128|by apply saturating_sub_u128].
  - intros c. rewrite reserves_set_pool, reserves_set_status, reserves_clear_provs.
    change (pool_of p (set_status _ _ _)) with pool.
    rewrite prov_part_sum, <- Hacc. specialize (Hf c). unfold free_balance in *. cbn in *.
    pose proof (saturating_add_le pool.1 (accumulated_provision pp).1).
    assert (U128.saturating_sub pool.2 (accumulated_provision pp).2 <= pool.2)
      by (destruct Hp1, Ha as [_ [? _]]; unfold U128.saturating_sub; lia).
    destruct Ha as [[? _] [? _]]. unfold part, inject_provision. cbn. repeat case_decide; lia.
Qed.
End Drain.

(** ** The calls of the exchange *)
Inductive DexCall :=
  | SwapWithExactSupply (path : list CurrencyId) (supply_amount min_target_amount : Balance)
  | SwapWithExactTarget (path : list CurrencyId) (target_amount max_supply_amount : Balance)
  | AddLiquidityCall (a b : CurrencyId) (max_a max_b min_share : Balance) (stake : bool)
  | RemoveLiquidityCall (a b : CurrencyId) (share min_a min_b : Balance) (by_withdraw : bool)
  | ListTradingPairCall (a b : CurrencyId) (min_a min_b target_a target_b : Balance) (nb : BlockNumber)
  | EnableTradingPairCall (a b : CurrencyId)
  | DisableTradingPairCall (a b : CurrencyId).

Section Calls.
Context `{ConfigLaws}.

Definition dex_dispatch (o : Origin) (call : DexCall) : Run unit :=
  match call with
  | SwapWithExactSupply path x y => swap_with_exact_supply o path x y
  | SwapWithExactTarget path x y => swap_with_exact_target o path x y
  | AddLiquidityCall a b x y m st => add_liquidity o a b x y m st
  | RemoveLiquidityCall a b n x y w => remove_liquidity o a b n x y w
  | ListTradingPairCall a b x y t u nb => list_trading_pair o a b x y t u nb
  | EnableTradingPairCall a b => enable_trading_pair o a b
  | DisableTradingPairCall a b => disable_trading_pair o a b
  end.

(** Amounts are 128-bit, and governance enables no pair of a currency with
    itself (the call, unlike [list_trading_pair], does not refuse it). *)
Definition call_ok (call : DexCall) : Prop :=
  match call with
  | SwapWithExactSupply _ x _ => is_u128 x
  | SwapWithExactTarget _ x _ => is_u128 x
  | AddLiquidityCall _ _ x y _ _ => is_u128 x /\ is_u128 y
  | RemoveLiquidityCall _ _ n _ _ _ => is_u128 n
  | EnableTradingPairCall a b => a <> b
  | _ => True
  end.

Lemma swap_call_inv (f : AccountId -> Run Balance) o s :
  dex_inv s -> TradingPathLimit <= 3 -> o <> Signed dex_account_id ->
  (forall who, wp (f who) (fun r s' => exists ts x y path, swap_result who path ts x y s s')
     (fun _ s' => s' = s) s) ->
  wp (transactional (who ← ensure_signed o; _ ← f who; mret tt)) (fun _ => dex_inv)
    (fun _ s' => s' = s) s.
Proof.
  intros Hinv Hlim Ho Hf. wp_guards. apply wp_signed; [intros who ->|done]. wp_guards.
  eapply wp_mono; [apply Hf| |done]. intros r s' (ts & x & y & path & Hr).
  eapply swap_result_inv; [done|done| |done]. by intros ->.
Qed.

Lemma pair_distinct a b : a <> b -> pair_0 (TradingPair_new a b) <> pair_1 (TradingPair_new a b).
Proof. intros Hne. destruct (TradingPair_new_members a b) as [[-> ->]|[-> ->]]; congruence. Qed.

Lemma add_liquidity_call_inv o a b x y m st s :
  dex_inv s -> o <> Signed dex_account_id -> is_u128 x -> is_u128 y ->
  wp (add_liquidity o a b x y m st) (fun _ => dex_inv) (fun _ s' => s' = s) s.
Proof.
  intros Hinv Ho Hx Hy. unfold add_liquidity. wp_guards. apply wp_signed; [intros who ->|done].
  assert (who <> dex_account_id) by (by intros ->). wp_guards. wp_branch; [done|..].
  - wp_guards. eapply wp_mono; [by apply add_provision_inv| |done]. intros [] t Ht.
    eapply wp_mono; [by apply convert_inv|done|done].
  - eapply wp_mono; [by apply add_liquidity_inv|done|done].
Qed.

Lemma remove_liquidity_call_inv o a b n x y w s :
  dex_inv s -> o <> Signed dex_account_id -> is_u128 n ->
  wp (remove_liquidity o a b n x y w) (fun _ => dex_inv) (fun _ s' => s' = s) s.
Proof.
  intros Hinv Ho Hn. unfold remove_liquidity. wp_guards. apply wp_signed; [intros who ->|done].
  assert (who <> dex_account_id) by (by intros ->). wp_guards.
  eapply wp_mono; [apply remove_liquidity_wp; [apply Hinv|done|done]| |done].
  intros _ t [[_ ->]|[_ Hr]]; [done|]. by eapply removed_inv.
Qed.

Lemma map_erc20_wp c Q R s :
  (forall m, Q tt (set_mapping m s)) -> (forall e, R e s) -> wp (map_erc20 c) Q R s.
Proof.
  intros HQ HR. assert (Hs : set_mapping (st_mapping s) s = s) by (by destruct s).
  pose proof (HQ (st_mapping s)) as Hid. rewrite Hs in Hid.
  destruct c as [|?|address|]; try exact Hid.
  unfold map_erc20, wp, set_erc20_mapping. destruct (map_set_erc20_mapping address _); auto.
Qed.

(** Only the status changed, and the pair keeps no contributions. *)
Lemma status_inv s s' p st : dex_inv s -> st_dex s' = set_status p st (st_dex s) ->
  st_ledger s' = st_ledger s -> status_ok p st (provs p (st_dex s)) -> dex_inv s'.
Proof.
  intros Hinv Hd Hl Hst. apply (inv_by s s' _ Hinv Hd).
  - apply wf_set_status; [apply Hinv|done].
  - intros c. rewrite reserves_set_status. unfold free_balance. rewrite Hl. lia.
Qed.

Lemma list_call_inv o a b x y t u nb s : dex_inv s ->
  wp (list_trading_pair o a b x y t u nb) (fun _ => dex_inv) (fun _ s' => s' = s) s.
Proof.
  intros Hinv. unfold list_trading_pair, ensure_origin. wp_guards.
  rename Hopt into Hp, Hens0 into Hab. pose proof (from_token_currency_ids_new _ _ _ Hp) as ->.
  set (p := TradingPair_new a b) in *. apply negb_true_iff, bool_decide_eq_false in Hab.
  apply map_erc20_wp; [|done]. intros m1. wp_guards. apply map_erc20_wp; [|done]. intros m2.
  wp_guards. cbn. eapply (status_inv s _ p); [done|reflexivity|done|].
  assert (provs p (st_dex s) = ∅) as ->.
  { pose proof (wf_status _ (proj1 Hinv) p) as Hst.
    change (trading_pair_statuses p s) with (status_of p (st_dex s)) in Hens1.
    by destruct (status_of p (st_dex s)). }
  split; [done|]. split; [by eexists|]. by apply pair_distinct.
Qed.

Lemma enable_call_inv o a b s : dex_inv s -> a <> b ->
  wp (enable_trading_pair o a b) (fun _ => dex_inv) (fun _ s' => s' = s) s.
Proof.
  intros Hinv Hab. unfold enable_trading_pair, ensure_origin. wp_guards.
  rename Hopt into Hp. pose proof (from_token_currency_ids_shares _ _ _ Hp).
  pose proof (from_token_currency_ids_new _ _ _ Hp) as ->. set (p := TradingPair_new a b) in *. cbn.
  eapply (status_inv s _ p); [done|reflexivity|done|].
  pose proof (wf_status _ (proj1 Hinv) p) as Hst.
  change (trading_pair_statuses p s) with (status_of p (st_dex s)) in *.
  destruct (status_of p (st_dex s)); try done. split; [done|]. split; [done|]. by apply pair_distinct.
Qed.

Lemma disable_call_inv o a b s : dex_inv s ->
  wp (disable_trading_pair o a b) (fun _ => dex_inv) (fun _ s' => s' = s) s.
Proof.
  intros Hinv. unfold disable_trading_pair, ensure_origin. wp_guards.
  pose proof (wf_status _ (proj1 Hinv) a0) as Hst. rename a0 into p.
  change (trading_pair_statuses p s) with (status_of p (st_dex s)).
  destruct (status_of p (st_dex s)) as [|pp|] eqn:Est; [done|..].
  - unfold drain_provisions. wp_guards. change (provisions p s) with (provs p (st_dex s)).
    eapply wp_mono; [apply refund_provisions_wp| |done].
    { intros w x. apply drained_typed, Hinv. }
    intros _ t (Ht & _ & Hf). wp_guards. cbn.
    apply (inv_by s _ (clear_status p (clear_provs p (st_dex s))) Hinv).
    + cbn. by rewrite Ht.
    + apply wf_clear_pair, Hinv.
    + intros c. rewrite reserves_clear_status, reserves_clear_provs.
      specialize (Hf c dex_account_id). unfold free_balance in *. cbn in Hf |- *. rewrite Hf.
      rewrite !drained_sum. rewrite (map_sum_ext (fun _ x => pair_delta p dex_account_id x c dex_account_id)
        (fun _ => part c p)) by (intros; apply pair_delta_self).
      assert (0 <= map_sum (fun w x => pair_delta p w x c dex_account_id) (provs p (st_dex s))).
      { apply map_sum_nonneg. intros w x Hx. apply (wf_provs _ (proj1 Hinv) p) in Hx as [[? _] [? _]].
        unfold pair_delta. pose proof (delta_nonneg (pair_0 p) w x.1 c dex_account_id).
        pose proof (delta_nonneg (pair_1 p) w x.2 c dex_account_id). lia. }
      unfold prov_part. lia.
  - wp_guards. cbn. eapply (status_inv s _ p); [done|reflexivity|done|]. apply Hst.
Qed.
End Calls.

(** ** The life cycle of a trading pair *)
Section LifeCycle.
Context `{ConfigLaws}.

(** What one call can do to the status of a pair; [governed] says whether the
    caller may list pairs. *)
Inductive pair_step (governed : bool) (now : BlockNumber)
    : TradingPairStatus -> TradingPairStatus -> Prop :=
  | step_same st : pair_step governed now st st
  | step_list pp : governed = true -> accumulated_provision pp = (0, 0) ->
      pair_step governed now NotEnabled (Provisioning pp)
  | step_enable : governed = true -> pair_step governed now NotEnabled Enabled
  | step_contribute pp c : pair_step governed now (Provisioning pp) (Provisioning (add_accumulated pp c))
  | step_convert pp c : provision_complete (add_accumulated pp c) now = true ->
      pair_step governed now (Provisioning pp) Enabled
  | step_disable st : governed = true -> st <> NotEnabled -> pair_step governed now st NotEnabled.

Lemma step_set g now p q st d : pair_step g now (status_of p d) st ->
  pair_step g now (status_of q d) (status_of q (set_status p st d)).
Proof. rewrite status_of_set. case_decide as E; [by rewrite E|]. constructor. Qed.

(** Ledger calls leave the storage of the exchange and the block alone. *)
Definition same_dex (s t : State) : Prop :=
  st_dex t = st_dex s /\ st_env t = st_env s.
Lemma same_dex_trans s t u : same_dex s t -> same_dex t u -> same_dex s u.
Proof. intros [E1 E2] [E3 E4]. split; congruence. Qed.
Lemma lift_ledger_dex f s u t : lift_ledger f s = (Ok u, t) -> same_dex s t.
Proof. intros (l & _ & ->)%lift_ledger_Ok. done. Qed.
Lemma issue_shares_dex lp acc l n s r t : issue_shares lp acc l n s = (Ok r, t) -> same_dex s t.
Proof.
  revert n s. induction l as [|[w x] l IH]; intros n s; cbn [issue_shares]; intros Hr.
  - by minv Hr.
  - apply bind_Ok_inv in Hr as (res & u & Hd & Hr). apply bind_Ok_inv in Hr as ([] & v & Hv & Hr).
    apply IH in Hr. eapply same_dex_trans; [|exact Hr]. injection Hv as <-.
    unfold attempt in Hd. destruct (deposit lp w _ s) as [[[]|e|] u'] eqn:E; try discriminate;
      injection Hd as _ <-.
    + by apply lift_ledger_dex in E.
    + unfold deposit, lift_ledger in E. destruct (cur_deposit _ _ _ _); [done|]. by injection E as _ <-.
Qed.
Lemma deposit_share_dex who c n s u t : do_deposit_dex_share who c n s = (Ok u, t) -> same_dex s t.
Proof.
  unfold do_deposit_dex_share. destruct (inc_deposit_dex_share _ _ _ _) as [[l i]|]; [|done].
  intros [= _ <-]. done.
Qed.
Lemma inc_consumers_dex who s u t : inc_consumers who s = (Ok u, t) -> same_dex s t.
Proof. intros [= _ <-]. by destruct (sys_inc_consumers who _). Qed.
Lemma map_erc20_dex c s u t : map_erc20 c s = (Ok u, t) -> same_dex s t.
Proof.
  destruct c; cbn; try by intros [= _ <-].
  unfold set_erc20_mapping. destruct (map_set_erc20_mapping _ _); [|done]. by intros [= _ <-].
Qed.

Lemma apply_swaps_status p path ts d : status_of p (apply_swaps path ts d) = status_of p d.
Proof.
  revert ts d. induction path as [|a [|b path] IH]; intros [|x [|y ts]] d; try done.
  change (apply_swaps (a :: b :: path) (x :: y :: ts) d)
    with (apply_swaps (b :: path) (y :: ts) (swap_dex a b x y d)).
  rewrite IH. unfold swap_dex. by destruct (from_token_currency_ids a b).
Qed.

Ltac ok_inj Hr := first [injection Hr as _ <- | injection Hr as <-].
Ltac frame :=
  repeat match goal with
  | Hr : transfer _ _ _ _ _ = (Ok _, _) |- _ => apply lift_ledger_dex in Hr as [? ?]
  | Hr : deposit _ _ _ _ = (Ok _, _) |- _ => apply lift_ledger_dex in Hr as [? ?]
  | Hr : do_deposit_dex_share _ _ _ _ = (Ok _, _) |- _ => apply deposit_share_dex in Hr as [? ?]
  | Hr : map_erc20 _ _ = (Ok _, _) |- _ => apply map_erc20_dex in Hr as [? ?]
  | Hr : issue_shares _ _ _ _ _ = (Ok _, _) |- _ => apply issue_shares_dex in Hr as [? ?]
  | Hr : (if ?b then _ else _) _ = (Ok _, _) |- _ => destruct b; minv Hr
  | Hr : deposit_event _ _ = (Ok _, _) |- _ => ok_inj Hr
  | Hr : inc_consumers _ _ = (Ok _, _) |- _ => apply inc_consumers_dex in Hr as [? ?]
  | Hr : dec_consumers _ _ = (Ok _, _) |- _ => ok_inj Hr
  | Hr : put_pool _ _ _ = (Ok _, _) |- _ => ok_inj Hr
  | Hr : put_status _ _ _ = (Ok _, _) |- _ => ok_inj Hr
  | Hr : remove_status _ _ = (Ok _, _) |- _ => ok_inj Hr
  | Hr : put_provisions _ _ _ = (Ok _, _) |- _ => ok_inj Hr
  end; cbn [TradingPairStatuses st_dex st_env set_dex set_events set_system set_ledger with_dex] in *.

Lemma add_liquidity_status who a b x y m st s u t :
  do_add_liquidity who a b x y m st s = (Ok u, t) ->
  TradingPairStatuses (st_dex t) = TradingPairStatuses (st_dex s).
Proof.
  intros Hr. unfold do_add_liquidity in Hr. minv Hr; subst; frame; cbn; congruence.
Qed.
Lemma add_provision_status who a b x y s u t :
  do_add_provision who a b x y s = (Ok u, t) ->
  st_env t = st_env s /\ exists pp c,
    let p := TradingPair_new a b in
    status_of p (st_dex s) = Provisioning pp /\
    TradingPairStatuses (st_dex t) =
      <[p := Provisioning (add_accumulated pp c)]> (TradingPairStatuses (st_dex s)).
Proof.
  intros Hr. unfold do_add_provision in Hr. minv Hr; subst.
  all: frame; split; [congruence|]; 
    exists p, (sort_amounts a (TradingPair_new a b) x y); split; [exact Hmatch|congruence].
Qed.
Lemma convert_status p s u t :
  convert_to_enabled_if_possible p s = (Ok u, t) ->
  TradingPairStatuses (st_dex t) = TradingPairStatuses (st_dex s) \/
  exists pp, status_of p (st_dex s) = Provisioning pp /\
    provision_complete pp (block_number (st_env s)) = true /\
    TradingPairStatuses (st_dex t) = <[p := Enabled]> (TradingPairStatuses (st_dex s)).
Proof.
  intros Hr. unfold convert_to_enabled_if_possible in Hr.
  apply bind_Ok_inv in Hr as (st & t0 & Hst & Hr). apply gets_Ok in Hst as [-> ->].
  change (trading_pair_statuses p s) with (status_of p (st_dex s)) in *.
  destruct (status_of p (st_dex s)) as [|pp|] eqn:Est; [left; by minv Hr| |left; by minv Hr].
  apply bind_Ok_inv in Hr as (now & t0 & Hnow & Hr). apply gets_Ok in Hnow as [-> ->].
  destruct (provision_complete pp _) eqn:Ec; [right|left; by minv Hr].
  exists pp. split; [done|]. split; [done|].
  unfold drain_provisions in Hr. destruct (get_dex_share_currency_id p) as [lp|]; [|by minv Hr].
  minv Hr; subst. injection Hm as _ <-. frame. by rewrite H1.
Qed.

Lemma status_of_eq p d d' : TradingPairStatuses d' = TradingPairStatuses d -> status_of p d' = status_of p d.
Proof. unfold status_of. by intros ->. Qed.
Lemma status_of_insert p q st d d' :
  TradingPairStatuses d' = <[p := st]> (TradingPairStatuses d) ->
  status_of q d' = if decide (q = p) then st else status_of q d.
Proof. intros E. rewrite <- (status_of_set p q st d). by apply status_of_eq. Qed.

Lemma step_insert g now q p st d d' :
  pair_step g now (status_of q d) st ->
  TradingPairStatuses d' = <[q := st]> (TradingPairStatuses d) ->
  pair_step g now (status_of p d) (status_of p d').
Proof.
  intros Hst E. rewrite (status_of_insert _ _ _ _ _ E).
  case_decide as Eq; [by rewrite Eq|constructor].
Qed.
Lemma add_call_step o a b x y m st s s' p :
  add_liquidity o a b x y m st s = (Ok tt, s') ->
  pair_step (ListingOrigin o) (block_number (st_env s)) (status_of p (st_dex s)) (status_of p (st_dex s')).
Proof.
  intros Hr. unfold add_liquidity in Hr. apply (proj1 (transactional_Ok _ _ _ _)) in Hr.
  apply bind_Ok_inv in Hr as (who & t & Ho & Hr).
  assert (t = s) as -> by (destruct o; [discriminate Ho|by injection Ho|discriminate Ho]).
  apply bind_Ok_inv in Hr as (q & t & Hq & Hr). apply ok_or_Ok in Hq as [Hq ->].
  apply from_token_currency_ids_new in Hq as ->.
  apply bind_Ok_inv in Hr as (st0 & t & Hst & Hr). apply gets_Ok in Hst as [-> ->].
  destruct (trading_pair_statuses _ s) eqn:Est; [by minv Hr| |].
  - apply bind_Ok_inv in Hr as ([] & t & Ha & Hc).
    apply add_provision_status in Ha as (He & pp & c & Hs & Ht). cbv zeta in Hs, Ht.
    assert (Ets : status_of (TradingPair_new a b) (st_dex t) = Provisioning (add_accumulated pp c)).
    { rewrite (status_of_insert _ _ _ _ _ Ht). by rewrite decide_True. }
    apply convert_status in Hc as [Hc|(pp' & Hpp & Hcomp & Hc)].
    + rewrite (status_of_eq _ _ _ Hc), (status_of_insert _ _ _ _ _ Ht).
      case_decide as E; [|constructor]. rewrite E, Hs. constructor.
    + rewrite (status_of_insert _ _ _ _ _ Hc), (status_of_insert _ _ _ _ _ Ht).
      case_decide as E; [|constructor]. rewrite E, Hs.
      rewrite Ets in Hpp. injection Hpp as <-. rewrite He in Hcomp. by econstructor.
  - apply add_liquidity_status in Hr. rewrite (status_of_eq _ _ _ Hr). constructor.
Qed.

Lemma swap_result_status who path ts x y s s' p :
  swap_result who path ts x y s s' -> status_of p (st_dex s') = status_of p (st_dex s).
Proof. intros (_ & _ & _ & _ & a & z & l & _ & _ & -> & _). cbn. apply apply_swaps_status. Qed.

Lemma swap_call_step (f : AccountId -> Run Balance) o s s' p :
  (forall who, wp (f who) (fun r s' => exists ts x y path, swap_result who path ts x y s s')
     (fun _ s' => s' = s) s) ->
  transactional (who ← ensure_signed o; _ ← f who; mret tt) s = (Ok tt, s') ->
  status_of p (st_dex s') = status_of p (st_dex s).
Proof.
  intros Hf Hr. apply (proj1 (transactional_Ok _ _ _ _)) in Hr.
  apply bind_Ok_inv in Hr as (who & t & Ho & Hr).
  assert (t = s) as -> by (destruct o; [discriminate Ho|by injection Ho|discriminate Ho]).
  apply bind_Ok_inv in Hr as (r & t & Hx & Hr). minv Hr.
  apply (wp_ok _ _ _ _ _ _ (Hf who)) in Hx as (ts & x & y & path & Hres).
  by eapply swap_result_status.
Qed.
Lemma swap_supply_result who path x m limit s : dex_typed (st_dex s) -> is_u128 x ->
  wp (do_swap_with_exact_supply who path x m limit)
    (fun r s' => exists ts x y path, swap_result who path ts x y s s') (fun _ s' => s' = s) s.
Proof.
  intros Ht Hx. eapply wp_mono; [by apply do_swap_with_exact_supply_wp| |done].
  intros r t (_ & _ & ts & Hr & _). eauto.
Qed.
Lemma swap_target_result who path x m limit s : dex_typed (st_dex s) -> is_u128 x ->
  wp (do_swap_with_exact_target who path x m limit)
    (fun r s' => exists ts x y path, swap_result who path ts x y s s') (fun _ s' => s' = s) s.
Proof.
  intros Ht Hx. eapply wp_mono; [by apply do_swap_with_exact_target_wp| |done].
  intros r t (_ & _ & ts & Hr & _). eauto.
Qed.

Lemma remove_call_step o a b n x y w s s' p :
  dex_typed (st_dex s) -> o <> Signed dex_account_id -> is_u128 n ->
  remove_liquidity o a b n x y w s = (Ok tt, s') ->
  status_of p (st_dex s') = status_of p (st_dex s).
Proof.
  intros Ht Hsig Hn Hr. apply (proj1 (transactional_Ok _ _ _ _)) in Hr.
  apply bind_Ok_inv in Hr as (who & t & Ho & Hr).
  assert (t = s /\ who <> dex_account_id) as [-> Hwho]
    by (destruct o; [discriminate Ho|injection Ho as -> ->; split; congruence|discriminate Ho]).
  apply (wp_ok _ _ _ _ _ _ (remove_liquidity_wp who a b n x y w s Ht Hwho Hn)) in Hr as [[_ ->]|[_ Hr]]; [done|].
  destruct Hr as (lp & x0 & x1 & l & i & _ & _ & _ & _ & _ & _ & Hd & _). by rewrite Hd.
Qed.

Lemma list_call_step o a b x y t0 u nb s s' p :
  list_trading_pair o a b x y t0 u nb s = (Ok tt, s') ->
  pair_step (ListingOrigin o) (block_number (st_env s)) (status_of p (st_dex s)) (status_of p (st_dex s')).
Proof.
  intros Hr. unfold list_trading_pair, ensure_origin in Hr. minv Hr; subst. frame.
  match goal with Hc : is_not_enabled _ = true |- _ => rename Hc into Hn end.
  match goal with Hc : from_token_currency_ids _ _ = Some _ |- _ => rename Hc into Hp end.
  apply (step_insert _ _ a2 p (Provisioning (mkProvision (sort_amounts a a2 x y)
    (sort_amounts a a2 t0 u) (0, 0) nb))); [|cbn; by rewrite H1, H3].
  change (trading_pair_statuses a2 s) with (status_of a2 (st_dex s)) in Hn.
  destruct (status_of a2 (st_dex s)); try done. by constructor.
Qed.

Lemma refund_dex p l s u t : refund_provisions p l s = (Ok u, t) -> same_dex s t.
Proof.
  revert s. induction l as [|[w x] l IH]; intros s; cbn [refund_provisions]; intros Hr.
  - by minv Hr.
  - minv Hr. apply IH in Hr as [? ?]. frame. split; congruence.
Qed.
Lemma enable_call_step o a b s s' p :
  enable_trading_pair o a b s = (Ok tt, s') ->
  pair_step (ListingOrigin o) (block_number (st_env s)) (status_of p (st_dex s)) (status_of p (st_dex s')).
Proof.
  intros Hr. unfold enable_trading_pair, ensure_origin in Hr. minv Hr; subst. frame.
  apply (step_insert _ _ a1 p Enabled); [|done].
  change (trading_pair_statuses a1 s) with (status_of a1 (st_dex s)) in Hm1.
  destruct (status_of a1 (st_dex s)); try done. by constructor.
Qed.
Lemma disable_call_step o a b s s' p :
  disable_trading_pair o a b s = (Ok tt, s') ->
  pair_step (ListingOrigin o) (block_number (st_env s)) (status_of p (st_dex s)) (status_of p (st_dex s')).
Proof.
  intros Hr. unfold disable_trading_pair, ensure_origin in Hr. apply (proj1 (transactional_Ok _ _ _ _)) in Hr.
  apply bind_Ok_inv in Hr as ([] & t & Ho & Hr). apply ensure_Ok in Ho as [Ho ->].
  apply bind_Ok_inv in Hr as (q & t & Hq & Hr). apply ok_or_Ok in Hq as [_ ->].
  apply bind_Ok_inv in Hr as (st0 & t & Hst & Hr). apply gets_Ok in Hst as [-> ->].
  change (trading_pair_statuses q s) with (status_of q (st_dex s)) in Hr.
  destruct (status_of q (st_dex s)) eqn:Est; [by minv Hr| |].
  - unfold drain_provisions in Hr. minv Hr. apply refund_dex in Hm as [Hd _]. frame.
    subst. frame. rewrite Hd.
    change (pair_step (ListingOrigin o) (block_number (st_env s)) (status_of p (st_dex s))
      (status_of p (clear_status q (clear_provs q (st_dex s))))).
    rewrite status_of_clear. case_decide as E; [|constructor]. rewrite E, Est. by constructor.
  - minv Hr. frame. apply (step_insert _ _ q p NotEnabled); [|done]. rewrite Est. by constructor.
Qed.
End LifeCycle.

(** ** Claims *)
Section Claims.
Context `{ConfigLaws}.

(** C1: the exchange stays solvent and well formed.  From a state that
    satisfies the invariant [dex_inv] - every pool and contribution is a
    128-bit amount, a listed or enabled pair joins two different currencies
    with a liquidity token, the accumulated provision of a pair is the sum of
    its contributions, and for every currency the exchange's account holds at
    least what all pools and provisions together owe - every call of the
    pallet by anyone but the exchange's own account either restores the
    invariant or fails without a trace, and never panics. *)
Theorem dex_calls_safe o call s :
  TradingPathLimit <= 3 -> o <> Signed dex_account_id -> call_ok call -> dex_inv s ->
  wp (dex_dispatch o call) (fun _ => dex_inv) (fun _ s' => s' = s) s.
Proof.
  intros Hlim Ho Hok Hinv. pose proof (wf_pools _ (proj1 Hinv)) as Ht.
  destruct call; cbn [dex_dispatch call_ok] in *.
  - apply (swap_call_inv (fun who => do_swap_with_exact_supply who _ _ _ None)); try done.
    intros who. by apply swap_supply_result.
  - apply (swap_call_inv (fun who => do_swap_with_exact_target who _ _ _ None)); try done.
    intros who. by apply swap_target_result.
  - destruct Hok. by apply add_liquidity_call_inv.
  - by apply remove_liquidity_call_inv.
  - by apply list_call_inv.
  - by apply enable_call_inv.
  - by apply disable_call_inv.
Qed.

(** The status of a pair moves only along its life cycle: a pair that is
    not enabled is listed (with nothing accumulated) or enabled, and only by
    the listing origin; a pair in provisioning accumulates a contribution, or
    turns enabled when the accumulated provision is complete after the
    block [not_before]; and only the listing origin ends either stage. *)
Theorem pair_life_cycle o call s s' p :
  dex_typed (st_dex s) -> o <> Signed dex_account_id -> call_ok call ->
  dex_dispatch o call s = (Ok tt, s') ->
  pair_step (ListingOrigin o) (block_number (st_env s))
    (status_of p (st_dex s)) (status_of p (st_dex s')).
Proof.
  intros Ht Hsig Hok Hr. destruct call; cbn [dex_dispatch call_ok] in *.
  - apply (swap_call_step (fun who => do_swap_with_exact_supply who path supply_amount min_target_amount None)
      o s s' p) in Hr; [rewrite Hr; constructor|]. intros who. by apply swap_supply_result.
  - apply (swap_call_step (fun who => do_swap_with_exact_target who path target_amount max_supply_amount None)
      o s s' p) in Hr; [rewrite Hr; constructor|]. intros who. by apply swap_target_result.
  - by eapply add_call_step.
  - apply (remove_call_step _ _ _ _ _ _ _ _ _ p) in Hr; [rewrite Hr; constructor|done|done|done].
  - by eapply list_call_step.
  - by eapply enable_call_step.
  - by eapply disable_call_step.
Qed.

(** Removing liquidity pays pro rata.  A successful removal of a nonzero
    share pays, of each side of the pool, at most the pool, at least the
    stated minimum, and the fraction [share / issuance] of it up to the
    rounding of the two fixed-point operations; the pool loses exactly what
    is paid, and the share is burned. *)
Theorem remove_liquidity_pro_rata who a b share min_a min_b by_withdraw s s' :
  dex_typed (st_dex s) -> who <> dex_account_id -> is_u128 share -> share <> 0 ->
  do_remove_liquidity who a b share min_a min_b by_withdraw s = (Ok tt, s') ->
  let p := TradingPair_new a b in
  removed who p share (sort_amounts a p min_a min_b) s s'.
Proof.
  intros Ht Hwho Hs Hne Hr p.
  apply (wp_ok _ _ _ _ _ _ (remove_liquidity_wp who a b share min_a min_b by_withdraw s Ht Hwho Hs)) in Hr.
  destruct Hr as [[? _]|[_ Hr]]; [done|exact Hr].
Qed.

(** Disabling a pair in provisioning refunds everyone: each account gets
    back exactly its own contribution in both currencies, no issuance
    changes, and the pair is left without contributions or status. *)
Theorem disable_refunds_contributors o a b pp s s' :
  let p := TradingPair_new a b in
  dex_inv s -> status_of p (st_dex s) = Provisioning pp ->
  disable_trading_pair o a b s = (Ok tt, s') ->
  (forall c acc, acc <> dex_account_id ->
     free_balance c acc s' = free_balance c acc s
       + part c p (default (0, 0) (provs p (st_dex s) !! acc))) /\
  (forall c, total_issuance c s' = total_issuance c s) /\
  provs p (st_dex s') = ∅ /\ status_of p (st_dex s') = NotEnabled.
Proof.
  intros p Hinv Hst Hr. unfold disable_trading_pair, ensure_origin in Hr.
  apply (proj1 (transactional_Ok _ _ _ _)) in Hr.
  apply bind_Ok_inv in Hr as ([] & t & Ho & Hr). apply ensure_Ok in Ho as [_ ->].
  apply bind_Ok_inv in Hr as (q & t & Hq & Hr). apply ok_or_Ok in Hq as [Hq ->].
  apply from_token_currency_ids_new in Hq. fold p in Hq. subst q.
  apply bind_Ok_inv in Hr as (st0 & t & Hst0 & Hr). apply gets_Ok in Hst0 as [-> ->].
  change (trading_pair_statuses p s) with (status_of p (st_dex s)) in Hr. rewrite Hst in Hr.
  unfold drain_provisions in Hr. minv Hr. destruct a0.
  apply (wp_ok _ _ _ _ _ _ (refund_provisions_wp p _ _ (fun w x => drained_typed _ p w x (proj1 Hinv)))) in Hm
    as (Hd & Hi & Hf).
  injection Hm0 as <-. injection Hr as <-. subst. split; [|split; [|split]].
  - intros c acc Hacc. transitivity (free_balance c acc t); [done|]. rewrite Hf.
    change (free_balance c acc (with_dex _ s)) with (free_balance c acc s).
    change (provisions p s) with (provs p (st_dex s)). rewrite !drained_sum.
    rewrite (map_sum_zero (fun _ x => pair_delta p dex_account_id x c acc))
      by (intros; by apply pair_delta_ne).
    rewrite (map_sum_single (fun w x => pair_delta p w x c acc) _ acc)
      by (intros; by apply pair_delta_ne).
    destruct (provs p (st_dex s) !! acc); cbn; [rewrite pair_delta_self|rewrite part_zero]; lia.
  - intros c. transitivity (total_issuance c t); [done|]. rewrite Hi. done.
  - unfold provs. cbn. rewrite Hd. cbn. by rewrite lookup_delete_eq.
  - unfold status_of. cbn. rewrite Hd. cbn. by rewrite lookup_delete_eq.
Qed.

(** What happens when the provisioning of a new pair completes: the pair
    is enabled, but its pool gets the accumulated provision of the first
    currency only; the reserve of the second one is zero, so no swap through
    the pair can be quoted until liquidity is added. *)
Theorem conversion_loses_second_reserve a b pp x limit s s' :
  let p := TradingPair_new a b in
  dex_inv s -> status_of p (st_dex s) = Provisioning pp ->
  provision_complete pp (block_number (st_env s)) = true ->
  pool_of p (st_dex s) = (0, 0) ->
  convert_to_enabled_if_possible p s = (Ok tt, s') ->
  status_of p (st_dex s') = Enabled /\
  pool_of p (st_dex s') = ((accumulated_provision pp).1, 0) /\
  0 < (accumulated_provision pp).2 /\
  target_hop a b x limit s' = Err (DexE DexError.InsufficientLiquidity).
Proof.
  intros p Hinv Hst Hc Hpool Hr. unfold convert_to_enabled_if_possible in Hr.
  apply bind_Ok_inv in Hr as (st0 & t & Hst0 & Hr). apply gets_Ok in Hst0 as [-> ->].
  change (trading_pair_statuses p s) with (status_of p (st_dex s)) in Hr. rewrite Hst in Hr.
  apply bind_Ok_inv in Hr as (now & t & Hnow & Hr). apply gets_Ok in Hnow as [-> ->].
  rewrite Hc in Hr. unfold drain_provisions in Hr.
  pose proof (wf_status _ (proj1 Hinv) p) as Hok. rewrite Hst in Hok. destruct Hok as (Hacc & [lp Hlp] & Hne).
  rewrite Hlp in Hr. minv Hr. injection Hm as _ <-. apply issue_shares_dex in Hm0 as [Hd _].
  assert (Hpt : liquidity_pool p t0 = (0, 0)) by (unfold liquidity_pool; by rewrite Hd).
  rewrite Hpt in Hm1. injection Hm1 as _ Hm1. injection Hm2 as _ Hm2. injection Hr as Hr.
  pose proof (prov_sum_le p s Hinv Hne) as [Hb0 Hb1]. rewrite <- Hacc in Hb0, Hb1.
  pose proof (prov_sum_nonneg p _ (proj1 Hinv)) as [Hn0 Hn1]. rewrite <- Hacc in Hn0, Hn1.
  pose proof (free_balance_u128 (st_ledger s) (pair_0 p) dex_account_id) as [_ Hb2].
  unfold provision_complete in Hc. rewrite !andb_true_iff, !negb_true_iff, !Z.eqb_neq in Hc.
  destruct Hc as [[[_ Hz0] Hz1] _].
  assert (Hinj : inject_provision (accumulated_provision pp) (0, 0) = ((accumulated_provision pp).1, 0)).
  { unfold inject_provision. cbn. rewrite saturating_add_exact by (unfold free_balance in *; lia).
    unfold U128.saturating_sub. f_equal; lia. }
  rewrite Hinj in Hm1. clear Hinj.
  assert (Hp' : LiquidityPool (st_dex s') = <[p := ((accumulated_provision pp).1, 0)]> (LiquidityPool (st_dex t0)))
    by (by rewrite <- Hr, <- Hm2, <- Hm1).
  assert (Hs' : TradingPairStatuses (st_dex s') = <[p := Enabled]> (TradingPairStatuses (st_dex t0)))
    by (by rewrite <- Hr, <- Hm2, <- Hm1).
  assert (Hpool' : pool_of p (st_dex s') = ((accumulated_provision pp).1, 0))
    by (unfold pool_of; by rewrite Hp', lookup_insert_eq).
  assert (Hst' : status_of p (st_dex s') = Enabled)
    by (unfold status_of; by rewrite Hs', lookup_insert_eq).
  split_and!; [done|done|lia|]. unfold target_hop. fold p.
  change (trading_pair_statuses p s') with (status_of p (st_dex s')). rewrite Hst'.
  rewrite get_liquidity_oriented. fold p. rewrite Hpool'.
  unfold oriented. cbn. case_decide; cbn; rewrite ?andb_false_r; done.
Qed.
End Claims.

(** ** A runtime the claims apply to *)
#[local] Existing Instance sample.
#[local] Existing Instance sample_laws.

Lemma initial_inv bs prices : dex_inv (sample_state bs prices).
Proof.
  split.
  - split; [by intros p x|by intros p who x|]. intros p. done.
  - intros c. unfold reserves, pool_reserves, prov_reserves. cbn [st_dex sample_state sample_state_with LiquidityPool ProvisioningPool].
    rewrite !map_sum_empty. pose proof (free_balance_u128 (st_ledger (sample_state bs prices)) c dex_account_id) as [? _].
    unfold free_balance. lia.
Qed.
(** An invariant that errors do not touch survives any run. *)
Lemma inv_run {E S A} (I : S -> Prop) (m : M E S A) s :
  wp m (fun _ => I) (fun _ s' => s' = s) s -> I s -> I (m s).2.
Proof. unfold wp. destruct (m s) as [[a|e|] s']; cbn; [done|by intros ->|done]. Qed.

Ltac sample_inv :=
  repeat first
    [ apply inv_run; [apply add_liquidity_call_inv; [|discriminate|wcheck|wcheck]|]
    | apply inv_run; [apply enable_call_inv; [|discriminate]|]
    | apply inv_run; [apply list_call_inv|]
    | apply initial_inv ].
Lemma pools_sample_inv : dex_inv pools_sample.
Proof.
  unfold pools_sample. sample_inv.
Qed.

(** A pair in provisioning with two contributors. *)
Definition listed_sample : State :=
  let s := sample_state
    [(Token AUSD, alice, 10000000); (Token DOT, alice, 10000000);
     (Token AUSD, bob, 100000); (Token DOT, bob, 100000)] (fun _ => Some DIV) in
  let s := (list_trading_pair Root (Token DOT) (Token AUSD) 10 100 1000 10000 0 s).2 in
  let s := (add_liquidity (Signed alice) (Token AUSD) (Token DOT) 5000 100 0 false s).2 in
  (add_liquidity (Signed bob) (Token DOT) (Token AUSD) 40 0 0 false s).2.
Lemma listed_sample_inv : dex_inv listed_sample.
Proof.
  unfold listed_sample. sample_inv.
Qed.

Lemma dex_calls_safe_witness :
  wp (dex_dispatch (Signed bob) (SwapWithExactSupply [Token DOT; Token AUSD; Token DOT] 1000 1))
    (fun _ => dex_inv) (fun _ s' => s' = pools_sample) pools_sample.
Proof.
  apply (dex_calls_safe (Signed bob) (SwapWithExactSupply [Token DOT; Token AUSD; Token DOT] 1000 1) pools_sample).
  - wcheck.
  - discriminate.
  - wcheck.
  - apply pools_sample_inv.
Defined.

Lemma pair_life_cycle_witness :
  let call := AddLiquidityCall (Token AUSD) (Token DOT) 5000 100 0 false in
  let p := TradingPair_new (Token AUSD) (Token DOT) in
  let run := dex_dispatch (Signed alice) call listed_sample in
  pair_step (ListingOrigin (Signed alice)) (block_number (st_env listed_sample))
    (status_of p (st_dex listed_sample)) (status_of p (st_dex run.2)).
Proof.
  intros call p run.
  apply (pair_life_cycle (Signed alice) call listed_sample run.2 p).
  - apply (wf_pools _ (proj1 listed_sample_inv)).
  - discriminate.
  - wcheck.
  - apply run_split. vm_compute. reflexivity.
Defined.

Lemma remove_liquidity_pro_rata_witness :
  let p := TradingPair_new (Token DOT) (Token AUSD) in
  let run := do_remove_liquidity alice (Token DOT) (Token AUSD) 100000 0 0 false pools_sample in
  removed alice p 100000 (0, 0) pools_sample run.2.
Proof.
  intros p run.
  apply (remove_liquidity_pro_rata alice (Token DOT) (Token AUSD) 100000 0 0 false pools_sample run.2
    pools_sample_typed); [done|wcheck|wcheck|].
  apply run_split. vm_compute. reflexivity.
Defined.

Lemma disable_refunds_contributors_witness :
  let run := disable_trading_pair Root (Token DOT) (Token AUSD) listed_sample in
  free_balance (Token AUSD) alice run.2 = free_balance (Token AUSD) alice listed_sample + 5000.
Proof.
  intros run.
  refine (proj1 (disable_refunds_contributors Root (Token DOT) (Token AUSD)
    (mkProvision (100, 10) (10000, 1000) (5000, 140) 0) listed_sample run.2 listed_sample_inv _ _)
    (Token AUSD) alice _).
  - vm_compute. reflexivity.
  - apply run_split. vm_compute. reflexivity.
  - discriminate.
Defined.

(** The listed pair, one contribution before its target. *)
Definition complete_sample : State :=
  (do_add_provision alice (Token AUSD) (Token DOT) 5000 100 listed_sample).2.
Lemma complete_sample_inv : dex_inv complete_sample.
Proof.
  assert (Hw : wp (do_add_provision alice (Token AUSD) (Token DOT) 5000 100) (fun _ => dex_inv)
    (fun _ _ => True) listed_sample).
  { apply add_provision_inv; [apply listed_sample_inv|discriminate|wcheck|wcheck]. }
  refine (wp_ok _ _ _ _ tt _ Hw _).
  unfold complete_sample. apply run_split. vm_compute. reflexivity.
Qed.
Lemma conversion_loses_second_reserve_witness :
  let p := TradingPair_new (Token AUSD) (Token DOT) in
  let run := convert_to_enabled_if_possible p complete_sample in
  pool_of p (st_dex run.2) = (10000, 0) /\
  target_hop (Token AUSD) (Token DOT) 10 None run.2 = Err (DexE DexError.InsufficientLiquidity).
Proof.
  intros p run.
  destruct (conversion_loses_second_reserve (Token AUSD) (Token DOT)
    (mkProvision (100, 10) (10000, 1000) (10000, 240) 0) 10 None complete_sample run.2 complete_sample_inv)
    as (_ & Hpool & _ & Hhop).
  - vm_compute. reflexivity.
  - vm_compute. reflexivity.
  - vm_compute. reflexivity.
  - apply run_split. vm_compute. reflexivity.
  - split; [exact Hpool|exact Hhop].
Defined.
