(* ===== verification/Treasury.v ===== *)
(** * The treasury of the stablecoin protocol

    [modules/cdp-treasury/src/lib.rs] without the part that calls the exchange
    and the auction manager ([TreasuryAuctions.v]): the debit pool, the surplus
    (the stable currency in the treasury's account) and their offset at the end
    of a block, the collateral the treasury keeps, its parameters. *)
From S2P Require Import Prelude FixedPoint Primitives Runtime Sample Support.

Section Model.
Context `{Config}.

Definition debit_pool (s : State) : Balance := DebitPool (st_treasury s).
Definition expected_collateral_auction_size (c : CurrencyId) (s : State) : Balance :=
  default 0 (ExpectedCollateralAuctionSize (st_treasury s) !! c).
Definition put_debit_pool (n : Balance) : Run unit :=
  modify (fun s => set_treasury (mkTreasury (ExpectedCollateralAuctionSize (st_treasury s)) n) s).
Definition put_auction_size (c : CurrencyId) (size : Balance) : Run unit :=
  modify (fun s => set_treasury (mkTreasury
    (<[c := size]> (ExpectedCollateralAuctionSize (st_treasury s))) (DebitPool (st_treasury s))) s).

Definition surplus_pool (s : State) : Balance :=
  free_balance GetStableCurrencyId treasury_account_id s.
Definition total_collaterals (c : CurrencyId) (s : State) : Balance :=
  free_balance c treasury_account_id s.

(** ** [impl CDPTreasury] *)
Definition treasury_debit_proportion (amount : Balance) (s : State) : Ratio :=
  default 0 (checked_from_rational amount (total_issuance GetStableCurrencyId s)).
Definition treasury_on_system_debit (amount : Balance) : Run unit :=
  pool ← gets debit_pool;
  n ← ok_or (U128.checked_add pool amount) ArithmeticOverflow;
  put_debit_pool n.
Definition treasury_issue_debit (who : AccountId) (amount : Balance) (backed : bool) : Run unit :=
  _ ← (if negb backed then treasury_on_system_debit amount else mret tt);
  deposit GetStableCurrencyId who amount.
Definition treasury_on_system_surplus (amount : Balance) : Run unit :=
  treasury_issue_debit treasury_account_id amount true.
Definition treasury_burn_debit (who : AccountId) (amount : Balance) : Run unit :=
  withdraw GetStableCurrencyId who amount.
Definition treasury_deposit_surplus (from : AccountId) (surplus : Balance) : Run unit :=
  transfer GetStableCurrencyId from treasury_account_id surplus.
Definition treasury_deposit_collateral (from : AccountId) (c : CurrencyId) (amount : Balance) : Run unit :=
  transfer c from treasury_account_id amount.
Definition treasury_withdraw_collateral (to : AccountId) (c : CurrencyId) (amount : Balance) : Run unit :=
  transfer c treasury_account_id to amount.

(** ** The end of a block *)
Definition offset_surplus_and_debit : Run unit :=
  pool ← gets debit_pool;
  surplus ← gets surplus_pool;
  let offset_amount := Z.min pool surplus in
  if negb (offset_amount =? 0) then
    res ← attempt (withdraw GetStableCurrencyId treasury_account_id offset_amount);
    match res with
    | inl _ =>
        debit ← gets debit_pool;
        n ← expect (U128.checked_sub debit offset_amount);
        put_debit_pool n
    | inr _ => mret tt
    end
  else mret tt.
Definition treasury_on_finalize : Run unit := offset_surplus_and_debit.

(** ** Extrinsics that stay in the treasury *)
Definition extract_surplus_to_treasury (origin : Origin) (amount : Balance) : Run unit :=
  transactional (
    _ ← ensure_origin UpdateOrigin origin;
    transfer GetStableCurrencyId treasury_account_id TreasuryAccount amount).
Definition set_expected_collateral_auction_size (origin : Origin) (c : CurrencyId) (size : Balance)
    : Run unit :=
  transactional (
    _ ← ensure_origin UpdateOrigin origin;
    _ ← put_auction_size c size;
    deposit_event (ExpectedCollateralAuctionSizeUpdated c size)).

(** ** Genesis *)
Definition treasury_genesis_build (sizes : list (CurrencyId * Balance)) : Run unit :=
  for_each (fun '(c, size) => put_auction_size c size) sizes.
End Model.

#[export] Instance cdp_treasury `{Config} : CDPTreasury := {
  get_surplus_pool := surplus_pool;
  get_debit_pool := debit_pool;
  get_total_collaterals := total_collaterals;
  get_debit_proportion := treasury_debit_proportion;
  on_system_debit := treasury_on_system_debit;
  on_system_surplus := treasury_on_system_surplus;
  issue_debit := treasury_issue_debit;
  burn_debit := treasury_burn_debit;
  deposit_surplus := treasury_deposit_surplus;
  deposit_collateral := treasury_deposit_collateral;
  withdraw_collateral := treasury_withdraw_collateral;
}.

#[export] Instance cdp_treasury_laws `{ConfigLaws} : CDPTreasuryLaws.
Proof.
  split; cbn [on_system_debit on_system_surplus issue_debit burn_debit deposit_surplus
    deposit_collateral withdraw_collateral get_total_collaterals get_debit_proportion cdp_treasury].
  - done.
  - done.
  - intros n s. unfold treasury_on_system_debit. wp_guards.
    apply checked_add_Some in Hopt as [-> Hm]. done.
  - intros n s Hn. unfold treasury_on_system_surplus, treasury_issue_debit. wp_guards. wp_branch; [done|].
    wp_guards. by apply deposit_minted.
  - intros who n s Hn. unfold treasury_issue_debit. wp_guards. wp_branch; [done|].
    wp_guards. by apply deposit_minted.
  - intros who n s Hn. unfold treasury_issue_debit, treasury_on_system_debit. wp_guards. wp_branch; [|done].
    wp_guards; [|by left]. apply checked_add_Some in Hopt as [-> Hm]. unfold put_debit_pool. wp_guards.
    eapply wp_mono; [by apply deposit_minted| |].
    + intros [] s' Hs'. eexists. split; [|exact Hs']. by split.
    + intros e s' ->. right. by split.
  - intros who n s Hn. by apply withdraw_burned.
  - intros who n s Hn. by apply transfer_moved.
  - intros who c n s Hn. by apply transfer_moved.
  - intros who c n s Hn. by apply transfer_moved.
Qed.

Section Claims.
Context `{ConfigLaws}.

(** At the end of a block the treasury burns stable currency against its
    debit.  The call never fails or panics; either the ledger refused the
    burning and nothing changed, or debit pool and surplus both fell by
    [min debit surplus] - so one of them is zero afterwards - and the
    issuance of the stable currency fell by as much; no other balance
    changed. *)
Theorem offset_settles s : is_u128 (debit_pool s) ->
  wp offset_surplus_and_debit
    (fun _ s' => s' = s \/
       let n := Z.min (debit_pool s) (surplus_pool s) in
       0 < n /\
       debit_pool s' = debit_pool s - n /\ surplus_pool s' = surplus_pool s - n /\
       (debit_pool s' = 0 \/ surplus_pool s' = 0) /\
       total_issuance GetStableCurrencyId s' = total_issuance GetStableCurrencyId s - n /\
       (forall c who, (c, who) <> (GetStableCurrencyId, treasury_account_id) ->
          free_balance c who s' = free_balance c who s))
    (fun _ _ => False) s.
Proof.
  intros Hd. pose proof (free_balance_u128 (st_ledger s) GetStableCurrencyId treasury_account_id
    : is_u128 (surplus_pool s)) as Hs.
  unfold offset_surplus_and_debit. wp_guards. set (n := Z.min _ _).
  assert (Hn : is_u128 n) by (subst n; unfold is_u128 in *; lia).
  wp_branch; [|apply wp_ret; by left]. apply negb_true_iff, Z.eqb_neq in Hif.
  wp_guards. eapply wp_mono; [by apply withdraw_burned| |].
  - intros _ s' (l & -> & Hf & Hi). wp_guards. apply wp_expect. exists (debit_pool s - n).
    change (debit_pool (set_ledger l s)) with (debit_pool s).
    split; [apply checked_sub_Some; split; [done|subst n; lia]|].
    unfold put_debit_pool. wp_guards. right. cbv zeta. fold n.
    assert (Hsp : surplus_pool (set_treasury (mkTreasury (ExpectedCollateralAuctionSize (st_treasury s))
      (debit_pool s - n)) (set_ledger l s)) = surplus_pool s - n).
    { unfold surplus_pool at 1, free_balance. cbn. rewrite Hf, delta_eq. done. }
    change (st_treasury (set_ledger l s)) with (st_treasury s). split_and!.
    + destruct Hn. lia.
    + done.
    + exact Hsp.
    + destruct (Z.min_spec (debit_pool s) (surplus_pool s)) as [[? E]|[? E]].
      * left. cbn. subst n. lia.
      * right. rewrite Hsp. subst n. lia.
    + unfold total_issuance at 1. cbn. rewrite Hi, decide_True by done. done.
    + intros c who Hne. unfold free_balance at 1. cbn. rewrite Hf. unfold delta.
      rewrite decide_False; [lia|]. intros [-> ->]. done.
  - intros e t ->. wp_guards. by left.
Qed.
End Claims.

#[local] Existing Instance sample.
#[local] Existing Instance sample_laws.

Lemma offset_settles_witness :
  let s0 := sample_state [(Token AUSD, treasury_account_id, 500)] (fun _ => Some DIV) in
  let s := (treasury_on_system_debit 200 s0).2 in
  wp offset_surplus_and_debit
    (fun _ s' => s' = s \/
       let n := Z.min (debit_pool s) (surplus_pool s) in
       0 < n /\ debit_pool s' = debit_pool s - n /\ surplus_pool s' = surplus_pool s - n /\
       (debit_pool s' = 0 \/ surplus_pool s' = 0) /\
       total_issuance GetStableCurrencyId s' = total_issuance GetStableCurrencyId s - n /\
       (forall c who, (c, who) <> (GetStableCurrencyId, treasury_account_id) ->
          free_balance c who s' = free_balance c who s))
    (fun _ _ => False) s.
Proof. intros s0 s. apply (offset_settles s). wcheck. Defined.
