(* ===== verification/Loans.v ===== *)
(** * Collateralized debt positions

    [modules/loans/src/lib.rs]: the positions of the stablecoin protocol, their
    totals, and the three ways a position changes: adjustment by its owner,
    confiscation by the protocol and transfer to another account. *)
From S2P Require Import Prelude FixedPoint Primitives Runtime Sample Support.

Section Model.
Context `{Config, !RiskManager, !DebitConvert, !CDPTreasury}.

(** ** Storage access *)
Definition positions (c : CurrencyId) (who : AccountId) (s : State) : Position :=
  default Position_default (Positions (st_loans s) !! (c, who)).
Definition total_positions (c : CurrencyId) (s : State) : Position :=
  default Position_default (TotalPositions (st_loans s) !! c).
Definition is_zero_position (p : Position) : bool := (collateral p =? 0) && (debit p =? 0).
(** [try_mutate_exists]: a zero position is removed. *)
Definition write_position (c : CurrencyId) (who : AccountId) (p : Position) : Run unit :=
  modify (fun s => set_loans (mkLoans
    (if is_zero_position p then delete (c, who) (Positions (st_loans s))
     else <[(c, who) := p]> (Positions (st_loans s))) (TotalPositions (st_loans s))) s).
Definition write_total (c : CurrencyId) (p : Position) : Run unit :=
  modify (fun s => set_loans (mkLoans (Positions (st_loans s))
    (<[c := p]> (TotalPositions (st_loans s)))) s).
Definition on_update_loan (who : AccountId) (c : CurrencyId) (da : Amount) (previous : Balance) : Run unit :=
  modify (fun s => set_incentives (inc_on_update_loan (who, c, da, previous) (st_incentives s)) s).

(** ** Conversions *)
Definition amount_try_from_balance (b : Balance) : option Amount := I128.try_from b.
(** [i128::saturating_abs] is nonnegative, so the conversion does not fail. *)
Definition balance_try_from_amount_abs (a : Amount) : option Balance :=
  let x := I128.saturating_abs a in if 0 <=? x then Some x else None.

(** A balance changed by a signed amount whose absolute value is [abs]. *)
Definition adjust (balance : Balance) (adjustment : Amount) (abs : Balance) : Run Balance :=
  if I128.is_positive adjustment then ok_or (U128.checked_add balance abs) ArithmeticOverflow
  else ok_or (U128.checked_sub balance abs) ArithmeticUnderflow.

(** [update_loan]: the records of a position and of the totals. *)
Definition update_loan (who : AccountId) (c : CurrencyId)
    (collateral_adjustment debit_adjustment : Amount) : Run unit :=
  collateral_balance ← ok_or (balance_try_from_amount_abs collateral_adjustment)
    (LoansE LoansError.AmountConvertFailed);
  debit_balance ← ok_or (balance_try_from_amount_abs debit_adjustment)
    (LoansE LoansError.AmountConvertFailed);
  p ← gets (positions c who);
  new_collateral ← adjust (collateral p) collateral_adjustment collateral_balance;
  new_debit ← adjust (debit p) debit_adjustment debit_balance;
  _ ← (if is_zero_position p then inc_consumers who else mret tt);
  _ ← on_update_loan who c debit_adjustment (debit p);
  let p' := mkPosition new_collateral new_debit in
  _ ← (if is_zero_position p' then dec_consumers who else mret tt);
  _ ← write_position c who p';
  total ← gets (total_positions c);
  total_collateral ← adjust (collateral total) collateral_adjustment collateral_balance;
  total_debit ← adjust (debit total) debit_adjustment debit_balance;
  write_total c (mkPosition total_collateral total_debit).

(** ** Operations *)
Definition confiscate_collateral_and_debit (who : AccountId) (c : CurrencyId)
    (collateral_confiscate debit_decrease : Balance) : Run unit :=
  transactional (
    collateral_adjustment ← ok_or (amount_try_from_balance collateral_confiscate)
      (LoansE LoansError.AmountConvertFailed);
    debit_adjustment ← ok_or (amount_try_from_balance debit_decrease)
      (LoansE LoansError.AmountConvertFailed);
    _ ← deposit_collateral loans_account_id c collateral_confiscate;
    bad_debt_value ← gets (get_bad_debt_value c debit_decrease);
    _ ← on_system_debit bad_debt_value;
    _ ← update_loan who c (I128.saturating_neg collateral_adjustment)
          (I128.saturating_neg debit_adjustment);
    deposit_event (ConfiscateCollateralAndDebit who c collateral_confiscate debit_decrease)).

Definition adjust_position (who : AccountId) (c : CurrencyId)
    (collateral_adjustment debit_adjustment : Amount) : Run unit :=
  transactional (
    _ ← update_loan who c collateral_adjustment debit_adjustment;
    collateral_balance_adjustment ← ok_or (balance_try_from_amount_abs collateral_adjustment)
      (LoansE LoansError.AmountConvertFailed);
    debit_balance_adjustment ← ok_or (balance_try_from_amount_abs debit_adjustment)
      (LoansE LoansError.AmountConvertFailed);
    _ ← (if I128.is_positive collateral_adjustment then
           transfer c who loans_account_id collateral_balance_adjustment
         else if I128.is_negative collateral_adjustment then
           transfer c loans_account_id who collateral_balance_adjustment
         else mret tt);
    _ ← (if I128.is_positive debit_adjustment then
           total ← gets (total_positions c);
           _ ← reads (check_debit_cap c (debit total));
           value ← gets (convert c debit_balance_adjustment);
           issue_debit who value true
         else if I128.is_negative debit_adjustment then
           value ← gets (convert c debit_balance_adjustment);
           burn_debit who value
         else mret tt);
    p ← gets (positions c who);
    _ ← reads (check_position_valid c (collateral p) (debit p));
    deposit_event (PositionUpdated who c collateral_adjustment debit_adjustment)).

Definition transfer_loan (from to : AccountId) (c : CurrencyId) : Run unit :=
  p ← gets (positions c from);
  q ← gets (positions c to);
  new_to_collateral_balance ← expect (U128.checked_add (collateral q) (collateral p));
  new_to_debit_balance ← expect (U128.checked_add (debit q) (debit p));
  _ ← reads (check_position_valid c new_to_collateral_balance new_to_debit_balance);
  collateral_adjustment ← ok_or (amount_try_from_balance (collateral p))
    (LoansE LoansError.AmountConvertFailed);
  debit_adjustment ← ok_or (amount_try_from_balance (debit p))
    (LoansE LoansError.AmountConvertFailed);
  _ ← update_loan from c (I128.saturating_neg collateral_adjustment)
        (I128.saturating_neg debit_adjustment);
  _ ← update_loan to c collateral_adjustment debit_adjustment;
  deposit_event (TransferLoan from to c).
End Model.

(** ** The books *)
Section Books.
Context `{Config}.

Definition side_sum (f : Position -> Z) (c : CurrencyId) (m : gmap (CurrencyId * AccountId) Position) : Z :=
  map_sum (fun k p => if decide (k.1 = c) then f p else 0) m.

(** The totals are the sums of the positions, which are nonzero 128-bit
    amounts. *)
Record loans_wf (l : LoansStorage) : Prop := {
  wf_position c who p : Positions l !! (c, who) = Some p ->
    is_u128 (collateral p) /\ is_u128 (debit p) /\ is_zero_position p = false;
  wf_total c : let t := default Position_default (TotalPositions l !! c) in
    collateral t = side_sum collateral c (Positions l) /\
    debit t = side_sum debit c (Positions l) /\
    is_u128 (collateral t) /\ is_u128 (debit t);
}.

(** The signed amount [a] as it is applied. *)
Definition applied (a : Amount) : Z :=
  if 0 <? a then a else - I128.saturating_abs a.
Definition adjusted (p : Position) (ca da : Amount) : Position :=
  mkPosition (collateral p + applied ca) (debit p + applied da).
Definition put_position (c : CurrencyId) (who : AccountId) (p : Position) (l : LoansStorage) : LoansStorage :=
  mkLoans (if is_zero_position p then delete (c, who) (Positions l)
           else <[(c, who) := p]> (Positions l)) (TotalPositions l).
Definition put_total (c : CurrencyId) (p : Position) (l : LoansStorage) : LoansStorage :=
  mkLoans (Positions l) (<[c := p]> (TotalPositions l)).
Definition position_of (c : CurrencyId) (who : AccountId) (l : LoansStorage) : Position :=
  default Position_default (Positions l !! (c, who)).
Definition total_of (c : CurrencyId) (l : LoansStorage) : Position :=
  default Position_default (TotalPositions l !! c).
Definition updated_loans (c : CurrencyId) (who : AccountId) (ca da : Amount) (l : LoansStorage)
    : LoansStorage :=
  put_total c (adjusted (total_of c l) ca da)
    (put_position c who (adjusted (position_of c who l) ca da) l).
(** Both amounts stay in range. *)
Definition fits_position (p : Position) : Prop := is_u128 (collateral p) /\ is_u128 (debit p).

Lemma saturating_abs_exact a : Z.abs a <= I128_MAX -> I128.saturating_abs a = Z.abs a.
Proof. unfold I128.saturating_abs. lia. Qed.
Lemma applied_small a : Z.abs a <= I128_MAX -> applied a = a.
Proof.
  intros Ha. unfold applied. rewrite saturating_abs_exact by done.
  destruct (Z.ltb_spec 0 a); lia.
Qed.
Lemma i128_small a : is_i128 a -> a <> I128_MIN -> Z.abs a <= I128_MAX.
Proof. unfold is_i128, I128_MIN, I128_MAX. lia. Qed.
Lemma saturating_neg_small a : 0 <= a <= I128_MAX -> I128.saturating_neg a = - a.
Proof. unfold I128.saturating_neg. lia. Qed.

Lemma position_of_put c who p l c' x : position_of c' x (put_position c who p l) =
  if decide ((c', x) = (c, who)) then p else position_of c' x l.
Proof.
  unfold position_of, put_position. cbn. destruct (is_zero_position p) eqn:Ez.
  - destruct (decide ((c', x) = (c, who))) as [->|].
    + rewrite lookup_delete_eq. cbn. unfold is_zero_position in Ez.
      apply andb_true_iff in Ez as [E1%Z.eqb_eq E2%Z.eqb_eq].
      destruct p. cbn in *. by subst.
    + by rewrite lookup_delete_ne by congruence.
  - destruct (decide ((c', x) = (c, who))) as [->|].
    + by rewrite lookup_insert_eq.
    + by rewrite lookup_insert_ne by congruence.
Qed.
Lemma side_sum_put (f : Position -> Z) c who p l c' : f Position_default = 0 ->
  (forall q, is_zero_position q = true -> f q = 0) ->
  side_sum f c' (Positions (put_position c who p l)) =
    side_sum f c' (Positions l) +
    if decide (c' = c) then f p - f (position_of c who l) else 0.
Proof.
  intros H0 Hz. unfold side_sum, put_position, position_of. cbn.
  assert (Hold : from_option ((fun (k : CurrencyId * AccountId) p0 => if decide (k.1 = c') then f p0 else 0) (c, who)) 0
      (Positions l !! (c, who))
    = if decide (c' = c) then f (default Position_default (Positions l !! (c, who))) else 0).
  { destruct (Positions l !! (c, who)); cbn; repeat case_decide; congruence || lia. }
  destruct (is_zero_position p) eqn:Ez.
  - rewrite map_sum_delete, Hold. case_decide; [rewrite (Hz p Ez)|]; lia.
  - rewrite map_sum_insert, Hold. cbn. repeat case_decide; congruence || lia.
Qed.

Lemma position_fits l c who : loans_wf l -> fits_position (position_of c who l).
Proof.
  intros Hwf. unfold position_of. destruct (Positions l !! (c, who)) as [p|] eqn:E; cbn.
  - by apply (wf_position l Hwf) in E as (? & ? & _).
  - split; cbn; uarith.
Qed.
Lemma zero_position_sides q : is_zero_position q = true -> collateral q = 0 /\ debit q = 0.
Proof. intros [?%Z.eqb_eq ?%Z.eqb_eq]%andb_true_iff. done. Qed.

Lemma updated_loans_wf c who ca da l :
  loans_wf l -> fits_position (adjusted (position_of c who l) ca da) ->
  fits_position (adjusted (total_of c l) ca da) -> loans_wf (updated_loans c who ca da l).
Proof.
  intros Hwf [Hp1 Hp2] [Ht1 Ht2]. unfold updated_loans. split.
  - intros c' x p. cbn. destruct (is_zero_position _) eqn:Ez.
    + intros [_ Hp]%lookup_delete_Some. by eapply wf_position.
    + intros [[[= -> ->] <-]|[_ Hp]]%lookup_insert_Some; [done|]. by eapply wf_position.
  - intros c'. cbn [put_total TotalPositions].
    assert (Hside : forall f, f = collateral \/ f = debit ->
      side_sum f c' (Positions (put_total c (adjusted (total_of c l) ca da)
          (put_position c who (adjusted (position_of c who l) ca da) l)))
        = side_sum f c' (Positions l)
          + if decide (c' = c) then f (adjusted (position_of c who l) ca da) - f (position_of c who l) else 0).
    { intros f Hf. change (Positions (put_total _ _ ?y)) with (Positions y).
      apply side_sum_put; [by destruct Hf as [-> | ->]|].
      intros q Hq. apply zero_position_sides in Hq as [? ?]. by destruct Hf as [-> | ->]. }
    rewrite !Hside by auto. rewrite lookup_insert. change (TotalPositions (put_position _ _ _ l)) with (TotalPositions l).
    pose proof (wf_total l Hwf c') as (E1 & E2 & E3 & E4).
    destruct (decide (c' = c)) as [->|]; [rewrite decide_True by done|rewrite decide_False by congruence; cbn].
    + cbn. fold (total_of c l) in *. cbn in *. unfold adjusted in *. cbn in *. split_and!; (done || lia).
    + rewrite !Z.add_0_r. done.
Qed.

(** A position is part of the total. *)
Lemma side_sum_nonneg f c l : f = collateral \/ f = debit -> loans_wf l -> 0 <= side_sum f c (Positions l).
Proof.
  intros Hf Hwf. apply map_sum_nonneg. intros [c' x] p Hp. apply (wf_position l Hwf) in Hp as ([? _] & [? _] & _).
  cbn. case_decide; [|done]. by destruct Hf as [-> | ->].
Qed.
Lemma delete_position_wf c who f l : f = collateral \/ f = debit -> loans_wf l ->
  0 <= side_sum f c (delete (c, who) (Positions l)).
Proof.
  intros Hf Hwf. apply map_sum_nonneg. intros [c' x] p [_ Hp]%lookup_delete_Some.
  apply (wf_position l Hwf) in Hp as ([? _] & [? _] & _). cbn. case_decide; [|done]. by destruct Hf as [-> | ->].
Qed.
Lemma position_le_total c who l : loans_wf l ->
  collateral (position_of c who l) <= collateral (total_of c l) /\
  debit (position_of c who l) <= debit (total_of c l).
Proof.
  intros Hwf. pose proof (wf_total l Hwf c) as (E1 & E2 & _). fold (total_of c l) in E1, E2.
  assert (Hle : forall f, f = collateral \/ f = debit -> f (position_of c who l) <= side_sum f c (Positions l)).
  { intros f Hf. pose proof (side_sum_put f c who Position_default l c) as Hs.
    cbn [put_position Positions] in Hs. change (is_zero_position Position_default) with true in Hs.
    cbv iota in Hs. rewrite decide_True in Hs by done.
    assert (f Position_default = 0) as H0 by (by destruct Hf as [-> | ->]).
    pose proof (delete_position_wf c who f l Hf Hwf).
    specialize (Hs H0 ltac:(intros q Hq; apply zero_position_sides in Hq as [? ?]; by destruct Hf as [-> | ->])). rewrite H0 in Hs. lia. }
  rewrite E1, E2. auto.
Qed.
End Books.

(** ** The records of a loan *)
Section Update.
Context `{ConfigLaws}.

Lemma saturating_abs_nonneg a : 0 <= I128.saturating_abs a.
Proof. unfold I128.saturating_abs, I128_MAX. lia. Qed.
Lemma saturating_abs_u128 a : is_u128 (I128.saturating_abs a).
Proof. unfold is_u128, I128.saturating_abs, I128_MAX, U128_MAX. lia. Qed.
Lemma saturating_abs_pos a : is_i128 a -> 0 < a -> I128.saturating_abs a = a.
Proof. unfold is_i128, I128.saturating_abs. lia. Qed.
Lemma abs_amount a : balance_try_from_amount_abs a = Some (I128.saturating_abs a).
Proof.
  unfold balance_try_from_amount_abs. cbv zeta. pose proof (saturating_abs_nonneg a).
  destruct (Z.leb_spec 0 (I128.saturating_abs a)); [done|lia].
Qed.
Lemma adjust_wp b a s : is_i128 a -> is_u128 b ->
  wp (adjust b a (I128.saturating_abs a))
    (fun r s' => s' = s /\ r = b + applied a /\ is_u128 r)
    (fun _ s' => s' = s /\ ~ is_u128 (b + applied a)) s.
Proof.
  intros Ha [Hb0 Hb1]. unfold adjust, applied, I128.is_positive.
  pose proof (saturating_abs_nonneg a) as Habs.
  destruct (Z.ltb_spec 0 a) as [Hpos|Hpos]; apply wp_ok_or; split.
  - rewrite saturating_abs_pos by done. intros r [-> Hr]%checked_add_Some.
    split; [done|]. unfold is_u128. lia.
  - rewrite saturating_abs_pos by done. intros Hr%checked_add_None. split; [done|]. unfold is_u128. lia.
  - intros r [-> Hr]%checked_sub_Some. unfold is_u128. split; [done|]. lia.
  - intros Hr%checked_sub_None. split; [done|]. unfold is_u128. lia.
Qed.

(** What a successful [update_loan] did. *)
Definition loan_effect (who : AccountId) (c : CurrencyId) (ca da : Amount) (s s' : State) : Prop :=
  fits_position (adjusted (position_of c who (st_loans s)) ca da) /\
  fits_position (adjusted (total_of c (st_loans s)) ca da) /\
  exists sys inc, s' = set_incentives inc (set_system sys
    (set_loans (updated_loans c who ca da (st_loans s)) s)).

Lemma inc_consumers_run who s : exists sys, inc_consumers who s = (Ok tt, set_system sys s).
Proof.
  unfold inc_consumers, modify. destruct (sys_inc_consumers who (st_system s)); eexists; [done|].
  instantiate (1 := st_system s). by destruct s.
Qed.
Lemma wp_system (b : bool) m who s Q R :
  m = inc_consumers who \/ m = dec_consumers who -> (forall sys, Q tt (set_system sys s)) ->
  wp (if b then m else mret tt) Q R s.
Proof.
  intros Hm HQ. destruct b.
  - destruct Hm as [-> | ->]; [|apply HQ].
    unfold wp. destruct (inc_consumers_run who s) as [sys ->]. apply HQ.
  - apply wp_ret. replace s with (set_system (st_system s) s) by (by destruct s). apply HQ.
Qed.

Lemma update_loan_wp who c ca da s :
  is_i128 ca -> is_i128 da -> loans_wf (st_loans s) ->
  wp (update_loan who c ca da) (fun _ => loan_effect who c ca da s)
    (fun _ _ => ~ (fits_position (adjusted (position_of c who (st_loans s)) ca da) /\
                  fits_position (adjusted (total_of c (st_loans s)) ca da))) s.
Proof.
  intros Hca Hda Hwf. unfold update_loan. rewrite !abs_amount. wp_step. apply wp_ret. wp_step. apply wp_ret.
  wp_guards. change (positions c who s) with (position_of c who (st_loans s)).
  set (p := position_of c who (st_loans s)). set (t := total_of c (st_loans s)).
  destruct (position_fits (st_loans s) c who Hwf) as [Hpc Hpd]. fold p in Hpc, Hpd.
  pose proof (wf_total _ Hwf c) as (_ & _ & Htc & Htd). fold (total_of c (st_loans s)) in Htc, Htd. fold t in Htc, Htd.
  eapply wp_mono; [by apply adjust_wp| |intros e u [_ Hn] [[? _] _]; by apply Hn].
  intros nc u (-> & -> & Hnc). wp_guards.
  eapply wp_mono; [by apply adjust_wp| |intros e u [_ Hn] [[_ ?] _]; by apply Hn].
  intros nd u (-> & -> & Hnd). wp_guards. eapply wp_system; [by left|]. intros sys1. wp_guards.
  unfold on_update_loan. wp_guards. eapply wp_system; [by right|]. intros sys2. wp_guards.
  unfold write_position. wp_guards. cbn.
  change (total_positions c _) with t. 
  eapply wp_mono; [by apply adjust_wp| |intros e u [_ Hn] [_ [? _]]; by apply Hn].
  intros tc u (-> & -> & Htc'). wp_guards.
  eapply wp_mono; [by apply adjust_wp| |intros e u [_ Hn] [_ [_ ?]]; by apply Hn].
  intros td u (-> & -> & Htd'). cbn. split; [done|]. split; [done|].
  by exists sys2, (inc_on_update_loan (who, c, da, debit p) (st_incentives s)).
Qed.
End Update.

(** ** Operations *)
Section Operations.
Context `{ConfigLaws} `{!RiskManager, !DebitConvert, !RiskManagerLaws}
  `{!CDPTreasury, !CDPTreasuryLaws}.

(** The stable currency a debit adjustment issues (or burns, when negative). *)
Definition debit_value (c : CurrencyId) (da : Amount) (s : State) : Z :=
  if 0 <? da then convert c (I128.saturating_abs da) s
  else if da <? 0 then - convert c (I128.saturating_abs da) s else 0.

(** [s] with a new ledger and new loan records; the system's and the
    incentives pallet's own books may differ. *)
Definition with_loans (l : Ledger) (sys : SystemSt) (inc : IncentivesSt) (lo : LoansStorage)
    (s : State) : State :=
  set_ledger l (set_incentives inc (set_system sys (set_loans lo s))).

Definition adjusted_ok (who : AccountId) (c : CurrencyId) (ca da : Amount) (s s' : State) : Prop :=
  let lo := updated_loans c who ca da (st_loans s) in
  loans_wf lo /\
  exists l sys inc,
    let t := with_loans l sys inc lo s in
    s' = set_events (st_events s ++ [PositionUpdated who c ca da]) t /\
    (forall c' x, cur_free_balance l c' x = free_balance c' x s
       + delta c loans_account_id (applied ca) c' x - delta c who (applied ca) c' x
       + delta GetStableCurrencyId who (debit_value c da s) c' x) /\
    (forall c', cur_total_issuance l c' = total_issuance c' s
       + if decide (c' = GetStableCurrencyId) then debit_value c da s else 0) /\
    check_position_valid c (collateral (position_of c who lo)) (debit (position_of c who lo)) t = Ok tt /\
    (0 < da -> exists l1, check_debit_cap c (debit (total_of c lo)) (with_loans l1 sys inc lo s) = Ok tt).

(** The collateral changes hands. *)
Lemma collateral_wp who c ca s : is_i128 ca ->
  wp (if I128.is_positive ca then transfer c who loans_account_id (I128.saturating_abs ca)
      else if I128.is_negative ca then transfer c loans_account_id who (I128.saturating_abs ca)
      else mret tt)
    (fun _ s' => exists l, s' = set_ledger l s /\
       (forall c' x, cur_free_balance l c' x = free_balance c' x s
          + delta c loans_account_id (applied ca) c' x - delta c who (applied ca) c' x) /\
       (forall c', cur_total_issuance l c' = total_issuance c' s))
    (fun _ _ => True) s.
Proof.
  intros Hca. pose proof (saturating_abs_u128 ca) as Hu.
  unfold applied, I128.is_positive, I128.is_negative.
  destruct (Z.ltb_spec 0 ca) as [Hp|Hp]; [|destruct (Z.ltb_spec ca 0) as [Hn|Hn]].
  - eapply wp_mono; [by apply transfer_moved| |done]. rewrite saturating_abs_pos by done.
    intros _ s' (l & -> & Hf & Hi). exists l. split; [done|]. split; [|done]. intros. rewrite Hf. lia.
  - eapply wp_mono; [by apply transfer_moved| |done].
    intros _ s' (l & -> & Hf & Hi). exists l. split; [done|]. split; [|done]. intros.
    rewrite Hf, !delta_opp. lia.
  - replace ca with 0 by lia. apply wp_ret. exists (st_ledger s). split; [by destruct s|]. split; [|done].
    intros. rewrite !delta_zero. unfold free_balance. lia.
Qed.

(** Stable currency is issued or burned. *)
Lemma debit_wp who c da lo s : st_loans s = lo -> is_i128 da -> cdp_typed (st_cdp s) ->
  wp (if I128.is_positive da then
        total ← gets (total_positions c);
        _ ← reads (check_debit_cap c (debit total));
        value ← gets (convert c (I128.saturating_abs da));
        issue_debit who value true
      else if I128.is_negative da then
        value ← gets (convert c (I128.saturating_abs da));
        burn_debit who value
      else mret tt)
    (fun _ s' => (0 < da -> check_debit_cap c (debit (total_of c lo)) s = Ok tt) /\
       exists l, s' = set_ledger l s /\
       (forall c' x, cur_free_balance l c' x = free_balance c' x s
          + delta GetStableCurrencyId who (debit_value c da s) c' x) /\
       (forall c', cur_total_issuance l c' = total_issuance c' s
          + if decide (c' = GetStableCurrencyId) then debit_value c da s else 0))
    (fun _ _ => True) s.
Proof.
  intros <- Hda Hct. pose proof (saturating_abs_u128 da) as Hu.
  pose proof (convert_u128 c (I128.saturating_abs da) s Hct Hu) as Hcu.
  unfold debit_value, I128.is_positive, I128.is_negative.
  destruct (Z.ltb_spec 0 da) as [Hp|Hp]; [|destruct (Z.ltb_spec da 0) as [Hn|Hn]].
  - wp_guards. change (total_positions c s) with (total_of c (st_loans s)).
    destruct (check_debit_cap c _ s) as [[]|e|] eqn:Ecap; [|done|by apply check_cap_no_panic in Ecap].
    wp_guards. eapply wp_mono; [by apply issue_backed_spec| |done].
    intros _ s' (l & -> & Hf & Hi). split; [done|]. by exists l.
  - wp_guards. eapply wp_mono; [by apply burn_debit_spec| |done].
    intros _ s' (l & -> & Hf & Hi). split; [lia|]. exists l. split; [done|]. split.
    + intros. rewrite Hf, delta_opp. lia.
    + intros. rewrite Hi. case_decide; lia.
  - apply wp_ret. split; [lia|]. exists (st_ledger s). split; [by destruct s|]. split.
    + intros. rewrite delta_zero. unfold free_balance. lia.
    + intros. unfold total_issuance. case_decide; lia.
Qed.

Lemma adjust_position_wp who c ca da s :
  is_i128 ca -> is_i128 da -> cdp_typed (st_cdp s) -> loans_wf (st_loans s) ->
  wp (adjust_position who c ca da) (fun _ => adjusted_ok who c ca da s) (fun _ s' => s' = s) s.
Proof.
  intros Hca Hda Hct Hwf. unfold adjust_position. rewrite !abs_amount. wp_guards.
  eapply wp_mono; [by apply update_loan_wp| |done]. intros _ s1 (Hfp & Hft & sys & inc & ->).
  wp_guards. injection Hopt as <-. injection Hopt0 as <-. set (lo := updated_loans c who ca da (st_loans s)).
  eapply wp_mono; [by apply collateral_wp| |done]. intros _ s2 (l1 & -> & Hf1 & Hi1). wp_guards.
  eapply wp_mono; [by apply (debit_wp who c da lo)| |done]. intros _ s3 (Hcap & l2 & -> & Hf2 & Hi2).
  wp_guards. cbn [st_loans set_ledger positions].
  destruct (check_position_valid _ _ _ _) as [[]|e|] eqn:Ec; [|done|by apply check_position_no_panic in Ec].
  wp_guards. split; [by apply updated_loans_wf|]. exists l2, sys, inc. cbn in Hf1, Hi1.
  assert (Hdv : debit_value c da (set_ledger l1 (set_incentives inc (set_system sys (set_loans lo s))))
    = debit_value c da s).
  { unfold debit_value. by rewrite !(convert_frame _ _ s). }
  rewrite Hdv in Hf2, Hi2. cbv zeta. split_and!.
  - done.
  - intros c' x. rewrite Hf2. unfold free_balance at 1. cbn. rewrite Hf1. done.
  - intros c'. rewrite Hi2. unfold total_issuance at 1. cbn. by rewrite Hi1.
  - exact Ec.
  - intros Hpos. exists l1. by apply Hcap.
Qed.

(** The collateral of every position is in the account of the pallet. *)
Definition loans_inv (s : State) : Prop :=
  loans_wf (st_loans s) /\
  forall c, collateral (total_of c (st_loans s)) <= free_balance c loans_account_id s.

Lemma total_of_updated c who ca da lo c' : total_of c' (updated_loans c who ca da lo) =
  if decide (c' = c) then adjusted (total_of c lo) ca da else total_of c' lo.
Proof.
  unfold total_of, updated_loans. cbn. rewrite lookup_insert. destruct (decide (c' = c)) as [->|].
  - by rewrite decide_True.
  - by rewrite decide_False.
Qed.
Lemma position_of_updated c who ca da lo c' x : position_of c' x (updated_loans c who ca da lo) =
  if decide ((c', x) = (c, who)) then adjusted (position_of c who lo) ca da else position_of c' x lo.
Proof. unfold updated_loans. rewrite <- position_of_put. done. Qed.

Lemma adjusted_inv who c ca da s s' :
  loans_inv s -> who <> loans_account_id -> adjusted_ok who c ca da s s' -> loans_inv s'.
Proof.
  intros [_ Hsol] Hwho (Hwf & l & sys & inc & -> & Hf & _). split; [done|].
  intros c'. unfold free_balance. cbn. rewrite Hf, total_of_updated, !delta_account.
  rewrite !(delta_ne_account _ who) by congruence. specialize (Hsol c').
  case_decide; [subst; cbn|]; lia.
Qed.

(** What a confiscation did. *)
Definition confiscated_ok (who : AccountId) (c : CurrencyId) (cc dd : Balance) (s s' : State) : Prop :=
  let lo := updated_loans c who (- cc) (- dd) (st_loans s) in
  let bad_debt := get_bad_debt_value c dd s in
  loans_wf lo /\
  collateral (position_of c who lo) = collateral (position_of c who (st_loans s)) - cc /\
  debit (position_of c who lo) = debit (position_of c who (st_loans s)) - dd /\
  DebitPool (st_treasury s) + bad_debt <= U128_MAX /\
  exists l sys inc,
    s' = set_events (st_events s ++ [ConfiscateCollateralAndDebit who c cc dd])
           (with_loans l sys inc lo
             (set_treasury (mkTreasury (ExpectedCollateralAuctionSize (st_treasury s))
                (DebitPool (st_treasury s) + bad_debt)) s)) /\
    (forall c' x, cur_free_balance l c' x = free_balance c' x s
       + delta c treasury_account_id cc c' x - delta c loans_account_id cc c' x) /\
    (forall c', cur_total_issuance l c' = total_issuance c' s).

Lemma amount_some b a : amount_try_from_balance b = Some a -> a = b /\ b <= I128_MAX.
Proof.
  unfold amount_try_from_balance, I128.try_from. destruct (Z.leb_spec b I128_MAX); [|done].
  by intros [= <-].
Qed.
Lemma small_neg a : 0 <= a <= I128_MAX -> is_i128 (- a).
Proof. unfold is_i128, I128_MIN, I128_MAX. lia. Qed.
Lemma small_pos a : 0 <= a <= I128_MAX -> is_i128 a.
Proof. unfold is_i128, I128_MIN. lia. Qed.
Lemma applied_small_neg a : 0 <= a <= I128_MAX -> applied (- a) = - a.
Proof. intros. apply applied_small. lia. Qed.

Lemma confiscate_wp who c cc dd s :
  is_u128 cc -> is_u128 dd -> loans_wf (st_loans s) ->
  wp (confiscate_collateral_and_debit who c cc dd) (fun _ => confiscated_ok who c cc dd s)
    (fun _ s' => s' = s) s.
Proof.
  intros Hc Hd Hwf. unfold confiscate_collateral_and_debit. wp_guards.
  apply amount_some in Hopt as [-> Hcm]. apply amount_some in Hopt0 as [-> Hdm].
  assert (0 <= cc <= I128_MAX) by (destruct Hc; lia). assert (0 <= dd <= I128_MAX) by (destruct Hd; lia).
  rewrite !saturating_neg_small by done.
  eapply wp_mono; [by apply deposit_collateral_spec| |done]. intros _ s1 (l & -> & Hf & Hi). wp_guards.
  eapply wp_mono; [apply on_system_debit_spec| |done]. intros _ s2 [-> Hm]. cbn in Hm |- *. wp_guards.
  rewrite (bad_debt_frame _ _ s) in * by done.
  eapply wp_mono; [apply update_loan_wp; [by apply small_neg|by apply small_neg|exact Hwf]| |done].
  cbn. intros _ s3 (Hfp & Hft & sys & inc & ->). cbn in *.
  split; [by apply updated_loans_wf|]. rewrite position_of_updated, decide_True by done. cbn.
  rewrite !applied_small_neg by done. split_and!; [lia|lia|done|]. by exists l, sys, inc.
Qed.
Lemma confiscated_inv who c cc dd s s' : is_u128 cc -> is_u128 dd ->
  loans_inv s -> confiscated_ok who c cc dd s s' -> loans_inv s'.
Proof.
  intros Hc Hd [Hwf0 Hsol] (Hwf & Hcol & _ & _ & l & sys & inc & -> & Hf & _). split; [done|].
  intros c'. unfold free_balance. cbn. rewrite Hf, total_of_updated.
  rewrite position_of_updated, decide_True in Hcol by done. cbn in Hcol.
  pose proof module_accounts as (_ & _ & Hne).
  rewrite (delta_ne_account _ treasury_account_id) by done. rewrite delta_account.
  specialize (Hsol c'). case_decide; [subst; cbn|]; lia.
Qed.

(** What a transfer of a whole loan did: only the records of [from] and [to]
    changed, and none when they are one account. *)
Definition transferred_ok (from to : AccountId) (c : CurrencyId) (s s' : State) : Prop :=
  let p := position_of c from (st_loans s) in
  let q := position_of c to (st_loans s) in
  loans_wf (st_loans s') /\
  (from <> to -> position_of c from (st_loans s') = Position_default) /\
  position_of c to (st_loans s') =
    (if decide (from = to) then p else mkPosition (collateral q + collateral p) (debit q + debit p)) /\
  (forall c' x, (c', x) <> (c, from) -> (c', x) <> (c, to) ->
     position_of c' x (st_loans s') = position_of c' x (st_loans s)) /\
  (forall c', total_of c' (st_loans s') = total_of c' (st_loans s)) /\
  check_position_valid c (collateral q + collateral p) (debit q + debit p) s = Ok tt /\
  exists sys inc, s' = set_events (st_events s ++ [TransferLoan from to c])
    (with_loans (st_ledger s) sys inc (st_loans s') s).

Lemma two_positions_le f c x y l : f = collateral \/ f = debit -> x <> y -> loans_wf l ->
  f (position_of c x l) + f (position_of c y l) <= f (total_of c l).
Proof.
  intros Hf Hne Hwf.
  assert (Hz : forall q, is_zero_position q = true -> f q = 0).
  { intros q Hq. apply zero_position_sides in Hq as [? ?]. by destruct Hf as [-> | ->]. }
  assert (f Position_default = 0) as Hd by (by destruct Hf as [-> | ->]).
  pose proof (side_sum_put f c x Position_default l c Hd Hz) as Hx.
  pose proof (side_sum_put f c y Position_default (put_position c x Position_default l) c Hd Hz) as Hy.
  rewrite position_of_put, (decide_False (P := (c, y) = (c, x))) in Hy by congruence. rewrite !decide_True in Hx, Hy by done.
  assert (0 <= side_sum f c (Positions (put_position c y Position_default (put_position c x Position_default l)))).
  { apply map_sum_nonneg. intros [c' w] p Hp. cbn in Hp.
    apply lookup_delete_Some in Hp as [_ [_ Hp]%lookup_delete_Some].
    apply (wf_position l Hwf) in Hp as ([? _] & [? _] & _). cbn. case_decide; [|done]. by destruct Hf as [-> | ->]. }
  pose proof (wf_total l Hwf c) as (E1 & E2 & _). fold (total_of c l) in E1, E2.
  assert (f (total_of c l) = side_sum f c (Positions l)) by (by destruct Hf as [-> | ->]). lia.
Qed.

Lemma adjusted_back p x y :
  mkPosition (collateral p - x + x) (debit p - y + y) = p.
Proof. destruct p. cbn. f_equal; lia. Qed.

(** The sums of the two positions that the transfer computes *)
Definition joint_position (from to : AccountId) (c : CurrencyId) (l : LoansStorage) : Position :=
  let p := position_of c from l in let q := position_of c to l in
  mkPosition (collateral q + collateral p) (debit q + debit p).
Lemma joint_position_fits from to c l : from <> to -> loans_wf l -> fits_position (joint_position from to c l).
Proof.
  intros Hne Hwf.
  pose proof (position_fits _ c from Hwf) as [[Hpc _] [Hpd _]]. pose proof (position_fits _ c to Hwf) as [[Hqc _] [Hqd _]].
  pose proof (two_positions_le collateral c from to _ (or_introl eq_refl) Hne Hwf) as Hsc.
  pose proof (two_positions_le debit c from to _ (or_intror eq_refl) Hne Hwf) as Hsd.
  pose proof (wf_total _ Hwf c) as (_ & _ & [_ Htc] & [_ Htd]). fold (total_of c l) in Htc, Htd.
  unfold joint_position, fits_position, is_u128. cbn. lia.
Qed.
Lemma transfer_loan_wp from to c s :
  fits_position (joint_position from to c (st_loans s)) -> loans_wf (st_loans s) ->
  wp (transfer_loan from to c) (fun _ => transferred_ok from to c s) (fun _ s' => s' = s) s.
Proof.
  intros Hfit Hwf. unfold transfer_loan. wp_guards.
  change (positions c from s) with (position_of c from (st_loans s)).
  change (positions c to s) with (position_of c to (st_loans s)).
  set (p := position_of c from (st_loans s)). set (q := position_of c to (st_loans s)).
  pose proof (position_fits _ c from Hwf : fits_position p) as [[Hpc0 Hpc1] [Hpd0 Hpd1]].
  pose proof (position_fits _ c to Hwf : fits_position q) as [[Hqc0 _] [Hqd0 _]].
  pose proof (position_le_total c from _ Hwf) as [Hlc Hld]. fold p in Hlc, Hld.
  pose proof (wf_total _ Hwf c) as (_ & _ & [_ Htc] & [_ Htd]). fold (total_of c (st_loans s)) in Htc, Htd.
  destruct Hfit as [[_ Hsc] [_ Hsd]]. unfold joint_position in Hsc, Hsd. fold p q in Hsc, Hsd. cbn in Hsc, Hsd.
  apply wp_expect. exists (collateral q + collateral p). split; [apply checked_add_Some; lia|]. wp_guards.
  apply wp_expect. exists (debit q + debit p). split; [apply checked_add_Some; lia|]. wp_guards.
  destruct (check_position_valid _ _ _ _) as [[]|e|] eqn:Ec; [|done|by apply check_position_no_panic in Ec].
  wp_guards. apply amount_some in Hopt as [-> Hcm]. apply amount_some in Hopt0 as [-> Hdm].
  assert (Hpc : 0 <= collateral p <= I128_MAX) by lia. assert (Hpd : 0 <= debit p <= I128_MAX) by lia.
  rewrite !saturating_neg_small by done.
  assert (Hf1 : fits_position (adjusted p (- collateral p) (- debit p)) /\
    fits_position (adjusted (total_of c (st_loans s)) (- collateral p) (- debit p))).
  { unfold adjusted, fits_position, is_u128. cbn. rewrite !applied_small_neg by done. lia. }
  eapply wp_mono; [apply update_loan_wp; [by apply small_neg|by apply small_neg|exact Hwf]| |].
  2: { intros e t Hn. exact (False_ind _ (Hn Hf1)). }
  intros _ s1 (Hfp & Hft & sys1 & inc1 & ->). wp_guards. cbn [st_loans set_incentives set_system set_loans].
  set (lo1 := updated_loans c from (- collateral p) (- debit p) (st_loans s)).
  assert (Hwf1 : loans_wf lo1) by (by apply updated_loans_wf).
  assert (Hp1 : position_of c from lo1 = Position_default).
  { subst lo1. rewrite position_of_updated, decide_True by done. unfold adjusted. fold p.
    rewrite !applied_small_neg by done. unfold Position_default. f_equal; lia. }
  set (q1 := if decide (from = to) then Position_default else q).
  assert (Hq1 : position_of c to lo1 = q1).
  { subst q1. destruct (decide (from = to)) as [<-|Hne]; [done|]. subst lo1. rewrite position_of_updated, decide_False by congruence. done. }
  assert (Hqle : 0 <= collateral q1 <= collateral q /\ 0 <= debit q1 <= debit q).
  { subst q1. destruct (decide (from = to)); cbn; lia. }
  assert (Ht1 : adjusted (total_of c lo1) (collateral p) (debit p) = total_of c (st_loans s)).
  { subst lo1. rewrite total_of_updated, decide_True by done. unfold adjusted. cbn.
    rewrite !applied_small_neg, !applied_small by (done || lia). apply (adjusted_back (total_of c (st_loans s))). }
  assert (Hf2 : fits_position (adjusted (position_of c to lo1) (collateral p) (debit p)) /\
    fits_position (adjusted (total_of c lo1) (collateral p) (debit p))).
  { rewrite Ht1, Hq1. unfold adjusted, fits_position, is_u128. cbn. rewrite !applied_small by lia. lia. }
  eapply wp_mono; [apply update_loan_wp; [by apply small_pos|by apply small_pos|exact Hwf1]| |].
  2: { intros e t Hn. cbn [st_loans set_incentives set_system set_loans] in Hn. fold lo1 in Hn.
       exact (False_ind _ (Hn Hf2)). }
  intros _ s2 (Hfp2 & Hft2 & sys2 & inc2 & ->).
  cbn [st_loans set_incentives set_system set_loans] in Hfp2, Hft2. fold lo1 in Hfp2, Hft2.
  pose proof (updated_loans_wf c to (collateral p) (debit p) lo1 Hwf1 Hfp2 Hft2) as Hwf2.
  apply wp_event. unfold transferred_ok.
  cbn [st_loans st_events st_ledger set_events set_incentives set_system set_loans]. fold lo1 p q.
  split; [exact Hwf2|].
  split_and!.
  - intros Hne. rewrite position_of_updated, decide_False by congruence. exact Hp1.
  - rewrite position_of_updated, decide_True by done. rewrite Hq1. unfold adjusted. rewrite !applied_small by lia.
    subst q1. destruct (decide (from = to)); [|done]. cbn. by destruct p.
  - intros c' x Hx Hy. subst lo1. by rewrite !position_of_updated, !decide_False by done.
  - intros c'. rewrite total_of_updated. case_decide; [subst; exact Ht1|].
    subst lo1. by rewrite total_of_updated, decide_False.
  - exact Ec.
  - by exists sys2, inc2.
Qed.
End Operations.

(** ** Claims *)
Section Claims.
Context `{ConfigLaws} `{!RiskManager, !DebitConvert, !RiskManagerLaws}
  `{!CDPTreasury, !CDPTreasuryLaws}.

(** Adjusting a position either fails and changes nothing, or changes the
    position and the totals of its collateral type by exactly the two signed
    amounts, moves the collateral between the owner and the account of the
    pallet, issues to (or burns from) the owner the value of the debit
    change, changes no other balance or issuance, and leaves a position that
    the risk manager accepts - below the debit cap if debit was added.  It
    never panics. *)
Theorem adjust_position_spec who c ca da s :
  is_i128 ca -> is_i128 da -> cdp_typed (st_cdp s) -> loans_wf (st_loans s) ->
  wp (adjust_position who c ca da) (fun _ => adjusted_ok who c ca da s) (fun _ s' => s' = s) s.
Proof. intros. by apply adjust_position_wp. Qed.

Inductive LoanOp :=
  | Adjust (who : AccountId) (c : CurrencyId) (ca da : Amount)
  | Confiscate (who : AccountId) (c : CurrencyId) (cc dd : Balance)
  | Transfer (from to : AccountId) (c : CurrencyId).
Definition run_loan_op (op : LoanOp) : Run unit :=
  match op with
  | Adjust who c ca da => adjust_position who c ca da
  | Confiscate who c cc dd => confiscate_collateral_and_debit who c cc dd
  | Transfer from to c => transfer_loan from to c
  end.
Definition loan_op_ok (op : LoanOp) : Prop :=
  match op with
  | Adjust who _ ca da => who <> loans_account_id /\ is_i128 ca /\ is_i128 da
  | Confiscate _ _ cc dd => is_u128 cc /\ is_u128 dd
  | Transfer _ _ _ => True
  end.
(** A transfer of a position to its own owner computes its double. *)
Definition loan_overflow (op : LoanOp) (s : State) : Prop :=
  match op with
  | Transfer from to c => from = to /\ ~ fits_position (joint_position from to c (st_loans s))
  | _ => False
  end.

Lemma transfer_loan_overflow who c s : loans_wf (st_loans s) ->
  ~ fits_position (joint_position who who c (st_loans s)) -> (transfer_loan who who c s).1 = Panic.
Proof.
  intros Hwf Hfit. pose proof (position_fits _ c who Hwf) as [[Hc _] [Hd _]].
  unfold transfer_loan, mbind, M_bind, gets. change (positions c who s) with (position_of c who (st_loans s)).
  unfold joint_position, fits_position, is_u128 in Hfit. cbn in Hfit. set (p := position_of c who (st_loans s)) in *.
  unfold U128.checked_add.
  destruct (Z.leb_spec (collateral p + collateral p) U128_MAX) as [Hlc|]; [|done]. cbn [expect].
  destruct (Z.leb_spec (debit p + debit p) U128_MAX) as [Hld|]; [|done]. exfalso. apply Hfit. lia.
Qed.
Lemma fits_position_dec p : fits_position p \/ ~ fits_position p.
Proof. unfold fits_position, is_u128. lia. Qed.

(** C3: the books of the loans pallet balance.  Every operation either
    fails without a trace or keeps the invariant: the totals of each
    collateral type are the sums of its positions (all in range, zero ones
    removed), and the account of the pallet holds at least the total
    collateral.  The one operation that panics is the transfer of a position to
    its own owner, and it does exactly when twice the collateral or twice the
    debit exceeds 128 bits: there the [expect] on the sum of the two positions
    fails, which between two accounts it cannot.  Amounts are in the range of
    their types, and the account of the pallet, whose key no one has, has no
    position of its own. *)
Theorem loans_ops_safe op s : loan_op_ok op -> cdp_typed (st_cdp s) -> loans_inv s ->
  match run_loan_op op s with
  | (Ok _, s') => loans_inv s'
  | (Err _, s') => s' = s
  | (Panic, _) => loan_overflow op s
  end /\ (loan_overflow op s -> (run_loan_op op s).1 = Panic).
Proof.
  intros Hok Hct Hinv.
  assert (Hsafe : ~ loan_overflow op s -> wp (run_loan_op op) (fun _ => loans_inv) (fun _ s' => s' = s) s).
  { intros Hno. destruct op as [who c ca da|who c cc dd|from to c]; cbn [run_loan_op loan_op_ok loan_overflow] in *.
    - destruct Hok as (? & ? & ?). eapply wp_mono; [apply adjust_position_wp; (done || apply Hinv)| |done].
      intros [] s'. by apply adjusted_inv.
    - destruct Hok. eapply wp_mono; [by apply confiscate_wp, Hinv| |done].
      intros [] s'. by apply confiscated_inv.
    - assert (Hfit : fits_position (joint_position from to c (st_loans s))).
      { destruct (decide (from = to)) as [Heq|Hne]; [|by apply joint_position_fits, Hinv].
        by destruct (fits_position_dec (joint_position from to c (st_loans s))); [|destruct Hno]. }
      eapply wp_mono; [by apply transfer_loan_wp, Hinv| |done].
      intros [] s' (Hwf & _ & _ & _ & Ht & _ & sys & inc & Hs'). split; [done|].
      intros c'. rewrite Ht, Hs'. apply Hinv. }
  assert (Hover : loan_overflow op s -> (run_loan_op op s).1 = Panic).
  { destruct op as [| |from to c]; [done..|]. intros [<- Hfit]. by apply transfer_loan_overflow; [apply Hinv|]. }
  split; [|exact Hover]. assert (Hdec : loan_overflow op s \/ ~ loan_overflow op s).
  { destruct op as [| |from to c]; [right; cbn; tauto..|]. cbn.
    destruct (decide (from = to)), (fits_position_dec (joint_position from to c (st_loans s))); tauto. }
  destruct Hdec as [Ho|Ho].
  - specialize (Hover Ho). by destruct (run_loan_op op s) as [[] ?].
  - specialize (Hsafe Ho). unfold wp in Hsafe. by destruct (run_loan_op op s) as [[] ?].
Qed.

(** Transferring a loan moves the whole position: the old owner's
    position is removed, the new owner's one is the sum of both and is
    accepted by the risk manager, every other position, all totals and all
    balances stay; and a transfer that fails changes nothing although the
    function itself is not transactional. *)
Theorem transfer_loan_spec from to c s :
  from <> to -> loans_wf (st_loans s) ->
  wp (transfer_loan from to c) (fun _ => transferred_ok from to c s) (fun _ s' => s' = s) s.
Proof. intros. by apply transfer_loan_wp; [apply joint_position_fits|]. Qed.
End Claims.

(** ** A runtime the claims apply to *)
From S2P Require Import Treasury.
#[local] Existing Instance sample.
#[local] Existing Instance sample_laws.

(** A debit amount is worth itself, and a position is safe when its debit is at
    most two thirds of its collateral. *)
#[local] Instance sample_risk : RiskManager := {
  get_bad_debt_value _ n _ := n;
  check_position_valid _ x y _ :=
    if 3 * y <=? 2 * x then Ok tt else Err (CdpEngineE CdpEngineError.BelowRequiredCollateralRatio);
  check_debit_cap _ n _ :=
    if n <=? 1000000 then Ok tt else Err (CdpEngineE CdpEngineError.ExceedDebitValueHardCap);
}.
#[local] Instance sample_convert : DebitConvert := { convert _ n _ := n }.
#[local] Instance sample_risk_laws : RiskManagerLaws.
Proof. split; intros; cbn; (done || by case_match). Qed.

Definition loans_sample : State :=
  let s := sample_state [(Token DOT, alice, 1000); (Token DOT, bob, 500)] (fun _ => Some DIV) in
  (adjust_position alice (Token DOT) 600 300 s).2.

Lemma empty_cdp_typed : cdp_typed (mkCdp ∅ 0 ∅ 0).
Proof. split; [by intros c r|cbn; uarith|by intros c p]. Qed.
Lemma initial_loans_inv bs prices : loans_inv (sample_state bs prices).
Proof.
  split; [split|].
  - by intros c who p.
  - intros c. cbv zeta. unfold side_sum. cbn [st_loans sample_state sample_state_with Positions TotalPositions].
    rewrite !map_sum_empty. split_and!; cbn; (done || uarith).
  - intros c. pose proof (free_balance_u128 (st_ledger (sample_state bs prices)) c loans_account_id) as [? _].
    done.
Qed.
Lemma loans_sample_inv : loans_inv loans_sample.
Proof.
  assert (Hw : wp (adjust_position alice (Token DOT) 600 300) (fun _ => loans_inv) (fun _ _ => True)
    (sample_state [(Token DOT, alice, 1000); (Token DOT, bob, 500)] (fun _ => Some DIV))).
  { eapply wp_mono; [apply adjust_position_wp; [wcheck|wcheck|apply empty_cdp_typed|apply initial_loans_inv]| |].
    - intros [] s'. apply adjusted_inv; [apply initial_loans_inv|discriminate].
    - done. }
  refine (wp_ok _ _ _ _ tt _ Hw _). unfold loans_sample. apply run_split. vm_compute. reflexivity.
Qed.

Lemma adjust_position_spec_witness :
  wp (adjust_position alice (Token DOT) (-100) (-50))
    (fun _ => adjusted_ok alice (Token DOT) (-100) (-50) loans_sample)
    (fun _ s' => s' = loans_sample) loans_sample.
Proof.
  apply (adjust_position_spec alice (Token DOT) (-100) (-50) loans_sample); [wcheck|wcheck|apply empty_cdp_typed|].
  apply loans_sample_inv.
Defined.
(** Half of the collateral, to oneself *)
Definition doubled : State := set_loans (mkLoans {[(Token DOT, alice) := mkPosition (2 ^ 127) 0]} {[Token DOT := mkPosition (2 ^ 127) 0]}) loans_sample.
Example self_transfer_panics : (transfer_loan alice alice (Token DOT) doubled).1 = Panic.
Proof. vm_compute. reflexivity. Qed.
Lemma loans_ops_safe_witness :
  let run := run_loan_op (Transfer alice alice (Token DOT)) loans_sample in
  run.1 = Ok tt /\ loans_inv run.2 /\
  match run_loan_op (Confiscate alice (Token DOT) 600 300) loans_sample with
  | (Ok _, s') => loans_inv s' | (Err _, s') => s' = loans_sample | (Panic, _) => False end.
Proof.
  assert (Hop : loan_op_ok (Confiscate alice (Token DOT) 600 300)) by wcheck.
  intros run. assert (Hok : run.1 = Ok tt) by (vm_compute; reflexivity). split; [exact Hok|].
  pose proof (loans_ops_safe (Transfer alice alice (Token DOT)) loans_sample I empty_cdp_typed loans_sample_inv) as [Hs _].
  pose proof (loans_ops_safe (Confiscate alice (Token DOT) 600 300) loans_sample Hop empty_cdp_typed loans_sample_inv) as [Hc _].
  split; [|exact Hc].
  change (run_loan_op (Transfer alice alice (Token DOT)) loans_sample) with run in Hs. clearbody run.
  destruct run as [[[]|e|] s']; [exact Hs|discriminate Hok|discriminate Hok].
Defined.
Lemma transfer_loan_spec_witness :
  wp (transfer_loan alice bob (Token DOT)) (fun _ => transferred_ok alice bob (Token DOT) loans_sample)
    (fun _ s' => s' = loans_sample) loans_sample.
Proof.
  apply (transfer_loan_spec alice bob (Token DOT) loans_sample); [discriminate|].
  apply loans_sample_inv.
Defined.
