(* ===== verification/Prices.v ===== *)
(** * Prices

    [modules/prices/src/lib.rs]: the price of a currency from the oracle, a
    lock, the liquid staking rate or the fair value of a liquidity token, and
    the integer square root it uses. *)
From S2P Require Import Prelude FixedPoint Primitives Runtime Sample Support.

(** ** The integer square root

    [None] where the 256-bit arithmetic of the code would overflow (it panics)
    or the fuel runs out; [integer_sqrt_correct] shows that neither happens. *)
Definition SQRT_FUEL : nat := 129.

Fixpoint integer_sqrt_fuel (fuel : nat) (n : Z) : option Z :=
  match fuel with
  | O => None
  | S fuel =>
      if n <? 2 then Some n
      else
        r ← integer_sqrt_fuel fuel (Z.shiftr n 2);
        let small_candidate := Z.land (Z.shiftl r 1) U256_MAX in
        large_candidate ← U256.checked_add small_candidate 1;
        square ← U256.checked_mul large_candidate large_candidate;
        Some (if n <? square then small_candidate else large_candidate)
  end.
Definition integer_sqrt (n : Z) : option Z := integer_sqrt_fuel SQRT_FUEL n.

(** The inner value of the fair price; the outer [option] is the square root's. *)
Definition lp_token_fair_price (total_shares pool_a pool_b : Balance) (price_a price_b : Price)
    : option (option Price) :=
  x ← integer_sqrt (U256.saturating_mul pool_a pool_b);
  y ← integer_sqrt (U256.saturating_mul price_a price_b);
  Some (n ← U256.checked_div (U256.saturating_mul x y) total_shares;
        r ← U256.checked_mul n 2;
        U128.try_from r).

Section Model.
Context `{Config, !DEXManager}.

Definition locked_price (c : CurrencyId) (s : State) : option Price := st_locked_price s !! c.
Definition source_price (c : CurrencyId) (s : State) : option Price := oracle_price (st_env s) c.
Definition put_locked_price (c : CurrencyId) (v : Price) : Run unit :=
  modify (fun s => set_locked_price (<[c := v]> (st_locked_price s)) s).
Definition remove_locked_price (c : CurrencyId) : Run unit :=
  modify (fun s => set_locked_price (delete c (st_locked_price s)) s).

(** The price for one basic unit: the feed divided by [10 ^ decimals]. *)
Definition adjust_decimals (feed : option Price) (c : CurrencyId) (s : State) : option Price :=
  d ← map_decimals (st_mapping s) c;
  let maybe_adjustment_multiplier := U128.checked_pow 10 d in
  feed_price ← feed;
  adjustment_multiplier ← maybe_adjustment_multiplier;
  checked_from_rational feed_price adjustment_multiplier.

(** [get_price]; it calls itself for the staking currency behind the liquid
    one and for the two sides of a liquidity token. *)
Fixpoint get_price_fuel (fuel : nat) (c : CurrencyId) (s : State) : option Price :=
  match fuel with
  | O => None
  | S fuel =>
      if decide (c = GetStableCurrencyId) then
        adjust_decimals (Some StableCurrencyFixedPrice) c s
      else if decide (c = GetLiquidCurrencyId) then
        n ← get_price_fuel fuel GetStakingCurrencyId s;
        fx_checked_mul n (liquid_exchange_rate (st_env s))
      else
        match c with
        | CDexShare symbol_0 symbol_1 =>
            let token_0 := share_into symbol_0 in
            let token_1 := share_into symbol_1 in
            price_0 ← get_price_fuel fuel token_0 s;
            price_1 ← get_price_fuel fuel token_1 s;
            let '(pool_0, pool_1) := get_liquidity_pool token_0 token_1 s in
            default None (lp_token_fair_price (total_issuance c s) pool_0 pool_1 price_0 price_1)
        | _ =>
            adjust_decimals
              match locked_price c s with Some v => Some v | None => source_price c s end c s
        end
  end.

(** A liquidity token, its liquid side, and the staking currency behind it. *)
Definition PRICE_FUEL : nat := 3.
Definition prices_get_price (c : CurrencyId) (s : State) : option Price :=
  get_price_fuel PRICE_FUEL c s.

Definition prices_get_relative_price (base quote : CurrencyId) (s : State) : option Price :=
  base_price ← prices_get_price base s;
  quote_price ← prices_get_price quote s;
  fx_checked_div base_price quote_price.

Definition prices_lock_price (c : CurrencyId) : Run unit :=
  feed ← gets (source_price c);
  match feed with
  | Some val => _ ← put_locked_price c val; deposit_event (LockPrice c val)
  | None => mret tt
  end.
Definition prices_unlock_price (c : CurrencyId) : Run unit :=
  _ ← remove_locked_price c; deposit_event (UnlockPrice c).

(** Extrinsics *)
Definition lock_price_call (origin : Origin) (c : CurrencyId) : Run unit :=
  transactional (_ ← ensure_origin LockOrigin origin; prices_lock_price c).
Definition unlock_price_call (origin : Origin) (c : CurrencyId) : Run unit :=
  transactional (_ ← ensure_origin LockOrigin origin; prices_unlock_price c).
End Model.

(** ** The square root is exact *)
Section Sqrt.
Lemma sqrt_quarter n : 0 <= n ->
  let r := Z.sqrt (n / 4) in 2 * r <= Z.sqrt n <= 2 * r + 1.
Proof.
  intros Hn r. pose proof (Z.sqrt_spec n Hn) as [Hlo Hhi].
  pose proof (Z.sqrt_spec (n / 4) ltac:(apply Z.div_pos; lia)) as [Hlo4 Hhi4]. fold r in Hlo4, Hhi4.
  pose proof (Z.sqrt_nonneg n). pose proof (Z.sqrt_nonneg (n / 4)). fold r in H0.
  pose proof (Z.mul_div_le n 4 ltac:(lia)). pose proof (Z.mul_succ_div_gt n 4 ltac:(lia)).
  unfold Z.succ in *. split; nia.
Qed.
Lemma sqrt_step n r : 2 <= n -> r = Z.sqrt (n / 4) ->
  Z.sqrt n = if n <? (2 * r + 1) * (2 * r + 1) then 2 * r else 2 * r + 1.
Proof.
  intros Hn ->. pose proof (sqrt_quarter n ltac:(lia)) as Hq. cbv zeta in Hq.
  pose proof (Z.sqrt_spec n ltac:(lia)) as [Hlo Hhi]. unfold Z.succ in *.
  destruct (Z.ltb_spec n ((2 * Z.sqrt (n / 4) + 1) * (2 * Z.sqrt (n / 4) + 1))); nia.
Qed.
(** The largest candidate is below [2 ^ 128]. *)
Lemma sqrt_bound n : 0 <= n < 2 ^ 256 -> 0 <= Z.sqrt n < 2 ^ 128.
Proof.
  intros Hn. split; [apply Z.sqrt_nonneg|]. apply Z.sqrt_lt_square; [lia|lia|].
  change (2 ^ 128 * 2 ^ 128) with (2 ^ 256). lia.
Qed.
Lemma quarter_bound n : 0 <= n < 2 ^ 256 -> 0 <= 2 * Z.sqrt (n / 4) + 1 < 2 ^ 128.
Proof.
  intros Hn. pose proof (Z.sqrt_nonneg (n / 4)). split; [lia|].
  assert (Z.sqrt (n / 4) < 2 ^ 127).
  { apply Z.sqrt_lt_square; [apply Z.div_pos; lia|lia|].
    change (2 ^ 127 * 2 ^ 127) with (2 ^ 254). apply Z.div_lt_upper_bound; [lia|].
    change (4 * 2 ^ 254) with (2 ^ 256). lia. }
  change (2 ^ 128) with (2 * 2 ^ 127). lia.
Qed.

Lemma square_fits x : 0 <= x < 2 ^ 128 -> U256.checked_mul x x = Some (x * x).
Proof.
  intros Hx. unfold U256.checked_mul. destruct (Z.leb_spec (x * x) U256_MAX) as [|Hgt]; [done|].
  exfalso. assert (x * x <= (2 ^ 128 - 1) * (2 ^ 128 - 1)) by nia.
  assert ((2 ^ 128 - 1) * (2 ^ 128 - 1) <= U256_MAX) by (vm_compute; discriminate). lia.
Qed.

Lemma integer_sqrt_fuel_correct fuel n : 0 <= n < 2 ^ 256 -> n < 4 ^ Z.of_nat fuel ->
  integer_sqrt_fuel (S fuel) n = Some (Z.sqrt n).
Proof.
  revert n. induction fuel as [|fuel IH]; intros n Hn Hf.
  - change (4 ^ Z.of_nat 0) with 1 in Hf. by replace n with 0 by lia.
  - cbn [integer_sqrt_fuel]. destruct (Z.ltb_spec n 2) as [H2|H2].
    { assert (n = 0 \/ n = 1) as [-> | ->] by lia; done. }
    assert (Hq : Z.shiftr n 2 = n / 4) by (rewrite Z.shiftr_div_pow2 by lia; done).
    change (if Z.shiftr n 2 <? 2 then _ else _) with (integer_sqrt_fuel (S fuel) (Z.shiftr n 2)).
    rewrite Hq, IH.
    + pose proof (quarter_bound n Hn) as Hb. cbn [mbind option_bind].
      assert (Hland : Z.land (Z.shiftl (Z.sqrt (n / 4)) 1) U256_MAX = 2 * Z.sqrt (n / 4)).
      { change U256_MAX with (Z.ones 256). rewrite Z.land_ones, Z.shiftl_mul_pow2 by lia.
        rewrite Z.mod_small; [lia|]. pose proof (Z.sqrt_nonneg (n / 4)).
        assert (2 ^ 128 < 2 ^ 256) by (vm_compute; reflexivity). lia. }
      rewrite Hland. unfold U256.checked_add.
      destruct (Z.leb_spec (2 * Z.sqrt (n / 4) + 1) U256_MAX) as [_|Hgt].
      2: { assert (2 ^ 128 <= U256_MAX) by (vm_compute; discriminate). lia. }
      cbn [mbind option_bind]. rewrite square_fits by done. cbn [mbind option_bind].
      f_equal. symmetry. by apply sqrt_step.
    + split; [apply Z.div_pos; lia|]. apply Z.div_lt_upper_bound; lia.
    + apply Z.div_lt_upper_bound; [lia|]. rewrite Nat2Z.inj_succ, Z.pow_succ_r in Hf by lia. lia.
Qed.
Lemma integer_sqrt_u256 n : is_u256 n -> integer_sqrt n = Some (Z.sqrt n).
Proof.
  intros Hn. assert (n < 2 ^ 256) by (unfold is_u256 in Hn; change (2 ^ 256) with (U256_MAX + 1); lia).
  apply integer_sqrt_fuel_correct; [unfold is_u256 in Hn; lia|]. exact H.
Qed.
End Sqrt.

(** ** The fair price *)
Section FairPrice.
Definition fair_price (total pa pb xa xb : Z) : option Z :=
  if total =? 0 then None
  else let v := 2 * (Z.sqrt (pa * pb) * Z.sqrt (xa * xb) / total) in
       if v <=? U128_MAX then Some v else None.

Lemma u128_square_fits a b : is_u128 a -> is_u128 b ->
  U256.saturating_mul a b = a * b /\ is_u256 (a * b).
Proof.
  intros [? ?] [? ?]. assert (a * b <= U128_MAX * U128_MAX) by nia.
  assert (U128_MAX * U128_MAX <= U256_MAX) by (vm_compute; discriminate).
  unfold U256.saturating_mul, is_u256. lia.
Qed.
Lemma sqrt_u128 n : is_u256 n -> is_u128 (Z.sqrt n).
Proof.
  intros Hn. assert (Hb : 0 <= n < 2 ^ 256) by (unfold is_u256 in Hn; change (2 ^ 256) with (U256_MAX + 1); lia).
  pose proof (sqrt_bound n Hb). unfold is_u128. change U128_MAX with (2 ^ 128 - 1). lia.
Qed.

Lemma lp_token_fair_price_eq total pa pb xa xb :
  is_u128 total -> is_u128 pa -> is_u128 pb -> is_u128 xa -> is_u128 xb ->
  lp_token_fair_price total pa pb xa xb = Some (fair_price total pa pb xa xb).
Proof.
  intros Ht Hpa Hpb Hxa Hxb. unfold lp_token_fair_price, fair_price.
  destruct (u128_square_fits pa pb Hpa Hpb) as [-> Hp]. destruct (u128_square_fits xa xb Hxa Hxb) as [-> Hx].
  rewrite !integer_sqrt_u256 by done. cbn [mbind option_bind]. f_equal.
  destruct (u128_square_fits _ _ (sqrt_u128 _ Hp) (sqrt_u128 _ Hx)) as [-> Hs].
  unfold U256.checked_div. destruct (Z.eqb_spec total 0) as [|Hne]; [done|]. cbn [mbind option_bind].
  set (n := _ / total). assert (Hn : is_u256 n).
  { subst n. unfold is_u128, is_u256 in *. split; [apply Z.div_pos; lia|].
    apply Z.div_le_upper_bound; nia. }
  unfold U256.checked_mul, U128.try_from. rewrite (Z.mul_comm n 2).
  destruct (Z.leb_spec (2 * n) U256_MAX) as [|Hgt]; cbn [mbind option_bind]; [done|].
  destruct (Z.leb_spec (2 * n) U128_MAX); [|done]. unfold U256_MAX, U128_MAX in *. lia.
Qed.

(** Arithmetic and geometric mean. *)
Lemma sqrt_product_le u v : 0 <= u -> 0 <= v -> 2 * Z.sqrt (u * v) <= u + v.
Proof.
  intros Hu Hv. pose proof (Z.sqrt_spec (u * v) ltac:(nia)) as [Hs _]. pose proof (Z.sqrt_nonneg (u * v)) as Hn.
  revert Hs Hn. generalize (Z.sqrt (u * v)). intros r Hs Hn.
  destruct (Z.le_gt_cases (2 * r) (u + v)) as [|Hgt]; [done|].
  assert ((u + v) * (u + v) < (2 * r) * (2 * r)) by nia.
  pose proof (Z.square_nonneg (u - v)). lia.
Qed.
Lemma sqrt_mul_le u v : 0 <= u -> 0 <= v -> Z.sqrt u * Z.sqrt v <= Z.sqrt (u * v).
Proof. intros. apply Z.sqrt_mul_below. Qed.

Lemma fair_price_le_holdings total pa pb xa xb r :
  0 <= total -> 0 <= pa -> 0 <= pb -> 0 <= xa -> 0 <= xb ->
  fair_price total pa pb xa xb = Some r -> r * total <= pa * xa + pb * xb.
Proof.
  intros Ht Hpa Hpb Hxa Hxb. unfold fair_price. destruct (Z.eqb_spec total 0); [done|].
  cbv zeta. case_match; [|done]. intros [= <-].
  pose proof (Z.mul_div_le (Z.sqrt (pa * pb) * Z.sqrt (xa * xb)) total ltac:(lia)) as Hd.
  pose proof (sqrt_mul_le (pa * pb) (xa * xb) ltac:(nia) ltac:(nia)) as Hm.
  pose proof (sqrt_product_le (pa * xa) (pb * xb) ltac:(nia) ltac:(nia)) as Hg.
  replace (pa * xa * (pb * xb)) with (pa * pb * (xa * xb)) in Hg by ring. nia.
Qed.
End FairPrice.

Section Fuel.
Context `{Config, !DEXManager}.

Lemma base_price c n s : GetStakingCurrencyId <> GetLiquidCurrencyId ->
  (forall s0 s1, GetStakingCurrencyId <> CDexShare s0 s1) ->
  c = GetStakingCurrencyId -> get_price_fuel (S n) c s = get_price_fuel 1 c s.
Proof.
  intros Hne Hns ->. cbn [get_price_fuel]. case_decide; [done|].
  rewrite !decide_False by done.
  destruct GetStakingCurrencyId as [|t0 t1| |]; try done. by destruct (Hns t0 t1).
Qed.
Lemma side_price c n s : GetStakingCurrencyId <> GetLiquidCurrencyId ->
  (forall s0 s1, GetStakingCurrencyId <> CDexShare s0 s1) -> (forall s0 s1, c <> CDexShare s0 s1) ->
  get_price_fuel (S (S n)) c s = get_price_fuel 2 c s.
Proof.
  intros Hne Hns Hc. change (get_price_fuel (S (S n)) c s) with
    (if decide (c = GetStableCurrencyId) then adjust_decimals (Some StableCurrencyFixedPrice) c s
     else if decide (c = GetLiquidCurrencyId) then
       m ← get_price_fuel (S n) GetStakingCurrencyId s; fx_checked_mul m (liquid_exchange_rate (st_env s))
     else match c with
          | CDexShare t0 t1 =>
            price_0 ← get_price_fuel (S n) (share_into t0) s;
            price_1 ← get_price_fuel (S n) (share_into t1) s;
            let '(pool_0, pool_1) := get_liquidity_pool (share_into t0) (share_into t1) s in
            default None (lp_token_fair_price (total_issuance c s) pool_0 pool_1 price_0 price_1)
          | _ => adjust_decimals match locked_price c s with Some v => Some v | None => source_price c s end c s
          end).
  rewrite (base_price GetStakingCurrencyId) by done. cbn [get_price_fuel].
  case_decide; [done|]. case_decide; [done|]. destruct c as [|t0 t1| |]; try done. by destruct (Hc t0 t1).
Qed.
(** More fuel than [PRICE_FUEL] changes nothing. *)
Lemma price_fuel_enough n c s : GetStakingCurrencyId <> GetLiquidCurrencyId ->
  (forall s0 s1, GetStakingCurrencyId <> CDexShare s0 s1) ->
  get_price_fuel (n + PRICE_FUEL) c s = prices_get_price c s.
Proof.
  intros Hne Hns. unfold prices_get_price, PRICE_FUEL. rewrite Nat.add_comm. cbn [Nat.add].
  change (get_price_fuel (S ?m) c s) with
    (if decide (c = GetStableCurrencyId) then adjust_decimals (Some StableCurrencyFixedPrice) c s
     else if decide (c = GetLiquidCurrencyId) then
       m' ← get_price_fuel m GetStakingCurrencyId s; fx_checked_mul m' (liquid_exchange_rate (st_env s))
     else match c with
          | CDexShare t0 t1 =>
            price_0 ← get_price_fuel m (share_into t0) s;
            price_1 ← get_price_fuel m (share_into t1) s;
            let '(pool_0, pool_1) := get_liquidity_pool (share_into t0) (share_into t1) s in
            default None (lp_token_fair_price (total_issuance c s) pool_0 pool_1 price_0 price_1)
          | _ => adjust_decimals match locked_price c s with Some v => Some v | None => source_price c s end c s
          end).
  rewrite !(base_price GetStakingCurrencyId (S n)), (base_price GetStakingCurrencyId 1) by done.
  repeat case_decide; try done. destruct c as [|t0 t1| |]; try done.
  assert (Hshare : forall t u0 u1, share_into t <> CDexShare u0 u1) by (by intros []).
  by rewrite (side_price (share_into t0) n), (side_price (share_into t1) n) by (done || apply Hshare).
Qed.
End Fuel.

#[export] Instance price_provider `{Config, !DEXManager} : PriceProvider := {
  get_relative_price := prices_get_relative_price;
  get_price := prices_get_price;
  lock_price := prices_lock_price;
  unlock_price := prices_unlock_price;
}.

(** ** The promises to the other pallets *)
Section PriceLaws.
Context `{ConfigLaws} `{!DEXManager, !DEXManagerLaws}.

Lemma fair_price_u128 total pa pb xa xb r :
  is_u128 total -> fair_price total pa pb xa xb = Some r -> is_u128 r.
Proof.
  intros Ht. unfold fair_price. destruct (Z.eqb_spec total 0); [done|]. cbv zeta.
  destruct (Z.leb_spec (2 * (Z.sqrt (pa * pb) * Z.sqrt (xa * xb) / total)) U128_MAX); [|done].
  intros [= <-]. split; [|done]. destruct Ht.
  assert (0 <= Z.sqrt (pa * pb) * Z.sqrt (xa * xb) / total); [|lia].
  apply Z.div_pos; [|lia]. apply Z.mul_nonneg_nonneg; apply Z.sqrt_nonneg.
Qed.
Lemma adjust_decimals_u128 feed c s p :
  (forall v, feed = Some v -> is_u128 v) -> adjust_decimals feed c s = Some p -> is_u128 p.
Proof.
  intros Hf. unfold adjust_decimals. destruct (map_decimals _ _) as [d|]; [|done]. cbn [mbind option_bind].
  destruct feed as [v|]; [|done]. cbn [mbind option_bind].
  destruct (U128.checked_pow 10 d) as [m|] eqn:Em; [|done]. cbn [mbind option_bind]. intros Hp.
  apply cfr_Some in Hp as (_ & ? & _); [done|by apply Hf|].
  unfold U128.checked_pow in Em. destruct (Z.leb_spec (10 ^ d) U128_MAX); [|done].
  injection Em as <-. split; [apply Z.pow_nonneg; lia|done].
Qed.
Lemma get_price_u128 n c s p : prices_typed s -> get_price_fuel n c s = Some p -> is_u128 p.
Proof.
  intros (Ho & Hl & Hr & Hd). revert c p. induction n as [|n IH]; intros c p; [done|]. cbn [get_price_fuel].
  destruct default_rates_u128 as (_ & _ & _ & Hst).
  case_decide; [apply adjust_decimals_u128; by intros v [= <-]|].
  case_decide.
  { destruct (get_price_fuel n GetStakingCurrencyId s) as [m|] eqn:Em; [|done]. cbn [mbind option_bind].
    intros Hp. apply fcm_Some in Hp as [? _]; [done|by eapply IH|done]. }
  assert (Hfeed : forall v, match locked_price c s with Some v => Some v | None => source_price c s end = Some v ->
    is_u128 v).
  { intros v. unfold locked_price, source_price. destruct (st_locked_price s !! c) as [w|] eqn:Ew; [|by apply Ho].
    intros [= <-]. by eapply Hl. }
  destruct c as [|t0 t1| |]; try (by apply adjust_decimals_u128).
  destruct (get_price_fuel n (share_into t0) s) as [p0|] eqn:E0; [|done]. cbn [mbind option_bind].
  destruct (get_price_fuel n (share_into t1) s) as [p1|] eqn:E1; [|done]. cbn [mbind option_bind].
  pose proof (pool_u128 (share_into t0) (share_into t1) s Hd) as [Hq0 Hq1].
  destruct (get_liquidity_pool _ _ s) as [q0 q1]. cbn in Hq0, Hq1. pose proof (total_issuance_u128 (st_ledger s)) as Hi.
  rewrite lp_token_fair_price_eq by (done || apply Hi || by eapply IH). cbn. apply fair_price_u128, Hi.
Qed.
Lemma get_price_frame n c s t : price_agree s t -> get_price_fuel n c t = get_price_fuel n c s.
Proof.
  intros [E1 E2 E3 E4 E5]. revert c. induction n as [|n IH]; intros c; [done|]. cbn [get_price_fuel].
  assert (Had : forall f c, adjust_decimals f c t = adjust_decimals f c s).
  { intros f c'. unfold adjust_decimals. by rewrite E4. }
  rewrite !Had, IH, E2. unfold locked_price, source_price. rewrite E2, E3. destruct c; try done.
  rewrite !IH, E5. by rewrite (pool_frame _ _ s t E1).
Qed.
End PriceLaws.

#[export] Instance price_provider_laws `{ConfigLaws} `{!DEXManager, !DEXManagerLaws} : PriceProviderLaws.
Proof.
  split; unfold get_relative_price, price_provider, prices_get_relative_price, prices_get_price.
  - intros a b s p Ht. destruct (get_price_fuel PRICE_FUEL a s) as [x|] eqn:Ex; [|done]. cbn [mbind option_bind].
    destruct (get_price_fuel PRICE_FUEL b s) as [y|] eqn:Ey; [|done]. cbn [mbind option_bind]. intros Hp.
    apply fcd_Some in Hp as (_ & ? & _); [done|by eapply get_price_u128|by eapply get_price_u128].
  - intros a b s t Ht. by rewrite !(get_price_frame PRICE_FUEL _ s t Ht).
  - intros c s. unfold lock_price, prices_lock_price. wp_guards. wp_branch.
    + by eexists _, _.
    + exists (st_locked_price s), (st_events s). by destruct s.
Qed.

(** ** Claims *)

(** The integer square root terminates without overflow on every 256-bit
    number: 129 nested calls are enough, no intermediate shift, increment or
    square leaves 256 bits, and the result is the exact floor of the root. *)
Theorem integer_sqrt_correct n : is_u256 n -> integer_sqrt n = Some (Z.sqrt n).
Proof. apply integer_sqrt_u256. Qed.

(** The fair price of a liquidity token, when there is one, is twice the
    product of the roots of the pool's constant product and of the two prices,
    per share; it depends on the pool only through the constant product, and it
    never values the shares above what the pool holds at those prices. *)
Theorem lp_token_fair_price_bounded total pa pb xa xb :
  is_u128 total -> is_u128 pa -> is_u128 pb -> is_u128 xa -> is_u128 xb ->
  lp_token_fair_price total pa pb xa xb = Some (fair_price total pa pb xa xb) /\
  forall r, fair_price total pa pb xa xb = Some r -> r * total <= pa * xa + pb * xb.
Proof.
  intros Ht Hpa Hpb Hxa Hxb. split; [by apply lp_token_fair_price_eq|].
  intros r. destruct Ht, Hpa, Hpb, Hxa, Hxb. by apply fair_price_le_holdings.
Qed.

Section Claims.
Context `{Config, !DEXManager}.

(** A currency whose price comes from a feed. *)
Definition fed (c : CurrencyId) : Prop :=
  c <> GetStableCurrencyId /\ c <> GetLiquidCurrencyId /\ is_dex_share_currency_id c = false.
Lemma fed_price c s : fed c ->
  prices_get_price c s = adjust_decimals
    match locked_price c s with Some v => Some v | None => source_price c s end c s.
Proof.
  intros (Hs & Hl & Hd). unfold prices_get_price. cbn [PRICE_FUEL get_price_fuel].
  rewrite !decide_False by done. by destruct c.
Qed.

(** A locked price stays.  Once the lock origin has locked the price of
    a fed currency, [get_price] answers from the price at that moment
    whatever the oracle says later, until the lock is removed; then it
    follows the oracle again.  Without a feed, locking does nothing. *)
Theorem locked_price_pins o c s s1 :
  fed c -> lock_price_call o c s = (Ok tt, s1) ->
  LockOrigin o = true /\
  match source_price c s with
  | None => s1 = s
  | Some v =>
      (forall e, let s2 := set_env e s1 in
         prices_get_price c s2 = adjust_decimals (Some v) c s2) /\
      (forall e s3, unlock_price_call o c (set_env e s1) = (Ok tt, s3) ->
         prices_get_price c s3 = adjust_decimals (oracle_price e c) c s3)
  end.
Proof.
  intros Hc Hr. unfold lock_price_call, ensure_origin in Hr. minv Hr. split; [done|].
  unfold prices_lock_price in Hr. apply bind_Ok_inv in Hr as (feed & t & Hf & Hr).
  apply gets_Ok in Hf as [-> ->]. destruct (source_price c s) as [v|] eqn:Ev; [|by minv Hr].
  injection Hr as <-. split.
  - intros e s2. rewrite fed_price by done. unfold locked_price. cbn. by rewrite lookup_insert_eq.
  - intros e s3 Hu. unfold unlock_price_call, ensure_origin in Hu. minv Hu.
    injection Hu as <-. rewrite fed_price by done. unfold locked_price. cbn. by rewrite lookup_delete_eq.
Qed.
End Claims.

From S2P Require Import Dex.
#[local] Existing Instance sample.
#[local] Existing Instance sample_laws.

Lemma integer_sqrt_correct_witness : integer_sqrt (U128_MAX * U128_MAX) = Some (Z.sqrt (U128_MAX * U128_MAX)).
Proof. apply (integer_sqrt_correct (U128_MAX * U128_MAX)). wcheck. Defined.

Lemma lp_token_fair_price_bounded_witness :
  fair_price 1000000 5000000 2000000 (DIV / 2) (3 * DIV) = Some 7745965075339160086 /\
  7745965075339160086 * 1000000 <= 5000000 * (DIV / 2) + 2000000 * (3 * DIV).
Proof.
  split; [wcheck|].
  refine (proj2 (lp_token_fair_price_bounded 1000000 5000000 2000000 (DIV / 2) (3 * DIV) _ _ _ _ _)
    7745965075339160086 _); wcheck.
Defined.

Lemma locked_price_pins_witness :
  let s := sample_state [] (fun _ => Some (7 * DIV)) in
  let run := lock_price_call Root (Token DOT) s in
  let e := mkEnv 11 2000 (fun _ => Some (9 * DIV)) DIV in
  prices_get_price (Token DOT) (set_env e run.2)
    = adjust_decimals (Some (7 * DIV)) (Token DOT) (set_env e run.2).
Proof.
  intros s run e.
  refine (proj1 (proj2 (locked_price_pins Root (Token DOT) s run.2 _ _)) e).
  - split_and!; (discriminate || reflexivity).
  - apply run_split. vm_compute. reflexivity.
Defined.
