(* ===== verification/AuctionManager.v ===== *)
(** * Collateral auctions

    [modules/auction-manager/src/lib.rs]: the auctions the treasury sells
    confiscated collateral in, as handlers called by the auction pallet (a new
    bid, the end of an auction), by the treasury (a new auction, a
    cancellation) and by the offchain worker after a shutdown. *)
From S2P Require Import Prelude FixedPoint Primitives Runtime Sample Support.

(** ** [impl CollateralAuctionItem] *)
Section Item.
Context `{Config}.

Definition always_forward (a : CollateralAuctionItem) : bool := target a =? 0.
Definition in_reverse_stage (a : CollateralAuctionItem) (bid_price : Balance) : bool :=
  negb (always_forward a) && (target a <=? bid_price).
Definition payment_amount (a : CollateralAuctionItem) (bid_price : Balance) : Balance :=
  if always_forward a then bid_price else Z.min (target a) bid_price.
Definition collateral_amount (a : CollateralAuctionItem) (last_bid_price new_bid_price : Balance)
    : Balance :=
  if in_reverse_stage a new_bid_price && (last_bid_price <? new_bid_price) then
    default (amount a) (n ← checked_from_rational (Z.max last_bid_price (target a)) new_bid_price;
                        checked_mul_int n (amount a))
  else amount a.
Definition with_amount (n : Balance) (a : CollateralAuctionItem) : CollateralAuctionItem :=
  mkAuctionItem (refund_recipient a) (currency_id a) (initial_amount a) n (target a) (start_time a).
End Item.

(** [orml_traits::OnNewBidResult] *)
Record OnNewBidResult := mkNewBidResult { accept_bid : bool; auction_end_change : Change (option BlockNumber) }.

Section Model.
Context `{Config, !CDPTreasury, !CDPTreasuryExtended, !DEXManager, !PriceProvider, !EmergencyShutdown}.

(** ** Storage access *)
Definition collateral_auctions (id : AuctionId) (s : State) : option CollateralAuctionItem :=
  CollateralAuctions (st_auctions s) !! id.
Definition total_collateral_in_auction (c : CurrencyId) (s : State) : Balance :=
  default 0 (TotalCollateralInAuction (st_auctions s) !! c).
Definition total_target_in_auction (s : State) : Balance := TotalTargetInAuction (st_auctions s).
Definition with_auctions (f : AuctionStorage -> AuctionStorage) (s : State) : State :=
  set_auctions (f (st_auctions s)) s.
Definition put_auction (id : AuctionId) (a : CollateralAuctionItem) : Run unit :=
  modify (with_auctions (fun x => mkAuctions (<[id := a]> (CollateralAuctions x))
    (TotalCollateralInAuction x) (TotalTargetInAuction x))).
Definition take_auction (id : AuctionId) : Run (option CollateralAuctionItem) :=
  a ← gets (collateral_auctions id);
  _ ← modify (with_auctions (fun x => mkAuctions (delete id (CollateralAuctions x))
        (TotalCollateralInAuction x) (TotalTargetInAuction x)));
  mret a.
Definition put_total_collateral (c : CurrencyId) (n : Balance) : Run unit :=
  modify (with_auctions (fun x => mkAuctions (CollateralAuctions x)
    (<[c := n]> (TotalCollateralInAuction x)) (TotalTargetInAuction x))).
Definition put_total_target (n : Balance) : Run unit :=
  modify (with_auctions (fun x => mkAuctions (CollateralAuctions x)
    (TotalCollateralInAuction x) n)).
(** [mutate] with [saturating_sub] *)
Definition decrease_total_collateral (c : CurrencyId) (n : Balance) : Run unit :=
  t ← gets (total_collateral_in_auction c); put_total_collateral c (U128.saturating_sub t n).
Definition decrease_total_target (n : Balance) : Run unit :=
  t ← gets total_target_in_auction; put_total_target (U128.saturating_sub t n).

Definition get_last_bid (id : AuctionId) (s : State) : option (AccountId * Balance) :=
  info ← auction_info (st_auction_ext s) id; ai_bid info.

(** Block numbers are 32-bit and wrap around. *)
Definition block_add (a b : BlockNumber) : BlockNumber := (a + b) mod (U32_MAX + 1).

(** ** Bids *)
Definition check_minimum_increment (new_price last_price target_price : Balance)
    (minimum_increment : Rate) : bool :=
  match checked_mul_int minimum_increment (Z.max target_price last_price),
        U128.checked_sub new_price last_price with
  | Some target, Some result => target <=? result
  | _, _ => false
  end.
Definition get_minimum_increment_size (now start_block : BlockNumber) : Rate :=
  if block_add start_block AuctionDurationSoftCap <=? now
  then fx_saturating_mul MinimumIncrementSize (fx_from_integer 2)
  else MinimumIncrementSize.
Definition get_auction_time_to_close (now start_block : BlockNumber) : BlockNumber :=
  if block_add start_block AuctionDurationSoftCap <=? now
  then AuctionTimeToClose / 2 else AuctionTimeToClose.

Definition swap_bidders (new_bidder : AccountId) (last_bidder : option AccountId) : Run unit :=
  _ ← inc_consumers new_bidder;
  match last_bidder with Some who => dec_consumers who | None => mret tt end.

(** The refund of collateral when the bid is in the reverse stage; returns the
    auction as it is written back. *)
Definition reverse_stage_refund (a : CollateralAuctionItem) (last_bid_price new_bid_price : Balance)
    : Run CollateralAuctionItem :=
  if in_reverse_stage a new_bid_price then
    let new_collateral_amount := collateral_amount a last_bid_price new_bid_price in
    let refund_collateral_amount := U128.saturating_sub (amount a) new_collateral_amount in
    if negb (refund_collateral_amount =? 0) then
      _ ← withdraw_collateral (refund_recipient a) (currency_id a) refund_collateral_amount;
      _ ← decrease_total_collateral (currency_id a) refund_collateral_amount;
      mret (with_amount new_collateral_amount a)
    else mret a
  else mret a.

Definition collateral_auction_bid_handler (now : BlockNumber) (id : AuctionId)
    (new_bid : AccountId * Balance) (last_bid : option (AccountId * Balance)) : Run BlockNumber :=
  transactional (
    let '(new_bidder, new_bid_price) := new_bid in
    _ ← ensure (negb (new_bid_price =? 0)) (AuctionManagerE AuctionManagerError.InvalidBidPrice);
    auction ← gets (collateral_auctions id);
    a ← ok_or auction (AuctionManagerE AuctionManagerError.AuctionNotExists);
    let last_bid_price := match last_bid with Some (_, price) => price | None => 0 end in
    _ ← ensure (check_minimum_increment new_bid_price last_bid_price (target a)
                  (get_minimum_increment_size now (start_time a)))
          (AuctionManagerE AuctionManagerError.InvalidBidPrice);
    let payment := payment_amount a new_bid_price in
    payment ← match last_bid with
      | Some (last_bidder, _) =>
          let refund := payment_amount a last_bid_price in
          _ ← transfer GetStableCurrencyId new_bidder last_bidder refund;
          ok_or (U128.checked_sub payment refund) (AuctionManagerE AuctionManagerError.InvalidBidPrice)
      | None => mret payment
      end;
    _ ← deposit_surplus new_bidder payment;
    a' ← reverse_stage_refund a last_bid_price new_bid_price;
    _ ← swap_bidders new_bidder (fst <$> last_bid);
    _ ← put_auction id a';
    mret (block_add now (get_auction_time_to_close now (start_time a)))).

Definition on_new_bid (now : BlockNumber) (id : AuctionId) (new_bid : AccountId * Balance)
    (last_bid : option (AccountId * Balance)) : Run OnNewBidResult :=
  bid_result ← attempt (collateral_auction_bid_handler now id new_bid last_bid);
  mret match bid_result with
       | inl new_auction_end_time => mkNewBidResult true (NewValue (Some new_auction_end_time))
       | inr _ => mkNewBidResult false NoChange
       end.

(** ** The end of an auction *)
(** Whether the exchange would pay more than the winner's bid. *)
Definition dex_beats_bid (a : CollateralAuctionItem) (bid_price : Balance) (s : State) : bool :=
  negb (in_reverse_stage a bid_price)
  && (bid_price <? default 0 (get_swap_target_amount [currency_id a; GetStableCurrencyId] (amount a) None s)).

(** The exchange takes the auction; [true] when the swap failed and the
    winner gets the collateral. *)
Definition dex_take (id : AuctionId) (a : CollateralAuctionItem) (bidder : AccountId) (bid_price : Balance)
    : Run bool :=
  res ← attempt (swap_exact_collateral_to_stable (currency_id a) (amount a) 0 None None true);
  match res with
  | inl stable_amount =>
      _ ← attempt (issue_debit bidder bid_price false);
      _ ← (if in_reverse_stage a stable_amount then
             refund_amount ← expect (U128.checked_sub stable_amount (target a));
             _ ← attempt (issue_debit (refund_recipient a) refund_amount false);
             mret tt
           else mret tt);
      _ ← deposit_event (DEXTakeCollateralAuction id (currency_id a) (amount a) stable_amount);
      mret false
  | inr _ => mret true
  end.

Definition deal (id : AuctionId) (a : CollateralAuctionItem) (bidder : AccountId) (bid_price : Balance)
    : Run unit :=
  _ ← attempt (withdraw_collateral bidder (currency_id a) (amount a));
  deposit_event (CollateralAuctionDealt id (currency_id a) (amount a) bidder (payment_amount a bid_price)).

Definition collateral_auction_end_handler (id : AuctionId) (a : CollateralAuctionItem)
    (winner : option (AccountId * Balance)) : Run unit :=
  _ ← match winner with
      | Some (bidder, bid_price) =>
          beats ← gets (dex_beats_bid a bid_price);
          should_deal ← (if beats : bool then dex_take id a bidder bid_price else mret true);
          if should_deal : bool then deal id a bidder bid_price else mret tt
      | None => deposit_event (CancelAuction id)
      end;
  _ ← dec_consumers (refund_recipient a);
  _ ← decrease_total_collateral (currency_id a) (amount a);
  decrease_total_target (target a).

Definition on_auction_ended (id : AuctionId) (winner : option (AccountId * Balance)) : Run unit :=
  auction ← take_auction id;
  _ ← match auction with
      | Some a => collateral_auction_end_handler id a winner
      | None => mret tt
      end;
  match winner with Some (bidder, _) => dec_consumers bidder | None => mret tt end.

(** ** Cancellation *)
Definition cancel_collateral_auction (id : AuctionId) (a : CollateralAuctionItem) : Run unit :=
  last_bid ← gets (get_last_bid id);
  _ ← match last_bid with
      | Some (_, bid_price) =>
          ensure (negb (in_reverse_stage a bid_price)) (AuctionManagerE AuctionManagerError.InReverseStage)
      | None => mret tt
      end;
  price ← gets (get_relative_price GetStableCurrencyId (currency_id a));
  settle_price ← ok_or price (AuctionManagerE AuctionManagerError.InvalidFeedPrice);
  let confiscate_collateral_amount :=
    if always_forward a then amount a
    else Z.min (saturating_mul_int settle_price (target a)) (amount a) in
  let refund_collateral_amount := U128.saturating_sub (amount a) confiscate_collateral_amount in
  _ ← withdraw_collateral (refund_recipient a) (currency_id a) refund_collateral_amount;
  _ ← match last_bid with
      | Some (bidder, bid_price) =>
          _ ← issue_debit bidder bid_price false; dec_consumers bidder
      | None => mret tt
      end;
  _ ← dec_consumers (refund_recipient a);
  _ ← decrease_total_collateral (currency_id a) (amount a);
  decrease_total_target (target a).

Definition remove_ext_auction (id : AuctionId) : Run unit :=
  modify (fun s => set_auction_ext (remove_auction id (st_auction_ext s)) s).
Definition am_cancel_auction (id : AuctionId) : Run unit :=
  auction ← take_auction id;
  a ← ok_or auction (AuctionManagerE AuctionManagerError.AuctionNotExists);
  _ ← cancel_collateral_auction id a;
  remove_ext_auction id.

(** The unsigned extrinsic and its validation. *)
Definition cancel (origin : Origin) (id : AuctionId) : Run unit :=
  transactional (
    _ ← ensure_none origin;
    shutdown ← gets is_shutdown;
    _ ← ensure shutdown (AuctionManagerE AuctionManagerError.MustAfterShutdown);
    _ ← am_cancel_auction id;
    deposit_event (CancelAuction id)).
Definition validate_cancel (id : AuctionId) (s : State) : Validity :=
  if negb (is_shutdown s) then InvalidCall
  else match collateral_auctions id s with
       | Some a =>
           match get_last_bid id s with
           | Some (_, bid_price) => if in_reverse_stage a bid_price then InvalidStale else Valid
           | None => Valid
           end
       | None => InvalidStale
       end.
(** The auctions of a batch of the offchain worker's iteration that it
    submits a cancellation for. *)
Definition offchain_submits (ids : list AuctionId) (s : State) : list AuctionId :=
  List.filter (fun id =>
    match collateral_auctions id s, get_last_bid id s with
    | Some a, Some (_, last_bid_price) => negb (in_reverse_stage a last_bid_price)
    | _, _ => true
    end) ids.

(** ** New auctions *)
Definition ext_new_auction (start : BlockNumber) (fin : option BlockNumber) : Run AuctionId :=
  fun s => match new_auction start fin (st_auction_ext s) with
           | inl (id, x) => (Ok id, set_auction_ext x s)
           | inr e => (Err e, s)
           end.
Definition am_new_collateral_auction (recipient : AccountId) (c : CurrencyId)
    (amount target : Balance) : Run unit :=
  _ ← ensure (negb (amount =? 0)) (AuctionManagerE AuctionManagerError.InvalidAmount);
  total ← gets (total_collateral_in_auction c);
  n ← ok_or (U128.checked_add total amount) (AuctionManagerE AuctionManagerError.InvalidAmount);
  _ ← put_total_collateral c n;
  _ ← (if negb (target =? 0) then
         total_target ← gets total_target_in_auction;
         n ← ok_or (U128.checked_add total_target target) (AuctionManagerE AuctionManagerError.InvalidAmount);
         put_total_target n
       else mret tt);
  start ← gets (fun s => block_number (st_env s));
  id ← ext_new_auction start None;
  _ ← put_auction id (mkAuctionItem recipient c amount amount target start);
  _ ← inc_consumers recipient;
  deposit_event (NewCollateralAuction id c amount target).
End Model.

#[export] Instance auction_manager `{Config, !CDPTreasury, !PriceProvider} : AuctionManager := {
  new_collateral_auction := am_new_collateral_auction;
  cancel_auction := am_cancel_auction;
  get_total_collateral_in_auction := total_collateral_in_auction;
  get_total_target_in_auction := total_target_in_auction;
}.

#[export] Instance auction_manager_laws `{ConfigLaws} `{!CDPTreasury, !PriceProvider} : AuctionManagerLaws.
Proof.
  split. intros who c n t s. unfold new_collateral_auction, auction_manager, am_new_collateral_auction. wp_guards.
  assert (Hend : forall m cols tot,
    let s1 := set_auctions (mkAuctions m cols tot) s in
    wp (start ← gets (fun s => block_number (st_env s));
        id ← ext_new_auction start None;
        _ ← put_auction id (mkAuctionItem who c n n t start);
        _ ← inc_consumers who;
        deposit_event (NewCollateralAuction id c n t)) (fun _ => auction_frame s) (fun _ _ => True) s1).
  { intros m cols tot s1. wp_guards. unfold ext_new_auction, wp at 1. cbv beta.
    destruct (new_auction (block_number (st_env s1)) None (st_auction_ext s1)) as [[id x]|e]; [|done]. apply wp_bind. unfold put_auction. apply wp_modify.
    apply wp_bind. unfold inc_consumers. apply wp_modify. apply wp_event.
    destruct (sys_inc_consumers _ _); do 4 eexists; subst s1; reflexivity || (cbn; by destruct s). }
  unfold put_total_collateral. wp_guards. wp_branch.
  - wp_guards. unfold put_total_target. apply wp_modify. apply Hend.
  - apply wp_ret. apply Hend.
Qed.
