(* ===== verification/TreasuryAuctions.v ===== *)
(** * The treasury's collateral: swaps and auctions

    The rest of [modules/cdp-treasury/src/lib.rs]: [CDPTreasuryExtended], which
    sells collateral through the exchange or splits it into auction lots, and
    the extrinsic [auction_collateral]. *)
From S2P Require Import Prelude FixedPoint Primitives Runtime Sample Support Treasury.

Section Model.
Context `{Config, !AuctionManager, !DEXManager}.

Definition total_collaterals_not_in_auction (c : CurrencyId) (s : State) : Balance :=
  U128.saturating_sub (free_balance c treasury_account_id s) (get_total_collateral_in_auction c s).

(** The check both swaps start with. *)
Definition collateral_enough (c : CurrencyId) (amount : Balance) (collateral_in_auction : bool)
    (s : State) : bool :=
  if collateral_in_auction then
    (amount <=? total_collaterals c s) && (amount <=? get_total_collateral_in_auction c s)
  else amount <=? total_collaterals_not_in_auction c s.

Definition swap_path_ok (c : CurrencyId) (path : list CurrencyId) : bool :=
  (2 <=? Z.of_nat (length path)) && bool_decide (head path = Some c)
  && bool_decide (last path = Some GetStableCurrencyId).
Definition swap_path (c : CurrencyId) (maybe_path : option (list CurrencyId))
    : Run (list CurrencyId) :=
  match maybe_path with
  | None => mret [c; GetStableCurrencyId]
  | Some path =>
      _ ← ensure (swap_path_ok c path) (CdpTreasuryE CdpTreasuryError.InvalidSwapPath);
      mret path
  end.

Definition treasury_swap_exact_collateral_to_stable (c : CurrencyId)
    (supply_amount min_target_amount : Balance) (price_impact_limit : option Ratio)
    (maybe_path : option (list CurrencyId)) (collateral_in_auction : bool) : Run Balance :=
  enough ← gets (collateral_enough c supply_amount collateral_in_auction);
  _ ← ensure enough (CdpTreasuryE CdpTreasuryError.CollateralNotEnough);
  path ← swap_path c maybe_path;
  dex_swap_with_exact_supply treasury_account_id path supply_amount min_target_amount price_impact_limit.

Definition treasury_swap_collateral_to_exact_stable (c : CurrencyId)
    (max_supply_amount target_amount : Balance) (price_impact_limit : option Ratio)
    (maybe_path : option (list CurrencyId)) (collateral_in_auction : bool) : Run Balance :=
  enough ← gets (collateral_enough c max_supply_amount collateral_in_auction);
  _ ← ensure enough (CdpTreasuryE CdpTreasuryError.CollateralNotEnough);
  path ← swap_path c maybe_path;
  dex_swap_with_exact_target treasury_account_id path target_amount max_supply_amount price_impact_limit.

(** ** Lots *)
Definition lots_count (amount size : Balance) (splited : bool) : Balance :=
  if negb splited || (MaxAuctionsCount =? 0) || (size =? 0) || (amount <=? size) then 1
  else
    let count := amount / size in
    let count := if negb (amount mod size =? 0) then U128.saturating_add count 1 else count in
    Z.min count MaxAuctionsCount.

(** The [while] loop; it would run forever where the fuel runs out. *)
Fixpoint auction_loop (fuel : nat) (recipient : AccountId) (c : CurrencyId)
    (count average_amount average_target created unhandled_amount unhandled_target : Balance)
    : Run unit :=
  if unhandled_amount =? 0 then mret tt
  else match fuel with
    | O => panic
    | S fuel =>
        let created := U128.saturating_add created 1 in
        let '(lot_amount, lot_target) :=
          if created =? count then (unhandled_amount, unhandled_target)
          else (average_amount, average_target) in
        _ ← new_collateral_auction recipient c lot_amount lot_target;
        auction_loop fuel recipient c count average_amount average_target created
          (U128.saturating_sub unhandled_amount lot_amount)
          (U128.saturating_sub unhandled_target lot_target)
    end.

Definition treasury_create_collateral_auctions (c : CurrencyId) (amount target : Balance)
    (refund_receiver : AccountId) (splited : bool) : Run unit :=
  available ← gets (total_collaterals_not_in_auction c);
  _ ← ensure (amount <=? available) (CdpTreasuryE CdpTreasuryError.CollateralNotEnough);
  size ← gets (expected_collateral_auction_size c);
  let count := lots_count amount size splited in
  average_amount ← expect (U128.checked_div amount count);
  average_target ← expect (U128.checked_div target count);
  auction_loop (Z.to_nat count) refund_receiver c count average_amount average_target 0 amount target.

Definition auction_collateral (origin : Origin) (c : CurrencyId) (amount target : Balance)
    (splited : bool) : Run unit :=
  transactional (
    _ ← ensure_origin UpdateOrigin origin;
    treasury_create_collateral_auctions c amount target treasury_account_id splited).
End Model.

#[export] Instance cdp_treasury_extended `{Config, !AuctionManager, !DEXManager} : CDPTreasuryExtended := {
  swap_exact_collateral_to_stable := treasury_swap_exact_collateral_to_stable;
  swap_collateral_to_exact_stable := treasury_swap_collateral_to_exact_stable;
  create_collateral_auctions := treasury_create_collateral_auctions;
}.

(** ** Swaps *)
Section Swaps.
Context `{ConfigLaws} `{!AuctionManager} `{!DEXManager, !DEXManagerLaws}.

Lemma swap_path_wp c maybe s Q R :
  (forall path, head path = Some c -> last path = Some GetStableCurrencyId -> Q path s) ->
  (forall e, R e s) -> wp (swap_path c maybe) Q R s.
Proof.
  intros HQ HR. destruct maybe as [path|]; cbn [swap_path].
  - wp_guards. unfold swap_path_ok in Hens. rewrite !andb_true_iff, !bool_decide_eq_true in Hens.
    destruct Hens as [[_ ?] ?]. by apply HQ.
  - apply wp_ret. by apply HQ.
Qed.

Lemma swap_keeps c path x y s s' :
  head path = Some c -> 0 <= y ->
  x <= total_collaterals_not_in_auction c s -> 0 <= get_total_collateral_in_auction c s -> 0 < x ->
  swap_effect treasury_account_id path x y s s' ->
  get_total_collateral_in_auction c s <= total_collaterals c s'.
Proof.
  intros Hp Hy Hx Ht Hx0 (? & a & z & d & l & Ha & Hz & -> & _ & Hf & _).
  rewrite Hp in Ha. injection Ha as <-. unfold total_collaterals, free_balance. cbn. rewrite Hf.
  pose proof module_accounts as (_ & Hne & _). rewrite (delta_ne_account _ dex_account_id) by congruence.
  rewrite (delta_ne_account z dex_account_id) by congruence. rewrite delta_eq.
  pose proof (delta_nonneg z treasury_account_id y c treasury_account_id Hy).
  unfold total_collaterals_not_in_auction, U128.saturating_sub in Hx. lia.
Qed.
End Swaps.

(** ** Lots *)
Section Lots.
Context `{Config}.

(** [n] lots in all: the average of each, and the last one with the rest. *)
Fixpoint split_lots (n : nat) (average_amount average_target amount target : Balance)
    : list (Balance * Balance) :=
  match n with
  | O => []
  | S O => [(amount, target)]
  | S n => (average_amount, average_target) ::
      split_lots n average_amount average_target (amount - average_amount) (target - average_target)
  end.
Definition collateral_lots (amount target size : Balance) (splited : bool) : list (Balance * Balance) :=
  let count := lots_count amount size splited in
  split_lots (Z.to_nat count) (amount / count) (target / count) amount target.
Definition total_amount (l : list (Balance * Balance)) : Z := foldr (fun p acc => p.1 + acc) 0 l.
Definition total_target (l : list (Balance * Balance)) : Z := foldr (fun p acc => p.2 + acc) 0 l.

Lemma split_lots_spec n aa at_ x y : (0 < n)%nat ->
  let l := split_lots n aa at_ x y in
  length l = n /\ total_amount l = x /\ total_target l = y.
Proof.
  revert x y. induction n as [|n IH]; intros x y Hn; [lia|].
  destruct n as [|n]; [cbn; split; [done|]; lia|].
  destruct (IH (x - aa) (y - at_) ltac:(lia)) as (H1 & H2 & H3).
  change (split_lots (S (S n)) aa at_ x y) with ((aa, at_) :: split_lots (S n) aa at_ (x - aa) (y - at_)).
  cbn [length]. rewrite H1. split; [done|].
  change (total_amount ((aa, at_) :: ?l)) with (aa + total_amount l).
  change (total_target ((aa, at_) :: ?l)) with (at_ + total_target l). lia.
Qed.
Lemma split_lots_pos n aa at_ x y : 0 < aa -> 0 <= at_ -> Z.of_nat n * aa <= x -> Z.of_nat n * at_ <= y ->
  Forall (fun p => 0 < p.1 /\ 0 <= p.2) (split_lots n aa at_ x y).
Proof.
  revert x y. induction n as [|n IH]; intros x y Ha Ht Hx Hy; [constructor|].
  destruct n as [|n]; [constructor; [cbn; lia|constructor]|].
  change (split_lots (S (S n)) aa at_ x y) with ((aa, at_) :: split_lots (S n) aa at_ (x - aa) (y - at_)).
  constructor; [done|]. apply IH; lia.
Qed.

(** There is at least one lot, no more than allowed and no more than units of
    collateral. *)
Lemma lots_count_bounds amount size splited :
  is_u128 amount -> 0 <= size -> 0 <= MaxAuctionsCount -> 0 < amount ->
  let n := lots_count amount size splited in 1 <= n <= amount /\ (n <= Z.max 1 MaxAuctionsCount).
Proof.
  intros [Ha Hm] Hs HM Hpos n. subst n. unfold lots_count.
  destruct (_ || (amount <=? size)) eqn:E; [lia|].
  rewrite !orb_false_iff, !Z.eqb_neq, Z.leb_gt in E. destruct E as [[[_ HM0] Hs0] Hlt].
  cbv zeta. pose proof (Z.div_mod amount size Hs0) as Hdm. pose proof (Z.mod_pos_bound amount size ltac:(lia)).
  assert (1 <= amount / size) by (apply Z.div_le_lower_bound; lia).
  assert (amount / size <= amount) by (apply Z.div_le_upper_bound; nia).
  set (q := amount / size) in *.
  assert (1 <= (if negb (amount mod size =? 0) then U128.saturating_add q 1 else q) <= amount).
  { destruct (Z.eqb_spec (amount mod size) 0); cbn [negb]; [lia|].
    rewrite saturating_add_exact; [split; [lia|]|].
    - destruct (Z.eq_dec size 1) as [->|]; [rewrite Z.mod_1_r in *; lia|]. nia.
    - destruct (Z.eq_dec size 1) as [->|]; [rewrite Z.mod_1_r in *; lia|]. nia. }
  lia.
Qed.
End Lots.

Section Loop.
Context `{ConfigLaws} `{!AuctionManager, !DEXManager}.

Definition auction_lots (recipient : AccountId) (c : CurrencyId) (l : list (Balance * Balance)) : Run unit :=
  for_each (fun p => new_collateral_auction recipient c p.1 p.2) l.

Lemma bind_ext {A B} (m : Run A) (k1 k2 : A -> Run B) s :
  (forall a t, k1 a t = k2 a t) -> (m ≫= k1) s = (m ≫= k2) s.
Proof. intros Hk. unfold mbind, M_bind. destruct (m s) as [[a|e|] t]; auto. Qed.

Lemma auction_loop_lots n recipient c count aa at_ k x y s :
  (0 < n)%nat -> count = k + Z.of_nat n -> 0 <= k -> count <= U128_MAX ->
  0 < aa -> 0 <= at_ -> Z.of_nat n * aa <= x -> Z.of_nat n * at_ <= y ->
  auction_loop n recipient c count aa at_ k x y s = auction_lots recipient c (split_lots n aa at_ x y) s.
Proof.
  intros Hn -> Hk Hm Ha Ht. revert k x y s Hk Hm. induction n as [|n IH]; intros k x y s Hk Hm Hx Hy; [lia|].
  unfold auction_lots. cbn [auction_loop].
  destruct (Z.eqb_spec x 0) as [Hz|_]; [lia|]. rewrite saturating_add_exact by lia.
  destruct n as [|n].
  - rewrite (proj2 (Z.eqb_eq (k + 1) (k + Z.of_nat 1))) by lia. cbn [split_lots for_each].
    apply bind_ext. intros [] t. rewrite saturating_sub_exact, Z.sub_diag by lia. done.
  - rewrite (proj2 (Z.eqb_neq (k + 1) (k + Z.of_nat (S (S n))))) by lia.
    change (split_lots (S (S n)) aa at_ x y) with ((aa, at_) :: split_lots (S n) aa at_ (x - aa) (y - at_)).
    cbn [for_each fst snd]. apply bind_ext. intros [] t.
    rewrite !saturating_sub_exact by nia.
    replace (k + Z.of_nat (S (S n))) with (k + 1 + Z.of_nat (S n)) by lia.
    apply IH; lia.
Qed.

Lemma create_auctions_eq c amount target recipient splited s :
  is_u128 amount -> is_u128 target -> 0 < amount ->
  0 <= expected_collateral_auction_size c s ->
  let lots := collateral_lots amount target (expected_collateral_auction_size c s) splited in
  treasury_create_collateral_auctions c amount target recipient splited s =
    (if amount <=? total_collaterals_not_in_auction c s then auction_lots recipient c lots s
     else (Err (CdpTreasuryE CdpTreasuryError.CollateralNotEnough), s)) /\
  total_amount lots = amount /\ total_target lots = target /\
  1 <= Z.of_nat (length lots) <= Z.max 1 MaxAuctionsCount /\
  Forall (fun p => 0 < p.1 /\ 0 <= p.2) lots.
Proof.
  intros Ha Ht Hpos Hs lots. set (size := expected_collateral_auction_size c s) in *.
  destruct (lots_count_bounds amount size splited Ha Hs ltac:(destruct max_auctions_u32; lia) Hpos) as [Hb1 Hb2].
  unfold lots, collateral_lots. set (n := lots_count amount size splited) in *.
  assert (Hav : 0 < amount / n) by (apply Z.div_str_pos; lia).
  assert (Hat : 0 <= target / n) by (destruct Ht; apply Z.div_pos; lia).
  pose proof (Z.mul_div_le amount n ltac:(lia)). pose proof (Z.mul_div_le target n ltac:(lia)).
  destruct (split_lots_spec (Z.to_nat n) (amount / n) (target / n) amount target ltac:(lia)) as (E1 & E2 & E3).
  split; [|rewrite E1, E2, E3, Z2Nat.id by lia; split_and!; try lia].
  2: { apply split_lots_pos; rewrite ?Z2Nat.id by lia; done. }
  unfold treasury_create_collateral_auctions, ensure. cbn [mbind M_bind].
  unfold mbind at 1, M_bind at 1, gets. unfold mbind at 1, M_bind at 1.
  destruct (amount <=? total_collaterals_not_in_auction c s); [|done]. cbn [mret M_ret].
  unfold mbind at 1, M_bind at 1. fold size n. unfold U128.checked_div.
  rewrite (proj2 (Z.eqb_neq n 0)) by lia. cbn [expect].
  unfold mbind at 1, M_bind at 1. cbn [mret M_ret]. unfold mbind at 1, M_bind at 1. cbn [mret M_ret].
  apply auction_loop_lots; rewrite ?Z2Nat.id by lia; try done; lia || (destruct Ha; lia).
Qed.
(** Creating auctions moves no funds and does not panic. *)
Lemma create_auctions_frame `{!AuctionManagerLaws} c n t who splited s :
  is_u128 n -> is_u128 t -> treasury_typed (st_treasury s) ->
  wp (treasury_create_collateral_auctions c n t who splited) (fun _ => auction_frame s) (fun _ _ => True) s.
Proof.
  intros Hn Ht [_ Hs]. assert (Hsz : 0 <= expected_collateral_auction_size c s).
  { unfold expected_collateral_auction_size. destruct (_ !! c) as [z|] eqn:E; [apply (Hs c z E)|done]. }
  destruct (Z.eq_dec n 0) as [->|Hne].
  - unfold treasury_create_collateral_auctions. wp_guards.
    assert (E : lots_count 0 (expected_collateral_auction_size c s) splited = 1).
    { unfold lots_count. rewrite (proj2 (Z.leb_le 0 _)) by done. by rewrite orb_true_r. }
    rewrite E. apply wp_expect. eexists. split; [done|]. apply wp_bind, wp_expect. eexists. split; [done|].
    apply auction_frame_refl.
  - destruct (create_auctions_eq c n t who splited s Hn Ht ltac:(destruct Hn; lia) Hsz) as [E _].
    unfold wp. rewrite E. destruct (_ <=? _); [|done]. unfold auction_lots.
    change (wp (for_each (fun p => new_collateral_auction who c p.1 p.2)
      (collateral_lots n t (expected_collateral_auction_size c s) splited)) (fun _ => auction_frame s) (fun _ _ => True) s).
    apply wp_for_each; [apply auction_frame_refl|]. intros p u _ Hu.
    eapply wp_mono; [apply new_auction_spec| |done]. intros [] v. by apply auction_frame_trans.
Qed.
End Loop.

#[export] Instance cdp_treasury_extended_laws `{ConfigLaws} `{!AuctionManager, !AuctionManagerLaws}
    `{!DEXManager, !DEXManagerLaws} : CDPTreasuryExtendedLaws.
Proof.
  split; cbn [swap_exact_collateral_to_stable swap_collateral_to_exact_stable create_collateral_auctions
    cdp_treasury_extended].
  - intros. by apply create_auctions_frame.
  - intros c x m limit path ia s Hd Hx. unfold treasury_swap_exact_collateral_to_stable. wp_guards.
    apply swap_path_wp; [|done]. intros p Hp0 Hpn. eapply wp_mono; [by apply swap_supply_spec| |done].
    intros r s' (? & ? & ?). eauto 6.
  - intros c m x limit path ia s Hd Hx. unfold treasury_swap_collateral_to_exact_stable. wp_guards.
    apply swap_path_wp; [|done]. intros p Hp0 Hpn. eapply wp_mono; [by apply swap_target_spec| |done].
    intros r s' (? & ? & ?). eauto 6.
Qed.

Section Claims.
Context `{ConfigLaws} `{!AuctionManager} `{!DEXManager, !DEXManagerLaws}.

(** C33: a large amount of collateral is auctioned in lots that add up.  The
    loop of [create_collateral_auctions] terminates and amounts to creating,
    in order, the auctions of [collateral_lots]: between one and
    [MaxAuctionsCount] of them, each with a positive amount, whose amounts
    and targets sum exactly to what is to be sold; it never divides by
    zero. *)
Theorem create_collateral_auctions_lots c amount target recipient splited s :
  is_u128 amount -> is_u128 target -> 0 < amount ->
  0 <= expected_collateral_auction_size c s ->
  let lots := collateral_lots amount target (expected_collateral_auction_size c s) splited in
  treasury_create_collateral_auctions c amount target recipient splited s =
    (if amount <=? total_collaterals_not_in_auction c s then auction_lots recipient c lots s
     else (Err (CdpTreasuryE CdpTreasuryError.CollateralNotEnough), s)) /\
  total_amount lots = amount /\ total_target lots = target /\
  1 <= Z.of_nat (length lots) <= Z.max 1 MaxAuctionsCount /\
  Forall (fun p => 0 < p.1 /\ 0 <= p.2) lots.
Proof. intros. by apply create_auctions_eq. Qed.

(** Selling collateral of the treasury never touches what is in auction.
    A swap of collateral that is not in auction - for an exact supply or an
    exact amount of stable currency - either changes nothing, or trades along
    a path from the collateral to the stable currency within the stated
    limits and leaves the treasury at least the total collateral in auction. *)
Theorem swaps_keep_auctioned_collateral c x limit_amount price_limit path s :
  dex_typed (st_dex s) -> is_u128 x -> 0 <= get_total_collateral_in_auction c s ->
  (get_total_collateral_in_auction c s <= total_collaterals c s) ->
  wp (treasury_swap_exact_collateral_to_stable c x limit_amount price_limit path false)
    (fun r s' => limit_amount <= r /\ get_total_collateral_in_auction c s <= total_collaterals c s')
    (fun _ s' => s' = s) s /\
  wp (treasury_swap_collateral_to_exact_stable c limit_amount x price_limit path false)
    (fun r s' => r <= limit_amount /\ get_total_collateral_in_auction c s <= total_collaterals c s')
    (fun _ s' => s' = s) s.
Proof.
  intros Hd Hx Ht Hcov. split.
  - unfold treasury_swap_exact_collateral_to_stable. wp_guards. apply Z.leb_le in Hens.
    apply swap_path_wp; [|done]. intros p Hp0 Hpn. eapply wp_mono; [by apply swap_supply_spec| |done].
    intros r s' (Hr & Hm & Heff). split; [done|].
    destruct (Z.eq_dec x 0) as [->|Hne].
    + destruct Heff as (? & a & z & d & l & Ha & Hz & -> & _ & Hf & _). unfold total_collaterals, free_balance in *. cbn.
      rewrite Hf, !delta_zero. pose proof module_accounts as (_ & Hne & _).
      rewrite (delta_ne_account _ dex_account_id) by congruence. destruct Hr as [Hr _].
      pose proof (delta_nonneg z treasury_account_id r c treasury_account_id Hr). unfold free_balance. lia.
    + destruct Hr, Hx. apply (swap_keeps c p x r s s'); (done || lia).
  - unfold treasury_swap_collateral_to_exact_stable. wp_guards. apply Z.leb_le in Hens.
    apply swap_path_wp; [|done]. intros p Hp0 Hpn. eapply wp_mono; [by apply swap_target_spec| |done].
    intros r s' (Hr & Hm & Heff). split; [done|]. destruct Hx as [Hx _].
    destruct (Z.eq_dec r 0) as [->|Hne].
    + destruct Heff as (? & a & z & d & l & Ha & Hz & -> & _ & Hf & _). unfold total_collaterals, free_balance in *. cbn.
      rewrite Hf, !delta_zero. pose proof module_accounts as (_ & Hne & _).
      rewrite (delta_ne_account _ dex_account_id) by congruence.
      pose proof (delta_nonneg z treasury_account_id x c treasury_account_id Hx). unfold free_balance. lia.
    + destruct Hr. apply (swap_keeps c p r x s s'); (done || lia).
Qed.
End Claims.

(** ** A runtime the claims apply to *)
From S2P Require Import Dex DexQuotes DexSwap Prices AuctionManager.
#[local] Existing Instance sample.
#[local] Existing Instance sample_laws.

(** Collateral in the treasury, lots of 300, and a pool to sell it in. *)
Definition treasury_sample : State :=
  let s := (set_expected_collateral_auction_size Root (Token DOT) 300 pools_sample).2 in
  (transfer (Token DOT) alice treasury_account_id 2000 s).2.

Lemma create_collateral_auctions_lots_witness :
  let lots := collateral_lots 1000 2000 (expected_collateral_auction_size (Token DOT) treasury_sample) true in
  lots = [(250, 500); (250, 500); (250, 500); (250, 500)] /\
  treasury_create_collateral_auctions (Token DOT) 1000 2000 bob true treasury_sample
    = (if 1000 <=? total_collaterals_not_in_auction (Token DOT) treasury_sample
       then auction_lots bob (Token DOT) lots treasury_sample
       else (Err (CdpTreasuryE CdpTreasuryError.CollateralNotEnough), treasury_sample)).
Proof.
  assert (H1 : is_u128 1000) by wcheck. assert (H2 : is_u128 2000) by wcheck.
  assert (H4 : 0 <= expected_collateral_auction_size (Token DOT) treasury_sample) by wcheck.
  pose proof (create_collateral_auctions_lots (Token DOT) 1000 2000 bob true treasury_sample
    H1 H2 ltac:(lia) H4) as [E _].
  intros lots. split; [wcheck|exact E].
Defined.

Lemma treasury_sample_typed : dex_typed (st_dex treasury_sample).
Proof. apply dex_typed_dec. vm_compute. reflexivity. Qed.

Lemma swaps_keep_auctioned_collateral_witness :
  let run := treasury_swap_exact_collateral_to_stable (Token DOT) 500 1 None None false treasury_sample in
  get_total_collateral_in_auction (Token DOT) treasury_sample <= total_collaterals (Token DOT) run.2.
Proof.
  intros run.
  destruct (swaps_keep_auctioned_collateral (Token DOT) 500 1 None None treasury_sample
    treasury_sample_typed) as [Hw _]; [wcheck|wcheck|wcheck|].
  apply (wp_ok _ _ _ _ 2473 run.2 Hw). apply run_split. vm_compute. reflexivity.
Defined.
