(* ===== verification/AuctionSpecs.v ===== *)
(** * Properties of collateral auctions

    The books of the auction manager ([auctions_inv]) under every handler, what
    an accepted bid does with the money and the collateral, and what a
    cancellation gives back. *)
From S2P Require Import Prelude FixedPoint Primitives Runtime Sample Support AuctionManager.

(** ** The books *)
Section Books.
Context `{Config}.

Definition item_amount (c : CurrencyId) (_ : AuctionId) (a : CollateralAuctionItem) : Z :=
  if decide (currency_id a = c) then amount a else 0.
Definition item_target (_ : AuctionId) (a : CollateralAuctionItem) : Z := target a.
Definition total_coll (c : CurrencyId) (x : AuctionStorage) : Balance :=
  default 0 (TotalCollateralInAuction x !! c).

(** The totals are the sums over the running auctions. *)
Record auctions_wf (x : AuctionStorage) : Prop := {
  aw_item id a : CollateralAuctions x !! id = Some a ->
    is_u128 (amount a) /\ is_u128 (target a) /\ amount a <= initial_amount a;
  aw_total c : total_coll c x = map_sum (item_amount c) (CollateralAuctions x) /\ is_u128 (total_coll c x);
  aw_target : TotalTargetInAuction x = map_sum item_target (CollateralAuctions x) /\
    is_u128 (TotalTargetInAuction x);
}.
(** Every auction is known to the auction pallet. *)
Definition auctions_linked (s : State) : Prop :=
  forall id a, CollateralAuctions (st_auctions s) !! id = Some a ->
    is_Some (auction_info (st_auction_ext s) id).
Definition auctions_inv (s : State) : Prop := auctions_wf (st_auctions s) /\ auctions_linked s.

(** A missing total is a zero total: storages that agree on every read. *)
Definition auctions_eqv (x y : AuctionStorage) : Prop :=
  CollateralAuctions x = CollateralAuctions y /\ TotalTargetInAuction x = TotalTargetInAuction y /\
  forall c, total_coll c x = total_coll c y.
#[export] Instance auctions_eqv_equivalence : Equivalence auctions_eqv.
Proof.
  split; [done|by intros x y (? & ? & ?)|].
  intros x y z (E1 & E2 & E3) (E4 & E5 & E6). split; [congruence|]. split; [congruence|].
  intros c. by rewrite E3.
Qed.
#[export] Instance auctions_wf_proper : Proper (auctions_eqv ==> iff) auctions_wf.
Proof.
  assert (Hone : forall x y, auctions_eqv x y -> auctions_wf x -> auctions_wf y).
  { intros x y (E1 & E2 & E3) [Hi Ht Hg]. split.
    - rewrite <- E1. exact Hi.
    - intros c. rewrite <- E1, <- E3. apply Ht.
    - rewrite <- E1, <- E2. exact Hg. }
  intros x y Hxy. split; apply Hone; [done|by symmetry].
Qed.

Definition add_item (id : AuctionId) (a : CollateralAuctionItem) (x : AuctionStorage) : AuctionStorage :=
  mkAuctions (<[id := a]> (CollateralAuctions x))
    (<[currency_id a := total_coll (currency_id a) x + amount a]> (TotalCollateralInAuction x))
    (TotalTargetInAuction x + target a).
Definition remove_item (id : AuctionId) (a : CollateralAuctionItem) (x : AuctionStorage) : AuctionStorage :=
  mkAuctions (delete id (CollateralAuctions x))
    (<[currency_id a := total_coll (currency_id a) x - amount a]> (TotalCollateralInAuction x))
    (TotalTargetInAuction x - target a).
(** [n] is what is left of the auction. *)
Definition shrink_item (id : AuctionId) (a : CollateralAuctionItem) (n : Balance) (x : AuctionStorage)
    : AuctionStorage :=
  mkAuctions (<[id := with_amount n a]> (CollateralAuctions x))
    (<[currency_id a := total_coll (currency_id a) x - (amount a - n)]> (TotalCollateralInAuction x))
    (TotalTargetInAuction x).

Lemma total_coll_insert c c' n m cols t : total_coll c (mkAuctions m (<[c' := n]> cols) t) =
  if decide (c = c') then n else default 0 (cols !! c).
Proof.
  unfold total_coll. cbn. rewrite lookup_insert. repeat case_decide; congruence || done.
Qed.
Lemma item_amount_nonneg x c : auctions_wf x -> forall id a, CollateralAuctions x !! id = Some a -> 0 <= item_amount c id a.
Proof. intros Hwf id a Ha. apply (aw_item x Hwf) in Ha as ([? _] & _). unfold item_amount. case_decide; lia. Qed.
Lemma item_target_nonneg x : auctions_wf x -> forall id a, CollateralAuctions x !! id = Some a -> 0 <= item_target id a.
Proof. intros Hwf id a Ha. apply (aw_item x Hwf) in Ha as (_ & [? _] & _). done. Qed.
Lemma item_le_total x id a : auctions_wf x -> CollateralAuctions x !! id = Some a ->
  amount a <= total_coll (currency_id a) x /\ target a <= TotalTargetInAuction x.
Proof.
  intros Hwf Ha. destruct (aw_total x Hwf (currency_id a)) as [-> _]. destruct (aw_target x Hwf) as [-> _]. split.
  - pose proof (map_sum_lookup_le (item_amount (currency_id a)) _ _ _ (item_amount_nonneg x _ Hwf) Ha) as Hle.
    unfold item_amount in Hle at 1. by rewrite decide_True in Hle.
  - apply (map_sum_lookup_le item_target _ _ _ (item_target_nonneg x Hwf) Ha).
Qed.

Lemma add_item_wf id a x : auctions_wf x -> CollateralAuctions x !! id = None ->
  is_u128 (amount a) -> is_u128 (target a) -> amount a <= initial_amount a ->
  total_coll (currency_id a) x + amount a <= U128_MAX ->
  TotalTargetInAuction x + target a <= U128_MAX -> auctions_wf (add_item id a x).
Proof.
  intros Hwf Hnone Ham Htg Hle Hc Ht. split.
  - intros i b. cbn. intros [[<- <-]|[_ Hb]]%lookup_insert_Some; [done|]. by eapply aw_item.
  - intros c. unfold add_item. rewrite total_coll_insert. cbn. rewrite map_sum_insert_None by done.
    destruct (aw_total x Hwf c) as [E Hu]. rewrite <- E. unfold item_amount.
    case_decide as Ec; [subst c; rewrite !decide_True by done|rewrite !decide_False by congruence; by split].
    destruct Hu, Ham. split; [lia|split; lia].
  - cbn. rewrite map_sum_insert_None by done. destruct (aw_target x Hwf) as [E [? ?]]. destruct Htg.
    rewrite <- E. unfold item_target. split; [lia|split; lia].
Qed.
Lemma remove_item_wf id a x : auctions_wf x -> CollateralAuctions x !! id = Some a ->
  auctions_wf (remove_item id a x).
Proof.
  intros Hwf Ha. pose proof (item_le_total x id a Hwf Ha) as [Hle1 Hle2].
  pose proof (aw_item x Hwf id a Ha) as ([? _] & [? _] & _). split.
  - intros i b. cbn. intros [_ Hb]%lookup_delete_Some. by eapply aw_item.
  - intros c. unfold remove_item. rewrite total_coll_insert. cbn. rewrite map_sum_delete, Ha. cbn.
    destruct (aw_total x Hwf c) as [E Hu]. rewrite <- E. unfold item_amount.
    case_decide as Ec; [subst c; rewrite !decide_True by done|rewrite !decide_False by congruence; split; [|done]].
    + destruct Hu. split; [lia|split; lia].
    + fold (total_coll c x). lia.
  - cbn. rewrite map_sum_delete, Ha. cbn. destruct (aw_target x Hwf) as [E [? ?]]. rewrite <- E. unfold item_target.
    split; [lia|split; lia].
Qed.
Lemma shrink_item_wf id a n x : auctions_wf x -> CollateralAuctions x !! id = Some a ->
  0 <= n <= amount a -> auctions_wf (shrink_item id a n x).
Proof.
  intros Hwf Ha Hn. pose proof (item_le_total x id a Hwf Ha) as [Hle1 _].
  pose proof (aw_item x Hwf id a Ha) as ([? ?] & Htg & Hin). split.
  - intros i b. cbn. intros [[<- <-]|[_ Hb]]%lookup_insert_Some; [|by eapply aw_item]. cbn.
    split; [split; lia|]. split; [done|lia].
  - intros c. unfold shrink_item. rewrite total_coll_insert. cbn. rewrite map_sum_insert, Ha. cbn.
    destruct (aw_total x Hwf c) as [E Hu]. rewrite <- E. unfold item_amount. cbn.
    case_decide as Ec; [subst c; rewrite !decide_True by done|rewrite !decide_False by congruence; split; [|done]].
    + destruct Hu. split; [lia|split; lia].
    + fold (total_coll c x). lia.
  - cbn. rewrite map_sum_insert, Ha. cbn. destruct (aw_target x Hwf) as [E ?]. rewrite <- E. unfold item_target. cbn.
    split; [lia|done].
Qed.
End Books.

(** ** Arithmetic of a bid *)
Section Bids.
Context `{ConfigLaws}.

Lemma collateral_amount_bounds a lp np : is_u128 (amount a) -> is_u128 (target a) ->
  is_u128 lp -> is_u128 np -> 0 <= collateral_amount a lp np <= amount a.
Proof.
  intros Ha Ht Hl Hn. unfold collateral_amount. destruct (in_reverse_stage a np && (lp <? np)) eqn:E;
    [|destruct Ha; lia].
  apply andb_true_iff in E as [Er Elt%Z.ltb_lt]. apply andb_true_iff in Er as [_ Et%Z.leb_le].
  assert (Hm : is_u128 (Z.max lp (target a))) by (unfold is_u128 in *; lia).
  destruct (checked_from_rational _ np) as [q|] eqn:Eq; cbn; [|destruct Ha; lia].
  pose proof (cfr_le_one _ _ _ Hm Hn ltac:(lia) Eq) as Hq.
  apply cfr_Some in Eq as (_ & Hu & _); [|done..].
  destruct (checked_mul_int q (amount a)) as [r|] eqn:Er; cbn; [|destruct Ha; lia].
  pose proof (cmi_le_one _ _ _ Hu Ha Hq Er). apply cmi_Some in Er as [[? _] _]; [|done..]. lia.
Qed.
Lemma payment_mono a lp np : lp <= np -> payment_amount a lp <= payment_amount a np.
Proof. intros. unfold payment_amount. case_match; lia. Qed.
Lemma payment_u128 a p : is_u128 (target a) -> is_u128 p -> is_u128 (payment_amount a p).
Proof. intros [? ?] [? ?]. unfold payment_amount, is_u128. case_match; lia. Qed.
(** A bid that has not reached the target is paid in full. *)
Lemma payment_forward a p : in_reverse_stage a p = false -> payment_amount a p = p.
Proof.
  unfold in_reverse_stage, payment_amount. destruct (always_forward a); [done|]. cbn.
  intros ?%Z.leb_gt. lia.
Qed.
Lemma minimum_increment_mono np lp tp r : check_minimum_increment np lp tp r = true -> lp <= np.
Proof.
  unfold check_minimum_increment. destruct (checked_mul_int _ _); [|done].
  destruct (U128.checked_sub np lp) eqn:E; [|done]. apply checked_sub_Some in E as [_ ?]. done.
Qed.
Lemma with_amount_id a : with_amount (amount a) a = a.
Proof. by destruct a. Qed.
End Bids.

(** ** An accepted bid *)
Section BidHandler.
Context `{ConfigLaws} `{!CDPTreasury, !CDPTreasuryLaws}.

Definition same_auctions (s t : State) : Prop :=
  st_auctions t = st_auctions s /\ st_auction_ext t = st_auction_ext s.

Lemma consumers_wp who s Q R (m : Run unit) : m = inc_consumers who \/ m = dec_consumers who ->
  (forall sys, Q tt (set_system sys s)) -> wp m Q R s.
Proof.
  intros Hm HQ. destruct Hm as [-> | ->].
  - unfold inc_consumers. apply wp_modify. destruct (sys_inc_consumers who (st_system s)); [apply HQ|].
    replace s with (set_system (st_system s) s) by (by destruct s). apply HQ.
  - apply wp_modify, HQ.
Qed.

Definition last_price (last : option (AccountId * Balance)) : Balance :=
  match last with Some (_, p) => p | None => 0 end.
(** What the previous bidder gets back. *)
Definition refund_of (a : CollateralAuctionItem) (last : option (AccountId * Balance)) : Balance :=
  match last with Some (_, p) => payment_amount a p | None => 0 end.
Definition refund_delta (a : CollateralAuctionItem) (last : option (AccountId * Balance))
    (c : CurrencyId) (x : AccountId) : Z :=
  match last with
  | Some (w, p) => delta GetStableCurrencyId w (payment_amount a p) c x
  | None => 0
  end.

Definition bid_accepted (now : BlockNumber) (id : AuctionId) (who : AccountId) (price : Balance)
    (last : option (AccountId * Balance)) (fin : BlockNumber) (s s' : State) : Prop :=
  exists a, CollateralAuctions (st_auctions s) !! id = Some a /\
    let lp := last_price last in
    let paid := payment_amount a price in
    let kept := collateral_amount a lp price in
    0 < price /\
    check_minimum_increment price lp (target a) (get_minimum_increment_size now (start_time a)) = true /\
    0 <= refund_of a last <= paid /\ 0 <= kept <= amount a /\
    fin = block_add now (get_auction_time_to_close now (start_time a)) /\
    exists l sys x,
      s' = set_auctions x (set_system sys (set_ledger l s)) /\
      auctions_eqv x (shrink_item id a kept (st_auctions s)) /\
      (forall c x, cur_free_balance l c x = free_balance c x s
         - delta GetStableCurrencyId who paid c x + refund_delta a last c x
         + delta GetStableCurrencyId treasury_account_id (paid - refund_of a last) c x
         + delta (currency_id a) (refund_recipient a) (amount a - kept) c x
         - delta (currency_id a) treasury_account_id (amount a - kept) c x) /\
      (forall c, cur_total_issuance l c = total_issuance c s).

Lemma delta_sub c a n m c' x : delta c a (n - m) c' x = delta c a n c' x - delta c a m c' x.
Proof. unfold delta. case_decide; lia. Qed.

Lemma free_ledger l s c x : free_balance c x (set_ledger l s) = cur_free_balance l c x.
Proof. done. Qed.
Lemma issuance_ledger l s c : total_issuance c (set_ledger l s) = cur_total_issuance l c.
Proof. done. Qed.
Lemma set_auctions_id s : set_auctions (st_auctions s) s = s.
Proof. by destruct s. Qed.

(** The reverse stage gives back the collateral the bid does not buy. *)
Lemma reverse_refund_wp a lp np s : auctions_wf (st_auctions s) ->
  is_u128 (amount a) -> is_u128 (target a) -> is_u128 lp -> is_u128 np ->
  amount a <= total_coll (currency_id a) (st_auctions s) ->
  wp (reverse_stage_refund a lp np)
    (fun a' s' => let kept := collateral_amount a lp np in
       0 <= kept <= amount a /\ a' = with_amount kept a /\
       exists l x, s' = set_auctions x (set_ledger l s) /\
         CollateralAuctions x = CollateralAuctions (st_auctions s) /\
         TotalTargetInAuction x = TotalTargetInAuction (st_auctions s) /\
         (kept < amount a -> TotalCollateralInAuction x =
            <[currency_id a := total_coll (currency_id a) (st_auctions s) - (amount a - kept)]>
              (TotalCollateralInAuction (st_auctions s))) /\
         (kept = amount a -> x = st_auctions s) /\
         (forall c x, cur_free_balance l c x = free_balance c x s
            + delta (currency_id a) (refund_recipient a) (amount a - kept) c x
            - delta (currency_id a) treasury_account_id (amount a - kept) c x) /\
         (forall c, cur_total_issuance l c = total_issuance c s))
    (fun _ _ => True) s.
Proof.
  intros Hwf Ha Ht Hl Hn Hle. pose proof (collateral_amount_bounds a lp np Ha Ht Hl Hn) as Hk.
  assert (Hsame : collateral_amount a lp np = amount a ->
    exists l x, s = set_auctions x (set_ledger l s) /\
         CollateralAuctions x = CollateralAuctions (st_auctions s) /\
         TotalTargetInAuction x = TotalTargetInAuction (st_auctions s) /\
         (collateral_amount a lp np < amount a -> TotalCollateralInAuction x =
            <[currency_id a := total_coll (currency_id a) (st_auctions s) - (amount a - collateral_amount a lp np)]>
              (TotalCollateralInAuction (st_auctions s))) /\
         (collateral_amount a lp np = amount a -> x = st_auctions s) /\
         (forall c x, cur_free_balance l c x = free_balance c x s
            + delta (currency_id a) (refund_recipient a) (amount a - collateral_amount a lp np) c x
            - delta (currency_id a) treasury_account_id (amount a - collateral_amount a lp np) c x) /\
         (forall c, cur_total_issuance l c = total_issuance c s)).
  { intros E. exists (st_ledger s), (st_auctions s). split_and!; try done; [by destruct s|lia|].
    intros c x. rewrite E, Z.sub_diag, !delta_zero. unfold free_balance. lia. }
  unfold reverse_stage_refund. destruct (in_reverse_stage a np) eqn:Er.
  2: { apply wp_ret. assert (E : collateral_amount a lp np = amount a) by (unfold collateral_amount; by rewrite Er).
       split; [done|]. split; [by rewrite E, with_amount_id|]. by apply Hsame. }
  revert Hk Hsame. generalize (collateral_amount a lp np). intros kept Hk Hsame.
  rewrite saturating_sub_exact by lia. destruct (Z.eqb_spec (amount a - kept) 0) as [Ez|Ez]; cbn [negb].
  - assert (kept = amount a) as -> by lia. apply wp_ret. split; [done|]. split; [by rewrite with_amount_id|].
    by apply Hsame.
  - wp_guards. eapply wp_mono; [apply withdraw_collateral_spec; unfold is_u128 in *; lia| |done].
    intros [] s1 (l & -> & Hf & Hi). unfold decrease_total_collateral, put_total_collateral. wp_guards.
    split; [done|]. split; [done|]. 
    change (total_collateral_in_auction (currency_id a) (set_ledger l s)) with (total_coll (currency_id a) (st_auctions s)).
    rewrite saturating_sub_exact by lia.
    eexists l, _. split; [reflexivity|]. cbn. split_and!; try done; lia.
Qed.

(** Paying the previous bidder and the treasury. *)
Lemma pay_wp who (price : Balance) (last : option (AccountId * Balance)) a (Q : Balance -> State -> Prop)
    (R : DispatchError -> State -> Prop) s :
  (forall e t, R e t) -> is_u128 (target a) -> is_u128 price -> is_u128 (last_price last) -> last_price last <= price ->
  (forall l, (forall c x, cur_free_balance l c x = free_balance c x s
       - delta GetStableCurrencyId who (refund_of a last) c x + refund_delta a last c x) ->
     (forall c, cur_total_issuance l c = total_issuance c s) ->
     Q (payment_amount a price - refund_of a last) (set_ledger l s)) ->
  wp (match last with
      | Some (last_bidder, _) =>
          let refund := payment_amount a (last_price last) in
          _ ← transfer GetStableCurrencyId who last_bidder refund;
          ok_or (U128.checked_sub (payment_amount a price) refund) (AuctionManagerE AuctionManagerError.InvalidBidPrice)
      | None => mret (payment_amount a price)
      end) Q R s.
Proof.
  intros HR Ht Hp Hl Hle HQ. destruct last as [[w lp]|]; cbn [last_price refund_of refund_delta] in *.
  - cbv zeta. wp_guards. eapply wp_mono; [apply transfer_moved; by apply payment_u128| |done].
    intros [] s1 (l & -> & Hf & Hi). pose proof (payment_mono a lp price Hle). wp_guards.
    apply checked_sub_Some in Hopt as [-> _]. apply HQ; [|done]. intros c x. rewrite Hf. lia.
  - apply wp_ret. replace s with (set_ledger (st_ledger s) s) by (by destruct s).
    replace (payment_amount a price) with (payment_amount a price - 0) by lia.
    apply HQ; [|done]. intros c x. rewrite delta_zero. unfold free_balance. lia.
Qed.

Lemma bid_handler_wp now id who price last s :
  auctions_wf (st_auctions s) -> is_u128 price -> is_u128 (last_price last) ->
  wp (collateral_auction_bid_handler now id (who, price) last)
    (fun fin s' => bid_accepted now id who price last fin s s') (fun _ s' => s' = s) s.
Proof.
  intros Hwf Hp Hl. unfold collateral_auction_bid_handler. wp_guards.
  apply negb_true_iff, Z.eqb_neq in Hens. rename a into a, Hopt into Ha.
  change (collateral_auctions id s) with (CollateralAuctions (st_auctions s) !! id) in Ha.
  destruct (aw_item _ Hwf id a Ha) as (Ham & Htg & _). pose proof (item_le_total _ id a Hwf Ha) as [Hle _].
  change (match last with Some (_, price0) => price0 | None => 0 end) with (last_price last) in *.
  pose proof (minimum_increment_mono _ _ _ _ Hens0) as Hmono.
  pose proof (payment_u128 a price Htg Hp) as Hpu.
  assert (Hru : 0 <= refund_of a last <= payment_amount a price).
  { unfold refund_of. destruct last as [[w lp]|]; cbn [last_price] in *; [|destruct Hpu; lia].
    pose proof (payment_mono a lp price Hmono). pose proof (payment_u128 a lp Htg Hl) as [? _]. lia. }
  apply pay_wp; [done..|]. intros l1 Hf1 Hi1. wp_guards.
  eapply wp_mono; [apply deposit_surplus_spec; unfold is_u128 in *; lia| |done].
  intros [] s2 (l2 & -> & Hf2 & Hi2). wp_guards.
  eapply wp_mono; [by apply reverse_refund_wp| |done].
  cbv zeta. intros a' s3 (Hk & -> & l3 & x & -> & Hx1 & Hx2 & Hx3 & Hx4 & Hf3 & Hi3). wp_guards.
  unfold swap_bidders. wp_guards. eapply (consumers_wp who); [by left|]. intros sys1. wp_guards.
  assert (Hlast : forall sys, wp (_ ← put_auction id (with_amount (collateral_amount a (last_price last) price) a);
      mret (block_add now (get_auction_time_to_close now (start_time a))))
      (fun fin s' => bid_accepted now id who price last fin s s') (fun _ _ => True)
      (set_system sys (set_auctions x (set_ledger l3 (set_ledger l2 (set_ledger l1 s)))))).
  { intros sys. unfold put_auction. wp_guards. exists a. split; [done|]. cbv zeta.
    split; [destruct Hp; lia|]. split; [done|]. split; [done|]. split; [done|]. split; [done|].
    eexists l3, sys, _. split; [reflexivity|]. split; [|split].
    - cbn in Hx1, Hx2, Hx3, Hx4 |- *. split; [by rewrite Hx1|]. split; [done|]. intros c.
      unfold shrink_item. rewrite total_coll_insert. unfold total_coll at 1. cbn.
      destruct (Z.eq_dec (collateral_amount a (last_price last) price) (amount a)) as [E|E].
      + rewrite (Hx4 E), E, Z.sub_diag, Z.sub_0_r. case_decide; [by subst|done].
      + rewrite Hx3 by lia. rewrite lookup_insert. repeat case_decide; congruence || done.
    - intros c w. rewrite Hf3, free_ledger, Hf2, free_ledger, Hf1.
      rewrite delta_sub. rewrite (delta_sub GetStableCurrencyId who). lia.
    - intros c. rewrite Hi3, issuance_ledger, Hi2, issuance_ledger. apply Hi1. }
  destruct last as [[w lp]|]; cbn [fmap option_fmap option_map fst].
  - eapply (consumers_wp w); [by right|]. intros sys2. wp_guards. apply Hlast.
  - apply wp_ret. wp_guards. apply Hlast.
Qed.
End BidHandler.

(** ** The other handlers *)
Section Handlers.
Context `{ConfigLaws} `{!CDPTreasury, !CDPTreasuryLaws} `{!CDPTreasuryExtended, !CDPTreasuryExtendedLaws}
  `{!DEXManager, !PriceProvider, !PriceProviderLaws, !EmergencyShutdown}.

Lemma wp_event_any e s Q R : Q tt (set_events (st_events s ++ [e]) s) -> wp (deposit_event e) Q R s.
Proof. apply wp_event. Qed.

Definition new_item (recipient : AccountId) (c : CurrencyId) (n t : Balance) (s : State) : CollateralAuctionItem :=
  mkAuctionItem recipient c n n t (block_number (st_env s)).

Lemma new_auction_wp recipient c n t s :
  auctions_inv s -> is_u128 n -> is_u128 t ->
  wp (am_new_collateral_auction recipient c n t)
    (fun _ s' => auctions_inv s' /\ exists id ext sys x,
       CollateralAuctions (st_auctions s) !! id = None /\
       s' = set_events (st_events s ++ [NewCollateralAuction id c n t])
              (set_system sys (set_auctions x (set_auction_ext ext s))) /\
       auctions_eqv x (add_item id (new_item recipient c n t s) (st_auctions s)))
    (fun _ _ => True) s.
Proof.
  intros [Hwf Hlink] Hn Ht. unfold am_new_collateral_auction. wp_guards.
  apply checked_add_Some in Hopt as [-> Hc].
  change (total_collateral_in_auction c s) with (total_coll c (st_auctions s)) in *.
  unfold put_total_collateral. wp_guards.
  set (x1 := mkAuctions (CollateralAuctions (st_auctions s))
    (<[c := total_coll c (st_auctions s) + n]> (TotalCollateralInAuction (st_auctions s)))
    (TotalTargetInAuction (st_auctions s))).
  assert (Hdone : TotalTargetInAuction (st_auctions s) + t <= U128_MAX ->
    forall x, CollateralAuctions x = CollateralAuctions (st_auctions s) ->
      TotalCollateralInAuction x = TotalCollateralInAuction x1 ->
      TotalTargetInAuction x = TotalTargetInAuction (st_auctions s) + t ->
      wp (start ← gets (fun s => block_number (st_env s));
          id ← ext_new_auction start None;
          _ ← put_auction id (mkAuctionItem recipient c n n t start);
          _ ← inc_consumers recipient;
          deposit_event (NewCollateralAuction id c n t))
       (fun _ s' => auctions_inv s' /\ exists id ext sys x,
         CollateralAuctions (st_auctions s) !! id = None /\
         s' = set_events (st_events s ++ [NewCollateralAuction id c n t])
                (set_system sys (set_auctions x (set_auction_ext ext s))) /\
         auctions_eqv x (add_item id (new_item recipient c n t s) (st_auctions s)))
       (fun _ _ => True) (set_auctions x s)).
  { intros Hb x Ex1 Ex2 Ex3. wp_guards. unfold ext_new_auction, wp at 1. cbn.
    destruct (new_auction _ _ _) as [[id ext]|e] eqn:En; [|done].
    apply new_auction_law in En as (Hfresh & Hnew & Hold).
    assert (Hnone : CollateralAuctions (st_auctions s) !! id = None).
    { destruct (_ !! id) as [b|] eqn:E; [|done]. apply Hlink in E as [? E]. congruence. }
    wp_guards. unfold put_auction. wp_guards. eapply (consumers_wp recipient); [by left|]. intros sys.
    wp_guards. apply wp_event. set (item := new_item recipient c n t s).
    set (xf := mkAuctions (<[id := item]> (CollateralAuctions x)) (TotalCollateralInAuction x)
      (TotalTargetInAuction x)).
    assert (Heqv : auctions_eqv xf (add_item id item (st_auctions s))).
    { unfold xf, add_item. rewrite Ex1, Ex2, Ex3. done. }
    split; [|eexists id, ext, sys, xf; split; [done|]; by split].
    split.
    - change (auctions_wf xf). rewrite Heqv. apply add_item_wf; (done || cbn; lia).
    - intros i b. change (CollateralAuctions xf !! i = Some b -> is_Some (auction_info ext i)).
      unfold xf. cbn. rewrite Ex1. intros [[<- <-]|[Hi Hb']]%lookup_insert_Some; [by rewrite Hnew|].
      rewrite Hold by congruence. by eapply Hlink. }
  wp_guards. wp_branch.
  - wp_guards. apply checked_add_Some in Hopt as [-> Hm]. unfold put_total_target. apply wp_modify. cbv beta.
    cbn in Hm. by apply (Hdone Hm (mkAuctions (CollateralAuctions (st_auctions s)) (TotalCollateralInAuction x1)
      (TotalTargetInAuction (st_auctions s) + t))).
  - apply negb_false_iff, Z.eqb_eq in Hif. subst t. apply wp_ret. cbv beta.
    apply (Hdone ltac:(destruct (aw_target _ Hwf) as [_ [_ ?]]; lia) x1); cbn; (done || lia).
Qed.

(** Taking the item out and lowering the totals. *)
Lemma decrease_wp id a s t (Q : unit -> State -> Prop) R :
  auctions_wf (st_auctions s) -> CollateralAuctions (st_auctions s) !! id = Some a ->
  st_auctions t = mkAuctions (delete id (CollateralAuctions (st_auctions s)))
    (TotalCollateralInAuction (st_auctions s)) (TotalTargetInAuction (st_auctions s)) ->
  Q tt (set_auctions (remove_item id a (st_auctions s)) t) ->
  wp (_ ← decrease_total_collateral (currency_id a) (amount a); decrease_total_target (target a)) Q R t.
Proof.
  intros Hwf Ha Ht HQ. pose proof (item_le_total _ id a Hwf Ha) as [Hle1 Hle2].
  unfold decrease_total_collateral, decrease_total_target, put_total_collateral, put_total_target. wp_guards.
  unfold total_target_in_auction, total_collateral_in_auction, with_auctions. cbn. rewrite Ht. cbn.
  fold (total_coll (currency_id a) (st_auctions s)). rewrite !saturating_sub_exact by done. exact HQ.
Qed.

Lemma same_auctions_trans s t u : same_auctions s t -> same_auctions t u -> same_auctions s u.
Proof. intros [E1 E2] [E3 E4]. split; congruence. Qed.

Lemma issue_unbacked_same who n s : is_u128 n ->
  wp (attempt (issue_debit who n false)) (fun _ => same_auctions s) (fun _ _ => False) s.
Proof.
  intros Hn. wp_step. eapply wp_mono; [by apply issue_unbacked_spec| |].
  - intros [] s' (t & [-> _] & l & -> & _). done.
  - intros e s' [-> |[-> _]]; done.
Qed.

Lemma dex_take_wp id a who p s : dex_typed (st_dex s) -> is_u128 (amount a) -> is_u128 (target a) -> is_u128 p ->
  wp (dex_take id a who p) (fun _ => same_auctions s) (fun _ _ => False) s.
Proof.
  intros Hd Ha Ht Hp. unfold dex_take. apply wp_bind, wp_attempt.
  eapply wp_mono; [by apply swap_exact_collateral_spec| |intros e t ->; by apply wp_ret].
  intros r s1 (Hr & _ & path & _ & _ & ? & c0 & z & d & l & _ & _ & -> & _). cbv beta iota. apply wp_bind.
  eapply wp_mono; [apply (issue_unbacked_same who p _ Hp)| |done]. intros ? s2 Hs2. apply wp_bind.
  destruct (in_reverse_stage a r) eqn:Er.
  - apply andb_true_iff in Er as [_ Hle%Z.leb_le]. apply wp_bind, wp_expect. exists (r - target a).
    split; [by apply checked_sub_Some|]. apply wp_bind.
    eapply wp_mono; [apply (issue_unbacked_same (refund_recipient a) (r - target a)); unfold is_u128 in *; lia| |done].
    intros ? s3 Hs3. apply wp_ret. cbv beta. apply wp_bind, wp_event, wp_ret.
    eapply same_auctions_trans; [exact Hs2|exact Hs3].
  - apply wp_ret. cbv beta. apply wp_bind, wp_event. apply wp_ret. exact Hs2.
Qed.
Lemma deal_wp id a who p s : is_u128 (amount a) ->
  wp (deal id a who p) (fun _ => same_auctions s) (fun _ _ => False) s.
Proof.
  intros Ha. unfold deal. apply wp_bind, wp_attempt. eapply wp_mono; [by apply withdraw_collateral_spec| |].
  - intros [] s1 (l & -> & _). by apply wp_event.
  - intros e s1 ->. by apply wp_event.
Qed.

Definition winner_ok (winner : option (AccountId * Balance)) : Prop :=
  match winner with Some (_, p) => is_u128 p | None => True end.

Lemma ended_wp id winner s :
  auctions_wf (st_auctions s) -> dex_typed (st_dex s) -> winner_ok winner ->
  wp (on_auction_ended id winner)
    (fun _ s' => st_auction_ext s' = st_auction_ext s /\
       st_auctions s' = match CollateralAuctions (st_auctions s) !! id with
                        | Some a => remove_item id a (st_auctions s)
                        | None => st_auctions s
                        end)
    (fun _ _ => False) s.
Proof.
  intros Hwf Hd Hw. unfold on_auction_ended, take_auction. wp_guards.
  set (x := st_auctions s). set (s1 := with_auctions _ s).
  assert (Hfin : forall t y, st_auction_ext t = st_auction_ext s -> st_auctions t = y ->
    wp (match winner with Some (bidder, _) => dec_consumers bidder | None => mret tt end)
      (fun _ s' => st_auction_ext s' = st_auction_ext s /\ st_auctions s' = y) (fun _ _ => False) t).
  { intros t y E1 E2. destruct winner as [[w p]|]; [apply wp_modify|apply wp_ret]; done. }
  change (collateral_auctions id s) with (CollateralAuctions x !! id).
  destruct (CollateralAuctions x !! id) as [a|] eqn:Ha.
  2: { wp_guards. apply Hfin; [done|]. cbn. rewrite delete_id by done. by destruct (st_auctions s). }
  destruct (aw_item _ Hwf id a Ha) as (Ham & Htg & _).
  unfold collateral_auction_end_handler. wp_guards.
  assert (Hrest : forall t, same_auctions s1 t ->
    wp (_ ← dec_consumers (refund_recipient a);
        _ ← decrease_total_collateral (currency_id a) (amount a);
        decrease_total_target (target a))
      (fun _ => wp (match winner with Some (bidder, _) => dec_consumers bidder | None => mret tt end)
         (fun _ s' => st_auction_ext s' = st_auction_ext s /\ st_auctions s' = remove_item id a x)
         (fun _ _ => False)) (fun _ _ => False) t).
  { intros t [E1 E2]. wp_guards. apply wp_modify.
    apply (decrease_wp id a s); [done|done|cbn; by rewrite E1|]. by apply Hfin. }
  destruct winner as [[w p]|]; cbn [winner_ok] in Hw.
  - wp_guards. destruct (dex_beats_bid a p s1).
    + eapply wp_mono; [by apply (dex_take_wp id a w p s1)| |done]. intros [|] t Ht.
      * eapply wp_mono; [by apply (deal_wp id a w p t)| |done]. intros [] u Hu. apply Hrest.
        by eapply same_auctions_trans.
      * wp_guards. by apply Hrest.
    + wp_guards. eapply wp_mono; [by apply (deal_wp id a w p s1)| |done]. intros [] u Hu. by apply Hrest.
  - wp_guards. apply wp_event. by apply Hrest.
Qed.

(** ** Cancellation *)
Definition bid_refund (bid : option (AccountId * Balance)) (c : CurrencyId) (x : AccountId) : Z :=
  match bid with Some (w, p) => delta GetStableCurrencyId w p c x | None => 0 end.

(** What a cancellation did; [confiscated] is the collateral the treasury
    keeps at the settle price. *)
Definition cancelled_ok (id : AuctionId) (s s' : State) : Prop :=
  exists a p,
    let bid := get_last_bid id s in
    let s1 := set_auctions (mkAuctions (delete id (CollateralAuctions (st_auctions s)))
      (TotalCollateralInAuction (st_auctions s)) (TotalTargetInAuction (st_auctions s))) s in
    let confiscated := if always_forward a then amount a
                       else Z.min (saturating_mul_int p (target a)) (amount a) in
    CollateralAuctions (st_auctions s) !! id = Some a /\
    in_reverse_stage a (last_price bid) && bool_decide (is_Some bid) = false /\
    payment_amount a (last_price bid) = last_price bid /\
    get_relative_price GetStableCurrencyId (currency_id a) s1 = Some p /\
    0 <= confiscated <= amount a /\
    DebitPool (st_treasury s) + last_price bid <= U128_MAX /\
    exists l sys,
      s' = set_auction_ext (remove_auction id (st_auction_ext s))
        (set_auctions (remove_item id a (st_auctions s)) (set_system sys
          (set_treasury (mkTreasury (ExpectedCollateralAuctionSize (st_treasury s))
             (DebitPool (st_treasury s) + last_price bid)) (set_ledger l s)))) /\
      (forall c x, cur_free_balance l c x = free_balance c x s
         + delta (currency_id a) (refund_recipient a) (amount a - confiscated) c x
         - delta (currency_id a) treasury_account_id (amount a - confiscated) c x
         + bid_refund bid c x).

Lemma refund_bid_wp bid s (Q : unit -> State -> Prop) (R : DispatchError -> State -> Prop) :
  is_u128 (last_price bid) -> is_u128 (DebitPool (st_treasury s)) -> (forall e t, R e t) ->
  (forall l sys, DebitPool (st_treasury s) + last_price bid <= U128_MAX ->
     (forall c x, cur_free_balance l c x = free_balance c x s + bid_refund bid c x) ->
     Q tt (set_system sys (set_treasury (mkTreasury (ExpectedCollateralAuctionSize (st_treasury s))
             (DebitPool (st_treasury s) + last_price bid)) (set_ledger l s)))) ->
  wp (match bid with
      | Some (bidder, bid_price) => _ ← issue_debit bidder bid_price false; dec_consumers bidder
      | None => mret tt
      end) Q R s.
Proof.
  intros Hb Hd HR HQ. destruct bid as [[w p]|]; cbn [last_price bid_refund] in *.
  - apply wp_bind. eapply wp_mono; [by apply issue_unbacked_spec| |done].
    intros [] s1 (t & [-> Hm] & l & -> & Hf & _). apply wp_modify. by apply (HQ l).
  - apply wp_ret. specialize (HQ (st_ledger s) (st_system s)). rewrite Z.add_0_r in HQ.
    replace s with (set_system (st_system s) (set_treasury (mkTreasury
      (ExpectedCollateralAuctionSize (st_treasury s)) (DebitPool (st_treasury s))) (set_ledger (st_ledger s) s)))
      by (destruct s as [? ? [? ?]]; done).
    apply HQ; [by destruct Hd|]. intros c x. unfold free_balance. lia.
Qed.

Lemma cancel_wp id s :
  auctions_wf (st_auctions s) -> is_u128 (last_price (get_last_bid id s)) ->
  is_u128 (DebitPool (st_treasury s)) ->
  prices_typed s ->
  wp (am_cancel_auction id) (fun _ => cancelled_ok id s) (fun _ _ => True) s.
Proof.
  intros Hwf Hb Hdp Hpr. unfold am_cancel_auction, take_auction. wp_guards.
  change (collateral_auctions id s) with (CollateralAuctions (st_auctions s) !! id) in Hopt. rename a into a, Hopt into Ha.
  destruct (aw_item _ Hwf id a Ha) as (Ham & Htg & _).
  unfold cancel_collateral_auction, with_auctions. wp_guards.
  set (s1 := set_auctions _ s). change (get_last_bid id s1) with (get_last_bid id s).
  set (bid := get_last_bid id s) in *.
  assert (Hstep : forall Q, (in_reverse_stage a (last_price bid) && bool_decide (is_Some bid) = false -> Q tt s1) ->
    wp (match bid with
        | Some (_, bid_price) =>
            ensure (negb (in_reverse_stage a bid_price)) (AuctionManagerE AuctionManagerError.InReverseStage)
        | None => mret tt
        end : Run unit) Q (fun _ _ => True) s1).
  { intros Q HQ. destruct bid as [[w p]|]; cbn [last_price] in HQ.
    - apply wp_ensure. split; [|done]. intros Hr%negb_true_iff. apply HQ. by rewrite Hr.
    - apply wp_ret. apply HQ. by rewrite andb_false_r. }
  apply Hstep. clear Hstep. intros Hrev. wp_guards. rename a0 into p, Hopt into Hp.
  pose proof (smi_u128 p (target a) (relative_price_u128 _ _ s1 p Hpr Hp) Htg) as [Hs0 _].
  set (confiscated := if always_forward a then amount a else Z.min (saturating_mul_int p (target a)) (amount a)).
  assert (Hconf : 0 <= confiscated <= amount a) by (subst confiscated; destruct Ham; case_match; lia).
  rewrite saturating_sub_exact by lia.
  eapply wp_mono; [apply withdraw_collateral_spec; unfold is_u128 in *; lia| |done].
  intros [] s2 (l1 & -> & Hf1 & _). apply wp_bind. apply refund_bid_wp; [done|done|done|].
  intros l2 sys Hm Hf2. wp_guards. apply wp_modify.
  apply (decrease_wp id a s); [done|done|done|]. unfold remove_ext_auction. apply wp_modify.
  exists a, p. cbv zeta. fold bid confiscated s1. split; [done|]. split; [done|]. split.
  { destruct bid as [[w q]|]; cbn [last_price] in *.
    - rewrite bool_decide_true, andb_true_r in Hrev by done. by apply payment_forward.
    - unfold payment_amount. destruct Htg. case_match; lia. }
  split; [done|]. split; [done|]. split; [exact Hm|].
  eexists l2, _. split; [reflexivity|]. intros c x. rewrite Hf2, free_ledger, Hf1.
  change (free_balance c x s1) with (free_balance c x s). lia.
Qed.
Lemma cancelled_inv id s s' : auctions_inv s -> cancelled_ok id s s' -> auctions_inv s'.
Proof.
  intros [Hwf Hlink] (a & p & Ha & _ & _ & _ & _ & _ & l & sys & -> & _).
  split; [by apply remove_item_wf|]. intros i b. cbn. intros [Hi Hb]%lookup_delete_Some.
  rewrite remove_auction_law, decide_False by congruence. by eapply Hlink.
Qed.
End Handlers.

(** ** Claims *)
Section Claims.
Context `{ConfigLaws} `{!CDPTreasury, !CDPTreasuryLaws} `{!CDPTreasuryExtended, !CDPTreasuryExtendedLaws}
  `{!DEXManager, !PriceProvider, !PriceProviderLaws, !EmergencyShutdown}.

Lemma bid_accepted_inv now id who price last fin s s' :
  auctions_inv s -> bid_accepted now id who price last fin s s' -> auctions_inv s'.
Proof.
  intros [Hwf Hlink] (a & Ha & _ & _ & _ & Hk & _ & l & sys & x & -> & Hx & _). split.
  - change (auctions_wf x). rewrite Hx. by apply shrink_item_wf.
  - intros i b. cbn. destruct Hx as [-> _]. cbn. intros [[<- <-]|[_ Hb]]%lookup_insert_Some; eauto.
Qed.

(** An accepted bid.  The auction pallet's callback never panics.  It
    rejects a bid without any effect, or the bid beats the last one by the
    minimum increment and the new bidder pays exactly [payment_amount]: the
    previous bidder gets back exactly what it had paid and the treasury the
    (nonnegative) rest.  In the reverse stage the auction shrinks to the
    collateral the bid buys, never to more than before, and the difference
    goes from the treasury to the refund recipient; nothing else moves. *)
Theorem new_bid_spec now id who price last s :
  auctions_wf (st_auctions s) -> is_u128 price -> is_u128 (last_price last) ->
  wp (on_new_bid now id (who, price) last)
    (fun r s' => match auction_end_change r with
       | NewValue (Some fin) => accept_bid r = true /\ bid_accepted now id who price last fin s s'
       | _ => accept_bid r = false /\ s' = s
       end)
    (fun _ _ => False) s.
Proof.
  intros Hwf Hp Hl. unfold on_new_bid. apply wp_bind, wp_attempt.
  eapply wp_mono; [by apply bid_handler_wp| |].
  - intros fin s' Hs'. by apply wp_ret.
  - intros e s' ->. by apply wp_ret.
Qed.

(** A cancellation settles fairly.  It only happens before the reverse
    stage, so the bidder - who had paid [payment_amount] - gets back exactly
    that as new stable currency, booked as system debit; the treasury keeps
    the collateral worth the target at the settle price (all of it without a
    target), the refund recipient gets the rest, and the auction is gone from
    both pallets. *)
Theorem cancel_auction_spec id s s' :
  auctions_wf (st_auctions s) -> is_u128 (last_price (get_last_bid id s)) ->
  is_u128 (DebitPool (st_treasury s)) ->
  prices_typed s ->
  am_cancel_auction id s = (Ok tt, s') -> cancelled_ok id s s'.
Proof. intros Hwf Hb Hd Hp Hr. by apply (wp_ok _ _ _ _ _ _ (cancel_wp id s Hwf Hb Hd Hp)) in Hr. Qed.

Inductive AuctionOp :=
  | NewAuctionOp (recipient : AccountId) (c : CurrencyId) (n t : Balance)
  | BidOp (now : BlockNumber) (id : AuctionId) (bid : AccountId * Balance)
      (last : option (AccountId * Balance))
  | EndOp (id : AuctionId) (winner : option (AccountId * Balance))
  | CancelOp (o : Origin) (id : AuctionId).
(** New auctions are made by transactional calls of the treasury; the auction
    pallet takes its record of an auction before it reports its end. *)
Definition run_auction_op (op : AuctionOp) : Run unit :=
  match op with
  | NewAuctionOp recipient c n t => transactional (am_new_collateral_auction recipient c n t)
  | BidOp now id bid last => _ ← on_new_bid now id bid last; mret tt
  | EndOp id winner => _ ← remove_ext_auction id; on_auction_ended id winner
  | CancelOp o id => cancel o id
  end.
Definition auction_op_ok (op : AuctionOp) (s : State) : Prop :=
  match op with
  | NewAuctionOp _ _ n t => is_u128 n /\ is_u128 t
  | BidOp _ _ bid last => is_u128 bid.2 /\ is_u128 (last_price last)
  | EndOp _ winner => winner_ok winner /\ dex_typed (st_dex s)
  | CancelOp _ id => is_u128 (last_price (get_last_bid id s)) /\ is_u128 (DebitPool (st_treasury s)) /\
      prices_typed s
  end.

(** C11: the books of the auction manager balance.  Creating an auction, a
    bid (accepted or not), the end of an auction (dealt to the winner, taken
    by the exchange or without bids) and a cancellation keep the recorded
    total collateral of each currency and the total target equal to the sums
    over the running auctions, all of which the auction pallet knows; a
    failing operation changes nothing and none panics. *)
Theorem auction_books_safe op s : auction_op_ok op s -> auctions_inv s ->
  wp (run_auction_op op) (fun _ => auctions_inv) (fun _ s' => s' = s) s.
Proof.
  intros Hok Hinv. pose proof Hinv as [Hwf Hlink]. destruct op as [w c n t|now id [who p] last|id winner|o id]; cbn [run_auction_op auction_op_ok snd] in *.
  - destruct Hok. apply wp_transactional. eapply wp_mono; [by apply new_auction_wp| |done]. by intros [] s' [? _].
  - destruct Hok. apply wp_bind. unfold on_new_bid. apply wp_bind, wp_attempt.
    eapply wp_mono; [by apply bid_handler_wp| |].
    + intros fin s' Hs'. do 2 apply wp_ret. eapply bid_accepted_inv; [exact Hinv|exact Hs'].
    + intros e s' ->. by do 2 apply wp_ret.
  - destruct Hok. unfold remove_ext_auction. wp_guards. eapply wp_mono; [by apply ended_wp| |done].
    cbn. intros [] s' [E1 E2]. split.
    + rewrite E2. destruct (_ !! id) as [a|] eqn:Ha; [by apply remove_item_wf|done].
    + intros i b Hb. rewrite E1, remove_auction_law. rewrite E2 in Hb.
      destruct (_ !! id) as [a|] eqn:Ha; cbn in Hb.
      * apply lookup_delete_Some in Hb as [? Hb]. rewrite decide_False by congruence. by eapply Hlink.
      * rewrite decide_False by congruence. by eapply Hlink.
  - destruct Hok as (? & ? & ?). unfold cancel. wp_guards. apply wp_none; [intros _|done].
    wp_guards. eapply wp_mono; [by apply cancel_wp| |done]. intros [] t Ht. apply wp_event.
    pose proof (cancelled_inv id s t Hinv Ht) as [? ?]. by split.
Qed.
End Claims.
