(* ===== verification/EmergencyShutdown.v ===== *)
(** * Emergency shutdown

    [modules/emergency-shutdown/src/lib.rs]: the two flags of the shutdown, the
    calls that set them, and the final redemption of the stable currency for
    the collateral that is left. *)
From S2P Require Import Prelude FixedPoint Primitives Runtime Sample Support Loans.

#[export] Instance emergency_shutdown_flag `{Config} : EmergencyShutdown := {
  is_shutdown s := IsShutdown (st_shutdown s);
}.

Section Model.
Context `{Config, !CDPTreasury, !AuctionManager, !PriceProvider}.

Definition can_refund (s : State) : bool := CanRefund (st_shutdown s).
Definition put_is_shutdown (b : bool) : Run unit :=
  modify (fun s => set_shutdown (mkShutdown b (CanRefund (st_shutdown s))) s).
Definition put_can_refund (b : bool) : Run unit :=
  modify (fun s => set_shutdown (mkShutdown (IsShutdown (st_shutdown s)) b) s).

Definition emergency_shutdown (origin : Origin) : Run unit :=
  transactional (
    _ ← ensure_origin ShutdownOrigin origin;
    shutdown ← gets is_shutdown;
    _ ← ensure (negb shutdown) (EmergencyShutdownE EmergencyShutdownError.AlreadyShutdown);
    _ ← for_each lock_price CollateralCurrencyIds;
    _ ← put_is_shutdown true;
    now ← gets (fun s => block_number (st_env s));
    deposit_event (Shutdown now)).

(** Nothing of a collateral type is left to settle. *)
Definition ensure_settled (c : CurrencyId) : Run unit :=
  in_auction ← gets (get_total_collateral_in_auction c);
  _ ← ensure (in_auction =? 0) (EmergencyShutdownE EmergencyShutdownError.ExistPotentialSurplus);
  total ← gets (total_positions c);
  ensure (debit total =? 0) (EmergencyShutdownE EmergencyShutdownError.ExistUnhandledDebit).
Definition open_collateral_refund (origin : Origin) : Run unit :=
  transactional (
    _ ← ensure_origin ShutdownOrigin origin;
    shutdown ← gets is_shutdown;
    _ ← ensure shutdown (EmergencyShutdownE EmergencyShutdownError.MustAfterShutdown);
    _ ← for_each ensure_settled CollateralCurrencyIds;
    _ ← put_can_refund true;
    now ← gets (fun s => block_number (st_env s));
    deposit_event (OpenRefund now)).

(** The loop of [refund_collaterals]; returns the list of what was paid. *)
Fixpoint refund_loop (who : AccountId) (refund_ratio : Ratio) (cs : list CurrencyId)
    (refund_assets : list (CurrencyId * Balance)) : Run (list (CurrencyId * Balance)) :=
  match cs with
  | [] => mret refund_assets
  | c :: cs =>
      total ← gets (get_total_collaterals c);
      let refund_amount := saturating_mul_int refund_ratio total in
      if negb (refund_amount =? 0) then
        _ ← withdraw_collateral who c refund_amount;
        refund_loop who refund_ratio cs (refund_assets ++ [(c, refund_amount)])
      else refund_loop who refund_ratio cs refund_assets
  end.
Definition refund_collaterals (origin : Origin) (amount : Balance) : Run unit :=
  transactional (
    who ← ensure_signed origin;
    open ← gets can_refund;
    _ ← ensure open (EmergencyShutdownE EmergencyShutdownError.CanNotRefund);
    refund_ratio ← gets (get_debit_proportion amount);
    _ ← burn_debit who amount;
    refund_assets ← refund_loop who refund_ratio CollateralCurrencyIds [];
    deposit_event (Refund who amount refund_assets)).
End Model.

(** ** The life cycle *)
Section LifeCycle.
Context `{Config, !CDPTreasury, !AuctionManager, !PriceProvider}.

(** The flags along a run: normal, shut down, refunding; no way back. *)
Inductive Phase := Normal | ShutDown | Refunding.
Definition phase (s : State) : option Phase :=
  match IsShutdown (st_shutdown s), CanRefund (st_shutdown s) with
  | false, false => Some Normal
  | true, false => Some ShutDown
  | true, true => Some Refunding
  | false, true => None
  end.
Inductive ShutdownCall := EmergencyShutdownC | OpenRefundC | RefundC (amount : Balance).
Definition run_shutdown_call (c : ShutdownCall) (o : Origin) : Run unit :=
  match c with
  | EmergencyShutdownC => emergency_shutdown o
  | OpenRefundC => open_collateral_refund o
  | RefundC n => refund_collaterals o n
  end.
Definition settled (c : CurrencyId) (s : State) : bool :=
  (get_total_collateral_in_auction c s =? 0) && (debit (total_positions c s) =? 0).
(** What a successful call needs and does. *)
Definition shutdown_step (c : ShutdownCall) (o : Origin) (p : Phase) (s : State) : option Phase :=
  match c, p with
  | EmergencyShutdownC, Normal => if ShutdownOrigin o then Some ShutDown else None
  | OpenRefundC, (ShutDown | Refunding) =>
      if ShutdownOrigin o && forallb (fun c => settled c s) CollateralCurrencyIds then Some Refunding else None
  | RefundC _, Refunding => match o with Signed _ => Some Refunding | _ => None end
  | _, _ => None
  end.
End LifeCycle.

Section Lemmas.
Context `{ConfigLaws} `{!CDPTreasury, !CDPTreasuryLaws, !AuctionManager, !PriceProvider, !PriceProviderLaws}.

Lemma settled_wp cs s :
  wp (for_each ensure_settled cs) (fun _ s' => s' = s /\ forallb (fun c => settled c s) cs = true)
    (fun _ _ => True) s.
Proof.
  induction cs as [|c cs IH]; cbn [for_each forallb]; [done|]. unfold ensure_settled. wp_guards.
  eapply wp_mono; [exact IH| |done]. intros [] s' [-> ->]. unfold settled. by rewrite Hens, Hens0.
Qed.
Lemma lock_all_wp cs s :
  wp (for_each lock_price cs) (fun _ s' => exists m ev, s' = set_locked_price m (set_events ev s))
    (fun _ _ => False) s.
Proof.
  apply (wp_for_each _ _ (fun s' => exists m ev, s' = set_locked_price m (set_events ev s))).
  - exists (st_locked_price s), (st_events s). by destruct s.
  - intros c t _ (m & ev & ->). eapply wp_mono; [apply lock_price_spec| |done].
    intros [] t' (m' & ev' & ->). by exists m', ev'.
Qed.

(** ** The redemption *)

(** [share ratio c s]: what a redemption pays of [c]. *)
Definition share (ratio : Ratio) (c : CurrencyId) (s : State) : Balance :=
  saturating_mul_int ratio (free_balance c treasury_account_id s).
Definition shares (ratio : Ratio) (cs : list CurrencyId) (s : State) (c : CurrencyId) : Balance :=
  if decide (c ∈ cs) then share ratio c s else 0.
Definition paid (ratio : Ratio) (cs : list CurrencyId) (s : State) : list (CurrencyId * Balance) :=
  List.filter (fun p => negb (p.2 =? 0)) (map (fun c => (c, share ratio c s)) cs).
(** Only the ledger changed: [who] got [n c] of each [c] from the treasury. *)
Definition paid_out (who : AccountId) (n : CurrencyId -> Balance) (s s' : State) : Prop :=
  exists l, s' = set_ledger l s /\
    (forall c x, cur_free_balance l c x = free_balance c x s
       + delta c who (n c) c x - delta c treasury_account_id (n c) c x) /\
    (forall c, cur_total_issuance l c = total_issuance c s).

Lemma share_u128 r c s : is_u128 r -> is_u128 (share r c s).
Proof. intros Hr. apply smi_u128; [done|]. apply free_balance_u128. Qed.
Lemma share_frame r c s t : free_balance c treasury_account_id t = free_balance c treasury_account_id s ->
  share r c t = share r c s.
Proof. unfold share. by intros ->. Qed.
Lemma paid_frame r cs s t : (forall c, c ∈ cs -> share r c t = share r c s) -> paid r cs t = paid r cs s.
Proof.
  unfold paid. induction cs as [|c cs IH]; intros Hc; [done|]. cbn. rewrite Hc by set_solver.
  rewrite IH; [done|]. intros. apply Hc. set_solver.
Qed.
Lemma paid_out_nothing who n s : (forall c, n c = 0) -> paid_out who n s s.
Proof.
  intros Hn. exists (st_ledger s). split; [by destruct s|]. split; [|done].
  intros c x. rewrite Hn, !delta_zero. unfold free_balance. lia.
Qed.
(** One payment, then the rest. *)
Lemma paid_out_step who r c cs s l s' : c ∉ cs ->
  (forall c' x, cur_free_balance l c' x = free_balance c' x s + delta c who (share r c s) c' x
     - delta c treasury_account_id (share r c s) c' x) ->
  (forall c', cur_total_issuance l c' = total_issuance c' s) ->
  paid_out who (shares r cs (set_ledger l s)) (set_ledger l s) s' -> paid_out who (shares r (c :: cs) s) s s'.
Proof.
  intros Hc Hf Hi (l' & -> & Hf' & Hi'). exists l'. split; [done|]. split.
  - intros c' x. rewrite Hf'. unfold free_balance at 1. cbn. rewrite Hf. unfold shares.
    destruct (decide (c' = c)) as [->|Hne].
    + rewrite (decide_False (P := c ∈ cs)), (decide_True (P := c ∈ c :: cs)) by set_solver. rewrite !delta_zero. lia.
    + rewrite (decide_ext (c' ∈ c :: cs) (c' ∈ cs)) by set_solver. rewrite !(delta_ne_currency c) by done.
      destruct (decide (c' ∈ cs)); rewrite ?delta_zero; [|lia].
      rewrite (share_frame r c' s); [lia|]. unfold free_balance. cbn. rewrite Hf, !(delta_ne_currency c) by done.
      unfold free_balance. lia.
  - intros c'. rewrite Hi'. apply Hi.
Qed.
Lemma refund_loop_wp who r cs acc s : is_u128 r -> NoDup cs ->
  wp (refund_loop who r cs acc)
    (fun res s' => res = acc ++ paid r cs s /\ paid_out who (shares r cs s) s s') (fun _ _ => True) s.
Proof.
  intros Hr. revert acc s. induction cs as [|c cs IH]; intros acc s Hnd; cbn [refund_loop].
  { apply wp_ret. rewrite app_nil_r. split; [done|]. by apply paid_out_nothing. }
  apply NoDup_cons in Hnd as [Hc Hnd]. wp_guards. rewrite total_collaterals_free. fold (share r c s).
  cbn [paid map List.filter]. wp_branch; wp_guards.
  - eapply wp_mono; [apply withdraw_collateral_spec; by apply share_u128| |done].
    intros [] s1 (l & -> & Hf & Hi). eapply wp_mono; [by apply IH| |done].
    intros res s' [-> Hp]. split; [|by eapply paid_out_step].
    unfold paid. cbn. rewrite Hif. cbn. rewrite <- app_assoc. cbn. do 2 f_equal. apply paid_frame.
    intros c' Hc'. apply share_frame. unfold free_balance. cbn. assert (c' <> c) by set_solver.
    rewrite Hf, !(delta_ne_currency c) by done. unfold free_balance. lia.
  - apply negb_false_iff, Z.eqb_eq in Hif. eapply wp_mono; [by apply IH| |done].
    intros res s' [-> Hp]. split; [unfold paid; cbn; by rewrite Hif|].
    apply (paid_out_step who r c cs s (st_ledger s)); [done|intros; rewrite Hif, !delta_zero; unfold free_balance; lia|done|].
    assert (E : set_ledger (st_ledger s) s = s) by by destruct s. by rewrite E.
Qed.
End Lemmas.

(** ** The share of a redemption *)
Section Share.
Context `{ConfigLaws}.

Definition refund_ratio (amount : Balance) (s : State) : Ratio :=
  default 0 (checked_from_rational amount (total_issuance GetStableCurrencyId s)).

Lemma refund_ratio_bounds amount s : is_u128 amount -> amount <= total_issuance GetStableCurrencyId s ->
  is_u128 (refund_ratio amount s) /\ refund_ratio amount s <= DIV /\
  Z.abs (refund_ratio amount s * total_issuance GetStableCurrencyId s - amount * DIV)
    <= total_issuance GetStableCurrencyId s.
Proof.
  intros Ha Hle. pose proof (total_issuance_u128 (st_ledger s) GetStableCurrencyId) as Hi.
  unfold refund_ratio, total_issuance in *. set (i := cur_total_issuance _ _) in *.
  split; [by apply cfr_default_u128|]. destruct (checked_from_rational amount i) as [r|] eqn:Er; cbn.
  - split; [by eapply cfr_le_one; [exact Ha|exact Hi|done|]|].
    apply cfr_Some in Er as (_ & _ & Hr); [|done..]. unfold rounds in Hr. lia.
  - apply cfr_None in Er; [|done..]. destruct Ha, Hi, Er as [Hz|Hbig].
    + split; [unfold DIV; lia|]. assert (amount = 0) as -> by lia. lia.
    + exfalso. unfold U128_MAX, DIV in Hbig. nia.
Qed.
(** The share is proportional, up to the two roundings. *)
Lemma share_proportional r i t amount sh : 0 <= i -> 0 <= t ->
  Z.abs (r * i - amount * DIV) <= i -> rounds r t DIV sh ->
  Z.abs (sh * DIV * i - amount * t * DIV) <= i * (DIV + t).
Proof.
  intros Hi Ht Hr [H1 H2]. generalize dependent DIV. intros d Hr H1 H2.
  replace (sh * d * i - amount * t * d) with (i * (sh * d - r * t) + t * (r * i - amount * d)) by ring.
  pose proof (Z.abs_triangle (i * (sh * d - r * t)) (t * (r * i - amount * d))).
  rewrite !Z.abs_mul, (Z.abs_eq i), (Z.abs_eq t) in * by done.
  assert (Z.abs (sh * d - r * t) <= d) by lia. nia.
Qed.
Lemma share_bounds amount c s : is_u128 amount -> amount <= total_issuance GetStableCurrencyId s ->
  let t := free_balance c treasury_account_id s in
  let i := total_issuance GetStableCurrencyId s in
  0 <= share (refund_ratio amount s) c s <= t /\
  Z.abs (share (refund_ratio amount s) c s * DIV * i - amount * t * DIV) <= i * (DIV + t).
Proof.
  intros Ha Hle t i. destruct (refund_ratio_bounds amount s Ha Hle) as (Hr & H1 & H2).
  pose proof (free_balance_u128 (st_ledger s) c treasury_account_id : is_u128 t) as Ht.
  pose proof (total_issuance_u128 (st_ledger s) GetStableCurrencyId : is_u128 i) as [Hi _].
  unfold share. fold t. set (r := refund_ratio amount s) in *. split.
  - split; [by apply smi_u128|by apply smi_le_one].
  - apply (share_proportional r); [done|by destruct Ht|done|]. rewrite smi_checked.
    destruct (checked_mul_int r t) as [q|] eqn:Eq; cbn.
    + by apply cmi_Some in Eq as [_ ?].
    + apply cmi_None in Eq; [|done..]. exfalso. destruct Hr, Ht. unfold U128_MAX, DIV in *. nia.
Qed.
End Share.

Section Claims.
Context `{ConfigLaws} `{!CDPTreasury, !CDPTreasuryLaws, !AuctionManager, !PriceProvider, !PriceProviderLaws}.

(** What a redemption of [amount] did. *)
Definition redeemed (who : AccountId) (amount : Balance) (s s' : State) : Prop :=
  let ratio := refund_ratio amount s in
  let n := shares ratio CollateralCurrencyIds s in
  can_refund s = true /\ amount <= total_issuance GetStableCurrencyId s /\
  exists l,
    s' = set_events (st_events s ++ [Refund who amount (paid ratio CollateralCurrencyIds s)]) (set_ledger l s) /\
    (forall c x, cur_free_balance l c x = free_balance c x s
       - delta GetStableCurrencyId who amount c x
       + delta c who (n c) c x - delta c treasury_account_id (n c) c x) /\
    (forall c, cur_total_issuance l c = total_issuance c s - if decide (c = GetStableCurrencyId) then amount else 0).

Lemma refund_wp o amount s :
  is_u128 amount -> NoDup CollateralCurrencyIds -> GetStableCurrencyId ∉ CollateralCurrencyIds ->
  wp (refund_collaterals o amount) (fun _ s' => exists who, o = Signed who /\ redeemed who amount s s')
    (fun _ s' => s' = s) s.
Proof.
  intros Ha Hnd Hst. unfold refund_collaterals. wp_guards. apply wp_signed; [intros who ->|done]. wp_guards.
  rewrite debit_proportion_spec. fold (refund_ratio amount s). set (r := refund_ratio amount s).
  assert (Hr : is_u128 r) by (apply cfr_default_u128; [done|apply total_issuance_u128]).
  eapply wp_mono; [by apply burn_debit_spec| |done]. intros [] s1 (l1 & -> & Hf1 & Hi1). wp_guards.
  assert (Hle : amount <= total_issuance GetStableCurrencyId s).
  { specialize (Hi1 GetStableCurrencyId). rewrite decide_True in Hi1 by done.
    pose proof (total_issuance_u128 l1 GetStableCurrencyId) as [? _]. lia. }
  eapply wp_mono; [by apply refund_loop_wp| |done]. intros res s2 [-> (l2 & -> & Hf2 & Hi2)]. wp_guards.
  apply wp_event. exists who. split; [done|]. split; [done|]. split; [done|].
  assert (Hsh : forall c, c ∈ CollateralCurrencyIds -> share r c (set_ledger l1 s) = share r c s).
  { intros c Hc. apply share_frame. unfold free_balance. cbn. rewrite Hf1.
    rewrite delta_ne_currency by set_solver. unfold free_balance. lia. }
  exists l2. split; [cbn; by rewrite (paid_frame r _ s) by done|]. split.
  - intros c x. rewrite Hf2. unfold free_balance at 1. cbn. rewrite Hf1. unfold shares.
    destruct (decide (c ∈ CollateralCurrencyIds)) as [Hc|]; [by rewrite Hsh|done].
  - intros c. rewrite Hi2. apply Hi1.
Qed.

(** The shutdown only moves forward.  [emergency_shutdown] by the
    shutdown origin leads from normal operation to the shutdown, and
    [open_collateral_refund] from there to the redemption once no
    collateral type has collateral in auction or debit left; redemptions
    need the redemption phase and do not leave it.  Every other call
    fails and changes nothing; none panics. *)
Theorem shutdown_life_cycle call o p s :
  NoDup CollateralCurrencyIds -> GetStableCurrencyId ∉ CollateralCurrencyIds ->
  (forall n, call = RefundC n -> is_u128 n) -> phase s = Some p ->
  wp (run_shutdown_call call o)
    (fun _ s' => exists q, shutdown_step call o p s = Some q /\ phase s' = Some q)
    (fun _ s' => s' = s) s.
Proof.
  intros Hnd Hst Hc Hp. unfold phase in Hp. destruct call as [| |n]; cbn [run_shutdown_call].
  - unfold emergency_shutdown. wp_guards. apply wp_origin; [intros Ho|done]. wp_guards. cbn in Hens.
    destruct (IsShutdown (st_shutdown s)) eqn:E1; [done|]. destruct (CanRefund (st_shutdown s)) eqn:E2; [done|].
    injection Hp as <-. eapply wp_mono; [apply lock_all_wp| |done]. intros [] s1 (m & ev & ->).
    wp_guards. apply wp_event. exists ShutDown. cbn. rewrite Ho. split; [done|]. unfold phase. cbn. by rewrite E2.
  - unfold open_collateral_refund. wp_guards. apply wp_origin; [intros Ho|done]. wp_guards. cbn in Hens.
    rewrite Hens in Hp. eapply wp_mono; [apply settled_wp| |done]. intros [] s1 [-> Hall].
    wp_guards. apply wp_event. exists Refunding. unfold phase. cbn. rewrite Hens. split; [|done].
    destruct (CanRefund (st_shutdown s)); injection Hp as <-; cbn; by rewrite Ho, Hall.
  - eapply wp_mono; [apply refund_wp; auto| |done]. intros [] s' (who & -> & Hr & _ & l & -> & _).
    unfold can_refund in Hr. rewrite Hr in Hp. exists Refunding. unfold phase. cbn. rewrite Hr.
    destruct (IsShutdown (st_shutdown s)); [injection Hp as <-|done]. done.
Qed.

(** C17: a redemption is pro rata.  A successful [refund_collaterals] burns
    exactly [amount] of the caller's stable currency and pays, of every
    collateral type, the treasury's balance times the burned share of the
    issuance - at most what the treasury has, and exact up to the two
    fixed-point roundings - to the caller; nothing else changes.  A failing
    one changes nothing. *)
Theorem refund_pro_rata o amount s :
  is_u128 amount -> NoDup CollateralCurrencyIds -> GetStableCurrencyId ∉ CollateralCurrencyIds ->
  wp (refund_collaterals o amount)
    (fun _ s' => exists who, o = Signed who /\ redeemed who amount s s' /\
       forall c, c ∈ CollateralCurrencyIds ->
         let t := free_balance c treasury_account_id s in
         let i := total_issuance GetStableCurrencyId s in
         let n := shares (refund_ratio amount s) CollateralCurrencyIds s c in
         0 <= n <= t /\ Z.abs (n * DIV * i - amount * t * DIV) <= i * (DIV + t))
    (fun _ s' => s' = s) s.
Proof.
  intros Ha Hnd Hst. eapply wp_mono; [by apply refund_wp| |done]. intros [] s' (who & -> & Hr).
  exists who. split; [done|]. split; [exact Hr|]. intros c Hc. destruct Hr as (_ & Hle & _).
  unfold shares. rewrite decide_True by done. by apply share_bounds.
Qed.
End Claims.
