(* ===== verification/CdpEngine.v ===== *)
(** * The CDP engine

    [modules/cdp-engine/src/lib.rs] and [debit_exchange_rate_convertor.rs]: the
    risk parameters of each collateral type, the value of a debit, the checks
    of a position, the accumulation of interest, and the adjustment, the
    liquidation, the settlement and the closing of positions. *)
From S2P Require Import Prelude FixedPoint Primitives Runtime Sample Support Loans.

Section Params.
Context `{Config}.

(** ** Storage access *)
Definition debit_exchange_rate (c : CurrencyId) (s : State) : option ExchangeRate :=
  DebitExchangeRate (st_cdp s) !! c.
Definition global_interest_rate_per_sec (s : State) : Rate := GlobalInterestRatePerSec (st_cdp s).
Definition collateral_params (c : CurrencyId) (s : State) : RiskManagementParams :=
  default RiskManagementParams_default (CollateralParams (st_cdp s) !! c).
Definition last_accumulation_secs (s : State) : Z := LastAccumulationSecs (st_cdp s).
Definition with_cdp (f : CdpStorage -> CdpStorage) (s : State) : State := set_cdp (f (st_cdp s)) s.
Definition put_exchange_rate (c : CurrencyId) (r : ExchangeRate) : Run unit :=
  modify (with_cdp (fun x => mkCdp (<[c := r]> (DebitExchangeRate x)) (GlobalInterestRatePerSec x)
    (CollateralParams x) (LastAccumulationSecs x))).
Definition put_global_interest (r : Rate) : Run unit :=
  modify (with_cdp (fun x => mkCdp (DebitExchangeRate x) r (CollateralParams x) (LastAccumulationSecs x))).
Definition put_params (c : CurrencyId) (p : RiskManagementParams) : Run unit :=
  modify (with_cdp (fun x => mkCdp (DebitExchangeRate x) (GlobalInterestRatePerSec x)
    (<[c := p]> (CollateralParams x)) (LastAccumulationSecs x))).
Definition put_last_accumulation (n : Z) : Run unit :=
  modify (with_cdp (fun x => mkCdp (DebitExchangeRate x) (GlobalInterestRatePerSec x)
    (CollateralParams x) n)).

(** ** Parameters *)
Definition maximum_total_debit_value (c : CurrencyId) (s : State) : Balance :=
  rp_maximum_total_debit_value (collateral_params c s).
Definition required_collateral_ratio (c : CurrencyId) (s : State) : option Ratio :=
  rp_required_collateral_ratio (collateral_params c s).
Definition get_interest_rate_per_sec (c : CurrencyId) (s : State) : Rate :=
  U128.saturating_add (default 0 (rp_interest_rate_per_sec (collateral_params c s)))
    (global_interest_rate_per_sec s).
(** The exponent is a [usize], 32 bits wide in the WASM runtime. *)
Definition compound_interest_rate (rate_per_sec : Rate) (secs : Z) : Rate :=
  U128.saturating_sub
    (fx_saturating_pow (U128.saturating_add rate_per_sec fx_one) (Z.min secs U32_MAX)) fx_one.
Definition get_liquidation_ratio (c : CurrencyId) (s : State) : Ratio :=
  default DefaultLiquidationRatio (rp_liquidation_ratio (collateral_params c s)).
Definition get_liquidation_penalty (c : CurrencyId) (s : State) : Rate :=
  default DefaultLiquidationPenalty (rp_liquidation_penalty (collateral_params c s)).
Definition get_debit_exchange_rate (c : CurrencyId) (s : State) : ExchangeRate :=
  default DefaultDebitExchangeRate (debit_exchange_rate c s).
(** [DebitExchangeRateConvertor::convert] *)
Definition convert_debit (c : CurrencyId) (balance : Balance) (s : State) : Balance :=
  saturating_mul_int (get_debit_exchange_rate c s) balance.
Definition get_debit_value (c : CurrencyId) (debit_balance : Balance) (s : State) : Balance :=
  convert_debit c debit_balance s.
Definition calculate_collateral_ratio (c : CurrencyId) (collateral_balance debit_balance : Balance)
    (price : Price) (s : State) : Ratio :=
  let locked_collateral_value := saturating_mul_int price collateral_balance in
  let debit_value := get_debit_value c debit_balance s in
  default fx_max_value (checked_from_rational locked_collateral_value debit_value).
End Params.

Section Risk.
Context `{Config, !PriceProvider}.

Definition is_cdp_unsafe (c : CurrencyId) (collateral debit : Balance) (s : State) : bool :=
  match get_relative_price c GetStableCurrencyId s with
  | Some feed_price =>
      calculate_collateral_ratio c collateral debit feed_price s <? get_liquidation_ratio c s
  | None => false
  end.

(** [impl RiskManager] *)
Definition cdp_check_position_valid (c : CurrencyId) (collateral_balance debit_balance : Balance)
    (s : State) : outcome DispatchError unit :=
  if negb (debit_balance =? 0) then
    let debit_value := get_debit_value c debit_balance s in
    feed_price ← ook_or (get_relative_price c GetStableCurrencyId s) (CdpEngineE CdpEngineError.InvalidFeedPrice);
    let collateral_ratio := calculate_collateral_ratio c collateral_balance debit_balance feed_price s in
    _ ← match required_collateral_ratio c s with
        | Some required => oensure (required <=? collateral_ratio)
                             (CdpEngineE CdpEngineError.BelowRequiredCollateralRatio)
        | None => mret tt
        end;
    _ ← oensure (get_liquidation_ratio c s <=? collateral_ratio)
          (CdpEngineE CdpEngineError.BelowLiquidationRatio);
    oensure (MinimumDebitValue <=? debit_value) (CdpEngineE CdpEngineError.RemainDebitValueTooSmall)
  else mret tt.
Definition cdp_check_debit_cap (c : CurrencyId) (total_debit_balance : Balance) (s : State)
    : outcome DispatchError unit :=
  let hard_cap := maximum_total_debit_value c s in
  let total_debit_value := get_debit_value c total_debit_balance s in
  oensure (total_debit_value <=? hard_cap) (CdpEngineE CdpEngineError.ExceedDebitValueHardCap).
End Risk.

#[export] Instance debit_convert `{Config} : DebitConvert := { convert := convert_debit }.
#[export] Instance risk_manager `{Config, !PriceProvider} : RiskManager := {
  get_bad_debt_value := get_debit_value;
  check_position_valid := cdp_check_position_valid;
  check_debit_cap := cdp_check_debit_cap;
}.

(** The extrinsics the offchain worker submits *)
Inductive CdpCall := CallLiquidate (c : CurrencyId) (who : AccountId) | CallSettle (c : CurrencyId) (who : AccountId).

Section Model.
Context `{Config, !CDPTreasury, !CDPTreasuryExtended, !PriceProvider, !EmergencyShutdown}.

(** ** Interest *)
Definition accumulate_for (interval_secs : Z) (c : CurrencyId) : Run unit :=
  rate ← gets (get_interest_rate_per_sec c);
  let rate_to_accumulate := compound_interest_rate rate interval_secs in
  total ← gets (total_positions c);
  let total_debits := debit total in
  if negb (rate_to_accumulate =? 0) && negb (total_debits =? 0) then
    debit_exchange_rate ← gets (get_debit_exchange_rate c);
    let debit_exchange_rate_increment := fx_saturating_mul debit_exchange_rate rate_to_accumulate in
    total_debit_value ← gets (get_debit_value c total_debits);
    let issued_stable_coin_balance := saturating_mul_int debit_exchange_rate_increment total_debit_value in
    res ← attempt (on_system_surplus issued_stable_coin_balance);
    match res with
    | inl _ => put_exchange_rate c (U128.saturating_add debit_exchange_rate debit_exchange_rate_increment)
    | inr _ => mret tt
    end
  else mret tt.
(** Returns the number of collateral types handled. *)
Definition accumulate_interest (now_secs last_accumulation_secs : Z) : Run Z :=
  shutdown ← gets is_shutdown;
  count ← (if negb shutdown && negb (now_secs =? 0) then
             let interval_secs := U128.saturating_sub now_secs last_accumulation_secs in
             _ ← for_each (accumulate_for interval_secs) CollateralCurrencyIds;
             mret (Z.of_nat (length CollateralCurrencyIds))
           else mret 0);
  _ ← put_last_accumulation now_secs;
  mret count.
Definition cdp_on_initialize (now : BlockNumber) : Run Z :=
  time ← gets (fun s => unix_time_secs (st_env s));
  last ← gets last_accumulation_secs;
  accumulate_interest (if 1 <? now then time else 0) last.

(** ** Positions *)
Definition cdp_adjust_position (who : AccountId) (c : CurrencyId)
    (collateral_adjustment debit_adjustment : Amount) : Run unit :=
  _ ← ensure (bool_decide (c ∈ CollateralCurrencyIds)) (CdpEngineE CdpEngineError.InvalidCollateralType);
  adjust_position who c collateral_adjustment debit_adjustment.

Definition settle_cdp_has_debit (who : AccountId) (c : CurrencyId) : Run unit :=
  p ← gets (positions c who);
  _ ← ensure (negb (debit p =? 0)) (CdpEngineE CdpEngineError.NoDebitValue);
  price ← gets (get_relative_price GetStableCurrencyId c);
  settle_price ← ok_or price (CdpEngineE CdpEngineError.InvalidFeedPrice);
  bad_debt_value ← gets (get_debit_value c (debit p));
  let confiscate_collateral_amount :=
    Z.min (saturating_mul_int settle_price bad_debt_value) (collateral p) in
  _ ← confiscate_collateral_and_debit who c confiscate_collateral_amount (debit p);
  deposit_event (SettleCDPInDebit c who).

Definition close_cdp_has_debit_by_dex (who : AccountId) (c : CurrencyId)
    (maybe_path : option (list CurrencyId)) : Run unit :=
  p ← gets (positions c who);
  _ ← ensure (negb (debit p =? 0)) (CdpEngineE CdpEngineError.NoDebitValue);
  unsafe ← gets (is_cdp_unsafe c (collateral p) (debit p));
  _ ← ensure (negb unsafe) (CdpEngineE CdpEngineError.IsUnsafe);
  _ ← confiscate_collateral_and_debit who c (collateral p) (debit p);
  debit_value ← gets (get_debit_value c (debit p));
  actual_supply_collateral ←
    swap_collateral_to_exact_stable c (collateral p) debit_value None maybe_path false;
  refund_collateral_amount ← expect (U128.checked_sub (collateral p) actual_supply_collateral);
  _ ← withdraw_collateral who c refund_collateral_amount;
  deposit_event (CloseCDPInDebitByDEX c who actual_supply_collateral refund_collateral_amount debit_value).

(** The sale of a liquidated position's collateral. *)
Definition liquidate_collateral (who : AccountId) (c : CurrencyId) (collateral target_stable_amount : Balance)
    : Run LiquidationStrategy :=
  res ← attempt (swap_collateral_to_exact_stable c collateral target_stable_amount
                   (Some MaxSlippageSwapWithDEX) None false);
  match res with
  | inl actual_supply_collateral =>
      refund_collateral_amount ← expect (U128.checked_sub collateral actual_supply_collateral);
      _ ← withdraw_collateral who c refund_collateral_amount;
      mret Exchange
  | inr _ =>
      _ ← create_collateral_auctions c collateral target_stable_amount who true;
      mret Auction
  end.
Definition liquidate_unsafe_cdp (who : AccountId) (c : CurrencyId) : Run unit :=
  p ← gets (positions c who);
  unsafe ← gets (is_cdp_unsafe c (collateral p) (debit p));
  _ ← ensure unsafe (CdpEngineE CdpEngineError.MustBeUnsafe);
  _ ← confiscate_collateral_and_debit who c (collateral p) (debit p);
  bad_debt_value ← gets (get_debit_value c (debit p));
  penalty ← gets (get_liquidation_penalty c);
  let target_stable_amount := saturating_mul_acc_int penalty bad_debt_value in
  liquidation_strategy ← liquidate_collateral who c (collateral p) target_stable_amount;
  deposit_event (LiquidateUnsafeCDP c who (collateral p) bad_debt_value liquidation_strategy).

(** ** Extrinsics *)
Definition liquidate (origin : Origin) (c : CurrencyId) (who : LookupSource) : Run unit :=
  transactional (
    _ ← ensure_none origin;
    who ← lookup_source who;
    shutdown ← gets is_shutdown;
    _ ← ensure (negb shutdown) (CdpEngineE CdpEngineError.AlreadyShutdown);
    liquidate_unsafe_cdp who c).
Definition settle (origin : Origin) (c : CurrencyId) (who : LookupSource) : Run unit :=
  transactional (
    _ ← ensure_none origin;
    who ← lookup_source who;
    shutdown ← gets is_shutdown;
    _ ← ensure shutdown (CdpEngineE CdpEngineError.MustAfterShutdown);
    settle_cdp_has_debit who c).
Definition set_global_params (origin : Origin) (rate : Rate) : Run unit :=
  transactional (
    _ ← ensure_origin UpdateOrigin origin;
    _ ← put_global_interest rate;
    deposit_event (GlobalInterestRatePerSecUpdated rate)).

(** One optional update of the parameters. *)
Definition update_param {A} (ch : Change A) (f : A -> RiskManagementParams -> RiskManagementParams)
    (ev : A -> Event) (p : RiskManagementParams) : Run RiskManagementParams :=
  match ch with
  | NewValue v => _ ← deposit_event (ev v); mret (f v p)
  | NoChange => mret p
  end.
Definition set_collateral_params (origin : Origin) (c : CurrencyId)
    (interest_rate_per_sec : Change (option Rate)) (liquidation_ratio : Change (option Ratio))
    (liquidation_penalty : Change (option Rate)) (required_collateral_ratio : Change (option Ratio))
    (maximum_total_debit_value : Change Balance) : Run unit :=
  transactional (
    _ ← ensure_origin UpdateOrigin origin;
    _ ← ensure (bool_decide (c ∈ CollateralCurrencyIds)) (CdpEngineE CdpEngineError.InvalidCollateralType);
    p ← gets (collateral_params c);
    p ← update_param interest_rate_per_sec (fun v p => mkRiskParams (rp_maximum_total_debit_value p) v
          (rp_liquidation_ratio p) (rp_liquidation_penalty p) (rp_required_collateral_ratio p))
          (InterestRatePerSecUpdated c) p;
    p ← update_param liquidation_ratio (fun v p => mkRiskParams (rp_maximum_total_debit_value p)
          (rp_interest_rate_per_sec p) v (rp_liquidation_penalty p) (rp_required_collateral_ratio p))
          (LiquidationRatioUpdated c) p;
    p ← update_param liquidation_penalty (fun v p => mkRiskParams (rp_maximum_total_debit_value p)
          (rp_interest_rate_per_sec p) (rp_liquidation_ratio p) v (rp_required_collateral_ratio p))
          (LiquidationPenaltyUpdated c) p;
    p ← update_param required_collateral_ratio (fun v p => mkRiskParams (rp_maximum_total_debit_value p)
          (rp_interest_rate_per_sec p) (rp_liquidation_ratio p) (rp_liquidation_penalty p) v)
          (RequiredCollateralRatioUpdated c) p;
    p ← update_param maximum_total_debit_value (fun v p => mkRiskParams v
          (rp_interest_rate_per_sec p) (rp_liquidation_ratio p) (rp_liquidation_penalty p)
          (rp_required_collateral_ratio p))
          (MaximumTotalDebitValueUpdated c) p;
    put_params c p).

(** ** Unsigned extrinsics *)
Definition validate_liquidate (c : CurrencyId) (who : LookupSource) (s : State) : option Validity :=
  account ← lookup who;
  let p := positions c account s in
  Some (if negb (is_cdp_unsafe c (collateral p) (debit p) s) || is_shutdown s then InvalidStale else Valid).
Definition validate_settle (c : CurrencyId) (who : LookupSource) (s : State) : option Validity :=
  account ← lookup who;
  let p := positions c account s in
  Some (if (debit p =? 0) || negb (is_shutdown s) then InvalidStale else Valid).

(** What the offchain worker submits for a batch of positions of [c], and
    where it goes on when it has seen all of them. *)
Definition offchain_call (c : CurrencyId) (s : State) (wp : AccountId * Position) : option CdpCall :=
  let '(who, p) := wp in
  if negb (is_shutdown s) && is_cdp_unsafe c (collateral p) (debit p) s then Some (CallLiquidate c who)
  else if is_shutdown s && negb (debit p =? 0) then Some (CallSettle c who)
  else None.
Definition offchain_calls (c : CurrencyId) (batch : list (AccountId * Position)) (s : State) : list CdpCall :=
  omap (offchain_call c s) batch.
Definition next_collateral_position (collateral_position : Z) : Z :=
  if collateral_position <? U128.saturating_sub (Z.of_nat (length CollateralCurrencyIds)) 1
  then collateral_position + 1 else 0.

(** ** Genesis *)
Definition cdp_genesis_build
    (params : list (CurrencyId * (option Rate * option Ratio * option Rate * option Ratio * Balance)))
    (global : Rate) : Run unit :=
  _ ← for_each (fun '(c, (interest, ratio, penalty, required, cap)) =>
        put_params c (mkRiskParams cap interest ratio penalty required)) params;
  put_global_interest global.
End Model.
