(* ===== verification/CdpSpecs.v ===== *)
(** * Properties of the CDP engine

    The risk manager's promises to the loans pallet, what an accepted
    adjustment guarantees, how a position is liquidated, settled or closed,
    and how interest accumulates. *)
From S2P Require Import Prelude FixedPoint Primitives Runtime Sample Support Loans CdpEngine.

(** ** The promises to the loans pallet *)
Section Values.
Context `{ConfigLaws}.

Lemma rate_u128 c s : cdp_typed (st_cdp s) -> is_u128 (get_debit_exchange_rate c s).
Proof.
  intros Ht. unfold get_debit_exchange_rate, debit_exchange_rate.
  destruct (_ !! c) as [r|] eqn:E; cbn; [by apply (ct_rate _ Ht c r)|apply default_rates_u128].
Qed.
Lemma value_u128 c n s : cdp_typed (st_cdp s) -> is_u128 n -> is_u128 (get_debit_value c n s).
Proof. intros Ht Hn. apply smi_u128; [by apply rate_u128|done]. Qed.
Lemma rate_frame c s t : st_cdp t = st_cdp s -> get_debit_exchange_rate c t = get_debit_exchange_rate c s.
Proof. unfold get_debit_exchange_rate, debit_exchange_rate. by intros ->. Qed.
Lemma value_frame c n s t : st_cdp t = st_cdp s -> get_debit_value c n t = get_debit_value c n s.
Proof. intros E. unfold get_debit_value, convert_debit. by rewrite (rate_frame c s t E). Qed.
Lemma params_frame c s t : st_cdp t = st_cdp s -> collateral_params c t = collateral_params c s.
Proof. unfold collateral_params. by intros ->. Qed.
Lemma params_of_typed c s : cdp_typed (st_cdp s) -> params_typed (collateral_params c s).
Proof.
  intros Ht. unfold collateral_params. destruct (_ !! c) as [p|] eqn:E; cbn; [by apply (ct_params _ Ht c)|].
  split; cbn; done || uarith.
Qed.
Lemma default_typed d o : is_u128 d -> opt_u128 o -> is_u128 (default d o).
Proof. by destruct o. Qed.
Lemma liquidation_ratio_u128 c s : cdp_typed (st_cdp s) -> is_u128 (get_liquidation_ratio c s).
Proof. intros Ht. apply default_typed; [apply default_rates_u128|]. by apply pt_ratio, params_of_typed. Qed.
Lemma penalty_u128 c s : cdp_typed (st_cdp s) -> is_u128 (get_liquidation_penalty c s).
Proof. intros Ht. apply default_typed; [apply default_rates_u128|]. by apply pt_penalty, params_of_typed. Qed.
Lemma interest_u128 c s : cdp_typed (st_cdp s) -> is_u128 (get_interest_rate_per_sec c s).
Proof.
  intros Ht. apply saturating_add_u128; [|by apply ct_global].
  apply default_typed; [uarith|]. by apply pt_interest, params_of_typed.
Qed.
End Values.

#[export] Instance risk_manager_laws `{ConfigLaws} `{!PriceProvider} : RiskManagerLaws.
Proof.
  split; cbn.
  - intros c n s. apply value_u128.
  - intros c n s t. apply value_frame.
  - done.
  - intros c n s t. apply value_frame.
  - intros c x y s. unfold cdp_check_position_valid. destruct (negb _); [|done]. no_panic.
    destruct (required_collateral_ratio c s); no_panic.
  - intros c n s. unfold cdp_check_debit_cap. no_panic.
Qed.

(** ** Accepted positions *)
Section Accepted.
Context `{ConfigLaws} `{!PriceProvider, !PriceProviderLaws}.

(** What the risk manager checks of a position with debit. *)
Definition well_collateralised (c : CurrencyId) (p : Position) (s : State) : Prop :=
  exists price, get_relative_price c GetStableCurrencyId s = Some price /\
    let ratio := calculate_collateral_ratio c (collateral p) (debit p) price s in
    get_liquidation_ratio c s <= ratio /\
    (forall r, required_collateral_ratio c s = Some r -> r <= ratio) /\
    MinimumDebitValue <= get_debit_value c (debit p) s.

Lemma check_position_Ok c x y s : cdp_check_position_valid c x y s = Ok tt ->
  y = 0 \/ well_collateralised c (mkPosition x y) s.
Proof.
  unfold cdp_check_position_valid. destruct (Z.eqb_spec y 0) as [|Hy]; [by left|]. cbn [negb]. intros Hr. right.
  apply obind_Ok in Hr as (price & Hp%ook_or_Ok & Hr). apply obind_Ok in Hr as ([] & Hreq & Hr).
  apply obind_Ok in Hr as ([] & Hliq%oensure_Ok & Hmin%oensure_Ok). apply Z.leb_le in Hliq, Hmin.
  exists price. split; [done|]. cbn. split; [done|]. split; [|done]. intros r E. rewrite E in Hreq.
  apply oensure_Ok in Hreq. by apply Z.leb_le in Hreq.
Qed.
Lemma ratio_no_debit c x price s : cdp_typed (st_cdp s) -> is_u128 price -> is_u128 x ->
  calculate_collateral_ratio c x 0 price s = fx_max_value.
Proof.
  intros Ht Hp Hx. unfold calculate_collateral_ratio.
  replace (get_debit_value c 0 s) with 0 by (symmetry; apply smi_zero_r; by apply rate_u128).
  destruct (checked_from_rational _ 0) as [q|] eqn:E; [|done].
  apply cfr_Some in E as [? _]; [lia|by apply smi_u128|uarith].
Qed.
(** An accepted position cannot be liquidated. *)
Lemma accepted_safe c p s : cdp_typed (st_cdp s) -> prices_typed s -> is_u128 (collateral p) ->
  debit p = 0 \/ well_collateralised c p s -> is_cdp_unsafe c (collateral p) (debit p) s = false.
Proof.
  intros Ht Hpt Hc [E|(price & Hp & Hl & _)]; unfold is_cdp_unsafe.
  - destruct (get_relative_price _ _ s) as [price|] eqn:Hp; [|done].
    apply relative_price_u128 in Hp; [|done]. rewrite E, ratio_no_debit by done. apply Z.ltb_ge.
    by apply liquidation_ratio_u128.
  - rewrite Hp. by apply Z.ltb_ge.
Qed.
End Accepted.

(** ** Operations on positions *)
Section Operations.
Context `{ConfigLaws} `{!PriceProvider, !PriceProviderLaws, !EmergencyShutdown}
  `{!CDPTreasury, !CDPTreasuryLaws, !CDPTreasuryExtended, !CDPTreasuryExtendedLaws}.

(** What holds of the storage the engine reads. *)
Record engine_ok (s : State) : Prop := {
  eo_cdp : cdp_typed (st_cdp s);
  eo_prices : prices_typed s;
  eo_loans : loans_wf (st_loans s);
  eo_treasury : treasury_typed (st_treasury s);
}.
Lemma events_agree s ev : price_agree s (set_events ev s).
Proof. by split. Qed.
Lemma well_collateralised_events c p s ev :
  well_collateralised c p s -> well_collateralised c p (set_events ev s).
Proof.
  intros (price & Hp & Hrest). exists price. by rewrite (relative_price_frame _ _ s) by apply events_agree.
Qed.

(** What an adjustment of a position leaves. *)
Definition adjusted_safe (who : AccountId) (c : CurrencyId) (da : Amount) (s' : State) : Prop :=
  let p := position_of c who (st_loans s') in
  (debit p = 0 \/ well_collateralised c p s') /\
  is_cdp_unsafe c (collateral p) (debit p) s' = false /\
  (0 < da -> get_debit_value c (debit (total_of c (st_loans s'))) s' <= maximum_total_debit_value c s').

Lemma cdp_adjust_wp who c ca da s : is_i128 ca -> is_i128 da -> engine_ok s ->
  wp (cdp_adjust_position who c ca da)
    (fun _ s' => c ∈ CollateralCurrencyIds /\ adjusted_ok who c ca da s s' /\ adjusted_safe who c da s')
    (fun _ s' => s' = s) s.
Proof.
  intros Hca Hda [Ht Hp Hwf _]. unfold cdp_adjust_position. wp_guards. apply bool_decide_eq_true in Hens.
  eapply wp_mono; [by apply adjust_position_wp| |done]. intros [] s' Hs'. split; [done|]. split; [done|].
  destruct Hs' as (Hwf' & l & sys & inc & -> & _ & _ & Hv & Hcap). set (lo := updated_loans _ _ _ _ _) in *.
  set (t := with_loans l sys inc lo s) in *. apply check_position_Ok in Hv.
  assert (Hacc : debit (position_of c who lo) = 0 \/
    well_collateralised c (position_of c who lo) (set_events (st_events s ++ [PositionUpdated who c ca da]) t)).
  { destruct Hv as [|Hv]; [by left|right]. apply well_collateralised_events. by destruct (position_of c who lo). }
  split; [exact Hacc|]. split.
  - apply accepted_safe; [exact Ht|exact Hp|by apply (position_fits lo)|exact Hacc].
  - intros Hpos. destruct (Hcap Hpos) as [l1 Hc]. apply oensure_Ok, Z.leb_le in Hc. exact Hc.
Qed.

(** *** Selling the whole position *)
Lemma confiscated_all who c s s' : loans_wf (st_loans s) ->
  let p := position_of c who (st_loans s) in
  confiscated_ok who c (collateral p) (debit p) s s' ->
  position_of c who (st_loans s') = Position_default /\ st_dex s' = st_dex s /\ st_cdp s' = st_cdp s /\
  (treasury_typed (st_treasury s) -> is_u128 (get_debit_value c (debit p) s) -> treasury_typed (st_treasury s')).
Proof.
  intros Hwf p (Hwf' & Hc & Hd & Hm & l & sys & inc & -> & _). cbn. fold p in Hc, Hd. split_and!; [|done|done|].
  - change (position_of c who (updated_loans c who (- collateral p) (- debit p) (st_loans s)) = Position_default).
    destruct (position_of c who (updated_loans _ _ _ _ _)) as [x y]. cbn in Hc, Hd.
    unfold Position_default. f_equal; lia.
  - intros [[Hd1 _] Hs] [Hv0 _]. split; [|exact Hs]. cbn in Hm |- *. split; [|done].
    lia.
Qed.

(** [c] worth [y] of stable currency was bought with [r] of at most [x]
    collateral, and the rest went back to [who]. *)
Definition sold_and_refunded (who : AccountId) (c : CurrencyId) (x y r : Balance) (s s' : State) : Prop :=
  0 <= r <= x /\ exists path t, head path = Some c /\ last path = Some GetStableCurrencyId /\
    swap_effect treasury_account_id path r y s t /\ moved c treasury_account_id who (x - r) t s'.

(** Selling and refunding, as [close_cdp_has_debit_by_dex] and the
    liquidation do it. *)
Lemma sell_refund_wp {A} (k : Balance -> Balance -> Run A) who c x y limit path s Q R :
  dex_typed (st_dex s) -> is_u128 x -> is_u128 y ->
  (forall r s', sold_and_refunded who c x y r s s' -> wp (k r (x - r)) Q R s') ->
  (forall e s', R e s') ->
  wp (actual ← swap_collateral_to_exact_stable c x y limit path false;
      refund ← expect (U128.checked_sub x actual);
      _ ← withdraw_collateral who c refund; k actual refund) Q R s.
Proof.
  intros Hd Hx Hy Hk HR. wp_guards.
  eapply wp_mono; [by apply swap_collateral_exact_stable_spec| |auto].
  intros r t (Hr & Hle & p & Hp0 & Hpn & Heff). wp_guards. apply wp_expect. exists (x - r). split; [by apply checked_sub_Some|].
  apply wp_bind. eapply wp_mono; [apply withdraw_collateral_spec; destruct Hx, Hr; split; lia| |auto].
  intros [] s' Hm. apply Hk. destruct Hr. split; [lia|]. by exists p, t.
Qed.

Definition closed (who : AccountId) (c : CurrencyId) (s s' : State) : Prop :=
  let p := position_of c who (st_loans s) in
  let value := get_debit_value c (debit p) s in
  debit p <> 0 /\ is_cdp_unsafe c (collateral p) (debit p) s = false /\
  exists s1 s2 r,
    confiscated_ok who c (collateral p) (debit p) s s1 /\
    position_of c who (st_loans s1) = Position_default /\
    sold_and_refunded who c (collateral p) value r s1 s2 /\
    s' = set_events (st_events s2 ++ [CloseCDPInDebitByDEX c who r (collateral p - r) value]) s2.
Lemma close_wp who c path s : engine_ok s ->
  wp (close_cdp_has_debit_by_dex who c path) (fun _ => closed who c s) (fun _ _ => True) s.
Proof.
  intros [Ht Hp Hwf Htr]. unfold close_cdp_has_debit_by_dex. wp_guards.
  change (positions c who s) with (position_of c who (st_loans s)) in *. set (p := position_of c who (st_loans s)) in *.
  destruct (position_fits (st_loans s) c who Hwf : fits_position p) as [Hfc Hfd].
  apply negb_true_iff, Z.eqb_neq in Hens. apply negb_true_iff in Hens0.
  eapply wp_mono; [by apply confiscate_wp| |done]. intros [] s1 Hs1.
  destruct (confiscated_all who c s s1 Hwf Hs1) as (Hz & Hdex & Hcdp & _). wp_guards.
  rewrite (value_frame _ _ s) by done. apply wp_bind.
  apply (sell_refund_wp (fun r rest => deposit_event (CloseCDPInDebitByDEX c who r rest (get_debit_value c (debit p) s))));
    [rewrite Hdex; apply Hp|done|by apply value_u128| |done].
  intros r s2 Hs2. apply wp_event. split; [done|]. split; [done|]. by exists s1, s2, r.
Qed.

(** *** Liquidation *)
Definition liquidation_target (c : CurrencyId) (value : Balance) (s : State) : Balance :=
  saturating_mul_acc_int (get_liquidation_penalty c s) value.
Definition liquidated (who : AccountId) (c : CurrencyId) (s s' : State) : Prop :=
  let p := position_of c who (st_loans s) in
  let value := get_debit_value c (debit p) s in
  let target := liquidation_target c value s in
  is_cdp_unsafe c (collateral p) (debit p) s = true /\ value <= target /\
  exists s1 s2 strategy,
    confiscated_ok who c (collateral p) (debit p) s s1 /\
    position_of c who (st_loans s1) = Position_default /\
    match strategy with
    | Exchange => exists r, sold_and_refunded who c (collateral p) target r s1 s2
    | Auction => create_collateral_auctions c (collateral p) target who true s1 = (Ok tt, s2) /\
        auction_frame s1 s2
    end /\
    s' = set_events (st_events s2 ++ [LiquidateUnsafeCDP c who (collateral p) value strategy]) s2.

Lemma liquidate_collateral_wp who c x y s :
  dex_typed (st_dex s) -> treasury_typed (st_treasury s) -> is_u128 x -> is_u128 y ->
  wp (liquidate_collateral who c x y)
    (fun st s' => match st with
       | Exchange => exists r, sold_and_refunded who c x y r s s'
       | Auction => create_collateral_auctions c x y who true s = (Ok tt, s') /\ auction_frame s s'
       end) (fun _ _ => True) s.
Proof.
  intros Hd Ht Hx Hy. unfold liquidate_collateral. apply wp_bind, wp_attempt.
  eapply wp_mono; [by apply swap_collateral_exact_stable_spec| |].
  - intros r t (Hr & Hle & p & Hp0 & Hpn & Heff). apply wp_bind, wp_expect. exists (x - r).
    split; [by apply checked_sub_Some|]. apply wp_bind.
    eapply wp_mono; [apply withdraw_collateral_spec; destruct Hx, Hr; split; lia| |done].
    intros [] s' Hm. apply wp_ret. exists r. destruct Hr. split; [lia|]. by exists p, t.
  - intros e t ->. apply wp_bind. pose proof (create_auctions_spec c x y who true s Hx Hy Ht) as Hw.
    unfold wp in Hw |- *. destruct (create_collateral_auctions c x y who true s) as [[[]|e'|] s']; [|done|done].
    by split.
Qed.
Lemma liquidate_unsafe_wp who c s : engine_ok s ->
  wp (liquidate_unsafe_cdp who c) (fun _ => liquidated who c s) (fun _ _ => True) s.
Proof.
  intros [Ht Hp Hwf Htr]. unfold liquidate_unsafe_cdp. wp_guards.
  change (positions c who s) with (position_of c who (st_loans s)) in *. set (p := position_of c who (st_loans s)) in *.
  destruct (position_fits (st_loans s) c who Hwf : fits_position p) as [Hfc Hfd].
  pose proof (value_u128 c (debit p) s Ht Hfd) as Hv. pose proof (penalty_u128 c s Ht) as Hpen.
  eapply wp_mono; [by apply confiscate_wp| |done]. intros [] s1 Hs1.
  destruct (confiscated_all who c s s1 Hwf Hs1) as (Hz & Hdex & Hcdp & Htt). wp_guards.
  rewrite (value_frame _ _ s) by done. unfold get_liquidation_penalty. rewrite (params_frame _ s) by done.
  fold (get_liquidation_penalty c s). fold (liquidation_target c (get_debit_value c (debit p) s) s).
  eapply wp_mono; [apply liquidate_collateral_wp; [rewrite Hdex; apply Hp|by apply Htt|done|by apply smai_u128]| |done].
  intros st s2 Hs2. apply wp_event. split; [done|]. split; [by apply smai_ge|]. by exists s1, s2, st.
Qed.

(** *** Settlement after a shutdown *)
Definition settled_cdp (who : AccountId) (c : CurrencyId) (s s' : State) : Prop :=
  let p := position_of c who (st_loans s) in
  exists price s1,
    get_relative_price GetStableCurrencyId c s = Some price /\
    let taken := Z.min (saturating_mul_int price (get_debit_value c (debit p) s)) (collateral p) in
    debit p <> 0 /\ confiscated_ok who c taken (debit p) s s1 /\
    position_of c who (st_loans s1) = mkPosition (collateral p - taken) 0 /\
    s' = set_events (st_events s1 ++ [SettleCDPInDebit c who]) s1.
Lemma settle_wp who c s : engine_ok s ->
  wp (settle_cdp_has_debit who c) (fun _ => settled_cdp who c s) (fun _ _ => True) s.
Proof.
  intros [Ht Hp Hwf Htr]. unfold settle_cdp_has_debit. wp_guards. rename a into price.
  change (positions c who s) with (position_of c who (st_loans s)) in *. set (p := position_of c who (st_loans s)) in *.
  destruct (position_fits (st_loans s) c who Hwf : fits_position p) as [Hfc Hfd].
  pose proof (value_u128 c (debit p) s Ht Hfd) as Hv.
  pose proof (smi_u128 price _ (relative_price_u128 _ _ s price Hp Hopt) Hv) as Hsm.
  apply negb_true_iff, Z.eqb_neq in Hens. set (taken := Z.min _ _).
  assert (Htk : is_u128 taken) by (subst taken; destruct Hfc, Hsm; split; lia).
  eapply wp_mono; [by apply confiscate_wp| |done].
  intros [] s1 Hs1. apply wp_event. exists price, s1. split; [done|]. fold p. fold taken.
  clearbody taken. cbv zeta. split; [done|].
  split; [exact Hs1|]. split; [|done]. destruct Hs1 as (_ & Hc & Hd & _ & l & sys & inc & -> & _).
  cbn [st_loans set_events with_loans set_ledger set_incentives set_system set_loans] in *. fold p in Hc, Hd.
  destruct (position_of c who (updated_loans _ _ _ _ _)) as [x y]. cbn in Hc, Hd. f_equal; lia.
Qed.
End Operations.

(** ** Interest *)
Section Interest.
Context `{ConfigLaws} `{!EmergencyShutdown, !CDPTreasury, !CDPTreasuryLaws}.

Lemma compound_u128 r n : is_u128 r -> is_u128 (compound_interest_rate r n).
Proof.
  intros Hr. assert (Hd : is_u128 fx_one) by (unfold fx_one, DIV; uarith).
  apply saturating_sub_u128; [|done]. apply pow_u128. by apply saturating_add_u128.
Qed.

(** The exchange rate with the interest of [interval] seconds. *)
Definition accrued_rate (interval : Z) (c : CurrencyId) (s : State) : ExchangeRate :=
  let rate := get_debit_exchange_rate c s in
  U128.saturating_add rate
    (fx_saturating_mul rate (compound_interest_rate (get_interest_rate_per_sec c s) interval)).
(** The rate of a collateral type with debit may grow, but in no other way. *)
Definition accrues (interval : Z) (c : CurrencyId) (s s' : State) : Prop :=
  get_debit_exchange_rate c s' = get_debit_exchange_rate c s \/
  (debit (total_of c (st_loans s)) <> 0 /\ get_debit_exchange_rate c s' = accrued_rate interval c s).
(** Interest was accumulated for the types [cs]: [n] of stable currency was
    issued to the treasury, and besides the exchange rates nothing else
    changed. *)
Definition interest_effect (interval : Z) (cs : list CurrencyId) (s s' : State) : Prop :=
  exists rates l n,
    s' = set_cdp (mkCdp rates (GlobalInterestRatePerSec (st_cdp s)) (CollateralParams (st_cdp s))
                    (LastAccumulationSecs (st_cdp s))) (set_ledger l s) /\
    0 <= n /\
    (forall c x, cur_free_balance l c x = free_balance c x s + delta GetStableCurrencyId treasury_account_id n c x) /\
    (forall c, cur_total_issuance l c = total_issuance c s + if decide (c = GetStableCurrencyId) then n else 0) /\
    cdp_typed (st_cdp s') /\
    forall c, if decide (c ∈ cs) then accrues interval c s s'
              else get_debit_exchange_rate c s' = get_debit_exchange_rate c s.

Lemma accrued_grows interval c s : cdp_typed (st_cdp s) ->
  get_debit_exchange_rate c s <= accrued_rate interval c s /\ is_u128 (accrued_rate interval c s).
Proof.
  intros Ht. pose proof (rate_u128 c s Ht) as Hr.
  pose proof (compound_u128 _ interval (interest_u128 c s Ht)) as Hc. pose proof (fsm_u128 _ _ Hr Hc) as Hm.
  split; [by apply saturating_add_ge|by apply saturating_add_u128].
Qed.
Lemma interest_effect_refl interval cs s : cdp_typed (st_cdp s) -> interest_effect interval cs s s.
Proof.
  intros Ht. exists (DebitExchangeRate (st_cdp s)), (st_ledger s), 0.
  split; [destruct s as [? ? ? []]; reflexivity|]. split; [done|]. split_and!.
  - intros. rewrite delta_zero. unfold free_balance. lia.
  - intros c. unfold total_issuance. case_decide; lia.
  - done.
  - intros c. case_decide; [by left|done].
Qed.
Lemma interest_effect_cons interval c cs s t u : c ∉ cs ->
  interest_effect interval [c] s t -> interest_effect interval cs t u -> interest_effect interval (c :: cs) s u.
Proof.
  intros Hc (rs & l & n & -> & Hn & Hf & Hi & Ht & Hr) (rs' & l' & n' & -> & Hn' & Hf' & Hi' & Ht' & Hr').
  exists rs', l', (n + n'). split; [done|]. split; [lia|]. split_and!.
  - intros c' x. rewrite Hf'. unfold free_balance at 1. cbn. rewrite Hf. unfold delta. case_decide; lia.
  - intros c'. rewrite Hi'. unfold total_issuance at 1. cbn. rewrite Hi. case_decide; lia.
  - exact Ht'.
  - intros c'. specialize (Hr c'). specialize (Hr' c'). destruct (decide (c' = c)) as [->|Hne].
    + rewrite decide_False in Hr' by done. rewrite !decide_True in * by set_solver. unfold accrues in *. rewrite Hr'. exact Hr.
    + rewrite decide_False in Hr by set_solver. rewrite (decide_ext (c' ∈ c :: cs) (c' ∈ cs)) by set_solver.
      destruct (decide (c' ∈ cs)); [|by rewrite Hr', Hr]. unfold accrues, accrued_rate in *. rewrite Hr in Hr'. exact Hr'.
Qed.

Lemma accumulate_for_wp interval c s : cdp_typed (st_cdp s) -> loans_wf (st_loans s) ->
  wp (accumulate_for interval c) (fun _ => interest_effect interval [c] s) (fun _ _ => False) s.
Proof.
  intros Ht Hwf. pose proof (interest_effect_refl interval [c] s Ht) as Hrefl.
  unfold accumulate_for. wp_guards. wp_branch; [|done].
  apply andb_true_iff in Hif as [_ Hdebit%negb_true_iff%Z.eqb_neq]. wp_guards.
  change (total_positions c s) with (total_of c (st_loans s)) in *.
  pose proof (wf_total _ Hwf c) as (_ & _ & _ & Hdu). cbv zeta in Hdu. fold (total_of c (st_loans s)) in Hdu.
  pose proof (rate_u128 c s Ht) as Hr. pose proof (compound_u128 _ interval (interest_u128 c s Ht)) as Hc.
  pose proof (fsm_u128 _ _ Hr Hc) as Hm. pose proof (value_u128 c _ s Ht Hdu) as Hv.
  pose proof (smi_u128 _ _ Hm Hv) as Hiss.
  eapply wp_mono; [by apply on_system_surplus_spec| |].
  - intros [] s1 (l & -> & Hf & Hi). unfold put_exchange_rate. apply wp_modify.
    fold (accrued_rate interval c s). destruct (accrued_grows interval c s Ht) as [_ Hau].
    eexists _, l, _. split; [reflexivity|]. split; [apply Hiss|]. split; [exact Hf|]. split; [exact Hi|]. split.
    + split; cbn; [|apply Ht|apply Ht]. intros c' r [[_ <-]|[_ Hl]]%lookup_insert_Some; [done|by eapply ct_rate].
    + intros c'. unfold accrues. destruct (decide (c' ∈ [c])) as [->%list_elem_of_singleton|Hne].
      * right. split; [done|]. unfold get_debit_exchange_rate at 1, debit_exchange_rate. cbn. by rewrite lookup_insert_eq.
      * unfold get_debit_exchange_rate, debit_exchange_rate. cbn. rewrite lookup_insert_ne; [done|]. set_solver.
  - intros e s1 ->. done.
Qed.
Lemma accumulate_all_wp interval cs s : NoDup cs -> cdp_typed (st_cdp s) -> loans_wf (st_loans s) ->
  wp (for_each (accumulate_for interval) cs) (fun _ => interest_effect interval cs s) (fun _ _ => False) s.
Proof.
  revert s. induction cs as [|c cs IH]; intros s Hnd Ht Hwf; cbn [for_each]; [by apply wp_ret, interest_effect_refl|].
  apply NoDup_cons in Hnd as [Hc Hnd]. apply wp_bind. eapply wp_mono; [by apply accumulate_for_wp| |done].
  intros [] t Hst. assert (Ht' : cdp_typed (st_cdp t)) by (by destruct Hst as (? & ? & ? & -> & _ & _ & _ & ? & _)).
  assert (Hl : st_loans t = st_loans s) by (by destruct Hst as (? & ? & ? & -> & _)).
  eapply wp_mono; [apply IH; [done|done|by rewrite Hl]| |done]. intros [] u. by apply interest_effect_cons.
Qed.
End Interest.

(** A product with a factor of at most one does not saturate. *)
Section Rounding.
Context `{FixedU128Laws}.
Lemma smi_rounds x n : is_u128 x -> is_u128 n -> x <= DIV -> rounds x n DIV (saturating_mul_int x n).
Proof.
  intros Hx Hn Hle. rewrite smi_checked. destruct (checked_mul_int x n) eqn:E; cbn.
  - by apply cmi_Some in E as [_ ?].
  - apply cmi_None in E; [|done..]. exfalso. destruct Hx, Hn. unfold U128_MAX, DIV in *. nia.
Qed.
Lemma two_roundings n x v r d : 0 <= x -> rounds x v DIV n -> rounds r d DIV v ->
  Z.abs (n * DIV * DIV - x * r * d) <= DIV * (DIV + x).
Proof.
  unfold rounds. generalize DIV as k. intros k Hx H1 H2.
  replace (n * k * k - x * r * d) with (k * (n * k - x * v) + x * (v * k - r * d)) by ring.
  assert (Hk : 0 <= k) by lia. assert (Ha : Z.abs (n * k - x * v) <= k) by lia.
  assert (Hb : Z.abs (v * k - r * d) <= k) by lia.
  pose proof (Z.abs_triangle (k * (n * k - x * v)) (x * (v * k - r * d))) as Ht.
  rewrite !Z.abs_mul, (Z.abs_eq k), (Z.abs_eq x) in Ht by done. clear H1 H2. nia.
Qed.
End Rounding.

(** ** Claims *)
Section Claims.
Context `{ConfigLaws} `{!PriceProvider, !PriceProviderLaws, !EmergencyShutdown}
  `{!CDPTreasury, !CDPTreasuryLaws, !CDPTreasuryExtended, !CDPTreasuryExtendedLaws}.

(** C7: an adjusted position is safe.  [adjust_position] of the engine
    either fails without a trace or adjusts a position of a registered
    collateral type exactly as asked and leaves it without debit or well
    collateralised - a price, a ratio at or above both the liquidation and the
    required one, a value of at least the minimum - so that it cannot be
    liquidated in the state it leaves; if debit was added the total debit value is within the
    hard cap. *)
Theorem adjusted_position_safe who c ca da s : is_i128 ca -> is_i128 da -> engine_ok s ->
  wp (cdp_adjust_position who c ca da)
    (fun _ s' => c ∈ CollateralCurrencyIds /\ adjusted_ok who c ca da s s' /\ adjusted_safe who c da s')
    (fun _ s' => s' = s) s.
Proof. apply cdp_adjust_wp. Qed.

(** C5: the liquidation of an unsafe position is complete.  [liquidate]
    succeeds only as an unsigned call before a shutdown on a position below
    the liquidation ratio; then the whole position is confiscated, its debit
    value booked as system debit, and the collateral is either sold for
    exactly the value plus the penalty, with everything unsold returned to
    the owner, or, when that sale fails, handed to auctions for that target
    with no funds moved.  A failing call changes nothing and none panics. *)
Theorem liquidate_spec o c src s : engine_ok s ->
  wp (liquidate o c src)
    (fun _ s' => o = NoOrigin /\ is_shutdown s = false /\
       exists who, lookup src = Some who /\ liquidated who c s s')
    (fun _ s' => s' = s) s.
Proof.
  intros Hok. unfold liquidate. wp_guards. apply wp_none; [intros ->|done]. unfold lookup_source. wp_guards.
  apply negb_true_iff in Hens. eapply wp_mono; [by apply liquidate_unsafe_wp| |done]. intros [] s' Hs'. eauto.
Qed.

(** Settlement takes what the debit is worth.  After a shutdown an
    unsigned [settle] of a position with debit confiscates collateral worth
    its debit value at the current relative price, never more than there is,
    clears the debit, books its value as system debit and leaves the rest of
    the collateral to the owner. *)
Theorem settle_spec o c src s : engine_ok s ->
  wp (settle o c src)
    (fun _ s' => o = NoOrigin /\ is_shutdown s = true /\
       exists who, lookup src = Some who /\ settled_cdp who c s s')
    (fun _ s' => s' = s) s.
Proof.
  intros Hok. unfold settle. wp_guards. apply wp_none; [intros ->|done]. unfold lookup_source. wp_guards.
  eapply wp_mono; [by apply settle_wp| |done]. intros [] s' Hs'. eauto.
Qed.

Definition with_last_accumulation (n : Z) (s : State) : State :=
  set_cdp (mkCdp (DebitExchangeRate (st_cdp s)) (GlobalInterestRatePerSec (st_cdp s))
    (CollateralParams (st_cdp s)) n) s.
(** Interest only accrues.  [accumulate_interest] never fails; after a
    shutdown or without a clock it only records the time, otherwise every
    registered collateral type with debit has its exchange rate multiplied by
    one plus the compound interest of the elapsed seconds, or left alone when
    the issue of stable currency failed, and the treasury receives what was
    issued.  No exchange rate ever falls. *)
Theorem interest_accrual now last s :
  NoDup CollateralCurrencyIds -> cdp_typed (st_cdp s) -> loans_wf (st_loans s) ->
  wp (accumulate_interest now last)
    (fun count s' =>
       (forall c, get_debit_exchange_rate c s <= get_debit_exchange_rate c s') /\
       if is_shutdown s || (now =? 0) then count = 0 /\ s' = with_last_accumulation now s
       else count = Z.of_nat (length CollateralCurrencyIds) /\
         exists t, interest_effect (U128.saturating_sub now last) CollateralCurrencyIds s t /\
           s' = with_last_accumulation now t)
    (fun _ _ => False) s.
Proof.
  intros Hnd Ht Hwf. unfold accumulate_interest. wp_guards. rewrite <- negb_orb. wp_branch.
  - apply negb_true_iff in Hif. rewrite Hif. wp_guards.
    eapply wp_mono; [by apply accumulate_all_wp| |done]. intros [] t Heff. apply wp_ret.
    unfold put_last_accumulation. apply wp_bind, wp_modify, wp_ret. split; [|split; [done|by exists t]].
    intros c. change (get_debit_exchange_rate c (with_cdp _ t)) with (get_debit_exchange_rate c t).
    destruct Heff as (rs & l & n & _ & _ & _ & _ & _ & Hr). specialize (Hr c).
    case_decide; [|lia]. destruct Hr as [->|[_ ->]]; [lia|]. by apply accrued_grows.
  - apply negb_false_iff in Hif. rewrite Hif. unfold put_last_accumulation. wp_guards.
Qed.

(** What the accumulation issues for one collateral type.  When its
    exchange rate grows by [incr], every debit unit is worth [incr] more, but
    the stable currency issued to the treasury is [incr] times the exchange
    rate once more per unit - a tenth of the interest at a rate of one tenth -
    up to the two fixed-point roundings. *)
Theorem interest_issue_scaled interval c s :
  cdp_typed (st_cdp s) -> loans_wf (st_loans s) ->
  let rate := get_debit_exchange_rate c s in
  let incr := fx_saturating_mul rate (compound_interest_rate (get_interest_rate_per_sec c s) interval) in
  let d := debit (total_of c (st_loans s)) in
  rate <= DIV -> incr <= DIV ->
  wp (accumulate_for interval c)
    (fun _ s' => s' = s \/
       (get_debit_exchange_rate c s' = rate + incr /\
        let issued := total_issuance GetStableCurrencyId s' - total_issuance GetStableCurrencyId s in
        Z.abs (issued * DIV * DIV - incr * rate * d) <= DIV * (DIV + incr)))
    (fun _ _ => False) s.
Proof.
  intros Ht Hwf rate incr d Hrate Hincr. unfold accumulate_for. wp_guards. wp_branch; [|by left]. wp_guards.
  change (total_positions c s) with (total_of c (st_loans s)). fold rate incr d.
  pose proof (wf_total _ Hwf c) as (_ & _ & _ & Hd). cbv zeta in Hd. fold (total_of c (st_loans s)) in Hd. fold d in Hd.
  pose proof (rate_u128 c s Ht : is_u128 rate) as Hr.
  pose proof (fsm_u128 _ _ Hr (compound_u128 _ interval (interest_u128 c s Ht)) : is_u128 incr) as Hi.
  pose proof (smi_rounds rate d Hr Hd Hrate) as Hv1. fold (convert_debit c d s) in Hv1.
  pose proof (value_u128 c d s Ht Hd) as Hv. fold (get_debit_value c d s) in Hv1.
  set (v := get_debit_value c d s) in *. pose proof (smi_rounds incr v Hi Hv Hincr) as Hn.
  pose proof (smi_u128 incr v Hi Hv) as Hnu. set (n := saturating_mul_int incr v) in *.
  eapply wp_mono; [by apply on_system_surplus_spec| |intros e s1 ->; by left].
  intros [] s1 (l & -> & _ & Hiss). unfold put_exchange_rate. apply wp_modify. right. split.
  - unfold get_debit_exchange_rate at 1, debit_exchange_rate. cbn. rewrite lookup_insert_eq. cbn.
    apply saturating_add_exact. clear -Hrate Hincr. unfold DIV, U128_MAX in *. lia.
  - cbv zeta. unfold total_issuance at 1. cbn. rewrite Hiss, decide_True by done.
    replace (total_issuance GetStableCurrencyId s + n - total_issuance GetStableCurrencyId s) with n by lia.
    apply (two_roundings n incr v); [apply Hi|exact Hn|exact Hv1].
Qed.
End Claims.
