(* ===== verification/Honzon.v ===== *)
(** * Honzon: the user's side of the stablecoin protocol

    [modules/honzon/src/lib.rs]: adjusting, closing and transferring one's
    loans, and the authorizations - each backed by a reserved deposit - that
    let another account take over a loan. *)
From S2P Require Import Prelude FixedPoint Primitives Runtime Sample Support Loans CdpEngine CdpSpecs.

Section Model.
Context `{Config, !PriceProvider, !EmergencyShutdown, !CDPTreasury, !CDPTreasuryExtended}.

Definition authorization (from : AccountId) (key : CurrencyId * AccountId) (s : State) : option Balance :=
  st_authorization s !! (from, key).
Definition put_authorization (from : AccountId) (key : CurrencyId * AccountId) (n : Balance) : Run unit :=
  modify (fun s => set_authorization (<[(from, key) := n]> (st_authorization s)) s).
Definition take_authorization (from : AccountId) (key : CurrencyId * AccountId) : Run (option Balance) :=
  n ← gets (authorization from key);
  _ ← modify (fun s => set_authorization (delete (from, key) (st_authorization s)) s);
  mret n.
(** [remove_prefix] *)
Definition remove_authorizations (from : AccountId) : Run unit :=
  modify (fun s => set_authorization (filter (fun kv => kv.1.1 <> from) (st_authorization s)) s).

(** [NamedReservableCurrency] *)
Definition reserve_named (who : AccountId) (n : Balance) : Run unit := lift_ledger (cur_reserve_named who n).
Definition unreserve_named (who : AccountId) (n : Balance) : Run unit :=
  modify (fun s => set_ledger (cur_unreserve_named who n (st_ledger s)) s).
Definition unreserve_all_named (who : AccountId) : Run unit :=
  modify (fun s => set_ledger (cur_unreserve_all_named who (st_ledger s)) s).

Definition check_authorization (from to : AccountId) (c : CurrencyId) (s : State) : outcome DispatchError unit :=
  oensure (bool_decide (from = to) || bool_decide (is_Some (authorization from (c, to) s)))
    (HonzonE HonzonError.NoPermission).

(** ** Extrinsics *)
Definition adjust_loan (origin : Origin) (c : CurrencyId) (collateral_adjustment debit_adjustment : Amount)
    : Run unit :=
  transactional (
    who ← ensure_signed origin;
    _ ← (if negb (debit_adjustment =? 0) then
           shutdown ← gets is_shutdown;
           ensure (negb shutdown) (HonzonE HonzonError.AlreadyShutdown)
         else mret tt);
    cdp_adjust_position who c collateral_adjustment debit_adjustment).
Definition close_loan_has_debit_by_dex (origin : Origin) (c : CurrencyId)
    (maybe_path : option (list CurrencyId)) : Run unit :=
  transactional (
    who ← ensure_signed origin;
    shutdown ← gets is_shutdown;
    _ ← ensure (negb shutdown) (HonzonE HonzonError.AlreadyShutdown);
    close_cdp_has_debit_by_dex who c maybe_path).
Definition transfer_loan_from (origin : Origin) (c : CurrencyId) (from : LookupSource) : Run unit :=
  transactional (
    to ← ensure_signed origin;
    from ← lookup_source from;
    shutdown ← gets is_shutdown;
    _ ← ensure (negb shutdown) (HonzonE HonzonError.AlreadyShutdown);
    _ ← reads (check_authorization from to c);
    transfer_loan from to c).
Definition authorize (origin : Origin) (c : CurrencyId) (to : LookupSource) : Run unit :=
  transactional (
    from ← ensure_signed origin;
    to ← lookup_source to;
    if bool_decide (from = to) then mret tt
    else
      maybe_reserved ← gets (authorization from (c, to));
      match maybe_reserved with
      | None =>
          let reserve_amount := DepositPerAuthorization in
          _ ← reserve_named from reserve_amount;
          _ ← deposit_event (Authorization from to c);
          put_authorization from (c, to) reserve_amount
      | Some _ => throw (HonzonE HonzonError.AlreadyAuthorized)
      end).
Definition unauthorize (origin : Origin) (c : CurrencyId) (to : LookupSource) : Run unit :=
  transactional (
    from ← ensure_signed origin;
    to ← lookup_source to;
    reserved ← take_authorization from (c, to);
    reserved ← ok_or reserved (HonzonE HonzonError.AuthorizationNotExists);
    _ ← unreserve_named from reserved;
    deposit_event (UnAuthorization from to c)).
Definition unauthorize_all (origin : Origin) : Run unit :=
  transactional (
    from ← ensure_signed origin;
    _ ← remove_authorizations from;
    _ ← unreserve_all_named from;
    deposit_event (UnAuthorizationAll from)).
End Model.

(** ** Deposits *)
Section Deposits.
Context `{ConfigLaws}.

(** What [who] has on deposit for its authorizations. *)
Definition deposits (who : AccountId) (m : AuthorizationMap) : Z :=
  map_sum (fun k n => if decide (k.1 = who) then n else 0) m.
(** Every deposit is reserved in the ledger, and nothing else is. *)
Record authorizations_backed (s : State) : Prop := {
  ab_deposit k n : st_authorization s !! k = Some n -> is_u128 n;
  ab_reserved who : cur_reserved_named (st_ledger s) who = deposits who (st_authorization s);
}.

Lemma deposits_nonneg who s : authorizations_backed s -> 0 <= deposits who (st_authorization s).
Proof.
  intros Hb. apply map_sum_nonneg. intros k n Hk. case_decide; [by apply (ab_deposit s Hb k)|done].
Qed.
Lemma deposit_le who key n s : authorizations_backed s -> st_authorization s !! (who, key) = Some n ->
  n <= deposits who (st_authorization s).
Proof.
  intros Hb Hk. unfold deposits.
  etrans; [|apply (map_sum_lookup_le _ _ (who, key) n); [|exact Hk]].
  - cbn. by rewrite decide_True.
  - intros k m Hm. case_decide; [by apply (ab_deposit s Hb k)|done].
Qed.
Lemma deposits_filter (from who : AccountId) (m : AuthorizationMap) :
  deposits who (filter (fun kv => kv.1.1 <> from) m) = if decide (who = from) then 0 else deposits who m.
Proof.
  unfold deposits. induction m as [|k n m Hk IH] using map_ind.
  - rewrite map_filter_empty, map_sum_empty. by case_decide.
  - destruct (decide (k.1 = from)) as [E|E].
    + rewrite map_filter_insert_False by (cbn; tauto).
      rewrite (delete_id _ k) by done. rewrite IH, map_sum_insert_None by done.
      repeat case_decide; congruence || lia.
    + rewrite map_filter_insert_True by done. rewrite !map_sum_insert_None; [|done|].
      * rewrite IH. repeat case_decide; congruence || lia.
      * apply map_lookup_filter_None. by left.
Qed.

Lemma deposits_insert (who : AccountId) (k : AccountId * (CurrencyId * AccountId)) (n : Z) (m : AuthorizationMap) : m !! k = None ->
  deposits who (<[k := n]> m) = deposits who m + if decide (who = k.1) then n else 0.
Proof.
  intros Hk. unfold deposits. rewrite map_sum_insert_None by done. repeat case_decide; congruence || lia.
Qed.
Lemma deposits_delete (who : AccountId) (k : AccountId * (CurrencyId * AccountId)) (n : Z) (m : AuthorizationMap) : m !! k = Some n ->
  deposits who (delete k m) = deposits who m - if decide (who = k.1) then n else 0.
Proof.
  intros Hk. unfold deposits. rewrite map_sum_delete, Hk. cbn. repeat case_decide; congruence || lia.
Qed.
End Deposits.

(** ** Claims *)
Section Claims.
Context `{ConfigLaws} `{!PriceProvider, !PriceProviderLaws, !EmergencyShutdown}
  `{!CDPTreasury, !CDPTreasuryLaws, !CDPTreasuryExtended, !CDPTreasuryExtendedLaws}.

Inductive AuthCall :=
  | AuthorizeC (c : CurrencyId) (to : LookupSource)
  | UnauthorizeC (c : CurrencyId) (to : LookupSource)
  | UnauthorizeAllC.
Definition run_auth_call (call : AuthCall) (o : Origin) : Run unit :=
  match call with
  | AuthorizeC c to => authorize o c to
  | UnauthorizeC c to => unauthorize o c to
  | UnauthorizeAllC => unauthorize_all o
  end.
(** The change of the authorizations of [from]. *)
Definition auth_effect (call : AuthCall) (from : AccountId) (s s' : State) : Prop :=
  let m := st_authorization s in
  match call with
  | AuthorizeC c src => exists to, lookup src = Some to /\
      if decide (from = to) then s' = s
      else m !! (from, (c, to)) = None /\ st_authorization s' = <[(from, (c, to)) := DepositPerAuthorization]> m
  | UnauthorizeC c src => exists to n, lookup src = Some to /\ m !! (from, (c, to)) = Some n /\
      st_authorization s' = delete (from, (c, to)) m
  | UnauthorizeAllC =>
      forall k, st_authorization s' !! k = if decide (k.1 = from) then None else m !! k
  end.

(** C35: an authorization and its deposit live and die together.  Each of the
    three calls either fails without a trace or changes exactly the
    authorizations it is about, and keeps the reserved deposits of every
    account equal to the sum of its authorizations. *)
Theorem authorizations_stay_backed call o s : authorizations_backed s ->
  wp (run_auth_call call o)
    (fun _ s' => authorizations_backed s' /\ exists from, o = Signed from /\ auth_effect call from s s')
    (fun _ s' => s' = s) s.
Proof.
  intros Hb. destruct call as [c src|c src|]; cbn [run_auth_call].
  - unfold authorize. wp_guards. apply wp_signed; [intros from ->|done]. unfold lookup_source. wp_guards.
    rename a into to. wp_branch; [apply bool_decide_eq_true in Hif|apply bool_decide_eq_false in Hif].
    { apply wp_ret. split; [done|]. exists from. split; [done|]. exists to. by rewrite decide_True. }
    wp_guards. wp_branch; [done|]. unfold authorization in Hif0. apply wp_bind. apply wp_lift_ledger.
    split; [|done]. intros l Hl. pose proof (reserve_law _ _ _ _ authorization_deposit_u128 Hl) as Hres.
    unfold deposit_event, put_authorization. wp_guards. split; [split|].
    + cbn. intros k n [[_ <-]|[_ Hk]]%lookup_insert_Some; [apply authorization_deposit_u128|by apply (ab_deposit s Hb k)].
    + intros who. cbn. rewrite Hres, deposits_insert by done. by rewrite (ab_reserved s Hb).
    + exists from. split; [done|]. exists to. by rewrite decide_False.
  - unfold unauthorize. wp_guards. apply wp_signed; [intros from ->|done]. unfold lookup_source, take_authorization. wp_guards.
    rename a into to, a0 into n. unfold authorization in Hopt0. unfold unreserve_named. wp_guards. apply wp_event.
    pose proof (ab_deposit s Hb _ _ Hopt0) as Hn. pose proof (deposit_le from _ n s Hb Hopt0) as Hle. split; [split|].
    + cbn. intros k m [_ Hk]%lookup_delete_Some. by apply (ab_deposit s Hb k).
    + intros who. cbn. rewrite unreserve_law, (deposits_delete who _ n), !(ab_reserved s Hb) by done. cbn.
      case_decide; subst; lia.
    + exists from. split; [done|]. by exists to, n.
  - unfold unauthorize_all. wp_guards. apply wp_signed; [intros from ->|done].
    unfold remove_authorizations, unreserve_all_named. wp_guards. apply wp_event. split; [split|].
    + cbn. intros k n [Hk _]%map_lookup_filter_Some. by apply (ab_deposit s Hb k).
    + intros who. cbn. rewrite unreserve_all_law, deposits_filter. case_decide; [done|]. apply (ab_reserved s Hb).
    + exists from. split; [done|]. intros k. cbn. rewrite map_lookup_filter.
      destruct (st_authorization s !! k) as [n|] eqn:Ek; cbn; [|by case_decide].
      destruct (decide (k.1 = from)) as [E|E].
      * rewrite option_guard_False by (cbn; tauto). done.
      * rewrite option_guard_True by done. done.
Qed.

Inductive LoanCall :=
  | AdjustLoan (c : CurrencyId) (ca da : Amount)
  | CloseLoan (c : CurrencyId) (path : option (list CurrencyId))
  | TransferLoanFrom (c : CurrencyId) (from : LookupSource).
Definition run_loan_call (call : LoanCall) (o : Origin) : Run unit :=
  match call with
  | AdjustLoan c ca da => adjust_loan o c ca da
  | CloseLoan c path => close_loan_has_debit_by_dex o c path
  | TransferLoanFrom c from => transfer_loan_from o c from
  end.
Definition loan_call_ok (call : LoanCall) (o : Origin) : Prop :=
  match call with
  | AdjustLoan _ ca da => is_i128 ca /\ is_i128 da
  | CloseLoan _ _ => True
  | TransferLoanFrom _ from => forall to, o = Signed to -> lookup from <> Some to
  end.
Definition loan_call_effect (call : LoanCall) (who : AccountId) (s s' : State) : Prop :=
  match call with
  | AdjustLoan c ca da => (is_shutdown s = true -> da = 0) /\ c ∈ CollateralCurrencyIds /\
      adjusted_ok who c ca da s s' /\ adjusted_safe who c da s'
  | CloseLoan c _ => is_shutdown s = false /\ closed who c s s'
  | TransferLoanFrom c src => is_shutdown s = false /\ exists from, lookup src = Some from /\
      is_Some (authorization from (c, who) s) /\ transferred_ok from who c s s'
  end.

(** What a user can do with loans.  A signed account adjusts its own
    position (after a shutdown only the collateral) and ends safe; closes its
    own position before a shutdown, if it is not unsafe, by selling at most its collateral for
    exactly its debit and getting the rest back; and takes over the whole
    position of another account before a shutdown only with that account's
    authorization for the collateral type.  Failing calls change nothing and
    none panics. *)
Theorem loan_calls_spec call o s : loan_call_ok call o -> engine_ok s ->
  wp (run_loan_call call o)
    (fun _ s' => exists who, o = Signed who /\ loan_call_effect call who s s')
    (fun _ s' => s' = s) s.
Proof.
  intros Hok He. destruct call as [c ca da|c path|c src]; cbn [run_loan_call loan_call_ok] in *.
  - destruct Hok as [Hca Hda]. unfold adjust_loan. wp_guards. apply wp_signed; [intros who ->|done].
    assert (Hrest : (is_shutdown s = true -> da = 0) ->
      wp (cdp_adjust_position who c ca da)
        (fun _ s' => exists w, Signed who = Signed w /\ loan_call_effect (AdjustLoan c ca da) w s s')
        (fun _ _ => s = s) s).
    { intros Hsd. eapply wp_mono; [by apply cdp_adjust_wp| |done]. intros [] s' Hs'. exists who. split; [done|]. split; [done|exact Hs']. }
    apply wp_bind. wp_branch; wp_guards.
    + apply Hrest. apply negb_true_iff in Hens. congruence.
    + apply Hrest. by apply negb_false_iff, Z.eqb_eq in Hif.
  - unfold close_loan_has_debit_by_dex. wp_guards. apply wp_signed; [intros who ->|done]. wp_guards.
    apply negb_true_iff in Hens. eapply wp_mono; [by apply close_wp| |done]. intros [] s' Hs'. exists who. by split.
  - unfold transfer_loan_from. wp_guards. apply wp_signed; [intros to ->|done]. unfold lookup_source. wp_guards.
    rename a into from. apply negb_true_iff in Hens. assert (Hne : from <> to) by (specialize (Hok to eq_refl); congruence).
    unfold check_authorization, oensure. rewrite bool_decide_eq_false_2 by done. cbn [orb].
    destruct (bool_decide (is_Some (authorization from (c, to) s))) eqn:Ea; [|done]. apply bool_decide_eq_true in Ea.
    eapply wp_mono; [apply transfer_loan_wp; [by apply joint_position_fits; [|apply He]|apply He]| |done]. intros [] s' Hs'. exists to.
    split; [done|]. split; [done|]. by exists from.
Qed.
End Claims.
