(* ===== verification/World.v ===== *)
(** * A running system

    One runtime in which all the pallets work together, and the claims about
    the pallets of the stablecoin protocol applied to it: a position is opened,
    becomes unsafe and is liquidated, its collateral is auctioned, the system
    is shut down and redeemed. *)
From S2P Require Import Prelude FixedPoint Primitives Runtime Sample Support.
From S2P Require Import Dex DexSwap Treasury Loans Prices AuctionManager TreasuryAuctions AuctionSpecs.
From S2P Require Import EmergencyShutdown CdpEngine CdpSpecs Honzon.
#[local] Existing Instance sample.
#[local] Existing Instance sample_laws.

(** ** Checking a concrete storage *)
Definition u128b (x : Z) : bool := (0 <=? x) && (x <=? U128_MAX).
Lemma u128b_true x : u128b x = true -> is_u128 x.
Proof. unfold u128b. rewrite andb_true_iff, !Z.leb_le. done. Qed.
Definition opt_u128b (o : option Z) : bool := from_option u128b true o.
Lemma opt_u128b_true o : opt_u128b o = true -> opt_u128 o.
Proof. destruct o; [apply u128b_true|done]. Qed.
Definition paramsb (p : RiskManagementParams) : bool :=
  u128b (rp_maximum_total_debit_value p) && opt_u128b (rp_interest_rate_per_sec p)
  && opt_u128b (rp_liquidation_ratio p) && opt_u128b (rp_liquidation_penalty p)
  && opt_u128b (rp_required_collateral_ratio p).
Lemma paramsb_true p : paramsb p = true -> params_typed p.
Proof.
  unfold paramsb. rewrite !andb_true_iff. intros [[[[? ?] ?] ?] ?].
  split; by (apply u128b_true || apply opt_u128b_true).
Qed.

Lemma map_check {K V} `{Countable K} (f : V -> bool) (P : V -> Prop) (m : gmap K V) :
  (forall v, f v = true -> P v) -> forallb (fun kv => f kv.2) (map_to_list m) = true ->
  forall k v, m !! k = Some v -> P v.
Proof.
  intros Hf Hall k v Hk. rewrite forallb_forall in Hall. apply Hf.
  apply (Hall (k, v)). by apply list_elem_of_In, elem_of_map_to_list.
Qed.
Definition cdpb (x : CdpStorage) : bool :=
  forallb (fun kv => u128b kv.2) (map_to_list (DebitExchangeRate x)) && u128b (GlobalInterestRatePerSec x)
  && forallb (fun kv => paramsb kv.2) (map_to_list (CollateralParams x)).
Lemma cdpb_true x : cdpb x = true -> cdp_typed x.
Proof.
  unfold cdpb. rewrite !andb_true_iff. intros [[H1 H2] H3]. split.
  - intros c r. by apply (map_check u128b is_u128 _ u128b_true).
  - by apply u128b_true.
  - intros c p. by apply (map_check paramsb params_typed _ paramsb_true).
Qed.
Definition treasuryb (x : TreasuryStorage) : bool :=
  u128b (DebitPool x) && forallb (fun kv => u128b kv.2) (map_to_list (ExpectedCollateralAuctionSize x)).
Lemma treasuryb_true x : treasuryb x = true -> treasury_typed x.
Proof.
  unfold treasuryb. rewrite andb_true_iff. intros [H1 H2]. split; [by apply u128b_true|].
  intros c n. by apply (map_check u128b is_u128 _ u128b_true).
Qed.

(** ** The states *)
Definition oracle_dot (dot : Price) (c : CurrencyId) : option Price :=
  if decide (c = Token DOT) then Some dot else Some DIV.
Definition at_price (dot : Price) (s : State) : State :=
  set_env (mkEnv 10 1000 (oracle_dot dot) (DIV / 10)) s.

(** DOT is worth five units of AUSD, on the exchange too. *)
Definition configured : State :=
  (set_collateral_params Root (Token DOT) (NewValue (Some DIV)) (NewValue (Some (DIV * 3 / 2)))
     (NewValue (Some (DIV / 10))) NoChange (NewValue 1000000) (at_price (DIV / 20) pools_sample)).2.
(** Alice owes 30000 units of debit, worth 3000 AUSD, against 1000 DOT. *)
Definition borrowed : State := (cdp_adjust_position alice (Token DOT) 1000 30000 configured).2.
(** The price falls to four. *)
Definition crashed : State := at_price (DIV / 25) borrowed.
Definition shut_down : State := (emergency_shutdown Root crashed).2.
(** A lot of a thousand DOT for two thousand AUSD, and Bob's bid of 500. *)
Definition auctioned : State := (am_new_collateral_auction bob (Token DOT) 1000 2000 treasury_sample).2.
(** The redemption is open, and the treasury has some DOT. *)
Definition redeeming : State :=
  let s := (emergency_shutdown Root treasury_sample).2 in
  (open_collateral_refund Root s).2.
Definition authorized : State := (authorize (Signed alice) (Token DOT) bob borrowed).2.

(** ** They are well formed *)
Definition pricesb (s : State) : bool :=
  forallb (fun kv => u128b kv.2) (map_to_list (st_locked_price s)) && u128b (liquid_exchange_rate (st_env s)).
Lemma prices_check dot s : u128b dot = true -> oracle_price (st_env s) = oracle_dot dot ->
  pricesb s = true -> dex_typedb (st_dex s) = true -> prices_typed s.
Proof.
  intros Hd Ho Hp Hdex. unfold pricesb in Hp. apply andb_true_iff in Hp as [Hl Hr]. split_and!.
  - intros c p. rewrite Ho. unfold oracle_dot. case_decide; intros [= <-]; [by apply u128b_true|wcheck].
  - intros c p. by apply (map_check u128b is_u128 _ u128b_true).
  - by apply u128b_true.
  - by apply dex_typed_dec.
Qed.
Lemma engine_check dot s : u128b dot = true -> oracle_price (st_env s) = oracle_dot dot ->
  pricesb s && dex_typedb (st_dex s) && cdpb (st_cdp s) && treasuryb (st_treasury s) = true ->
  loans_wf (st_loans s) -> engine_ok s.
Proof.
  rewrite !andb_true_iff. intros Hd Ho [[[Hp Hdex] Hc] Ht] Hwf.
  split; [by apply cdpb_true|by apply (prices_check dot)|done|by apply treasuryb_true].
Qed.
Lemma configured_ok : engine_ok configured.
Proof.
  apply (engine_check (DIV / 20)); [by vm_compute|reflexivity|vm_compute; reflexivity|].
  replace (st_loans configured) with (mkLoans ∅ ∅) by (vm_compute; reflexivity).
  exact (proj1 (initial_loans_inv [] (fun _ => None))).
Qed.
Lemma borrowed_wf : loans_wf (st_loans borrowed).
Proof.
  assert (E : cdp_adjust_position alice (Token DOT) 1000 30000 configured = (Ok tt, borrowed)).
  { unfold borrowed. apply run_split. vm_compute. reflexivity. }
  assert (H1 : is_i128 1000) by wcheck. assert (H2 : is_i128 30000) by wcheck.
  destruct (wp_ok _ _ _ _ _ _ (cdp_adjust_wp alice (Token DOT) 1000 30000 configured H1 H2 configured_ok) E)
    as (_ & (Hwf & l & sys & inc & -> & _) & _). exact Hwf.
Qed.
Lemma borrowed_ok : engine_ok borrowed.
Proof.
  apply (engine_check (DIV / 20)); [by vm_compute|reflexivity|vm_compute; reflexivity|apply borrowed_wf].
Qed.
Lemma crashed_ok : engine_ok crashed.
Proof.
  apply (engine_check (DIV / 25)); [by vm_compute|reflexivity|vm_compute; reflexivity|apply borrowed_wf].
Qed.
Lemma shut_down_ok : engine_ok shut_down.
Proof.
  apply (engine_check (DIV / 25)); [by vm_compute|reflexivity|vm_compute; reflexivity|].
  replace (st_loans shut_down) with (st_loans borrowed) by (vm_compute; reflexivity). apply borrowed_wf.
Qed.
Lemma auctioned_inv : auctions_inv auctioned.
Proof.
  assert (Hinv : auctions_inv treasury_sample).
  { replace (auctions_inv treasury_sample) with (auctions_inv (sample_state [] (fun _ => None))).
    - split; [split|]; cbn.
      + by intros id a.
      + intros c. rewrite map_sum_empty. split; [done|wcheck].
      + rewrite map_sum_empty. split; [done|wcheck].
      + by intros id a.
    - unfold auctions_inv, auctions_linked. f_equal; vm_compute; reflexivity. }
  assert (E : am_new_collateral_auction bob (Token DOT) 1000 2000 treasury_sample = (Ok tt, auctioned)).
  { unfold auctioned. apply run_split. vm_compute. reflexivity. }
  assert (H1 : is_u128 1000) by wcheck. assert (H2 : is_u128 2000) by wcheck.
  apply (wp_ok _ _ _ _ _ _ (new_auction_wp bob (Token DOT) 1000 2000 treasury_sample Hinv H1 H2) E).
Qed.

(** ** Auctions *)
Lemma new_bid_spec_witness :
  let run := on_new_bid 20 0 (alice, 500) None auctioned in
  bid_accepted 20 0 alice 500 None 120 auctioned run.2.
Proof.
  intros run. assert (H1 : is_u128 500) by wcheck. assert (H2 : is_u128 (last_price None)) by wcheck.
  pose proof (new_bid_spec 20 0 alice 500 None auctioned (proj1 auctioned_inv) H1 H2) as Hw.
  assert (E : on_new_bid 20 0 (alice, 500) None auctioned = (Ok (mkNewBidResult true (NewValue (Some 120))), run.2)).
  { apply run_split. vm_compute. reflexivity. }
  exact (proj2 (wp_ok _ _ _ _ _ _ Hw E)).
Defined.
Lemma auctioned_prices : prices_typed auctioned.
Proof.
  split_and!.
  - assert (Ho : oracle_price (st_env auctioned) = fun _ => Some DIV) by (vm_compute; reflexivity).
    intros c p. rewrite Ho. intros [= <-]. wcheck.
  - intros c p. replace (st_locked_price auctioned) with (∅ : gmap CurrencyId Price) by (vm_compute; reflexivity). done.
  - wcheck.
  - apply dex_typed_dec. vm_compute. reflexivity.
Qed.
Lemma cancel_auction_spec_witness :
  let run := am_cancel_auction 0 auctioned in cancelled_ok 0 auctioned run.2.
Proof.
  intros run. assert (H1 : is_u128 (last_price (get_last_bid 0 auctioned))) by wcheck.
  assert (H2 : is_u128 (DebitPool (st_treasury auctioned))) by wcheck.
  apply (cancel_auction_spec 0 auctioned run.2 (proj1 auctioned_inv) H1 H2 auctioned_prices).
  apply run_split. vm_compute. reflexivity.
Defined.
Lemma auction_books_safe_witness :
  let run := run_auction_op (EndOp 0 (Some (alice, 500))) auctioned in auctions_inv run.2.
Proof.
  intros run. assert (H1 : auction_op_ok (EndOp 0 (Some (alice, 500))) auctioned).
  { split; [wcheck|apply auctioned_prices]. }
  apply (wp_ok _ _ _ _ tt run.2 (auction_books_safe (EndOp 0 (Some (alice, 500))) auctioned H1 auctioned_inv)).
  apply run_split. vm_compute. reflexivity.
Defined.

(** ** The shutdown *)
Lemma collaterals_distinct : NoDup CollateralCurrencyIds.
Proof. apply (bool_decide_unpack _). vm_compute. exact I. Qed.
Lemma stable_not_collateral : GetStableCurrencyId ∉ CollateralCurrencyIds.
Proof. apply (bool_decide_unpack _). vm_compute. exact I. Qed.

Lemma shutdown_life_cycle_witness :
  let run := run_shutdown_call EmergencyShutdownC Root crashed in
  exists q, shutdown_step EmergencyShutdownC Root Normal crashed = Some q /\ phase run.2 = Some q.
Proof.
  intros run. assert (H1 : forall n, EmergencyShutdownC = RefundC n -> is_u128 n) by discriminate.
  assert (H2 : phase crashed = Some Normal) by (vm_compute; reflexivity).
  apply (wp_ok _ _ _ _ tt run.2
    (shutdown_life_cycle EmergencyShutdownC Root Normal crashed collaterals_distinct stable_not_collateral H1 H2)).
  apply run_split. vm_compute. reflexivity.
Defined.
Lemma refund_pro_rata_witness :
  let run := refund_collaterals (Signed bob) 100000 redeeming in
  exists who, Signed bob = Signed who /\ redeemed who 100000 redeeming run.2 /\
    forall c, c ∈ CollateralCurrencyIds ->
      let t := free_balance c treasury_account_id redeeming in
      let i := total_issuance GetStableCurrencyId redeeming in
      let n := shares (refund_ratio 100000 redeeming) CollateralCurrencyIds redeeming c in
      0 <= n <= t /\ Z.abs (n * DIV * i - 100000 * t * DIV) <= i * (DIV + t).
Proof.
  intros run. assert (H1 : is_u128 100000) by wcheck.
  apply (wp_ok _ _ _ _ tt run.2
    (refund_pro_rata (Signed bob) 100000 redeeming H1 collaterals_distinct stable_not_collateral)).
  apply run_split. vm_compute. reflexivity.
Defined.

(** ** Positions *)
Lemma adjusted_position_safe_witness :
  let run := cdp_adjust_position alice (Token DOT) (-100) (-10000) borrowed in
  adjusted_safe alice (Token DOT) (-10000) run.2.
Proof.
  intros run. assert (H1 : is_i128 (-100)) by wcheck. assert (H2 : is_i128 (-10000)) by wcheck.
  apply (wp_ok _ _ _ _ tt run.2
    (adjusted_position_safe alice (Token DOT) (-100) (-10000) borrowed H1 H2 borrowed_ok)).
  apply run_split. vm_compute. reflexivity.
Defined.
Lemma liquidate_spec_witness :
  let run := liquidate NoOrigin (Token DOT) alice crashed in
  exists who, @Runtime.lookup sample alice = Some who /\ liquidated who (Token DOT) crashed run.2.
Proof.
  intros run. apply (wp_ok _ _ _ _ tt run.2 (liquidate_spec NoOrigin (Token DOT) (alice : @LookupSource sample) crashed crashed_ok)).
  apply run_split. vm_compute. reflexivity.
Defined.
Lemma settle_spec_witness :
  let run := settle NoOrigin (Token DOT) alice shut_down in
  exists who, @Runtime.lookup sample alice = Some who /\ settled_cdp who (Token DOT) shut_down run.2.
Proof.
  intros run. apply (wp_ok _ _ _ _ tt run.2 (settle_spec NoOrigin (Token DOT) (alice : @LookupSource sample) shut_down shut_down_ok)).
  apply run_split. vm_compute. reflexivity.
Defined.
Lemma interest_accrual_witness :
  let run := accumulate_interest 1001 1000 borrowed in
  get_debit_exchange_rate (Token DOT) borrowed <= get_debit_exchange_rate (Token DOT) run.2.
Proof.
  intros run.
  apply (wp_ok _ _ _ _ 3 run.2
    (interest_accrual 1001 1000 borrowed collaterals_distinct (eo_cdp _ borrowed_ok) borrowed_wf)).
  apply run_split. vm_compute. reflexivity.
Defined.

(** After a second at a hundred percent Alice's debit is worth 6000 instead of
    3000, but the treasury got 300. *)
Example interest_issue_short :
  let s' := (accumulate_for 1 (Token DOT) borrowed).2 in
  get_debit_value (Token DOT) 30000 s' - get_debit_value (Token DOT) 30000 borrowed = 3000 /\
  total_issuance GetStableCurrencyId s' - total_issuance GetStableCurrencyId borrowed = 300.
Proof. vm_compute. split; reflexivity. Qed.
Lemma interest_issue_scaled_witness :
  let run := accumulate_for 1 (Token DOT) borrowed in
  run.2 = borrowed \/
  (get_debit_exchange_rate (Token DOT) run.2 = DIV / 10 + DIV / 10 /\
   let issued := total_issuance GetStableCurrencyId run.2 - total_issuance GetStableCurrencyId borrowed in
   Z.abs (issued * DIV * DIV - DIV / 10 * (DIV / 10) * 30000) <= DIV * (DIV + DIV / 10)).
Proof.
  intros run.
  assert (H1 : get_debit_exchange_rate (Token DOT) borrowed <= DIV) by wcheck.
  assert (H2 : fx_saturating_mul (get_debit_exchange_rate (Token DOT) borrowed)
    (compound_interest_rate (get_interest_rate_per_sec (Token DOT) borrowed) 1) <= DIV) by wcheck.
  pose proof (interest_issue_scaled 1 (Token DOT) borrowed (eo_cdp _ borrowed_ok) borrowed_wf H1 H2) as Hw.
  assert (Er : get_debit_exchange_rate (Token DOT) borrowed = DIV / 10) by (vm_compute; reflexivity).
  assert (Ei : fx_saturating_mul (DIV / 10)
    (compound_interest_rate (get_interest_rate_per_sec (Token DOT) borrowed) 1) = DIV / 10) by (vm_compute; reflexivity).
  assert (Ed : debit (total_of (Token DOT) (st_loans borrowed)) = 30000) by (vm_compute; reflexivity).
  rewrite Er, Ei, Ed in Hw.
  assert (E : accumulate_for 1 (Token DOT) borrowed = (Ok tt, run.2)) by (apply run_split; vm_compute; reflexivity).
  exact (wp_ok _ _ _ _ _ _ Hw E).
Defined.

(** ** Honzon *)
Lemma borrowed_backed : authorizations_backed borrowed.
Proof.
  assert (E : st_authorization borrowed = ∅) by (vm_compute; reflexivity).
  assert (L : forall who, cur_reserved_named (st_ledger borrowed) who = 0).
  { intros who. change (l_reserved_of (st_ledger borrowed) who = 0). unfold l_reserved_of.
    replace (l_reserved (st_ledger borrowed)) with (∅ : gmap AccountId N) by (vm_compute; reflexivity). done. }
  split; intros k; [by rewrite E|]. rewrite E, L. unfold deposits. by rewrite map_sum_empty.
Qed.
Lemma authorizations_stay_backed_witness :
  authorizations_backed authorized.
Proof.
  assert (E : run_auth_call (AuthorizeC (Token DOT) (bob : @LookupSource sample)) (Signed alice) borrowed = (Ok tt, authorized)).
  { unfold authorized. apply run_split. vm_compute. reflexivity. }
  exact (proj1 (wp_ok _ _ _ _ _ _
    (authorizations_stay_backed (AuthorizeC (Token DOT) (bob : @LookupSource sample)) (Signed alice) borrowed borrowed_backed) E)).
Defined.
Lemma authorized_ok : engine_ok authorized.
Proof.
  apply (engine_check (DIV / 20)); [by vm_compute|reflexivity|vm_compute; reflexivity|].
  replace (st_loans authorized) with (st_loans borrowed) by (vm_compute; reflexivity). apply borrowed_wf.
Qed.
Lemma loan_calls_spec_witness :
  let run := run_loan_call (TransferLoanFrom (Token DOT) (alice : @LookupSource sample)) (Signed bob) authorized in
  exists who, Signed bob = Signed who /\
    loan_call_effect (TransferLoanFrom (Token DOT) (alice : @LookupSource sample)) who authorized run.2.
Proof.
  intros run. assert (H1 : loan_call_ok (TransferLoanFrom (Token DOT) (alice : @LookupSource sample)) (Signed bob)) by (intros to [= <-]; discriminate).
  apply (wp_ok _ _ _ _ tt run.2 (loan_calls_spec (TransferLoanFrom (Token DOT) (alice : @LookupSource sample)) (Signed bob) authorized H1 authorized_ok)).
  apply run_split. vm_compute. reflexivity.
Defined.
