(* ===== verification/Bytes.v ===== *)
(** * Bytes

    A [u8] is a [Z], a [Vec<u8>] or an array of bytes a [list Z]; big-endian
    numbers are read from and written to them as [from_be_bytes] and
    [to_be_bytes] do, and a slice out of range is a panic. *)
From S2P Require Import Prelude.

Definition is_u8 (b : Z) : Prop := 0 <= b < 256.
Abbreviation bytes := (list Z).

(** [uN::from_be_bytes], [U256::from_big_endian] *)
Definition from_be_bytes (bs : bytes) : Z := foldl (fun acc b => acc * 256 + b) 0 bs.

(** [uN::to_be_bytes] with [n] bytes *)
Fixpoint to_be_bytes (n : nat) (x : Z) : bytes :=
  match n with
  | O => []
  | S n => (x / 256 ^ Z.of_nat n) mod 256 :: to_be_bytes n x
  end.

Definition len (bs : bytes) : Z := Z.of_nat (length bs).

(** [&bs[a..b]] *)
Definition slice (bs : bytes) (a b : Z) : option bytes :=
  if (a <=? b) && (b <=? len bs)
  then Some (take (Z.to_nat (b - a)) (drop (Z.to_nat a) bs)) else None.

(** [bs.starts_with(prefix)] *)
Definition starts_with (bs prefix : bytes) : bool := bool_decide (take (length prefix) bs = prefix).

Section Be.
Lemma foldl_be acc bs :
  foldl (fun acc b => acc * 256 + b) acc bs = acc * 256 ^ len bs + from_be_bytes bs.
Proof.
  revert acc. unfold from_be_bytes, len. induction bs as [|b bs IH]; intros acc; cbn [foldl length].
  - cbn. lia.
  - rewrite IH, (IH (0 * 256 + b)), Nat2Z.inj_succ, Z.pow_succ_r by lia. lia.
Qed.
Lemma from_be_cons b bs : from_be_bytes (b :: bs) = b * 256 ^ len bs + from_be_bytes bs.
Proof. unfold from_be_bytes at 1. cbn [foldl]. rewrite foldl_be. lia. Qed.
Lemma len_app a b : len (a ++ b) = len a + len b.
Proof. unfold len. rewrite length_app. lia. Qed.
Lemma from_be_app a b : from_be_bytes (a ++ b) = from_be_bytes a * 256 ^ len b + from_be_bytes b.
Proof. unfold from_be_bytes at 1. rewrite foldl_app. apply foldl_be. Qed.

Lemma length_to_be n x : length (to_be_bytes n x) = n.
Proof. induction n; cbn [to_be_bytes length]; auto. Qed.
Lemma len_to_be n x : len (to_be_bytes n x) = Z.of_nat n.
Proof. unfold len. by rewrite length_to_be. Qed.
Lemma to_be_u8 n x : Forall is_u8 (to_be_bytes n x).
Proof.
  induction n; cbn [to_be_bytes]; constructor; auto.
  apply Z.mod_pos_bound. lia.
Qed.
Lemma from_to_be n x : from_be_bytes (to_be_bytes n x) = x mod 256 ^ Z.of_nat n.
Proof.
  induction n as [|n IH]; [cbn; by rewrite Z.mod_1_r|].
  cbn [to_be_bytes]. rewrite from_be_cons, IH, len_to_be, Nat2Z.inj_succ, Z.pow_succ_r by lia.
  pose proof (Z.pow_pos_nonneg 256 (Z.of_nat n) ltac:(lia) ltac:(lia)) as Hp.
  rewrite (Z.mul_comm 256 (256 ^ _)), (Z.rem_mul_r x (256 ^ Z.of_nat n) 256) by lia. lia.
Qed.
Lemma from_to_be_small n x :
  0 <= x < 256 ^ Z.of_nat n -> from_be_bytes (to_be_bytes n x) = x.
Proof. intros. by rewrite from_to_be, Z.mod_small. Qed.
Lemma from_be_bound bs : Forall is_u8 bs -> 0 <= from_be_bytes bs < 256 ^ len bs.
Proof.
  induction 1 as [|b bs Hb _ IH]; [by split|]. unfold is_u8 in *.
  rewrite from_be_cons. unfold len. cbn [length]. rewrite Nat2Z.inj_succ, Z.pow_succ_r by lia.
  fold (len bs). nia.
Qed.
Lemma to_be_bytes_add n a x : to_be_bytes n (a * 256 ^ Z.of_nat n + x) = to_be_bytes n x.
Proof.
  enough (forall m, (m <= n)%nat -> to_be_bytes m (a * 256 ^ Z.of_nat n + x) = to_be_bytes m x) by auto.
  induction m as [|m IH]; intros Hm; [done|]. cbn [to_be_bytes]. rewrite IH by lia. f_equal.
  replace (256 ^ Z.of_nat n) with (256 * 256 ^ (Z.of_nat (n - m) - 1) * 256 ^ Z.of_nat m).
  2:{ rewrite <- (Z.pow_succ_r 256 (_ - 1)), <- Z.pow_add_r by lia. f_equal. lia. }
  rewrite !Z.mul_assoc, Z.div_add_l by (apply Z.pow_nonzero; lia).
  rewrite Z.add_comm, (Z.mul_comm a), <- !Z.mul_assoc, (Z.mul_comm 256).
  by rewrite Z.mod_add by lia.
Qed.
Lemma to_from_be bs : Forall is_u8 bs -> to_be_bytes (length bs) (from_be_bytes bs) = bs.
Proof.
  induction 1 as [|b bs Hb Hbs IH]; [done|].
  cbn [length to_be_bytes]. rewrite from_be_cons. fold (len bs).
  pose proof (from_be_bound bs Hbs). unfold len in *.
  rewrite to_be_bytes_add, IH. f_equal. unfold is_u8 in *.
  rewrite Z.div_add_l by lia. rewrite Z.div_small by lia. rewrite Z.mod_small; lia.
Qed.
Lemma to_be_app a b x :
  to_be_bytes (a + b) x = to_be_bytes a (x / 256 ^ Z.of_nat b) ++ to_be_bytes b x.
Proof.
  induction a as [|a IH]; [done|]. cbn [Nat.add to_be_bytes app]. rewrite IH. do 2 f_equal.
  rewrite Z.div_div by (try apply Z.pow_nonzero; try apply Z.pow_pos_nonneg; lia).
  rewrite <- Z.pow_add_r by lia. f_equal. f_equal. lia.
Qed.
Lemma to_be_inj n x y :
  0 <= x < 256 ^ Z.of_nat n -> 0 <= y < 256 ^ Z.of_nat n ->
  to_be_bytes n x = to_be_bytes n y -> x = y.
Proof.
  intros Hx Hy He. rewrite <- (from_to_be_small n x Hx), <- (from_to_be_small n y Hy). congruence.
Qed.
Lemma to_be_zero n : to_be_bytes n 0 = repeat 0 n.
Proof.
  induction n as [|n IH]; [done|]. cbn [to_be_bytes repeat]. by rewrite IH.
Qed.
End Be.

(** A word in the low bits is added to what is above it. *)
Lemma lor_low a b n : 0 <= n -> 0 <= b < 2 ^ n -> Z.lor (a * 2 ^ n) b = a * 2 ^ n + b.
Proof.
  intros Hn Hb. rewrite <- Z.lxor_lor; [symmetry; apply Z.add_nocarry_lxor|];
    (apply Z.bits_inj'; intros i Hi; rewrite Z.land_spec, Z.bits_0;
     destruct (Z.lt_ge_cases i n) as [Hlt|Hge];
     [ by rewrite Z.mul_pow2_bits_low by lia
     | rewrite <- (Z.mod_small b (2 ^ n)) by lia; rewrite Z.mod_pow2_bits_high by lia; apply andb_false_r ]).
Qed.

Section Slice.
Lemma slice_Some bs a b r : 0 <= a ->
  slice bs a b = Some r <->
  a <= b <= len bs /\ r = take (Z.to_nat (b - a)) (drop (Z.to_nat a) bs).
Proof.
  intros Ha. unfold slice. destruct (Z.leb_spec a b), (Z.leb_spec b (len bs)); cbn;
    split; intros; destruct_and?; simplify_eq; try lia; auto.
Qed.
Lemma slice_at bs a n : 0 <= a -> 0 <= n -> a + n <= len bs ->
  slice bs a (a + n) = Some (take (Z.to_nat n) (drop (Z.to_nat a) bs)).
Proof.
  intros. apply slice_Some; [done|]. split; [lia|]. by replace (a + n - a) with n by lia.
Qed.
Lemma slice_None bs a b : slice bs a b = None <-> b < a \/ len bs < b.
Proof.
  unfold slice. destruct (Z.leb_spec a b), (Z.leb_spec b (len bs)); cbn;
    split; intros; simplify_eq; try lia; auto.
Qed.
Lemma slice_middle l m r : slice (l ++ m ++ r) (len l) (len l + len m) = Some m.
Proof.
  apply slice_Some; [unfold len; lia|]. rewrite !len_app. split; [unfold len; lia|].
  unfold len. replace (Z.to_nat (_ + _ - _)) with (length m) by lia.
  by rewrite Nat2Z.id, drop_app_length, take_app_length.
Qed.
Lemma slice_length bs a b r : 0 <= a -> slice bs a b = Some r -> len r = b - a.
Proof.
  intros Ha [Hb ->]%slice_Some; [|done]. unfold len in *.
  rewrite length_take, length_drop. lia.
Qed.
Lemma slice_u8 bs a b r : Forall is_u8 bs -> slice bs a b = Some r -> Forall is_u8 r.
Proof.
  unfold slice. destruct (_ && _); [|done]. intros Hbs [= <-]. by apply Forall_take, Forall_drop.
Qed.
Lemma starts_with_app p r : starts_with (p ++ r) p = true.
Proof. unfold starts_with. apply bool_decide_eq_true. by rewrite take_app_length. Qed.
End Slice.
