(* ===== verification/EvmBridge.v ===== *)
(** * The EVM bridge

    [modules/evm-bridge/src/lib.rs]: the pallet that calls the methods of an
    ERC-20 contract and decodes what it returns.  The EVM itself is the class
    [EVM], the trait of [modules/support/src/lib.rs]; the trait the bridge
    implements is the class [EVMBridge]. *)
From S2P Require Import Prelude FixedPoint Primitives Runtime Bytes.

(** ** The EVM *)
Record InvokeContext := mkInvokeContext {
  ic_contract : EvmAddress;
  ic_sender : EvmAddress;
  ic_origin : EvmAddress }.

Inductive ExecutionMode := Execute | View | EstimateGas.

(** [evm::ExitReason]; the payload of an error is not looked at. *)
Inductive ExitSucceed := Stopped | Returned | Suicided.
Inductive ExitReason :=
  | Succeed (r : ExitSucceed)
  | ExitError (code : Z)
  | Revert
  | Fatal (code : Z).

Record CallInfo := mkCallInfo {
  exit_reason : ExitReason;
  output : bytes;
  used_gas : Z;
  used_storage : Z }.

Class EVM := {
  EvmSt : Type;
  evm_execute : InvokeContext -> bytes -> Balance -> Z -> Z -> ExecutionMode ->
    M DispatchError EvmSt CallInfo;
  evm_get_origin : EvmSt -> option AccountId;
  evm_set_origin : AccountId -> EvmSt -> EvmSt;
  (* [usize::MAX]: 32 bits in the runtime on chain, 64 in a native one *)
  usize_max : Z }.

(** A view discards the state changes, an output is made of bytes, and an
    output fits the memory of the machine. *)
Class EVMLaws `(EVM) := {
  usize_u32 : U32_MAX <= usize_max < 2 ^ 64;
  execute_view c i v g l s : (evm_execute c i v g l View s).2 = s;
  execute_bytes c i v g l m s info s' :
    evm_execute c i v g l m s = (Ok info, s') ->
    Forall is_u8 (output info) /\ len (output info) <= usize_max }.

(** ** The trait [EVMBridge] *)
Class EVMBridge (St : Type) := {
  eb_name : InvokeContext -> M DispatchError St bytes;
  eb_symbol : InvokeContext -> M DispatchError St bytes;
  eb_decimals : InvokeContext -> M DispatchError St Z;
  eb_total_supply : InvokeContext -> M DispatchError St Balance;
  eb_balance_of : InvokeContext -> EvmAddress -> M DispatchError St Balance;
  eb_transfer : InvokeContext -> EvmAddress -> Balance -> M DispatchError St unit;
  eb_get_origin : St -> option AccountId;
  eb_set_origin : AccountId -> St -> St }.

(** What a client may rely on: asking a contract changes nothing. *)
Class EVMBridgeLaws {St} (B : EVMBridge St) := {
  eb_name_view c s : (eb_name c s).2 = s;
  eb_symbol_view c s : (eb_symbol c s).2 = s;
  eb_decimals_view c s : (eb_decimals c s).2 = s;
  eb_decimals_u8 c s d s' : eb_decimals c s = (Ok d, s') -> is_u8 d }.

Definition METHOD_NAME : Z := 0x06fdde03.
Definition METHOD_SYMBOL : Z := 0x95d89b41.
Definition METHOD_DECIMALS : Z := 0x313ce567.
Definition METHOD_TOTAL_SUPPLY : Z := 0x18160ddd.
Definition METHOD_BALANCE_OF : Z := 0x70a08231.
Definition METHOD_TRANSFER : Z := 0xa9059cbb.

(** ** Decoding *)
Section Decode.
Context (usize_max : Z).

(** [U256::as_usize] panics beyond the machine's words. *)
Definition as_usize (x : Z) : outcome DispatchError Z :=
  if x <=? usize_max then Ok x else Panic.

(** An addition of machine words wraps. *)
Definition usize_add (a b : Z) : Z := (a + b) mod (usize_max + 1).

(** Indexing out of range panics. *)
Definition index_range (bs : bytes) (a b : Z) : outcome DispatchError bytes :=
  match slice bs a b with Some r => Ok r | None => Panic end.

(** [U256::from(&[u8])] asserts at most 32 bytes. *)
Definition u256_from_slice (bs : bytes) : outcome DispatchError Z :=
  if len bs <=? 32 then Ok (from_be_bytes bs) else Panic.

Definition handle_exit_reason (r : ExitReason) : outcome DispatchError unit :=
  match r with
  | Succeed Returned => Ok tt
  | Succeed Stopped => Ok tt
  | Succeed _ => Err (EvmBridgeE EvmBridgeError.ExecutionFail)
  | Revert => Err (EvmBridgeE EvmBridgeError.ExecutionRevert)
  | Fatal _ => Err (EvmBridgeE EvmBridgeError.ExecutionFatal)
  | ExitError _ => Err (EvmBridgeE EvmBridgeError.ExecutionError)
  end.

Definition decode_string (output : bytes) : outcome DispatchError bytes :=
  oensure ((64 <=? len output) && (len output mod 32 =? 0))
    (EvmBridgeE EvmBridgeError.InvalidReturnValue);;
  word ← index_range output 0 32;
  let offset := from_be_bytes word in
  offset_usize ← as_usize offset;
  length_word ← index_range output offset_usize (usize_add offset_usize 32);
  length_usize ← as_usize (from_be_bytes length_word);
  oensure (usize_add (usize_add offset_usize 32) length_usize <=? len output)
    (EvmBridgeE EvmBridgeError.InvalidReturnValue);;
  index_range output (usize_add offset_usize 32)
    (usize_add (usize_add offset_usize 32) length_usize).
End Decode.

(** [H256::from(H160)] and [H256::from_uint(&U256)] as bytes *)
Definition h256_from_address (a : EvmAddress) : bytes := repeat 0 12 ++ to_be_bytes 20 (Z.of_N a).
Definition h256_from_uint (x : Z) : bytes := to_be_bytes 32 x.

(** ** The pallet *)
Section Bridge.
Context `{E : EVM}.

Definition lift {A} (o : outcome DispatchError A) : M DispatchError EvmSt A := fun s => (o, s).

(** [name]: a view of at most 2,100,000 gas *)
Definition bridge_name (context : InvokeContext) : M DispatchError EvmSt bytes :=
  let input := to_be_bytes 4 METHOD_NAME in
  info ← evm_execute context input 0 2100000 0 View;
  lift (handle_exit_reason (exit_reason info));;
  lift (decode_string usize_max (output info)).

Definition bridge_symbol (context : InvokeContext) : M DispatchError EvmSt bytes :=
  let input := to_be_bytes 4 METHOD_SYMBOL in
  info ← evm_execute context input 0 2100000 0 View;
  lift (handle_exit_reason (exit_reason info));;
  lift (decode_string usize_max (output info)).

Definition bridge_decimals (context : InvokeContext) : M DispatchError EvmSt Z :=
  let input := to_be_bytes 4 METHOD_DECIMALS in
  info ← evm_execute context input 0 2100000 0 View;
  lift (handle_exit_reason (exit_reason info));;
  ensure (len (output info) =? 32) (EvmBridgeE EvmBridgeError.InvalidReturnValue);;
  value ← lift (u256_from_slice (output info));
  mret (Z.min value 255).

Definition bridge_total_supply (context : InvokeContext) : M DispatchError EvmSt Balance :=
  let input := to_be_bytes 4 METHOD_TOTAL_SUPPLY in
  info ← evm_execute context input 0 2100000 0 View;
  lift (handle_exit_reason (exit_reason info));;
  ensure (len (output info) =? 32) (EvmBridgeE EvmBridgeError.InvalidReturnValue);;
  value ← lift (u256_from_slice (output info));
  mret (Z.min value U128_MAX).

Definition bridge_balance_of (context : InvokeContext) (address : EvmAddress) :
    M DispatchError EvmSt Balance :=
  let input := to_be_bytes 4 METHOD_BALANCE_OF ++ h256_from_address address in
  info ← evm_execute context input 0 2100000 0 View;
  lift (handle_exit_reason (exit_reason info));;
  value ← lift (u256_from_slice (output info));
  mret (Z.min value U128_MAX).

Definition bridge_transfer (context : InvokeContext) (to : EvmAddress) (value : Balance) :
    M DispatchError EvmSt unit :=
  let input := to_be_bytes 4 METHOD_TRANSFER ++ h256_from_address to ++ h256_from_uint value in
  let storage_limit := if (ic_origin context =? 0)%N then 0 else 1000 in
  info ← evm_execute context input 0 2100000 storage_limit Execute;
  lift (handle_exit_reason (exit_reason info));;
  ensure (negb (len (output info) =? 0) && bool_decide (output info = h256_from_uint 1))
    (EvmBridgeE EvmBridgeError.InvalidReturnValue).

#[export] Instance evm_bridge : EVMBridge EvmSt := {
  eb_name := bridge_name;
  eb_symbol := bridge_symbol;
  eb_decimals := bridge_decimals;
  eb_total_supply := bridge_total_supply;
  eb_balance_of := bridge_balance_of;
  eb_transfer := bridge_transfer;
  eb_get_origin := evm_get_origin;
  eb_set_origin := evm_set_origin }.
End Bridge.

(** ** What a string decodes to *)
Section Strings.
Context (usize_max : Z) (Hmax : U32_MAX <= usize_max).

(** The reference decoder, in unbounded arithmetic. *)
Definition abi_decode (output : bytes) : outcome DispatchError bytes :=
  if (len output <? 64) || negb (len output mod 32 =? 0)
  then Err (EvmBridgeE EvmBridgeError.InvalidReturnValue) else
  let offset := from_be_bytes (take 32 output) in
  if len output <? offset + 32 then Panic else
  let length := from_be_bytes (take 32 (drop (Z.to_nat offset) output)) in
  if usize_max <? offset + 32 + length then Panic else
  if len output <? offset + 32 + length
  then Err (EvmBridgeE EvmBridgeError.InvalidReturnValue)
  else Ok (take (Z.to_nat length) (drop (Z.to_nat (offset + 32)) output)).

Lemma usize_add_small a b : 0 <= a + b <= usize_max -> usize_add usize_max a b = a + b.
Proof. intros. apply Z.mod_small. lia. Qed.
Lemma usize_add_wraps a b : 0 <= a <= usize_max -> 0 <= b <= usize_max -> usize_max < a + b ->
  0 <= usize_add usize_max a b < a.
Proof.
  intros Ha Hb Hab. unfold usize_add.
  assert (Hm : (a + b) mod (usize_max + 1) = a + b - (usize_max + 1)).
  { symmetry. apply (Z.mod_unique_pos _ _ 1); lia. }
  rewrite Hm. lia.
Qed.

Lemma obind_Ok_l {A B} (a : A) (k : A -> outcome DispatchError B) : (Ok a ≫= k) = k a.
Proof. done. Qed.
Lemma as_usize_fits n : n <= usize_max -> as_usize usize_max n = Ok n.
Proof. intros. unfold as_usize. by rewrite (proj2 (Z.leb_le _ _)). Qed.
Lemma as_usize_panics n : usize_max < n -> as_usize usize_max n = Panic.
Proof. intros. unfold as_usize. by rewrite (proj2 (Z.leb_gt _ _)). Qed.
Lemma index_range_Some bs a b r : slice bs a b = Some r -> index_range bs a b = Ok r.
Proof. unfold index_range. by intros ->. Qed.
Lemma index_range_None bs a b : b < a \/ len bs < b -> index_range bs a b = Panic.
Proof. unfold index_range. by intros ->%slice_None. Qed.

(** Reading the data part: a word count that does not fit the machine's words
    is a panic, one that exceeds the output an error. *)
Lemma read_data output at_ n :
  0 <= at_ <= len output -> len output <= usize_max -> 0 <= n ->
  (length_usize ← as_usize usize_max n;
   oensure (usize_add usize_max at_ length_usize <=? len output)
     (EvmBridgeE EvmBridgeError.InvalidReturnValue);;
   index_range output at_ (usize_add usize_max at_ length_usize)) =
  if usize_max <? at_ + n then Panic else
  if len output <? at_ + n then Err (EvmBridgeE EvmBridgeError.InvalidReturnValue)
  else Ok (take (Z.to_nat n) (drop (Z.to_nat at_) output)).
Proof.
  intros Hat Hlen Hn. destruct (Z.ltb_spec usize_max n) as [Hu|Hu].
  { rewrite as_usize_panics by done. by rewrite (proj2 (Z.ltb_lt usize_max (at_ + n))) by lia. }
  rewrite as_usize_fits, obind_Ok_l by done. unfold oensure.
  destruct (Z.ltb_spec usize_max (at_ + n)) as [Hw|Hw].
  - pose proof (usize_add_wraps at_ n ltac:(lia) ltac:(lia) Hw) as Hwrap.
    rewrite (proj2 (Z.leb_le _ (len output))), obind_Ok_l by lia.
    apply index_range_None. lia.
  - rewrite usize_add_small by lia. destruct (Z.ltb_spec (len output) (at_ + n)) as [Hl|Hl].
    + by rewrite (proj2 (Z.leb_gt _ _)) by lia.
    + rewrite (proj2 (Z.leb_le _ _)), obind_Ok_l by lia.
      apply index_range_Some, slice_at; lia.
Qed.

Lemma decode_string_abi output :
  Forall is_u8 output -> len output <= usize_max ->
  decode_string usize_max output = abi_decode output.
Proof.
  intros Hu8 Hlen. unfold decode_string, abi_decode. rewrite Z.ltb_antisym, <- negb_andb.
  destruct ((64 <=? len output) && (len output mod 32 =? 0)) eqn:Hc; [|done].
  apply andb_prop in Hc as [H64 _]. apply Z.leb_le in H64.
  change (oensure true (EvmBridgeE EvmBridgeError.InvalidReturnValue))
    with (Ok tt : outcome DispatchError unit).
  rewrite obind_Ok_l. cbn [negb].
  pose proof (slice_at output 0 32 ltac:(lia) ltac:(lia) ltac:(lia)) as Hsl.
  rewrite (index_range_Some output 0 32 _ Hsl), obind_Ok_l. clear Hsl. cbv beta zeta.
  change (drop (Z.to_nat 0) output) with output. change (Z.to_nat 32) with 32%nat.
  pose proof (from_be_bound _ (Forall_take _ 32 _ Hu8)) as [Ho _].
  set (offset := from_be_bytes (take 32 output)) in *. clearbody offset.
  destruct (Z.ltb_spec usize_max offset) as [Hof|Hof].
  { rewrite as_usize_panics by done. by rewrite (proj2 (Z.ltb_lt _ _)) by lia. }
  rewrite (as_usize_fits offset), obind_Ok_l by done.
  destruct (Z.ltb_spec (len output) (offset + 32)) as [Hs|Hs].
  - rewrite index_range_None; [done|].
    destruct (Z.leb_spec (offset + 32) usize_max) as [Hx|Hx].
    + rewrite usize_add_small by lia. lia.
    + pose proof (usize_add_wraps offset 32 ltac:(lia) ltac:(unfold U32_MAX in *; lia) Hx). lia.
  - rewrite usize_add_small by lia.
    rewrite (index_range_Some _ _ _ _ (slice_at output offset 32 Ho ltac:(lia) ltac:(lia))).
    rewrite obind_Ok_l. apply read_data; [lia|done|].
    apply from_be_bound, Forall_take, Forall_drop, Hu8.
Qed.

(** [abi.encode(string)]: offset, length, data, padding *)
Definition abi_string (s padding : bytes) : bytes :=
  to_be_bytes 32 32 ++ to_be_bytes 32 (len s) ++ s ++ padding.

Lemma len_nonneg bs : 0 <= len bs.
Proof. unfold len. lia. Qed.

Lemma abi_decode_string s padding :
  len (s ++ padding) mod 32 = 0 -> 64 + len s <= usize_max -> usize_max < 256 ^ 32 ->
  abi_decode (abi_string s padding) = Ok s.
Proof.
  intros Hal Hfit Hsm. unfold abi_decode, abi_string.
  pose proof (len_nonneg s). pose proof (len_nonneg (s ++ padding)).
  assert (Hl : len (to_be_bytes 32 32 ++ to_be_bytes 32 (len s) ++ s ++ padding)
             = 2 * 32 + len (s ++ padding)).
  { rewrite len_app, (len_app (to_be_bytes 32 (len s))), !len_to_be. lia. }
  rewrite Hl. rewrite (Z.add_comm (2 * 32)), Z.mod_add, Hal by lia.
  rewrite (proj2 (Z.ltb_ge (len (s ++ padding) + 2 * 32) 64)) by lia. cbn [orb negb Z.eqb].
  assert (Ht : take 32 (to_be_bytes 32 32 ++ to_be_bytes 32 (len s) ++ s ++ padding)
             = to_be_bytes 32 32) by (apply take_app_length'; by rewrite length_to_be).
  rewrite Ht, (from_to_be_small 32 32) by lia.
  assert (Hd : drop (Z.to_nat 32) (to_be_bytes 32 32 ++ to_be_bytes 32 (len s) ++ s ++ padding)
             = to_be_bytes 32 (len s) ++ s ++ padding) by (apply drop_app_length'; by rewrite length_to_be).
  rewrite Hd.
  assert (Ht2 : take 32 (to_be_bytes 32 (len s) ++ s ++ padding) = to_be_bytes 32 (len s))
    by (apply take_app_length'; by rewrite length_to_be).
  rewrite Ht2, from_to_be_small by (change (Z.of_nat 32) with 32; lia).
  rewrite len_app in *. pose proof (len_nonneg padding).
  rewrite !(proj2 (Z.ltb_ge _ _)) by lia. f_equal.
  rewrite app_assoc, drop_app_length' by (by rewrite length_app, !length_to_be).
  unfold len. rewrite Nat2Z.id. apply take_app_length.
Qed.

Lemma abi_decode_outside output offset rest :
  0 <= offset < 256 ^ 32 -> output = to_be_bytes 32 offset ++ rest ->
  0 < len rest -> len rest mod 32 = 0 -> len rest < offset -> abi_decode output = Panic.
Proof.
  intros Ho -> Hpos Hal Hlt. unfold abi_decode.
  rewrite len_app, len_to_be. change (Z.of_nat 32) with 32.
  rewrite (take_app_length' _ rest 32%nat), (from_to_be_small 32 offset)
    by (rewrite ?length_to_be; done).
  assert (32 <= len rest) by (pose proof (Z.div_mod (len rest) 32); lia).
  rewrite (proj2 (Z.ltb_ge _ 64)) by lia.
  replace ((32 + len rest) mod 32) with (len rest mod 32)
    by (rewrite <- (Z.mod_add (len rest) 1 32) by lia; f_equal; lia).
  rewrite Hal. cbn [orb negb Z.eqb]. by rewrite (proj2 (Z.ltb_lt _ _)) by lia.
Qed.
End Strings.

(** ** What a contract answers *)
Section Answers.
Context {Ev : EVM} {Lw : EVMLaws Ev}.

(** The contract ran to its end in a view and returned [info]. *)
Definition answers (c : InvokeContext) (input : bytes) (s : EvmSt) (info : CallInfo) : Prop :=
  evm_execute c input 0 2100000 0 View s = (Ok info, s) /\
  (exit_reason info = Succeed Returned \/ exit_reason info = Succeed Stopped).

Lemma answers_exit c input s info : answers c input s info ->
  handle_exit_reason (exit_reason info) = Ok tt.
Proof. by intros [_ [-> | ->]]. Qed.
Lemma answers_output c input s info : answers c input s info ->
  Forall is_u8 (output info) /\ len (output info) <= usize_max.
Proof. intros [H _]. by eapply execute_bytes. Qed.

(** After an answer, a view continues with the output, in the same state. *)
Lemma view_answer {A} c input s info (k : CallInfo -> M DispatchError EvmSt A) :
  answers c input s info ->
  (info ← evm_execute c input 0 2100000 0 View;
   lift (handle_exit_reason (exit_reason info));; k info) s = k info s.
Proof.
  intros Ha. pose proof (answers_exit _ _ _ _ Ha) as He. destruct Ha as [H _].
  unfold mbind, M_bind, lift. by rewrite H, He.
Qed.

Lemma name_answer c s info : answers c (to_be_bytes 4 METHOD_NAME) s info ->
  bridge_name c s = (abi_decode usize_max (output info), s).
Proof.
  intros Ha. unfold bridge_name. rewrite (view_answer _ _ _ _ _ Ha). unfold lift. f_equal.
  destruct (answers_output _ _ _ _ Ha). destruct usize_u32. by apply decode_string_abi.
Qed.

(** Whatever the EVM does, a view ends in the state it began in. *)
Lemma view_state {A} c input s (k : CallInfo -> M DispatchError EvmSt A) :
  (forall info t, (k info t).2 = t) ->
  ((info ← evm_execute c input 0 2100000 0 View;
    lift (handle_exit_reason (exit_reason info));; k info) s).2 = s.
Proof.
  intros Hk. pose proof (execute_view c input 0 2100000 0 s) as Hv.
  unfold mbind, M_bind, lift. destruct (evm_execute _ _ _ _ _ _ s) as [[info|e|] t]; cbn in Hv; subst; [|done..].
  destruct (handle_exit_reason _); [apply Hk|done..].
Qed.

Lemma bridge_decimals_u8 c s d s' : bridge_decimals c s = (Ok d, s') -> is_u8 d.
Proof.
  unfold bridge_decimals. cbv zeta. intros H.
  apply bind_Ok_inv in H as (info & t & Hx & H). apply bind_Ok_inv in H as (u & t1 & _ & H).
  apply bind_Ok_inv in H as (u' & t2 & _ & H). apply bind_Ok_inv in H as (v & t3 & Hv & H).
  unfold lift, u256_from_slice in Hv. destruct (_ <=? _); [|done]. injection Hv as <- <-.
  injection H as <- <-. apply execute_bytes in Hx as [Hb _].
  pose proof (from_be_bound _ Hb) as [? _]. unfold is_u8. lia.
Qed.

#[export] Instance evm_bridge_laws : EVMBridgeLaws evm_bridge.
Proof.
  constructor.
  - intros. by apply view_state.
  - intros. by apply view_state.
  - intros. apply (view_state c _ s). intros info t. unfold mbind, M_bind, ensure, lift.
    destruct (_ =? 32); [|done]. cbn. by destruct (u256_from_slice _).
  - intros c s d s'. apply bridge_decimals_u8.
Qed.

(** C37: what [name] and [balance_of] make of a contract's answer, all of it
    without a change of state.  [name] is the reference decoder of the output,
    which is inverse to the encoding of strings; but an output whose offset
    points outside of it aborts the runtime, and so does a balance of more than
    32 bytes. *)
Theorem erc20_views_spec (c : InvokeContext) (a : EvmAddress) (s : EvmSt) (info : CallInfo)
    (name_input := to_be_bytes 4 METHOD_NAME)
    (balance_input := to_be_bytes 4 METHOD_BALANCE_OF ++ h256_from_address a) :
  (answers c name_input s info ->
   bridge_name c s = (abi_decode usize_max (output info), s) /\
   (forall st padding, output info = abi_string st padding -> len (st ++ padding) mod 32 = 0 ->
      bridge_name c s = (Ok st, s)) /\
   (forall offset rest, 0 <= offset < 256 ^ 32 -> output info = to_be_bytes 32 offset ++ rest ->
      0 < len rest -> len rest mod 32 = 0 -> len rest < offset ->
      bridge_name c s = (Panic, s))) /\
  (answers c balance_input s info ->
   bridge_balance_of c a s =
     (if len (output info) <=? 32 then Ok (Z.min (from_be_bytes (output info)) U128_MAX)
      else Panic, s)).
Proof.
  split.
  - intros Ha. pose proof (name_answer _ _ _ Ha) as Hn. split_and!; [done| |]; rewrite Hn.
    + intros st padding Ho Hal. f_equal. pose proof (answers_output _ _ _ _ Ha) as [_ Hl].
      pose proof usize_u32 as Hu. rewrite Ho in *. apply abi_decode_string; [done| |lia].
      unfold abi_string in Hl. rewrite !len_app, !len_to_be in Hl.
      pose proof (len_nonneg padding). lia.
    + intros offset rest Hoff Ho Hpos Hal Hlt. f_equal. apply abi_decode_outside with offset rest; done.
  - intros Ha. unfold bridge_balance_of. rewrite (view_answer _ _ _ _ _ Ha).
    unfold mbind, M_bind, lift, u256_from_slice. by destruct (_ <=? _).
Qed.
End Answers.
