(* ===== verification/EvmManager.v ===== *)
(** * Currencies as EVM addresses

    [modules/evm-manager/src/lib.rs], with the conversions of
    [primitives/src/currency.rs] and the layout of [primitives/src/lib.rs]: the
    registry of ERC-20 contracts by four bytes of their address, and the
    encoding of every currency as an address a contract can call. *)
From S2P Require Import Prelude FixedPoint Primitives Runtime Bytes EvmBridge.

(** ** Layout of the reserved addresses *)
Definition H160_PREFIX_TOKEN : bytes := repeat 0 16 ++ [1; 0; 0].
Definition H160_PREFIX_DEXSHARE : bytes := repeat 0 11 ++ [1].
Definition H160_POSITION_TOKEN : nat := 19.
Definition H160_POSITION_DEXSHARE_LEFT : Z * Z := (12, 16).
Definition H160_POSITION_DEXSHARE_RIGHT : Z * Z := (16, 20).
Definition MIRRORED_TOKENS_ADDRESS_START : Z := 0x1000000.

(** [H160::as_bytes] *)
Definition as_bytes (a : EvmAddress) : bytes := to_be_bytes 20 (Z.of_N a).
(** [H160::from_low_u64_be] *)
Definition from_low_u64_be (x : Z) : EvmAddress := Z.to_N x.
(** [EvmAddress::default()] with a prefix copied in *)
Definition with_prefix (prefix : bytes) : EvmAddress :=
  Z.to_N (from_be_bytes (prefix ++ repeat 0 (20 - length prefix))).

(** ** [primitives/src/currency.rs] *)

(** [take_while(is_zero).count()] *)
Fixpoint leading_zeros (bs : bytes) : nat :=
  match bs with
  | b :: bs => if b =? 0 then S (leading_zeros bs) else O
  | [] => O
  end.

(** [From<DexShare> for u32] *)
Definition share_to_u32 (val : DexShare) : Z :=
  let bytes := match val with
    | Share_Token token => [0; 0; 0; token_to_u8 token]
    | Share_Erc20 address =>
        let zeros := leading_zeros (as_bytes address) in
        let index := if (16 <? zeros)%nat then 16%nat else zeros in
        take 4 (drop index (as_bytes address))
    end in
  from_be_bytes bytes.

(** [TokenInfo::currency_id], [name] and [symbol] *)
Definition token_info_currency_id (c : CurrencyId) : option Z :=
  match c with Token t => Some (token_to_u8 t) | _ => None end.
Definition token_name (t : TokenSymbol) : string :=
  match t with
  | ACA => "Acala" | AUSD => "Acala Dollar" | DOT => "Polkadot" | LDOT => "Liquid DOT"
  | RENBTC => "Ren Protocol BTC"
  | KAR => "Karura" | KUSD => "Karura Dollar" | KSM => "Kusama" | LKSM => "Liquid KSM"
  | CASH => "Compound CASH"
  end.
Definition token_symbol (t : TokenSymbol) : string :=
  match t with
  | ACA => "ACA" | AUSD => "AUSD" | DOT => "DOT" | LDOT => "LDOT" | RENBTC => "RENBTC"
  | KAR => "KAR" | KUSD => "KUSD" | KSM => "KSM" | LKSM => "LKSM"
  | CASH => "CASH"
  end.
(** [str::as_bytes] *)
Definition string_bytes (s : string) : bytes :=
  map (fun c => Z.of_N (Ascii.N_of_ascii c)) (String.list_ascii_of_string s).
Definition token_info_name (c : CurrencyId) : option bytes :=
  match c with Token t => Some (string_bytes (token_name t)) | _ => None end.
Definition token_info_symbol (c : CurrencyId) : option bytes :=
  match c with Token t => Some (string_bytes (token_symbol t)) | _ => None end.

(** The address of a share of two identifiers *)
Definition share_address (symbol_0 symbol_1 : Z) : EvmAddress :=
  N.lor (with_prefix H160_PREFIX_DEXSHARE)
    (from_low_u64_be (Z.lor (Z.shiftl symbol_0 32) symbol_1)).

(** [TryFrom<CurrencyId> for EvmAddress] *)
Definition evm_address_try_from (val : CurrencyId) : option EvmAddress :=
  match val with
  | Token _ =>
      id ← token_info_currency_id val;
      Some (from_low_u64_be (Z.lor MIRRORED_TOKENS_ADDRESS_START id))
  | CDexShare token_symbol_0 token_symbol_1 =>
      symbol_0 ← match token_symbol_0 with
                 | Share_Token token => token_info_currency_id (Token token)
                 | Share_Erc20 _ => None end;
      symbol_1 ← match token_symbol_1 with
                 | Share_Token token => token_info_currency_id (Token token)
                 | Share_Erc20 _ => None end;
      Some (share_address symbol_0 symbol_1)
  | Erc20 address => Some address
  | ChainSafe _ => None
  end.

(** ** The registry *)
Record Erc20Info := mkErc20Info {
  erc20_address : EvmAddress;
  erc20_name : bytes;
  erc20_symbol : bytes;
  erc20_decimals : Z }.

(** [CurrencyIdMap], by the four bytes of the address *)
Abbreviation Registry := (gmap Z Erc20Info).

Section Lookup.
Context (CurrencyIdMap : Registry).

Definition get_evm_address (id : Z) : option EvmAddress :=
  erc20_address <$> CurrencyIdMap !! id.

(** [CurrencyIdMap::get(id).filter(|v| v.address == address)] *)
Definition registered (address : EvmAddress) : option Erc20Info :=
  match CurrencyIdMap !! share_to_u32 (Share_Erc20 address) with
  | Some v => if (erc20_address v =? address)%N then Some v else None
  | None => None
  end.

(** One side of a share: of its token, or of the registered contract *)
Definition share_info {A} (token : CurrencyId -> option A) (erc20 : Erc20Info -> A)
    (symbol : DexShare) : option A :=
  match symbol with
  | Share_Token symbol => token (Token symbol)
  | Share_Erc20 address => erc20 <$> registered address
  end.

Definition truncate (bs : bytes) : bytes := if 32 <? len bs then take 32 bs else bs.

Definition mapping_name (currency_id : CurrencyId) : option bytes :=
  truncate <$>
  match currency_id with
  | Token _ => token_info_name currency_id
  | CDexShare symbol_0 symbol_1 =>
      name_0 ← share_info token_info_name erc20_name symbol_0;
      name_1 ← share_info token_info_name erc20_name symbol_1;
      Some (string_bytes "LP " ++ name_0 ++ string_bytes " - " ++ name_1)
  | Erc20 address => erc20_name <$> registered address
  | ChainSafe _ => None
  end.

Definition mapping_symbol (currency_id : CurrencyId) : option bytes :=
  truncate <$>
  match currency_id with
  | Token _ => token_info_symbol currency_id
  | CDexShare symbol_0 symbol_1 =>
      token_symbol_0 ← share_info token_info_symbol erc20_symbol symbol_0;
      token_symbol_1 ← share_info token_info_symbol erc20_symbol symbol_1;
      Some (string_bytes "LP_" ++ token_symbol_0 ++ string_bytes "_" ++ token_symbol_1)
  | Erc20 address => erc20_symbol <$> registered address
  | ChainSafe _ => None
  end.

Definition mapping_decimals (currency_id : CurrencyId) : option Z :=
  match currency_id with
  | Token _ => token_info_decimals currency_id
  | CDexShare symbol_0 symbol_1 =>
      decimals_0 ← share_info token_info_decimals erc20_decimals symbol_0;
      decimals_1 ← share_info token_info_decimals erc20_decimals symbol_1;
      Some (Z.max decimals_0 decimals_1)
  | Erc20 address => erc20_decimals <$> registered address
  | ChainSafe _ => None
  end.

(** The identifier of one side of a share *)
Definition share_id (side : DexShare) : option Z :=
  match side with
  | Share_Token _ => Some (share_to_u32 side)
  | Share_Erc20 address => (fun _ => share_to_u32 side) <$> registered address
  end.

Definition encode_evm_address (v : CurrencyId) : option EvmAddress :=
  match v with
  | CDexShare share_left share_right =>
      symbol_0 ← share_id share_left;
      symbol_1 ← share_id share_right;
      Some (share_address symbol_0 symbol_1)
  | _ => evm_address_try_from v
  end.

(** One side of a share, from four bytes of an address *)
Definition decode_side (word : bytes) : option DexShare :=
  if starts_with word [0; 0; 0]
  then Share_Token <$> (b ← word !! 3%nat; token_try_from_u8 b)
  else Share_Erc20 <$> get_evm_address (from_be_bytes word).

Definition decode_evm_address (addr : EvmAddress) : option CurrencyId :=
  let address := as_bytes addr in
  if starts_with address H160_PREFIX_TOKEN then
    Token <$> (b ← address !! H160_POSITION_TOKEN; token_try_from_u8 b)
  else if starts_with address H160_PREFIX_DEXSHARE then
    l ← slice address H160_POSITION_DEXSHARE_LEFT.1 H160_POSITION_DEXSHARE_LEFT.2;
    share_left ← decode_side l;
    r ← slice address H160_POSITION_DEXSHARE_RIGHT.1 H160_POSITION_DEXSHARE_RIGHT.2;
    share_right ← decode_side r;
    Some (CDexShare share_left share_right)
  else Erc20 <$> get_evm_address (share_to_u32 (Share_Erc20 addr)).
End Lookup.

(** ** [set_erc20_mapping] *)
Section Manager.
Context {St : Type} `{B : EVMBridge St}.

Record ManagerSt := mkManager { CurrencyIdMap : Registry; mgr_evm : St }.

(** A call of the EVM inside the pallet *)
Definition in_evm {A} (m : M DispatchError St A) : M DispatchError ManagerSt A := fun s =>
  let r := m (mgr_evm s) in (r.1, mkManager (CurrencyIdMap s) r.2).

Definition set_erc20_mapping (address : EvmAddress) : M DispatchError ManagerSt unit :=
  let id := share_to_u32 (Share_Erc20 address) in
  maybe_erc20_info ← gets (fun s => CurrencyIdMap s !! id);
  match maybe_erc20_info with
  | Some erc20_info =>
      ensure (erc20_address erc20_info =? address)%N (EvmManagerE EvmManagerError.CurrencyIdExisted)
  | None =>
      let invoke_context := mkInvokeContext address 0%N 0%N in
      name ← in_evm (eb_name invoke_context);
      symbol ← in_evm (eb_symbol invoke_context);
      decimals ← in_evm (eb_decimals invoke_context);
      let info := mkErc20Info address name symbol decimals in
      modify (fun s => mkManager (<[id := info]> (CurrencyIdMap s)) (mgr_evm s))
  end.
End Manager.
Arguments ManagerSt : clear implicits.

(** ** The layout, byte by byte *)
Section Layout.
(** A contract outside the addresses the chain reserves for its currencies, and
    outside the first 256. *)
Definition unreserved (a : EvmAddress) : Prop :=
  256 <= Z.of_N a < 2 ^ 160 /\
  starts_with (as_bytes a) H160_PREFIX_TOKEN = false /\
  starts_with (as_bytes a) H160_PREFIX_DEXSHARE = false.

Lemma length_as_bytes a : length (as_bytes a) = 20%nat.
Proof. apply length_to_be. Qed.
Lemma from_as_bytes a : Z.of_N a < 2 ^ 160 -> from_be_bytes (as_bytes a) = Z.of_N a.
Proof.
  intros. apply from_to_be_small. replace (256 ^ Z.of_nat 20) with (2 ^ 160) by reflexivity. lia.
Qed.

Lemma leading_zeros_spec bs :
  bs = repeat 0 (leading_zeros bs) ++ drop (leading_zeros bs) bs /\
  (forall b rest, drop (leading_zeros bs) bs = b :: rest -> b <> 0).
Proof.
  induction bs as [|b bs [IH1 IH2]]; [done|]. cbn [leading_zeros].
  destruct (Z.eqb_spec b 0) as [->|Hb]; cbn [repeat app drop].
  - split; [by f_equal|done].
  - split; [done|]. by intros ? ? [= <- <-].
Qed.
Lemma from_be_zeros n bs : from_be_bytes (repeat 0 n ++ bs) = from_be_bytes bs.
Proof.
  induction n as [|n IH]; [done|]. cbn [repeat app]. rewrite from_be_cons, IH. lia.
Qed.

(** The four bytes a contract is registered under *)
Definition erc20_word (a : EvmAddress) : bytes :=
  let zeros := leading_zeros (as_bytes a) in
  take 4 (drop (if (16 <? zeros)%nat then 16%nat else zeros) (as_bytes a)).

Lemma share_to_u32_erc20 a : share_to_u32 (Share_Erc20 a) = from_be_bytes (erc20_word a).
Proof. done. Qed.
Lemma erc20_word_index a :
  ((if 16 <? leading_zeros (as_bytes a) then 16 else leading_zeros (as_bytes a)) <= 16)%nat.
Proof. destruct (Nat.ltb_spec 16 (leading_zeros (as_bytes a))); lia. Qed.
Lemma length_erc20_word a : length (erc20_word a) = 4%nat.
Proof.
  pose proof (erc20_word_index a). unfold erc20_word. cbv zeta.
  rewrite length_take, length_drop, length_as_bytes. lia.
Qed.
Lemma erc20_word_u8 a : Forall is_u8 (erc20_word a).
Proof. apply Forall_take, Forall_drop, to_be_u8. Qed.
Lemma share_to_u32_bound d : 0 <= share_to_u32 d < 2 ^ 32.
Proof.
  destruct d as [t|a]; [destruct t; vm_compute; by split|].
  rewrite share_to_u32_erc20. pose proof (from_be_bound _ (erc20_word_u8 a)) as H.
  unfold len in H. by rewrite length_erc20_word in H.
Qed.

(** Above 255 the word is not that of a token. *)
Lemma erc20_word_not_token a :
  256 <= Z.of_N a < 2 ^ 160 -> starts_with (erc20_word a) [0; 0; 0] = false.
Proof.
  intros Ha. pose proof (length_erc20_word a) as Hl. pose proof (erc20_word_u8 a) as Hu.
  unfold starts_with. apply bool_decide_eq_false. intros Hz.
  destruct (leading_zeros_spec (as_bytes a)) as [Hs Hnz].
  unfold erc20_word in *. destruct (Nat.ltb_spec 16 (leading_zeros (as_bytes a))) as [Hk|Hk].
  - pose proof (from_as_bytes a ltac:(lia)) as Hf. rewrite Hs in Hf.
    replace (leading_zeros (as_bytes a)) with (16 + (leading_zeros (as_bytes a) - 16))%nat in Hf by lia.
    rewrite repeat_app, <- app_assoc, from_be_zeros in Hf.
    assert (Hd : drop 16 (as_bytes a) = repeat 0 (leading_zeros (as_bytes a) - 16)
      ++ drop (16 + (leading_zeros (as_bytes a) - 16)) (as_bytes a)).
    { rewrite Hs at 1. replace (leading_zeros (as_bytes a)) with (16 + (leading_zeros (as_bytes a) - 16))%nat
        at 1 2 by lia.
      rewrite repeat_app, <- app_assoc. by apply drop_app_length'. }
    rewrite <- Hd in Hf.
    rewrite (take_ge (drop 16 _)) in * by (rewrite length_drop, length_as_bytes; lia).
    set (w := drop 16 (as_bytes a)) in *. clearbody w.
    destruct w as [|x [|y [|z [|b [|]]]]]; try done. injection Hz as -> -> ->.
    cbn in Hf. repeat (apply Forall_cons in Hu as [? Hu]). unfold is_u8 in *. lia.
  - destruct (drop (leading_zeros (as_bytes a)) (as_bytes a)) as [|b rest] eqn:Hd.
    + done.
    + cbn in Hz. injection Hz as -> _. by apply (Hnz 0 rest).
Qed.

Lemma share_address_value l r : 0 <= l < 2 ^ 32 -> 0 <= r < 2 ^ 32 ->
  Z.of_N (share_address l r) = 1 * 256 ^ 8 + (l * 256 ^ 4 + r).
Proof.
  intros Hl Hr. unfold share_address, from_low_u64_be. rewrite Z.shiftl_mul_pow2, lor_low by lia.
  rewrite N2Z.inj_lor, Z2N.id by lia.
  replace (Z.of_N (with_prefix H160_PREFIX_DEXSHARE)) with (1 * 2 ^ 64) by reflexivity.
  rewrite lor_low by lia. reflexivity.
Qed.
Lemma share_address_bytes l r : 0 <= l < 2 ^ 32 -> 0 <= r < 2 ^ 32 ->
  as_bytes (share_address l r) = H160_PREFIX_DEXSHARE ++ to_be_bytes 4 l ++ to_be_bytes 4 r.
Proof.
  intros Hl Hr. unfold as_bytes. rewrite share_address_value by done.
  rewrite (to_be_app 12 8). change (Z.of_nat 8) with 8. rewrite Z.div_add_l, Z.div_small by lia.
  change 8 with (Z.of_nat 8) at 1. rewrite to_be_bytes_add. f_equal.
  rewrite (to_be_app 4 4). change (Z.of_nat 4) with 4. rewrite Z.div_add_l, Z.div_small by lia.
  change 4 with (Z.of_nat 4) at 1. rewrite to_be_bytes_add, Z.add_0_r. done.
Qed.
End Layout.

(** ** Encoding and decoding *)
Section RoundTrip.
Implicit Types (m : Registry).

(** The contracts a currency is made of *)
Definition contracts (c : CurrencyId) : list EvmAddress :=
  let of_share d := match d with Share_Erc20 a => [a] | Share_Token _ => [] end in
  match c with
  | Erc20 a => [a]
  | CDexShare l r => of_share l ++ of_share r
  | _ => []
  end.

Lemma registered_Some m a v :
  registered m a = Some v <->
  m !! share_to_u32 (Share_Erc20 a) = Some v /\ erc20_address v = a.
Proof.
  unfold registered. destruct (m !! _) as [w|]; [|naive_solver].
  destruct (N.eqb_spec (erc20_address w) a); naive_solver.
Qed.
Lemma registered_get m a : is_Some (registered m a) ->
  get_evm_address m (share_to_u32 (Share_Erc20 a)) = Some a.
Proof.
  intros [v [Hv Ha]%registered_Some]. unfold get_evm_address. rewrite Hv. cbn. by rewrite Ha.
Qed.

Lemma decode_side_encode m d :
  match d with Share_Erc20 a => unreserved a /\ is_Some (registered m a) | _ => True end ->
  decode_side m (to_be_bytes 4 (share_to_u32 d)) = Some d.
Proof.
  destruct d as [t|a]; [by destruct t|]. intros [[Ha _] Hr].
  unfold decode_side. rewrite share_to_u32_erc20.
  rewrite <- (length_erc20_word a), (to_from_be _ (erc20_word_u8 a)), erc20_word_not_token by done.
  rewrite <- share_to_u32_erc20. by rewrite registered_get.
Qed.
Lemma share_id_Some m d :
  match d with Share_Erc20 a => unreserved a /\ is_Some (registered m a) | _ => True end ->
  share_id m d = Some (share_to_u32 d).
Proof. destruct d as [t|a]; [done|]. intros [_ [v Hv]]. cbn. by rewrite Hv. Qed.

Lemma decode_share_address m l r dl dr : 0 <= l < 2 ^ 32 -> 0 <= r < 2 ^ 32 ->
  decode_side m (to_be_bytes 4 l) = Some dl -> decode_side m (to_be_bytes 4 r) = Some dr ->
  decode_evm_address m (share_address l r) = Some (CDexShare dl dr).
Proof.
  intros Hl Hr Hdl Hdr. unfold decode_evm_address. rewrite share_address_bytes by done.
  change (starts_with (H160_PREFIX_DEXSHARE ++ _) H160_PREFIX_TOKEN) with false.
  rewrite starts_with_app.
  pose proof (slice_middle H160_PREFIX_DEXSHARE (to_be_bytes 4 l) (to_be_bytes 4 r)) as H1.
  pose proof (slice_middle (H160_PREFIX_DEXSHARE ++ to_be_bytes 4 l) (to_be_bytes 4 r) []) as H2.
  rewrite len_app, !len_to_be in *. rewrite app_nil_r, <- app_assoc in H2.
  change (len H160_PREFIX_DEXSHARE) with 12 in *. change (12 + Z.of_nat 4) with 16 in *.
  change (16 + Z.of_nat 4) with 20 in *. cbn [fst snd H160_POSITION_DEXSHARE_LEFT H160_POSITION_DEXSHARE_RIGHT].
  rewrite H1. cbn [mbind option_bind]. rewrite Hdl. cbn [mbind option_bind].
  rewrite H2. cbn [mbind option_bind]. by rewrite Hdr.
Qed.

Definition encodable m (c : CurrencyId) : Prop :=
  match c with ChainSafe _ => False | _ => True end /\
  (forall a, a ∈ contracts c -> unreserved a /\ is_Some (registered m a)).

Lemma decode_encode m c : encodable m c ->
  exists a, encode_evm_address m c = Some a /\ decode_evm_address m a = Some c.
Proof.
  intros [Hc Hreg]. destruct c as [t|l r|a|]; [| | |done].
  - exists (Z.to_N (Z.lor MIRRORED_TOKENS_ADDRESS_START (token_to_u8 t))). by destruct t.
  - exists (share_address (share_to_u32 l) (share_to_u32 r)). unfold encode_evm_address.
    assert (Hl : match l with Share_Erc20 a => unreserved a /\ is_Some (registered m a) | _ => True end)
      by (destruct l; [done|]; apply Hreg; set_solver).
    assert (Hr : match r with Share_Erc20 a => unreserved a /\ is_Some (registered m a) | _ => True end)
      by (destruct r; [done|]; apply Hreg; set_solver).
    rewrite (share_id_Some m l Hl), (share_id_Some m r Hr). split; [done|].
    apply decode_share_address; auto using share_to_u32_bound, decode_side_encode.
  - exists a. split; [done|]. destruct (Hreg a ltac:(set_solver)) as [(_ & H1 & H2) Hr].
    unfold decode_evm_address. rewrite H1, H2. by rewrite registered_get.
Qed.

(** Another contract with the same four bytes decodes to the registered one. *)
Lemma decode_alias m x y : is_Some (registered m x) -> unreserved y ->
  share_to_u32 (Share_Erc20 y) = share_to_u32 (Share_Erc20 x) ->
  decode_evm_address m y = Some (Erc20 x).
Proof.
  intros Hx (_ & H1 & H2) He. unfold decode_evm_address. rewrite H1, H2, He.
  by rewrite registered_get.
Qed.
End RoundTrip.

(** ** Registration *)
Section Registration.
Context {St : Type} {B : EVMBridge St} {L : EVMBridgeLaws B}.

Lemma in_evm_view {A} (m : M DispatchError St A) (s : ManagerSt St) :
  (m (mgr_evm s)).2 = mgr_evm s -> in_evm m s = ((m (mgr_evm s)).1, s).
Proof. intros H. unfold in_evm. rewrite H. by destruct s. Qed.

(** A registration leaves the EVM alone and adds at most the entry of its
    contract, under a free identifier. *)
Lemma set_erc20_mapping_result a s r s' : set_erc20_mapping a s = (r, s') ->
  mgr_evm s' = mgr_evm s /\
  (CurrencyIdMap s' = CurrencyIdMap s \/
   exists v, erc20_address v = a /\ r = Ok tt /\
     CurrencyIdMap s !! share_to_u32 (Share_Erc20 a) = None /\
     CurrencyIdMap s' = <[share_to_u32 (Share_Erc20 a) := v]> (CurrencyIdMap s)) /\
  (r = Ok tt -> is_Some (registered (CurrencyIdMap s') a)).
Proof.
  unfold set_erc20_mapping. cbv zeta. unfold mbind at 1, M_bind at 1, gets at 1.
  destruct (CurrencyIdMap s !! _) as [v|] eqn:Hv.
  - unfold ensure. destruct (N.eqb_spec (erc20_address v) a) as [He|]; intros [= <- <-]; [|naive_solver].
    split_and!; [done|by left|]. intros _. exists v. by apply registered_Some.
  - unfold mbind, M_bind. set (c := mkInvokeContext a 0 0).
    rewrite (in_evm_view (eb_name c)) by apply eb_name_view.
    destruct (eb_name c (mgr_evm s)).1; [|intros [= <- <-]; naive_solver..].
    rewrite (in_evm_view (eb_symbol c)) by apply eb_symbol_view.
    destruct (eb_symbol c (mgr_evm s)).1; [|intros [= <- <-]; naive_solver..].
    rewrite (in_evm_view (eb_decimals c)) by apply eb_decimals_view.
    destruct (eb_decimals c (mgr_evm s)).1; [|intros [= <- <-]; naive_solver..].
    intros [= <- <-]. cbn. split_and!; [done| |].
    + right. eexists. split_and!; [|done|done|done]. done.
    + intros _. eexists. apply registered_Some. by rewrite lookup_insert_eq.
Qed.
Lemma registered_stays a x s r s' : set_erc20_mapping a s = (r, s') ->
  is_Some (registered (CurrencyIdMap s) x) -> is_Some (registered (CurrencyIdMap s') x).
Proof.
  intros H%set_erc20_mapping_result [v [Hv Hx]%registered_Some].
  destruct H as (_ & [-> | (w & _ & _ & Hn & ->)] & _); exists v; apply registered_Some; [done|].
  rewrite lookup_insert_ne; [done|]. intros He. by rewrite <- He, Hn in Hv.
Qed.

(** The registry after any calls, failed ones included *)
Fixpoint register_all (l : list EvmAddress) (s : ManagerSt St) : ManagerSt St :=
  match l with
  | [] => s
  | a :: l => register_all l (set_erc20_mapping a s).2
  end.
Lemma register_all_stays l x s :
  is_Some (registered (CurrencyIdMap s) x) -> is_Some (registered (CurrencyIdMap (register_all l s)) x).
Proof.
  revert s. induction l as [|a l IH]; intros s Hx; cbn [register_all]; [done|].
  apply IH. destruct (set_erc20_mapping a s) as [r s'] eqn:H. by eapply registered_stays.
Qed.

(** C26: decoding is inverse to encoding.  For tokens, shares and contracts whose
    addresses are outside the reserved prefixes and the first 256 addresses: once
    the contracts of a currency are registered, it encodes to an address that
    decodes to it, whatever is registered later.  Decoding does not compare the
    address with the registered one, so any other contract with the same four
    bytes decodes to the registered contract. *)
Theorem currency_roundtrip (s : ManagerSt St) (c : CurrencyId)
    (Hc : encodable (CurrencyIdMap s) c) (later : list EvmAddress)
    (m := CurrencyIdMap (register_all later s)) :
  (exists a, encode_evm_address m c = Some a /\ decode_evm_address m a = Some c) /\
  (forall x y, c = Erc20 x -> unreserved y ->
     share_to_u32 (Share_Erc20 y) = share_to_u32 (Share_Erc20 x) ->
     decode_evm_address m y = Some c).
Proof.
  subst m. destruct Hc as [Hc Hreg]. split.
  - apply decode_encode. split; [done|]. intros a Ha. destruct (Hreg a Ha).
    auto using register_all_stays.
  - intros x y -> Hy He. apply decode_alias; auto. apply register_all_stays, Hreg. set_solver.
Qed.
End Registration.
