(* ===== verification/EvmSample.v ===== *)
(** * A sample EVM

    Three contracts - one that answers as an ERC-20 contract does, one whose
    answers point outside of themselves, one with the same leading bytes as the
    first - on which the theorems about the bridge and the registry are
    applied. *)
From S2P Require Import Prelude Primitives Runtime Bytes EvmBridge EvmManager.

Definition good_contract : EvmAddress := 0xAABBCCDD00000000000000000000000000000001%N.
Definition alias_contract : EvmAddress := 0xAABBCCDD00000000000000000000000000000002%N.
Definition bad_contract : EvmAddress := 0x0011223300000000000000000000000000000003%N.

Definition sample_execute (c : InvokeContext) (input : bytes) (value gas storage : Z)
    (mode : ExecutionMode) : M DispatchError unit CallInfo := fun s =>
  let answer := fun out => (Ok (mkCallInfo (Succeed Returned) out 21000 0), s) in
  let selector := take 4 input in
  if (ic_contract c =? bad_contract)%N then answer (to_be_bytes 32 96 ++ to_be_bytes 32 0)
  else if decide (selector = to_be_bytes 4 METHOD_DECIMALS) then answer (to_be_bytes 32 18)
  else if decide (selector = to_be_bytes 4 METHOD_BALANCE_OF) then answer (to_be_bytes 32 7)
  else answer (abi_string (string_bytes "Gold") (repeat 0 28)).

#[export] Instance sample_evm : EVM := {
  EvmSt := unit;
  evm_execute := sample_execute;
  evm_get_origin := fun _ => None;
  evm_set_origin := fun _ s => s;
  usize_max := U32_MAX }.

#[export] Instance sample_evm_laws : EVMLaws sample_evm.
Proof.
  constructor.
  - by vm_compute.
  - intros. cbn. unfold sample_execute. by repeat case_match.
  - intros c i v g l m s info s'. cbn. unfold sample_execute.
    repeat case_match; intros [= <- <-]; cbn [output]; split; try done;
      repeat first [ apply to_be_u8 | apply Forall_app; split ];
      repeat (constructor; [by vm_compute|]); constructor.
Defined.

Definition sample_context (a : EvmAddress) : InvokeContext := mkInvokeContext a 0%N 0%N.

(** [erc20_views_spec] at both contracts *)
Example erc20_views_spec_witness :
  bridge_name (sample_context good_contract) tt = (Ok (string_bytes "Gold"), tt) /\
  bridge_name (sample_context bad_contract) tt = (Panic, tt) /\
  bridge_balance_of (sample_context good_contract) 5%N tt = (Ok 7, tt) /\
  bridge_balance_of (sample_context bad_contract) 5%N tt = (Panic, tt).
Proof.
  pose (out1 := mkCallInfo (Succeed Returned) (abi_string (string_bytes "Gold") (repeat 0 28)) 21000 0).
  pose (out2 := mkCallInfo (Succeed Returned) (to_be_bytes 32 96 ++ to_be_bytes 32 0) 21000 0).
  pose (out3 := mkCallInfo (Succeed Returned) (to_be_bytes 32 7) 21000 0).
  assert (Ha : forall c input o, evm_execute c input 0 2100000 0 View tt = (Ok o, tt) ->
    exit_reason o = Succeed Returned -> answers c input (tt : @EvmSt sample_evm) o) by (intros; split; auto).
  split_and!.
  - destruct (proj1 (erc20_views_spec (sample_context good_contract) 5%N (tt : @EvmSt sample_evm) out1)) as (_ & H & _);
      [by apply Ha|]. by apply (H (string_bytes "Gold") (repeat 0 28)).
  - destruct (proj1 (erc20_views_spec (sample_context bad_contract) 5%N (tt : @EvmSt sample_evm) out2)) as (_ & _ & H);
      [by apply Ha|]. by apply (H 96 (to_be_bytes 32 0)).
  - rewrite (proj2 (erc20_views_spec (sample_context good_contract) 5%N (tt : @EvmSt sample_evm) out3)); [|by apply Ha].
    by vm_compute.
  - rewrite (proj2 (erc20_views_spec (sample_context bad_contract) 5%N (tt : @EvmSt sample_evm) out2)); [|by apply Ha].
    by vm_compute.
Defined.

#[export] Instance sample_bridge : EVMBridge unit := @evm_bridge sample_evm.
#[export] Instance sample_bridge_laws : EVMBridgeLaws sample_bridge := @evm_bridge_laws sample_evm _.

Definition sample_manager : ManagerSt unit := (set_erc20_mapping good_contract (mkManager ∅ tt)).2.

(** [currency_roundtrip] at a share of the native token and a contract, and at the contract *)
Example currency_roundtrip_witness :
  let m := CurrencyIdMap (register_all [bad_contract; alias_contract] sample_manager) in
  (exists a, encode_evm_address m (CDexShare (Share_Token ACA) (Share_Erc20 good_contract)) = Some a /\
     decode_evm_address m a = Some (CDexShare (Share_Token ACA) (Share_Erc20 good_contract))) /\
  decode_evm_address m alias_contract = Some (Erc20 good_contract).
Proof.
  assert (Hr : unreserved good_contract /\
    is_Some (registered (CurrencyIdMap sample_manager) good_contract)).
  { split; [by vm_compute|]. eexists. vm_compute. reflexivity. }
  split.
  - apply (currency_roundtrip sample_manager (CDexShare (Share_Token ACA) (Share_Erc20 good_contract))).
    split; [done|]. intros a Ha. by apply list_elem_of_singleton in Ha as ->.
  - refine (proj2 (currency_roundtrip sample_manager (Erc20 good_contract) _
      [bad_contract; alias_contract]) good_contract alias_contract _ _ _); [|done|by vm_compute..].
    split; [done|]. intros a Ha. by apply list_elem_of_singleton in Ha as ->.
Defined.
