(* ===== verification/StorageMeter.v ===== *)
(** * The storage meter of the EVM

    [modules/evm/src/runner/storage_meter.rs], and the transactions of
    [modules/evm/src/runner/handler.rs] that create and finish meters.  Every
    frame of a call has a meter; the handler of a meter is the meter of the
    frame that called it, and that of the first frame is the pallet.  A meter
    borrows its handler mutably, so the meters of the frames that are running
    form a stack, and only its head is used. *)
From S2P Require Import Prelude Primitives Runtime.

Module U32.
Definition saturating_add (a b : Z) : Z := Z.min (a + b) U32_MAX.
Definition saturating_sub (a b : Z) : Z := Z.max (a - b) 0.
End U32.

(** [x as i32] of a [u32] *)
Definition as_i32 (x : Z) : Z := if x <? 2 ^ 31 then x else x - 2 ^ 32.

Class StorageMeterHandler (H : Type) := {
  reserve_storage : Z -> M DispatchError H unit;
  unreserve_storage : Z -> Z -> Z -> M DispatchError H unit;
  charge_storage : EvmAddress -> Z -> Z -> M DispatchError H unit;
  out_of_storage_error : H -> DispatchError }.

(** [handler] is what follows in the stack; [result] is [None] for [Ok(())]. *)
Record StorageMeter := mkMeter {
  sm_contract : EvmAddress;
  sm_limit : Z;
  sm_total_used : Z;
  sm_self_used : Z;
  sm_total_refunded : Z;
  sm_self_refunded : Z;
  sm_result : option DispatchError }.

Definition is_ok (m : StorageMeter) : bool := match sm_result m with None => true | Some _ => false end.

Definition available_storage (m : StorageMeter) : Z :=
  if is_ok m
  then U32.saturating_sub (U32.saturating_add (sm_limit m) (sm_total_refunded m)) (sm_total_used m)
  else 0.

Definition sm_used_storage (m : StorageMeter) : Z :=
  if sm_total_refunded m <? sm_total_used m
  then as_i32 (sm_total_used m - sm_total_refunded m)
  else - as_i32 (sm_total_refunded m - sm_total_used m).

Definition add_total_used (n : Z) (m : StorageMeter) : StorageMeter :=
  mkMeter (sm_contract m) (sm_limit m) (U32.saturating_add (sm_total_used m) n) (sm_self_used m)
    (sm_total_refunded m) (sm_self_refunded m) (sm_result m).
Definition add_total_refunded (n : Z) (m : StorageMeter) : StorageMeter :=
  mkMeter (sm_contract m) (sm_limit m) (sm_total_used m) (sm_self_used m)
    (U32.saturating_add (sm_total_refunded m) n) (sm_self_refunded m) (sm_result m).
Definition add_self_used (n : Z) (m : StorageMeter) : StorageMeter :=
  mkMeter (sm_contract m) (sm_limit m) (sm_total_used m) (U32.saturating_add (sm_self_used m) n)
    (sm_total_refunded m) (sm_self_refunded m) (sm_result m).
Definition add_self_refunded (n : Z) (m : StorageMeter) : StorageMeter :=
  mkMeter (sm_contract m) (sm_limit m) (sm_total_used m) (sm_self_used m)
    (sm_total_refunded m) (U32.saturating_add (sm_self_refunded m) n) (sm_result m).
Definition sub_used (n : Z) (m : StorageMeter) : StorageMeter :=
  mkMeter (sm_contract m) (sm_limit m) (U32.saturating_sub (sm_total_used m) n)
    (U32.saturating_sub (sm_self_used m) n)
    (sm_total_refunded m) (sm_self_refunded m) (sm_result m).

Section Meter.
Context {H : Type} `{Hdl : StorageMeterHandler H}.

(** The stack of meters over the pallet *)
Record Meters := mkMeters { stack : list StorageMeter; base : H }.

(** A call of the pallet as a handler *)
Definition on_base (f : M DispatchError H unit) : M DispatchError Meters unit := fun w =>
  let r := f (base w) in (r.1, mkMeters (stack w) r.2).

(** [handle] of [self]: nothing happens once the meter has failed. *)
Definition handle {A} (f : StorageMeter -> M DispatchError Meters A) : M DispatchError Meters A := fun w =>
  match stack w with
  | [] => (Panic, w)
  | m :: _ => match sm_result m with Some e => (Err e, w) | None => f m w end
  end.

(** Assign to the fields of [self] *)
Definition update_self (f : StorageMeter -> StorageMeter) : M DispatchError Meters unit :=
  modify (fun w => match stack w with m :: ms => mkMeters (f m :: ms) (base w) | [] => w end).

(** *** [impl StorageMeterHandler for StorageMeter]: the head of the stack, or
    the pallet when there is none, as a handler *)
Definition meter_reserve_storage (limit : Z) : M DispatchError Meters unit := fun w =>
  match stack w with [] => on_base (reserve_storage limit) w | _ :: _ => (Ok tt, w) end.
Definition meter_unreserve_storage (limit used refunded : Z) : M DispatchError Meters unit := fun w =>
  match stack w with [] => on_base (unreserve_storage limit used refunded) w | _ :: _ => (Ok tt, w) end.

Fixpoint charge_chain (ms : list StorageMeter) (contract : EvmAddress) (used refunded : Z) (h : H) :
    outcome DispatchError unit * (list StorageMeter * H) :=
  match ms with
  | [] => let r := charge_storage contract used refunded h in (r.1, ([], r.2))
  | m :: rest =>
      match sm_result m with
      | Some e => (Err e, (ms, h))
      | None =>
          let r := charge_chain rest contract used refunded h in
          (r.1, (add_total_used used (add_total_refunded refunded m) :: r.2.1, r.2.2))
      end
  end.
Definition meter_charge_storage (contract : EvmAddress) (used refunded : Z) :
    M DispatchError Meters unit := fun w =>
  let r := charge_chain (stack w) contract used refunded (base w) in
  (r.1, mkMeters r.2.1 r.2.2).
Definition meter_out_of_storage_error (w : Meters) : DispatchError :=
  match stack w with [] => out_of_storage_error (base w) | _ :: _ => Other "OutOfStorage" end.

#[export] Instance meter_handler : StorageMeterHandler Meters := {
  reserve_storage := meter_reserve_storage;
  unreserve_storage := meter_unreserve_storage;
  charge_storage := meter_charge_storage;
  out_of_storage_error := meter_out_of_storage_error }.

(** *** [impl StorageMeter] *)
Definition meter_new (contract : EvmAddress) (limit : Z) : M DispatchError Meters unit :=
  meter_reserve_storage limit;;
  modify (fun w => mkMeters (mkMeter contract limit 0 0 0 0 None :: stack w) (base w)).

Definition child_meter (contract : EvmAddress) : M DispatchError Meters unit :=
  handle (fun this => meter_new contract (available_storage this)).

Definition charge (storage : Z) : M DispatchError Meters unit :=
  handle (fun _ => update_self (fun this => add_self_used storage (add_total_used storage this))).

Definition uncharge (storage : Z) : M DispatchError Meters unit :=
  handle (fun _ => update_self (sub_used storage)).

Definition refund (storage : Z) : M DispatchError Meters unit :=
  handle (fun _ => update_self (fun this => add_self_refunded storage (add_total_refunded storage this))).

(** [finish(mut self)]: the meter is gone, whatever the result *)
Definition finish : M DispatchError Meters unit := fun w =>
  match stack w with
  | [] => (Panic, w)
  | this :: rest =>
      let handler := mkMeters rest (base w) in
      match sm_result this with
      | Some e => (Err e, handler)
      | None =>
          if sm_limit this <? U32.saturating_sub (sm_total_used this) (sm_total_refunded this)
          then (Err (meter_out_of_storage_error w), handler)
          else
            (meter_charge_storage (sm_contract this) (sm_self_used this) (sm_self_refunded this);;
             let new_limit :=
               U32.saturating_sub
                 (U32.saturating_sub
                   (U32.saturating_add (U32.saturating_add (sm_limit this) (sm_self_used this))
                     (sm_total_refunded this))
                   (sm_total_used this))
                 (sm_self_refunded this) in
             meter_unreserve_storage new_limit (sm_self_used this) (sm_self_refunded this)) handler
      end
  end.

(** *** [runner/handler.rs] *)
Inductive TransactionOutcome (R : Type) := Commit (r : R) | Rollback (r : R).

(** [run_sub_transaction]: storage is rolled back with the frame; the meters and
    what else of memory the closure changes ([X]) are not. *)
Definition drop_meter (w : Meters) : list StorageMeter := tail (stack w).
Definition run_sub_transaction {R X} (contract : EvmAddress)
    (f : X * Meters -> TransactionOutcome R * (X * Meters)) : M DispatchError (X * Meters) R := fun '(x, w) =>
  match child_meter contract w with
  | (Ok _, w1) =>
      match f (x, w1) with
      | (Commit _ r, (x2, w2)) =>
          match finish w2 with
          | (Ok _, w3) => (Ok r, (x2, w3))
          | (Err e, w3) => (Err e, (x2, mkMeters (stack w3) (base w)))
          | (Panic, w3) => (Panic, (x2, w3))
          end
      | (Rollback _ r, (x2, w2)) => (Ok r, (x2, mkMeters (drop_meter w2) (base w)))
      end
  | (Err e, w1) => (Err e, (x, mkMeters (stack w1) (base w)))
  | (Panic, w1) => (Panic, (x, w1))
  end.

(** [run_transaction]: the same with a meter of its own over the pallet *)
Definition run_transaction {R} (storage_limit : Z) (contract : EvmAddress)
    (f : Meters -> TransactionOutcome R * Meters) : M DispatchError H R := fun h =>
  match meter_new contract storage_limit (mkMeters [] h) with
  | (Ok _, w1) =>
      match f w1 with
      | (Commit _ r, w2) =>
          match finish w2 with
          | (Ok _, w3) => (Ok r, base w3)
          | (Err e, w3) => (Err e, h)
          | (Panic, w3) => (Panic, base w3)
          end
      | (Rollback _ r, w2) => (Ok r, h)
      end
  | (Err e, _) => (Err e, h)
  | (Panic, w1) => (Panic, base w1)
  end.
End Meter.
Arguments Meters : clear implicits.

(** ** What the frames of a call do

    A frame stores and clears slots and calls other contracts; it ends by
    committing or by rolling back.  An operation the meter refuses ends the
    frame, a call that fails does not. *)
Inductive frame_op :=
  | Charge (storage : Z)
  | Refund (storage : Z)
  | SubCall (contract : EvmAddress) (body : list frame_op) (commits : bool).

Section Frames.
Context {H : Type} `{Hdl : StorageMeterHandler H}.

(** The operations of a frame, given what each does *)
Section Body.
Context (run_op : frame_op -> M DispatchError (Meters H) unit) (commits : bool).
Fixpoint run_ops (l : list frame_op) (w : Meters H) : TransactionOutcome unit * Meters H :=
  match l with
  | [] => (if commits then Commit unit tt else Rollback unit tt, w)
  | op :: l =>
      match run_op op w with
      | (Ok _, w') => run_ops l w'
      | (_, w') => (Rollback unit tt, w')
      end
  end.
End Body.

Fixpoint run_op (op : frame_op) : M DispatchError (Meters H) unit :=
  match op with
  | Charge n => charge n
  | Refund n => refund n
  | SubCall contract body commits =>
      attempt (fun w =>
        let r := run_sub_transaction contract
          (fun '(_, w) => let r := run_ops run_op commits body w in (r.1, (tt, r.2))) (tt, w) in
        (r.1, r.2.2));;
      mret tt
  end.

Definition run_body : bool -> list frame_op -> Meters H -> TransactionOutcome unit * Meters H :=
  run_ops run_op.
End Frames.

(** ** The accounting a meter stands for

    A flat specification: what a frame uses itself, which frames finish, and
    which of their charges stay on chain. *)
Record usage := mkUsage { us_contract : EvmAddress; us_used : Z; us_refunded : Z }.

Definition op_used (op : frame_op) : Z := match op with Charge n => n | _ => 0 end.
Definition op_refunded (op : frame_op) : Z := match op with Refund n => n | _ => 0 end.
Definition self_usage (contract : EvmAddress) (l : list frame_op) : usage :=
  mkUsage contract (foldr (fun op acc => op_used op + acc) 0 l)
    (foldr (fun op acc => op_refunded op + acc) 0 l).

(** The frames that finish, in the order they do *)
Fixpoint op_finished (op : frame_op) : list usage :=
  match op with
  | SubCall contract body commits =>
      flat_map op_finished body ++ (if commits then [self_usage contract body] else [])
  | _ => []
  end.
Definition finished : list frame_op -> list usage := flat_map op_finished.

(** Those of them that no caller rolls back *)
Fixpoint op_committed (op : frame_op) : list usage :=
  match op with
  | SubCall contract body commits =>
      if commits then flat_map op_committed body ++ [self_usage contract body] else []
  | _ => []
  end.
Definition committed : list frame_op -> list usage := flat_map op_committed.

Definition total_of (f : usage -> Z) (l : list usage) : Z := foldr (fun u acc => f u + acc) 0 l.
Definition net (l : list usage) : Z := total_of us_used l - total_of us_refunded l.

(** Everything a program charges or refunds, in all of its frames *)
Fixpoint op_sum (f : frame_op -> Z) (op : frame_op) : Z :=
  match op with
  | SubCall _ body _ => foldr (fun op acc => op_sum f op + acc) 0 body
  | _ => f op
  end.
Definition ops_sum (f : frame_op -> Z) (l : list frame_op) : Z :=
  foldr (fun op acc => op_sum f op + acc) 0 l.
Fixpoint op_natural (op : frame_op) : Prop :=
  match op with
  | Charge n => 0 <= n
  | Refund n => 0 <= n
  | SubCall _ body _ => foldr (fun op acc => op_natural op /\ acc) True body
  end.
Definition ops_natural (l : list frame_op) : Prop := foldr (fun op acc => op_natural op /\ acc) True l.

(** ** A handler that accepts, and what it was asked *)
Inductive HandlerCall :=
  | Reserve (limit : Z)
  | Unreserve (limit used refunded : Z)
  | ChargeStorage (contract : EvmAddress) (used refunded : Z).

Class Accepting (H : Type) `{StorageMeterHandler H} := {
  calls : H -> list HandlerCall;
  accepts_reserve l h : exists h', reserve_storage l h = (Ok tt, h') /\ calls h' = calls h ++ [Reserve l];
  accepts_unreserve l u r h : exists h',
    unreserve_storage l u r h = (Ok tt, h') /\ calls h' = calls h ++ [Unreserve l u r];
  accepts_charge c u r h : exists h',
    charge_storage c u r h = (Ok tt, h') /\ calls h' = calls h ++ [ChargeStorage c u r] }.

Definition as_charge (u : usage) : HandlerCall := ChargeStorage (us_contract u) (us_used u) (us_refunded u).

(** ** The accounting is what the meters compute *)
Section Sums.
Lemma frame_op_nested (P : frame_op -> Prop) :
  (forall n, P (Charge n)) -> (forall n, P (Refund n)) ->
  (forall c body b, Forall P body -> P (SubCall c body b)) -> forall op, P op.
Proof.
  intros HC HR HS. fix IH 1. intros [n|n|c body b]; [apply HC|apply HR|].
  apply HS. induction body as [|op body IHb]; constructor; auto.
Qed.

Lemma total_of_app f l1 l2 : total_of f (l1 ++ l2) = total_of f l1 + total_of f l2.
Proof. unfold total_of. induction l1 as [|u l1 IH]; cbn; lia. Qed.
Lemma total_of_cons f u l : total_of f (u :: l) = f u + total_of f l.
Proof. done. Qed.
Lemma total_of_single f u : total_of f [u] = f u.
Proof. cbn. lia. Qed.
Lemma total_of_nil f : total_of f [] = 0.
Proof. done. Qed.
Lemma finished_cons op l : finished (op :: l) = op_finished op ++ finished l.
Proof. done. Qed.
Lemma committed_cons op l : committed (op :: l) = op_committed op ++ committed l.
Proof. done. Qed.
Lemma ops_sum_cons f op l : ops_sum f (op :: l) = op_sum f op + ops_sum f l.
Proof. done. Qed.
Lemma self_usage_cons c op l :
  self_usage c (op :: l) = mkUsage c (op_used op + us_used (self_usage c l))
    (op_refunded op + us_refunded (self_usage c l)).
Proof. done. Qed.

(** What the finished frames and the frame itself use is part of the program. *)
Definition within (f : frame_op -> Z) (g : usage -> Z) (op : frame_op) : Prop :=
  op_natural op -> 0 <= f op /\ 0 <= total_of g (op_finished op) /\
  total_of g (op_finished op) + f op <= op_sum f op.
Definition measures (f : frame_op -> Z) (g : usage -> Z) : Prop :=
  (forall c body b, f (SubCall c body b) = 0) /\
  (forall op, op_natural op -> 0 <= f op) /\
  (forall c l, g (self_usage c l) = foldr (fun op acc => f op + acc) 0 l).
Lemma used_measures : measures op_used us_used.
Proof. split_and!; [done| |done]. by intros [n|n|]; cbn; lia. Qed.
Lemma refunded_measures : measures op_refunded us_refunded.
Proof. split_and!; [done| |done]. by intros [n|n|]; cbn; lia. Qed.

Lemma within_ops f g l : Forall (within f g) l -> ops_natural l ->
  0 <= foldr (fun op acc => f op + acc) 0 l /\ 0 <= total_of g (finished l) /\
  total_of g (finished l) + foldr (fun op acc => f op + acc) 0 l <= ops_sum f l.
Proof.
  induction 1 as [|op l Hop _ IH]; cbn [foldr]; [cbn; lia|]. intros [Hn Hl].
  rewrite finished_cons, total_of_app, ops_sum_cons. specialize (Hop Hn). specialize (IH Hl). lia.
Qed.
Lemma op_within f g : measures f g -> forall op, within f g op.
Proof.
  intros (Hf0 & Hf & Hg) op. induction op as [n|n|c body b IH] using frame_op_nested; intros Hn;
    pose proof (Hf _ Hn); [cbn; lia..|].
  pose proof (within_ops f g body IH Hn) as Hb. rewrite Hf0. cbn [op_finished op_sum].
  rewrite total_of_app. fold (finished body). fold (ops_sum f body).
  destruct b; rewrite ?total_of_single, ?total_of_nil, ?Hg; lia.
Qed.
Lemma ops_within f g c l : measures f g -> ops_natural l ->
  0 <= g (self_usage c l) /\ 0 <= total_of g (finished l) /\
  total_of g (finished l) + g (self_usage c l) <= ops_sum f l.
Proof.
  intros Hm. rewrite (proj2 (proj2 Hm)). apply within_ops, Forall_forall. intros op _.
  by apply op_within.
Qed.
Lemma ops_sum_nonneg f g l : measures f g -> ops_natural l -> 0 <= ops_sum f l.
Proof. intros Hm Hn. pose proof (ops_within f g 0%N l Hm Hn). lia. Qed.
Lemma op_sum_nonneg f g op : measures f g -> op_natural op -> 0 <= op_sum f op.
Proof. intros Hm Hn. pose proof (op_within f g Hm op Hn). lia. Qed.
End Sums.

Section Room.
(** What finished frames add to the meters of their callers, and what a frame
    uses to its own *)
Definition absorb (us : list usage) (m : StorageMeter) : StorageMeter :=
  mkMeter (sm_contract m) (sm_limit m) (sm_total_used m + total_of us_used us) (sm_self_used m)
    (sm_total_refunded m + total_of us_refunded us) (sm_self_refunded m) (sm_result m).
Definition spend (used refunded : Z) (m : StorageMeter) : StorageMeter :=
  mkMeter (sm_contract m) (sm_limit m) (sm_total_used m + used) (sm_self_used m + used)
    (sm_total_refunded m + refunded) (sm_self_refunded m + refunded) (sm_result m).

(** A meter with room for [c] more bytes, and [r] more refunded *)
Definition room (c r : Z) (m : StorageMeter) : Prop :=
  sm_result m = None /\ 0 <= c <= sm_limit m + sm_total_refunded m - sm_total_used m /\
  0 <= r /\ sm_limit m + sm_total_refunded m + r <= U32_MAX /\ 0 <= sm_limit m /\
  0 <= sm_self_used m <= sm_total_used m /\ 0 <= sm_self_refunded m <= sm_total_refunded m.

Lemma room_absorb us c r c' r' m : room c r m ->
  0 <= total_of us_used us -> 0 <= total_of us_refunded us ->
  0 <= c' <= c - total_of us_used us -> 0 <= r' <= r - total_of us_refunded us ->
  room c' r' (absorb us m).
Proof. intros (? & ?) ? ? ? ?. split; [done|]. cbn. lia. Qed.
Lemma room_spend u v c r c' r' m : room c r m -> 0 <= u -> 0 <= v ->
  0 <= c' <= c - u -> 0 <= r' <= r - v -> room c' r' (spend u v m).
Proof. intros (? & ?) ? ? ? ?. split; [done|]. cbn. lia. Qed.

Lemma absorb_app us1 us2 m : absorb us2 (absorb us1 m) = absorb (us1 ++ us2) m.
Proof. unfold absorb. cbn. rewrite !total_of_app. f_equal; lia. Qed.
Lemma absorb_nil m : absorb [] m = m.
Proof. destruct m. unfold absorb. cbn. f_equal; lia. Qed.
Lemma map_absorb_nil ms : map (absorb []) ms = ms.
Proof. induction ms as [|m ms IH]; cbn; [done|]. by rewrite absorb_nil, IH. Qed.
Lemma map_absorb_app us1 us2 ms : map (absorb us2) (map (absorb us1) ms) = map (absorb (us1 ++ us2)) ms.
Proof. rewrite map_map. apply map_ext. intros m. apply absorb_app. Qed.
Lemma spend_spend u v u' v' m : spend u' v' (spend u v m) = spend (u + u') (v + v') m.
Proof. unfold spend. cbn. f_equal; lia. Qed.
Lemma spend_zero m : spend 0 0 m = m.
Proof. destruct m. unfold spend. cbn. f_equal; lia. Qed.
Lemma spend_absorb u v us m : spend u v (absorb us m) = absorb us (spend u v m).
Proof. unfold spend, absorb. cbn. f_equal; lia. Qed.

Lemma available_room c r m : room c r m ->
  available_storage m = sm_limit m + sm_total_refunded m - sm_total_used m.
Proof.
  intros (Hr & ?). unfold available_storage, is_ok, U32.saturating_add, U32.saturating_sub.
  rewrite Hr. lia.
Qed.
End Room.

Section Refinement.
Context {H : Type} `{A : Accepting H}.

Lemma charge_room n m ms (h : H) c r : room c r m -> 0 <= n <= c ->
  charge n (mkMeters (m :: ms) h) = (Ok tt, mkMeters (spend n 0 m :: ms) h).
Proof.
  intros (Hr & ?) Hn. unfold charge, handle, update_self, modify. cbn. rewrite Hr. do 3 f_equal.
  unfold add_self_used, add_total_used, spend, U32.saturating_add. cbn. f_equal; lia.
Qed.
Lemma refund_room n m ms (h : H) c r : room c r m -> 0 <= n <= r ->
  refund n (mkMeters (m :: ms) h) = (Ok tt, mkMeters (spend 0 n m :: ms) h).
Proof.
  intros (Hr & ?) Hn. unfold refund, handle, update_self, modify. cbn. rewrite Hr. do 3 f_equal.
  unfold add_self_refunded, add_total_refunded, spend, U32.saturating_add. cbn. f_equal; lia.
Qed.

(** A charge passes through every meter below to the pallet. *)
Lemma charge_chain_room u ms (h : H) : forall c r, Forall (room c r) ms ->
  0 <= us_used u <= c -> 0 <= us_refunded u <= r ->
  exists h', charge_chain ms (us_contract u) (us_used u) (us_refunded u) h
      = (Ok tt, (map (absorb [u]) ms, h')) /\ calls h' = calls h ++ [as_charge u].
Proof.
  intros c r Hms Hu Hv. induction Hms as [|m ms (Hr & Hm) _ (h' & IH & Hc)]; cbn [charge_chain].
  - destruct (accepts_charge (us_contract u) (us_used u) (us_refunded u) h) as (h' & -> & Hc).
    exists h'. by split.
  - exists h'. rewrite Hr, IH. split; [|done]. cbn. do 3 f_equal.
    unfold add_total_used, add_total_refunded, absorb, U32.saturating_add.
    cbn. rewrite ?total_of_single. f_equal; lia.
Qed.

(** Finishing a frame called by another *)
Lemma finish_room m ms (h : H) c r :
  room c r m -> ms <> [] ->
  Forall (room (sm_self_used m) (sm_self_refunded m)) ms ->
  let u := mkUsage (sm_contract m) (sm_self_used m) (sm_self_refunded m) in
  exists h', finish (mkMeters (m :: ms) h) = (Ok tt, mkMeters (map (absorb [u]) ms) h') /\
    calls h' = calls h ++ [as_charge u].
Proof.
  intros (Hr & Hm) Hne Hms u.
  destruct (charge_chain_room u ms h _ _ Hms ltac:(cbn; lia) ltac:(cbn; lia)) as (h' & Hc & Hlog).
  exists h'. split; [|done]. unfold finish. cbn [stack base]. rewrite Hr.
  rewrite (proj2 (Z.ltb_ge _ _)) by (unfold U32.saturating_sub; lia).
  unfold mbind, M_bind, meter_charge_storage. cbn [stack base]. cbn in Hc. rewrite Hc. cbn.
  destruct ms; [done|]. done.
Qed.

(** A step of a program: what an operation finishes goes to every meter, what it
    uses to its own, and what it commits to the pallet. *)
Definition op_runs (op : frame_op) : Prop := forall m ms (h : H) c r,
  op_natural op -> op_sum op_used op <= c -> op_sum op_refunded op <= r ->
  Forall (room c r) (m :: ms) ->
  exists h', run_op op (mkMeters (m :: ms) h) =
    (Ok tt, mkMeters (absorb (op_finished op) (spend (op_used op) (op_refunded op) m)
                      :: map (absorb (op_finished op)) ms) h') /\
  calls h' = calls h ++ map as_charge (op_committed op).

Lemma run_ops_room commits l : Forall op_runs l -> forall m ms (h : H) c r contract,
  ops_natural l -> ops_sum op_used l <= c -> ops_sum op_refunded l <= r ->
  Forall (room c r) (m :: ms) ->
  exists h', run_ops run_op commits l (mkMeters (m :: ms) h) =
    (if commits then Commit unit tt else Rollback unit tt,
     mkMeters (absorb (finished l) (spend (us_used (self_usage contract l))
                 (us_refunded (self_usage contract l)) m)
               :: map (absorb (finished l)) ms) h') /\
  calls h' = calls h ++ map as_charge (committed l).
Proof.
  induction 1 as [|op l Hop _ IH]; intros m ms h c r contract Hn Hc Hr Hm.
  - exists h. cbn [run_ops]. cbn [finished flat_map]. rewrite map_absorb_nil, absorb_nil, spend_zero.
    by rewrite app_nil_r.
  - destruct Hn as [Hop1 Hl]. rewrite ops_sum_cons in *.
    pose proof (op_within _ _ used_measures op Hop1) as Hw1.
    pose proof (op_within _ _ refunded_measures op Hop1) as Hw2.
    pose proof (ops_sum_nonneg _ _ l used_measures Hl).
    pose proof (ops_sum_nonneg _ _ l refunded_measures Hl).
    destruct (Hop m ms h c r Hop1 ltac:(lia) ltac:(lia) Hm) as (h1 & Hrun & Hlog1).
    apply Forall_cons in Hm as [Hm Hms].
    destruct (IH (absorb (op_finished op) (spend (op_used op) (op_refunded op) m))
      (map (absorb (op_finished op)) ms) h1 (ops_sum op_used l) (ops_sum op_refunded l) contract Hl)
      as (h2 & Hrun2 & Hlog2); [lia..| |].
    + constructor.
      * eapply room_absorb; [eapply (room_spend (op_used op) (op_refunded op) c r
          (c - op_used op) (r - op_refunded op) m Hm); lia|lia..].
      * apply Forall_map. eapply Forall_impl; [exact Hms|]. intros x Hx.
        eapply room_absorb; [exact Hx|lia..].
    + exists h2. cbn [run_ops]. rewrite Hrun, Hrun2. split.
      * rewrite spend_absorb, absorb_app, spend_spend, map_absorb_app. done.
      * rewrite Hlog2, Hlog1, committed_cons, map_app. by rewrite app_assoc.
Qed.

Lemma run_op_room op : op_runs op.
Proof.
  induction op as [n|n|contract body b IH] using frame_op_nested; intros m ms h c r Hn Hc Hr Hm.
  - exists h. apply Forall_cons in Hm as [Hm _]. cbn in Hn, Hc. cbn [run_op].
    rewrite (charge_room n m ms h c r Hm) by lia. cbn [op_finished op_used op_refunded].
    rewrite absorb_nil, map_absorb_nil. by rewrite app_nil_r.
  - exists h. apply Forall_cons in Hm as [Hm _]. cbn in Hn, Hr. cbn [run_op].
    rewrite (refund_room n m ms h c r Hm) by lia. cbn [op_finished op_used op_refunded].
    rewrite absorb_nil, map_absorb_nil. by rewrite app_nil_r.
  - cbn [op_natural op_sum] in *. fold (ops_natural body) in Hn.
    fold (ops_sum op_used body) in Hc. fold (ops_sum op_refunded body) in Hr.
    pose proof (Forall_inv Hm) as Hm0. pose proof (available_room c r m Hm0) as Hav.
    set (child := mkMeter contract (available_storage m) 0 0 0 0 None).
    assert (Hchild : Forall (room c r) (child :: m :: ms)).
    { constructor; [|done]. subst child. unfold room in *. cbn. rewrite Hav. naive_solver lia. }
    destruct (run_ops_room b body IH child (m :: ms) h c r contract Hn Hc Hr Hchild)
      as (h1 & Hrun & Hlog).
    pose proof (ops_within _ _ contract body used_measures Hn) as Hw1.
    pose proof (ops_within _ _ contract body refunded_measures Hn) as Hw2.
    assert (Hnew : child_meter contract (mkMeters (m :: ms) h) = (Ok tt, mkMeters (child :: m :: ms) h)).
    { unfold child_meter, handle. cbn [stack]. destruct Hm0 as [-> _]. done. }
    cbn [run_op]. unfold mbind, M_bind, attempt, run_sub_transaction. rewrite Hnew, Hrun. cbn [fst snd].
    cbn [op_used op_refunded op_finished op_committed]. fold (finished body). fold (committed body).
    set (su := us_used (self_usage contract body)) in *.
    set (sr := us_refunded (self_usage contract body)) in *.
    destruct b.
    + destruct (finish_room (absorb (finished body) (spend su sr child))
        (map (absorb (finished body)) (m :: ms)) h1 0 0) as (h2 & Hf & Hlog2).
      * subst child. eapply room_absorb;
          [eapply (room_spend su sr c r (c - su) (r - sr)); [exact (Forall_inv Hchild)|lia..]|lia..].
      * done.
      * apply Forall_map. eapply Forall_impl; [exact Hm|]. intros x Hx.
        change (room (0 + su) (0 + sr) (absorb (finished body) x)).
        eapply room_absorb; [exact Hx|lia..].
      * exists h2. rewrite Hf. cbn -[absorb]. rewrite absorb_app, map_absorb_app, spend_zero. split; [done|].
        rewrite Hlog2, Hlog, map_app, app_assoc. done.
    + exists h. rewrite app_nil_r. cbn -[absorb]. rewrite spend_zero. by rewrite app_nil_r.
Qed.

Lemma run_body_room commits l m ms (h : H) c r contract :
  ops_natural l -> ops_sum op_used l <= c -> ops_sum op_refunded l <= r ->
  Forall (room c r) (m :: ms) ->
  exists h', run_body commits l (mkMeters (m :: ms) h) =
    (if commits then Commit unit tt else Rollback unit tt,
     mkMeters (absorb (finished l) (spend (us_used (self_usage contract l))
                 (us_refunded (self_usage contract l)) m)
               :: map (absorb (finished l)) ms) h') /\
  calls h' = calls h ++ map as_charge (committed l).
Proof. apply run_ops_room, Forall_forall. intros op _. apply run_op_room. Qed.

(** What the meter of the first frame hands back *)
Definition handed_back (limit : Z) (l : list usage) (own : usage) : Z :=
  limit - total_of us_used l + total_of us_refunded l.

Lemma finish_first contract limit l own (h : H)
    (m := absorb l (spend (us_used own) (us_refunded own) (mkMeter contract limit 0 0 0 0 None))) :
  us_contract own = contract ->
  0 <= us_used own -> 0 <= us_refunded own -> 0 <= total_of us_used l ->
  0 <= total_of us_refunded l -> total_of us_used l + us_used own <= limit ->
  limit + (total_of us_used l + us_used own) + (total_of us_refunded l + us_refunded own) <= U32_MAX ->
  exists h', finish (mkMeters [m] h) = (Ok tt, mkMeters [] h') /\
    calls h' = calls h ++ [as_charge own;
      Unreserve (handed_back limit l own) (us_used own) (us_refunded own)].
Proof.
  intros Hc Hu Hr Htu Htr Hlim Hmax. unfold finish. cbn [stack base m absorb spend sm_result sm_limit
    sm_total_used sm_total_refunded sm_self_used sm_self_refunded sm_contract].
  rewrite (proj2 (Z.ltb_ge _ _)) by (unfold U32.saturating_sub; lia).
  unfold mbind, M_bind, meter_charge_storage, meter_unreserve_storage. cbn [charge_chain stack base].
  rewrite !Z.add_0_l.
  destruct (accepts_charge contract (us_used own) (us_refunded own) h) as (h1 & -> & Hl1).
  cbn [fst snd stack base].
  assert (He : U32.saturating_sub (U32.saturating_sub (U32.saturating_add (U32.saturating_add limit (us_used own))
      (us_refunded own + total_of us_refunded l)) (us_used own + total_of us_used l)) (us_refunded own)
      = handed_back limit l own)
    by (unfold U32.saturating_sub, U32.saturating_add, handed_back; lia).
  rewrite He. unfold on_base. cbn [base stack].
  destruct (accepts_unreserve (handed_back limit l own) (us_used own) (us_refunded own) h1)
    as (h2 & -> & Hl2).
  exists h2. cbn [fst snd]. split; [done|]. rewrite Hl2, Hl1, <- app_assoc. unfold as_charge. by rewrite Hc.
Qed.

(** C22: a transaction that stays within its storage limit asks the pallet for
    exactly what the flat accounting says: the limit is reserved, every frame
    that no caller rolls back is charged its own use, and what is handed back at
    the end accounts for every frame that finished.  The two differ by the
    frames that finished under a caller that rolled back: what they used is
    neither charged nor released. *)
Theorem meter_refines (h : H) (contract : EvmAddress) (limit : Z) (body : list frame_op)
    (own := self_usage contract body)
    (Hn : ops_natural body) (Hlimit : ops_sum op_used body <= limit)
    (Hmax : limit + ops_sum op_used body + ops_sum op_refunded body <= U32_MAX) :
  run_transaction limit contract (run_body false body) h = (Ok tt, h) /\
  exists h' remaining,
    run_transaction limit contract (run_body true body) h = (Ok tt, h') /\
    calls h' = calls h ++ [Reserve limit] ++ map as_charge (committed body ++ [own])
                 ++ [Unreserve remaining (us_used own) (us_refunded own)] /\
    let released := remaining + us_refunded own - us_used own in
    limit = net (committed body ++ [own]) + released + (net (finished body) - net (committed body)).
Proof.
  pose proof (ops_within _ _ contract body used_measures Hn) as Hw1.
  pose proof (ops_within _ _ contract body refunded_measures Hn) as Hw2. fold own in Hw1, Hw2.
  set (m0 := mkMeter contract limit 0 0 0 0 None).
  assert (Hm0 : Forall (room (ops_sum op_used body) (ops_sum op_refunded body)) [m0]).
  { constructor; [|done]. split; [done|]. cbn. clear -Hw1 Hw2 Hlimit Hmax. lia. }
  destruct (accepts_reserve limit h) as (h1 & Hres & Hl1).
  assert (Hnew : meter_new contract limit (mkMeters [] h) = (Ok tt, mkMeters [m0] h1)).
  { unfold meter_new, meter_reserve_storage, mbind, M_bind, on_base. cbn. by rewrite Hres. }
  split.
  - destruct (run_body_room false body m0 [] h1 _ _ contract Hn (Z.le_refl _) (Z.le_refl _) Hm0)
      as (h2 & Hrun & _).
    unfold run_transaction. by rewrite Hnew, Hrun.
  - destruct (run_body_room true body m0 [] h1 _ _ contract Hn (Z.le_refl _) (Z.le_refl _) Hm0)
      as (h2 & Hrun & Hl2).
    destruct (finish_first contract limit (finished body) own h2) as (h3 & Hf & Hl3); [done|lia..|].
    exists h3, (handed_back limit (finished body) own). split; [|split].
    + unfold run_transaction. rewrite Hnew, Hrun. cbn [map]. subst own m0. by rewrite Hf.
    + rewrite Hl3, Hl2, Hl1, map_app, <- !app_assoc. done.
    + cbv zeta. unfold net, handed_back. rewrite !total_of_app, !total_of_single. lia.
Qed.
End Refinement.

(** ** Witness: a handler that records what it is asked *)
Section Recorder.
#[local] Instance recorder : StorageMeterHandler (list HandlerCall) := {
  reserve_storage l := modify (fun h => h ++ [Reserve l]);
  unreserve_storage l u r := modify (fun h => h ++ [Unreserve l u r]);
  charge_storage c u r := modify (fun h => h ++ [ChargeStorage c u r]);
  out_of_storage_error _ := Other "OutOfStorage" }.
#[local] Instance recorder_accepts : Accepting (list HandlerCall).
Proof. refine {| calls h := h |}; eauto. Defined.

(** [meter_refines] at a call that rolls back after a call of its own has finished: 64 bytes
    of the limit are neither charged nor released. *)
Example meter_refines_witness :
  exists h' remaining,
    run_transaction 1000 1%N (run_body true [Charge 100; SubCall 2%N [SubCall 3%N [Charge 64] true] false])
      ([] : list HandlerCall) = (Ok tt, h') /\
    h' = [Reserve 1000; ChargeStorage 1%N 100 0; Unreserve remaining 100 0] /\
    1000 = 100 + (remaining + 0 - 100) + 64.
Proof.
  destruct (meter_refines ([] : list HandlerCall) 1%N 1000
    [Charge 100; SubCall 2%N [SubCall 3%N [Charge 64] true] false]) as [_ (h' & rem & Hrun & Hc & Hr)];
    [cbn; lia..|by vm_compute|].
  exists h', rem. split; [exact Hrun|]. split; [exact Hc|exact Hr].
Defined.
End Recorder.
