(* ===== verification/NomineesElection.v ===== *)
(** * The election of nominees

    [modules/nominees-election/src/lib.rs]: token holders bond, nominate
    validators with what they have bonded, and unbond over eras; at every new
    era the nominees with the most votes are elected.  The file is a pallet of
    its own: its storage, the currency it locks and its constants. *)
From S2P Require Import Prelude Primitives Runtime.
From stdpp Require Import sorting.
#[local] Open Scope Z_scope.

Abbreviation EraIndex := Z.
Abbreviation NomineeId := N.

(** ** The ledger of an account *)
Record UnlockChunk := mkChunk { uc_value : Balance; uc_era : EraIndex }.
Record BondingLedger := mkLedger {
  bl_total : Balance;
  bl_active : Balance;
  bl_unlocking : list UnlockChunk }.
Definition BondingLedger_default : BondingLedger := mkLedger 0 0 [].

(** [consolidate_unlocked]: [retain] visits the chunks in order *)
Fixpoint retain_locked (current_era : EraIndex) (l : list UnlockChunk) (total : Balance) :
    list UnlockChunk * Balance :=
  match l with
  | [] => ([], total)
  | chunk :: l =>
      if current_era <? uc_era chunk
      then let r := retain_locked current_era l total in (chunk :: r.1, r.2)
      else retain_locked current_era l (U128.saturating_sub total (uc_value chunk))
  end.
Definition consolidate_unlocked (current_era : EraIndex) (self : BondingLedger) : BondingLedger :=
  let r := retain_locked current_era (bl_unlocking self) (bl_total self) in
  mkLedger r.2 (bl_active self) r.1.

(** [rebond]: the loop takes chunks from the end of the vector, so it runs over
    the reversed list. *)
Fixpoint rebond_loop (value : Balance) (rev_chunks : list UnlockChunk)
    (unlocking_balance active : Balance) : list UnlockChunk * Balance :=
  match rev_chunks with
  | [] => ([], active)
  | last :: rest =>
      if u128_wrapping_add unlocking_balance (uc_value last) <=? value
      then
        let unlocking_balance := u128_wrapping_add unlocking_balance (uc_value last) in
        let active := u128_wrapping_add active (uc_value last) in
        if value <=? unlocking_balance then (rest, active)
        else rebond_loop value rest unlocking_balance active
      else
        let diff := value - unlocking_balance in
        (mkChunk (uc_value last - diff) (uc_era last) :: rest, u128_wrapping_add active diff)
  end.
Definition ledger_rebond (value : Balance) (self : BondingLedger) : BondingLedger :=
  let r := rebond_loop value (reverse (bl_unlocking self)) 0 (bl_active self) in
  mkLedger (bl_total self) r.2 (reverse r.1).

(** ** The pallet *)
Class NomineesConfig := {
  NomCurrency : Type;
  nom_free_balance : NomCurrency -> AccountId -> Balance;
  nom_lock : NomCurrency -> AccountId -> Balance;
  nom_set_lock : AccountId -> Balance -> NomCurrency -> NomCurrency + DispatchError;
  nom_remove_lock : AccountId -> NomCurrency -> NomCurrency + DispatchError;
  MinBondThreshold : Balance;
  NomBondingDuration : EraIndex;
  NominateesCount : Z;
  MaxUnlockingChunks : Z;
  NomineeFilter : NomineeId -> bool;
  (* the order a storage map is iterated in *)
  votes_order : list (NomineeId * Balance) -> list (NomineeId * Balance) }.

(** Balances and constants are of their types, a lock can be set and removed
    and does not change balances, and iteration visits every entry once. *)
Class NomineesLaws `(NomineesConfig) := {
  nom_free_u128 c who : is_u128 (nom_free_balance c who);
  min_bond_u128 : is_u128 MinBondThreshold;
  bonding_duration_u32 : is_u32 NomBondingDuration;
  nominatees_u32 : is_u32 NominateesCount;
  max_chunks_u32 : is_u32 MaxUnlockingChunks;
  set_lock_ok who n c : exists c', nom_set_lock who n c = inl c' /\
    (forall x, nom_lock c' x = if (x =? who)%N then n else nom_lock c x) /\
    (forall x, nom_free_balance c' x = nom_free_balance c x);
  remove_lock_ok who c : exists c', nom_remove_lock who c = inl c' /\
    (forall x, nom_lock c' x = if (x =? who)%N then 0 else nom_lock c x) /\
    (forall x, nom_free_balance c' x = nom_free_balance c x);
  votes_order_permutation l : votes_order l ≡ₚ l }.

Section Pallet.
Context `{NomineesConfig}.

Record NomineesSt := mkNominees {
  Nominations : gmap AccountId (list NomineeId);
  Ledgers : gmap AccountId BondingLedger;
  Votes : gmap NomineeId Balance;
  Nominees : list NomineeId;
  CurrentEra : EraIndex;
  nom_currency : NomCurrency;
  nom_events : list (AccountId * Balance) }.

Abbreviation NM A := (M DispatchError NomineesSt A).

Definition nominations (who : AccountId) (s : NomineesSt) : list NomineeId :=
  default [] (Nominations s !! who).
Definition ledger (who : AccountId) (s : NomineesSt) : BondingLedger :=
  default BondingLedger_default (Ledgers s !! who).
Definition votes (n : NomineeId) (s : NomineesSt) : Balance := default 0 (Votes s !! n).

Definition set_nominations f (s : NomineesSt) :=
  mkNominees (f (Nominations s)) (Ledgers s) (Votes s) (Nominees s) (CurrentEra s) (nom_currency s) (nom_events s).
Definition set_ledgers f (s : NomineesSt) :=
  mkNominees (Nominations s) (f (Ledgers s)) (Votes s) (Nominees s) (CurrentEra s) (nom_currency s) (nom_events s).
Definition set_votes f (s : NomineesSt) :=
  mkNominees (Nominations s) (Ledgers s) (f (Votes s)) (Nominees s) (CurrentEra s) (nom_currency s) (nom_events s).
Definition set_nominees f (s : NomineesSt) :=
  mkNominees (Nominations s) (Ledgers s) (Votes s) (f (Nominees s)) (CurrentEra s) (nom_currency s) (nom_events s).
Definition set_current_era e (s : NomineesSt) :=
  mkNominees (Nominations s) (Ledgers s) (Votes s) (Nominees s) e (nom_currency s) (nom_events s).
Definition set_nom_currency c (s : NomineesSt) :=
  mkNominees (Nominations s) (Ledgers s) (Votes s) (Nominees s) (CurrentEra s) c (nom_events s).
Definition nom_deposit_event e (s : NomineesSt) :=
  mkNominees (Nominations s) (Ledgers s) (Votes s) (Nominees s) (CurrentEra s) (nom_currency s) (nom_events s ++ [e]).

Definition nom_ensure_signed (origin : Origin) : NM AccountId :=
  match origin with Signed who => mret who | _ => throw BadOrigin end.

(** A failing lock is logged and ignored. *)
Definition update_ledger (who : AccountId) (l : BondingLedger) : NM unit :=
  modify (fun s =>
    match nom_set_lock who (bl_total l) (nom_currency s) with
    | inl c => set_nom_currency c s
    | inr _ => s
    end);;
  modify (set_ledgers <[who := l]>).

Definition remove_ledger (who : AccountId) : NM unit :=
  modify (fun s =>
    match nom_remove_lock who (nom_currency s) with
    | inl c => set_nom_currency c s
    | inr _ => s
    end);;
  modify (set_ledgers (delete who));;
  modify (set_nominations (delete who)).

Definition mutate_votes (f : Balance -> Balance) (n : NomineeId) (s : NomineesSt) : NomineesSt :=
  set_votes <[n := f (votes n s)]> s.

Definition update_votes (old_active : Balance) (old_nominations : list NomineeId)
    (new_active : Balance) (new_nominations : list NomineeId) : NM unit :=
  modify (fun s =>
    if negb (old_active =? 0) && negb (bool_decide (old_nominations = []))
    then foldl (fun s account => mutate_votes (fun b => U128.saturating_sub b old_active) account s)
           s old_nominations
    else s);;
  modify (fun s =>
    if negb (new_active =? 0) && negb (bool_decide (new_nominations = []))
    then foldl (fun s account => mutate_votes (fun b => U128.saturating_add b new_active) account s)
           s new_nominations
    else s).

Definition nom_bond (origin : Origin) (amount : Balance) : NM unit := transactional (
  who ← nom_ensure_signed origin;
  l ← gets (ledger who);
  free_balance ← gets (fun s => nom_free_balance (nom_currency s) who);
  match U128.checked_sub free_balance (bl_total l) with
  | Some extra =>
      let extra := Z.min extra amount in
      let old_active := bl_active l in
      let active := u128_wrapping_add (bl_active l) extra in
      ensure (MinBondThreshold <=? active)
        (NomineesElectionE NomineesElectionError.BelowMinBondThreshold);;
      let total := u128_wrapping_add (bl_total l) extra in
      old_nominations ← gets (nominations who);
      update_votes old_active old_nominations active old_nominations;;
      update_ledger who (mkLedger total active (bl_unlocking l))
  | None => mret tt
  end).

Definition nom_unbond (origin : Origin) (amount : Balance) : NM unit := transactional (
  who ← nom_ensure_signed origin;
  l ← gets (ledger who);
  let amount := Z.min amount (bl_active l) in
  if negb (amount =? 0) then
    let old_active := bl_active l in
    let active := bl_active l - amount in
    ensure ((active =? 0) || (MinBondThreshold <=? active))
      (NomineesElectionE NomineesElectionError.BelowMinBondThreshold);;
    current_era ← gets CurrentEra;
    let era := u32_wrapping_add current_era NomBondingDuration in
    ensure (Z.of_nat (length (bl_unlocking l)) <? MaxUnlockingChunks)
      (NomineesElectionE NomineesElectionError.MaxUnlockChunksExceeded);;
    old_nominations ← gets (nominations who);
    update_votes old_active old_nominations active old_nominations;;
    update_ledger who (mkLedger (bl_total l) active (bl_unlocking l ++ [mkChunk amount era]))
  else mret tt).

Definition nom_rebond (origin : Origin) (amount : Balance) : NM unit := transactional (
  who ← nom_ensure_signed origin;
  l ← gets (ledger who);
  ensure (negb (bool_decide (length (bl_unlocking l) = 0%nat)))
    (NomineesElectionE NomineesElectionError.NoUnlockChunk);;
  let old_active := bl_active l in
  old_nominations ← gets (nominations who);
  let l := ledger_rebond amount l in
  update_votes old_active old_nominations (bl_active l) old_nominations;;
  update_ledger who l;;
  modify (nom_deposit_event (who, amount))).

Definition nom_withdraw_unbonded (origin : Origin) : NM unit := transactional (
  who ← nom_ensure_signed origin;
  l ← gets (ledger who);
  current_era ← gets CurrentEra;
  let l := consolidate_unlocked current_era l in
  if bool_decide (length (bl_unlocking l) = 0%nat) && (bl_active l =? 0)
  then remove_ledger who
  else update_ledger who l).

(** [Vec::dedup] removes consecutive repeated elements. *)
Fixpoint dedup (l : list NomineeId) : list NomineeId :=
  match l with
  | x :: ((y :: _) as l') => if (x =? y)%N then dedup l' else x :: dedup l'
  | _ => l
  end.

Definition nom_nominate (origin : Origin) (targets : list NomineeId) : NM unit := transactional (
  who ← nom_ensure_signed origin;
  ensure (negb (bool_decide (targets = [])))
    (NomineesElectionE NomineesElectionError.InvalidTargetsLength);;
  ensure (Z.of_nat (length targets) <=? NominateesCount)
    (NomineesElectionE NomineesElectionError.InvalidTargetsLength);;
  let bounded_targets := dedup (merge_sort N.le targets) in
  ensure (Z.of_nat (length bounded_targets) <=? NominateesCount)
    (NomineesElectionE NomineesElectionError.InvalidTargetsLength);;
  l ← gets (ledger who);
  ensure (negb (bl_total l =? 0)) (NomineesElectionE NomineesElectionError.NoBonded);;
  for_each (fun validator =>
    ensure (NomineeFilter validator) (NomineesElectionE NomineesElectionError.InvalidNominee))
    bounded_targets;;
  old_nominations ← gets (nominations who);
  old_active ← gets (fun s => bl_active (ledger who s));
  update_votes old_active old_nominations old_active bounded_targets;;
  modify (set_nominations <[who := bounded_targets]>)).

Definition nom_chill (origin : Origin) : NM unit := transactional (
  who ← nom_ensure_signed origin;
  old_nominations ← gets (nominations who);
  old_active ← gets (fun s => bl_active (ledger who s));
  update_votes old_active old_nominations 0 [];;
  modify (set_nominations (delete who))).

(** [sort_by(|a, b| b.1.cmp(&a.1))] is stable. *)
Fixpoint insert_voter (v : NomineeId * Balance) (l : list (NomineeId * Balance)) :
    list (NomineeId * Balance) :=
  match l with
  | [] => [v]
  | w :: l' => if w.2 <=? v.2 then v :: l else w :: insert_voter v l'
  end.
Definition sort_voters (l : list (NomineeId * Balance)) : list (NomineeId * Balance) :=
  foldr insert_voter [] l.

Definition rebalance : NM unit :=
  voters ← gets (fun s => votes_order (map_to_list (Votes s)));
  let voters := sort_voters voters in
  let new_nominees := map fst (take (Z.to_nat NominateesCount) voters) in
  modify (set_nominees (fun _ => new_nominees)).

Definition nom_on_new_era (era : EraIndex) : NM unit :=
  modify (set_current_era era);; rebalance.
End Pallet.
Arguments NomineesSt {_}.
