(* ===== verification/NomineesSpecs.v ===== *)
(** * The election of nominees: theorems

    What [NomineesElection.v] keeps: the ledgers add up and are locked, and the
    votes, which are updated call by call, are a recount of the ledgers; what
    was unbonded can be withdrawn once its eras have passed. *)
From S2P Require Import Prelude Primitives Runtime NomineesElection.
From stdpp Require Import sorting.
#[local] Open Scope Z_scope.

(** ** Ledgers *)
Section Ledger.
Definition chunks_value (l : list UnlockChunk) : Z := foldr (fun c acc => uc_value c + acc) 0 l.

Definition ledger_wf (max_chunks : Z) (l : BondingLedger) : Prop :=
  0 <= bl_active l /\ Forall (fun c => 0 <= uc_value c) (bl_unlocking l) /\
  bl_total l = bl_active l + chunks_value (bl_unlocking l) /\
  bl_total l <= U128_MAX /\ Z.of_nat (length (bl_unlocking l)) <= max_chunks.

Lemma chunks_value_cons c l : chunks_value (c :: l) = uc_value c + chunks_value l.
Proof. done. Qed.
Lemma chunks_value_app l1 l2 : chunks_value (l1 ++ l2) = chunks_value l1 + chunks_value l2.
Proof.
  induction l1 as [|c l1 IH]; [done|]. rewrite <- app_comm_cons, !chunks_value_cons. lia.
Qed.
Lemma chunks_value_reverse l : chunks_value (reverse l) = chunks_value l.
Proof.
  induction l as [|c l IH]; [done|]. rewrite reverse_cons, chunks_value_app, IH, !chunks_value_cons.
  change (chunks_value []) with 0. lia.
Qed.
Lemma chunks_value_nonneg l : Forall (fun c => 0 <= uc_value c) l -> 0 <= chunks_value l.
Proof. induction 1; [done|]. rewrite chunks_value_cons. lia. Qed.

Lemma wrapping_add_small a b : 0 <= a + b <= U128_MAX -> u128_wrapping_add a b = a + b.
Proof. intros. apply Z.mod_small. unfold U128_MAX in *. lia. Qed.

Lemma Forall_kept {A} (P Q : A -> Prop) `{forall x, Decision (P x)} l :
  Forall Q l -> Forall Q (filter P l).
Proof. rewrite !Forall_forall. intros Hl x [_ Hx]%list_elem_of_filter. auto. Qed.

(** Consolidation takes off the total exactly the chunks it drops. *)
Lemma retain_locked_spec e l total :
  Forall (fun c => 0 <= uc_value c) l -> chunks_value l <= total ->
  let r := retain_locked e l total in
  r.1 = filter (fun c => e < uc_era c) l /\
  r.2 = total - chunks_value (filter (fun c => uc_era c <= e) l) /\
  chunks_value (filter (fun c => e < uc_era c) l) +
    chunks_value (filter (fun c => uc_era c <= e) l) = chunks_value l.
Proof.
  cbv zeta. intros Hl. revert total. induction Hl as [|c l Hc Hl IH]; intros total Ht.
  - cbn. split_and!; [done|lia|lia].
  - rewrite chunks_value_cons in *. cbn [retain_locked]. pose proof (chunks_value_nonneg l Hl).
    destruct (Z.ltb_spec e (uc_era c)) as [He|He].
    + destruct (IH total ltac:(lia)) as (H1 & H2 & H3).
      rewrite (filter_cons_True (fun c => e < uc_era c)) by done.
      rewrite (filter_cons_False (fun c => uc_era c <= e)) by lia.
      cbn [fst snd]. rewrite H1, H2, chunks_value_cons. split_and!; [done|lia|lia].
    + destruct (IH (U128.saturating_sub total (uc_value c))) as (H1 & H2 & H3); [uarith|].
      rewrite (filter_cons_False (fun c => e < uc_era c)) by lia.
      rewrite (filter_cons_True (fun c => uc_era c <= e)) by done.
      rewrite H1, H2, chunks_value_cons, saturating_sub_exact by lia. split_and!; [done|lia|lia].
Qed.
Lemma ledger_consolidate_wf mx e l : ledger_wf mx l -> ledger_wf mx (consolidate_unlocked e l).
Proof.
  intros (Ha & Hc & Ht & Hm & Hn). unfold consolidate_unlocked, ledger_wf. cbv zeta.
  destruct (retain_locked_spec e (bl_unlocking l) (bl_total l) Hc ltac:(lia)) as (H1 & H2 & H3).
  cbn [bl_total bl_active bl_unlocking]. rewrite H1, H2.
  assert (Hd : Forall (fun c => 0 <= uc_value c) (filter (fun c => uc_era c <= e) (bl_unlocking l)))
    by (by apply Forall_kept).
  apply chunks_value_nonneg in Hd.
  split_and!; [done|by apply Forall_kept|lia|lia|].
  pose proof (length_filter (fun c => e < uc_era c) (bl_unlocking l)). lia.
Qed.

(** Rebonding moves the amount, or all there is, back into the active bond. *)
Lemma rebond_loop_spec value rev ub active :
  Forall (fun c => 0 <= uc_value c) rev -> 0 <= ub <= value -> 0 <= active ->
  ub + chunks_value rev <= U128_MAX -> active + chunks_value rev <= U128_MAX -> value <= U128_MAX ->
  let r := rebond_loop value rev ub active in
  r.2 = active + Z.min (value - ub) (chunks_value rev) /\
  r.2 + chunks_value r.1 = active + chunks_value rev /\
  Forall (fun c => 0 <= uc_value c) r.1 /\ (length r.1 <= length rev)%nat.
Proof.
  cbv zeta. intros Hr. revert ub active. induction Hr as [|c rev Hc Hr IH]; intros ub active Hub Ha Hsum Hsum' Hv.
  - cbn [rebond_loop fst snd]. change (chunks_value []) with 0. split_and!; [lia|lia|done|lia].
  - rewrite chunks_value_cons in *. pose proof (chunks_value_nonneg rev Hr). cbn [rebond_loop].
    rewrite (wrapping_add_small ub) by lia. rewrite (wrapping_add_small active) by lia.
    destruct (Z.leb_spec (ub + uc_value c) value) as [Hle|Hgt].
    + destruct (Z.leb_spec value (ub + uc_value c)) as [Heq|Hlt].
      * cbn [fst snd length]. split_and!; [lia|lia|done|lia].
      * destruct (IH (ub + uc_value c) (active + uc_value c)) as (H1 & H2 & H3 & H4); [lia..|].
        split_and!; [lia|lia|done|cbn; lia].
    + rewrite wrapping_add_small by lia. cbn [fst snd]. rewrite chunks_value_cons. cbn [uc_value length].
      split_and!; [lia|lia| |lia]. constructor; [cbn; lia|done].
Qed.
Lemma ledger_rebond_wf mx v l : 0 <= v <= U128_MAX -> ledger_wf mx l ->
  ledger_wf mx (ledger_rebond v l) /\ bl_total (ledger_rebond v l) = bl_total l /\
  bl_active (ledger_rebond v l) = bl_active l + Z.min v (chunks_value (bl_unlocking l)).
Proof.
  intros Hv (Ha & Hc & Ht & Hm & Hn). unfold ledger_rebond. cbv zeta.
  destruct (rebond_loop_spec v (reverse (bl_unlocking l)) 0 (bl_active l)) as (H1 & H2 & H3 & H4);
    [by apply Forall_reverse|lia|lia|rewrite chunks_value_reverse; lia..|lia|].
  rewrite chunks_value_reverse in *. pose proof (chunks_value_nonneg _ Hc).
  unfold ledger_wf. cbn [bl_total bl_active bl_unlocking]. rewrite chunks_value_reverse.
  rewrite length_reverse in *. split_and!; [lia|by apply Forall_reverse|lia|lia|lia|done|lia].
Qed.
End Ledger.

(** ** The books of the pallet *)
Section Books.
Context {NC : NomineesConfig} {NL : NomineesLaws NC}.
Implicit Types (s t : NomineesSt) (who : AccountId) (n : NomineeId).

Definition contrib (N : list NomineeId) (l : BondingLedger) (n : NomineeId) : Z :=
  if bool_decide (n ∈ N) then bl_active l else 0.

(** The votes a nominee would get from a recount of all ledgers *)
Definition recount (s : NomineesSt) (n : NomineeId) : Z :=
  map_sum (fun who l => contrib (nominations who s) l n) (Ledgers s).

Definition nominees_books (s : NomineesSt) : Prop :=
  (forall who, ledger_wf MaxUnlockingChunks (ledger who s)) /\
  (forall who, nom_lock (nom_currency s) who = bl_total (ledger who s)) /\
  (forall who, NoDup (nominations who s)) /\
  (forall n, votes n s = recount s n).

(** All that is bonded is part of the currency's issuance, a [u128]. *)
Definition supply_ok (s : NomineesSt) : Prop :=
  map_sum (fun _ l => bl_total l) (Ledgers s) <= U128_MAX.

(** *** Voting *)
Definition same_but_votes s t : Prop :=
  Nominations t = Nominations s /\ Ledgers t = Ledgers s /\ CurrentEra t = CurrentEra s /\
  nom_currency t = nom_currency s.

Lemma votes_loop f l s n : NoDup l ->
  let t := foldl (fun s account => mutate_votes f account s) s l in
  same_but_votes s t /\ votes n t = if bool_decide (n ∈ l) then f (votes n s) else votes n s.
Proof.
  cbv zeta. revert s. induction l as [|x l IH]; intros s Hl; [done|].
  apply NoDup_cons in Hl as [Hx Hl]. cbn [foldl]. destruct (IH (mutate_votes f x s) Hl) as [Hs ->].
  split; [exact Hs|]. unfold mutate_votes, votes, set_votes. cbn [Votes].
  destruct (decide (n = x)) as [->|Hne].
  - rewrite bool_decide_false, bool_decide_true by set_solver. by rewrite lookup_insert_eq.
  - rewrite lookup_insert_ne by done. do 2 case_bool_decide; set_solver.
Qed.

Lemma votes_pass (cond : bool) f l s n : NoDup l -> (cond = false -> f (votes n s) = votes n s \/ n ∉ l) ->
  let t := if cond then foldl (fun s account => mutate_votes f account s) s l else s in
  same_but_votes s t /\ votes n t = if bool_decide (n ∈ l) then f (votes n s) else votes n s.
Proof.
  intros Hl Hc. destruct cond; [by apply votes_loop|]. cbv zeta. split; [done|].
  case_bool_decide; [|done]. by destruct (Hc eq_refl).
Qed.

Lemma update_votes_result a N a' N' s : NoDup N -> NoDup N' -> is_u128 a -> is_u128 a' ->
  (forall n, is_u128 (votes n s)) ->
  exists t, update_votes a N a' N' s = (Ok tt, t) /\ same_but_votes s t /\
    forall n, votes n t =
      let v := if bool_decide (n ∈ N) then U128.saturating_sub (votes n s) a else votes n s in
      if bool_decide (n ∈ N') then U128.saturating_add v a' else v.
Proof.
  intros HN HN' Ha Ha' Hv. unfold update_votes, mbind, M_bind, modify. cbv zeta.
  eexists. split; [reflexivity|].
  assert (H1 : forall n, let t := if negb (a =? 0) && negb (bool_decide (N = []))
     then foldl (fun s account => mutate_votes (fun b => U128.saturating_sub b a) account s) s N else s in
     same_but_votes s t /\ votes n t =
       if bool_decide (n ∈ N) then U128.saturating_sub (votes n s) a else votes n s).
  { intros n. apply votes_pass; [done|]. intros [H|H]%andb_false_iff.
    - left. apply negb_false_iff, Z.eqb_eq in H as ->. specialize (Hv n). uarith.
    - right. apply negb_false_iff, bool_decide_eq_true in H as ->. set_solver. }
  set (s1 := if negb (a =? 0) && _ then _ else s) in *. clearbody s1.
  assert (Hu : forall n, is_u128 (votes n s1)).
  { intros n. destruct (H1 n) as [_ ->]. specialize (Hv n).
    case_bool_decide; [by apply saturating_sub_u128|done]. }
  assert (H2 : forall n, let t := if negb (a' =? 0) && negb (bool_decide (N' = []))
     then foldl (fun s account => mutate_votes (fun b => U128.saturating_add b a') account s) s1 N' else s1 in
     same_but_votes s1 t /\ votes n t =
       if bool_decide (n ∈ N') then U128.saturating_add (votes n s1) a' else votes n s1).
  { intros n. apply votes_pass; [done|]. intros [H|H]%andb_false_iff.
    - left. apply negb_false_iff, Z.eqb_eq in H as ->. specialize (Hu n). uarith.
    - right. apply negb_false_iff, bool_decide_eq_true in H as ->. set_solver. }
  destruct (H1 0%N) as [(E1 & E2 & E3 & E4) _], (H2 0%N) as [(F1 & F2 & F3 & F4) _].
  split; [split_and!; congruence|]. intros n. destruct (H2 n) as [_ ->], (H1 n) as [_ ->]. done.
Qed.

(** *** Recounting *)
Lemma ledger_wf_lookup s who l : (forall who, ledger_wf MaxUnlockingChunks (ledger who s)) ->
  Ledgers s !! who = Some l -> ledger_wf MaxUnlockingChunks l.
Proof. intros Hw Hl. specialize (Hw who). unfold ledger in Hw. by rewrite Hl in Hw. Qed.

Lemma recount_bound s n : (forall who, ledger_wf MaxUnlockingChunks (ledger who s)) -> supply_ok s ->
  is_u128 (recount s n).
Proof.
  intros Hw Hs. unfold recount, supply_ok in *.
  assert (Hle : forall who l, Ledgers s !! who = Some l ->
    0 <= contrib (nominations who s) l n <= bl_total l).
  { intros who l Hl. destruct (ledger_wf_lookup _ _ _ Hw Hl) as (H1 & H2 & H3 & _).
    pose proof (chunks_value_nonneg _ H2). unfold contrib. case_bool_decide; lia. }
  split; [apply map_sum_nonneg; intros who l Hl; by apply Hle|].
  etransitivity; [|exact Hs]. revert Hle. generalize (Ledgers s). intros m. clear.
  induction m as [|k v m Hk IH] using map_ind; intros Hle; [done|].
  rewrite !map_sum_insert_None by done.
  pose proof (Hle k v ltac:(by rewrite lookup_insert_eq)).
  enough (map_sum (fun who l => contrib (nominations who s) l n) m <= map_sum (fun _ l => bl_total l) m) by lia.
  apply IH. intros who l Hl. apply Hle. rewrite lookup_insert_ne; [done|]. intros ->. congruence.
Qed.

Definition ledgers_changed who s t : Prop :=
  Ledgers t = <[who := ledger who t]> (Ledgers s) \/ Ledgers t = delete who (Ledgers s) \/
  Ledgers t = Ledgers s.

Lemma recount_change who s t n :
  ledgers_changed who s t -> (forall x, x <> who -> nominations x t = nominations x s) ->
  recount t n = recount s n - contrib (nominations who s) (ledger who s) n
                + contrib (nominations who t) (ledger who t) n.
Proof.
  intros HL HN. unfold recount.
  assert (Hd : forall u m, (forall l, m = default BondingLedger_default l ->
    from_option (fun l => contrib (nominations who u) l n) 0 l = contrib (nominations who u) m n)).
  { intros u m [l|] ->; cbn; [done|]. unfold contrib. by case_bool_decide. }
  assert (Hg : forall (k : AccountId) (v : BondingLedger), k <> who ->
    contrib (nominations k t) v n = contrib (nominations k s) v n) by (intros k v Hk; by rewrite HN).
  pose proof (Hd s (ledger who s) (Ledgers s !! who) eq_refl) as Hs.
  pose proof (Hd t (ledger who t) (Ledgers t !! who) eq_refl) as Ht.
  destruct HL as [HL | [HL | HL]].
  - rewrite HL. rewrite (map_sum_update _ _ (Ledgers s) who (ledger who t) Hg), Hs. done.
  - rewrite HL in Ht |- *. rewrite lookup_delete_eq in Ht. cbn in Ht. rewrite <- Ht.
    rewrite (map_sum_delete_ext _ _ (Ledgers s) who Hg), map_sum_delete, Hs. lia.
  - rewrite HL in Ht |- *. rewrite (map_sum_change _ _ (Ledgers s) who Hg), Hs, Ht. done.
Qed.

(** *** A call changes the entry of its caller, and the votes with it. *)
Definition touched who s t : Prop :=
  (forall x, x <> who -> nominations x t = nominations x s /\ ledger x t = ledger x s /\
     nom_lock (nom_currency t) x = nom_lock (nom_currency s) x) /\
  ledgers_changed who s t /\ nom_lock (nom_currency t) who = bl_total (ledger who t) /\
  CurrentEra t = CurrentEra s.

Lemma books_touched who s t : nominees_books s -> touched who s t ->
  ledger_wf MaxUnlockingChunks (ledger who t) -> NoDup (nominations who t) ->
  (forall n, votes n t = votes n s - contrib (nominations who s) (ledger who s) n
                         + contrib (nominations who t) (ledger who t) n) ->
  nominees_books t.
Proof.
  intros (B1 & B2 & B3 & B4) (Hx & HL & Hlock & _) Hwf Hnd Hv. split_and!.
  - intros x. destruct (decide (x = who)) as [->|Hne]; [done|]. destruct (Hx x Hne) as (_ & -> & _). done.
  - intros x. destruct (decide (x = who)) as [->|Hne]; [done|]. destruct (Hx x Hne) as (_ & -> & ->). done.
  - intros x. destruct (decide (x = who)) as [->|Hne]; [done|]. destruct (Hx x Hne) as (-> & _ & _). done.
  - intros n. rewrite Hv, B4. symmetry. apply recount_change; [done|]. intros x Hne. by apply Hx.
Qed.

Lemma contrib_le_recount who s n : (forall who, ledger_wf MaxUnlockingChunks (ledger who s)) ->
  0 <= contrib (nominations who s) (ledger who s) n <= recount s n.
Proof.
  intros Hw. split.
  - unfold contrib. destruct (Hw who) as [? _]. case_bool_decide; lia.
  - unfold recount. assert (Hnn : forall k l, Ledgers s !! k = Some l -> 0 <= contrib (nominations k s) l n).
    { intros k l Hl. destruct (ledger_wf_lookup _ _ _ Hw Hl) as [? _]. unfold contrib.
      case_bool_decide; lia. }
    unfold ledger. destruct (Ledgers s !! who) as [l|] eqn:Hl; cbn [default].
    + by apply (map_sum_lookup_le (fun who l => contrib (nominations who s) l n)).
    + transitivity 0; [unfold contrib; case_bool_decide; cbn; lia|by apply map_sum_nonneg].
Qed.

Lemma votes_exact (b b' : bool) (a a' v : Z) :
  is_u128 v -> is_u128 a -> is_u128 a' -> (if b then a else 0) <= v ->
  v - (if b then a else 0) + (if b' then a' else 0) <= U128_MAX ->
  (if b' then U128.saturating_add (if b then U128.saturating_sub v a else v) a'
   else if b then U128.saturating_sub v a else v) =
  v - (if b then a else 0) + (if b' then a' else 0).
Proof. intros. destruct b, b'; uarith. Qed.

Lemma wf_active_u128 mx l : ledger_wf mx l -> is_u128 (bl_active l).
Proof. intros (H1 & H2 & H3 & H4 & _). pose proof (chunks_value_nonneg _ H2). split; lia. Qed.
Lemma books_votes_u128 s n : nominees_books s -> supply_ok s -> is_u128 (votes n s).
Proof. intros (B1 & _ & _ & ->) Hs. by apply recount_bound. Qed.

(** *** The steps the calls share *)
Lemma update_ledger_wp who l s R :
  wp (update_ledger who l)
    (fun _ t => Ledgers t = <[who := l]> (Ledgers s) /\ Nominations t = Nominations s /\
       Votes t = Votes s /\ CurrentEra t = CurrentEra s /\
       forall x, nom_lock (nom_currency t) x = if (x =? who)%N then bl_total l else nom_lock (nom_currency s) x)
    R s.
Proof.
  unfold update_ledger. wp_guards.
  destruct (set_lock_ok who (bl_total l) (nom_currency s)) as (c & -> & Hl & _). done.
Qed.
Lemma remove_ledger_wp who s R :
  wp (remove_ledger who)
    (fun _ t => Ledgers t = delete who (Ledgers s) /\ Nominations t = delete who (Nominations s) /\
       Votes t = Votes s /\ CurrentEra t = CurrentEra s /\
       forall x, nom_lock (nom_currency t) x = if (x =? who)%N then 0 else nom_lock (nom_currency s) x)
    R s.
Proof.
  unfold remove_ledger. wp_guards.
  destruct (remove_lock_ok who (nom_currency s)) as (c & -> & Hl & _). done.
Qed.

(** What a call that succeeded did *)
Definition moved who (l' : BondingLedger) (N' : list NomineeId) s t : Prop :=
  touched who s t /\ ledger who t = l' /\ nominations who t = N' /\
  (supply_ok s -> supply_ok t -> nominees_books t).

Lemma moved_intro who l' N' s t :
  nominees_books s -> ledger_wf MaxUnlockingChunks l' -> NoDup N' ->
  touched who s t -> ledger who t = l' -> nominations who t = N' ->
  (forall n, votes n t =
     let v := if bool_decide (n ∈ nominations who s)
              then U128.saturating_sub (votes n s) (bl_active (ledger who s)) else votes n s in
     if bool_decide (n ∈ N') then U128.saturating_add v (bl_active l') else v) ->
  moved who l' N' s t.
Proof.
  intros HB Hwf Hnd Ht Hl HN Hv. split; [done|]. split; [done|]. split; [done|]. intros Hs0 Hs.
  pose proof HB as (B1 & _ & _ & B4).
  apply (books_touched who s t HB Ht); [by rewrite Hl|by rewrite HN|].
  intros n. rewrite Hv. rewrite HN, Hl. unfold contrib.
  destruct Ht as (Hx & HL & _).
  assert (Hwft : forall x, ledger_wf MaxUnlockingChunks (ledger x t)).
  { intros x. destruct (decide (x = who)) as [->|Hne]; [by rewrite Hl|].
    destruct (Hx x Hne) as (_ & -> & _). done. }
  pose proof (recount_bound t n Hwft Hs) as Hb.
  rewrite (recount_change who s t n HL) in Hb by (intros x Hne; by apply Hx).
  pose proof (contrib_le_recount who s n B1) as Hc. unfold contrib in *. rewrite HN, Hl in Hb.
  rewrite <- B4 in *. apply votes_exact.
  - by apply books_votes_u128.
  - by eapply wf_active_u128.
  - by eapply wf_active_u128.
  - lia.
  - unfold is_u128 in Hb. lia.
Qed.

(** Voting with the ledger's new active bond, and storing the ledger *)
Lemma vote_and_store who l' s R : nominees_books s -> supply_ok s ->
  ledger_wf MaxUnlockingChunks l' ->
  wp (update_votes (bl_active (ledger who s)) (nominations who s) (bl_active l') (nominations who s);;
      update_ledger who l')
    (fun _ t => moved who l' (nominations who s) s t) R s.
Proof.
  intros HB Hs Hwf. pose proof HB as (B1 & B2 & B3 & _).
  destruct (update_votes_result (bl_active (ledger who s)) (nominations who s) (bl_active l')
    (nominations who s) s) as (s1 & Hrun & (E1 & E2 & E3 & E4) & Hv);
    [done|done|by eapply wf_active_u128|by eapply wf_active_u128|intros; by apply books_votes_u128|].
  apply wp_bind. unfold wp at 1. rewrite Hrun. eapply wp_mono; [apply update_ledger_wp| |done].
  intros _ t (F1 & F2 & F3 & F4 & F5).
  assert (Hl : ledger who t = l') by (unfold ledger; by rewrite F1, lookup_insert_eq).
  assert (HN : forall x, nominations x t = nominations x s) by (intros; unfold nominations; congruence).
  apply moved_intro; auto.
  - split; [|split; [|split]].
    + intros x Hne. split; [done|]. unfold ledger. rewrite F1, E2, lookup_insert_ne by done.
      rewrite F5, E4. by rewrite (proj2 (N.eqb_neq x who)).
    + left. by rewrite Hl, F1, E2.
    + by rewrite F5, N.eqb_refl, Hl.
    + congruence.
  - intros n. rewrite <- Hv. unfold votes. by rewrite F3.
Qed.

(** Voting for other nominees *)
Lemma vote_and_nominate who a' N' (f : gmap AccountId (list NomineeId) -> gmap AccountId (list NomineeId)) s R :
  nominees_books s -> supply_ok s -> NoDup N' ->
  (f = insert who N' \/ f = delete who /\ N' = []) -> (N' <> [] -> a' = bl_active (ledger who s)) ->
  is_u128 a' ->
  wp (update_votes (bl_active (ledger who s)) (nominations who s) a' N';; modify (set_nominations f))
    (fun _ t => moved who (ledger who s) N' s t) R s.
Proof.
  intros HB Hs Hnd Hf Ha' Hu. pose proof HB as (B1 & B2 & B3 & _).
  destruct (update_votes_result (bl_active (ledger who s)) (nominations who s) a' N' s)
    as (s1 & Hrun & (E1 & E2 & E3 & E4) & Hv);
    [done|done|by eapply wf_active_u128|done|intros; by apply books_votes_u128|].
  apply wp_bind. unfold wp at 1. rewrite Hrun. apply wp_modify.
  assert (Hl : forall x, ledger x (set_nominations f s1) = ledger x s)
    by (intros; unfold ledger; cbn; by rewrite E2).
  apply moved_intro; auto.
  - split; [|split; [|split]].
    + intros x Hne. split; [|split; [done|cbn; by rewrite E4]]. unfold nominations. cbn [Nominations set_nominations].
      rewrite E1. destruct Hf as [-> | [-> _]]; [by rewrite lookup_insert_ne|by rewrite lookup_delete_ne].
    + right. right. done.
    + cbn. rewrite E4, B2. by rewrite Hl.
    + done.
  - unfold nominations. cbn. destruct Hf as [-> | [-> ->]]; [by rewrite lookup_insert_eq|by rewrite lookup_delete_eq].
  - intros n. change (votes n (set_nominations f s1)) with (votes n s1). rewrite Hv.
    destruct (decide (N' = [])) as [->|Hne]; [done|]. by rewrite (Ha' Hne).
Qed.

(** *** The calls *)
Inductive nom_call :=
  | Bond (origin : Origin) (amount : Balance)
  | Unbond (origin : Origin) (amount : Balance)
  | Rebond (origin : Origin) (amount : Balance)
  | WithdrawUnbonded (origin : Origin)
  | Nominate (origin : Origin) (targets : list NomineeId)
  | Chill (origin : Origin)
  | NewEra (era : EraIndex).

Definition run_nom (c : nom_call) : M DispatchError NomineesSt unit :=
  match c with
  | Bond o n => nom_bond o n
  | Unbond o n => nom_unbond o n
  | Rebond o n => nom_rebond o n
  | WithdrawUnbonded o => nom_withdraw_unbonded o
  | Nominate o l => nom_nominate o l
  | Chill o => nom_chill o
  | NewEra e => nom_on_new_era e
  end.
Definition nom_origin (c : nom_call) : option Origin :=
  match c with
  | Bond o _ | Unbond o _ | Rebond o _ | WithdrawUnbonded o | Nominate o _ | Chill o => Some o
  | NewEra _ => None
  end.
Definition nom_typed (c : nom_call) : Prop :=
  match c with
  | Bond _ n | Unbond _ n | Rebond _ n => is_u128 n
  | NewEra e => is_u32 e
  | _ => True
  end.

(** A call succeeds with at most the entry of its caller changed, or fails
    without a trace. *)
Definition call_post (o : Origin) s (r : unit) (t : NomineesSt) : Prop :=
  t = s \/ exists who l' N', o = Signed who /\ moved who l' N' s t.

Lemma moved_post o who l' N' s t : o = Signed who -> moved who l' N' s t -> call_post o s tt t.
Proof. intros. right. eauto. Qed.

Lemma dedup_sorted l : StronglySorted N.le l -> NoDup (dedup l) /\ (forall x, x ∈ dedup l <-> x ∈ l).
Proof.
  induction 1 as [|x l Hl IH Hx]; [split; [constructor|done]|].
  destruct l as [|y l]; [split; [apply NoDup_singleton|done]|].
  change (dedup (x :: y :: l)) with (if (x =? y)%N then dedup (y :: l) else x :: dedup (y :: l)).
  destruct IH as [IH1 IH2]. destruct (N.eqb_spec x y) as [->|Hne].
  - split; [done|]. intros z. rewrite IH2. set_solver.
  - split; [|intros z; set_solver]. apply NoDup_cons. split; [|done]. rewrite IH2. intros Hin.
    apply StronglySorted_inv in Hl as [_ Hy]. apply Forall_cons in Hx as [Hxy Hx'].
    apply elem_of_cons in Hin as [->|Hin]; [done|].
    rewrite Forall_forall in Hy. specialize (Hy x Hin). lia.
Qed.
Lemma bounded_targets_nodup targets : NoDup (dedup (merge_sort N.le targets)).
Proof.
  apply dedup_sorted, (StronglySorted_merge_sort N.le).
Qed.

Section Call.
Context (o : Origin) (s : NomineesSt) (HB : nominees_books s) (HS : supply_ok s).
#[local] Abbreviation post := (call_post o s).
#[local] Abbreviation same := (fun (_ : DispatchError) t => t = s).

Lemma nom_bond_wp (n : Balance) : is_u128 n -> wp (nom_bond o n) post same s.
Proof.
  intros Hn. unfold nom_bond, nom_ensure_signed. apply wp_transactional, wp_bind.
  destruct o as [|who|] eqn:Ho; [done| |done]. wp_guards.
  destruct (U128.checked_sub _ _) as [extra|] eqn:He; [|by left].
  apply checked_sub_Some in He as [-> Hle]. wp_guards.
  pose proof (proj1 HB who) as (Ha & Hc & Ht & Hm & Hk). pose proof (chunks_value_nonneg _ Hc).
  pose proof (nom_free_u128 (nom_currency s) who) as Hf. unfold is_u128 in *.
  set (extra := Z.min _ n). rewrite (wrapping_add_small (bl_active _)) by (subst extra; lia).
  rewrite (wrapping_add_small (bl_total _)) by (subst extra; lia).
  eapply wp_bind_mono; [apply (vote_and_store who (mkLedger (bl_total (ledger who s) + extra)
    (bl_active (ledger who s) + extra) (bl_unlocking (ledger who s))) s _ HB HS)|].
  - subst extra. split_and!; cbn [bl_active bl_unlocking bl_total]; [lia|done|lia|lia|lia].
  - intros [] t Hmv. by eapply moved_post.
Qed.

(** The ledger after unbonding [n] of what is active *)
Definition unbonded (n : Balance) (era : EraIndex) (l : BondingLedger) : BondingLedger :=
  let amount := Z.min n (bl_active l) in
  if amount =? 0 then l
  else mkLedger (bl_total l) (bl_active l - amount) (bl_unlocking l ++ [mkChunk amount era]).

Lemma nom_unbond_moved who (n : Balance) : is_u128 n -> o = Signed who ->
  wp (nom_unbond o n) (fun _ t =>
    ledger who t = unbonded n (u32_wrapping_add (CurrentEra s) NomBondingDuration) (ledger who s) /\
    (t = s \/ moved who (ledger who t) (nominations who s) s t)) same s.
Proof.
  intros Hn ->. unfold nom_unbond, nom_ensure_signed, unbonded. apply wp_transactional, wp_bind. wp_guards.
  destruct (Z.eqb_spec (Z.min n (bl_active (ledger who s))) 0) as [Hz|Hz]; cbn [negb]; [by split; [|left]|].
  wp_guards.
  pose proof (proj1 HB who) as (Ha & Hc & Ht & Hm & Hk). pose proof (chunks_value_nonneg _ Hc).
  apply Z.ltb_lt in Hens0. unfold is_u128 in *.
  eapply wp_bind_mono; [apply (vote_and_store who (mkLedger (bl_total (ledger who s))
    (bl_active (ledger who s) - Z.min n (bl_active (ledger who s)))
    (bl_unlocking (ledger who s) ++ [mkChunk (Z.min n (bl_active (ledger who s)))
       (u32_wrapping_add (CurrentEra s) NomBondingDuration)])) s _ HB HS)|].
  - split_and!; cbn [bl_active bl_unlocking bl_total]; [lia| | |lia|rewrite length_app; cbn; lia].
    + apply Forall_app. split; [done|]. constructor; [cbn; lia|done].
    + rewrite chunks_value_app, chunks_value_cons. change (chunks_value []) with 0. cbn [uc_value]. lia.
  - intros [] t Hmv. pose proof Hmv as (_ & Hl & _). rewrite Hl. by split; [|right].
Qed.
Lemma nom_unbond_wp (n : Balance) : is_u128 n -> wp (nom_unbond o n) post same s.
Proof.
  intros Hn. destruct o as [|who|] eqn:Ho.
  1, 3: by unfold nom_unbond, nom_ensure_signed; apply wp_transactional, wp_bind.
  rewrite <- Ho. eapply wp_mono; [by apply (nom_unbond_moved who n)| |done].
  intros [] t [_ [->|Hm]]; [by left|]. by eapply moved_post.
Qed.

Lemma nom_rebond_wp (n : Balance) : is_u128 n -> wp (nom_rebond o n) post same s.
Proof.
  intros Hn. unfold nom_rebond, nom_ensure_signed. apply wp_transactional, wp_bind.
  destruct o as [|who|] eqn:Ho; [done| |done]. wp_guards.
  pose proof (ledger_rebond_wf MaxUnlockingChunks n (ledger who s) Hn (proj1 HB who)) as [Hwf _].
  pose proof (vote_and_store who (ledger_rebond n (ledger who s)) s (fun _ _ => s = s) HB HS Hwf) as Hv.
  rewrite wp_bind in Hv. eapply wp_mono; [exact Hv| |done]. cbv beta. intros [] t Ht.
  apply wp_bind. eapply wp_mono; [exact Ht| |done]. intros [] u Hu. apply wp_modify.
  by eapply moved_post.
Qed.

Lemma nom_withdraw_wp : wp (nom_withdraw_unbonded o) post same s.
Proof.
  unfold nom_withdraw_unbonded, nom_ensure_signed. apply wp_transactional, wp_bind.
  destruct o as [|who|] eqn:Ho; [done| |done]. wp_guards.
  pose proof (ledger_consolidate_wf MaxUnlockingChunks (CurrentEra s) _ (proj1 HB who)) as Hwf.
  pose proof HB as (B1 & B2 & B3 & _).
  assert (Hsame : forall n, (if bool_decide (n ∈ nominations who s)
     then U128.saturating_add (if bool_decide (n ∈ nominations who s)
       then U128.saturating_sub (votes n s) (bl_active (ledger who s)) else votes n s)
       (bl_active (ledger who s))
     else if bool_decide (n ∈ nominations who s)
       then U128.saturating_sub (votes n s) (bl_active (ledger who s)) else votes n s) = votes n s).
  { intros n. pose proof (books_votes_u128 s n HB HS) as Hu. pose proof (wf_active_u128 _ _ (B1 who)) as Ha.
    pose proof (contrib_le_recount who s n B1) as Hc. pose proof HB as (_ & _ & _ & B4).
    rewrite <- B4 in Hc. unfold contrib in Hc. case_bool_decide; [|done]. apply saturating_back; [done|done|lia]. }
  set (l' := consolidate_unlocked _ _) in *.
  assert (Hact : bl_active l' = bl_active (ledger who s)) by done.
  destruct (bool_decide _ && _) eqn:Hempty.
  - apply andb_prop in Hempty as [He H0]. apply bool_decide_eq_true, nil_length_inv in He.
    apply Z.eqb_eq in H0.
    eapply wp_mono; [apply (remove_ledger_wp who s (fun _ _ => s = s))| |done]. intros [] t (F1 & F2 & F3 & F4 & F5).
    eapply moved_post; [done|]. apply (moved_intro who BondingLedger_default []); auto.
    + split_and!; cbn [bl_active bl_unlocking bl_total BondingLedger_default chunks_value foldr length]; [lia|done|lia|unfold U128_MAX; lia|]. pose proof max_chunks_u32. unfold is_u32 in *. lia.
    + constructor.
    + assert (Hl : ledger who t = BondingLedger_default) by (unfold ledger; by rewrite F1, lookup_delete_eq).
      split; [|split; [|split]].
      * intros x Hne. unfold nominations, ledger. rewrite F1, F2, !lookup_delete_ne by done.
        rewrite F5. by rewrite (proj2 (N.eqb_neq x who)).
      * by right; left.
      * by rewrite F5, N.eqb_refl, Hl.
      * done.
    + unfold ledger. by rewrite F1, lookup_delete_eq.
    + unfold nominations. by rewrite F2, lookup_delete_eq.
    + intros n. cbv zeta. unfold votes in *. rewrite F3. rewrite bool_decide_false by set_solver.
      specialize (Hsame n). pose proof (books_votes_u128 s n HB HS) as Hu.
      rewrite <- Hact, H0 in *. unfold votes in *. case_bool_decide; uarith.
  - eapply wp_mono; [apply (update_ledger_wp who l' s (fun _ _ => s = s))| |done]. intros [] t (F1 & F2 & F3 & F4 & F5).
    assert (Hl : ledger who t = l') by (unfold ledger; by rewrite F1, lookup_insert_eq).
    eapply moved_post; [done|]. apply (moved_intro who l' (nominations who s)); auto.
    + split; [|split; [|split]].
      * intros x Hne. unfold nominations, ledger. rewrite F1, F2, lookup_insert_ne by done.
        rewrite F5. by rewrite (proj2 (N.eqb_neq x who)).
      * left. by rewrite Hl.
      * by rewrite F5, N.eqb_refl, Hl.
      * done.
    + unfold nominations. by rewrite F2.
    + intros n. cbv zeta. rewrite Hact, Hsame. unfold votes. by rewrite F3.
Qed.

Lemma filter_wp l R u : wp (for_each (fun validator =>
    ensure (NomineeFilter validator) (NomineesElectionE NomineesElectionError.InvalidNominee)) l)
  (fun _ t => t = u) R u \/ exists e, for_each (fun validator =>
    ensure (NomineeFilter validator) (NomineesElectionE NomineesElectionError.InvalidNominee)) l u = (Err e, u).
Proof.
  induction l as [|x l IH]; cbn [for_each]; [left; by apply wp_ret|].
  unfold wp, mbind, M_bind, ensure in *. destruct (NomineeFilter x); [exact IH|right; by eexists].
Qed.

Lemma nom_nominate_wp targets : wp (nom_nominate o targets) post same s.
Proof.
  unfold nom_nominate, nom_ensure_signed. apply wp_transactional, wp_bind.
  destruct o as [|who|] eqn:Ho; [done| |done]. wp_guards.
  destruct (filter_wp (dedup (merge_sort N.le targets)) (fun _ _ => s = s) s) as [Hf | (e & Hf)].
  2:{ unfold wp. by rewrite Hf. }
  eapply wp_mono; [exact Hf| |done]. intros [] t ->. wp_guards.
  eapply wp_bind_mono; [apply (vote_and_nominate who (bl_active (ledger who s))
    (dedup (merge_sort N.le targets)) _ s _ HB HS)|].
  - apply bounded_targets_nodup.
  - by left.
  - done.
  - by eapply wf_active_u128, HB.
  - intros [] t Hmv. by eapply moved_post.
Qed.

Lemma nom_chill_wp : wp (nom_chill o) post same s.
Proof.
  unfold nom_chill, nom_ensure_signed. apply wp_transactional, wp_bind.
  destruct o as [|who|] eqn:Ho; [done| |done]. wp_guards.
  eapply wp_bind_mono; [apply (vote_and_nominate who 0 [] _ s _ HB HS)|].
  - constructor.
  - by right.
  - done.
  - split; unfold U128_MAX; lia.
  - intros [] t Hmv. by eapply moved_post.
Qed.
End Call.

(** *** New eras *)
Lemma insert_voter_permutation v l : insert_voter v l ≡ₚ v :: l.
Proof.
  induction l as [|w l IH]; cbn [insert_voter]; [done|]. destruct (w.2 <=? v.2); [done|].
  rewrite IH. apply Permutation_swap.
Qed.
Lemma sort_voters_permutation l : sort_voters l ≡ₚ l.
Proof.
  induction l as [|v l IH]; [done|]. unfold sort_voters in *. cbn [foldr].
  by rewrite insert_voter_permutation, IH.
Qed.
Lemma insert_voter_sorted v l :
  StronglySorted (fun v w : NomineeId * Balance => w.2 <= v.2) l ->
  StronglySorted (fun v w : NomineeId * Balance => w.2 <= v.2) (insert_voter v l).
Proof.
  induction 1 as [|w l Hl IH Hw]; cbn [insert_voter]; [constructor; constructor|].
  destruct (Z.leb_spec w.2 v.2) as [Hle|Hgt].
  - constructor; [by constructor|]. constructor; [done|]. eapply Forall_impl; [exact Hw|].
    cbn. intros. lia.
  - constructor; [done|]. rewrite (insert_voter_permutation v l). constructor; [lia|done].
Qed.
Lemma sort_voters_sorted l :
  StronglySorted (fun v w : NomineeId * Balance => w.2 <= v.2) (sort_voters l).
Proof. induction l; [constructor|]. by apply insert_voter_sorted. Qed.

Definition new_era_post (e : EraIndex) s t : Prop :=
  Nominations t = Nominations s /\ Ledgers t = Ledgers s /\ Votes t = Votes s /\
  nom_currency t = nom_currency s /\ CurrentEra t = e /\
  exists elected rest, elected ++ rest ≡ₚ map_to_list (Votes s) /\ Nominees t = map fst elected /\
    length elected = Nat.min (Z.to_nat NominateesCount) (size (Votes s)) /\
    (forall v w, v ∈ elected -> w ∈ rest -> w.2 <= v.2).

Lemma split_sorted k l : StronglySorted (fun v w : NomineeId * Balance => w.2 <= v.2) l ->
  forall v w, v ∈ take k l -> w ∈ drop k l -> w.2 <= v.2.
Proof.
  intros Hl. revert k. induction Hl as [|x l Hl IH Hx]; intros [|k] v w Hv Hw; try set_solver.
  apply elem_of_cons in Hv as [->|Hv]; [|by eapply IH].
  rewrite Forall_forall in Hx. apply Hx. cbn in Hw. rewrite <- (take_drop k l). set_solver.
Qed.

Lemma nom_on_new_era_wp e s R : wp (nom_on_new_era e) (fun _ t => new_era_post e s t) R s.
Proof.
  unfold nom_on_new_era, rebalance. wp_guards. split_and!; [done..|].
  set (l := sort_voters (votes_order (map_to_list (Votes s)))).
  set (k := Z.to_nat NominateesCount).
  assert (Hp : l ≡ₚ map_to_list (Votes s))
    by (unfold l; by rewrite sort_voters_permutation, votes_order_permutation).
  exists (take k l), (drop k l). split_and!.
  - by rewrite take_drop.
  - done.
  - rewrite length_take, Hp, length_map_to_list. done.
  - apply split_sorted, sort_voters_sorted.
Qed.

Lemma new_era_books e s t : nominees_books s -> new_era_post e s t -> nominees_books t.
Proof.
  intros (B1 & B2 & B3 & B4) (E1 & E2 & E3 & E4 & _).
  unfold nominees_books, ledger, nominations, votes, recount, nominations in *.
  rewrite E1, E2, E3, E4. done.
Qed.

(** *** Histories *)
Definition nom_post (c : nom_call) s (t : NomineesSt) : Prop :=
  match nom_origin c, c with
  | Some o, _ => call_post o s tt t
  | None, NewEra e => new_era_post e s t
  | None, _ => False
  end.
Lemma run_nom_wp c s : nominees_books s -> supply_ok s -> nom_typed c ->
  wp (run_nom c) (fun _ t => nom_post c s t) (fun _ t => t = s) s.
Proof.
  intros HB HS Hc. destruct c; cbn [run_nom nom_post nom_origin];
    try (eapply wp_mono; [|intros [] t Ht; exact Ht|done]).
  - by apply nom_bond_wp.
  - by apply nom_unbond_wp.
  - by apply nom_rebond_wp.
  - by apply nom_withdraw_wp.
  - by apply nom_nominate_wp.
  - by apply nom_chill_wp.
  - apply nom_on_new_era_wp.
Qed.

Lemma nom_post_books c s t : nominees_books s -> supply_ok s -> supply_ok t -> nom_post c s t ->
  nominees_books t.
Proof.
  intros HB HS HT Hp. assert (Hcall : forall o, call_post o s tt t -> nominees_books t).
  { intros o [-> | (who & l' & N' & _ & _ & _ & _ & H)]; auto. }
  destruct c; cbn in Hp; eauto. by eapply new_era_books.
Qed.

(** The state after a call, and after calls in a row, failed ones included *)
Definition nom_next s (c : nom_call) : NomineesSt := (run_nom c s).2.
Definition nom_history (l : list nom_call) s : NomineesSt := foldl nom_next s l.
(** The supply stays a [u128] all along *)
Fixpoint supply_along (l : list nom_call) s : Prop :=
  supply_ok s /\ match l with [] => True | c :: l => supply_along l (nom_next s c) end.

Lemma supply_along_head l s : supply_along l s -> supply_ok s.
Proof. destruct l; by intros [? _]. Qed.

Lemma nom_next_post c s : nominees_books s -> supply_ok s -> nom_typed c ->
  (run_nom c s).1 <> Panic /\ (nom_next s c = s \/ nom_post c s (nom_next s c)).
Proof.
  intros HB HS Hc. pose proof (run_nom_wp c s HB HS Hc) as Hw. unfold wp, nom_next in *.
  destruct (run_nom c s) as [[[]|e|] t]; cbn; [by split; [|right]|by split; [|left]|done].
Qed.
Lemma nom_next_books c s : nominees_books s -> supply_ok s -> supply_ok (nom_next s c) ->
  nom_typed c -> nominees_books (nom_next s c).
Proof.
  intros HB HS HT Hc. destruct (nom_next_post c s HB HS Hc) as [_ [-> | Hp]]; [done|].
  by eapply nom_post_books.
Qed.

Lemma history_books l s : nominees_books s -> supply_along l s -> Forall nom_typed l ->
  nominees_books (nom_history l s).
Proof.
  intros HB Hs Hl. revert s HB Hs. induction Hl as [|c l Hc Hl IH]; intros s HB [Hs Hs']; [done|].
  apply IH; [|done]. apply nom_next_books; [done..| |done]. by eapply supply_along_head.
Qed.
Lemma history_calls l1 c l2 s : nominees_books s -> supply_along (l1 ++ c :: l2) s ->
  Forall nom_typed (l1 ++ c :: l2) -> (run_nom c (nom_history l1 s)).1 <> Panic.
Proof.
  revert s. induction l1 as [|c1 l1 IH]; intros s HB Hs Hl.
  - apply Forall_cons in Hl as [Hc _]. by apply nom_next_post; [| eapply supply_along_head |].
  - destruct Hs as [Hs Hs']. apply Forall_cons in Hl as [Hc Hl]. cbn. apply IH; [|done..].
    apply nom_next_books; [done..| |done]. by eapply supply_along_head.
Qed.

(** C18: the votes of the nominees, which every call updates by the difference it
    makes, are at any time what a recount of all bonds and nominations gives;
    every ledger adds up to what is active and what is unlocking and is locked
    in full, and no call panics. *)
Theorem votes_are_a_recount (l : list nom_call) (s : NomineesSt)
    (HB : nominees_books s) (Hs : supply_along l s) (Hl : Forall nom_typed l) :
  nominees_books (nom_history l s) /\
  (forall l1 c l2, l = l1 ++ c :: l2 -> (run_nom c (nom_history l1 s)).1 <> Panic).
Proof.
  split; [by apply history_books|]. intros l1 c l2 ->. by eapply history_calls.
Qed.

(** *** Withdrawing *)

(** What others do leaves an account's ledger alone. *)
Lemma other_call who c s : nominees_books s -> supply_ok s -> nom_typed c ->
  nom_origin c <> Some (Signed who) -> ledger who (nom_next s c) = ledger who s.
Proof.
  intros HB HS Hc Ho. destruct (nom_next_post c s HB HS Hc) as [_ [-> | Hp]]; [done|].
  assert (Hcall : forall o, o <> Signed who -> call_post o s tt (nom_next s c) ->
    ledger who (nom_next s c) = ledger who s).
  { intros o Hne [-> | (x & l' & N' & -> & [Ht _] & _)]; [done|]. apply Ht. congruence. }
  destruct c; cbn in Hp, Ho; try (eapply Hcall; [|exact Hp]; congruence).
  destruct Hp as (_ & HL & _). unfold ledger. by rewrite HL.
Qed.
Lemma other_calls who l s : nominees_books s -> supply_along l s -> Forall nom_typed l ->
  Forall (fun c => nom_origin c <> Some (Signed who)) l ->
  ledger who (nom_history l s) = ledger who s.
Proof.
  intros HB Hs Hl Ho. revert s HB Hs. induction Hl as [|c l Hc Hl IH]; intros s HB [Hs Hs']; [done|].
  apply Forall_cons in Ho as [Ho1 Ho].
  change (nom_history (c :: l) s) with (nom_history l (nom_next s c)). rewrite IH; [by apply other_call|done| |done].
  apply nom_next_books; [done..| |done]. by eapply supply_along_head.
Qed.

Lemma withdraw_ledger who s R : ledger_wf MaxUnlockingChunks (ledger who s) ->
  let l' := consolidate_unlocked (CurrentEra s) (ledger who s) in
  wp (nom_withdraw_unbonded (Signed who))
    (fun _ t => ledger who t = l' /\ nom_lock (nom_currency t) who = bl_total l') R s.
Proof.
  intros Hwf l'. unfold nom_withdraw_unbonded, nom_ensure_signed. apply wp_transactional, wp_bind. wp_guards.
  pose proof (ledger_consolidate_wf _ (CurrentEra s) _ Hwf) as (_ & _ & Ht & _). fold l' in Ht |- *.
  destruct (bool_decide _ && _) eqn:He.
  - apply andb_prop in He as [He H0]. apply bool_decide_eq_true, nil_length_inv in He.
    apply Z.eqb_eq in H0. rewrite He, H0 in Ht. change (chunks_value []) with 0 in Ht.
    eapply wp_mono; [apply (remove_ledger_wp who s (fun e _ => R e s))| |done].
    intros [] t (F1 & _ & _ & _ & F5). rewrite F5, N.eqb_refl. split; [|lia].
    unfold ledger. rewrite F1, lookup_delete_eq. cbn.
    clearbody l'. destruct l' as [tot act un]. cbn in *. by subst.
  - eapply wp_mono; [apply (update_ledger_wp who l' s (fun e _ => R e s))| |done].
    intros [] t (F1 & _ & _ & _ & F5). rewrite F5, N.eqb_refl. split; [|done].
    unfold ledger. by rewrite F1, lookup_insert_eq.
Qed.

(** When every chunk is due, consolidation leaves the active bond only. *)
Lemma consolidate_due mx e l : ledger_wf mx l -> Forall (fun c => uc_era c <= e) (bl_unlocking l) ->
  consolidate_unlocked e l = mkLedger (bl_active l) (bl_active l) [].
Proof.
  intros (Ha & Hc & Ht & _) Hdue. unfold consolidate_unlocked. cbv zeta.
  destruct (retain_locked_spec e (bl_unlocking l) (bl_total l) Hc) as (-> & -> & Hsum);
    [rewrite Ht; lia|].
  assert (Hno : filter (fun c => e < uc_era c) (bl_unlocking l) = []).
  { clear -Hdue. induction Hdue as [|c cs Hc _ IH]; [done|]. rewrite filter_cons_False; [done|lia]. }
  rewrite Hno in *. change (chunks_value []) with 0 in Hsum. f_equal. lia.
Qed.

(** C36: what is unbonded can be withdrawn.  Once the bonding duration has passed,
    whatever other accounts have done meanwhile, withdrawing succeeds, leaves
    nothing unlocking and keeps locked exactly the rest of the bond. *)
Theorem unbonded_is_withdrawable (who : AccountId) (amount : Balance) (s s1 : NomineesSt)
    (later : list nom_call)
    (HB : nominees_books s) (HS : supply_ok s) (Hn : is_u128 amount)
    (Hdue : Forall (fun c => uc_era c <= CurrentEra s + NomBondingDuration) (bl_unlocking (ledger who s)))
    (Hera : 0 <= CurrentEra s + NomBondingDuration <= U32_MAX)
    (Hrun : nom_unbond (Signed who) amount s = (Ok tt, s1))
    (Hs : supply_along later s1) (Hl : Forall nom_typed later)
    (Ho : Forall (fun c => nom_origin c <> Some (Signed who)) later)
    (Hpassed : CurrentEra s + NomBondingDuration <= CurrentEra (nom_history later s1)) :
  let rest := bl_active (ledger who s) - Z.min amount (bl_active (ledger who s)) in
  exists s3, nom_withdraw_unbonded (Signed who) (nom_history later s1) = (Ok tt, s3) /\
    ledger who s3 = mkLedger rest rest [] /\ nom_lock (nom_currency s3) who = rest.
Proof.
  intros rest. pose proof (nom_unbond_moved (Signed who) s HB HS who amount Hn eq_refl) as Hw.
  apply (wp_ok _ _ _ _ _ _ Hw) in Hrun as [Hled Hmv]. pose proof (supply_along_head _ _ Hs) as HS1.
  assert (HB1 : nominees_books s1) by (destruct Hmv as [-> | (_ & _ & _ & H)]; auto).
  pose proof (other_calls who later s1 HB1 Hs Hl Ho) as Hl2. rewrite Hled in Hl2.
  pose proof (history_books later s1 HB1 Hs Hl) as HB2.
  set (s2 := nom_history later s1) in *.
  pose proof (withdraw_ledger who s2 (fun _ _ => False) (proj1 HB2 who)) as Hwd. cbv zeta in Hwd.
  rewrite (consolidate_due MaxUnlockingChunks) in Hwd; [|by apply HB2|].
  - assert (Hact : bl_active (ledger who s2) = rest).
    { rewrite Hl2. unfold unbonded, rest. cbv zeta. destruct (Z.eqb_spec (Z.min amount (bl_active (ledger who s))) 0); cbn [bl_active]; lia. }
    rewrite Hact in Hwd. unfold wp in Hwd.
    destruct (nom_withdraw_unbonded (Signed who) s2) as [[[]|e|] s3]; [|done..]. by exists s3.
  - rewrite Hl2. unfold unbonded. cbv zeta.
    assert (Hw2 : u32_wrapping_add (CurrentEra s) NomBondingDuration = CurrentEra s + NomBondingDuration)
      by (apply Z.mod_small; unfold U32_MAX in *; lia).
    destruct (Z.min amount _ =? 0); cbn [bl_unlocking]; [|apply Forall_app; split].
    1, 2: eapply Forall_impl; [exact Hdue|]; cbn; intros; lia.
    constructor; [cbn; lia|done].
Qed.
End Books.

(** ** A sample pallet *)
Section Sample.
#[local] Instance sample_nominees : NomineesConfig := {
  NomCurrency := gmap AccountId Balance;
  nom_free_balance := fun _ _ => 1000;
  nom_lock := fun c who => default 0 (c !! who);
  nom_set_lock := fun who n c => inl (<[who := n]> c);
  nom_remove_lock := fun who c => inl (delete who c);
  MinBondThreshold := 5;
  NomBondingDuration := 2;
  NominateesCount := 2;
  MaxUnlockingChunks := 3;
  NomineeFilter := fun n => (n <? 100)%N;
  votes_order := fun l => l }.

#[local] Instance sample_nominees_laws : NomineesLaws sample_nominees.
Proof.
  constructor; try (intros; split; vm_compute; congruence).
  - intros who n c. eexists. split; [reflexivity|]. split; [|done]. intros x. cbn.
    destruct (N.eqb_spec x who) as [->|Hne]; [by rewrite lookup_insert_eq|by rewrite lookup_insert_ne].
  - intros who c. eexists. split; [reflexivity|]. split; [|done]. intros x. cbn.
    destruct (N.eqb_spec x who) as [->|Hne]; [by rewrite lookup_delete_eq|by rewrite lookup_delete_ne].
  - done.
Defined.

Definition nominees_genesis : NomineesSt := mkNominees ∅ ∅ ∅ [] 0 (∅ : NomCurrency) [].
Lemma nominees_genesis_books : nominees_books nominees_genesis.
Proof.
  split; [|split; [|split]].
  - intros who. change (ledger who nominees_genesis) with BondingLedger_default.
    split_and!; first [by vm_compute | constructor].
  - done.
  - intros who. constructor.
  - done.
Qed.

Definition sample_calls : list nom_call :=
  [Bond (Signed 1%N) 600; Nominate (Signed 1%N) [7%N; 3%N]; Bond (Signed 2%N) 50;
   Nominate (Signed 2%N) [3%N]; Unbond (Signed 2%N) 10; NewEra 1; Rebond (Signed 2%N) 4].

(** [votes_are_a_recount] at a history of two accounts *)
Example votes_are_a_recount_witness :
  nominees_books (nom_history sample_calls nominees_genesis) /\
  votes 3%N (nom_history sample_calls nominees_genesis) = 644.
Proof.
  split; [|by vm_compute].
  apply (votes_are_a_recount sample_calls nominees_genesis nominees_genesis_books);
    [wcheck|repeat (constructor; [wcheck|]); constructor].
Defined.

(** [unbonded_is_withdrawable]: account 1 unbonds all but 100; account 2 goes on; two eras pass. *)
Example unbonded_is_withdrawable_witness :
  let s1 := nom_next (nom_history sample_calls nominees_genesis) (Unbond (Signed 1%N) 500) in
  exists s3, nom_withdraw_unbonded (Signed 1%N)
      (nom_history [Unbond (Signed 2%N) 5; NewEra 2; Chill (Signed 2%N); NewEra 3] s1) = (Ok tt, s3) /\
    ledger 1%N s3 = mkLedger 100 100 [] /\ nom_lock (nom_currency s3) 1%N = 100.
Proof.
  assert (HB : nominees_books (nom_history sample_calls nominees_genesis)).
  { apply (history_books _ _ nominees_genesis_books);
      [wcheck|repeat (constructor; [wcheck|]); constructor]. }
  apply (unbonded_is_withdrawable 1%N 500 (nom_history sample_calls nominees_genesis) _
    [Unbond (Signed 2%N) 5; NewEra 2; Chill (Signed 2%N); NewEra 3] HB).
  - wcheck.
  - wcheck.
  - vm_compute. constructor.
  - wcheck.
  - vm_compute. reflexivity.
  - wcheck.
  - repeat (constructor; [wcheck|]); constructor.
  - repeat (constructor; [discriminate|]); constructor.
  - wcheck.
Defined.
End Sample.
