(* ===== verification/HomaValidatorList.v ===== *)
(** * The Homa validator list

    [modules/homa-validator-list/src/lib.rs]: liquid-token holders guarantee
    validators with bonds that can be slashed.  The pallet keeps the guarantees
    and two totals of them, by guarantor and by validator, which every change
    updates; the calls are written against the class [GuaranteeStore] of what
    they ask of the storage, so that they also run on a storage that keeps no
    totals (the specification in [HomaValidatorSpecs.v]). *)
From S2P Require Import Prelude FixedPoint Primitives Runtime.

Abbreviation ValidatorId := N.

(** ** Guarantees *)
Record Guarantee := mkGuarantee {
  gt_total : Balance;
  gt_bonded : Balance;
  gt_unbonding : option (Balance * BlockNumber) }.
Definition Guarantee_default : Guarantee := mkGuarantee 0 0 None.

Definition consolidate_unbonding (current_block : BlockNumber) (self : Guarantee) : Guarantee :=
  match gt_unbonding self with
  | Some (_, expired_block) =>
      if expired_block <=? current_block then mkGuarantee (gt_total self) (gt_bonded self) None else self
  | None => self
  end.

Definition guarantee_rebond (rebond_amount : Balance) (self : Guarantee) : Guarantee :=
  match gt_unbonding self with
  | Some (amount, block) =>
      let rebond_amount := Z.min rebond_amount amount in
      let bonded := U128.saturating_add (gt_bonded self) rebond_amount in
      let amount := U128.saturating_sub amount rebond_amount in
      mkGuarantee (gt_total self) bonded (if amount =? 0 then None else Some (amount, block))
  | None => self
  end.

Definition guarantee_slash (slash_amount : Balance) (self : Guarantee) : Guarantee :=
  let remains := slash_amount in
  let slash_from_bonded := Z.min (gt_bonded self) remains in
  let bonded := U128.saturating_sub (gt_bonded self) remains in
  let total := U128.saturating_sub (gt_total self) remains in
  let remains := U128.saturating_sub remains slash_from_bonded in
  let unbonding :=
    if negb (remains =? 0) then
      match gt_unbonding self with
      | Some (unbonding_amount, block) =>
          let slash_from_unbonding := Z.min remains unbonding_amount in
          let unbonding_amount := U128.saturating_sub unbonding_amount slash_from_unbonding in
          if unbonding_amount =? 0 then None else Some (unbonding_amount, block)
      | None => None
      end
    else gt_unbonding self in
  mkGuarantee total bonded unbonding.

Record SlashInfo := mkSlashInfo { si_validator : ValidatorId; si_amount : Balance }.
Record ValidatorBacking := mkBacking { total_insurance : Balance; is_frozen : bool }.
Definition ValidatorBacking_default : ValidatorBacking := mkBacking 0 false.

Inductive HvlEvent :=
  | FreezeValidator (v : ValidatorId)
  | ThawValidator (v : ValidatorId)
  | BondGuarantee (who : AccountId) (v : ValidatorId) (n : Balance)
  | UnbondGuarantee (who : AccountId) (v : ValidatorId) (n : Balance)
  | WithdrawnGuarantee (who : AccountId) (v : ValidatorId) (n : Balance)
  | SlashGuarantee (who : AccountId) (v : ValidatorId) (n : Balance).

(** ** What the pallet is configured with *)
Class HvlConfig := {
  hvl_fixed :: FixedU128;
  fx_reciprocal : ExchangeRate -> option ExchangeRate;
  HvlExt : Type;
  (* [LiquidTokenCurrency] *)
  lt_free_balance : HvlExt -> AccountId -> Balance;
  lt_lock : HvlExt -> AccountId -> Balance;
  lt_set_lock : AccountId -> Balance -> HvlExt -> HvlExt + DispatchError;
  lt_remove_lock : AccountId -> HvlExt -> HvlExt + DispatchError;
  lt_slash : AccountId -> Balance -> HvlExt -> Balance * HvlExt;
  (* the other pallets *)
  on_slash : Balance -> HvlExt -> HvlExt;
  on_increase_guarantee : AccountId * ValidatorId * Balance -> HvlExt -> HvlExt;
  on_decrease_guarantee : AccountId * ValidatorId * Balance -> HvlExt -> HvlExt;
  liquid_staking_exchange_rate : HvlExt -> ExchangeRate;
  current_block_number : HvlExt -> BlockNumber;
  MinBondAmount : Balance;
  HvlBondingDuration : BlockNumber;
  ValidatorInsuranceThreshold : Balance;
  FreezeOrigin : Origin -> bool;
  SlashOrigin : Origin -> bool;
  (* the order a storage prefix is iterated in *)
  prefix_order : list AccountId -> list AccountId }.

Section Pallet.
Context `{HvlConfig}.

(** What is outside of the pallet's storage: the rest of the chain, the events,
    and the local [actual_total_slashing] that the closure of [slash] captures *)
Record HvlEnv := mkHvlEnv {
  env_ext : HvlExt;
  env_events : list HvlEvent;
  actual_total_slashing : Balance }.
Definition set_ext f (e : HvlEnv) : HvlEnv := mkHvlEnv (f (env_ext e)) (env_events e) (actual_total_slashing e).
Definition hvl_deposit_event ev (e : HvlEnv) : HvlEnv :=
  mkHvlEnv (env_ext e) (env_events e ++ [ev]) (actual_total_slashing e).
Definition set_slashing f (e : HvlEnv) : HvlEnv :=
  mkHvlEnv (env_ext e) (env_events e) (f (actual_total_slashing e)).
Definition ext_try (f : HvlExt -> HvlExt + DispatchError) : M DispatchError HvlEnv unit := fun e =>
  match f (env_ext e) with
  | inl x => (Ok tt, set_ext (fun _ => x) e)
  | inr err => (Err err, e)
  end.

(** What a call asks of the storage *)
Class GuaranteeStore (S : Type) := {
  gs_env : S -> HvlEnv;
  gs_in_env : forall {A}, M DispatchError HvlEnv A -> M DispatchError S A;
  total_locked_by_guarantor : S -> AccountId -> Balance;
  validator_backings : S -> ValidatorId -> ValidatorBacking;
  set_is_frozen : ValidatorId -> bool -> S -> S;
  guarantors_of : S -> ValidatorId -> list AccountId;
  update_guarantee : forall {A}, AccountId -> ValidatorId ->
    (Guarantee -> M DispatchError HvlEnv (Guarantee * A)) -> M DispatchError S A }.

(** ** The storage of the pallet *)
Record HvlSt := mkHvl {
  Guarantees : gmap (ValidatorId * AccountId) Guarantee;
  TotalLockedByGuarantor : gmap AccountId Balance;
  ValidatorBackings : gmap ValidatorId ValidatorBacking;
  hvl_env : HvlEnv }.

Definition set_guarantees f s :=
  mkHvl (f (Guarantees s)) (TotalLockedByGuarantor s) (ValidatorBackings s) (hvl_env s).
Definition set_total_locked f s :=
  mkHvl (Guarantees s) (f (TotalLockedByGuarantor s)) (ValidatorBackings s) (hvl_env s).
Definition set_backings f s :=
  mkHvl (Guarantees s) (TotalLockedByGuarantor s) (f (ValidatorBackings s)) (hvl_env s).

Definition hvl_in_env {A} (m : M DispatchError HvlEnv A) : M DispatchError HvlSt A := fun s =>
  let r := m (hvl_env s) in
  (r.1, mkHvl (Guarantees s) (TotalLockedByGuarantor s) (ValidatorBackings s) r.2).

Definition hvl_total_locked (s : HvlSt) (who : AccountId) : Balance :=
  default 0 (TotalLockedByGuarantor s !! who).
Definition hvl_backing (s : HvlSt) (v : ValidatorId) : ValidatorBacking :=
  default ValidatorBacking_default (ValidatorBackings s !! v).

(** [update_guarantee]: the maps are written when everything has succeeded;
    what happened outside of them stays. *)
Definition hvl_update_guarantee {A} (guarantor : AccountId) (validator : ValidatorId)
    (f : Guarantee -> M DispatchError HvlEnv (Guarantee * A)) : M DispatchError HvlSt A :=
  guarantee ← gets (fun s => default Guarantee_default (Guarantees s !! (validator, guarantor)));
  let old_total := gt_total guarantee in
  '(guarantee, result) ← hvl_in_env (f guarantee);
  let new_total := gt_total guarantee in
  (if negb (new_total =? old_total) then
     tl ← gets (fun s => hvl_total_locked s guarantor);
     vb ← gets (fun s => hvl_backing s validator);
     '(vb, tl) ←
       (if old_total <? new_total then
          let gap := new_total - old_total in
          hvl_in_env (modify (set_ext (on_increase_guarantee (guarantor, validator, gap))));;
          mret (mkBacking (U128.saturating_add (total_insurance vb) gap) (is_frozen vb),
                U128.saturating_add tl gap)
        else
          let gap := old_total - new_total in
          hvl_in_env (modify (set_ext (on_decrease_guarantee (guarantor, validator, gap))));;
          mret (mkBacking (U128.saturating_sub (total_insurance vb) gap) (is_frozen vb),
                U128.saturating_sub tl gap));
     (if tl =? 0 then hvl_in_env (ext_try (lt_remove_lock guarantor))
      else hvl_in_env (ext_try (lt_set_lock guarantor tl)));;
     modify (set_backings <[validator := vb]>);;
     modify (set_total_locked (if tl =? 0 then delete guarantor else <[guarantor := tl]>))
   else mret tt);;
  modify (set_guarantees (if new_total =? 0 then delete (validator, guarantor)
                          else <[(validator, guarantor) := guarantee]>));;
  mret result.

Definition prefix_keys (v : ValidatorId) (m : gmap (ValidatorId * AccountId) Guarantee) : list AccountId :=
  omap (fun kg => if (kg.1.1 =? v)%N then Some kg.1.2 else None) (map_to_list m).

#[export] Instance hvl_store : GuaranteeStore HvlSt := {
  gs_env := hvl_env;
  gs_in_env := @hvl_in_env;
  total_locked_by_guarantor := hvl_total_locked;
  validator_backings := hvl_backing;
  set_is_frozen v b s := set_backings <[v := mkBacking (total_insurance (hvl_backing s v)) b]> s;
  guarantors_of s v := prefix_order (prefix_keys v (Guarantees s));
  update_guarantee := @hvl_update_guarantee }.

(** ** The calls *)
Section Calls.
Context {S : Type} `{GuaranteeStore S}.
Abbreviation HM A := (M DispatchError S A).

Definition hvl_ensure_signed (origin : Origin) : HM AccountId :=
  match origin with Signed who => mret who | _ => throw BadOrigin end.

Definition block_number_add (a b : Z) : Z := (a + b) mod 2 ^ 32.

Definition hvl_bond (origin : Origin) (validator : ValidatorId) (amount : Balance) : HM unit := transactional (
  guarantor ← hvl_ensure_signed origin;
  free_balance ← gets (fun s => lt_free_balance (env_ext (gs_env s)) guarantor);
  total_should_locked ← gets (fun s => total_locked_by_guarantor s guarantor);
  match U128.checked_sub free_balance total_should_locked with
  | Some extra =>
      let amount := Z.min amount extra in
      if negb (amount =? 0) then
        update_guarantee guarantor validator (fun guarantee =>
          let total := U128.saturating_add (gt_total guarantee) amount in
          let bonded := U128.saturating_add (gt_bonded guarantee) amount in
          ensure (MinBondAmount <=? bonded) (HomaValidatorListE HomaValidatorListError.BelowMinBondAmount);;
          modify (hvl_deposit_event (BondGuarantee guarantor validator amount));;
          mret (mkGuarantee total bonded (gt_unbonding guarantee), tt))
      else mret tt
  | None => mret tt
  end).

Definition hvl_unbond (origin : Origin) (validator : ValidatorId) (amount : Balance) : HM unit := transactional (
  guarantor ← hvl_ensure_signed origin;
  if negb (amount =? 0) then
    update_guarantee guarantor validator (fun guarantee =>
      ensure (match gt_unbonding guarantee with None => true | Some _ => false end)
        (HomaValidatorListE HomaValidatorListError.UnbondingExists);;
      let amount := Z.min amount (gt_bonded guarantee) in
      let bonded := U128.saturating_sub (gt_bonded guarantee) amount in
      ensure ((bonded =? 0) || (MinBondAmount <=? bonded))
        (HomaValidatorListE HomaValidatorListError.BelowMinBondAmount);;
      now ← gets (fun e => current_block_number (env_ext e));
      let expired_block := block_number_add now HvlBondingDuration in
      modify (hvl_deposit_event (UnbondGuarantee guarantor validator amount));;
      mret (mkGuarantee (gt_total guarantee) bonded (Some (amount, expired_block)), tt))
  else mret tt).

Definition hvl_rebond (origin : Origin) (validator : ValidatorId) (amount : Balance) : HM unit := transactional (
  guarantor ← hvl_ensure_signed origin;
  if negb (amount =? 0) then
    update_guarantee guarantor validator (fun guarantee => mret (guarantee_rebond amount guarantee, tt))
  else mret tt).

Definition hvl_withdraw_unbonded (origin : Origin) (validator : ValidatorId) : HM unit := transactional (
  guarantor ← hvl_ensure_signed origin;
  frozen ← gets (fun s => is_frozen (validator_backings s validator));
  ensure (negb frozen) (HomaValidatorListE HomaValidatorListError.FrozenValidator);;
  update_guarantee guarantor validator (fun guarantee =>
    let old_total := gt_total guarantee in
    now ← gets (fun e => current_block_number (env_ext e));
    let guarantee := consolidate_unbonding now guarantee in
    let new_total := U128.saturating_add (gt_bonded guarantee)
                       (match gt_unbonding guarantee with Some (n, _) => n | None => 0 end) in
    if negb (old_total =? new_total) then
      modify (hvl_deposit_event
        (WithdrawnGuarantee guarantor validator (U128.saturating_sub old_total new_total)));;
      mret (mkGuarantee new_total (gt_bonded guarantee) (gt_unbonding guarantee), tt)
    else mret (guarantee, tt))).

(** [freeze] and [thaw] differ in their origin, the flag and the event. *)
Definition set_frozen_all (b : bool) (event : ValidatorId -> HvlEvent) (validators : list ValidatorId) : HM unit :=
  for_each (fun validator =>
    v ← gets (fun s => validator_backings s validator);
    (if negb (Bool.eqb (is_frozen v) b)
     then gs_in_env (modify (hvl_deposit_event (event validator))) else mret tt);;
    modify (set_is_frozen validator b)) validators.

Definition hvl_freeze (origin : Origin) (validators : list ValidatorId) : HM unit := transactional (
  ensure (FreezeOrigin origin) BadOrigin;;
  set_frozen_all true FreezeValidator validators).

Definition hvl_thaw (origin : Origin) (validators : list ValidatorId) : HM unit := transactional (
  ensure (SlashOrigin origin) BadOrigin;;
  set_frozen_all false ThawValidator validators).

(** One guarantor's share of a loss, taken from the account and the guarantee *)
Definition slash_guarantee (guarantor : AccountId) (validator : ValidatorId)
    (total_insurance insurance_loss : Balance) (guarantee : Guarantee) :
    M DispatchError HvlEnv (Guarantee * unit) :=
  let should_slashing :=
    saturating_mul_int (default 0 (checked_from_rational (gt_total guarantee) total_insurance)) insurance_loss in
  gap ← gets (fun e => (lt_slash guarantor should_slashing (env_ext e)).1);
  modify (set_ext (fun x => (lt_slash guarantor should_slashing x).2));;
  let actual_slashing := U128.saturating_sub should_slashing gap in
  let guarantee := guarantee_slash actual_slashing guarantee in
  modify (hvl_deposit_event (SlashGuarantee guarantor validator actual_slashing));;
  modify (set_slashing (fun total => U128.saturating_add total actual_slashing));;
  mret (guarantee, tt).

(** The result of an update is ignored. *)
Definition slash_validator (staking_liquid_exchange_rate : ExchangeRate) (slash : SlashInfo) : HM unit :=
  let validator := si_validator slash in
  total_insurance ← gets (fun s => total_insurance (validator_backings s validator));
  let insurance_loss :=
    Z.min (saturating_mul_int staking_liquid_exchange_rate (si_amount slash)) total_insurance in
  guarantors ← gets (fun s => guarantors_of s validator);
  for_each (fun guarantor =>
    attempt (update_guarantee guarantor validator
      (slash_guarantee guarantor validator total_insurance insurance_loss));;
    mret tt) guarantors.

Definition hvl_slash (origin : Origin) (slashes : list SlashInfo) : HM unit := transactional (
  ensure (SlashOrigin origin) BadOrigin;;
  exchange_rate ← gets (fun s => liquid_staking_exchange_rate (env_ext (gs_env s)));
  let staking_liquid_exchange_rate := default 0 (fx_reciprocal exchange_rate) in
  gs_in_env (modify (set_slashing (fun _ => 0)));;
  for_each (slash_validator staking_liquid_exchange_rate) slashes;;
  gs_in_env (modify (fun e => set_ext (on_slash (actual_total_slashing e)) e))).

(** [Contains::contains] *)
Definition hvl_contains (relaychain_account_id : ValidatorId) (s : S) : bool :=
  ValidatorInsuranceThreshold <=? total_insurance (validator_backings s relaychain_account_id).
End Calls.
End Pallet.
Arguments HvlSt {_}.
Arguments HvlEnv {_}.
