(* ===== verification/HomaValidatorSpecs.v ===== *)
(** * The Homa validator list: refinement

    The specification of the pallet is the same calls on a storage that keeps
    only the guarantees and sums them up when a total is asked for.  The pallet
    implements it: the totals it keeps are those sums, whatever is called. *)
From S2P Require Import Prelude FixedPoint Primitives Runtime Sample HomaValidatorList.

(** The lock of an account is what was set last; nothing else the pallet calls
    changes a lock; balances are [u128]. *)
Class HvlLaws `(HvlConfig) := {
  lt_free_u128 x who : is_u128 (lt_free_balance x who);
  lt_set_lock_ok who n x x' : lt_set_lock who n x = inl x' ->
    forall y, lt_lock x' y = if (y =? who)%N then n else lt_lock x y;
  lt_remove_lock_ok who x x' : lt_remove_lock who x = inl x' ->
    forall y, lt_lock x' y = if (y =? who)%N then 0 else lt_lock x y;
  lt_slash_lock who n x y : lt_lock (lt_slash who n x).2 y = lt_lock x y;
  on_slash_lock n x y : lt_lock (on_slash n x) y = lt_lock x y;
  on_increase_lock i x y : lt_lock (on_increase_guarantee i x) y = lt_lock x y;
  on_decrease_lock i x y : lt_lock (on_decrease_guarantee i x) y = lt_lock x y;
  prefix_order_permutation l : prefix_order l ≡ₚ l }.

Section Spec.
Context `{HvlConfig}.

(** ** The specification: a book of guarantees *)
Record HvlBook := mkBook {
  bk_guarantees : gmap (ValidatorId * AccountId) Guarantee;
  bk_frozen : gset ValidatorId;
  bk_env : HvlEnv }.

Definition locked (m : gmap (ValidatorId * AccountId) Guarantee) (who : AccountId) : Z :=
  map_sum (fun k g => if (k.2 =? who)%N then gt_total g else 0) m.
Definition insured (m : gmap (ValidatorId * AccountId) Guarantee) (v : ValidatorId) : Z :=
  map_sum (fun k g => if (k.1 =? v)%N then gt_total g else 0) m.
Definition guaranteed (m : gmap (ValidatorId * AccountId) Guarantee) : Z :=
  map_sum (fun _ g => gt_total g) m.

Definition book_in_env {A} (m : M DispatchError HvlEnv A) : M DispatchError HvlBook A := fun b =>
  let r := m (bk_env b) in (r.1, mkBook (bk_guarantees b) (bk_frozen b) r.2).

Definition put_guarantee (k : ValidatorId * AccountId) (g : Guarantee)
    (m : gmap (ValidatorId * AccountId) Guarantee) : gmap (ValidatorId * AccountId) Guarantee :=
  if gt_total g =? 0 then delete k m else <[k := g]> m.

(** The guarantor's lock follows the sum of the guarantees. *)
Definition relock (who : AccountId) (n : Balance) : M DispatchError HvlEnv unit :=
  if n =? 0 then ext_try (lt_remove_lock who) else ext_try (lt_set_lock who n).

Definition book_update {A} (who : AccountId) (v : ValidatorId)
    (f : Guarantee -> M DispatchError HvlEnv (Guarantee * A)) : M DispatchError HvlBook A :=
  g ← gets (fun b => default Guarantee_default (bk_guarantees b !! (v, who)));
  '(g', result) ← book_in_env (f g);
  (if gt_total g' =? gt_total g then mret tt
   else
     book_in_env (modify (set_ext (
       if gt_total g <? gt_total g' then on_increase_guarantee (who, v, gt_total g' - gt_total g)
       else on_decrease_guarantee (who, v, gt_total g - gt_total g'))));;
     n ← gets (fun b => locked (put_guarantee (v, who) g' (bk_guarantees b)) who);
     book_in_env (relock who n));;
  modify (fun b => mkBook (put_guarantee (v, who) g' (bk_guarantees b)) (bk_frozen b) (bk_env b));;
  mret result.

#[export] Instance book_store : GuaranteeStore HvlBook := {
  gs_env := bk_env;
  gs_in_env := @book_in_env;
  total_locked_by_guarantor b who := locked (bk_guarantees b) who;
  validator_backings b v := mkBacking (insured (bk_guarantees b) v) (bool_decide (v ∈ bk_frozen b));
  set_is_frozen v f b :=
    mkBook (bk_guarantees b) (if f then {[v]} ∪ bk_frozen b else bk_frozen b ∖ {[v]}) (bk_env b);
  guarantors_of b v := prefix_order (prefix_keys v (bk_guarantees b));
  update_guarantee := @book_update }.

(** ** The relation *)
Definition unbonding_amount (g : Guarantee) : Z :=
  match gt_unbonding g with Some (n, _) => n | None => 0 end.
Definition guarantee_wf (g : Guarantee) : Prop :=
  0 <= gt_bonded g /\ 0 <= unbonding_amount g /\ gt_total g = gt_bonded g + unbonding_amount g.

Definition book_wf (b : HvlBook) : Prop :=
  (forall k g, bk_guarantees b !! k = Some g -> guarantee_wf g /\ gt_total g <> 0) /\
  (forall who, lt_lock (env_ext (bk_env b)) who = locked (bk_guarantees b) who) /\
  guaranteed (bk_guarantees b) <= U128_MAX.

Definition implements (s : HvlSt) (b : HvlBook) : Prop :=
  Guarantees s = bk_guarantees b /\ hvl_env s = bk_env b /\
  (forall who, hvl_total_locked s who = locked (bk_guarantees b) who) /\
  (forall v, hvl_backing s v = mkBacking (insured (bk_guarantees b) v) (bool_decide (v ∈ bk_frozen b))) /\
  book_wf b.
End Spec.

(** ** Guarantees stay well formed *)
Section Guarantees.
Lemma default_wf : guarantee_wf Guarantee_default.
Proof. done. Qed.
Lemma wf_total_nonneg g : guarantee_wf g -> 0 <= gt_total g.
Proof. intros (? & ? & ->). lia. Qed.

Lemma guarantee_rebond_wf n g : guarantee_wf g -> 0 <= n -> gt_total g <= U128_MAX ->
  guarantee_wf (guarantee_rebond n g) /\ gt_total (guarantee_rebond n g) = gt_total g.
Proof.
  unfold guarantee_wf, guarantee_rebond, unbonding_amount.
  destruct g as [t bd [[x blk]|]]; cbn [gt_total gt_bonded gt_unbonding]; [|done].
  intros (Hb & Hu & Ht) Hn Hm.
  destruct (Z.eqb_spec (U128.saturating_sub x (Z.min n x)) 0) as [He|He]; uunfold; split_and!; lia.
Qed.
(** A slash of any size takes the bond first, then what is unbonding. *)
Lemma slash_wf n g : guarantee_wf g -> 0 <= n ->
  guarantee_wf (guarantee_slash n g) /\ gt_total (guarantee_slash n g) = Z.max (gt_total g - n) 0.
Proof.
  unfold guarantee_wf, guarantee_slash, unbonding_amount. cbv zeta.
  destruct g as [t bd [[x blk]|]]; cbn [gt_total gt_bonded gt_unbonding]; intros (Hb & Hu & Ht) Hn;
    destruct (Z.eqb_spec (U128.saturating_sub n (Z.min bd n)) 0) as [He|He]; cbn [negb]; uunfold;
    try (destruct (Z.eqb_spec (Z.max (x - Z.min (Z.max (n - Z.min bd n) 0) x) 0) 0));
    split_and!; lia.
Qed.
Lemma guarantee_consolidate_wf now g : guarantee_wf g -> gt_total g <= U128_MAX ->
  let g' := consolidate_unbonding now g in
  let total := U128.saturating_add (gt_bonded g') (match gt_unbonding g' with Some (n, _) => n | None => 0 end) in
  guarantee_wf (mkGuarantee total (gt_bonded g') (gt_unbonding g')) /\ total <= gt_total g /\
  (gt_total g = total -> g' = mkGuarantee total (gt_bonded g') (gt_unbonding g')).
Proof.
  unfold guarantee_wf, consolidate_unbonding, unbonding_amount. cbv zeta.
  destruct g as [t bd [[x blk]|]]; cbn [gt_total gt_bonded gt_unbonding]; intros (Hb & Hu & Ht) Hm.
  - destruct (Z.leb_spec blk now); cbn [gt_total gt_bonded gt_unbonding];
      rewrite saturating_add_exact by lia; split_and!; try lia; intros He; by rewrite <- He.
  - rewrite saturating_add_exact by lia. split_and!; try lia. intros He. by rewrite <- He.
Qed.
End Guarantees.

(** ** The simulation *)
Section Simulation.
Context {HC : HvlConfig} {HL : HvlLaws HC}.
Implicit Types (s : HvlSt) (b : HvlBook) (e : HvlEnv) (g : Guarantee) (who x y : AccountId) (v : ValidatorId)
  (k : ValidatorId * AccountId).
Abbreviation Book := (gmap (ValidatorId * AccountId) Guarantee).

Lemma put_sum (p : ValidatorId * AccountId -> bool) (k : ValidatorId * AccountId) g (m : Book) :
  map_sum (fun k g => if p k then gt_total g else 0) (put_guarantee k g m) =
  map_sum (fun k g => if p k then gt_total g else 0) m
  + (if p k then gt_total g - gt_total (default Guarantee_default (m !! k)) else 0).
Proof.
  unfold put_guarantee. destruct (Z.eqb_spec (gt_total g) 0) as [He|He];
    rewrite ?map_sum_delete, ?map_sum_insert; destruct (m !! k) as [g0|]; cbn [from_option default id];
    destruct (p k); cbn [gt_total Guarantee_default]; lia.
Qed.
Lemma put_locked v who g (m : Book) x :
  locked (put_guarantee (v, who) g m) x =
  locked m x + (if (who =? x)%N then gt_total g - gt_total (default Guarantee_default (m !! (v, who))) else 0).
Proof. apply (put_sum (fun k => (k.2 =? x)%N)). Qed.
Lemma put_insured v who g (m : Book) x :
  insured (put_guarantee (v, who) g m) x =
  insured m x + (if (v =? x)%N then gt_total g - gt_total (default Guarantee_default (m !! (v, who))) else 0).
Proof. apply (put_sum (fun k => (k.1 =? x)%N)). Qed.
Lemma put_guaranteed (k : ValidatorId * AccountId) g (m : Book) :
  guaranteed (put_guarantee k g m) =
  guaranteed m + (gt_total g - gt_total (default Guarantee_default (m !! k))).
Proof. apply (put_sum (fun _ => true)). Qed.

(** A well-formed book's sums are between zero and all that is guaranteed. *)
Definition totals_pos (m : Book) : Prop := forall k g, m !! k = Some g -> 0 <= gt_total g.
Lemma book_totals_pos b : book_wf b -> totals_pos (bk_guarantees b).
Proof. intros [Hw _] k g Hk. by apply wf_total_nonneg, (Hw k g). Qed.
Lemma part_bound (p : ValidatorId * AccountId -> bool) (m : Book) : totals_pos m ->
  0 <= map_sum (fun k g => if p k then gt_total g else 0) m <= guaranteed m.
Proof.
  intros Hp. split.
  - apply map_sum_nonneg. intros k g Hk. specialize (Hp k g Hk). destruct (p k); lia.
  - unfold guaranteed. revert Hp. induction m as [|k g m Hk IH] using map_ind; intros Hp; [done|].
    rewrite !map_sum_insert_None by done. pose proof (Hp k g ltac:(by rewrite lookup_insert_eq)).
    enough (map_sum (fun k g => if p k then gt_total g else 0) m <= map_sum (fun _ g => gt_total g) m)
      by (destruct (p k); lia).
    apply IH. intros k' g' Hk'. apply (Hp k'). rewrite lookup_insert_ne; [done|]. intros ->. congruence.
Qed.
Lemma locked_bound (m : Book) who : totals_pos m -> 0 <= locked m who <= guaranteed m.
Proof. apply (part_bound (fun k => (k.2 =? who)%N)). Qed.
Lemma insured_bound (m : Book) v : totals_pos m -> 0 <= insured m v <= guaranteed m.
Proof. apply (part_bound (fun k => (k.1 =? v)%N)). Qed.
Lemma entry_bounds (m : Book) v who : totals_pos m ->
  0 <= gt_total (default Guarantee_default (m !! (v, who))) <= locked m who /\
  gt_total (default Guarantee_default (m !! (v, who))) <= insured m v.
Proof.
  intros Hp. pose proof (locked_bound m who Hp). pose proof (insured_bound m v Hp).
  destruct (m !! (v, who)) as [g|] eqn:Hk; cbn [default from_option id gt_total Guarantee_default]; [|lia].
  pose proof (map_sum_lookup_le (fun k g => if (k.2 =? who)%N then gt_total g else 0) m (v, who) g) as H1.
  pose proof (map_sum_lookup_le (fun k g => if (k.1 =? v)%N then gt_total g else 0) m (v, who) g) as H2.
  cbn [fst snd] in H1, H2. rewrite N.eqb_refl in H1, H2. pose proof (Hp _ _ Hk).
  assert (Hf : forall (q : ValidatorId * AccountId -> bool) k g, m !! k = Some g ->
    0 <= (if q k then gt_total g else 0)).
  { intros q k' g' Hk'. specialize (Hp _ _ Hk'). destruct (q k'); lia. }
  split; [split; [done|]|].
  - apply H1; [|done]. apply (Hf (fun k => (k.2 =? who)%N)).
  - apply H2; [|done]. apply (Hf (fun k => (k.1 =? v)%N)).
Qed.

(** The same result, in related states *)
Definition sim_at {A} (m : M DispatchError HvlSt A) (m' : M DispatchError HvlBook A) s b : Prop :=
  (m s).1 = (m' b).1 /\ implements (m s).2 (m' b).2.

Lemma sim_ret {A} (x : A) s b : implements s b -> sim_at (mret x) (mret x) s b.
Proof. by split. Qed.
Lemma sim_throw {A} err s b : implements s b -> sim_at (A:=A) (throw err) (throw err) s b.
Proof. by split. Qed.
Lemma sim_gets {A} (f : HvlSt -> A) (f' : HvlBook -> A) s b :
  implements s b -> f s = f' b -> sim_at (gets f) (gets f') s b.
Proof. intros Hi Hf. split; [cbn; by rewrite Hf|done]. Qed.
Lemma sim_ensure c err s b : implements s b -> sim_at (ensure c err) (ensure c err) s b.
Proof. by destruct c; split. Qed.
Lemma sim_bind {A B} (m : M DispatchError HvlSt A) m' (k : A -> M DispatchError HvlSt B)
    (k' : A -> M DispatchError HvlBook B) s b :
  sim_at m m' s b ->
  (forall (x : A), (m s).1 = Ok x -> implements (m s).2 (m' b).2 -> sim_at (k x) (k' x) (m s).2 (m' b).2) ->
  sim_at (m ≫= k) (m' ≫= k') s b.
Proof.
  unfold sim_at, mbind, M_bind. intros [Hr Hi] Hk.
  destruct (m s) as [[x|err|] s'], (m' b) as [[x'|err'|] b']; cbn in *; try discriminate.
  - injection Hr as <-. by apply Hk.
  - by injection Hr as <-.
  - by split.
Qed.
Lemma sim_transactional {A} (m : M DispatchError HvlSt A) m' s b :
  implements s b -> sim_at m m' s b -> sim_at (transactional m) (transactional m') s b.
Proof.
  unfold sim_at, transactional. intros Hs [Hr Hi].
  destruct (m s) as [[x|err|] s'], (m' b) as [[x'|err'|] b']; cbn in *; try discriminate; by split.
Qed.
Lemma sim_attempt {A} (m : M DispatchError HvlSt A) m' s b :
  sim_at m m' s b -> sim_at (attempt m) (attempt m') s b.
Proof.
  unfold sim_at, attempt. intros [Hr Hi].
  destruct (m s) as [[x|err|] s'], (m' b) as [[x'|err'|] b']; cbn in *; try discriminate; split;
    by try (injection Hr as <-).
Qed.
Lemma sim_for_each {X} (f : X -> M DispatchError HvlSt unit) f' l s b :
  implements s b -> (forall (x : X) s b, implements s b -> sim_at (f x) (f' x) s b) ->
  sim_at (for_each f l) (for_each f' l) s b.
Proof.
  intros Hs Hf. revert s b Hs. induction l as [|x l IH]; intros s b Hs; cbn [for_each].
  - by apply sim_ret.
  - apply sim_bind; [by apply Hf|]. intros [] _ Hi. by apply IH.
Qed.

(** Outside of the storage the two do the same. *)
Definition keeps_locks {A} (m : M DispatchError HvlEnv A) : Prop :=
  forall e who, lt_lock (env_ext (m e).2) who = lt_lock (env_ext e) who.
Lemma implements_env s b e :
  implements s b -> (forall who, lt_lock (env_ext e) who = lt_lock (env_ext (bk_env b)) who) ->
  implements (mkHvl (Guarantees s) (TotalLockedByGuarantor s) (ValidatorBackings s) e)
    (mkBook (bk_guarantees b) (bk_frozen b) e).
Proof.
  intros (H1 & H2 & H3 & H4 & H5 & H6 & H7) He.
  split; [exact H1|]. split; [done|]. split; [exact H3|]. split; [exact H4|].
  split; [exact H5|]. split; [|exact H7]. intros who. cbn. rewrite He. apply H6.
Qed.
Lemma sim_in_env {A} (m : M DispatchError HvlEnv A) s b :
  implements s b -> keeps_locks m -> sim_at (hvl_in_env m) (book_in_env m) s b.
Proof.
  intros Hs Hm. pose proof Hs as (_ & He & _). unfold sim_at, hvl_in_env, book_in_env. rewrite He.
  split; [done|]. cbn [snd]. apply implements_env; [done|]. intros who. apply Hm.
Qed.

(** A closure of [update_guarantee] keeps a guarantee well formed and adds at
    most [h] to it. *)
Definition closure_ok {A} b who v (f : Guarantee -> M DispatchError HvlEnv (Guarantee * A)) (h : Z) : Prop :=
  let g := default Guarantee_default (bk_guarantees b !! (v, who)) in
  keeps_locks (f g) /\
  (forall e g' r, (f g e).1 = Ok (g', r) -> guarantee_wf g' /\ gt_total g' <= gt_total g + h).

(** Writing a guarantee and the two totals *)
Lemma implements_put s b v who g' (e : HvlEnv) (tl : Z) (vb : ValidatorBacking)
    (g := default Guarantee_default (bk_guarantees b !! (v, who)))
    (m' := put_guarantee (v, who) g' (bk_guarantees b)) :
  implements s b -> guarantee_wf g' -> guaranteed m' <= U128_MAX ->
  tl = locked m' who -> vb = mkBacking (insured m' v) (bool_decide (v ∈ bk_frozen b)) ->
  (forall x, lt_lock (env_ext e) x = if (x =? who)%N then tl else lt_lock (env_ext (bk_env b)) x) ->
  implements
    (mkHvl ((if gt_total g' =? 0 then delete (v, who) else <[(v, who) := g']>) (Guarantees s))
       ((if tl =? 0 then delete who else <[who := tl]>) (TotalLockedByGuarantor s))
       (<[v := vb]> (ValidatorBackings s)) e)
    (mkBook m' (bk_frozen b) e).
Proof.
  intros (H1 & H2 & H3 & H4 & H5 & H6 & H7) Hg' Hm Htl Hvb Hlock.
  assert (Hother : forall x, x <> who -> locked m' x = locked (bk_guarantees b) x).
  { intros x Hx. unfold m'. rewrite put_locked. rewrite (proj2 (N.eqb_neq who x)) by done. lia. }
  split; [|split; [|split; [|split; [|split; [|split]]]]]; cbn.
  - rewrite H1. unfold m', put_guarantee. by destruct (_ =? 0).
  - done.
  - intros x. unfold hvl_total_locked. cbn. destruct (decide (x = who)) as [->|Hx].
    + rewrite <- Htl. destruct (Z.eqb_spec tl 0) as [->|_]; [by rewrite lookup_delete_eq|by rewrite lookup_insert_eq].
    + rewrite Hother by done. rewrite <- H3. unfold hvl_total_locked.
      destruct (tl =? 0); [by rewrite lookup_delete_ne|by rewrite lookup_insert_ne].
  - intros x. unfold hvl_backing. cbn. destruct (decide (x = v)) as [->|Hx].
    + by rewrite lookup_insert_eq.
    + rewrite lookup_insert_ne by done. unfold hvl_backing in H4. rewrite H4. f_equal.
      unfold m'. rewrite put_insured. rewrite (proj2 (N.eqb_neq v x)) by done. lia.
  - intros k x. unfold m', put_guarantee. destruct (Z.eqb_spec (gt_total g') 0) as [Hz|Hz].
    + intros [_ Hk]%lookup_delete_Some. by apply H5 in Hk.
    + intros [[_ <-]|[_ Hk]]%lookup_insert_Some; [done|by apply H5 in Hk].
  - intros x. rewrite Hlock. destruct (N.eqb_spec x who) as [->|Hx]; [done|]. by rewrite H6, Hother.
  - done.
Qed.

(** Writing back a guarantee whose total is the same *)
Lemma implements_put_same s b v who g' e
    (g := default Guarantee_default (bk_guarantees b !! (v, who)))
    (m' := put_guarantee (v, who) g' (bk_guarantees b)) :
  implements s b -> guarantee_wf g' -> gt_total g' = gt_total g ->
  (forall x, lt_lock (env_ext e) x = lt_lock (env_ext (bk_env b)) x) ->
  implements
    (mkHvl ((if gt_total g' =? 0 then delete (v, who) else <[(v, who) := g']>) (Guarantees s))
       (TotalLockedByGuarantor s) (ValidatorBackings s) e)
    (mkBook m' (bk_frozen b) e).
Proof.
  intros (H1 & H2 & H3 & H4 & H5 & H6 & H7) Hg' Ht Hlock.
  assert (Hl : forall x, locked m' x = locked (bk_guarantees b) x).
  { intros x. unfold m'. rewrite put_locked. fold g. destruct (_ =? _)%N; lia. }
  assert (Hi : forall x, insured m' x = insured (bk_guarantees b) x).
  { intros x. unfold m'. rewrite put_insured. fold g. destruct (_ =? _)%N; lia. }
  split; [|split; [|split; [|split; [|split; [|split]]]]]; cbn.
  - rewrite H1. unfold m', put_guarantee. by destruct (_ =? 0).
  - done.
  - intros x. rewrite Hl. apply H3.
  - intros x. rewrite Hi. apply H4.
  - intros k x. unfold m', put_guarantee. destruct (Z.eqb_spec (gt_total g') 0) as [Hz|Hz].
    + intros [_ Hk]%lookup_delete_Some. by apply H5 in Hk.
    + intros [[_ <-]|[_ Hk]]%lookup_insert_Some; [done|by apply H5 in Hk].
  - intros x. by rewrite Hlock, H6, Hl.
  - unfold m'. rewrite put_guaranteed. fold g. lia.
Qed.

(** Setting the lock to the new sum, or removing it *)
Lemma relock_locks who (n : Z) e e' : relock who n e = (Ok tt, e') ->
  forall x, lt_lock (env_ext e') x = if (x =? who)%N then n else lt_lock (env_ext e) x.
Proof.
  unfold relock, ext_try. destruct (Z.eqb_spec n 0) as [->|_].
  - destruct (lt_remove_lock who (env_ext e)) as [x'|err] eqn:Hr; intros [= <-].
    by apply lt_remove_lock_ok.
  - destruct (lt_set_lock who n (env_ext e)) as [x'|err] eqn:Hr; intros [= <-].
    by apply lt_set_lock_ok.
Qed.
Lemma relock_fails who (n : Z) e e' (err : DispatchError) : relock who n e = (Err err, e') -> e' = e.
Proof.
  unfold relock, ext_try. destruct (n =? 0).
  - destruct (lt_remove_lock who (env_ext e)); by intros [= _ <-].
  - destruct (lt_set_lock who n (env_ext e)); by intros [= _ <-].
Qed.
Lemma relock_no_panic who (n : Z) e e' : relock who n e <> (Panic, e').
Proof.
  unfold relock, ext_try. destruct (n =? 0); [destruct (lt_remove_lock _ _)|destruct (lt_set_lock _ _ _)]; done.
Qed.

(** The update of the pallet, its totals computed first *)
Definition new_backing (vb : ValidatorBacking) (old new : Z) : ValidatorBacking :=
  mkBacking (if old <? new then U128.saturating_add (total_insurance vb) (new - old)
             else U128.saturating_sub (total_insurance vb) (old - new)) (is_frozen vb).
Definition new_locked (tl old new : Z) : Z :=
  if old <? new then U128.saturating_add tl (new - old) else U128.saturating_sub tl (old - new).
Definition hook who v (old new : Z) (e : HvlEnv) : HvlEnv :=
  set_ext (if old <? new then on_increase_guarantee (who, v, new - old)
           else on_decrease_guarantee (who, v, old - new)) e.

Lemma hvl_update_eq {A} who v (f : Guarantee -> M DispatchError HvlEnv (Guarantee * A)) s :
  hvl_update_guarantee who v f s =
  let g := default Guarantee_default (Guarantees s !! (v, who)) in
  let put g' e TL VB :=
    mkHvl ((if gt_total g' =? 0 then delete (v, who) else <[(v, who) := g']>) (Guarantees s)) TL VB e in
  match f g (hvl_env s) with
  | (Ok (g', r), e) =>
      if gt_total g' =? gt_total g
      then (Ok r, put g' e (TotalLockedByGuarantor s) (ValidatorBackings s))
      else
        let tl := new_locked (hvl_total_locked s who) (gt_total g) (gt_total g') in
        let vb := new_backing (hvl_backing s v) (gt_total g) (gt_total g') in
        match relock who tl (hook who v (gt_total g) (gt_total g') e) with
        | (Ok _, e) =>
            (Ok r, put g' e ((if tl =? 0 then delete who else <[who := tl]>) (TotalLockedByGuarantor s))
                     (<[v := vb]> (ValidatorBackings s)))
        | (Err err, e) => (Err err, mkHvl (Guarantees s) (TotalLockedByGuarantor s) (ValidatorBackings s) e)
        | (Panic, e) => (Panic, mkHvl (Guarantees s) (TotalLockedByGuarantor s) (ValidatorBackings s) e)
        end
  | (Err err, e) => (Err err, mkHvl (Guarantees s) (TotalLockedByGuarantor s) (ValidatorBackings s) e)
  | (Panic, e) => (Panic, mkHvl (Guarantees s) (TotalLockedByGuarantor s) (ValidatorBackings s) e)
  end.
Proof.
  unfold hvl_update_guarantee, mbind, M_bind, gets, modify, hvl_in_env. cbv zeta.
  set (g := default _ _). destruct (f g (hvl_env s)) as [[[g' r]|err|] e]; cbn [fst snd]; [|done..].
  destruct (gt_total g' =? gt_total g); cbn [negb]; [done|].
  unfold new_locked, new_backing, hook, relock, hvl_total_locked, hvl_backing, mret, M_ret.
  destruct (gt_total g <? gt_total g'); cbn -[ext_try Z.eqb U128.saturating_add U128.saturating_sub].
  - destruct (U128.saturating_add (default 0 (TotalLockedByGuarantor s !! who))
        (gt_total g' - gt_total g) =? 0); cbn -[ext_try Z.eqb U128.saturating_add];
      by destruct (ext_try _ _) as [[[]|?|] ?].
  - destruct (U128.saturating_sub (default 0 (TotalLockedByGuarantor s !! who))
        (gt_total g - gt_total g') =? 0); cbn -[ext_try Z.eqb U128.saturating_sub];
      by destruct (ext_try _ _) as [[[]|?|] ?].
Qed.

Lemma book_update_eq {A} who v (f : Guarantee -> M DispatchError HvlEnv (Guarantee * A)) b :
  book_update who v f b =
  let g := default Guarantee_default (bk_guarantees b !! (v, who)) in
  match f g (bk_env b) with
  | (Ok (g', r), e) =>
      let m' := put_guarantee (v, who) g' (bk_guarantees b) in
      if gt_total g' =? gt_total g then (Ok r, mkBook m' (bk_frozen b) e)
      else
        match relock who (locked m' who) (hook who v (gt_total g) (gt_total g') e) with
        | (Ok _, e) => (Ok r, mkBook m' (bk_frozen b) e)
        | (Err err, e) => (Err err, mkBook (bk_guarantees b) (bk_frozen b) e)
        | (Panic, e) => (Panic, mkBook (bk_guarantees b) (bk_frozen b) e)
        end
  | (Err err, e) => (Err err, mkBook (bk_guarantees b) (bk_frozen b) e)
  | (Panic, e) => (Panic, mkBook (bk_guarantees b) (bk_frozen b) e)
  end.
Proof.
  unfold book_update, mbind, M_bind, gets, modify, book_in_env. cbv zeta.
  set (g := default _ _). destruct (f g (bk_env b)) as [[[g' r]|err|] e]; cbn [fst snd]; [|done..].
  destruct (gt_total g' =? gt_total g); [done|]. cbn [bk_guarantees bk_env bk_frozen].
  unfold hook. by destruct (relock _ _ _) as [[[]|?|] ?].
Qed.

Lemma sim_update {A} who v (f : Guarantee -> M DispatchError HvlEnv (Guarantee * A)) (h : Z) s b :
  implements s b -> closure_ok b who v f h -> 0 <= h -> guaranteed (bk_guarantees b) + h <= U128_MAX ->
  sim_at (hvl_update_guarantee who v f) (book_update who v f) s b.
Proof.
  intros Hs [Hk Hf] Hh Hm. unfold sim_at. rewrite hvl_update_eq, book_update_eq. cbv zeta.
  pose proof Hs as (H1 & H2 & H3 & H4 & Hwf).
  assert (Hg : default Guarantee_default (Guarantees s !! (v, who))
             = default Guarantee_default (bk_guarantees b !! (v, who))) by (by rewrite H1).
  rewrite Hg, H2.
  set (g := default _ _) in *. specialize (Hk (bk_env b)). specialize (Hf (bk_env b)).
  destruct (f g (bk_env b)) as [[[g' r]|err|] e]; cbn [fst snd] in *.
  2, 3: split; [done|]; by apply implements_env.
  destruct (Hf g' r eq_refl) as [Hg' Hle]. pose proof (book_totals_pos b Hwf) as Hp.
  destruct (entry_bounds (bk_guarantees b) v who Hp) as [[He1 He2] He3]. fold g in He1, He2, He3.
  pose proof (locked_bound (bk_guarantees b) who Hp) as Hlb.
  pose proof (insured_bound (bk_guarantees b) v Hp) as Hib. pose proof (wf_total_nonneg g' Hg') as Hpos.
  destruct (Z.eqb_spec (gt_total g') (gt_total g)) as [Heq|Hne].
  { split; [done|]. by apply implements_put_same. }
  set (m' := put_guarantee (v, who) g' (bk_guarantees b)).
  assert (Htl : new_locked (hvl_total_locked s who) (gt_total g) (gt_total g') = locked m' who).
  { unfold m', new_locked. rewrite put_locked, N.eqb_refl, H3. fold g.
    destruct (Z.ltb_spec (gt_total g) (gt_total g'));
      [rewrite saturating_add_exact by lia; lia|rewrite saturating_sub_exact by lia; lia]. }
  assert (Hvb : new_backing (hvl_backing s v) (gt_total g) (gt_total g')
              = mkBacking (insured m' v) (bool_decide (v ∈ bk_frozen b))).
  { unfold m', new_backing. rewrite put_insured, N.eqb_refl, H4. fold g. cbn [total_insurance is_frozen].
    f_equal. destruct (Z.ltb_spec (gt_total g) (gt_total g'));
      [rewrite saturating_add_exact by lia; lia|rewrite saturating_sub_exact by lia; lia]. }
  rewrite Htl, Hvb.
  assert (Hhook : forall x, lt_lock (env_ext (hook who v (gt_total g) (gt_total g') e)) x
                          = lt_lock (env_ext (bk_env b)) x).
  { intros x. rewrite <- Hk. unfold hook. cbn.
    destruct (_ <? _); [apply on_increase_lock|apply on_decrease_lock]. }
  destruct (relock who (locked m' who) _) as [[[]|err|] e2] eqn:Hr.
  - split; [done|]. apply implements_put; try done.
    + unfold m'. rewrite put_guaranteed. fold g. lia.
    + intros x. rewrite (relock_locks _ _ _ _ Hr x). by destruct (x =? who)%N.
  - split; [done|]. apply relock_fails in Hr as ->. by apply implements_env.
  - by apply relock_no_panic in Hr.
Qed.

(** *** The calls *)
Inductive hvl_call :=
  | HvlBond (origin : Origin) (validator : ValidatorId) (amount : Balance)
  | HvlUnbond (origin : Origin) (validator : ValidatorId) (amount : Balance)
  | HvlRebond (origin : Origin) (validator : ValidatorId) (amount : Balance)
  | HvlWithdrawUnbonded (origin : Origin) (validator : ValidatorId)
  | HvlFreeze (origin : Origin) (validators : list ValidatorId)
  | HvlThaw (origin : Origin) (validators : list ValidatorId)
  | HvlSlash (origin : Origin) (slashes : list SlashInfo).

Definition run_hvl {S} `{GuaranteeStore S} (c : hvl_call) : M DispatchError S unit :=
  match c with
  | HvlBond o v n => hvl_bond o v n
  | HvlUnbond o v n => hvl_unbond o v n
  | HvlRebond o v n => hvl_rebond o v n
  | HvlWithdrawUnbonded o v => hvl_withdraw_unbonded o v
  | HvlFreeze o l => hvl_freeze o l
  | HvlThaw o l => hvl_thaw o l
  | HvlSlash o l => hvl_slash o l
  end.

(** The amounts are [u128], and with what is bonded now the guarantees are still
    part of the currency's issuance. *)
Definition hvl_call_ok (c : hvl_call) b : Prop :=
  match c with
  | HvlBond (Signed who) _ n =>
      0 <= n /\ guaranteed (bk_guarantees b)
        + Z.min n (lt_free_balance (env_ext (bk_env b)) who - locked (bk_guarantees b) who) <= U128_MAX
  | HvlBond _ _ n | HvlUnbond _ _ n | HvlRebond _ _ n => 0 <= n
  | _ => True
  end.

Lemma book_entry_wf b v who : book_wf b ->
  let g := default Guarantee_default (bk_guarantees b !! (v, who)) in
  guarantee_wf g /\ gt_total g <= guaranteed (bk_guarantees b).
Proof.
  intros Hwf. pose proof (book_totals_pos b Hwf) as Hp.
  pose proof (entry_bounds (bk_guarantees b) v who Hp). pose proof (locked_bound (bk_guarantees b) who Hp).
  split; [|lia]. destruct (bk_guarantees b !! (v, who)) as [g|] eqn:Hk; [by apply Hwf in Hk as [? _]|apply default_wf].
Qed.

Lemma sim_signed (o : Origin) s b : implements s b ->
  sim_at (hvl_ensure_signed o) (hvl_ensure_signed o) s b /\
  (hvl_ensure_signed o s).2 = s /\ (hvl_ensure_signed o b).2 = b.
Proof. by destruct o. Qed.

(** A step that reads, in the same state *)
Lemma sim_bind_gets {A B} (f : HvlSt -> A) (f' : HvlBook -> A) (k : A -> M DispatchError HvlSt B)
    (k' : A -> M DispatchError HvlBook B) s b :
  f s = f' b -> sim_at (k (f s)) (k' (f s)) s b -> sim_at (gets f ≫= k) (gets f' ≫= k') s b.
Proof. intros Hf Hk. unfold sim_at, mbind, M_bind, gets in *. by rewrite <- Hf. Qed.
Lemma sim_bind_ensure {B} c err (k : unit -> M DispatchError HvlSt B) (k' : unit -> M DispatchError HvlBook B) s b :
  implements s b -> (c = true -> sim_at (k tt) (k' tt) s b) ->
  sim_at (ensure c err ≫= k) (ensure c err ≫= k') s b.
Proof. intros Hs Hk. destruct c; [by apply Hk|by split]. Qed.
Lemma sim_bind_signed {B} (o : Origin) (k : AccountId -> M DispatchError HvlSt B)
    (k' : AccountId -> M DispatchError HvlBook B) s b :
  implements s b -> (forall who, o = Signed who -> sim_at (k who) (k' who) s b) ->
  sim_at (hvl_ensure_signed o ≫= k) (hvl_ensure_signed o ≫= k') s b.
Proof. intros Hs Hk. destruct o as [|who|]; [by split|by apply Hk|by split]. Qed.

Lemma sim_bond o v (n : Balance) s b : implements s b -> hvl_call_ok (HvlBond o v n) b ->
  sim_at (hvl_bond o v n) (hvl_bond o v n) s b.
Proof.
  intros Hs Hok. apply sim_transactional; [done|]. apply sim_bind_signed; [done|]. intros who ->.
  destruct Hok as [Hn Hroom]. pose proof Hs as (H1 & H2 & H3 & H4 & Hwf).
  apply sim_bind_gets; [cbn; by rewrite H2|]. apply sim_bind_gets; [apply H3|].
  cbn [gs_env total_locked_by_guarantor hvl_store book_store]. rewrite H2, H3.
  destruct (U128.checked_sub _ _) as [extra|] eqn:He; [|by apply sim_ret].
  apply checked_sub_Some in He as [-> Hle].
  set (amount := Z.min n _) in *.
  destruct (Z.eqb_spec amount 0) as [_|Hne]; cbn [negb]; [by apply sim_ret|].
  apply (sim_update who v _ amount); [done| |subst amount; lia|done].
  destruct (book_entry_wf b v who Hwf) as [(Hb & Hu & Ht) Hg]. split.
  - intros e x. unfold mbind, M_bind, ensure. by destruct (_ <=? _).
  - intros e g' []. unfold mbind, M_bind, ensure. destruct (_ <=? _); [|done]. cbn. intros [= <-].
    set (g := default _ _) in *. unfold guarantee_wf, unbonding_amount in *. cbn.
    rewrite !saturating_add_exact by lia. split_and!; lia.
Qed.

Lemma sim_unbond o v (n : Balance) s b : implements s b -> 0 <= n ->
  sim_at (hvl_unbond o v n) (hvl_unbond o v n) s b.
Proof.
  intros Hs Hn. apply sim_transactional; [done|]. apply sim_bind_signed; [done|]. intros who _.
  pose proof Hs as (H1 & H2 & H3 & H4 & Hwf). pose proof Hwf as (_ & _ & Hmax).
  destruct (negb (n =? 0)); [|by apply sim_ret].
  apply (sim_update who v _ 0); [done| |lia|lia].
  destruct (book_entry_wf b v who Hwf) as [(Hb & Hu & Ht) Hg]. set (g := default _ _) in *. split.
  - intros e x. fold g. unfold mbind, M_bind, ensure. destruct (gt_unbonding g); [done|]. cbn. by destruct (_ || _).
  - intros e g' []. fold g. unfold mbind, M_bind, ensure. unfold guarantee_wf, unbonding_amount in *.
    destruct (gt_unbonding g) as [[]|]; [done|]. cbn. destruct (_ || _); [|done]. cbn. intros [= <-].
    cbn. rewrite saturating_sub_exact by lia. split_and!; lia.
Qed.

Lemma sim_rebond o v (n : Balance) s b : implements s b -> 0 <= n ->
  sim_at (hvl_rebond o v n) (hvl_rebond o v n) s b.
Proof.
  intros Hs Hn. apply sim_transactional; [done|]. apply sim_bind_signed; [done|]. intros who _.
  pose proof Hs as (H1 & H2 & H3 & H4 & Hwf). pose proof Hwf as (_ & _ & Hmax).
  destruct (negb (n =? 0)); [|by apply sim_ret].
  apply (sim_update who v _ 0); [done| |lia|lia].
  destruct (book_entry_wf b v who Hwf) as [Hg Hle]. split; [by intros e x|].
  intros e g' [] [= <-]. destruct (guarantee_rebond_wf n _ Hg Hn ltac:(lia)) as [Hw Ht]. split; [done|lia].
Qed.

Lemma sim_withdraw o v s b : implements s b ->
  sim_at (hvl_withdraw_unbonded o v) (hvl_withdraw_unbonded o v) s b.
Proof.
  intros Hs. apply sim_transactional; [done|]. apply sim_bind_signed; [done|]. intros who _.
  pose proof Hs as (H1 & H2 & H3 & H4 & Hwf). pose proof Hwf as (_ & _ & Hmax).
  apply sim_bind_gets; [cbn; by rewrite H4|]. apply sim_bind_ensure; [done|]. intros _.
  apply (sim_update who v _ 0); [done| |lia|lia].
  destruct (book_entry_wf b v who Hwf) as [Hg Hle]. set (g := default _ _) in *. split.
  - intros e x. unfold mbind, M_bind, gets. by destruct (negb _).
  - intros e g' []. fold g. unfold mbind, M_bind, gets.
    destruct (guarantee_consolidate_wf (current_block_number (env_ext e)) g Hg ltac:(lia)) as (Hw & Ht & Hsame).
    set (g1 := consolidate_unbonding _ g) in *. set (total := U128.saturating_add _ _) in *.
    destruct (Z.eqb_spec (gt_total g) total) as [He|He]; cbn [negb]; intros [= <-].
    + rewrite (Hsame He). split; [done|cbn; lia].
    + split; [done|cbn; lia].
Qed.

Lemma implements_frozen s b v (f : bool) : implements s b ->
  implements (set_is_frozen v f s) (set_is_frozen v f b).
Proof.
  intros (H1 & H2 & H3 & H4 & Hwf). split; [exact H1|]. split; [exact H2|]. split; [exact H3|].
  split; [|exact Hwf]. intros x. cbn -[hvl_backing]. unfold hvl_backing at 1. cbn -[hvl_backing].
  destruct (decide (x = v)) as [->|Hx].
  - rewrite lookup_insert_eq, H4. cbn. f_equal. destruct f; [by rewrite bool_decide_true by set_solver|].
    by rewrite bool_decide_false by set_solver.
  - rewrite lookup_insert_ne by done. unfold hvl_backing in H4. rewrite H4. f_equal.
    destruct f; apply bool_decide_ext; set_solver.
Qed.
Lemma sim_set_frozen_all (f : bool) ev l s b : implements s b ->
  sim_at (set_frozen_all f ev l) (set_frozen_all f ev l) s b.
Proof.
  intros Hs. apply sim_for_each; [done|]. clear s b Hs. intros v s b Hs.
  pose proof Hs as (_ & _ & _ & H4 & _). apply sim_bind_gets; [apply H4|]. apply sim_bind.
  - destruct (negb _); [|by apply sim_ret]. apply sim_in_env; [done|]. by intros e x.
  - intros [] _ Hi. split; [done|]. by apply implements_frozen.
Qed.

Lemma slash_guarantee_ok b v who ti loss : book_wf b ->
  closure_ok b who v (slash_guarantee who v ti loss) 0.
Proof.
  intros Hwf. destruct (book_entry_wf b v who Hwf) as [Hg _]. split.
  - intros e x. unfold slash_guarantee, mbind, M_bind, gets, modify. cbn. apply lt_slash_lock.
  - intros e g' []. unfold slash_guarantee, mbind, M_bind, gets, modify. cbv zeta. intros [= <-].
    set (g := default _ _) in *. set (n := U128.saturating_sub _ _).
    assert (0 <= n) by (unfold n, U128.saturating_sub; lia).
    destruct (slash_wf n g Hg ltac:(done)) as [Hw Ht]. split; [done|]. rewrite Ht.
    pose proof (wf_total_nonneg g Hg). lia.
Qed.
Lemma sim_slash o l s b : implements s b -> sim_at (hvl_slash o l) (hvl_slash o l) s b.
Proof.
  intros Hs. apply sim_transactional; [done|]. apply sim_bind_ensure; [done|]. intros _.
  pose proof Hs as (_ & H2 & _). apply sim_bind_gets; [cbn; by rewrite H2|].
  apply sim_bind; [apply sim_in_env; [done|by intros e x]|]. intros [] _ Hi.
  apply sim_bind.
  - apply sim_for_each; [done|]. intros [v n] s1 b1 Hs1. unfold slash_validator. cbn [si_validator si_amount].
    pose proof Hs1 as (I1 & _ & _ & I4 & _). apply sim_bind_gets; [cbn; by rewrite I4|].
    apply sim_bind_gets; [cbn; by rewrite I1|].
    apply sim_for_each; [done|]. intros who s2 b2 Hs2.
    pose proof Hs2 as (_ & _ & _ & _ & Hwf). pose proof Hwf as (_ & _ & Hmax).
    apply sim_bind; [|intros r _ Hr; by apply sim_ret].
    apply sim_attempt. apply (sim_update who v _ 0); [done| |lia|lia]. by apply slash_guarantee_ok.
  - intros [] _ Hi2. apply sim_in_env; [done|]. intros e x. apply on_slash_lock.
Qed.

(** A history of calls, each of them within the issuance *)
Fixpoint run_hvl_all {S} `{GuaranteeStore S} (l : list hvl_call) (st : S) :
    list (outcome DispatchError unit) * S :=
  match l with
  | [] => ([], st)
  | c :: l => let r := run_hvl_all l (run_hvl c st).2 in ((run_hvl c st).1 :: r.1, r.2)
  end.
Fixpoint hvl_calls_ok (l : list hvl_call) b : Prop :=
  match l with
  | [] => True
  | c :: l => hvl_call_ok c b /\ hvl_calls_ok l (run_hvl c b).2
  end.

Lemma run_hvl_sim c s b : implements s b -> hvl_call_ok c b -> sim_at (run_hvl c) (run_hvl c) s b.
Proof.
  intros Hs Hc. destruct c; cbn [run_hvl].
  - by apply sim_bond.
  - by apply sim_unbond.
  - by apply sim_rebond.
  - by apply sim_withdraw.
  - apply sim_transactional; [done|]. apply sim_bind_ensure; [done|]. intros _. by apply sim_set_frozen_all.
  - apply sim_transactional; [done|]. apply sim_bind_ensure; [done|]. intros _. by apply sim_set_frozen_all.
  - by apply sim_slash.
Qed.

(** C16: the pallet implements the book of guarantees.  Whatever is called, it
    returns what the specification returns - which keeps the guarantees only and
    sums them up when a total is needed - and its totals by guarantor and by
    validator and the lock of every guarantor remain those sums, while every
    guarantee adds up to what is bonded and what is unbonding. *)
Theorem validator_list_refines (l : list hvl_call) (s : HvlSt) (b : HvlBook)
    (Hs : implements s b) (Hl : hvl_calls_ok l b) :
  (run_hvl_all l s).1 = (run_hvl_all l b).1 /\
  implements (run_hvl_all l s).2 (run_hvl_all l b).2.
Proof.
  revert s b Hs Hl. induction l as [|c l IH]; intros s b Hs Hl; [done|].
  destruct Hl as [Hc Hl]. destruct (run_hvl_sim c s b Hs Hc) as [Hr Hi].
  destruct (IH _ _ Hi Hl) as [IH1 IH2]. cbn. by rewrite Hr, IH1.
Qed.
End Simulation.

(** ** A sample pallet *)
Section SamplePallet.
#[local] Instance sample_hvl : HvlConfig := {
  hvl_fixed := sample_fixed;
  fx_reciprocal := fun r => if r =? 0 then None else Some (DIV * DIV / r);
  HvlExt := gmap AccountId Balance * gmap AccountId Balance;
  lt_free_balance := fun x who => 1000;
  lt_lock := fun x who => default 0 (x.1 !! who);
  lt_set_lock := fun who n x => inl (<[who := n]> x.1, x.2);
  lt_remove_lock := fun who x => inl (delete who x.1, x.2);
  lt_slash := fun who n x => (0, (x.1, <[who := n]> x.2));
  on_slash := fun _ x => x;
  on_increase_guarantee := fun _ x => x;
  on_decrease_guarantee := fun _ x => x;
  liquid_staking_exchange_rate := fun _ => DIV / 2;
  current_block_number := fun _ => 5;
  MinBondAmount := 10;
  HvlBondingDuration := 0;
  ValidatorInsuranceThreshold := 100;
  FreezeOrigin := fun o => match o with Root => true | _ => false end;
  SlashOrigin := fun o => match o with Root => true | _ => false end;
  prefix_order := fun l => l }.

#[local] Instance sample_hvl_laws : HvlLaws sample_hvl.
Proof.
  constructor; try done.
  - intros who n x x' Hx y. cbn in Hx. injection Hx as <-. cbn. destruct (N.eqb_spec y who) as [->|Hne];
      [by rewrite lookup_insert_eq|by rewrite lookup_insert_ne].
  - intros who x x' Hx y. cbn in Hx. injection Hx as <-. cbn. destruct (N.eqb_spec y who) as [->|Hne];
      [by rewrite lookup_delete_eq|by rewrite lookup_delete_ne].
Defined.

Definition sample_env : HvlEnv := mkHvlEnv ((∅, ∅) : HvlExt) [] 0.
Definition sample_hvl_calls : list hvl_call :=
  [HvlBond (Signed 1%N) 7%N 100; HvlBond (Signed 2%N) 7%N 300; HvlBond (Signed 1%N) 8%N 50;
   HvlUnbond (Signed 1%N) 7%N 40; HvlSlash Root [mkSlashInfo 7%N 40]; HvlWithdrawUnbonded (Signed 1%N) 7%N].

(** C37 from empty storage: after bonds, a slash of 80 shared one to three and a
    withdrawal, the totals are 40 + 240 for the validator. *)
Example validator_list_refines_witness :
  let s := (run_hvl_all sample_hvl_calls (mkHvl ∅ ∅ ∅ sample_env)).2 in
  implements s (run_hvl_all sample_hvl_calls (mkBook ∅ ∅ sample_env)).2 /\
  total_insurance (hvl_backing s 7%N) = 280 /\ hvl_total_locked s 1%N = 90.
Proof.
  cbv zeta. split; [|by vm_compute].
  apply (validator_list_refines sample_hvl_calls (mkHvl ∅ ∅ ∅ sample_env) (mkBook ∅ ∅ sample_env)).
  - split_and!; try done.
  - wcheck.
Defined.
End SamplePallet.
