(* ===== verification/CollatorSelection.v ===== *)
(** * The selection of collators

    [modules/collator-selection/src/lib.rs]: invulnerables and bonded candidates
    make the blocks; a candidate who authored too few blocks in a session is
    removed at its end.  The calls are not transactional: what they wrote before
    an error stays.  [debug_assert!] is absent from release builds. *)
From S2P Require Import Prelude Primitives Runtime.
From stdpp Require Import sorting.
#[local] Open Scope Z_scope.

(** What the session pallet answers: the validators of the session, and who has
    registered session keys. *)
Record SessionInfo := mkSession {
  ses_validators : list AccountId;
  ses_registered : gset AccountId }.

(** [sp_runtime::Permill]: parts of a million, and the product rounded down *)
Class CollatorConfig := {
  (* [NamedReservableCurrency], under the identifier [RESERVE_ID] *)
  CsCurrency : Type;
  cs_free_balance : CsCurrency -> AccountId -> Balance;
  cs_minimum_balance : Balance;
  cs_transfer : AccountId -> AccountId -> Balance -> CsCurrency -> CsCurrency + DispatchError;
  cs_reserved_named : CsCurrency -> AccountId -> Balance;
  cs_ensure_reserved_named : AccountId -> Balance -> CsCurrency -> CsCurrency + DispatchError;
  cs_unreserve_all_named : AccountId -> CsCurrency -> CsCurrency;
  CsUpdateOrigin : Origin -> bool;
  cs_account_id : AccountId;
  MinCandidates : Z;
  MaxCandidates : Z;
  MaxInvulnerables : Z;
  kick_threshold_mul_floor : Z -> Z;
  (* the order a storage map is drained in *)
  points_order : list (AccountId * Z) -> list (AccountId * Z) }.

(** Constants are of their types, a named reserve is changed by the operations
    on it only, and draining visits every entry once. *)
Class CollatorLaws `(CollatorConfig) := {
  min_candidates_u32 : is_u32 MinCandidates;
  max_candidates_u32 : is_u32 MaxCandidates;
  max_invulnerables_u32 : is_u32 MaxInvulnerables;
  transfer_keeps_reserves from to n c c' who :
    cs_transfer from to n c = inl c' -> cs_reserved_named c' who = cs_reserved_named c who;
  ensure_reserved_law who n c c' x :
    cs_ensure_reserved_named who n c = inl c' ->
    cs_reserved_named c' x = if (x =? who)%N then n else cs_reserved_named c x;
  unreserve_all_law who c x :
    cs_reserved_named (cs_unreserve_all_named who c) x =
    if (x =? who)%N then 0 else cs_reserved_named c x;
  (* the threshold is between 0 and 1 *)
  mul_floor_le n : is_u32 n -> 0 <= kick_threshold_mul_floor n <= n;
  points_order_permutation l : points_order l ≡ₚ l }.

Definition POINT_PER_BLOCK : Z := 10.

Inductive CollatorEvent :=
  | NewInvulnerables (new : list AccountId)
  | NewDesiredCandidates (max : Z)
  | NewCandidacyBond (bond : Balance)
  | CandidateAdded (who : AccountId) (deposit : Balance)
  | CandidateRemoved (who : AccountId).

Section Pallet.
Context `{CollatorConfig}.

Record CollatorSt := mkCollator {
  Invulnerables : list AccountId;
  Candidates : gset AccountId;
  DesiredCandidates : Z;
  CandidacyBond : Balance;
  SessionPoints : gmap AccountId Z;
  cs_currency : CsCurrency;
  cs_session : SessionInfo;
  cs_events : list CollatorEvent }.

Abbreviation CM A := (M DispatchError CollatorSt A).

Definition put_invulnerables x (s : CollatorSt) :=
  mkCollator x (Candidates s) (DesiredCandidates s) (CandidacyBond s) (SessionPoints s) (cs_currency s) (cs_session s) (cs_events s).
Definition put_candidates x (s : CollatorSt) :=
  mkCollator (Invulnerables s) x (DesiredCandidates s) (CandidacyBond s) (SessionPoints s) (cs_currency s) (cs_session s) (cs_events s).
Definition put_desired x (s : CollatorSt) :=
  mkCollator (Invulnerables s) (Candidates s) x (CandidacyBond s) (SessionPoints s) (cs_currency s) (cs_session s) (cs_events s).
Definition put_bond x (s : CollatorSt) :=
  mkCollator (Invulnerables s) (Candidates s) (DesiredCandidates s) x (SessionPoints s) (cs_currency s) (cs_session s) (cs_events s).
Definition put_points x (s : CollatorSt) :=
  mkCollator (Invulnerables s) (Candidates s) (DesiredCandidates s) (CandidacyBond s) x (cs_currency s) (cs_session s) (cs_events s).
Definition put_currency x (s : CollatorSt) :=
  mkCollator (Invulnerables s) (Candidates s) (DesiredCandidates s) (CandidacyBond s) (SessionPoints s) x (cs_session s) (cs_events s).
Definition put_session x (s : CollatorSt) :=
  mkCollator (Invulnerables s) (Candidates s) (DesiredCandidates s) (CandidacyBond s) (SessionPoints s) (cs_currency s) x (cs_events s).
Definition cs_deposit_event (e : CollatorEvent) : CM unit :=
  modify (fun s => mkCollator (Invulnerables s) (Candidates s) (DesiredCandidates s) (CandidacyBond s)
                     (SessionPoints s) (cs_currency s) (cs_session s) (cs_events s ++ [e])).

Definition CsE (e : CollatorSelectionError.t) : DispatchError := CollatorSelectionE e.
Definition cs_ensure_signed (origin : Origin) : CM AccountId :=
  match origin with Signed who => mret who | _ => throw BadOrigin end.
Definition on_currency (f : CsCurrency -> CsCurrency + DispatchError) : CM unit := fun s =>
  match f (cs_currency s) with
  | inl c => (Ok tt, put_currency c s)
  | inr e => (Err e, s)
  end.

(** A [BTreeSet] is iterated in the order of its elements. *)
Definition btree_iter (l : gset AccountId) : list AccountId := merge_sort N.le (elements l).
Definition btree_len (l : gset AccountId) : Z := Z.of_nat (size l).

(** [GenesisConfig::build] aborts the construction of the chain *)
Definition collator_genesis_build (invulnerables : list AccountId) (candidacy_bond : Balance)
    (desired_candidates : Z) : CM unit :=
  expect (guard (NoDup invulnerables));;
  expect (guard (Z.of_nat (length invulnerables) <= MaxInvulnerables));;
  expect (guard (desired_candidates <= MaxCandidates));;
  modify (put_desired desired_candidates);;
  modify (put_bond candidacy_bond);;
  modify (put_invulnerables invulnerables).

Definition set_invulnerables (origin : Origin) (new : list AccountId) : CM unit :=
  ensure (CsUpdateOrigin origin) BadOrigin;;
  ensure (Z.of_nat (length new) <=? MaxInvulnerables)
    (CsE CollatorSelectionError.MaxInvulnerablesExceeded);;
  modify (put_invulnerables new);;
  cs_deposit_event (NewInvulnerables new).

Definition set_desired_candidates (origin : Origin) (max : Z) : CM unit :=
  ensure (CsUpdateOrigin origin) BadOrigin;;
  (if MaxCandidates <? max then throw (CsE CollatorSelectionError.MaxCandidatesExceeded) else mret tt);;
  modify (put_desired max);;
  cs_deposit_event (NewDesiredCandidates max).

Definition set_candidacy_bond (origin : Origin) (bond : Balance) : CM unit :=
  ensure (CsUpdateOrigin origin) BadOrigin;;
  modify (put_bond bond);;
  cs_deposit_event (NewCandidacyBond bond).

(** The closure works on a copy of the candidates, stored when it succeeds. *)
Definition do_register_candidate (who : AccountId) (deposit : Balance) : CM Z :=
  length ← gets (fun s => btree_len (Candidates s));
  desired ← gets DesiredCandidates;
  ensure (length mod 2 ^ 32 <? desired) (CsE CollatorSelectionError.MaxCandidatesExceeded);;
  invulnerables ← gets Invulnerables;
  ensure (negb (bool_decide (who ∈ invulnerables))) (CsE CollatorSelectionError.AlreadyInvulnerable);;
  registered ← gets (fun s => ses_registered (cs_session s));
  ensure (bool_decide (who ∈ registered)) (CsE CollatorSelectionError.RequireSessionKey);;
  candidates ← gets Candidates;
  ensure (negb (bool_decide (who ∈ candidates))) (CsE CollatorSelectionError.AlreadyCandidate);;
  ensure (btree_len candidates <? MaxCandidates) (CsE CollatorSelectionError.MaxCandidatesExceeded);;
  on_currency (cs_ensure_reserved_named who deposit);;
  let candidates := {[who]} ∪ candidates in
  modify (put_candidates candidates);;
  mret (btree_len candidates).

Definition try_remove_candidate (who : AccountId) : CM Z :=
  candidates ← gets Candidates;
  ensure (MinCandidates <? btree_len candidates) (CsE CollatorSelectionError.BelowCandidatesMin);;
  ensure (bool_decide (who ∈ candidates)) (CsE CollatorSelectionError.NotCandidate);;
  let candidates := candidates ∖ {[who]} in
  modify (fun s => put_currency (cs_unreserve_all_named who (cs_currency s)) s);;
  modify (put_candidates candidates);;
  cs_deposit_event (CandidateRemoved who);;
  mret (btree_len candidates).

Definition register_as_candidate (origin : Origin) : CM unit :=
  who ← cs_ensure_signed origin;
  deposit ← gets CandidacyBond;
  do_register_candidate who deposit;;
  cs_deposit_event (CandidateAdded who deposit).

Definition register_candidate (origin : Origin) (new_candidate : AccountId) : CM unit :=
  ensure (CsUpdateOrigin origin) BadOrigin;;
  do_register_candidate new_candidate 0;;
  cs_deposit_event (CandidateAdded new_candidate 0).

Definition leave_intent (origin : Origin) : CM unit :=
  who ← cs_ensure_signed origin;
  try_remove_candidate who;;
  mret tt.

Definition assemble_collators (candidates : list AccountId) (s : CollatorSt) : list AccountId :=
  Invulnerables s ++ candidates.

(** [pallet_authorship::EventHandler]: the outcome of the transfer is ignored *)
Definition note_author (author : AccountId) : CM unit :=
  let pot := cs_account_id in
  free ← gets (fun s => cs_free_balance (cs_currency s) pot);
  let reward := default 0 (U128.checked_sub free cs_minimum_balance) / 2 in
  attempt (on_currency (cs_transfer pot author reward));;
  modify (fun s =>
    match SessionPoints s !! author with
    | Some point => put_points (<[author := u32_wrapping_add point POINT_PER_BLOCK]> (SessionPoints s)) s
    | None => s
    end).

(** [pallet_session::SessionManager] *)
Definition new_session : CM (list AccountId) :=
  candidates ← gets (fun s => btree_iter (Candidates s));
  gets (assemble_collators candidates).

Definition start_session : CM unit :=
  validators ← gets (fun s => ses_validators (cs_session s));
  candidates ← gets Candidates;
  for_each (fun candidate =>
    if bool_decide (candidate ∈ validators)
    then modify (fun s => put_points (<[candidate := 0]> (SessionPoints s)) s)
    else mret tt) (btree_iter candidates).

Definition total_points (session_points : list (AccountId * Z)) : Z :=
  foldl (fun sum kv => u32_wrapping_add sum kv.2) 0 session_points.
Definition required_points (session_points : list (AccountId * Z)) : Z :=
  let candidates_len := Z.of_nat (length session_points) in
  let average_session_point :=
    if candidates_len mod 2 ^ 32 =? 0 then 0
    else total_points session_points / (candidates_len mod 2 ^ 32) in
  kick_threshold_mul_floor average_session_point.
Definition kick_below (required_point : Z) (kv : AccountId * Z) : CM unit :=
  if kv.2 <=? required_point
  then attempt (try_remove_candidate kv.1);; mret tt
  else mret tt.

Definition end_session : CM unit :=
  session_points ← gets (fun s => points_order (map_to_list (SessionPoints s)));
  modify (put_points ∅);;
  for_each (kick_below (required_points session_points)) session_points.
End Pallet.
Arguments CollatorSt {_}.
