(* ===== verification/CollatorSpecs.v ===== *)
(** * What the selection of collators promises

    Over any history of calls, blocks and sessions ([cs_step]) the sets stay
    within their bounds, whoever is not a candidate has nothing reserved, and
    the candidates do not fall below their minimum; and the end of a session
    removes exactly the candidates a reference definition names. *)
From stdpp Require Import sorting relations.
From S2P Require Import Prelude Primitives Runtime CollatorSelection.
#[local] Open Scope Z_scope.

Section Specs.
Context `{CL : CollatorLaws}.
Implicit Types (s t : CollatorSt) (who : AccountId).

(** ** Histories *)
Inductive collator_call :=
  | SetInvulnerables (origin : Origin) (new : list AccountId)
  | SetDesiredCandidates (origin : Origin) (max : Z)
  | SetCandidacyBond (origin : Origin) (bond : Balance)
  | RegisterAsCandidate (origin : Origin)
  | RegisterCandidate (origin : Origin) (new_candidate : AccountId)
  | LeaveIntent (origin : Origin).

Definition run_collator (c : collator_call) : M DispatchError CollatorSt unit :=
  match c with
  | SetInvulnerables o new => set_invulnerables o new
  | SetDesiredCandidates o max => set_desired_candidates o max
  | SetCandidacyBond o bond => set_candidacy_bond o bond
  | RegisterAsCandidate o => register_as_candidate o
  | RegisterCandidate o who => register_candidate o who
  | LeaveIntent o => leave_intent o
  end.

Definition reserved s who : Balance := cs_reserved_named (cs_currency s) who.

(** Calls that [P] allows, the hooks of blocks and sessions, and what other
    pallets do: the session pallet registers keys and picks validators, and
    balances move without touching this pallet's reserves. *)
Inductive cs_step (P : collator_call -> CollatorSt -> Prop) : CollatorSt -> CollatorSt -> Prop :=
  | step_call c s r t : P c s -> run_collator c s = (r, t) -> cs_step P s t
  | step_author author s r t : note_author author s = (r, t) -> cs_step P s t
  | step_start s r t : start_session s = (r, t) -> cs_step P s t
  | step_end s r t : end_session s = (r, t) -> cs_step P s t
  | step_session info s : cs_step P s (put_session info s)
  | step_currency c s : (forall who, cs_reserved_named c who = reserved s who) ->
      cs_step P s (put_currency c s).

(** ** The invariant *)
Record collator_books s : Prop := {
  cb_candidates : btree_len (Candidates s) <= MaxCandidates;
  cb_desired : DesiredCandidates s <= MaxCandidates;
  cb_invulnerables : Z.of_nat (length (Invulnerables s)) <= MaxInvulnerables;
  cb_bonds who : who ∉ Candidates s -> reserved s who = 0 }.

Definition collators_distinct s : Prop :=
  NoDup (Invulnerables s) /\ forall who, who ∈ Invulnerables s -> who ∉ Candidates s.

(** New invulnerables are distinct, and none of them is a candidate. *)
Definition careful (c : collator_call) s : Prop :=
  match c with
  | SetInvulnerables _ new => NoDup new /\ forall who, who ∈ new -> who ∉ Candidates s
  | _ => True
  end.

(** What a step does: it keeps the books, does not take the last candidates,
    and keeps collators distinct. *)
Definition advance s t : Prop :=
  (collator_books s -> collator_books t) /\
  Z.min (btree_len (Candidates s)) MinCandidates <= btree_len (Candidates t).
Definition stays_distinct s t : Prop := collators_distinct s -> collators_distinct t.

Lemma advance_refl s : advance s s.
Proof. split; [done|]. lia. Qed.
Lemma advance_trans s t u : advance s t -> advance t u -> advance s u.
Proof. intros [A1 A2] [B1 B2]. split; [auto|lia]. Qed.

(** A step that leaves the sets and the reserves alone *)
Lemma advance_same s t : Candidates t = Candidates s -> Invulnerables t = Invulnerables s ->
  DesiredCandidates t = DesiredCandidates s -> (forall who, reserved t who = reserved s who) ->
  advance s t /\ stays_distinct s t.
Proof.
  intros HC HI HD HR. split; [split|].
  - intros [B1 B2 B3 B4]. split; rewrite ?HC, ?HI, ?HD; auto. intros who. rewrite HR. auto.
  - rewrite HC. lia.
  - unfold stays_distinct, collators_distinct. by rewrite HC, HI.
Qed.

Lemma btree_len_add who (l : gset AccountId) : who ∉ l -> btree_len ({[who]} ∪ l) = btree_len l + 1.
Proof. intros Hw. unfold btree_len. rewrite size_union, size_singleton by set_solver. lia. Qed.
Lemma btree_len_remove who (l : gset AccountId) : who ∈ l -> btree_len (l ∖ {[who]}) = btree_len l - 1.
Proof.
  intros Hw. unfold btree_len. pose proof (size_difference l {[who]}) as Hd.
  rewrite size_singleton in Hd. rewrite Hd by set_solver.
  enough (size l <> 0%nat) by lia. rewrite size_non_empty_iff. set_solver.
Qed.

(** ** Registering and leaving *)
Definition registered_with who deposit s t : Prop :=
  (who ∉ Candidates s) /\ (who ∉ Invulnerables s) /\ btree_len (Candidates s) < MaxCandidates /\
  Candidates t = {[who]} ∪ Candidates s /\ Invulnerables t = Invulnerables s /\
  DesiredCandidates t = DesiredCandidates s /\
  forall x, reserved t x = if (x =? who)%N then deposit else reserved s x.

Lemma do_register_wp who deposit s :
  wp (do_register_candidate who deposit) (fun _ t => registered_with who deposit s t)
    (fun _ t => t = s) s.
Proof.
  unfold do_register_candidate. wp_guards. unfold wp at 1, on_currency.
  destruct (cs_ensure_reserved_named who deposit (cs_currency s)) as [c|e] eqn:Hc; [|done].
  wp_guards. apply negb_true_iff, bool_decide_eq_false in Hens0, Hens2.
  split_and!; try done; [lia|]. intros x. unfold reserved. cbn. by apply ensure_reserved_law.
Qed.

Definition drop_candidate who s : CollatorSt :=
  mkCollator (Invulnerables s) (Candidates s ∖ {[who]}) (DesiredCandidates s) (CandidacyBond s)
    (SessionPoints s) (cs_unreserve_all_named who (cs_currency s)) (cs_session s)
    (cs_events s ++ [CandidateRemoved who]).

Lemma try_remove_wp who s :
  wp (try_remove_candidate who)
    (fun _ t => who ∈ Candidates s /\ MinCandidates < btree_len (Candidates s) /\ t = drop_candidate who s)
    (fun _ t => t = s) s.
Proof.
  unfold try_remove_candidate. wp_guards. apply bool_decide_eq_true in Hens0.
  split_and!; [done|lia|done].
Qed.

Lemma registered_advance who deposit s t :
  registered_with who deposit s t -> advance s t /\ stays_distinct s t.
Proof.
  intros (H1 & H2 & H3 & HC & HI & HD & HR). split; [split|].
  - intros [B1 B2 B3 B4]. split; rewrite ?HC, ?HI, ?HD; auto.
    + rewrite btree_len_add by done. lia.
    + intros x Hx. rewrite HR. destruct (N.eqb_spec x who) as [->|Hne]; [set_solver|].
      apply B4. set_solver.
  - rewrite HC, btree_len_add by done. lia.
  - intros [Hnd Hd]. split; rewrite HI; [done|]. rewrite HC. intros x Hx.
    apply not_elem_of_union. split; [|by apply Hd]. apply not_elem_of_singleton. congruence.
Qed.

Lemma reserved_drop who s x :
  reserved (drop_candidate who s) x = if (x =? who)%N then 0 else reserved s x.
Proof. unfold reserved. cbn. apply unreserve_all_law. Qed.

Lemma dropped_advance who s : who ∈ Candidates s -> MinCandidates < btree_len (Candidates s) ->
  advance s (drop_candidate who s) /\ stays_distinct s (drop_candidate who s).
Proof.
  intros Hw Hm. split; [split|].
  - intros [B1 B2 B3 B4]. split; cbn; auto.
    + rewrite btree_len_remove by done. lia.
    + intros x Hx. rewrite reserved_drop. destruct (N.eqb_spec x who); [done|]. apply B4. set_solver.
  - cbn. rewrite btree_len_remove by done. lia.
  - intros [Hnd Hd]. split; cbn; [done|]. intros x Hx. specialize (Hd x Hx). set_solver.
Qed.

(** ** Calls *)
Definition safe_step s t : Prop := advance s t /\ stays_distinct s t.

(** A call that succeeds is a safe step when it is careful; one that fails has
    changed nothing. *)
Definition call_ok (c : collator_call) s t : Prop :=
  advance s t /\ (careful c s -> stays_distinct s t).

Lemma register_call_wp who deposit s :
  wp (do_register_candidate who deposit;; cs_deposit_event (CandidateAdded who deposit))
    (fun _ t => safe_step s t) (fun _ t => t = s) s.
Proof.
  apply wp_bind. eapply wp_mono; [apply do_register_wp| |done].
  intros _ t (H1 & H2 & H3 & HC & HI & HD & HR). apply (registered_advance who deposit).
  by split_and!.
Qed.

Lemma run_collator_wp c s :
  wp (run_collator c) (fun _ t => call_ok c s t) (fun _ t => t = s) s.
Proof.
  assert (Hsafe : forall t, safe_step s t -> call_ok c s t) by (intros t []; by split).
  destruct c as [o new|o max|o bond|o|o who|o]; cbn [run_collator].
  - unfold set_invulnerables. wp_guards. split; [split|].
    + intros [B1 B2 B3 B4]. split; cbn; auto; lia.
    + cbn. lia.
    + intros [Hn Hd] _. by split.
  - unfold set_desired_candidates. wp_guards. destruct (Z.ltb_spec MaxCandidates max); wp_guards.
    split; [split|]; [|cbn; lia|intros _ HD; exact HD].
    intros [B1 B2 B3 B4]. by split.
  - unfold set_candidacy_bond. wp_guards. by apply Hsafe, advance_same.
  - unfold register_as_candidate. destruct o as [|who|]; cbn [cs_ensure_signed]; wp_guards.
    eapply wp_bind_mono; [apply register_call_wp|auto].
  - unfold register_candidate. wp_guards. eapply wp_bind_mono; [apply register_call_wp|auto].
  - unfold leave_intent. destruct o as [|who|]; cbn [cs_ensure_signed]; wp_guards.
    eapply wp_mono; [apply try_remove_wp| |done].
    intros _ t (Hw & Hm & ->). wp_guards. by apply Hsafe, dropped_advance.
Qed.

(** ** Blocks and sessions *)
Lemma note_author_wp author s (R : DispatchError -> CollatorSt -> Prop) :
  wp (note_author author) (fun _ t => safe_step s t) R s.
Proof.
  unfold note_author. wp_guards. unfold wp at 1, on_currency.
  destruct (cs_transfer cs_account_id author _ (cs_currency s)) as [c|e] eqn:Hc; wp_guards.
  - apply advance_same; cbn [put_currency SessionPoints];
      destruct (SessionPoints s !! author); try done; intros who; unfold reserved; cbn;
      by eapply transfer_keeps_reserves.
  - apply advance_same; by destruct (SessionPoints s !! author).
Qed.

Lemma start_session_wp s (R : DispatchError -> CollatorSt -> Prop) :
  wp start_session (fun _ t => safe_step s t) R s.
Proof.
  unfold start_session. wp_guards.
  eapply wp_mono; [apply (wp_for_each _ _ (fun t => Candidates t = Candidates s /\
    Invulnerables t = Invulnerables s /\ DesiredCandidates t = DesiredCandidates s /\
    cs_currency t = cs_currency s) R); [done|]| |done].
  - intros who t _ (E1 & E2 & E3 & E4). destruct (bool_decide _); by wp_guards.
  - intros _ t (E1 & E2 & E3 & E4). apply advance_same; auto. intros who. unfold reserved. by rewrite E4.
Qed.

(** The candidates a session removes, by reference: those at or below the
    requirement, in the order they are visited, as far as the minimum allows. *)
Definition visited s : list (AccountId * Z) := points_order (map_to_list (SessionPoints s)).
Definition lazy_candidates (required : Z) (l : list (AccountId * Z)) (C : gset AccountId) : list AccountId :=
  filter (fun who => who ∈ C) (map fst (filter (fun kv => kv.2 <= required) l)).
Definition kicked_of (required : Z) (l : list (AccountId * Z)) (C : gset AccountId) : list AccountId :=
  take (Z.to_nat (btree_len C - MinCandidates)) (lazy_candidates required l C).
Definition kicked s : list AccountId :=
  kicked_of (required_points (visited s)) (visited s) (Candidates s).

Definition drop_candidates (ks : list AccountId) s : CollatorSt :=
  foldl (fun s who => drop_candidate who s) s ks.

Lemma try_remove_run who s :
  try_remove_candidate who s =
  if bool_decide (who ∈ Candidates s) && (MinCandidates <? btree_len (Candidates s))
  then (Ok (btree_len (Candidates s) - 1), drop_candidate who s)
  else (Err (CsE (if MinCandidates <? btree_len (Candidates s) then CollatorSelectionError.NotCandidate
                  else CollatorSelectionError.BelowCandidatesMin)), s).
Proof.
  unfold try_remove_candidate. cbv [gets ensure mbind M_bind].
  destruct (MinCandidates <? btree_len (Candidates s)); rewrite ?andb_true_r, ?andb_false_r; [|done].
  destruct (bool_decide_reflect (who ∈ Candidates s)) as [Hw|]; [|done].
  cbn. by rewrite btree_len_remove.
Qed.

(** The candidates that remain lazy after one of them left are the others. *)
Lemma filter_except (l : list AccountId) (C : gset AccountId) who : who ∉ l ->
  filter (fun x => x ∈ C ∖ {[who]}) l = filter (fun x => x ∈ C) l.
Proof.
  induction l as [|x l IH]; intros Hw; [done|]. rewrite !filter_cons, IH by set_solver.
  do 2 case_decide; [done|set_solver..].
Qed.
Lemma lazy_candidates_cons required kv l C :
  lazy_candidates required (kv :: l) C =
  if bool_decide (kv.2 <= required /\ kv.1 ∈ C) then kv.1 :: lazy_candidates required l C
  else lazy_candidates required l C.
Proof.
  unfold lazy_candidates. rewrite filter_cons. case_decide; cbn [map]; [rewrite filter_cons; case_decide|];
    (case_bool_decide; [done || tauto | done || tauto]).
Qed.
Lemma lazy_candidates_drop required l C who : who ∉ map fst l ->
  lazy_candidates required l (C ∖ {[who]}) = lazy_candidates required l C.
Proof.
  intros Hw. apply filter_except. intros (kv & -> & Hkv%list_elem_of_filter)%list_elem_of_fmap.
  apply Hw, list_elem_of_fmap. naive_solver.
Qed.
Lemma kicked_of_full required l C : btree_len C <= MinCandidates -> kicked_of required l C = [].
Proof. intros HC. unfold kicked_of. by replace (Z.to_nat _) with 0%nat by lia. Qed.
Lemma kicked_of_drop required l C who : who ∈ C -> MinCandidates < btree_len C -> who ∉ map fst l ->
  take (Z.to_nat (btree_len C - MinCandidates)) (who :: lazy_candidates required l C) =
  who :: kicked_of required l (C ∖ {[who]}).
Proof.
  intros Hw HC Hl. unfold kicked_of. rewrite lazy_candidates_drop, btree_len_remove by done.
  by replace (Z.to_nat (btree_len C - MinCandidates))
    with (S (Z.to_nat (btree_len C - 1 - MinCandidates))) by lia.
Qed.

(** *** The loop removes the candidates the reference names *)
Lemma kick_loop required l s : NoDup (map fst l) ->
  for_each (kick_below required) l s = (Ok tt, drop_candidates (kicked_of required l (Candidates s)) s).
Proof.
  revert s. induction l as [|kv l IH]; intros s Hnd.
  { unfold kicked_of. cbn. by rewrite take_nil. }
  apply NoDup_cons in Hnd as [Hkv Hnd]. cbn [for_each]. unfold mbind at 1, M_bind at 1, kick_below at 1.
  unfold kicked_of at 1. rewrite lazy_candidates_cons.
  destruct (Z.leb_spec kv.2 required) as [Hle|Hgt];
    [|rewrite bool_decide_eq_false_2 by lia; by apply IH].
  unfold mbind at 1, M_bind at 1, attempt. rewrite try_remove_run.
  destruct (bool_decide_reflect (kv.1 ∈ Candidates s)) as [Hin|Hout]; cbn [andb].
  2:{ rewrite bool_decide_eq_false_2 by tauto. by apply IH. }
  rewrite bool_decide_eq_true_2 by done. destruct (Z.ltb_spec MinCandidates (btree_len (Candidates s))).
  - rewrite kicked_of_drop by done. cbn [mret M_ret]. by rewrite IH.
  - replace (Z.to_nat (btree_len (Candidates s) - MinCandidates)) with 0%nat by lia.
    cbn [mret M_ret take]. by rewrite IH, kicked_of_full.
Qed.

Lemma safe_step_trans s t u : safe_step s t -> safe_step t u -> safe_step s u.
Proof. intros [A1 A2] [B1 B2]. split; [by eapply advance_trans|]. intros HD. auto. Qed.

Lemma end_session_wp s (R : DispatchError -> CollatorSt -> Prop) :
  wp end_session (fun _ t => safe_step s t) R s.
Proof.
  unfold end_session. wp_guards. apply wp_for_each; [by apply advance_same|].
  intros kv t _ Ht. unfold kick_below. destruct (kv.2 <=? _); wp_guards.
  eapply wp_mono; [apply try_remove_wp| |].
  - intros _ u (Hw & Hm & ->). wp_guards. eapply safe_step_trans; [done|]. by apply dropped_advance.
  - intros _ u ->. by wp_guards.
Qed.

(** ** Every history *)
Lemma wp_run {A} (m : M DispatchError CollatorSt A) (Q : A -> CollatorSt -> Prop)
    (R : DispatchError -> CollatorSt -> Prop) (J : CollatorSt -> Prop) s r t :
  wp m Q R s -> m s = (r, t) -> (forall a u, Q a u -> J u) -> (forall e u, R e u -> J u) -> J t.
Proof. unfold wp. intros Hm Hr HQ HR. rewrite Hr in Hm. destruct r; [eauto|eauto|done]. Qed.

Lemma cs_step_ok P s t : cs_step P s t ->
  advance s t /\ ((forall c u, P c u -> careful c u) -> stays_distinct s t).
Proof.
  assert (Hsafe : forall s t, safe_step s t ->
    advance s t /\ ((forall c u, P c u -> careful c u) -> stays_distinct s t)) by (intros ?? []; by split).
  intros [c u r v HP Hr|author u r v Hr|u r v Hr|u r v Hr|info u|c u Hc].
  - pose proof (run_collator_wp c u) as Hw. pattern v.
    eapply wp_run; [exact Hw|exact Hr| |].
    + intros _ w [A1 A2]. split; auto.
    + intros _ w ->. by apply Hsafe, advance_same.
  - eapply Hsafe, (wp_run _ _ (fun _ _ => False) (safe_step u)); [apply note_author_wp|exact Hr|auto|done].
  - eapply Hsafe, (wp_run _ _ (fun _ _ => False) (safe_step u)); [apply start_session_wp|exact Hr|auto|done].
  - eapply Hsafe, (wp_run _ _ (fun _ _ => False) (safe_step u)); [apply end_session_wp|exact Hr|auto|done].
  - by apply Hsafe, advance_same.
  - by apply Hsafe, advance_same.
Qed.

Lemma cs_history_ok P s t : rtc (cs_step P) s t ->
  advance s t /\ ((forall c u, P c u -> careful c u) -> stays_distinct s t).
Proof.
  induction 1 as [s|s t u Hst _ [IH1 IH2]]; [split; [apply advance_refl|intros _ HD; exact HD]|].
  apply cs_step_ok in Hst as [A1 A2]. split; [by eapply advance_trans|].
  intros HP HD. by apply IH2, A2.
Qed.

Lemma btree_iter_permutation (l : gset AccountId) : btree_iter l ≡ₚ elements l.
Proof. apply merge_sort_Permutation. Qed.

(** The collators of a session, when they are distinct *)
Lemma new_session_distinct s : collator_books s -> collators_distinct s ->
  exists l, new_session s = (Ok l, s) /\ NoDup l /\
    (forall who, who ∈ l <-> who ∈ Invulnerables s \/ who ∈ Candidates s) /\
    Z.of_nat (length l) <= MaxInvulnerables + MaxCandidates.
Proof.
  intros [B1 B2 B3 B4] [Hnd Hd]. exists (Invulnerables s ++ btree_iter (Candidates s)).
  split_and!; [done| | |].
  - apply NoDup_app. split_and!; [done| |].
    + intros who Hw. rewrite btree_iter_permutation, elem_of_elements. by apply Hd.
    + rewrite btree_iter_permutation. apply NoDup_elements.
  - intros who. by rewrite elem_of_app, btree_iter_permutation, elem_of_elements.
  - rewrite length_app, btree_iter_permutation. unfold btree_len, size, set_size in B1. cbn in B1. lia.
Qed.

(** C31: Over any history of calls, blocks and sessions the sets of collators
    stay within their bounds, an account that is not a candidate has nothing
    reserved, and the candidates never fall below their minimum; a call that
    fails leaves no trace, though it is not transactional, and none panics.  When
    new invulnerables are always distinct and chosen among those who are not
    candidates, which the code does not check, the collators of a session are
    distinct. *)
Theorem collator_histories_safe (P : collator_call -> CollatorSt -> Prop) s t :
  collator_books s -> rtc (cs_step P) s t ->
  collator_books t /\
  Z.min (btree_len (Candidates s)) MinCandidates <= btree_len (Candidates t) /\
  (forall c, wp (run_collator c) (fun _ _ => True) (fun _ u => u = t) t) /\
  ((forall c u, P c u -> careful c u) -> collators_distinct s ->
   exists l, new_session t = (Ok l, t) /\ NoDup l /\
     (forall who, who ∈ l <-> who ∈ Invulnerables t \/ who ∈ Candidates t) /\
     Z.of_nat (length l) <= MaxInvulnerables + MaxCandidates).
Proof.
  intros HB [[A1 A2] A3]%cs_history_ok. split_and!; [auto|done| |].
  - intros c. eapply wp_mono; [apply run_collator_wp|done|done].
  - intros HP HD. apply new_session_distinct; [auto|]. by apply A3.
Qed.

(** ** The end of a session *)
Lemma drop_candidates_effect ks s :
  Candidates (drop_candidates ks s) = Candidates s ∖ list_to_set ks /\
  SessionPoints (drop_candidates ks s) = SessionPoints s /\
  Invulnerables (drop_candidates ks s) = Invulnerables s /\
  (forall who, reserved (drop_candidates ks s) who = if bool_decide (who ∈ ks) then 0 else reserved s who) /\
  cs_events (drop_candidates ks s) = cs_events s ++ map CandidateRemoved ks.
Proof.
  revert s. induction ks as [|k ks IH]; intros s; cbn [drop_candidates foldl].
  { split_and!; try done; [cbn; set_solver|by rewrite app_nil_r]. }
  destruct (IH (drop_candidate k s)) as (E1 & E2 & E3 & E4 & E5).
  unfold drop_candidates in *. split_and!; [rewrite E1; cbn; set_solver|done|done| |].
  - intros who. rewrite E4, reserved_drop. do 2 case_bool_decide; destruct (N.eqb_spec who k); set_solver.
  - rewrite E5. cbn. by rewrite <- app_assoc.
Qed.

(** What was authored, without overflow, and the requirement it makes *)
Definition points_sum s : Z := map_sum (fun _ p => p) (SessionPoints s).
Definition points_typed s : Prop := forall who p, SessionPoints s !! who = Some p -> 0 <= p.
Definition points_average s : Z := points_sum s / Z.of_nat (size (SessionPoints s)).

Lemma visited_permutation s : visited s ≡ₚ map_to_list (SessionPoints s).
Proof. apply points_order_permutation. Qed.
Lemma elem_of_visited s who p : (who, p) ∈ visited s <-> SessionPoints s !! who = Some p.
Proof. by rewrite visited_permutation, elem_of_map_to_list. Qed.
Lemma visited_nodup s : NoDup (map fst (visited s)).
Proof. rewrite visited_permutation. apply NoDup_fst_map_to_list. Qed.

Lemma total_points_exact l acc : 0 <= acc -> Forall (fun kv => 0 <= kv.2) l ->
  acc + list_sum (fun _ p => p) l < 2 ^ 32 ->
  foldl (fun sum (kv : AccountId * Z) => u32_wrapping_add sum kv.2) acc l
  = acc + list_sum (fun _ p => p) l.
Proof.
  revert acc. induction l as [|kv l IH]; intros acc Ha Hl Hs; [cbn; change (list_sum _ []) with 0; lia|].
  apply Forall_cons in Hl as [Hkv Hl]. rewrite list_sum_cons in *. cbn [foldl].
  assert (0 <= list_sum (fun _ p => p) l).
  { clear -Hl. induction Hl; [done|]. rewrite list_sum_cons. lia. }
  unfold u32_wrapping_add at 2. rewrite Z.mod_small by lia. rewrite IH; [lia|lia|done|lia].
Qed.

Lemma required_exact s : points_typed s -> points_sum s < 2 ^ 32 ->
  Z.of_nat (size (SessionPoints s)) < 2 ^ 32 ->
  required_points (visited s) = kick_threshold_mul_floor (points_average s).
Proof.
  intros Ht Hs Hn. unfold required_points, points_average, total_points.
  assert (Hlen : length (visited s) = size (SessionPoints s)) by
    (by rewrite visited_permutation, length_map_to_list).
  assert (Hsum : list_sum (fun _ p => p) (visited s) = points_sum s).
  { unfold points_sum. rewrite map_sum_list. apply list_sum_permutation, visited_permutation. }
  rewrite Hlen, Z.mod_small by lia. rewrite total_points_exact, Hsum; [|lia| |lia].
  - destruct (Z.eqb_spec (Z.of_nat (size (SessionPoints s))) 0) as [->|]; [|done].
    by rewrite Z.div_0_r.
  - apply Forall_forall. intros [who p] Hw. apply elem_of_visited in Hw. by apply (Ht who).
Qed.

Lemma average_u32 s : points_typed s -> points_sum s < 2 ^ 32 -> is_u32 (points_average s).
Proof.
  intros Ht Hs. assert (0 <= points_sum s) by (apply map_sum_nonneg; intros; eauto).
  unfold points_average. destruct (size (SessionPoints s)) as [|n]; [by rewrite Z.div_0_r|].
  split; [apply Z.div_pos; lia|]. apply Z.div_le_upper_bound; uarith.
Qed.

Lemma elem_of_lazy s who : who ∈ lazy_candidates (required_points (visited s)) (visited s) (Candidates s) <->
  who ∈ Candidates s /\ exists p, SessionPoints s !! who = Some p /\ p <= required_points (visited s).
Proof.
  unfold lazy_candidates. rewrite list_elem_of_filter. f_equiv. rewrite list_elem_of_fmap. split.
  - intros ([w p] & -> & [Hp Hv]%list_elem_of_filter). apply elem_of_visited in Hv. by exists p.
  - intros (p & Hp & Hle). exists (who, p). split; [done|]. apply list_elem_of_filter.
    by rewrite elem_of_visited.
Qed.

Lemma kicked_lazy s who : who ∈ kicked s ->
  who ∈ Candidates s /\ exists p, SessionPoints s !! who = Some p /\ p <= required_points (visited s).
Proof. intros Hk. apply elem_of_lazy. by eapply subseteq_take. Qed.
Lemma lazy_nodup s : NoDup (lazy_candidates (required_points (visited s)) (visited s) (Candidates s)).
Proof.
  unfold lazy_candidates. apply NoDup_filter. pose proof (visited_nodup s) as Hnd.
  generalize (required_points (visited s)). intros required. induction (visited s) as [|kv l IH]; [constructor|]. apply NoDup_cons in Hnd as [Hkv Hnd].
  rewrite filter_cons. case_decide; [|by apply IH]. cbn. apply NoDup_cons. split; [|by apply IH].
  intros Hin. apply Hkv. apply list_elem_of_fmap in Hin as (kv' & Heq & Hkv'%list_elem_of_filter).
  apply list_elem_of_fmap. naive_solver.
Qed.
Lemma size_remaining s :
  btree_len (Candidates s ∖ list_to_set (kicked s))
  = btree_len (Candidates s) - Z.of_nat (length (kicked s)).
Proof.
  assert (Hsub : (list_to_set (kicked s) : gset AccountId) ⊆ Candidates s).
  { intros who Hw%elem_of_list_to_set. by apply kicked_lazy. }
  unfold btree_len. rewrite size_difference by done. pose proof (subseteq_size _ _ Hsub).
  rewrite size_list_to_set in * by (eapply sublist_NoDup; [apply lazy_nodup|apply sublist_take]). lia.
Qed.
(** Who remains below the requirement was saved by the minimum. *)
Lemma lazy_remaining s who p : who ∈ Candidates s -> who ∉ kicked s ->
  SessionPoints s !! who = Some p -> p <= required_points (visited s) ->
  btree_len (Candidates s ∖ list_to_set (kicked s)) <= MinCandidates.
Proof.
  intros Hw Hk Hp Hle. rewrite size_remaining. unfold kicked, kicked_of in *.
  rewrite length_take. set (l := lazy_candidates _ _ _) in *.
  destruct (decide (Z.to_nat (btree_len (Candidates s) - MinCandidates) <= length l)%nat); [lia|].
  destruct Hk. rewrite take_ge by lia. apply elem_of_lazy. eauto.
Qed.

(** The end of a session removes the candidates at or below the requirement,
    in the order they are visited, as far as the minimum allows, returns their
    bonds and forgets the points; who remains below the requirement was saved by
    the minimum, and without overflow a candidate who authored something, and no
    less than the average, stays. *)
Theorem end_session_kicks s : points_typed s ->
  exists t, end_session s = (Ok tt, t) /\
    Candidates t = Candidates s ∖ list_to_set (kicked s) /\ SessionPoints t = ∅ /\
    Invulnerables t = Invulnerables s /\
    (forall who, reserved t who = if bool_decide (who ∈ kicked s) then 0 else reserved s who) /\
    cs_events t = cs_events s ++ map CandidateRemoved (kicked s) /\
    (forall who p, who ∈ Candidates t -> SessionPoints s !! who = Some p ->
       p <= required_points (visited s) -> btree_len (Candidates t) <= MinCandidates) /\
    ((forall n, 0 < n -> kick_threshold_mul_floor n < n) ->
     points_sum s < 2 ^ 32 -> Z.of_nat (size (SessionPoints s)) < 2 ^ 32 ->
     forall who p, who ∈ Candidates s -> SessionPoints s !! who = Some p ->
       0 < p -> points_average s <= p -> who ∈ Candidates t).
Proof.
  intros Ht. exists (drop_candidates (kicked s) (put_points ∅ s)).
  destruct (drop_candidates_effect (kicked s) (put_points ∅ s)) as (E1 & E2 & E3 & E4 & E5).
  split_and!; try done.
  - unfold end_session. cbv [gets modify mbind M_bind]. fold (visited s).
    by rewrite kick_loop by apply visited_nodup.
  - intros who p. rewrite E1. cbn [Candidates put_points].
    intros [Hw Hk]%elem_of_difference Hp Hle. eapply lazy_remaining; eauto. set_solver.
  - intros Hm Hs Hn who p Hw Hp Hpos Hav. rewrite E1. cbn [Candidates put_points].
    apply elem_of_difference. split; [done|]. intros (_ & q & Hq & Hle)%elem_of_list_to_set%kicked_lazy.
    rewrite required_exact in Hle by done. assert (q = p) as -> by congruence.
    assert (is_u32 (points_average s)) as Hu.
    { by apply average_u32. }
    pose proof (mul_floor_le _ Hu). specialize (Hm (points_average s)). lia.
Qed.
End Specs.

(** ** A concrete selection: balances and reserves as a map, at least one and at
    most three candidates, and a threshold of a half. *)
Section Sample.
#[local] Abbreviation sample_balances := (gmap AccountId (Balance * Balance)).
Definition balances_of (c : sample_balances) (who : AccountId) : Balance * Balance :=
  default (0, 0) (c !! who).
Definition sample_ensure_reserved (who : AccountId) (n : Balance) (c : sample_balances) :
    sample_balances + DispatchError :=
  let b := balances_of c who in
  if n <=? b.1 + b.2 then inl (<[who := (b.1 + b.2 - n, n)]> c) else inr ArithmeticUnderflow.
Definition sample_move (from to : AccountId) (n : Balance) (c : sample_balances) :
    sample_balances + DispatchError :=
  let b := balances_of c from in
  if n <=? b.1 then
    let c := <[from := (b.1 - n, b.2)]> c in
    inl (<[to := ((balances_of c to).1 + n, (balances_of c to).2)]> c)
  else inr ArithmeticUnderflow.

#[local] Instance sample_collators : CollatorConfig := {
  CsCurrency := sample_balances;
  cs_free_balance c who := (balances_of c who).1;
  cs_minimum_balance := 1;
  cs_transfer := sample_move;
  cs_reserved_named c who := (balances_of c who).2;
  cs_ensure_reserved_named := sample_ensure_reserved;
  cs_unreserve_all_named who c :=
    <[who := ((balances_of c who).1 + (balances_of c who).2, 0)]> c;
  CsUpdateOrigin o := match o with Root => true | _ => false end;
  cs_account_id := 99%N;
  MinCandidates := 1;
  MaxCandidates := 3;
  MaxInvulnerables := 2;
  kick_threshold_mul_floor n := n / 2;
  points_order l := l }.

Lemma balances_of_insert (c : sample_balances) who b x :
  balances_of (<[who := b]> c) x = if (x =? who)%N then b else balances_of c x.
Proof.
  unfold balances_of. destruct (N.eqb_spec x who) as [->|Hne]; [by rewrite lookup_insert_eq|].
  by rewrite lookup_insert_ne.
Qed.

#[local] Instance sample_collator_laws : CollatorLaws sample_collators.
Proof.
  split; [by split|by split|by split|..]; cbn [cs_transfer cs_reserved_named cs_ensure_reserved_named
    cs_unreserve_all_named kick_threshold_mul_floor points_order sample_collators].
  - unfold sample_move. intros from to n c c' who. case_match; intros [= <-].
    rewrite !balances_of_insert. do 2 (case_match; simplify_eq/=; try done).
    all: repeat match goal with H : (_ =? _)%N = true |- _ => apply N.eqb_eq in H as -> end;
      by rewrite ?balances_of_insert, ?N.eqb_refl.
  - unfold sample_ensure_reserved. intros who n c c' x. case_match; intros [= <-].
    rewrite balances_of_insert. by case_match.
  - intros who c x. rewrite balances_of_insert. by case_match.
  - intros n [Hn _]. split; [by apply Z.div_pos|]. apply Z.div_le_upper_bound; lia.
  - done.
Qed.

(** Accounts 1 (invulnerable), 2, 3 and 4 have registered keys. *)
Definition collators_genesis : CollatorSt :=
  mkCollator [1%N] ∅ 3 10 ∅ (list_to_map [(2%N, (100, 0)); (3%N, (50, 0)); (4%N, (10, 0))])
    (mkSession [1%N; 2%N; 3%N; 4%N] (list_to_set [1%N; 2%N; 3%N; 4%N])) [].
Definition after {A} (m : M DispatchError CollatorSt A) s : CollatorSt := (m s).2.
(** Three candidates join, and the session begins. *)
Definition collators_joined : CollatorSt :=
  after start_session (after (run_collator (RegisterAsCandidate (Signed 4%N)))
    (after (run_collator (RegisterAsCandidate (Signed 3%N)))
      (after (run_collator (RegisterAsCandidate (Signed 2%N))) collators_genesis))).
(** Candidates 3 and 2 author two blocks and one, candidate 4 none. *)
Definition collators_authored : CollatorSt :=
  after (note_author 3%N) (after (note_author 2%N) (after (note_author 3%N) collators_joined)).

Section Histories.
Context (P : collator_call -> CollatorSt -> Prop).
Lemma history_call c s t :
  rtc (cs_step P) s t -> P c t -> rtc (cs_step P) s (after (run_collator c) t).
Proof. intros Hr HP. eapply rtc_r; [exact Hr|]. exact (step_call P c t _ _ HP (surjective_pairing _)). Qed.
Lemma history_author author s t :
  rtc (cs_step P) s t -> rtc (cs_step P) s (after (note_author author) t).
Proof. intros Hr. eapply rtc_r; [exact Hr|]. exact (step_author P author t _ _ (surjective_pairing _)). Qed.
Lemma history_start s t : rtc (cs_step P) s t -> rtc (cs_step P) s (after start_session t).
Proof. intros Hr. eapply rtc_r; [exact Hr|]. exact (step_start P t _ _ (surjective_pairing _)). Qed.
Lemma history_end s t : rtc (cs_step P) s t -> rtc (cs_step P) s (after end_session t).
Proof. intros Hr. eapply rtc_r; [exact Hr|]. exact (step_end P t _ _ (surjective_pairing _)). Qed.
End Histories.

Lemma collators_history : rtc (cs_step careful) collators_genesis (after end_session collators_authored).
Proof.
  apply history_end. unfold collators_authored. do 3 apply history_author.
  unfold collators_joined. apply history_start. do 3 (apply history_call; [|exact I]).
  apply rtc_refl.
Qed.
Lemma balances_free (l : list (AccountId * (Balance * Balance))) who :
  Forall (fun kv => kv.2.2 = 0) l -> (balances_of (list_to_map l) who).2 = 0.
Proof.
  intros Hl. unfold balances_of. destruct (list_to_map l !! who) as [b|] eqn:Hb; [|done].
  apply elem_of_list_to_map_2 in Hb. rewrite Forall_forall in Hl. exact (Hl _ Hb).
Qed.
Lemma genesis_books : collator_books collators_genesis.
Proof.
  split; [vm_compute; congruence..|]. intros who _. apply balances_free. by repeat constructor.
Qed.

Lemma collator_histories_safe_witness :
  collator_books (after end_session collators_authored) /\
  elements (Candidates (after end_session collators_authored)) = [2%N; 3%N] /\
  exists l, new_session (after end_session collators_authored)
              = (Ok l, after end_session collators_authored) /\ NoDup l.
Proof.
  destruct (collator_histories_safe careful _ _ genesis_books collators_history) as (HB & _ & _ & HD).
  split; [exact HB|]. split; [vm_compute; reflexivity|].
  assert (Hg : collators_distinct collators_genesis).
  { split; [apply NoDup_singleton|]. intros who _. apply not_elem_of_empty. }
  destruct (HD (fun _ _ H => H) Hg) as (l & Hl & Hnd & _). exists l. split; [exact Hl|exact Hnd].
Defined.

Lemma end_session_kicks_witness :
  kicked collators_authored = [4%N] /\
  exists t, end_session collators_authored = (Ok tt, t) /\
    elements (Candidates t) = [2%N; 3%N] /\ reserved t 4%N = 0 /\ reserved t 3%N = 10.
Proof.
  split; [vm_compute; reflexivity|].
  destruct (end_session_kicks collators_authored) as (t & Hrun & HC & _ & _ & HR & _).
  - intros who p Hp%elem_of_map_to_list.
    assert (Hall : Forall (fun kv => 0 <= kv.2) (map_to_list (SessionPoints collators_authored))).
    { vm_compute. repeat constructor; congruence. }
    rewrite Forall_forall in Hall. exact (Hall _ Hp).
  - exists t. split; [exact Hrun|]. rewrite HC, !HR. split_and!; vm_compute; reflexivity.
Defined.
End Sample.
