(* ===== verification/Incentives.v ===== *)
(** * Incentives

    [modules/incentives/src/lib.rs]: holders of liquidity tokens deposit them
    for shares of reward pools, which the pallet fills once in a period; loans
    and guarantees give shares as well.  The shares and what each may claim are
    kept by [orml_rewards], which calls [payout] back.  The pallet is what the
    exchange and the loans know as [st_incentives]. *)
From S2P Require Import Prelude FixedPoint Primitives Runtime Support.

Abbreviation RelaychainAccountId := N.

Inductive PoolId :=
  | LoansIncentive (c : CurrencyId)
  | DexIncentive (c : CurrencyId)
  | HomaIncentive
  | DexSaving (c : CurrencyId)
  | HomaValidatorAllowance (validator : RelaychainAccountId).
#[export] Instance PoolId_eq_dec : EqDecision PoolId.
Proof. solve_decision. Defined.
#[export] Instance PoolId_countable : Countable PoolId.
Proof.
  apply (inj_countable'
    (fun p => match p with
       | LoansIncentive c => inl (inl c) | DexIncentive c => inl (inr (inl c))
       | DexSaving c => inl (inr (inr c)) | HomaIncentive => inr (inl tt)
       | HomaValidatorAllowance v => inr (inr v) end)
    (fun x : CurrencyId + (CurrencyId + CurrencyId) + (unit + RelaychainAccountId) =>
       match x with
       | inl (inl c) => LoansIncentive c | inl (inr (inl c)) => DexIncentive c
       | inl (inr (inr c)) => DexSaving c | inr (inl _) => HomaIncentive
       | inr (inr v) => HomaValidatorAllowance v end)).
  by intros [].
Defined.

Inductive IncentivesEvent :=
  | DepositDexShare (who : AccountId) (lp : CurrencyId) (amount : Balance)
  | WithdrawDexShare (who : AccountId) (lp : CurrencyId) (amount : Balance)
  | PayoutRewards (who : AccountId) (pool : PoolId) (c : CurrencyId) (actual deduction : Balance)
  | IncentiveRewardAmountUpdated (pool : PoolId) (amount : Balance)
  | SavingRewardRateUpdated (pool : PoolId) (rate : Rate)
  | PayoutDeductionRateUpdated (pool : PoolId) (rate : Rate).

(** The storage of [orml_rewards]: its pools with their total shares, in the
    order they are iterated in, and the shares of the accounts. *)
Class RewardsStore := {
  RewardsSt : Type;
  rw_pools : RewardsSt -> list (PoolId * Balance);
  rw_shares : RewardsSt -> PoolId -> gmap AccountId Balance;
  rw_accumulate_reward : PoolId -> Balance -> RewardsSt -> RewardsSt }.

Section Storage.
Context `{RewardsStore}.
Record IncentivesStorage := mkIncentives {
  IncentiveRewardAmount : gmap PoolId Balance;
  DexSavingRewardRate : gmap PoolId Rate;
  PayoutDeductionRates : gmap PoolId Rate;
  inc_rewards : RewardsSt;
  inc_events : list IncentivesEvent }.

Definition set_amounts f (x : IncentivesStorage) :=
  mkIncentives (f (IncentiveRewardAmount x)) (DexSavingRewardRate x) (PayoutDeductionRates x) (inc_rewards x) (inc_events x).
Definition set_saving_rates f (x : IncentivesStorage) :=
  mkIncentives (IncentiveRewardAmount x) (f (DexSavingRewardRate x)) (PayoutDeductionRates x) (inc_rewards x) (inc_events x).
Definition set_deductions f (x : IncentivesStorage) :=
  mkIncentives (IncentiveRewardAmount x) (DexSavingRewardRate x) (f (PayoutDeductionRates x)) (inc_rewards x) (inc_events x).
Definition set_rewards r (x : IncentivesStorage) :=
  mkIncentives (IncentiveRewardAmount x) (DexSavingRewardRate x) (PayoutDeductionRates x) r (inc_events x).
Definition add_event e (x : IncentivesStorage) :=
  mkIncentives (IncentiveRewardAmount x) (DexSavingRewardRate x) (PayoutDeductionRates x) (inc_rewards x) (inc_events x ++ [e]).
End Storage.

(** A runtime whose [st_incentives] is the storage of this pallet, its
    constants, and the operations of [orml_rewards], which are given [payout]. *)
Class IncentivesConfig `{Config, RewardsStore} := {
  inc_get : IncentivesSt -> IncentivesStorage;
  inc_put : IncentivesStorage -> IncentivesSt -> IncentivesSt;
  AccumulatePeriod : BlockNumber;
  NativeCurrencyId : CurrencyId;
  NativeRewardsSource : AccountId;
  RewardsVaultAccountId : AccountId;
  IncUpdateOrigin : Origin -> bool;
  incentives_account_id : AccountId;
  rw_add_share : (AccountId -> PoolId -> Balance -> Run unit) ->
    AccountId -> PoolId -> Balance -> Run unit;
  rw_remove_share : (AccountId -> PoolId -> Balance -> Run unit) ->
    AccountId -> PoolId -> Balance -> Run unit;
  rw_set_share : (AccountId -> PoolId -> Balance -> Run unit) ->
    AccountId -> PoolId -> Balance -> Run unit;
  rw_claim_rewards : (AccountId -> PoolId -> Balance -> Run unit) ->
    AccountId -> PoolId -> Run unit }.

Section Pallet.
Context `{IncentivesConfig} `{!DEXManager} `{!CDPTreasury} `{!EmergencyShutdown}.

Definition IncE (e : IncentivesError.t) : DispatchError := IncentivesE e.
Definition incentives (s : State) : IncentivesStorage := inc_get (st_incentives s).
Definition on_incentives (f : IncentivesStorage -> IncentivesStorage) (s : State) : State :=
  set_incentives (inc_put (f (incentives s)) (st_incentives s)) s.
Definition accumulate_reward (pool : PoolId) (n : Balance) : Run unit :=
  modify (on_incentives (fun x => set_rewards (rw_accumulate_reward pool n (inc_rewards x)) x)).
Definition inc_deposit_event (e : IncentivesEvent) : Run unit := modify (on_incentives (add_event e)).

Definition incentive_reward_amount (pool : PoolId) (s : State) : Balance :=
  default 0 (IncentiveRewardAmount (incentives s) !! pool).
Definition dex_saving_reward_rate (pool : PoolId) (s : State) : Rate :=
  default 0 (DexSavingRewardRate (incentives s) !! pool).
Definition payout_deduction_rates (pool : PoolId) (s : State) : Rate :=
  default 0 (PayoutDeductionRates (incentives s) !! pool).
(** [share_and_withdrawn_reward(pool, who).0] *)
Definition share_of (pool : PoolId) (who : AccountId) (s : State) : Balance :=
  default 0 (rw_shares (inc_rewards (incentives s)) pool !! who).

(** [RewardHandler::payout]: the outcome of the transfer is ignored *)
Definition reward_currency (pool : PoolId) : CurrencyId :=
  match pool with
  | LoansIncentive _ | DexIncentive _ | HomaIncentive => NativeCurrencyId
  | DexSaving _ => GetStableCurrencyId
  | HomaValidatorAllowance _ => GetLiquidCurrencyId
  end.
Definition payout (who : AccountId) (pool : PoolId) (payout_amount : Balance) : Run unit :=
  if payout_amount =? 0 then mret tt else
  let currency_id := reward_currency pool in
  rate ← gets (payout_deduction_rates pool);
  let deduction_amount := Z.min (saturating_mul_int rate payout_amount) payout_amount in
  (if negb (deduction_amount =? 0) then accumulate_reward pool deduction_amount else mret tt);;
  let actual_payout := U128.saturating_sub payout_amount deduction_amount in
  attempt (transfer currency_id RewardsVaultAccountId who actual_payout);;
  inc_deposit_event (PayoutRewards who pool currency_id actual_payout deduction_amount).

(** [DEXIncentives] *)
Definition incentives_deposit_dex_share (who : AccountId) (lp_currency_id : CurrencyId)
    (amount : Balance) : Run unit :=
  ensure (is_dex_share_currency_id lp_currency_id) (IncE IncentivesError.InvalidCurrencyId);;
  transfer lp_currency_id who incentives_account_id amount;;
  rw_add_share payout who (DexIncentive lp_currency_id) amount;;
  rw_add_share payout who (DexSaving lp_currency_id) amount;;
  inc_deposit_event (DepositDexShare who lp_currency_id amount).

Definition incentives_withdraw_dex_share (who : AccountId) (lp_currency_id : CurrencyId)
    (amount : Balance) : Run unit :=
  ensure (is_dex_share_currency_id lp_currency_id) (IncE IncentivesError.InvalidCurrencyId);;
  incentive_share ← gets (share_of (DexIncentive lp_currency_id) who);
  saving_share ← gets (share_of (DexSaving lp_currency_id) who);
  ensure ((amount <=? incentive_share) && (amount <=? saving_share)) (IncE IncentivesError.NotEnough);;
  transfer lp_currency_id incentives_account_id who amount;;
  rw_remove_share payout who (DexIncentive lp_currency_id) amount;;
  rw_remove_share payout who (DexSaving lp_currency_id) amount;;
  inc_deposit_event (WithdrawDexShare who lp_currency_id amount).

(** ** Extrinsics *)
Definition deposit_dex_share (origin : Origin) (lp_currency_id : CurrencyId) (amount : Balance) : Run unit :=
  transactional (
    who ← ensure_signed origin;
    incentives_deposit_dex_share who lp_currency_id amount).

Definition withdraw_dex_share (origin : Origin) (lp_currency_id : CurrencyId) (amount : Balance) : Run unit :=
  transactional (
    who ← ensure_signed origin;
    incentives_withdraw_dex_share who lp_currency_id amount).

Definition claim_rewards (origin : Origin) (pool_id : PoolId) : Run unit :=
  transactional (
    who ← ensure_signed origin;
    rw_claim_rewards payout who pool_id).

Definition update_incentive_rewards (origin : Origin) (updates : list (PoolId * Balance)) : Run unit :=
  transactional (
    ensure_origin IncUpdateOrigin origin;;
    for_each (fun update =>
      match update.1 with
      | DexIncentive c => ensure (is_dex_share_currency_id c) (IncE IncentivesError.InvalidCurrencyId)
      | LoansIncentive _ | HomaIncentive => mret tt
      | _ => throw (IncE IncentivesError.InvalidPoolId)
      end;;
      modify (on_incentives (set_amounts <[update.1 := update.2]>));;
      inc_deposit_event (IncentiveRewardAmountUpdated update.1 update.2)) updates).

Definition update_dex_saving_rewards (origin : Origin) (updates : list (PoolId * Rate)) : Run unit :=
  transactional (
    ensure_origin IncUpdateOrigin origin;;
    for_each (fun update =>
      match update.1 with
      | DexSaving c => ensure (is_dex_share_currency_id c) (IncE IncentivesError.InvalidCurrencyId)
      | _ => throw (IncE IncentivesError.InvalidPoolId)
      end;;
      modify (on_incentives (set_saving_rates <[update.1 := update.2]>));;
      inc_deposit_event (SavingRewardRateUpdated update.1 update.2)) updates).

Definition update_payout_deduction_rates (origin : Origin) (updates : list (PoolId * Rate)) : Run unit :=
  transactional (
    ensure_origin IncUpdateOrigin origin;;
    for_each (fun update =>
      match update.1 with
      | DexSaving c | DexIncentive c =>
          ensure (is_dex_share_currency_id c) (IncE IncentivesError.InvalidCurrencyId)
      | _ => mret tt
      end;;
      ensure (update.2 <=? DIV) (IncE IncentivesError.InvalidRate);;
      modify (on_incentives (set_deductions <[update.1 := update.2]>));;
      inc_deposit_event (PayoutDeductionRateUpdated update.1 update.2)) updates).

Definition add_allowance (origin : Origin) (pool_id : PoolId) (amount : Balance) : Run unit :=
  transactional (
    who ← ensure_signed origin;
    match pool_id with
    | HomaValidatorAllowance _ =>
        transfer GetLiquidCurrencyId who RewardsVaultAccountId amount;;
        accumulate_reward pool_id amount
    | _ => throw (IncE IncentivesError.InvalidPoolId)
    end).

(** ** Hooks *)

(** [orml_traits::Happened] for loans and guarantees *)
Definition inc_loan_updated (who : AccountId) (c : CurrencyId) (adjustment : Amount)
    (previous_amount : Balance) : Run unit :=
  let adjustment_abs := default 0 (U128.try_from (I128.saturating_abs adjustment)) in
  if negb (adjustment_abs =? 0) then
    let new_share_amount :=
      if I128.is_positive adjustment then U128.saturating_add previous_amount adjustment_abs
      else U128.saturating_sub previous_amount adjustment_abs in
    rw_set_share payout who (LoansIncentive c) new_share_amount
  else mret tt.
Definition inc_guarantee_increased (who : AccountId) (validator : RelaychainAccountId) (n : Balance) : Run unit :=
  rw_add_share payout who (HomaValidatorAllowance validator) n.
Definition inc_guarantee_decreased (who : AccountId) (validator : RelaychainAccountId) (n : Balance) : Run unit :=
  rw_remove_share payout who (HomaValidatorAllowance validator) n.

(** The body of the loop over the pools with shares *)
Definition accumulate_incentive (pool_id : PoolId) : Run unit :=
  incentive_reward_amount ← gets (incentive_reward_amount pool_id);
  if negb (incentive_reward_amount =? 0) then
    res ← attempt (transfer NativeCurrencyId NativeRewardsSource RewardsVaultAccountId incentive_reward_amount);
    match res with
    | inl _ => accumulate_reward pool_id incentive_reward_amount
    | inr _ => mret tt
    end
  else mret tt.

Definition dex_saving_reward_base (lp_currency_id : CurrencyId) (s : State) : option Balance :=
  '(currency_id_a, currency_id_b) ← split_dex_share_currency_id lp_currency_id;
  Some (if decide (currency_id_a = GetStableCurrencyId)
        then (get_liquidity_pool GetStableCurrencyId currency_id_b s).1
        else if decide (currency_id_b = GetStableCurrencyId)
        then (get_liquidity_pool GetStableCurrencyId currency_id_a s).1
        else 0).

Definition accumulate_saving (pool_id : PoolId) (lp_currency_id : CurrencyId) : Run unit :=
  rate ← gets (dex_saving_reward_rate pool_id);
  if negb (rate =? 0) then
    base ← gets (dex_saving_reward_base lp_currency_id);
    match base with
    | Some base =>
        let dex_saving_reward_amount := saturating_mul_int rate base in
        if negb (dex_saving_reward_amount =? 0) then
          res ← attempt (issue_debit RewardsVaultAccountId dex_saving_reward_amount false);
          match res with
          | inl _ => accumulate_reward pool_id dex_saving_reward_amount
          | inr _ => mret tt
          end
        else mret tt
    | None => mret tt
    end
  else mret tt.

(** A period of zero blocks divides by zero.  The pools are read one by one; the
    body changes no total of shares, and no pool but its own. *)
Definition inc_on_initialize (now : BlockNumber) : Run unit :=
  shutdown ← gets is_shutdown;
  if negb shutdown then
    if AccumulatePeriod =? 0 then panic
    else if now mod AccumulatePeriod =? 0 then
      pools ← gets (fun s => rw_pools (inc_rewards (incentives s)));
      for_each (fun pool =>
        if negb (pool.2 =? 0) then
          match pool.1 with
          | LoansIncentive _ | DexIncentive _ | HomaIncentive => accumulate_incentive pool.1
          | DexSaving lp_currency_id => accumulate_saving pool.1 lp_currency_id
          | _ => mret tt
          end
        else mret tt) pools
    else mret tt
  else mret tt.
End Pallet.
