(* ===== verification/IncentivesSpecs.v ===== *)
(** * What the incentives pallet promises

    Liquidity tokens that were deposited stay with the pallet until their owner
    withdraws them, whatever rewards are paid meanwhile; and the pallet does
    what the exchange assumes of it where it deposits and withdraws for its
    users ([inc_deposit_law], [inc_withdraw_law]). *)
From stdpp Require Import relations.
From S2P Require Import Prelude FixedPoint Primitives Runtime Support Incentives.

(** ** What the pallet relies on *)
Section Laws.
Context `{IncentivesConfig}.
Implicit Types (s t : State) (I : State -> Prop).

Definition same_shares s t : Prop := forall p x, share_of p x t = share_of p x s.
Definition shares_become (pool : PoolId) (who : AccountId) (n : Balance) s t : Prop :=
  forall p x, share_of p x t = if decide (p = pool /\ x = who) then n else share_of p x s.

(** [I] depends neither on the storage of [orml_rewards], nor on what [pay]
    does for one account and pool. *)
Definition ignores_payouts (pay : AccountId -> PoolId -> Balance -> Run unit) who pool I : Prop :=
  (forall r t, I t -> I (on_incentives (set_rewards r) t)) /\
  (forall n t, is_u128 n -> I t ->
     wp (pay who pool n) (fun _ u => I u /\ same_shares t u) (fun _ _ => False) t).
End Laws.

(** [orml_rewards] keeps the shares it is told to, and besides its own storage
    changes only what [payout] changes for the account it was called for. *)
Class IncentivesLaws `{IncentivesConfig, !DEXManager, !CDPTreasury} : Prop := {
  inc_config_laws :: ConfigLaws;
  inc_dex_laws :: DEXManagerLaws;
  inc_treasury_laws :: CDPTreasuryLaws;
  inc_get_put x i : inc_get (inc_put x i) = x;
  inc_share_u128 r p x n : rw_shares r p !! x = Some n -> is_u128 n;
  accumulate_shares pool n r p : rw_shares (rw_accumulate_reward pool n r) p = rw_shares r p;
  add_share_law pay who pool n I s : is_u128 n -> ignores_payouts pay who pool I -> I s ->
    wp (rw_add_share pay who pool n)
      (fun _ t => I t /\ shares_become pool who (U128.saturating_add (share_of pool who s) n) s t)
      (fun _ _ => False) s;
  remove_share_law pay who pool n I s : is_u128 n -> ignores_payouts pay who pool I -> I s ->
    wp (rw_remove_share pay who pool n)
      (fun _ t => I t /\ shares_become pool who (U128.saturating_sub (share_of pool who s) n) s t)
      (fun _ _ => False) s;
  set_share_law pay who pool n I s : is_u128 n -> ignores_payouts pay who pool I -> I s ->
    wp (rw_set_share pay who pool n)
      (fun _ t => I t /\ shares_become pool who n s t) (fun _ _ => False) s;
  claim_rewards_law pay who pool I s : ignores_payouts pay who pool I -> I s ->
    wp (rw_claim_rewards pay who pool) (fun _ t => I t /\ same_shares s t) (fun _ _ => False) s;
  (* rewards are not paid in liquidity tokens *)
  reward_currency_law pool : is_dex_share_currency_id (reward_currency pool) = false;
  inc_accounts : incentives_account_id <> dex_account_id /\ RewardsVaultAccountId <> dex_account_id;
  accumulate_period_pos : 0 < AccumulatePeriod }.

Section Specs.
Context `{IL : IncentivesLaws} `{!EmergencyShutdown}.
Implicit Types (s t u : State) (who : AccountId) (c : CurrencyId) (n : Balance).

Lemma incentives_on f s : incentives (on_incentives f s) = f (incentives s).
Proof. unfold on_incentives, incentives. cbn. apply inc_get_put. Qed.
Lemma pool_share_u128 pool who s : is_u128 (share_of pool who s).
Proof.
  unfold share_of. destruct (_ !! who) as [n|] eqn:E; [by eapply inc_share_u128|]. cbn. uarith.
Qed.

(** The parameters are 128-bit numbers. *)
Record inc_typed (x : IncentivesStorage) : Prop := {
  it_amounts p n : IncentiveRewardAmount x !! p = Some n -> is_u128 n;
  it_rates p n : DexSavingRewardRate x !! p = Some n -> is_u128 n;
  it_deductions p n : PayoutDeductionRates x !! p = Some n -> is_u128 n }.

(** ** Paying out

    [paid X s t]: between [s] and [t] rewards were paid to accounts outside [X]:
    the parameters are the same, and so are the issuances, the balances of
    liquidity tokens and those of the accounts in [X]. *)
Record paid (X : AccountId -> Prop) s t : Prop := {
  pd_frame : exists l i, t = set_incentives i (set_ledger l s);
  pd_amounts : IncentiveRewardAmount (incentives t) = IncentiveRewardAmount (incentives s);
  pd_rates : DexSavingRewardRate (incentives t) = DexSavingRewardRate (incentives s);
  pd_deductions : PayoutDeductionRates (incentives t) = PayoutDeductionRates (incentives s);
  pd_issuance c : total_issuance c t = total_issuance c s;
  pd_tokens c x : is_dex_share_currency_id c = true -> free_balance c x t = free_balance c x s;
  pd_apart c x : X x -> free_balance c x t = free_balance c x s }.
Definition apart (X : AccountId -> Prop) who : Prop := ~ X who /\ ~ X RewardsVaultAccountId.

Lemma paid_refl X s : paid X s s.
Proof. split; try done. exists (st_ledger s), (st_incentives s). by destruct s. Qed.
Lemma paid_trans X s t u : paid X s t -> paid X t u -> paid X s u.
Proof.
  intros [(l & i & E1) A2 A3 A4 A5 A6 A7] [(l' & i' & E2) B2 B3 B4 B5 B6 B7].
  split; [exists l', i'; by subst|congruence..| | |].
  - intros c. etransitivity; [apply B5|apply A5].
  - intros c x Hc. etransitivity; [by apply B6|by apply A6].
  - intros c x Hx. etransitivity; [by apply B7|by apply A7].
Qed.
Lemma paid_on X f s :
  IncentiveRewardAmount (f (incentives s)) = IncentiveRewardAmount (incentives s) ->
  DexSavingRewardRate (f (incentives s)) = DexSavingRewardRate (incentives s) ->
  PayoutDeductionRates (f (incentives s)) = PayoutDeductionRates (incentives s) ->
  paid X s (on_incentives f s).
Proof.
  intros Ha Hr Hd. split; rewrite ?incentives_on; try done.
  exists (st_ledger s), (inc_put (f (incentives s)) (st_incentives s)). by destruct s.
Qed.
Lemma paid_typed X s t : paid X s t -> inc_typed (incentives s) -> inc_typed (incentives t).
Proof. intros Hp [T1 T2 T3]. split; rewrite ?(pd_amounts _ _ _ Hp), ?(pd_rates _ _ _ Hp), ?(pd_deductions _ _ _ Hp); eauto. Qed.
Lemma paid_ledger X s l a b n c : is_u128 n -> is_dex_share_currency_id c = false -> ~ X a -> ~ X b ->
  cur_transfer c a b n (st_ledger s) = inl l -> paid X s (set_ledger l s).
Proof.
  intros Hn Hc Ha Hb Hl. apply transfer_law in Hl as (Hf & Hi & _); [|done].
  split; try done.
  - exists l, (st_incentives s). by destruct s.
  - intros c' x Hc'. unfold free_balance at 1. cbn. rewrite Hf, !delta_ne_currency by congruence.
    unfold free_balance. lia.
  - intros c' x Hx. unfold free_balance at 1. cbn. rewrite Hf, !delta_ne_account by congruence.
    unfold free_balance. lia.
Qed.

Lemma accumulate_paid X pool n s :
  paid X s (on_incentives (fun x => set_rewards (rw_accumulate_reward pool n (inc_rewards x)) x) s) /\
  same_shares s (on_incentives (fun x => set_rewards (rw_accumulate_reward pool n (inc_rewards x)) x) s).
Proof.
  split; [by apply paid_on|]. intros p x. unfold share_of. rewrite incentives_on. cbn.
  by rewrite accumulate_shares.
Qed.
Lemma event_paid X e s : paid X s (on_incentives (add_event e) s) /\
  same_shares s (on_incentives (add_event e) s).
Proof. split; [by apply paid_on|]. intros p x. unfold share_of. by rewrite incentives_on. Qed.

(** One step of a payout: what happened so far, and one more thing *)
Definition paying X s t : Prop := paid X s t /\ same_shares s t.
Lemma paying_trans X s t u : paying X s t -> paying X t u -> paying X s u.
Proof.
  intros [A1 A2] [B1 B2]. split; [by eapply paid_trans|]. intros p x. by rewrite B2, A2.
Qed.

Lemma deduction_u128 pool s : inc_typed (incentives s) -> is_u128 (payout_deduction_rates pool s).
Proof.
  intros Ht. unfold payout_deduction_rates. destruct (_ !! pool) as [r|] eqn:E; [by eapply it_deductions|].
  cbn. uarith.
Qed.

Lemma payout_wp X who pool n s : inc_typed (incentives s) -> apart X who -> is_u128 n ->
  wp (payout who pool n) (fun _ t => paying X s t) (fun _ _ => False) s.
Proof.
  intros Ht [Hw Hv] Hn. unfold payout. wp_step; [by apply wp_ret; split; [apply paid_refl|]|].
  wp_guards. set (deduction := Z.min _ n).
  assert (Hd : is_u128 deduction).
  { pose proof (smi_u128 _ _ (deduction_u128 pool s Ht) Hn). subst deduction. uarith. }
  assert (Hrest : forall t, paying X s t ->
    wp (attempt (transfer (reward_currency pool) RewardsVaultAccountId who (U128.saturating_sub n deduction));;
        inc_deposit_event (PayoutRewards who pool (reward_currency pool) (U128.saturating_sub n deduction) deduction))
      (fun _ t => paying X s t) (fun _ _ => False) t).
  { intros t Hst. wp_guards. apply wp_lift_ledger. split.
    - intros l Hl. wp_guards. eapply paying_trans; [exact Hst|].
      eapply paying_trans; [|apply event_paid]. split; [|done].
      eapply paid_ledger; [|apply reward_currency_law|..|exact Hl]; [|done..]. by apply saturating_sub_u128.
    - intros e _. wp_guards. eapply paying_trans; [exact Hst|apply event_paid]. }
  wp_branch.
  - apply wp_modify. apply Hrest, accumulate_paid.
  - apply wp_ret. apply Hrest. split; [apply paid_refl|done].
Qed.

(** What was paid so far does not depend on rewards, nor on more payouts. *)
Lemma paid_ignores X who pool s : inc_typed (incentives s) -> apart X who ->
  ignores_payouts payout who pool (paid X s).
Proof.
  intros Ht Ha. split.
  - intros r t Hp. eapply paid_trans; [exact Hp|]. by apply paid_on.
  - intros n t Hn Hp. eapply wp_mono; [apply (payout_wp X); [by eapply paid_typed|done|done]| |done].
    intros _ u [Hu Hs]. split; [by eapply paid_trans|exact Hs].
Qed.

(** ** Depositing and withdrawing

    [exchanged X a b who c f n s t]: [n] liquidity tokens went from [a] to [b],
    the shares of [who] in their two pools were changed by [f], and besides that
    rewards were paid. *)
Definition exchanged X (a b who : AccountId) c (f : Balance -> Balance) n s t : Prop :=
  is_dex_share_currency_id c = true /\
  exists l, cur_transfer c a b n (st_ledger s) = inl l /\ paid X (set_ledger l s) t /\
    forall p x, share_of p x t =
      if decide (x = who /\ (p = DexIncentive c \/ p = DexSaving c))
      then f (share_of p x s) else share_of p x s.

Lemma two_pools_wp X who c (op : PoolId -> Run unit) (f : Balance -> Balance) e s :
  (forall pool t, paid X s t ->
     wp (op pool) (fun _ u => paid X s u /\ shares_become pool who (f (share_of pool who t)) t u)
       (fun _ _ => False) t) ->
  wp (op (DexIncentive c);; op (DexSaving c);; inc_deposit_event e)
    (fun _ t => paid X s t /\ forall p x, share_of p x t =
       if decide (x = who /\ (p = DexIncentive c \/ p = DexSaving c))
       then f (share_of p x s) else share_of p x s) (fun _ _ => False) s.
Proof.
  intros Hop. apply wp_bind. eapply wp_mono; [apply Hop, paid_refl| |done]. intros _ t [Ht Hst].
  apply wp_bind. eapply wp_mono; [by apply Hop| |done]. intros _ u [Hu Htu]. wp_guards.
  destruct (event_paid X e u) as [He1 He2]. split; [by eapply paid_trans|].
  intros p x. rewrite He2, Htu, !Hst.
  repeat case_decide; naive_solver.
Qed.

Section Exchange.
Context (X : AccountId -> Prop) (who : AccountId) (c : CurrencyId) (n : Balance) (s : State).
Context (Ht : inc_typed (incentives s)) (Ha : apart X who) (Hn : is_u128 n).

Lemma deposit_wp :
  wp (incentives_deposit_dex_share who c n)
    (fun _ t => exchanged X who incentives_account_id who c (fun m => U128.saturating_add m n) n s t)
    (fun _ t => t = s) s.
Proof.
  unfold incentives_deposit_dex_share. apply wp_bind, wp_ensure. split; intros Hc; [|done].
  apply wp_bind, wp_lift_ledger. split; [|done]. intros l Hl.
  eapply wp_mono; [apply (two_pools_wp X who c (fun pool => rw_add_share payout who pool n)
    (fun m => U128.saturating_add m n))| |done].
  - intros pool t Hp. apply add_share_law; [done|by apply paid_ignores|done].
  - intros _ t [Hp Hs]. split; [done|]. by exists l.
Qed.

Lemma withdraw_wp :
  wp (incentives_withdraw_dex_share who c n)
    (fun _ t => n <= share_of (DexIncentive c) who s /\ n <= share_of (DexSaving c) who s /\
       exchanged X incentives_account_id who who c (fun m => U128.saturating_sub m n) n s t)
    (fun _ t => t = s) s.
Proof.
  unfold incentives_withdraw_dex_share. apply wp_bind, wp_ensure. split; intros Hc; [|done].
  do 2 apply wp_bind, wp_gets. apply wp_bind, wp_ensure. split; [|done].
  intros [H1' H2']%andb_true_iff. apply Z.leb_le in H1', H2'.
  apply wp_bind, wp_lift_ledger. split; [|done]. intros l Hl.
  eapply wp_mono; [apply (two_pools_wp X who c (fun pool => rw_remove_share payout who pool n)
    (fun m => U128.saturating_sub m n))| |done].
  - intros pool t Hp. apply remove_share_law; [done|by apply paid_ignores|done].
  - intros _ t [Hp Hs]. split; [done|]. split; [done|]. split; [done|]. by exists l.
Qed.
End Exchange.

(** C38: Where the exchange deposits or withdraws liquidity tokens for its users,
    the pallet does what the exchange assumes of it: it changes only its own
    storage and the ledger, issues nothing and leaves the account of the exchange
    alone, whatever rewards it pays on the way; when it fails it has changed
    nothing. *)
Theorem incentives_meet_exchange who c n s :
  inc_typed (incentives s) -> who <> dex_account_id -> is_u128 n ->
  let meets := fun (_ : unit) t =>
    exists l i, t = set_incentives i (set_ledger l s) /\ shares_moved (st_ledger s) l in
  wp (incentives_deposit_dex_share who c n) meets (fun _ t => t = s) s /\
  wp (incentives_withdraw_dex_share who c n) meets (fun _ t => t = s) s.
Proof.
  intros Ht Hw Hn meets. destruct inc_accounts as [Hi Hv].
  assert (Ha : apart (eq dex_account_id) who) by (split; congruence).
  assert (Hmeets : forall a b f t, a <> dex_account_id -> b <> dex_account_id ->
    exchanged (eq dex_account_id) a b who c f n s t -> meets tt t).
  { intros a b f t Hna Hnb (_ & l & Hl & Hp & _). apply transfer_law in Hl as (Hf & Hi' & _); [|done].
    destruct (pd_frame _ _ _ Hp) as (l' & i & ->). exists l', i. split; [by destruct s|]. split.
    - intros c'. transitivity (cur_total_issuance l c'); [apply (pd_issuance _ _ _ Hp)|apply Hi'].
    - intros c'. transitivity (cur_free_balance l c' dex_account_id).
      + by apply (pd_apart _ _ _ Hp).
      + rewrite Hf, !delta_ne_account by congruence. lia. }
  split.
  - eapply wp_mono; [by apply (deposit_wp (eq dex_account_id))| |done]. intros [] t. by apply Hmeets.
  - eapply wp_mono; [by apply (withdraw_wp (eq dex_account_id))| |done].
    intros [] t (_ & _ & He). by eapply Hmeets, He.
Qed.

(** ** Custody *)
Definition total_share (pool : PoolId) s : Balance :=
  value_sum (rw_shares (inc_rewards (incentives s)) pool).

(** Every deposited token is held by the pallet, and counts in both pools. *)
Record inc_inv s : Prop := {
  iv_typed : inc_typed (incentives s);
  iv_dex : dex_typed (st_dex s);
  iv_backed c : is_dex_share_currency_id c = true ->
    total_share (DexIncentive c) s <= free_balance c incentives_account_id s;
  iv_same c who : share_of (DexSaving c) who s = share_of (DexIncentive c) who s }.

Lemma total_share_change pool who s t :
  (forall x, x <> who -> share_of pool x t = share_of pool x s) ->
  total_share pool t = total_share pool s - share_of pool who s + share_of pool who t.
Proof. intros Hx. by apply value_sum_change. Qed.
Lemma total_share_same pool s t :
  (forall x, share_of pool x t = share_of pool x s) -> total_share pool t = total_share pool s.
Proof. intros Hx. by apply value_sum_ext. Qed.
Lemma share_le_total pool who s : share_of pool who s <= total_share pool s.
Proof.
  assert (Hnn : forall x n, rw_shares (inc_rewards (incentives s)) pool !! x = Some n -> 0 <= n).
  { intros x n Hx. by apply inc_share_u128 in Hx as [? _]. }
  unfold share_of, total_share. destruct (_ !! who) as [n|] eqn:E; cbn.
  - exact (map_sum_lookup_le _ _ who n Hnn E).
  - apply map_sum_nonneg. exact Hnn.
Qed.

(** Nothing that the books of deposits depend on was taken away. *)
Record kept s t : Prop := {
  kp_typed : inc_typed (incentives s) -> inc_typed (incentives t);
  kp_dex : dex_typed (st_dex s) -> dex_typed (st_dex t);
  kp_tokens c : is_dex_share_currency_id c = true ->
    free_balance c incentives_account_id s <= free_balance c incentives_account_id t;
  kp_shares c who : share_of (DexIncentive c) who t = share_of (DexIncentive c) who s /\
    share_of (DexSaving c) who t = share_of (DexSaving c) who s }.
Lemma kept_inv s t : kept s t -> inc_inv s -> inc_inv t.
Proof.
  intros [K1 K2 K3 K4] [I1 I2 I3 I4]. split; [auto|auto| |].
  - intros c Hc. rewrite (total_share_same _ s t) by apply K4. specialize (I3 c Hc). specialize (K3 c Hc). lia.
  - intros c who. destruct (K4 c who) as [-> ->]. apply I4.
Qed.

Abbreviation none := (fun _ : AccountId => False).
Lemma apart_none who : apart none who.
Proof. split; intros []. Qed.
Lemma paid_dex X s t : paid X s t -> st_dex t = st_dex s.
Proof. intros Hp. by destruct (pd_frame _ _ _ Hp) as (l & i & ->). Qed.
Lemma paid_kept X s t :
  paid X s t -> (forall c who, share_of (DexIncentive c) who t = share_of (DexIncentive c) who s /\
    share_of (DexSaving c) who t = share_of (DexSaving c) who s) -> kept s t.
Proof.
  intros Hp Hs. split; [by eapply paid_typed|by rewrite (paid_dex _ _ _ Hp)| |exact Hs].
  intros c Hc. by rewrite (pd_tokens _ _ _ Hp).
Qed.
Lemma paying_kept X s t : paying X s t -> kept s t.
Proof. intros [Hp Hs]. eapply paid_kept; [exact Hp|]. intros c who. by rewrite !Hs. Qed.

(** What a transfer of liquidity tokens between [a] and [b] leaves the pallet *)
Lemma exchanged_inv a b who c f d n s t :
  is_u128 n -> inc_inv s -> exchanged none a b who c f n s t ->
  delta c b n c incentives_account_id - delta c a n c incentives_account_id = d ->
  f (share_of (DexIncentive c) who s) <= share_of (DexIncentive c) who s + d -> inc_inv t.
Proof.
  intros Hn [I1 I2 I3 I4] (Hc & l & Hl & Hp & Hs) Hd Hf. apply transfer_law in Hl as (Hfree & _); [|done].
  split.
  - by apply (paid_typed _ _ _ Hp).
  - by rewrite (paid_dex _ _ _ Hp).
  - intros c' Hc'. rewrite (pd_tokens _ _ _ Hp) by done. unfold free_balance. cbn. rewrite Hfree.
    specialize (I3 c' Hc'). unfold free_balance in I3. destruct (decide (c' = c)) as [->|Hne].
    + rewrite (total_share_change _ who s t).
      * rewrite Hs, decide_True by auto. lia.
      * intros x Hx. rewrite Hs, decide_False; [done|]. naive_solver.
    + rewrite (total_share_same _ s t).
      * rewrite !delta_ne_currency by done. lia.
      * intros x. rewrite Hs, decide_False; [done|]. intros [_ [?|?]]; congruence.
  - intros c' x. rewrite !Hs, I4. repeat case_decide; naive_solver.
Qed.

(** ** The operations *)
Inductive inc_op :=
  | OpDeposit (origin : Origin) (c : CurrencyId) (n : Balance)
  | OpWithdraw (origin : Origin) (c : CurrencyId) (n : Balance)
  | OpClaim (origin : Origin) (pool : PoolId)
  | OpIncentiveRewards (origin : Origin) (updates : list (PoolId * Balance))
  | OpSavingRewards (origin : Origin) (updates : list (PoolId * Rate))
  | OpDeductionRates (origin : Origin) (updates : list (PoolId * Rate))
  | OpAddAllowance (origin : Origin) (pool : PoolId) (n : Balance)
  | OpInitialize (now : BlockNumber)
  | OpDexDeposit (who : AccountId) (c : CurrencyId) (n : Balance)
  | OpDexWithdraw (who : AccountId) (c : CurrencyId) (n : Balance)
  | OpLoanUpdated (who : AccountId) (c : CurrencyId) (adjustment : Amount) (previous : Balance)
  | OpGuaranteeIncreased (who : AccountId) (validator : RelaychainAccountId) (n : Balance)
  | OpGuaranteeDecreased (who : AccountId) (validator : RelaychainAccountId) (n : Balance).

Definition run_inc (op : inc_op) : Run unit :=
  match op with
  | OpDeposit o c n => deposit_dex_share o c n
  | OpWithdraw o c n => withdraw_dex_share o c n
  | OpClaim o pool => claim_rewards o pool
  | OpIncentiveRewards o l => update_incentive_rewards o l
  | OpSavingRewards o l => update_dex_saving_rewards o l
  | OpDeductionRates o l => update_payout_deduction_rates o l
  | OpAddAllowance o pool n => add_allowance o pool n
  | OpInitialize now => inc_on_initialize now
  | OpDexDeposit who c n => incentives_deposit_dex_share who c n
  | OpDexWithdraw who c n => incentives_withdraw_dex_share who c n
  | OpLoanUpdated who c adjustment previous => inc_loan_updated who c adjustment previous
  | OpGuaranteeIncreased who v n => inc_guarantee_increased who v n
  | OpGuaranteeDecreased who v n => inc_guarantee_decreased who v n
  end.

(** Amounts are balances, and nobody signs for the account of the pallet. *)
Definition op_ok (op : inc_op) : Prop :=
  match op with
  | OpDeposit o _ n | OpWithdraw o _ n => o <> Signed incentives_account_id /\ is_u128 n
  | OpDexDeposit who _ n | OpDexWithdraw who _ n => who <> incentives_account_id /\ is_u128 n
  | OpIncentiveRewards _ l | OpSavingRewards _ l | OpDeductionRates _ l =>
      Forall (fun update => is_u128 update.2) l
  | OpAddAllowance _ _ n | OpLoanUpdated _ _ _ n | OpGuaranteeIncreased _ _ n
  | OpGuaranteeDecreased _ _ n => is_u128 n
  | OpClaim _ _ | OpInitialize _ => True
  end.

Section Operations.
Context (s : State) (HI : inc_inv s).
#[local] Abbreviation keeps := (fun (_ : unit) t => inc_inv t).
#[local] Abbreviation same := (fun (_ : DispatchError) t => t = s).

Lemma deposit_inv who c n : who <> incentives_account_id -> is_u128 n ->
  wp (incentives_deposit_dex_share who c n) keeps same s.
Proof.
  intros Hw Hn. eapply wp_mono; [exact (deposit_wp none who c n s (iv_typed s HI) (apart_none who) Hn)| |done].
  intros [] t Ht. eapply (exchanged_inv _ _ _ _ _ n); [exact Hn|exact HI|exact Ht| |].
  - rewrite delta_eq, delta_ne_account by congruence. lia.
  - pose proof (pool_share_u128 (DexIncentive c) who s). uarith.
Qed.
Lemma withdraw_inv who c n : who <> incentives_account_id -> is_u128 n ->
  wp (incentives_withdraw_dex_share who c n) keeps same s.
Proof.
  intros Hw Hn. eapply wp_mono; [exact (withdraw_wp none who c n s (iv_typed s HI) (apart_none who) Hn)| |done].
  intros [] t (Hle & _ & Ht). eapply (exchanged_inv _ _ _ _ _ (- n)); [exact Hn|exact HI|exact Ht| |].
  - rewrite delta_eq, delta_ne_account by congruence. lia.
  - cbv beta. rewrite saturating_sub_exact by done. lia.
Qed.

(** Calls of [orml_rewards] for a pool whose shares are not liquidity tokens *)
Definition other_pool (pool : PoolId) : Prop :=
  forall c, pool <> DexIncentive c /\ pool <> DexSaving c.
Lemma other_pool_inv pool who (m : Run unit) n R : other_pool pool ->
  wp m (fun _ t => paid none s t /\ shares_become pool who n s t) (fun _ _ => False) s ->
  wp m keeps R s.
Proof.
  intros Hpool Hm. eapply wp_mono; [exact Hm| |done]. intros [] t [Hp Hs].
  eapply kept_inv, HI. eapply paid_kept; [exact Hp|]. intros c x. destruct (Hpool c).
  by rewrite !Hs, !decide_False by naive_solver.
Qed.
Lemma ignores_none who pool : ignores_payouts payout who pool (paid none s).
Proof. apply paid_ignores; [apply HI|apply apart_none]. Qed.

Lemma claim_inv who pool R : wp (rw_claim_rewards payout who pool) keeps R s.
Proof.
  eapply wp_mono; [exact (claim_rewards_law _ _ _ _ s (ignores_none who pool) (paid_refl _ s))| |done].
  intros [] t Ht. eapply kept_inv, HI. by eapply paying_kept.
Qed.
Lemma try_abs_u128 a : is_u128 (default 0 (U128.try_from (I128.saturating_abs a))).
Proof.
  unfold U128.try_from. destruct (Z.leb_spec (I128.saturating_abs a) U128_MAX); cbn; [|by split].
  split; [|done]. apply Z.min_glb; [lia|done].
Qed.
Lemma loan_updated_inv who c adjustment previous R : is_u128 previous ->
  wp (inc_loan_updated who c adjustment previous) keeps R s.
Proof.
  intros Hn. unfold inc_loan_updated. pose proof (try_abs_u128 adjustment) as Hd.
  generalize dependent (default 0 (U128.try_from (I128.saturating_abs adjustment))). intros d Hd.
  wp_branch; [|done].
  eapply (other_pool_inv (LoansIncentive c) who); [done|]. apply set_share_law; [|apply ignores_none|apply paid_refl].
  case_match; [by apply saturating_add_u128|by apply saturating_sub_u128].
Qed.
Lemma guarantee_inv who v n R : is_u128 n ->
  wp (inc_guarantee_increased who v n) keeps R s /\ wp (inc_guarantee_decreased who v n) keeps R s.
Proof.
  intros Hn. split.
  - eapply (other_pool_inv (HomaValidatorAllowance v) who); [done|].
    apply add_share_law; [done|apply ignores_none|apply paid_refl].
  - eapply (other_pool_inv (HomaValidatorAllowance v) who); [done|].
    apply remove_share_law; [done|apply ignores_none|apply paid_refl].
Qed.
End Operations.

(** *** Parameters *)
Lemma on_incentives_inv f s :
  (inc_typed (incentives s) -> inc_typed (f (incentives s))) ->
  inc_rewards (f (incentives s)) = inc_rewards (incentives s) -> inc_inv s -> inc_inv (on_incentives f s).
Proof.
  intros Hf Hr. apply kept_inv. split; try done.
  - by rewrite incentives_on.
  - intros c who. unfold share_of. by rewrite incentives_on, Hr.
Qed.
Lemma event_inv e s : inc_inv s -> inc_inv (on_incentives (add_event e) s).
Proof. apply on_incentives_inv; [|done]. by intros [T1 T2 T3]. Qed.

(** A list of updates keeps the books when each of them does. *)
Lemma updates_inv o (body : PoolId * Z -> Run unit) l s :
  (forall up t, is_u128 up.2 -> inc_inv t -> wp (body up) (fun _ t' => inc_inv t') (fun _ _ => True) t) ->
  Forall (fun up => is_u128 up.2) l -> inc_inv s ->
  wp (transactional (ensure_origin IncUpdateOrigin o;; for_each body l))
    (fun _ t => inc_inv t) (fun _ t => t = s) s.
Proof.
  intros Hb Hl HI. unfold ensure_origin. wp_guards.
  eapply wp_mono; [apply (wp_for_each _ _ inc_inv (fun _ _ => True)); [done|]|done|done].
  intros up t Hin Ht. rewrite Forall_forall in Hl. apply Hb; [by apply Hl|done].
Qed.
Lemma insert_typed (m : gmap PoolId Z) p n :
  is_u128 n -> (forall q x, m !! q = Some x -> is_u128 x) ->
  forall q x, <[p := n]> m !! q = Some x -> is_u128 x.
Proof. intros Hn Hm q x [[<- <-]|[_ Hq]]%lookup_insert_Some; [done|by eapply Hm]. Qed.

Lemma amounts_typed x p n : is_u128 n -> inc_typed x -> inc_typed (set_amounts <[p := n]> x).
Proof. intros Hn [T1 T2 T3]. split; [by apply insert_typed|exact T2|exact T3]. Qed.
Lemma rates_typed x p n : is_u128 n -> inc_typed x -> inc_typed (set_saving_rates <[p := n]> x).
Proof. intros Hn [T1 T2 T3]. split; [exact T1|by apply insert_typed|exact T3]. Qed.
Lemma deductions_typed x p n : is_u128 n -> inc_typed x -> inc_typed (set_deductions <[p := n]> x).
Proof. intros Hn [T1 T2 T3]. split; [exact T1|exact T2|by apply insert_typed]. Qed.

(** *** The hook of a period *)
Lemma accumulate_incentive_inv pool s : inc_inv s ->
  wp (accumulate_incentive pool) (fun _ t => inc_inv t) (fun _ _ => False) s.
Proof.
  intros HI. unfold accumulate_incentive. wp_guards. wp_branch; [|done].
  assert (Hn : is_u128 (incentive_reward_amount pool s)).
  { unfold incentive_reward_amount. destruct (_ !! pool) as [n|] eqn:E; [by eapply it_amounts, E; apply HI|].
    cbn. uarith. }
  wp_guards. apply wp_lift_ledger. split; [|by intros e _; wp_guards].
  intros l Hl. apply wp_modify.
  eapply kept_inv, HI. apply (paying_kept none). eapply paying_trans; [|apply accumulate_paid].
  split; [|done]. eapply paid_ledger; [exact Hn|exact (reward_currency_law HomaIncentive)|..|exact Hl]; by intros [].
Qed.

Lemma saving_base_u128 c n s : dex_typed (st_dex s) -> dex_saving_reward_base c s = Some n -> is_u128 n.
Proof.
  intros Ht. unfold dex_saving_reward_base. destruct (split_dex_share_currency_id c) as [[a b]|]; [|done].
  cbn. intros [= <-]. repeat case_decide; [by apply pool_u128|by apply pool_u128|by split].
Qed.
Lemma minted_kept n t s' s : is_u128 n -> t = s \/ debited n s t ->
  minted GetStableCurrencyId RewardsVaultAccountId n t s' -> kept s s' /\ incentives s' = incentives s.
Proof.
  intros Hn Ht (l & -> & Hf & _).
  assert (Hd : kept s t /\ incentives t = incentives s /\ forall c x, free_balance c x t = free_balance c x s).
  { destruct Ht as [->|[-> _]]; by split. }
  destruct Hd as ([K1 K2 K3 K4] & Hi & Hfree). split; [|done]. split; [exact K1|exact K2| |exact K4].
  intros c Hc. unfold free_balance at 2. cbn. rewrite Hf, Hfree.
  pose proof (delta_nonneg GetStableCurrencyId RewardsVaultAccountId n c incentives_account_id). destruct Hn. lia.
Qed.

Lemma accumulate_saving_inv pool c s : inc_inv s ->
  wp (accumulate_saving pool c) (fun _ t => inc_inv t) (fun _ _ => False) s.
Proof.
  intros HI. unfold accumulate_saving. wp_guards. wp_branch; [|done]. wp_guards.
  assert (Hr : is_u128 (dex_saving_reward_rate pool s)).
  { unfold dex_saving_reward_rate. destruct (_ !! pool) as [n|] eqn:E; [by eapply it_rates, E; apply HI|].
    cbn. uarith. }
  destruct (dex_saving_reward_base c s) as [base|] eqn:Hb; [|done].
  apply saving_base_u128 in Hb; [|apply HI]. pose proof (smi_u128 _ _ Hr Hb) as Hn.
  wp_branch; [|done]. wp_guards.
  eapply wp_mono; [by apply issue_unbacked_spec| |].
  - intros [] t (t' & Hd & Hm). apply wp_modify.
    destruct (minted_kept _ t' t s Hn (or_intror Hd) Hm) as [Hk _].
    eapply kept_inv; [eapply paying_kept, (accumulate_paid none)|]. by eapply kept_inv.
  - intros e t [->|[-> _]]; apply wp_ret; [done|]. by eapply kept_inv, HI.
Qed.

Lemma initialize_inv now s (R : DispatchError -> State -> Prop) : inc_inv s ->
  wp (inc_on_initialize now) (fun _ t => inc_inv t) R s.
Proof.
  intros HI. unfold inc_on_initialize. wp_guards. wp_branch; [|done].
  pose proof accumulate_period_pos. destruct (Z.eqb_spec AccumulatePeriod 0); [lia|].
  wp_branch; [|done]. wp_guards.
  eapply wp_mono; [apply (wp_for_each _ _ inc_inv (fun _ _ => False)); [done|]|done|done].
  intros [pool shares] t _ Ht. cbn [fst snd]. wp_branch; [|done].
  destruct pool; try done; first [by apply accumulate_incentive_inv|by apply accumulate_saving_inv].
Qed.

(** ** Every history *)
Lemma run_inc_wp op s : op_ok op -> inc_inv s ->
  wp (run_inc op) (fun _ t => inc_inv t) (fun _ t => t = s) s.
Proof.
  intros Hop HI. destruct op as [o c n|o c n|o pool|o l|o l|o l|o pool n|now|who c n|who c n|who c a n|who v n|who v n];
    cbn [run_inc op_ok] in *.
  - unfold deposit_dex_share. wp_guards. apply wp_signed; [intros who ->|done].
    eapply wp_mono; [apply deposit_inv; [done|intros E; apply (proj1 Hop); congruence|apply Hop]|done|done].
  - unfold withdraw_dex_share. wp_guards. apply wp_signed; [intros who ->|done].
    eapply wp_mono; [apply withdraw_inv; [done|intros E; apply (proj1 Hop); congruence|apply Hop]|done|done].
  - unfold claim_rewards. wp_guards. apply wp_signed; [intros who ->|done]. by apply claim_inv.
  - apply updates_inv; [|done|done]. intros [p n] t Hn Ht. cbn [fst snd] in *.
    destruct p; wp_guards; apply event_inv, on_incentives_inv; (done || by apply amounts_typed).
  - apply updates_inv; [|done|done]. intros [p n] t Hn Ht. cbn [fst snd] in *.
    destruct p; wp_guards; apply event_inv, on_incentives_inv; (done || by apply rates_typed).
  - apply updates_inv; [|done|done]. intros [p n] t Hn Ht. cbn [fst snd] in *.
    destruct p; wp_guards; apply event_inv, on_incentives_inv; (done || by apply deductions_typed).
  - unfold add_allowance. wp_guards. apply wp_signed; [intros who ->|done].
    destruct pool as [| | | |v]; try done. wp_guards. apply wp_lift_ledger. split; [|done]. intros l Hl.
    apply wp_modify. eapply kept_inv, HI. apply (paying_kept none).
    eapply paying_trans; [|apply accumulate_paid]. split; [|done].
    eapply paid_ledger; [exact Hop|exact (reward_currency_law (HomaValidatorAllowance v))|..|exact Hl]; by intros [].
  - by apply initialize_inv.
  - by destruct Hop; apply deposit_inv.
  - by destruct Hop; apply withdraw_inv.
  - by apply loan_updated_inv.
  - by apply guarantee_inv.
  - by apply guarantee_inv.
Qed.

(** The operations of the pallet, and what the rest of the runtime does: it
    leaves the storage of the pallet and what the pallet's account holds in
    liquidity tokens alone, or adds to it. *)
Inductive inc_step : State -> State -> Prop :=
  | inc_own op s r t : op_ok op -> run_inc op s = (r, t) -> inc_step s t
  | inc_elsewhere s t : incentives t = incentives s -> dex_typed (st_dex t) ->
      (forall c, is_dex_share_currency_id c = true ->
         free_balance c incentives_account_id s <= free_balance c incentives_account_id t) ->
      inc_step s t.

Lemma inc_step_inv s t : inc_step s t -> inc_inv s -> inc_inv t.
Proof.
  intros [op u r v Hop Hr|u v Hi Hd Hf] HI.
  - pose proof (run_inc_wp op u Hop HI) as Hw. unfold wp in Hw. rewrite Hr in Hw.
    destruct r; [done|by subst|done].
  - eapply kept_inv, HI. split; [by rewrite Hi|done|exact Hf|]. intros c who. unfold share_of. by rewrite Hi.
Qed.

(** A withdrawal fails only with its checks and the ledger. *)
Lemma withdraw_succeeds who c n l s : inc_inv s -> is_dex_share_currency_id c = true -> is_u128 n ->
  n <= share_of (DexIncentive c) who s ->
  cur_transfer c incentives_account_id who n (st_ledger s) = inl l ->
  wp (incentives_withdraw_dex_share who c n) (fun _ _ => True) (fun _ _ => False) s.
Proof.
  intros HI Hc Hn Hle Hl. unfold incentives_withdraw_dex_share. apply wp_bind, wp_ensure. split; [|by rewrite Hc].
  intros _. do 2 apply wp_bind, wp_gets. apply wp_bind, wp_ensure. split.
  2:{ rewrite andb_false_iff, !Z.leb_gt, (iv_same _ HI). lia. }
  intros _. apply wp_bind, wp_lift_ledger. split; [|intros e He; by rewrite Hl in He].
  intros l' Hl'. eapply wp_mono; [apply (two_pools_wp none who c (fun pool => rw_remove_share payout who pool n)
    (fun m => U128.saturating_sub m n))|done|done].
  intros pool t Hp. apply remove_share_law; [done|by apply paid_ignores; [apply HI|apply apart_none]|done].
Qed.

(** C19: Over any history the liquidity tokens deposited are held by the pallet:
    its account has at least the sum of all shares of a token, and every account
    has the same share in both pools of it.  No operation panics, one that fails
    changes nothing, and an owner can withdraw any part of a share whenever the
    ledger moves the tokens - the share pays for it, whatever rewards are paid
    on the way. *)
Theorem shares_in_custody s t :
  inc_inv s -> rtc inc_step s t ->
  (forall c, is_dex_share_currency_id c = true ->
     total_share (DexIncentive c) t <= free_balance c incentives_account_id t) /\
  (forall c who, share_of (DexSaving c) who t = share_of (DexIncentive c) who t) /\
  (forall op, op_ok op -> wp (run_inc op) (fun _ _ => True) (fun _ u => u = t) t) /\
  (forall c who n l, is_dex_share_currency_id c = true -> is_u128 n ->
     n <= share_of (DexIncentive c) who t ->
     cur_transfer c incentives_account_id who n (st_ledger t) = inl l ->
     exists u, withdraw_dex_share (Signed who) c n t = (Ok tt, u) /\
       share_of (DexIncentive c) who u = share_of (DexIncentive c) who t - n /\
       free_balance c who u = cur_free_balance l c who).
Proof.
  intros HI Hr. assert (HI' : inc_inv t).
  { clear -HI Hr IL. induction Hr as [|x y z Hxy _ IH]; [done|]. apply IH. by eapply inc_step_inv. }
  split_and!; [apply HI'|apply HI'|..].
  - intros op Hop. eapply wp_mono; [by apply run_inc_wp|done|done].
  - intros c who n l Hc Hn Hle Hl.
    pose proof (withdraw_wp none who c n t (iv_typed _ HI') (apart_none who) Hn) as Hw.
    pose proof (withdraw_succeeds who c n l t HI' Hc Hn Hle Hl) as Hok.
    unfold withdraw_dex_share, transactional. cbn [ensure_signed]. unfold mbind at 1, M_bind at 1. cbn [mret M_ret].
    unfold wp in Hw, Hok. destruct (incentives_withdraw_dex_share who c n t) as [[[]|e|] u]; [|done|done].
    exists u. split; [done|]. destruct Hw as (_ & _ & _ & l' & Hl' & Hp & Hs). split.
    + rewrite Hs, decide_True by auto. cbv beta. by apply saturating_sub_exact.
    + rewrite (pd_tokens _ _ _ Hp) by done. unfold free_balance. cbn. congruence.
Qed.
End Specs.
