(* ===== verification/IncentivesSample.v ===== *)
(** * The incentives pallet at work

    A small store of shares and rewards in the place of [orml_rewards] - who
    claims from a pool gets all of it - in a runtime whose [st_incentives] is
    the storage of the pallet, and the claims about the pallet applied there. *)
From stdpp Require Import relations.
From S2P Require Import Prelude FixedPoint Primitives Runtime Sample Support.
From S2P Require Import Dex DexSwap Treasury EmergencyShutdown Incentives IncentivesSpecs.

(** ** The store *)
Definition clip (x : Z) : Balance := Z.max 0 (Z.min x U128_MAX).
Lemma clip_u128 x : is_u128 (clip x).
Proof. unfold clip. uarith. Qed.
Lemma clip_id x : is_u128 x -> clip x = x.
Proof. unfold clip. uarith. Qed.

Record SampleRewards := mkRewards {
  sr_shares : gmap PoolId (gmap AccountId Z);
  sr_rewards : gmap PoolId Z }.
#[local] Instance sample_store : RewardsStore := {
  RewardsSt := SampleRewards;
  rw_pools r := map (fun kv => (kv.1, value_sum kv.2)) (map_to_list (sr_shares r));
  rw_shares r p := clip <$> default ∅ (sr_shares r !! p);
  rw_accumulate_reward p n r :=
    mkRewards (sr_shares r) (<[p := U128.saturating_add (default 0 (sr_rewards r !! p)) n]> (sr_rewards r)) }.

#[local] Instance staking_runtime : Config := sample_with IncentivesStorage.
#[local] Instance staking_runtime_laws : ConfigLaws := sample_with_laws IncentivesStorage.

Definition sr_of (s : State) : SampleRewards := inc_rewards (st_incentives s).
Definition sr_put (f : SampleRewards -> SampleRewards) (s : State) : State :=
  set_incentives (set_rewards (f (sr_of s)) (st_incentives s)) s.
Definition sr_share (pool : PoolId) (who : AccountId) (s : State) : Balance :=
  default 0 ((clip <$> default ∅ (sr_shares (sr_of s) !! pool)) !! who).
Definition sr_put_share (pool : PoolId) (who : AccountId) (n : Balance) (r : SampleRewards) : SampleRewards :=
  mkRewards (<[pool := <[who := n]> (default ∅ (sr_shares r !! pool))]> (sr_shares r)) (sr_rewards r).

Definition sr_claim (pay : AccountId -> PoolId -> Balance -> Run unit) (who : AccountId) (pool : PoolId) : Run unit :=
  share ← gets (sr_share pool who);
  if share =? 0 then mret tt else
  amount ← gets (fun s => clip (default 0 (sr_rewards (sr_of s) !! pool)));
  modify (sr_put (fun r => mkRewards (sr_shares r) (<[pool := 0]> (sr_rewards r))));;
  pay who pool amount.
Definition sr_set (who : AccountId) (pool : PoolId) (n : Balance) : Run unit :=
  modify (sr_put (sr_put_share pool who n)).
Definition sr_change (f : Balance -> Balance) (who : AccountId) (pool : PoolId) : Run unit :=
  share ← gets (sr_share pool who);
  sr_set who pool (f share).

#[local] Instance sample_incentives : IncentivesConfig := {
  inc_get x := x;
  inc_put x _ := x;
  AccumulatePeriod := 10;
  NativeCurrencyId := Token ACA;
  NativeRewardsSource := 1007%N;
  RewardsVaultAccountId := 1006%N;
  IncUpdateOrigin o := match o with Root => true | _ => false end;
  incentives_account_id := 1005%N;
  rw_add_share _ who pool n := sr_change (fun share => U128.saturating_add share n) who pool;
  rw_remove_share pay who pool n :=
    sr_claim pay who pool;; sr_change (fun share => U128.saturating_sub share n) who pool;
  rw_set_share _ who pool n := sr_set who pool n;
  rw_claim_rewards pay who pool := sr_claim pay who pool }.

Section StoreLaws.
Context (pay : AccountId -> PoolId -> Balance -> Run unit) (who : AccountId) (pool : PoolId) (I : State -> Prop).
Context (HI : ignores_payouts pay who pool I).

Lemma sr_set_wp n s : is_u128 n -> I s ->
  wp (sr_set who pool n) (fun _ t => I t /\ shares_become pool who n s t) (fun _ _ => False) s.
Proof.
  intros Hn Hs. split; [by apply (proj1 HI)|]. intros p x. unfold share_of, sr_put, sr_put_share. cbn.
  destruct (decide (p = pool)) as [->|Hp].
  - rewrite lookup_insert_eq. cbn. rewrite !lookup_fmap. destruct (decide (x = who)) as [->|Hx].
    + rewrite lookup_insert_eq, decide_True by done. cbn. by apply clip_id.
    + rewrite lookup_insert_ne by congruence. by destruct (decide (pool = pool /\ x = who)) as [[_ ?]|_].
  - rewrite lookup_insert_ne by congruence. by destruct (decide (p = pool /\ x = who)) as [[? _]|_].
Qed.
Lemma sr_change_wp f s : is_u128 (f (share_of pool who s)) -> I s ->
  wp (sr_change f who pool) (fun _ t => I t /\ shares_become pool who (f (share_of pool who s)) s t)
    (fun _ _ => False) s.
Proof. intros Hf Hs. unfold sr_change. apply wp_bind, wp_gets. by apply sr_set_wp. Qed.
Lemma sr_claim_wp s : I s ->
  wp (sr_claim pay who pool) (fun _ t => I t /\ same_shares s t) (fun _ _ => False) s.
Proof.
  intros Hs. unfold sr_claim. apply wp_bind, wp_gets. wp_branch; [by apply wp_ret|].
  apply wp_bind, wp_gets, wp_bind, wp_modify.
  eapply wp_mono; [apply (proj2 HI); [apply clip_u128|by apply (proj1 HI)]| |done].
  intros [] t [Ht Hsh]. split; [done|]. intros p x. by rewrite Hsh.
Qed.
End StoreLaws.

Lemma sample_share_u128 pool who s : is_u128 (share_of pool who s).
Proof.
  unfold share_of. cbn. rewrite lookup_fmap. destruct (_ !! who); cbn; [apply clip_u128|by split].
Qed.
#[local] Instance sample_incentives_laws : IncentivesLaws.
Proof.
  split; try exact _.
  - done.
  - intros r p x n Hx. cbn in Hx. rewrite lookup_fmap in Hx. destruct (_ !! x); [|done].
    injection Hx as <-. apply clip_u128.
  - done.
  - intros pay who pool n I s Hn HI Hs. apply sr_change_wp with (pay := pay); [done| |done].
    apply saturating_add_u128; [apply sample_share_u128|done].
  - intros pay who pool n I s Hn HI Hs. apply wp_bind. eapply wp_mono; [by apply sr_claim_wp| |done].
    intros [] t [Ht Hst]. eapply wp_mono; [apply sr_change_wp with (pay := pay)| |done]; [done| |done|].
    + apply saturating_sub_u128; [apply sample_share_u128|done].
    + intros [] u [Hu Htu]. split; [done|]. intros p x. by rewrite Htu, !Hst.
  - intros pay who pool n I s Hn HI Hs. by apply sr_set_wp with (pay := pay).
  - intros pay who pool I s HI Hs. by apply sr_claim_wp.
  - by intros [].
  - by split.
  - done.
Qed.

(** ** A history: alice deposits liquidity tokens, the pool is given an amount
    for each period, and a period begins. *)
Definition lp : CurrencyId := CDexShare (Share_Token AUSD) (Share_Token DOT).
Definition staking_genesis : State :=
  sample_state_with (mkIncentives ∅ ∅ ∅ (mkRewards ∅ ∅) [])
    [(lp, alice, 100); (Token ACA, 1007%N, 1000)] (fun _ => None).
Definition after_op (op : inc_op) (s : State) : State := (run_inc op s).2.
Definition staked : State :=
  after_op (OpInitialize 20)
    (after_op (OpIncentiveRewards Root [(DexIncentive lp, 50)])
      (after_op (OpDeposit (Signed alice) lp 100) staking_genesis)).

Lemma history_op op s t : rtc inc_step s t -> op_ok op -> rtc inc_step s (after_op op t).
Proof. intros Hr Hop. eapply rtc_r; [exact Hr|]. exact (inc_own op t _ _ Hop (surjective_pairing _)). Qed.
Lemma staked_history : rtc inc_step staking_genesis staked.
Proof.
  unfold staked. apply history_op; [|exact I]. apply history_op; [|by repeat constructor].
  apply history_op; [|by repeat split]. apply rtc_refl.
Qed.
Lemma staking_genesis_inv : inc_inv staking_genesis.
Proof.
  split; [by split|by intros p x| |done].
  intros c _. pose proof (free_balance_u128 (st_ledger staking_genesis) c incentives_account_id) as [? _].
  unfold total_share. cbn [rw_shares sample_store]. by apply (Z.le_trans _ 0).
Qed.

Lemma inl_witness {A B} (x : A + B) (P : A -> Prop) :
  match x with inl a => P a | inr _ => False end -> exists a, x = inl a /\ P a.
Proof. destruct x; [by eauto|done]. Qed.
Lemma staked_transfer : exists l,
  cur_transfer lp incentives_account_id alice 60 (st_ledger staked) = inl l /\
  cur_free_balance l lp alice = 60.
Proof. apply inl_witness. vm_compute. reflexivity. Qed.
Lemma staked_share : share_of (DexIncentive lp) alice staked = 100.
Proof. vm_compute. reflexivity. Qed.

Lemma shares_in_custody_witness :
  total_share (DexIncentive lp) staked <= free_balance lp incentives_account_id staked /\
  total_share (DexIncentive lp) staked = 100 /\
  exists u, withdraw_dex_share (Signed alice) lp 60 staked = (Ok tt, u) /\
    share_of (DexIncentive lp) alice u = 40 /\ free_balance lp alice u = 60.
Proof.
  destruct (shares_in_custody staking_genesis staked staking_genesis_inv staked_history)
    as (Hb & _ & _ & Hw).
  split; [by apply Hb|]. split; [vm_compute; reflexivity|].
  destruct staked_transfer as (l & Hl & Ht).
  assert (Hle : 60 <= share_of (DexIncentive lp) alice staked) by (rewrite staked_share; lia).
  assert (H60 : is_u128 60) by by split.
  destruct (Hw lp alice 60 l eq_refl H60 Hle Hl) as (u & Hu & Hsu & Hfu).
  exists u. rewrite Hsu, staked_share, Hfu. split; [exact Hu|]. split; [reflexivity|exact Ht].
Defined.

Lemma incentives_meet_exchange_witness :
  exists l i, (incentives_withdraw_dex_share alice lp 60 staked).2
    = set_incentives i (set_ledger l staked) /\ shares_moved (st_ledger staked) l /\
    cur_free_balance l (Token ACA) alice = 50.
Proof.
  destruct (incentives_meet_exchange alice lp 60 staked) as [_ Hw].
  - assert (Hi : inc_inv staked).
    { pose proof staked_history as Hr. pose proof staking_genesis_inv as HI. revert HI.
      induction Hr as [|x y z Hxy _ IH]; [done|]. intros HI. by eapply IH, inc_step_inv. }
    apply Hi.
  - done.
  - by split.
  - unfold wp in Hw. destruct (incentives_withdraw_dex_share alice lp 60 staked) as [r u] eqn:E.
    assert (Hr : r = Ok tt) by
      (change r with (r, u).1; rewrite <- E; vm_compute; reflexivity).
    rewrite Hr in Hw. destruct Hw as (l & i & Hu & Hm). exists l, i. split; [exact Hu|]. split; [exact Hm|].
    assert (Hb : free_balance (Token ACA) alice u = 50) by
      (change u with (r, u).2; rewrite <- E; vm_compute; reflexivity).
    by rewrite Hu in Hb.
Defined.
