(* ===== verification/PolkadotBridge.v ===== *)
(** * The bridge to the relay chain

    [modules/support/src/homa.rs]: what the pallets of the liquid staking ask of
    the relay chain, as the class [PolkadotBridge], with the laws they rely on;
    [modules/polkadot-bridge/src/lib.rs]: the pallet that simulates a relay chain,
    its storage and operations, and that it keeps the laws and conserves the
    staking currency. *)
From S2P Require Import Prelude FixedPoint Primitives Runtime Support.

Abbreviation EraIndex := Z.
Abbreviation SubAccountIndex := Z.

(** ** [modules/support/src/homa.rs] *)
Record PolkadotUnlockChunk := mkPolkadotChunk { pc_value : Balance; pc_era : EraIndex }.
Record PolkadotStakingLedger := mkPolkadotLedger {
  ps_total : Balance;
  ps_active : Balance;
  ps_unlocking : list PolkadotUnlockChunk }.

Class PolkadotBridge `{Config} := {
  BridgeSt : Type;
  BondingDuration : EraIndex;
  pb_bond_extra : SubAccountIndex -> Balance -> M DispatchError (Ledger * BridgeSt) unit;
  pb_unbond : SubAccountIndex -> Balance -> M DispatchError (Ledger * BridgeSt) unit;
  pb_rebond : SubAccountIndex -> Balance -> M DispatchError (Ledger * BridgeSt) unit;
  pb_withdraw_unbonded : SubAccountIndex -> M DispatchError (Ledger * BridgeSt) unit;
  pb_nominate : SubAccountIndex -> list N -> M DispatchError (Ledger * BridgeSt) unit;
  pb_transfer_to_bridge : SubAccountIndex -> AccountId -> Balance -> M DispatchError (Ledger * BridgeSt) unit;
  pb_receive_from_bridge : SubAccountIndex -> AccountId -> Balance -> M DispatchError (Ledger * BridgeSt) unit;
  pb_payout_stakers : SubAccountIndex -> EraIndex -> M DispatchError (Ledger * BridgeSt) unit;
  pb_staking_ledger : BridgeSt -> SubAccountIndex -> PolkadotStakingLedger;
  pb_free_balance : BridgeSt -> SubAccountIndex -> Balance;
  pb_current_era : BridgeSt -> EraIndex }.

(** *** What its callers rely on

    [pays ok to d x y]: of all balances only the staking currency of [to] changed,
    by [d]. *)
Definition pays `{Config} {B} (ok : B -> Prop) (to : AccountId) (d : Z) (x y : Ledger * B) : Prop :=
  ok y.2 /\ forall c a, cur_free_balance y.1 c a
    = cur_free_balance x.1 c a + delta GetStakingCurrencyId to d c a.
Definition pays_or_fails `{Config} {B} (ok : B -> Prop) (to : AccountId) (d : Z)
    (m : M DispatchError (Ledger * B) unit) : Prop :=
  forall x, ok x.2 -> wp m (fun _ => pays ok to d x) (fun _ => pays ok to 0 x) x.
(** The functions without a result do not fail. *)
Definition pays_nobody `{Config} {B} (ok : B -> Prop) (to : AccountId)
    (m : M DispatchError (Ledger * B) unit) : Prop :=
  forall x, ok x.2 -> wp m (fun _ => pays ok to 0 x) (fun _ _ => False) x.

Class BridgeLaws `{PolkadotBridge} := {
  bridge_ok : BridgeSt -> Prop;
  active_u128 b i : bridge_ok b -> is_u128 (ps_active (pb_staking_ledger b i));
  bridge_free_u128 b i : bridge_ok b -> is_u128 (pb_free_balance b i);
  bonding_pos : 0 < BondingDuration;
  bond_extra_law to i n : is_u128 n -> pays_or_fails bridge_ok to 0 (pb_bond_extra i n);
  unbond_law to i n : is_u128 n -> pays_or_fails bridge_ok to 0 (pb_unbond i n);
  withdraw_unbonded_law to i : pays_nobody bridge_ok to (pb_withdraw_unbonded i);
  nominate_law to i l : pays_nobody bridge_ok to (pb_nominate i l);
  payout_law to i e : pays_nobody bridge_ok to (pb_payout_stakers i e);
  transfer_to_bridge_law from i n : is_u128 n ->
    pays_or_fails bridge_ok from (- n) (pb_transfer_to_bridge i from n);
  receive_from_bridge_law to i n : is_u128 n ->
    pays_or_fails bridge_ok to n (pb_receive_from_bridge i to n) }.

(** ** The simulated relay chain *)
Record SubAccountStatus := mkSub {
  sub_bonded : Balance;
  sub_available : Balance;
  sub_unbonding : list (EraIndex * Balance);
  mock_reward_rate : Rate }.
Definition SubAccountStatus_default : SubAccountStatus := mkSub 0 0 [] 0.

Class SimConfig := {
  SimBondingDuration : EraIndex;
  EraLength : BlockNumber;
  MaxUnbonding : Z }.
Class SimLaws `{SimConfig} : Prop := {
  sim_bonding_pos : 0 < SimBondingDuration;
  max_unbonding_nonneg : 0 <= MaxUnbonding }.

Record SimSt := mkSim {
  SimCurrentEra : EraIndex;
  EraStartBlockNumber : BlockNumber;
  ForcedEra : option BlockNumber;
  SubAccounts : gmap SubAccountIndex SubAccountStatus }.

Section Simulator.
Context `{Config} `{SimConfig}.
Abbreviation SM A := (M DispatchError (Ledger * SimSt) A).

Definition PBE (e : PolkadotBridgeError.t) : DispatchError := PolkadotBridgeE e.
Definition sub_account (i : SubAccountIndex) (b : SimSt) : SubAccountStatus :=
  default SubAccountStatus_default (SubAccounts b !! i).
Definition put_sub_account (i : SubAccountIndex) (status : SubAccountStatus) (b : SimSt) : SimSt :=
  mkSim (SimCurrentEra b) (EraStartBlockNumber b) (ForcedEra b) (<[i := status]> (SubAccounts b)).
(** [SubAccounts::mutate] and [try_mutate]: an error leaves the entry as it was. *)
Definition mutate_sub_account (i : SubAccountIndex) (f : SubAccountStatus -> SubAccountStatus) : SM unit :=
  modify (fun x => (x.1, put_sub_account i (f (sub_account i x.2)) x.2)).
Definition try_mutate_sub_account (i : SubAccountIndex)
    (f : SubAccountStatus -> outcome DispatchError SubAccountStatus) : SM unit :=
  status ← reads (fun x => f (sub_account i x.2));
  modify (fun x => (x.1, put_sub_account i status x.2)).

(** The changes of one sub account *)
Definition status_bond_extra (amount : Balance) (status : SubAccountStatus) : outcome DispatchError SubAccountStatus :=
  available ← ook_or (U128.checked_sub (sub_available status) amount) (PBE PolkadotBridgeError.NotEnough);
  bonded ← ook_or (U128.checked_add (sub_bonded status) amount) ArithmeticOverflow;
  mret (mkSub bonded available (sub_unbonding status) (mock_reward_rate status)).
Definition status_unbond (current_era : EraIndex) (amount : Balance) (status : SubAccountStatus)
    : outcome DispatchError SubAccountStatus :=
  bonded ← ook_or (U128.checked_sub (sub_bonded status) amount) (PBE PolkadotBridgeError.NotEnough);
  let unbonded_era_index := u32_wrapping_add current_era SimBondingDuration in
  oensure (Z.of_nat (length (sub_unbonding status)) <? MaxUnbonding)
    (PBE PolkadotBridgeError.MaxUnbondingExceeded);;
  mret (mkSub bonded (sub_available status)
    (sub_unbonding status ++ [(unbonded_era_index, amount)]) (mock_reward_rate status)).

Definition sub_account_bond_extra (i : SubAccountIndex) (amount : Balance) : SM unit :=
  if negb (amount =? 0) then try_mutate_sub_account i (status_bond_extra amount) else mret tt.
Definition sub_account_unbond (i : SubAccountIndex) (amount : Balance) : SM unit :=
  if negb (amount =? 0) then
    current_era ← gets (fun x => SimCurrentEra x.2);
    try_mutate_sub_account i (status_unbond current_era amount)
  else mret tt.

(** The chunks are taken from the last; the list is given in reverse. *)
Fixpoint sub_rebond_loop (amount : Balance) (chunks : list (EraIndex * Balance)) (bonded rebond_balance : Balance) :
    list (EraIndex * Balance) * Balance * Balance :=
  match chunks with
  | [] => ([], bonded, rebond_balance)
  | last :: rest =>
      if u128_wrapping_add rebond_balance last.2 <=? amount then
        let rebond_balance := u128_wrapping_add rebond_balance last.2 in
        let bonded := u128_wrapping_add bonded last.2 in
        if amount <=? rebond_balance then (rest, bonded, rebond_balance)
        else sub_rebond_loop amount rest bonded rebond_balance
      else
        let diff := u128_wrapping_sub amount rebond_balance in
        ((last.1, u128_wrapping_sub last.2 diff) :: rest, u128_wrapping_add bonded diff, u128_wrapping_add rebond_balance diff)
  end.
Definition status_rebond (amount : Balance) (status : SubAccountStatus) : outcome DispatchError SubAccountStatus :=
  let '(unbonding, bonded, rebond_balance) :=
    sub_rebond_loop amount (rev (sub_unbonding status)) (sub_bonded status) 0 in
  oensure (amount <=? rebond_balance) (PBE PolkadotBridgeError.NotEnough);;
  if negb (rebond_balance =? 0) then
    oensure (Z.of_nat (length unbonding) <=? MaxUnbonding) (PBE PolkadotBridgeError.MaxUnbondingExceeded);;
    mret (mkSub bonded (sub_available status) (rev unbonding) (mock_reward_rate status))
  else mret status.
Definition sub_account_rebond (i : SubAccountIndex) (amount : Balance) : SM unit :=
  try_mutate_sub_account i (status_rebond amount).

(** [expect] fails when the list that is left exceeds the bound. *)
Definition due_chunks (current_era : EraIndex) (l : list (EraIndex * Balance)) :=
  filter (fun ev => ev.1 <= current_era) l.
Definition later_chunks (current_era : EraIndex) (l : list (EraIndex * Balance)) :=
  filter (fun ev => current_era < ev.1) l.
Definition status_withdraw (current_era : EraIndex) (status : SubAccountStatus)
    : outcome DispatchError SubAccountStatus :=
  let available := foldl (fun available ev => U128.saturating_add available ev.2) (sub_available status)
    (due_chunks current_era (sub_unbonding status)) in
  let unbonding := later_chunks current_era (sub_unbonding status) in
  if Z.of_nat (length unbonding) <=? MaxUnbonding
  then Ok (mkSub (sub_bonded status) available unbonding (mock_reward_rate status))
  else Panic.
Definition sub_account_withdraw_unbonded (i : SubAccountIndex) : SM unit :=
  current_era ← gets (fun x => SimCurrentEra x.2);
  try_mutate_sub_account i (status_withdraw current_era).

Definition sub_account_payout_stakers (i : SubAccountIndex) (_ : EraIndex) : SM unit :=
  mutate_sub_account i (fun status =>
    let reward := saturating_mul_int (mock_reward_rate status) (sub_bonded status) in
    mkSub (U128.saturating_add (sub_bonded status) reward) (sub_available status) (sub_unbonding status)
      (mock_reward_rate status)).
Definition sub_account_nominate (_ : SubAccountIndex) (_ : list N) : SM unit := mret tt.

Definition dot_currency (f : Ledger -> Ledger + DispatchError) : SM unit := fun x =>
  match f x.1 with inl l => (Ok tt, (l, x.2)) | inr e => (Err e, x) end.
Definition transfer_to_sub_account (i : SubAccountIndex) (from : AccountId) (amount : Balance) : SM unit :=
  dot_currency (cur_withdraw GetStakingCurrencyId from amount);;
  mutate_sub_account i (fun status =>
    mkSub (sub_bonded status) (U128.saturating_add (sub_available status) amount) (sub_unbonding status)
      (mock_reward_rate status)).
Definition receive_from_sub_account (i : SubAccountIndex) (to : AccountId) (amount : Balance) : SM unit :=
  status ← gets (fun x => sub_account i x.2);
  available ← ok_or (U128.checked_sub (sub_available status) amount) (PBE PolkadotBridgeError.NotEnough);
  dot_currency (cur_deposit GetStakingCurrencyId to amount);;
  modify (fun x => (x.1, put_sub_account i
    (mkSub (sub_bonded status) available (sub_unbonding status) (mock_reward_rate status)) x.2)).

(** [PolkadotBridgeState] *)
Definition sim_staking_ledger (b : SimSt) (i : SubAccountIndex) : PolkadotStakingLedger :=
  let status := sub_account i b in
  mkPolkadotLedger (foldl (fun total ev => U128.saturating_add total ev.2) (sub_bonded status) (sub_unbonding status))
    (sub_bonded status)
    (map (fun ev => mkPolkadotChunk ev.2 ev.1) (sub_unbonding status)).
Definition sim_free_balance (b : SimSt) (i : SubAccountIndex) : Balance := sub_available (sub_account i b).

(** *** Eras: the number of the era that starts is passed to [OnNewEra]. *)
Definition sim_new_era (now : BlockNumber) (b : SimSt) : EraIndex * SimSt :=
  let new_era := u32_wrapping_add (SimCurrentEra b) 1 in
  (new_era, mkSim new_era now (ForcedEra b) (SubAccounts b)).
Definition sim_on_finalize (now : BlockNumber) (b : SimSt) : option EraIndex * SimSt :=
  let force_era := bool_decide (ForcedEra b = Some now) in
  let b := if force_era then mkSim (SimCurrentEra b) (EraStartBlockNumber b) None (SubAccounts b) else b in
  let len := Z.max (now - EraStartBlockNumber b) 0 in
  if (EraLength <=? len) || force_era
  then let '(era, b) := sim_new_era now b in (Some era, b)
  else (None, b).

(** *** Extrinsics *)
Definition sim_ensure_root (o : Origin) : SM unit :=
  match o with Root => mret tt | _ => throw BadOrigin end.
Definition sim_ensure_signed (o : Origin) : SM AccountId :=
  match o with Signed who => mret who | _ => throw BadOrigin end.
Definition set_mock_reward_rate (o : Origin) (i : SubAccountIndex) (reward_rate : Rate) : SM unit :=
  transactional (sim_ensure_root o;;
    mutate_sub_account i (fun status =>
      mkSub (sub_bonded status) (sub_available status) (sub_unbonding status) reward_rate)).
Definition simulate_bond_extra (o : Origin) (i : SubAccountIndex) (amount : Balance) : SM unit :=
  transactional (sim_ensure_root o;; sub_account_bond_extra i amount).
Definition simulate_unbond (o : Origin) (i : SubAccountIndex) (amount : Balance) : SM unit :=
  transactional (sim_ensure_root o;; sub_account_unbond i amount).
Definition simulate_rebond (o : Origin) (i : SubAccountIndex) (amount : Balance) : SM unit :=
  transactional (sim_ensure_signed o;; sub_account_rebond i amount).
Definition simulate_withdraw_unbonded (o : Origin) (i : SubAccountIndex) : SM unit :=
  transactional (sim_ensure_signed o;; sub_account_withdraw_unbonded i).
Definition simulate_payout_stakers (o : Origin) (i : SubAccountIndex) (era : EraIndex) : SM unit :=
  transactional (sim_ensure_signed o;; sub_account_payout_stakers i era).
Definition simulate_transfer_to_sub_account (o : Origin) (i : SubAccountIndex) (amount : Balance) : SM unit :=
  transactional (who ← sim_ensure_signed o; transfer_to_sub_account i who amount).
Definition simualte_receive_from_sub_account (o : Origin) (i : SubAccountIndex) (to : LookupSource)
    (amount : Balance) : SM unit :=
  transactional (sim_ensure_root o;;
    to ← ok_or (lookup to) CannotLookup;
    receive_from_sub_account i to amount).
Definition simulate_slash_sub_account (o : Origin) (i : SubAccountIndex) (amount : Balance) : SM unit :=
  transactional (sim_ensure_root o;;
    mutate_sub_account i (fun status =>
      mkSub (U128.saturating_sub (sub_bonded status) amount) (sub_available status) (sub_unbonding status)
        (mock_reward_rate status))).
Definition force_era (now : BlockNumber) (o : Origin) (at_block : BlockNumber) : SM unit :=
  transactional (sim_ensure_root o;;
    if now <? at_block
    then modify (fun x => (x.1, mkSim (SimCurrentEra x.2) (EraStartBlockNumber x.2) (Some at_block) (SubAccounts x.2)))
    else mret tt).
End Simulator.

(** ** What the simulator guarantees *)
Section Theorems.
Context `{ConfigLaws} `{SimLaws}.
Implicit Types (x y : Ledger * SimSt) (i : SubAccountIndex) (n : Balance) (b : SimSt).

Definition unbonding_sum (l : list (EraIndex * Balance)) : Z := sum_of snd l.
(** What is on a sub account *)
Definition holding (status : SubAccountStatus) : Z :=
  sub_bonded status + sub_available status + unbonding_sum (sub_unbonding status).
Record status_ok (status : SubAccountStatus) : Prop := {
  so_bonded : is_u128 (sub_bonded status);
  so_available : is_u128 (sub_available status);
  so_unbonding ev : ev ∈ sub_unbonding status -> is_u128 ev.2;
  so_bound : Z.of_nat (length (sub_unbonding status)) <= MaxUnbonding;
  so_rate : is_u128 (mock_reward_rate status) }.
Definition sim_ok b : Prop := forall i, status_ok (sub_account i b).
(** The staking currency, on the chain and on the relay chain *)
Definition staking_total x : Z :=
  cur_total_issuance x.1 GetStakingCurrencyId + map_sum (fun _ => holding) (SubAccounts x.2).

Lemma sub_account_put i j status b :
  sub_account i (put_sub_account j status b) = if decide (i = j) then status else sub_account i b.
Proof. unfold sub_account. cbn. case_decide; subst; [by rewrite lookup_insert_eq|by rewrite lookup_insert_ne]. Qed.
Lemma sim_ok_put i status b : sim_ok b -> status_ok status -> sim_ok (put_sub_account i status b).
Proof. intros Hb Hs j. rewrite sub_account_put. by case_decide. Qed.
Lemma unbonding_nonneg status : status_ok status -> 0 <= unbonding_sum (sub_unbonding status).
Proof. intros Hs. apply sum_of_nonneg. intros ev Hev. by apply (so_unbonding _ Hs) in Hev as []. Qed.
Lemma holdings_put i status b :
  map_sum (fun _ => holding) (SubAccounts (put_sub_account i status b)) =
  map_sum (fun _ => holding) (SubAccounts b) - holding (sub_account i b) + holding status.
Proof.
  cbn. rewrite map_sum_insert. unfold sub_account.
  assert (holding SubAccountStatus_default = 0) by done. destruct (SubAccounts b !! i); cbn; lia.
Qed.
Lemma sub_account_lookup b i status : SubAccounts b !! i = Some status -> sub_account i b = status.
Proof. unfold sub_account. by intros ->. Qed.
Lemma holdings_bounds b i : sim_ok b ->
  0 <= holding (sub_account i b) <= map_sum (fun _ => holding) (SubAccounts b).
Proof.
  intros Hb. assert (Hpos : forall j, 0 <= holding (sub_account j b)).
  { intros j. pose proof (unbonding_nonneg _ (Hb j)). destruct (Hb j) as [[] [] _ _ _]. unfold holding. lia. }
  assert (Hall : forall j st, SubAccounts b !! j = Some st -> 0 <= holding st).
  { intros j st <-%sub_account_lookup. apply Hpos. }
  split; [apply Hpos|]. unfold sub_account. destruct (SubAccounts b !! i) as [st|] eqn:E; cbn [default].
  - by apply (map_sum_lookup_le (fun _ => holding)) with (k := i).
  - by apply map_sum_nonneg.
Qed.

(** An operation conserves the staking currency, or fails without effect; no
    sum saturates while the total fits its type. *)
Definition conserves (m : M DispatchError (Ledger * SimSt) unit) : Prop :=
  forall x, sim_ok x.2 -> staking_total x <= U128_MAX ->
    wp m (fun _ y => sim_ok y.2 /\ staking_total y = staking_total x) (fun _ y => y = x) x.

Lemma put_conserves i status x : status_ok status -> holding status = holding (sub_account i x.2) ->
  sim_ok x.2 -> sim_ok (put_sub_account i status x.2) /\
    staking_total (x.1, put_sub_account i status x.2) = staking_total x.
Proof.
  intros Hs Hh Hx. split; [by apply sim_ok_put|]. unfold staking_total. cbn [fst snd].
  rewrite holdings_put. lia.
Qed.
(** What one sub account may become: the same holding, in order *)
Definition reshaped (old new : SubAccountStatus) : Prop := status_ok new /\ holding new = holding old.

Lemma status_bond_extra_ok n st new : status_ok st -> is_u128 n ->
  status_bond_extra n st = Ok new -> reshaped st new.
Proof.
  intros [Hb1 Hb2 Hb3 Hb4 Hb5] Hn Hf. unfold status_bond_extra in Hf. rinv Hf.
  apply checked_sub_Some in Ho as [-> ?]. apply checked_add_Some in Ho0 as [-> ?].
  split; [split; cbn; auto; uarith|]. unfold holding. cbn. lia.
Qed.
Lemma status_unbond_ok e n st new : status_ok st -> is_u128 n ->
  status_unbond e n st = Ok new -> reshaped st new.
Proof.
  intros [Hb1 Hb2 Hb3 Hb4 Hb5] Hn Hf. unfold status_unbond in Hf. rinv Hf.
  apply checked_sub_Some in Ho as [-> ?]. apply Z.ltb_lt in Ho0.
  split; [split; cbn; auto|].
  - uarith.
  - intros ev [Hev| ->%list_elem_of_singleton]%elem_of_app; auto.
  - rewrite length_app. cbn. lia.
  - unfold holding, unbonding_sum. cbn. rewrite sum_of_app. unfold sum_of at 2. cbn [foldr snd]. lia.
Qed.

(** Rebonding moves exactly what it says from the last chunks. *)
Lemma sub_rebond_loop_ok amount l bonded r l' bonded' r' :
  is_u128 amount -> 0 <= r <= amount -> r <= bonded ->
  (forall ev, ev ∈ l -> is_u128 ev.2) -> bonded + unbonding_sum l <= U128_MAX ->
  sub_rebond_loop amount l bonded r = (l', bonded', r') ->
  bonded' + unbonding_sum l' = bonded + unbonding_sum l /\ r' - r = bonded' - bonded /\
  r <= r' <= amount /\ (forall ev, ev ∈ l' -> is_u128 ev.2) /\ (length l' <= length l)%nat.
Proof.
  intros Ha. revert bonded r. induction l as [|ev l IH]; intros bonded r Hr Hb Hl Hsum Hrun;
    cbn [sub_rebond_loop] in Hrun.
  { injection Hrun as <- <- <-. split_and!; try lia. intros ? []%elem_of_nil. }
  unfold unbonding_sum in Hsum. rewrite sum_of_cons in Hsum. pose proof (Hl ev ltac:(left)) as Hev.
  assert (Hrest : 0 <= sum_of snd l).
  { apply sum_of_nonneg. intros ev' Hev'. destruct (Hl ev' ltac:(by right)). lia. }
  unfold unbonding_sum. rewrite sum_of_cons.
  assert (Hadd : forall a c, 0 <= a -> 0 <= c -> a + c <= U128_MAX -> u128_wrapping_add a c = a + c).
  { intros a c ???. unfold u128_wrapping_add. apply Z.mod_small. uarith. }
  unfold is_u128 in Ha, Hev. rewrite !(Hadd r ev.2), !(Hadd bonded ev.2) in Hrun by lia.
  destruct (Z.leb_spec (r + ev.2) amount); [destruct (Z.leb_spec amount (r + ev.2))|].
  - injection Hrun as <- <- <-. split_and!; try lia; [|cbn; lia]. intros. apply Hl. by right.
  - apply IH in Hrun as (? & ? & ? & ? & ?); [|lia|lia|intros; apply Hl; by right|unfold unbonding_sum; lia].
    unfold unbonding_sum in *. split_and!; auto; try lia. cbn. lia.
  - assert (Hsub : u128_wrapping_sub amount r = amount - r /\
        u128_wrapping_sub ev.2 (amount - r) = ev.2 - (amount - r)).
    { split; apply Z.mod_small; uarith. }
    destruct Hsub as [E1 E2]. rewrite E1, E2, !Hadd in Hrun by lia.
    injection Hrun as <- <- <-. rewrite sum_of_cons. cbn [snd fst]. split_and!; try lia; [|cbn; lia].
    intros ev' [->|Hev']%elem_of_cons; [cbn; uarith|]. apply Hl. by right.
Qed.
Lemma elem_of_rev {A} (a : A) l : a ∈ rev l <-> a ∈ l.
Proof. by rewrite <- Permutation_rev. Qed.
Lemma status_rebond_ok n st new : status_ok st -> is_u128 n -> holding st <= U128_MAX ->
  status_rebond n st = Ok new -> reshaped st new.
Proof.
  intros Hst Hn Hsum Hf. destruct Hst as [Hb1 Hb2 Hb3 Hb4 Hb5]. unfold status_rebond in Hf.
  destruct (sub_rebond_loop _ _ _ _) as [[l' bonded'] r'] eqn:E. unfold holding in Hsum.
  assert (Hrev : forall l, unbonding_sum (rev l) = unbonding_sum l).
  { intros l. apply sum_of_permutation. by rewrite <- Permutation_rev. }
  apply sub_rebond_loop_ok in E as (Ht & Hr & Hle & Hl & Hlen);
    [|done|uarith|apply Hb1|intros ev Hev; apply Hb3; by rewrite <- elem_of_rev|
     rewrite Hrev; unfold is_u128 in *; lia].
  rewrite Hrev in Ht. rewrite length_rev in Hlen. rinv Hf; [|by split].
  assert (0 <= unbonding_sum l') by (apply sum_of_nonneg; intros ev' Hev'; by apply Hl in Hev' as []).
  split; [split; cbn; auto|].
  - unfold is_u128 in *. lia.
  - intros ev' Hev'. apply Hl. by rewrite <- elem_of_rev.
  - rewrite length_rev. lia.
  - unfold holding. cbn. rewrite Hrev. lia.
Qed.

(** *** Calls on one account *)
Lemma try_mutate_wp i f x (Q : unit -> Ledger * SimSt -> Prop) (R : DispatchError -> Ledger * SimSt -> Prop) :
  f (sub_account i x.2) <> Panic ->
  (forall new, f (sub_account i x.2) = Ok new -> Q tt (x.1, put_sub_account i new x.2)) ->
  (forall e, R e x) -> wp (try_mutate_sub_account i f) Q R x.
Proof.
  intros Hp Hok He. unfold try_mutate_sub_account. rewrite wp_bind, wp_reads.
  destruct (f _) as [new|e|] eqn:E; [by apply Hok|by apply He|done].
Qed.
Lemma try_mutate_conserves i f :
  (forall st, status_ok st -> f st <> Panic) ->
  (forall st new, status_ok st -> holding st <= U128_MAX -> f st = Ok new -> reshaped st new) ->
  conserves (try_mutate_sub_account i f).
Proof.
  intros Hp Hf x Hx Hsum. apply try_mutate_wp; [by apply Hp| |done]. intros new Hnew.
  apply Hf in Hnew as [? ?]; [by apply put_conserves|apply Hx|].
  pose proof (holdings_bounds x.2 i Hx). unfold staking_total in Hsum.
  pose proof (total_issuance_u128 x.1 GetStakingCurrencyId). unfold is_u128 in *. lia.
Qed.
Lemma status_no_panic e n st :
  status_bond_extra n st <> Panic /\ status_unbond e n st <> Panic /\ status_rebond n st <> Panic.
Proof.
  unfold status_bond_extra, status_unbond, status_rebond. destruct (sub_rebond_loop _ _ _ _) as [[? ?] ?].
  split_and!; no_panic. destruct (negb _); no_panic.
Qed.

Lemma chunks_bounds e st : status_ok st ->
  0 <= unbonding_sum (due_chunks e (sub_unbonding st)) /\
  0 <= unbonding_sum (later_chunks e (sub_unbonding st)) /\
  unbonding_sum (sub_unbonding st) =
    unbonding_sum (due_chunks e (sub_unbonding st)) + unbonding_sum (later_chunks e (sub_unbonding st)).
Proof.
  intros Hst. split_and!.
  1,2: apply sum_of_nonneg; intros ev [_ Hev]%list_elem_of_filter; by apply (so_unbonding _ Hst) in Hev as [].
  apply sum_of_filter_split. intros ev. lia.
Qed.
Lemma status_withdraw_ok e st : status_ok st ->
  exists new, status_withdraw e st = Ok new /\ status_ok new /\
    sub_available new = Z.min U128_MAX (sub_available st + unbonding_sum (due_chunks e (sub_unbonding st))) /\
    sub_unbonding new = later_chunks e (sub_unbonding st) /\
    (holding st <= U128_MAX -> holding new = holding st).
Proof.
  intros Hst. pose proof (chunks_bounds e st Hst) as (Hd & Hl & Hsum).
  assert (Hlen : Z.of_nat (length (later_chunks e (sub_unbonding st))) <= MaxUnbonding).
  { pose proof (length_filter (fun ev : EraIndex * Balance => e < ev.1) (sub_unbonding st)).
    pose proof (so_bound _ Hst). unfold later_chunks. lia. }
  unfold status_withdraw. apply Z.leb_le in Hlen as Hle. rewrite Hle.
  rewrite foldl_saturating_add; [|apply Hst|
    intros ev [_ Hev]%list_elem_of_filter; by apply (so_unbonding _ Hst) in Hev as []].
  destruct Hst as [Hb1 Hb2 Hb3 Hb4 Hb5]. unfold is_u128 in Hb1, Hb2. fold (unbonding_sum (due_chunks e (sub_unbonding st))).
  eexists. split_and!; [done| |done|done|].
  - split; cbn; auto; [uarith|]. intros ev [_ Hev]%list_elem_of_filter. auto.
  - unfold holding. cbn. intros. rewrite Z.min_r by lia. lia.
Qed.

(** *** Conservation *)
Inductive BridgeCall :=
  | BondExtra (i : SubAccountIndex) (n : Balance)
  | Unbond (i : SubAccountIndex) (n : Balance)
  | Rebond (i : SubAccountIndex) (n : Balance)
  | WithdrawUnbonded (i : SubAccountIndex)
  | TransferTo (i : SubAccountIndex) (from : AccountId) (n : Balance)
  | ReceiveFrom (i : SubAccountIndex) (to : AccountId) (n : Balance).
Definition run_bridge_call (c : BridgeCall) : M DispatchError (Ledger * SimSt) unit :=
  match c with
  | BondExtra i n => sub_account_bond_extra i n
  | Unbond i n => sub_account_unbond i n
  | Rebond i n => sub_account_rebond i n
  | WithdrawUnbonded i => sub_account_withdraw_unbonded i
  | TransferTo i from n => transfer_to_sub_account i from n
  | ReceiveFrom i to n => receive_from_sub_account i to n
  end.
Definition call_amount (c : BridgeCall) : Balance :=
  match c with
  | BondExtra _ n | Unbond _ n | Rebond _ n | TransferTo _ _ n | ReceiveFrom _ _ n => n
  | WithdrawUnbonded _ => 0
  end.

Lemma conserves_ret : conserves (mret tt).
Proof. by intros x Hx _. Qed.
Lemma withdraw_conserves i : conserves (sub_account_withdraw_unbonded i).
Proof.
  intros x Hx Hsum. apply wp_bind, wp_gets. apply try_mutate_conserves; [..|done|done].
  - intros st Hst. destruct (status_withdraw_ok (SimCurrentEra x.2) st Hst) as (new & -> & _). done.
  - intros st new Hst Hh Hnew. destruct (status_withdraw_ok (SimCurrentEra x.2) st Hst) as (new' & E & ? & _ & _ & Heq).
    rewrite Hnew in E. injection E as ->. split; auto.
Qed.
Lemma transfer_to_conserves i from n : is_u128 n -> conserves (transfer_to_sub_account i from n).
Proof.
  intros Hn x Hx Hsum. unfold transfer_to_sub_account. apply wp_bind.
  unfold wp at 1, dot_currency. destruct (cur_withdraw _ _ _ _) as [l'|] eqn:E; [|done].
  apply withdraw_law in E as (_ & Hi & _); [|done]. specialize (Hi GetStakingCurrencyId). rewrite decide_True in Hi by done.
  pose proof (holdings_bounds x.2 i Hx) as Hh. pose proof (unbonding_nonneg _ (Hx i)) as Hu.
  pose proof (total_issuance_u128 l' GetStakingCurrencyId) as Hl. unfold staking_total, is_u128 in *.
  pose proof (Hx i) as [Hb1 Hb2 Hb3 Hb4 Hb5]. unfold mutate_sub_account. apply wp_modify. cbn [fst snd].
  set (st := sub_account i x.2) in *. unfold is_u128 in *. unfold holding at 1 2 in Hh.
  rewrite saturating_add_exact by lia. split.
  - apply sim_ok_put; [done|]. split; cbn; auto; unfold is_u128; lia.
  - rewrite holdings_put. fold st. unfold holding at 2 3. cbn. lia.
Qed.
Lemma receive_from_conserves i to n : is_u128 n -> conserves (receive_from_sub_account i to n).
Proof.
  intros Hn x Hx Hsum. unfold receive_from_sub_account. wp_guards. apply checked_sub_Some in Hopt as [-> Hle].
  unfold wp at 1, dot_currency. destruct (cur_deposit _ _ _ _) as [l'|] eqn:E; [|done].
  apply deposit_law in E as (_ & Hi & _); [|done]. specialize (Hi GetStakingCurrencyId). rewrite decide_True in Hi by done.
  pose proof (Hx i) as [Hb1 Hb2 Hb3 Hb4 Hb5]. apply wp_modify. cbn [fst snd].
  set (st := sub_account i x.2) in *. unfold is_u128 in *. split.
  - apply sim_ok_put; [done|]. split; cbn; auto; unfold is_u128; lia.
  - unfold staking_total. cbn [fst snd]. rewrite holdings_put. fold st. unfold holding at 2 3. cbn. lia.
Qed.

(** Bonding, unbonding, rebonding, withdrawing and transfers over the bridge
    neither create nor lose staking currency, counting the issuance on the chain
    and what the sub accounts have bonded, available and unbonding; a call that
    fails has no effect, and the list of chunks never exceeds its bound, so that
    withdrawing does not panic. *)
Theorem bridge_conserves c x : is_u128 (call_amount c) -> sim_ok x.2 -> staking_total x <= U128_MAX ->
  wp (run_bridge_call c) (fun _ y => sim_ok y.2 /\ staking_total y = staking_total x) (fun _ y => y = x) x.
Proof.
  intros Hn. revert x. change (conserves (run_bridge_call c)).
  destruct c as [i n|i n|i n|i|i from n|i to n]; cbn [run_bridge_call call_amount] in *.
  - unfold sub_account_bond_extra. destruct (negb _); [|apply conserves_ret].
    apply try_mutate_conserves; intros; [by apply (status_no_panic 0)|by eapply status_bond_extra_ok].
  - unfold sub_account_unbond. destruct (negb _); [|apply conserves_ret].
    intros x ??. apply wp_bind, wp_gets.
    apply try_mutate_conserves; [..|done|done]; intros; [by apply status_no_panic|by eapply status_unbond_ok].
  - apply try_mutate_conserves; intros; [by apply (status_no_panic 0)|by eapply status_rebond_ok].
  - apply withdraw_conserves.
  - by apply transfer_to_conserves.
  - by apply receive_from_conserves.
Qed.

(** *** The laws of the interface *)
Lemma pays_nothing to x b : sim_ok b -> pays sim_ok to 0 x (x.1, b).
Proof. intros Hb. split; [done|]. intros c a. cbn. rewrite delta_zero. lia. Qed.
Lemma pays_refl to x : sim_ok x.2 -> pays sim_ok to 0 x x.
Proof. destruct x. apply pays_nothing. Qed.
Lemma try_mutate_pays to i f :
  (forall st, status_ok st -> f st <> Panic) ->
  (forall st new, status_ok st -> f st = Ok new -> status_ok new) ->
  pays_or_fails sim_ok to 0 (try_mutate_sub_account i f).
Proof.
  intros Hp Hf x Hx. apply try_mutate_wp; [by apply Hp| |intros; by apply pays_refl].
  intros new Hnew%Hf; [|done]. apply pays_nothing. by apply sim_ok_put.
Qed.
Lemma mutate_pays to i f : (forall st, status_ok st -> status_ok (f st)) ->
  pays_nobody sim_ok to (mutate_sub_account i f).
Proof. intros Hf x Hx. apply wp_modify. apply pays_nothing. apply sim_ok_put; auto. Qed.
Lemma ret_pays to : pays_or_fails sim_ok to 0 (mret tt).
Proof. intros x Hx. by apply wp_ret, pays_refl. Qed.
End Theorems.

Section Instance.
Context `{ConfigLaws} `{SimLaws}.
#[export] Instance simulator : PolkadotBridge := {
  BridgeSt := SimSt;
  BondingDuration := SimBondingDuration;
  pb_bond_extra := sub_account_bond_extra;
  pb_unbond := sub_account_unbond;
  pb_rebond := sub_account_rebond;
  pb_withdraw_unbonded := sub_account_withdraw_unbonded;
  pb_nominate := sub_account_nominate;
  pb_transfer_to_bridge := transfer_to_sub_account;
  pb_receive_from_bridge := receive_from_sub_account;
  pb_payout_stakers := sub_account_payout_stakers;
  pb_staking_ledger := sim_staking_ledger;
  pb_free_balance := sim_free_balance;
  pb_current_era := SimCurrentEra }.

Lemma transfer_to_pays from i n : is_u128 n -> pays_or_fails sim_ok from (- n) (transfer_to_sub_account i from n).
Proof.
  intros Hn x Hx. apply wp_bind. unfold wp at 1, dot_currency.
  destruct (cur_withdraw _ _ _ _) as [l'|] eqn:E; [|by apply pays_refl].
  apply withdraw_law in E as (Hf & _ & _); [|done]. apply wp_modify. split; cbn.
  - apply sim_ok_put; [done|]. destruct (Hx i) as [Hb1 Hb2 Hb3 Hb4 Hb5]. split; cbn; auto.
    by apply saturating_add_u128.
  - intros c a. rewrite Hf, delta_opp. lia.
Qed.
Lemma receive_from_pays to i n : is_u128 n -> pays_or_fails sim_ok to n (receive_from_sub_account i to n).
Proof.
  intros Hn x Hx. unfold receive_from_sub_account. wp_guards; [|by apply pays_refl].
  apply checked_sub_Some in Hopt as [-> Hle]. unfold wp at 1, dot_currency.
  destruct (cur_deposit _ _ _ _) as [l'|] eqn:E; [|by apply pays_refl].
  apply deposit_law in E as (Hf & _ & _); [|done]. apply wp_modify. split; cbn; [|apply Hf].
  apply sim_ok_put; [done|]. destruct (Hx i) as [Hb1 Hb2 Hb3 Hb4 Hb5]. split; cbn; auto. uarith.
Qed.

Lemma withdraw_pays to i : pays_nobody sim_ok to (sub_account_withdraw_unbonded i).
Proof.
  intros x Hx. apply wp_bind, wp_gets. unfold try_mutate_sub_account.
  destruct (status_withdraw_ok (SimCurrentEra x.2) _ (Hx i)) as (new & E & Hnew & _).
  apply wp_bind, wp_reads. rewrite E. apply wp_modify. apply pays_nothing. by apply sim_ok_put.
Qed.

#[export] Instance simulator_laws : BridgeLaws.
Proof.
  apply (@Build_BridgeLaws _ simulator sim_ok).
  - intros b i Hb. apply (Hb i).
  - intros b i Hb. apply (Hb i).
  - apply sim_bonding_pos.
  - intros to i n Hn. cbn. unfold sub_account_bond_extra. destruct (negb _); [|apply ret_pays].
    apply try_mutate_pays; intros; [by apply (status_no_panic 0)|by eapply status_bond_extra_ok].
  - intros to i n Hn. cbn. unfold sub_account_unbond. destruct (negb _); [|apply ret_pays].
    intros x Hx. apply wp_bind, wp_gets.
    apply try_mutate_pays; [..|done]; intros; [by apply status_no_panic|by eapply status_unbond_ok].
  - intros to i. apply withdraw_pays.
  - intros to i l x Hx. by apply wp_ret, pays_refl.
  - intros to i e. apply mutate_pays. intros st [Hb1 Hb2 Hb3 Hb4 Hb5]. split; cbn; auto.
    apply saturating_add_u128; [done|]. by apply smi_u128.
  - intros from i n. apply transfer_to_pays.
  - intros to i n. apply receive_from_pays.
Defined.
End Instance.
