(* ===== verification/StakingPool.v ===== *)
(** * The staking pool and Homa

    [modules/staking-pool/src/lib.rs]: the pool stakes the staking currency of
    its users on the relay chain and issues the liquid currency for it; what is
    redeemed comes back from the free pool at once, or after the unbonding
    period.  At every new era the pool is rebalanced in three blocks, through
    the interface [PolkadotBridge].  [modules/homa/src/lib.rs] offers it to users, against the interface
    [HomaProtocol] of [modules/support/src/homa.rs]. *)
From S2P Require Import Prelude FixedPoint Primitives Runtime Support PolkadotBridge.

Record Params := mkParams {
  target_max_free_unbonded_ratio : Ratio;
  target_min_free_unbonded_ratio : Ratio;
  target_unbonding_to_free_ratio : Ratio;
  unbonding_to_free_adjustment : Rate;
  base_fee_rate : Rate }.

Inductive Phase := Started | RelaychainUpdated | LedgerUpdated | Finished.
#[export] Instance Phase_eq_dec : EqDecision Phase.
Proof. solve_decision. Defined.

(** ** The ledger of the pool *)
Record PoolLedger := mkPoolLedger {
  pl_bonded : Balance;
  pl_unbonding_to_free : Balance;
  pl_free_pool : Balance;
  pl_to_unbond_next_era : Balance * Balance }.

Section LedgerOperations.
Context `{FixedU128}.
Definition pool_total (self : PoolLedger) : Balance :=
  U128.saturating_add (U128.saturating_add (pl_bonded self) (pl_unbonding_to_free self)) (pl_free_pool self).
Definition total_belong_to_liquid_holders (self : PoolLedger) : Balance :=
  U128.saturating_sub (pool_total self) (pl_to_unbond_next_era self).2.
Definition bonded_belong_to_liquid_holders (self : PoolLedger) : Balance :=
  U128.saturating_sub (pl_bonded self) (pl_to_unbond_next_era self).2.
Definition free_pool_ratio (self : PoolLedger) : Ratio :=
  default 0 (checked_from_rational (pl_free_pool self) (total_belong_to_liquid_holders self)).
Definition unbonding_to_free_ratio (self : PoolLedger) : Ratio :=
  default 0 (checked_from_rational (pl_unbonding_to_free self) (total_belong_to_liquid_holders self)).
End LedgerOperations.

Definition set_bonded n (l : PoolLedger) :=
  mkPoolLedger n (pl_unbonding_to_free l) (pl_free_pool l) (pl_to_unbond_next_era l).
Definition set_unbonding_to_free n (l : PoolLedger) :=
  mkPoolLedger (pl_bonded l) n (pl_free_pool l) (pl_to_unbond_next_era l).
Definition set_free_pool n (l : PoolLedger) :=
  mkPoolLedger (pl_bonded l) (pl_unbonding_to_free l) n (pl_to_unbond_next_era l).
Definition set_to_unbond n (l : PoolLedger) :=
  mkPoolLedger (pl_bonded l) (pl_unbonding_to_free l) (pl_free_pool l) n.

(** ** What the pool calls

    The bridge to the relay chain, the fee model, and the order in which storage
    is iterated *)
Class PoolConfig `{PolkadotBridge} := {
  get_fee : Ratio -> Balance -> Balance -> Rate -> option Balance;
  sp_reciprocal : ExchangeRate -> option ExchangeRate;
  DefaultExchangeRate : ExchangeRate;
  PoolAccountIndexes : list SubAccountIndex;
  PoolUpdateOrigin : Origin -> bool;
  pool_account_id : AccountId;
  storage_order : forall A : Type, list A -> list A }.
Arguments storage_order {_ _ _ A} _.

Inductive PoolEvent :=
  | MintLiquid (who : AccountId) (staking liquid : Balance)
  | RedeemByUnbond (who : AccountId) (liquid staking : Balance)
  | RedeemByFreeUnbonded (who : AccountId) (liquid staking fee : Balance)
  | RedeemByClaimUnbonding (who : AccountId) (era : EraIndex) (liquid staking fee : Balance).

(** [sort_by] is a stable sort. *)
Fixpoint insert_by {A} (le : A -> A -> bool) (x : A) (l : list A) : list A :=
  match l with
  | [] => [x]
  | y :: l' => if le x y then x :: l else y :: insert_by le x l'
  end.
Definition sort_by {A} (le : A -> A -> bool) (l : list A) : list A := foldr (insert_by le) [] l.

Definition distribute_increment (amount_list : list (SubAccountIndex * Balance)) (increment : Balance) :
    list (SubAccountIndex * Balance) :=
  match amount_list with [] => [] | x :: _ => [(x.1, increment)] end.
Fixpoint distribute_decrement (amount_list : list (SubAccountIndex * Balance)) (remain_decrement : Balance) :
    list (SubAccountIndex * Balance) :=
  match amount_list with
  | [] => []
  | x :: l =>
      if remain_decrement =? 0 then []
      else (x.1, Z.min x.2 remain_decrement)
             :: distribute_decrement l (U128.saturating_sub remain_decrement x.2)
  end.

Section Pallet.
Context `{PoolConfig}.

Record PoolSt := mkPool {
  CurrentEra : EraIndex;
  NextEraUnbonds : gmap AccountId Balance;
  Unbonding : gmap EraIndex (Balance * Balance * Balance);
  Unbondings : gmap (AccountId * EraIndex) Balance;
  StakingPoolLedger : PoolLedger;
  RebalancePhase : Phase;
  StakingPoolParams : Params;
  sp_ledger : Ledger;
  sp_bridge : BridgeSt;
  sp_events : list PoolEvent }.

Abbreviation PM A := (M DispatchError PoolSt A).

Definition put_current_era x (s : PoolSt) := mkPool x (NextEraUnbonds s) (Unbonding s) (Unbondings s) (StakingPoolLedger s) (RebalancePhase s) (StakingPoolParams s) (sp_ledger s) (sp_bridge s) (sp_events s).
Definition set_next_era_unbonds f (s : PoolSt) := mkPool (CurrentEra s) (f (NextEraUnbonds s)) (Unbonding s) (Unbondings s) (StakingPoolLedger s) (RebalancePhase s) (StakingPoolParams s) (sp_ledger s) (sp_bridge s) (sp_events s).
Definition set_unbonding f (s : PoolSt) := mkPool (CurrentEra s) (NextEraUnbonds s) (f (Unbonding s)) (Unbondings s) (StakingPoolLedger s) (RebalancePhase s) (StakingPoolParams s) (sp_ledger s) (sp_bridge s) (sp_events s).
Definition set_unbondings f (s : PoolSt) := mkPool (CurrentEra s) (NextEraUnbonds s) (Unbonding s) (f (Unbondings s)) (StakingPoolLedger s) (RebalancePhase s) (StakingPoolParams s) (sp_ledger s) (sp_bridge s) (sp_events s).
Definition put_pool_ledger x (s : PoolSt) := mkPool (CurrentEra s) (NextEraUnbonds s) (Unbonding s) (Unbondings s) x (RebalancePhase s) (StakingPoolParams s) (sp_ledger s) (sp_bridge s) (sp_events s).
Definition put_phase x (s : PoolSt) := mkPool (CurrentEra s) (NextEraUnbonds s) (Unbonding s) (Unbondings s) (StakingPoolLedger s) x (StakingPoolParams s) (sp_ledger s) (sp_bridge s) (sp_events s).
Definition put_params x (s : PoolSt) := mkPool (CurrentEra s) (NextEraUnbonds s) (Unbonding s) (Unbondings s) (StakingPoolLedger s) (RebalancePhase s) x (sp_ledger s) (sp_bridge s) (sp_events s).
Definition put_outside (x : Ledger * BridgeSt) (s : PoolSt) := mkPool (CurrentEra s) (NextEraUnbonds s) (Unbonding s) (Unbondings s) (StakingPoolLedger s) (RebalancePhase s) (StakingPoolParams s) x.1 x.2 (sp_events s).
Definition pool_event (e : PoolEvent) : PM unit := modify (fun s => mkPool (CurrentEra s) (NextEraUnbonds s) (Unbonding s) (Unbondings s) (StakingPoolLedger s) (RebalancePhase s) (StakingPoolParams s) (sp_ledger s) (sp_bridge s) (sp_events s ++ [e])).

Definition PoolE (e : StakingPoolError.t) : DispatchError := StakingPoolE e.

(** Calls of the currencies and of the bridge *)
Definition outside (m : M DispatchError (Ledger * BridgeSt) unit) : PM unit := fun s =>
  let r := m (sp_ledger s, sp_bridge s) in (r.1, put_outside r.2 s).
Definition on_currencies (f : Ledger -> Ledger + DispatchError) : PM unit :=
  outside (fun x => match f x.1 with inl l => (Ok tt, (l, x.2)) | inr e => (Err e, x) end).

(** ** Sub accounts on the relay chain *)
Definition sub_accounts (s : PoolSt) : list (Balance * SubAccountIndex * Balance) :=
  map (fun i => (ps_active (pb_staking_ledger (sp_bridge s) i), i, pb_free_balance (sp_bridge s) i))
    PoolAccountIndexes.
Definition ascending (a b : Balance * SubAccountIndex * Balance) : bool := a.1.1 <=? b.1.1.
Definition descending (a b : Balance * SubAccountIndex * Balance) : bool := b.1.1 <=? a.1.1.
Definition with_free (x : Balance * SubAccountIndex * Balance) : SubAccountIndex * Balance := (x.1.2, x.2).
Definition with_active (x : Balance * SubAccountIndex * Balance) : SubAccountIndex * Balance := (x.1.2, x.1.1).

Definition sp_bond_extra (amount : Balance) : PM unit :=
  if amount =? 0 then mret tt else
  current_available ← gets (fun s => map with_free (sort_by ascending (sub_accounts s)));
  for_each (fun x => outside (pb_bond_extra x.1 x.2)) (distribute_decrement current_available amount).

Definition sp_unbond (amount : Balance) : PM unit :=
  if amount =? 0 then mret tt else
  current_bonded ← gets (fun s => map with_active (sort_by descending (sub_accounts s)));
  for_each (fun x => outside (pb_unbond x.1 x.2)) (distribute_decrement current_bonded amount).

Definition receive_from_bridge (to : AccountId) (amount : Balance) : PM unit :=
  if amount =? 0 then mret tt else
  current_available ← gets (fun s => map with_free (sort_by descending (sub_accounts s)));
  for_each (fun x => outside (pb_receive_from_bridge x.1 to x.2)) (distribute_decrement current_available amount).

Definition transfer_to_bridge (from : AccountId) (amount : Balance) : PM unit :=
  if amount =? 0 then mret tt else
  current_balance ← gets (fun s => map with_active (sort_by ascending (sub_accounts s)));
  for_each (fun x => outside (pb_transfer_to_bridge x.1 from x.2)) (distribute_increment current_balance amount).

Definition sp_withdraw_unbonded : PM unit :=
  for_each (fun i => outside (pb_withdraw_unbonded i)) PoolAccountIndexes.
Definition sp_payout_stakers (era : EraIndex) : PM unit :=
  for_each (fun i => outside (pb_payout_stakers i era)) PoolAccountIndexes.
Definition sp_nominate (targets : list N) : PM unit :=
  for_each (fun i => outside (pb_nominate i targets)) PoolAccountIndexes.

(** A chunk is added to the one of its era, or to the end. *)
Fixpoint merge_chunk (chunk : PolkadotUnlockChunk) (l : list PolkadotUnlockChunk) : list PolkadotUnlockChunk :=
  match l with
  | [] => [chunk]
  | existing :: l' =>
      if pc_era chunk =? pc_era existing
      then mkPolkadotChunk (U128.saturating_add (pc_value existing) (pc_value chunk)) (pc_era existing) :: l'
      else existing :: merge_chunk chunk l'
  end.
Definition relaychain_staking_ledger (s : PoolSt) : PolkadotStakingLedger :=
  let merged := foldl (fun acc i =>
      let ledger := pb_staking_ledger (sp_bridge s) i in
      mkPolkadotLedger (U128.saturating_add (ps_total acc) (ps_total ledger))
        (U128.saturating_add (ps_active acc) (ps_active ledger))
        (foldl (fun l chunk => merge_chunk chunk l) (ps_unlocking acc) (ps_unlocking ledger)))
    (mkPolkadotLedger 0 0 []) PoolAccountIndexes in
  mkPolkadotLedger (ps_total merged) (ps_active merged)
    (sort_by (fun a b => pc_era a <=? pc_era b) (ps_unlocking merged)).
Definition relaychain_free_balance (s : PoolSt) : Balance :=
  foldl (fun total i => U128.saturating_add total (pb_free_balance (sp_bridge s) i)) 0 PoolAccountIndexes.

(** ** Exchange rate and redemptions due *)
Definition pool_liquid_exchange_rate (s : PoolSt) : ExchangeRate :=
  let exchange_rate := default 0 (checked_from_rational
    (total_belong_to_liquid_holders (StakingPoolLedger s))
    (cur_total_issuance (sp_ledger s) GetLiquidCurrencyId)) in
  if exchange_rate =? 0 then DefaultExchangeRate else exchange_rate.

Definition unbondings_of (who : AccountId) (s : PoolSt) : list (EraIndex * Balance) :=
  storage_order (map (fun kv => (kv.1.2, kv.2))
    (filter (fun kv => kv.1.1 = who) (map_to_list (Unbondings s)))).
Definition due_unbondings (who : AccountId) (s : PoolSt) : list (EraIndex * Balance) :=
  filter (fun ev => ev.1 <= CurrentEra s) (unbondings_of who s).
Definition get_available_unbonded (who : AccountId) (s : PoolSt) : Balance :=
  foldl (fun available ev => U128.saturating_add available ev.2) 0 (due_unbondings who s).
Definition sp_unbonding (era : EraIndex) (s : PoolSt) : Balance * Balance * Balance :=
  default (0, 0, 0) (Unbonding s !! era).

(** ** Rebalancing *)
(** [nominees] is what [NomineesProvider] answers in the block. *)
Definition rebalance_started (nominees : list N) : PM unit :=
  sp_nominate nominees;;
  sp_withdraw_unbonded;;
  current_era ← gets CurrentEra;
  sp_payout_stakers (Z.max (current_era - 1) 0);;
  modify (put_phase RelaychainUpdated).

(** The records of expired eras are removed and added up. *)
Fixpoint expire_loop (current_era : EraIndex) (l : list (EraIndex * (Balance * Balance * Balance)))
    (total_unbonded total_claimed_unbonded : Balance) : PM (Balance * Balance) :=
  match l with
  | [] => mret (total_unbonded, total_claimed_unbonded)
  | (era_index, (total_unbonding, claimed_unbonding, _)) :: l =>
      if era_index <=? current_era then
        modify (set_unbonding (delete era_index));;
        expire_loop current_era l (U128.saturating_add total_unbonded total_unbonding)
          (U128.saturating_add total_claimed_unbonded claimed_unbonding)
      else expire_loop current_era l total_unbonded total_claimed_unbonded
  end.

Definition rebalance_relaychain_updated : PM unit :=
  ledger ← gets StakingPoolLedger;
  relaychain_staking_ledger ← gets relaychain_staking_ledger;
  relaychain_free_balance ← gets relaychain_free_balance;
  let ledger := set_bonded (ps_active relaychain_staking_ledger) ledger in
  received ← attempt (receive_from_bridge pool_account_id relaychain_free_balance);
  ledger ← match received with
    | inl _ =>
        current_era ← gets CurrentEra;
        records ← gets (fun s => storage_order (map_to_list (Unbonding s)));
        totals ← expire_loop current_era records 0 0;
        mret (set_free_pool (U128.saturating_add (pl_free_pool ledger)
                (U128.saturating_sub relaychain_free_balance totals.2))
              (set_unbonding_to_free (U128.saturating_sub (pl_unbonding_to_free ledger)
                (U128.saturating_sub totals.1 totals.2)) ledger))
    | inr _ => mret ledger
    end;
  modify (put_pool_ledger ledger);;
  modify (put_phase LedgerUpdated).

Definition amount_to_bond (p : Params) (ledger : PoolLedger) : Balance :=
  let bond_rate := U128.saturating_sub (free_pool_ratio ledger) (target_max_free_unbonded_ratio p) in
  Z.min (saturating_mul_int bond_rate (total_belong_to_liquid_holders ledger)) (pl_free_pool ledger).
Definition amount_to_unbond_to_free (p : Params) (ledger : PoolLedger) : Balance :=
  let unbond_to_free_rate :=
    Z.min (U128.saturating_sub (target_unbonding_to_free_ratio p) (unbonding_to_free_ratio ledger))
      (unbonding_to_free_adjustment p) in
  Z.min (saturating_mul_int unbond_to_free_rate (total_belong_to_liquid_holders ledger))
    (bonded_belong_to_liquid_holders ledger).

Definition bond_from_free (amount_to_bond : Balance) (ledger : PoolLedger) : PM PoolLedger :=
  if negb (amount_to_bond =? 0) then
    transferred ← attempt (transfer_to_bridge pool_account_id amount_to_bond);
    let ledger := match transferred with
      | inl _ => set_free_pool (U128.saturating_sub (pl_free_pool ledger) amount_to_bond) ledger
      | inr _ => ledger
      end in
    bonded ← attempt (sp_bond_extra amount_to_bond);
    mret match bonded with
      | inl _ => set_bonded (U128.saturating_add (pl_bonded ledger) amount_to_bond) ledger
      | inr _ => ledger
      end
  else mret ledger.

Definition unbond_next_era (total_unbond claimed_unbond : Balance) (ledger : PoolLedger) : PM PoolLedger :=
  if negb (total_unbond =? 0) then
    unbonded ← attempt (sp_unbond total_unbond);
    match unbonded with
    | inl _ =>
        current_era ← gets CurrentEra;
        let expired_era_index := Z.min (current_era + BondingDuration) U32_MAX in
        modify (set_unbonding <[expired_era_index := (total_unbond, claimed_unbond, claimed_unbond)]>);;
        drained ← gets (fun s => storage_order (map_to_list (NextEraUnbonds s)));
        modify (set_next_era_unbonds (fun _ => ∅));;
        for_each (fun wc => modify (set_unbondings <[(wc.1, expired_era_index) := wc.2]>)) drained;;
        mret (set_to_unbond (0, 0)
               (set_unbonding_to_free (U128.saturating_add (pl_unbonding_to_free ledger)
                  (U128.saturating_sub total_unbond claimed_unbond))
               (set_bonded (U128.saturating_sub (pl_bonded ledger) total_unbond) ledger)))
    | inr _ => mret ledger
    end
  else mret ledger.

Definition rebalance_ledger_updated : PM unit :=
  ledger ← gets StakingPoolLedger;
  staking_pool_params ← gets StakingPoolParams;
  let '(total_unbond, claimed_unbond) := pl_to_unbond_next_era ledger in
  let to_bond := amount_to_bond staking_pool_params ledger in
  let total_unbond :=
    U128.saturating_add total_unbond (amount_to_unbond_to_free staking_pool_params ledger) in
  ledger ← bond_from_free to_bond ledger;
  ledger ← unbond_next_era total_unbond claimed_unbond ledger;
  modify (put_pool_ledger ledger);;
  modify (put_phase Finished).

Definition sp_rebalance (nominees : list N) : PM unit :=
  phase ← gets RebalancePhase;
  match phase with
  | Started => rebalance_started nominees
  | RelaychainUpdated => rebalance_relaychain_updated
  | LedgerUpdated => rebalance_ledger_updated
  | Finished => mret tt
  end.

Definition sp_on_initialize (nominees : list N) : PM unit := sp_rebalance nominees.
Definition sp_on_new_era (new_era : EraIndex) : PM unit :=
  modify (put_current_era new_era);;
  modify (put_phase Started).

Definition sp_genesis_build (staking_pool_params : Params) (s : PoolSt) : PoolSt := put_params staking_pool_params s.

Definition new_or {A} (change : Change A) (old : A) : A :=
  match change with NewValue v => v | NoChange => old end.
Definition set_staking_pool_params (origin : Origin) (max min to_free : Change Ratio)
    (adjustment fee : Change Rate) : PM unit := transactional (
  ensure (PoolUpdateOrigin origin) BadOrigin;;
  params ← gets StakingPoolParams;
  let params := mkParams (new_or max (target_max_free_unbonded_ratio params))
    (new_or min (target_min_free_unbonded_ratio params))
    (new_or to_free (target_unbonding_to_free_ratio params))
    (new_or adjustment (unbonding_to_free_adjustment params)) (new_or fee (base_fee_rate params)) in
  ensure (target_min_free_unbonded_ratio params <=? target_max_free_unbonded_ratio params)
    (PoolE StakingPoolError.InvalidConfig);;
  modify (put_params params)).

(** ** [HomaProtocol] *)
Definition sp_mint (who : AccountId) (amount : Balance) : PM Balance := transactional (
  if amount =? 0 then mret 0 else
  phase ← gets RebalancePhase;
  ensure (bool_decide (phase = Finished)) (PoolE StakingPoolError.RebalanceUnfinished);;
  ledger ← gets StakingPoolLedger;
  exchange_rate ← gets pool_liquid_exchange_rate;
  liquid_amount_to_issue ← ok_or (checked_mul_int (default 0 (sp_reciprocal exchange_rate)) amount)
    ArithmeticOverflow;
  on_currencies (cur_transfer GetStakingCurrencyId who pool_account_id amount);;
  on_currencies (cur_deposit GetLiquidCurrencyId who liquid_amount_to_issue);;
  pool_event (MintLiquid who amount liquid_amount_to_issue);;
  modify (put_pool_ledger (set_free_pool (U128.saturating_add (pl_free_pool ledger) amount) ledger));;
  mret liquid_amount_to_issue).

Definition sp_redeem_by_unbond (who : AccountId) (amount : Balance) : PM unit := transactional (
  if amount =? 0 then mret tt else
  phase ← gets RebalancePhase;
  ensure (bool_decide (phase = Finished)) (PoolE StakingPoolError.RebalanceUnfinished);;
  ledger ← gets StakingPoolLedger;
  liquid_exchange_rate ← gets pool_liquid_exchange_rate;
  staking_amount_to_unbond ← ok_or (checked_mul_int liquid_exchange_rate amount) ArithmeticOverflow;
  let communal_bonded_staking_amount := bonded_belong_to_liquid_holders ledger in
  if negb (staking_amount_to_unbond =? 0) && negb (communal_bonded_staking_amount =? 0) then
    let '(liquid_amount_to_burn, staking_amount_to_unbond) :=
      if communal_bonded_staking_amount <? staking_amount_to_unbond
      then (saturating_mul_int (default 0 (sp_reciprocal liquid_exchange_rate)) communal_bonded_staking_amount,
            communal_bonded_staking_amount)
      else (amount, staking_amount_to_unbond) in
    on_currencies (cur_withdraw GetLiquidCurrencyId who liquid_amount_to_burn);;
    modify (fun s => set_next_era_unbonds
      <[who := U128.saturating_add (default 0 (NextEraUnbonds s !! who)) staking_amount_to_unbond]> s);;
    let '(total_unbond, claimed_unbond) := pl_to_unbond_next_era ledger in
    pool_event (RedeemByUnbond who liquid_amount_to_burn staking_amount_to_unbond);;
    modify (put_pool_ledger (set_to_unbond
      (U128.saturating_add total_unbond staking_amount_to_unbond,
       U128.saturating_add claimed_unbond staking_amount_to_unbond) ledger))
  else mret tt).

(** How much of what is available is left, between the two target ratios *)
Definition remain_available_percent (p : Params) (current_ratio : Ratio) : Ratio :=
  default 0 (fx_checked_div
    (U128.saturating_sub current_ratio (target_min_free_unbonded_ratio p))
    (U128.saturating_sub (Z.max (target_max_free_unbonded_ratio p) current_ratio)
       (target_min_free_unbonded_ratio p))).

(** The demand, and the liquid currency burned for it, cut down to [available] *)
Definition limit_demand (liquid demand available : Balance) : PM (Balance * Balance) :=
  if available <? demand then
    ratio ← expect (checked_from_rational available demand);
    mret (saturating_mul_int ratio liquid, available)
  else mret (liquid, demand).

Definition sp_redeem_by_free_unbonded (who : AccountId) (amount : Balance) : PM unit := transactional (
  if amount =? 0 then mret tt else
  phase ← gets RebalancePhase;
  ensure (bool_decide (phase = Finished)) (PoolE StakingPoolError.RebalanceUnfinished);;
  ledger ← gets StakingPoolLedger;
  liquid_exchange_rate ← gets pool_liquid_exchange_rate;
  demand_staking_amount ← ok_or (checked_mul_int liquid_exchange_rate amount) ArithmeticOverflow;
  staking_pool_params ← gets StakingPoolParams;
  let available_free_pool := U128.saturating_sub (pl_free_pool ledger)
    (saturating_mul_int (target_min_free_unbonded_ratio staking_pool_params)
       (total_belong_to_liquid_holders ledger)) in
  if negb (demand_staking_amount =? 0) && negb (available_free_pool =? 0) then
    demand ← limit_demand amount demand_staking_amount available_free_pool;
    let '(liquid_amount_to_burn, demand_staking_amount) := demand in
    fee_in_staking ← ok_or (get_fee (remain_available_percent staking_pool_params (free_pool_ratio ledger))
      available_free_pool demand_staking_amount (base_fee_rate staking_pool_params))
      (PoolE StakingPoolError.GetFeeFailed);
    let staking_amount_to_retrieve := U128.saturating_sub demand_staking_amount fee_in_staking in
    on_currencies (cur_withdraw GetLiquidCurrencyId who liquid_amount_to_burn);;
    on_currencies (cur_transfer GetStakingCurrencyId pool_account_id who staking_amount_to_retrieve);;
    pool_event (RedeemByFreeUnbonded who liquid_amount_to_burn staking_amount_to_retrieve fee_in_staking);;
    modify (put_pool_ledger
      (set_free_pool (U128.saturating_sub (pl_free_pool ledger) staking_amount_to_retrieve) ledger))
  else mret tt).

Definition sp_redeem_by_claim_unbonding (who : AccountId) (amount : Balance) (target_era : EraIndex) :
    PM unit := transactional (
  if amount =? 0 then mret tt else
  phase ← gets RebalancePhase;
  ensure (bool_decide (phase = Finished)) (PoolE StakingPoolError.RebalanceUnfinished);;
  current_era ← gets CurrentEra;
  ensure ((current_era <? target_era) && (target_era <=? u32_wrapping_add current_era BondingDuration))
    (PoolE StakingPoolError.InvalidEra);;
  ledger ← gets StakingPoolLedger;
  liquid_exchange_rate ← gets pool_liquid_exchange_rate;
  demand_staking_amount ← ok_or (checked_mul_int liquid_exchange_rate amount) ArithmeticOverflow;
  target ← gets (sp_unbonding target_era);
  let '(unbonding, claimed_unbonding, initial_claimed_unbonding) := target in
  let initial_unclaimed := U128.saturating_sub unbonding initial_claimed_unbonding in
  let unclaimed := U128.saturating_sub unbonding claimed_unbonding in
  staking_pool_params ← gets StakingPoolParams;
  let available_unclaimed_unbonding := U128.saturating_sub unclaimed
    (saturating_mul_int (target_min_free_unbonded_ratio staking_pool_params) initial_unclaimed) in
  if negb (demand_staking_amount =? 0) && negb (available_unclaimed_unbonding =? 0) then
    demand ← limit_demand amount demand_staking_amount available_unclaimed_unbonding;
    let '(liquid_amount_to_burn, demand_staking_amount) := demand in
    current_unclaimed_ratio ← expect (checked_from_rational unclaimed initial_unclaimed);
    fee_in_staking ← ok_or (get_fee (remain_available_percent staking_pool_params current_unclaimed_ratio)
      available_unclaimed_unbonding demand_staking_amount (base_fee_rate staking_pool_params))
      (PoolE StakingPoolError.GetFeeFailed);
    let staking_amount_to_claim := U128.saturating_sub demand_staking_amount fee_in_staking in
    on_currencies (cur_withdraw GetLiquidCurrencyId who liquid_amount_to_burn);;
    modify (fun s => set_unbondings <[(who, target_era) :=
      U128.saturating_add (default 0 (Unbondings s !! (who, target_era))) staking_amount_to_claim]> s);;
    modify (fun s => set_unbonding <[target_era :=
      let '(u, claimed, i) := sp_unbonding target_era s in
      (u, U128.saturating_add claimed staking_amount_to_claim, i)]> s);;
    pool_event (RedeemByClaimUnbonding who target_era liquid_amount_to_burn staking_amount_to_claim fee_in_staking);;
    modify (put_pool_ledger (set_unbonding_to_free
      (U128.saturating_sub (pl_unbonding_to_free ledger) staking_amount_to_claim) ledger))
  else mret tt).

Fixpoint withdraw_loop (who : AccountId) (l : list (EraIndex * Balance)) (withdrawn_amount : Balance) : PM Balance :=
  match l with
  | [] => mret withdrawn_amount
  | (expired_era_index, unbonded) :: l =>
      modify (set_unbondings (delete (who, expired_era_index)));;
      withdraw_loop who l (U128.saturating_add withdrawn_amount unbonded)
  end.
Definition sp_withdraw_redemption (who : AccountId) : PM Balance := transactional (
  due ← gets (due_unbondings who);
  withdrawn_amount ← withdraw_loop who due 0;
  on_currencies (cur_transfer GetStakingCurrencyId pool_account_id who withdrawn_amount);;
  mret withdrawn_amount).
End Pallet.
Arguments PoolSt {_ _}.

(** ** Homa

    The interface of the pool, and the pallet that offers it to users *)
Class HomaProtocol (S : Type) := {
  homa_mint : AccountId -> Balance -> M DispatchError S Balance;
  homa_redeem_by_unbond : AccountId -> Balance -> M DispatchError S unit;
  homa_redeem_by_free_unbonded : AccountId -> Balance -> M DispatchError S unit;
  homa_redeem_by_claim_unbonding : AccountId -> Balance -> EraIndex -> M DispatchError S unit;
  homa_withdraw_redemption : AccountId -> M DispatchError S Balance }.
#[export] Instance staking_pool_homa `{PoolConfig} : HomaProtocol PoolSt := {
  homa_mint := sp_mint;
  homa_redeem_by_unbond := sp_redeem_by_unbond;
  homa_redeem_by_free_unbonded := sp_redeem_by_free_unbonded;
  homa_redeem_by_claim_unbonding := sp_redeem_by_claim_unbonding;
  homa_withdraw_redemption := sp_withdraw_redemption }.

Inductive RedeemStrategy := Immediately | Target (era : EraIndex) | WaitForUnbonding.

Section Homa.
Context {S : Type} `{HomaProtocol S}.
Definition homa_ensure_signed (origin : Origin) : M DispatchError S AccountId :=
  match origin with Signed who => mret who | _ => throw BadOrigin end.

Definition mint (origin : Origin) (amount : Balance) : M DispatchError S unit := transactional (
  who ← homa_ensure_signed origin;
  homa_mint who amount;;
  mret tt).
Definition redeem (origin : Origin) (amount : Balance) (strategy : RedeemStrategy) : M DispatchError S unit :=
  transactional (
    who ← homa_ensure_signed origin;
    match strategy with
    | Immediately => homa_redeem_by_free_unbonded who amount
    | Target target_era => homa_redeem_by_claim_unbonding who amount target_era
    | WaitForUnbonding => homa_redeem_by_unbond who amount
    end).
Definition withdraw_redemption (origin : Origin) : M DispatchError S unit := transactional (
  who ← homa_ensure_signed origin;
  homa_withdraw_redemption who;;
  mret tt).
End Homa.
