(* ===== verification/StakingSpecs.v ===== *)
(** * What the staking pool promises

    The books of the pool: every redemption that waits is recorded once under
    its account and once under its era, and the staking currency that the
    account of the pool holds covers the free pool and the redemptions that came
    back from the relay chain - as long as the relay chain returns what was
    unbonded for redemptions. *)
From stdpp Require Import relations.
From S2P Require Import Prelude FixedPoint Primitives Runtime Support PolkadotBridge StakingPool.

(** ** What the pool relies on *)
Class PoolLaws `{PoolConfig} := {
  pool_config_laws :: ConfigLaws;
  pool_bridge_laws :: BridgeLaws;
  fee_u128 p a d r fee : is_u128 p -> is_u128 a -> is_u128 d -> get_fee p a d r = Some fee -> is_u128 fee;
  reciprocal_u128 r q : sp_reciprocal r = Some q -> is_u128 q;
  default_rate_u128 : is_u128 DefaultExchangeRate;
  storage_order_permutation A (l : list A) : storage_order l ≡ₚ l }.

Section Specs.
Context `{PL : PoolLaws}.
Implicit Types (s t : PoolSt) (l : PoolLedger) (who : AccountId) (e : EraIndex) (n : Balance).

(** ** The books *)
Definition pool_balance s : Balance := cur_free_balance (sp_ledger s) GetStakingCurrencyId pool_account_id.
(** All redemptions recorded by account, and those of one era *)
Definition redemptions s : Z := value_sum (Unbondings s).
Definition in_era e (k : AccountId * EraIndex) n : Z := if decide (k.2 = e) then n else 0.
Definition redemptions_of e s : Z := map_sum (in_era e) (Unbondings s).
(** What the records of eras have set aside for redemptions *)
Abbreviation claimed r := (snd (fst r)).
Definition set_aside s : Z := map_sum (fun (_ : EraIndex) (r : Balance * Balance * Balance) => claimed r) (Unbonding s).
Definition expired (current : EraIndex) e (r : Balance * Balance * Balance) : Z :=
  if e <=? current then claimed r else 0.
Definition expired_claims s : Z := map_sum (expired (CurrentEra s)) (Unbonding s).
(** The last era a record can be for *)
Definition horizon s : EraIndex :=
  CurrentEra s + BondingDuration - if decide (RebalancePhase s = Finished) then 0 else 1.

Record ledger_typed l : Prop := {
  lt_bonded : is_u128 (pl_bonded l);
  lt_unbonding : is_u128 (pl_unbonding_to_free l);
  lt_free : is_u128 (pl_free_pool l);
  lt_next : 0 <= (pl_to_unbond_next_era l).2 <= (pl_to_unbond_next_era l).1 /\
    (pl_to_unbond_next_era l).1 <= U128_MAX }.
Record params_ok (p : Params) : Prop := {
  po_max : is_u128 (target_max_free_unbonded_ratio p);
  po_min : is_u128 (target_min_free_unbonded_ratio p);
  po_to_free : is_u128 (target_unbonding_to_free_ratio p);
  po_adjustment : is_u128 (unbonding_to_free_adjustment p) }.
Definition record_ok (r : Balance * Balance * Balance) : Prop :=
  0 <= r.2 <= claimed r /\ claimed r <= fst (fst r) /\ fst (fst r) <= U128_MAX.

Record pool_inv s : Prop := {
  pi_bridge : bridge_ok (sp_bridge s);
  pi_ledger : ledger_typed (StakingPoolLedger s);
  pi_params : params_ok (StakingPoolParams s);
  pi_era : 0 <= CurrentEra s /\ CurrentEra s + BondingDuration <= U32_MAX;
  pi_record e r : Unbonding s !! e = Some r -> record_ok r;
  pi_next who n : NextEraUnbonds s !! who = Some n -> 0 <= n;
  pi_unbondings k n : Unbondings s !! k = Some n -> 0 <= n;
  (* what waits for the next era, and for each era to come *)
  pi_next_sum : value_sum (NextEraUnbonds s) = (pl_to_unbond_next_era (StakingPoolLedger s)).2;
  pi_era_sum e : CurrentEra s < e -> claimed (sp_unbonding e s) = redemptions_of e s;
  pi_horizon e : is_Some (Unbonding s !! e) -> e <= horizon s;
  pi_horizon_of who e : is_Some (Unbondings s !! (who, e)) -> e <= horizon s;
  pi_solvent : pl_free_pool (StakingPoolLedger s) + redemptions s - set_aside s <= pool_balance s }.

(** ** Calls of currencies and the bridge leave the storage alone *)
Record outside_only s t : Prop := {
  oo_era : CurrentEra t = CurrentEra s;
  oo_next : NextEraUnbonds t = NextEraUnbonds s;
  oo_unbonding : Unbonding t = Unbonding s;
  oo_unbondings : Unbondings t = Unbondings s;
  oo_ledger : StakingPoolLedger t = StakingPoolLedger s;
  oo_phase : RebalancePhase t = RebalancePhase s;
  oo_params : StakingPoolParams t = StakingPoolParams s }.
Lemma outside_refl s : outside_only s s.
Proof. done. Qed.
Lemma outside_trans s t (u : PoolSt) : outside_only s t -> outside_only t u -> outside_only s u.
Proof. intros [] []. split; congruence. Qed.

(** [moves s t d]: the storage is as it was, and the balance of the pool rose by [d]. *)
Record moves s t (d : Z) : Prop := {
  mv_only : outside_only s t;
  mv_bridge : bridge_ok (sp_bridge s) -> bridge_ok (sp_bridge t);
  mv_balance : pool_balance t = pool_balance s + d }.
Lemma moves_refl s : moves s s 0.
Proof. split; [done..|lia]. Qed.
Lemma moves_trans s t (u : PoolSt) d d' : moves s t d -> moves t u d' -> moves s u (d + d').
Proof. intros [A1 A2 A3] [B1 B2 B3]. split; [by eapply outside_trans|auto|lia]. Qed.
Lemma moves_eq s t d d' : moves s t d -> d = d' -> moves s t d'.
Proof. by intros ? <-. Qed.
Lemma moves_inv s t d : moves s t d -> 0 <= d -> pool_inv s -> pool_inv t.
Proof.
  intros [[E1 E2 E3 E4 E5 E6 E7] Hbr Hb] Hd [I0 I1 I2 I3 I4 I5 I6 I7 I8 I9 I10 I11].
  split; unfold sp_unbonding, horizon, redemptions, redemptions_of, set_aside in *;
    rewrite ?E1, ?E2, ?E3, ?E4, ?E5, ?E6, ?E7; auto. lia.
Qed.

Lemma wp_outside m s d : bridge_ok (sp_bridge s) -> pays_or_fails bridge_ok pool_account_id d m ->
  wp (outside m) (fun _ t => moves s t d) (fun _ t => moves s t 0) s.
Proof.
  intros Hb Hm. specialize (Hm (sp_ledger s, sp_bridge s) Hb). unfold wp, outside in *.
  destruct (m _) as [[[]|err|] [l' b']]; cbn; [| |done]; destruct Hm as [Hok Hd];
    (split; [done|done|]); unfold pool_balance; cbn in *; by rewrite Hd, delta_eq.
Qed.
Lemma wp_on_currencies f s d :
  (forall x, f (sp_ledger s) = inl x ->
     cur_free_balance x GetStakingCurrencyId pool_account_id = pool_balance s + d) ->
  wp (on_currencies f) (fun _ t => moves s t d) (fun _ t => moves s t 0) s.
Proof.
  intros Hf. unfold wp, on_currencies, outside. cbn. destruct (f (sp_ledger s)) as [x|] eqn:E; cbn.
  - split; [done|done|]. by apply Hf.
  - split; [done|done|]. unfold pool_balance. cbn. lia.
Qed.

(** A loop adds up what its calls move; when one fails, those before it remain. *)
Lemma wp_loop {A} (f : A -> M DispatchError PoolSt unit) (d : A -> Z) (xs : list A) s : bridge_ok (sp_bridge s) ->
  (forall x t, x ∈ xs -> bridge_ok (sp_bridge t) ->
     wp (f x) (fun _ u => moves t u (d x)) (fun _ u => moves t u 0) t) ->
  wp (for_each f xs) (fun _ t => moves s t (sum_of d xs))
    (fun _ t => exists k, (k < length xs)%nat /\ moves s t (sum_of d (take k xs))) s.
Proof.
  revert s. induction xs as [|x xs IH]; intros s Hb Hf; cbn [for_each].
  { apply wp_ret, moves_refl. }
  apply wp_bind. eapply wp_mono; [by apply Hf; [left|]| |].
  - intros [] t Ht. eapply wp_mono; [apply IH; [by apply (mv_bridge _ _ _ Ht)|intros; apply Hf; [by right|done]]| |].
    + intros [] u Hu. rewrite sum_of_cons. by eapply moves_trans.
    + intros e u (k & Hk & Hu). exists (S k). split; [cbn; lia|]. cbn [take]. rewrite sum_of_cons.
      by eapply moves_trans.
  - intros e t Ht. exists 0%nat. split; [cbn; lia|]. by apply (moves_eq _ _ _ _ Ht).
Qed.

(** *** Calls of the currencies with the pool on one side or none *)
Definition call_moves (f : Ledger -> Ledger + DispatchError) s d : Prop :=
  wp (on_currencies f) (fun _ t => moves s t d) (fun _ t => moves s t 0) s.
Lemma pay_in_wp who n s : who <> pool_account_id -> is_u128 n -> call_moves (cur_transfer GetStakingCurrencyId who pool_account_id n) s n.
Proof.
  intros Hw Hn. apply wp_on_currencies. intros x Hx. apply transfer_law in Hx as (-> & _); [|done].
  rewrite delta_eq, delta_ne_account by congruence. unfold pool_balance. lia.
Qed.
Lemma pay_out_wp who n s : who <> pool_account_id -> is_u128 n -> call_moves (cur_transfer GetStakingCurrencyId pool_account_id who n) s (- n).
Proof.
  intros Hw Hn. apply wp_on_currencies. intros x Hx. apply transfer_law in Hx as (-> & _); [|done].
  rewrite delta_eq, delta_ne_account by congruence. unfold pool_balance. lia.
Qed.
Lemma issue_wp who n s : who <> pool_account_id -> is_u128 n -> call_moves (cur_deposit GetLiquidCurrencyId who n) s 0.
Proof.
  intros Hw Hn. apply wp_on_currencies. intros x Hx. apply deposit_law in Hx as (-> & _); [|done].
  rewrite delta_ne_account by congruence. unfold pool_balance. lia.
Qed.
Lemma burn_wp who n s : who <> pool_account_id -> is_u128 n -> call_moves (cur_withdraw GetLiquidCurrencyId who n) s 0.
Proof.
  intros Hw Hn. apply wp_on_currencies. intros x Hx. apply withdraw_law in Hx as (-> & _); [|done].
  rewrite delta_ne_account by congruence. unfold pool_balance. lia.
Qed.

(** *** Distribution among the sub accounts *)
Lemma insert_by_permutation {A} le (a : A) xs : insert_by le a xs ≡ₚ a :: xs.
Proof.
  induction xs as [|b xs IH]; [done|]. cbn [insert_by]. destruct (le a b); [done|].
  rewrite IH. apply perm_swap.
Qed.
Lemma sort_by_permutation {A} le (xs : list A) : sort_by le xs ≡ₚ xs.
Proof. induction xs as [|a xs IH]; [done|]. cbn. by rewrite insert_by_permutation, IH. Qed.

Abbreviation amounts_u128 xs := (forall x : SubAccountIndex * Balance, x ∈ xs -> is_u128 x.2).
Lemma distribute_decrement_u128 xs n : is_u128 n -> amounts_u128 xs -> amounts_u128 (distribute_decrement xs n).
Proof.
  revert n. induction xs as [|x xs IH]; intros n Hn Hxs; cbn [distribute_decrement]; [done|].
  pose proof (Hxs x ltac:(left)). destruct (n =? 0); [intros ? []%elem_of_nil|].
  intros y [-> |Hy]%elem_of_cons; [cbn; uarith|].
  apply IH in Hy; [done|uarith|intros; apply Hxs; by right].
Qed.
(** A decrement is distributed entirely when the amounts suffice. *)
Lemma distribute_decrement_sum xs n : is_u128 n -> amounts_u128 xs ->
  sum_of snd (distribute_decrement xs n) = Z.min n (sum_of snd xs).
Proof.
  revert n. induction xs as [|x xs IH]; intros n Hn Hxs; cbn [distribute_decrement]; [rewrite !sum_of_nil; uarith|].
  assert (Htl : amounts_u128 xs) by (intros; apply Hxs; by right).
  assert (0 <= sum_of snd xs) by (apply sum_of_nonneg; intros y Hy; by apply Htl in Hy as []).
  pose proof (Hxs x ltac:(left)). rewrite sum_of_cons.
  destruct (Z.eqb_spec n 0); [rewrite !sum_of_nil; uarith|]. rewrite sum_of_cons, IH by (done || uarith). cbn [snd]. uarith.
Qed.

Lemma with_free_amounts le s : bridge_ok (sp_bridge s) -> amounts_u128 (map with_free (sort_by le (sub_accounts s))).
Proof.
  intros Hb x (y & -> & Hy)%list_elem_of_fmap. rewrite sort_by_permutation in Hy.
  apply list_elem_of_fmap in Hy as (i & -> & _). by apply bridge_free_u128.
Qed.
Lemma with_active_amounts le s : bridge_ok (sp_bridge s) -> amounts_u128 (map with_active (sort_by le (sub_accounts s))).
Proof.
  intros Hb x (y & -> & Hy)%list_elem_of_fmap. rewrite sort_by_permutation in Hy.
  apply list_elem_of_fmap in Hy as (i & -> & _). by apply active_u128.
Qed.

(** *** The pool's use of the bridge

    Bonding, unbonding and the calls at the start of an era move no funds; what
    comes from the bridge is all that is asked for, unless the bridge fails. *)
Abbreviation stays m := (forall s, bridge_ok (sp_bridge s) ->
  wp m (fun _ t => moves s t 0) (fun _ t => moves s t 0) s).
Lemma stays_loop {A} (f : A -> M DispatchError (Ledger * BridgeSt) unit) xs s : bridge_ok (sp_bridge s) ->
  (forall x, x ∈ xs -> pays_or_fails bridge_ok pool_account_id 0 (f x)) ->
  wp (for_each (fun x => outside (f x)) xs) (fun _ t => moves s t 0) (fun _ t => moves s t 0) s.
Proof.
  intros Hb Hf. eapply wp_mono; [apply (wp_loop _ (fun _ => 0)); [done|]| |].
  - intros x t Hx Ht. apply wp_outside; auto.
  - intros [] t Ht. apply (moves_eq _ _ _ _ Ht). by apply sum_of_zero.
  - intros e t (k & _ & Ht). apply (moves_eq _ _ _ _ Ht). by apply sum_of_zero.
Qed.
Lemma bond_extra_wp n s : is_u128 n -> bridge_ok (sp_bridge s) ->
  wp (sp_bond_extra n) (fun _ t => moves s t 0) (fun _ t => moves s t 0) s.
Proof.
  intros Hn Hb. unfold sp_bond_extra. destruct (n =? 0); [apply wp_ret, moves_refl|].
  apply wp_bind, wp_gets. apply stays_loop; [done|]. intros x Hx%distribute_decrement_u128;
    [by apply bond_extra_law|done|by apply with_free_amounts].
Qed.
Lemma unbond_wp n s : is_u128 n -> bridge_ok (sp_bridge s) ->
  wp (sp_unbond n) (fun _ t => moves s t 0) (fun _ t => moves s t 0) s.
Proof.
  intros Hn Hb. unfold sp_unbond. destruct (n =? 0); [apply wp_ret, moves_refl|].
  apply wp_bind, wp_gets. apply stays_loop; [done|]. intros x Hx%distribute_decrement_u128;
    [by apply unbond_law|done|by apply with_active_amounts].
Qed.
Lemma era_start_loop {A} (f : A -> M DispatchError (Ledger * BridgeSt) unit) (xs : list A) s :
  bridge_ok (sp_bridge s) -> (forall x, pays_nobody bridge_ok pool_account_id (f x)) ->
  wp (for_each (fun x => outside (f x)) xs) (fun _ t => moves s t 0) (fun _ _ => False) s.
Proof.
  intros Hb Hf. apply (wp_for_each _ xs (fun t => moves s t 0)); [apply moves_refl|].
  intros x t _ Ht. pose proof (Hf x (sp_ledger t, sp_bridge t) (mv_bridge _ _ _ Ht Hb)) as Hx.
  unfold wp, outside in *. destruct (f x _) as [[[]|err|] [l' b']]; cbn; [|done|done]. destruct Hx as [Hok Hd].
  apply (moves_eq _ _ (0 + 0)); [|lia]. apply (moves_trans _ _ _ _ _ Ht). split; [done|done|].
  unfold pool_balance. cbn in *. by rewrite Hd, delta_eq.
Qed.
Lemma relaychain_free_eq s : bridge_ok (sp_bridge s) ->
  relaychain_free_balance s = Z.min U128_MAX (sum_of (pb_free_balance (sp_bridge s)) PoolAccountIndexes).
Proof.
  intros Hb. unfold relaychain_free_balance. rewrite foldl_saturating_add; [done|uarith|].
  intros i _. by apply bridge_free_u128.
Qed.
Lemma relaychain_free_u128 s : bridge_ok (sp_bridge s) -> is_u128 (relaychain_free_balance s).
Proof.
  intros Hb. rewrite relaychain_free_eq by done.
  assert (0 <= sum_of (pb_free_balance (sp_bridge s)) PoolAccountIndexes) by
    (apply sum_of_nonneg; intros; by apply bridge_free_u128). uarith.
Qed.
Lemma sum_with_free le s :
  sum_of snd (map with_free (sort_by le (sub_accounts s))) = sum_of (pb_free_balance (sp_bridge s)) PoolAccountIndexes.
Proof.
  transitivity (sum_of (fun x : Balance * SubAccountIndex * Balance => x.2) (sort_by le (sub_accounts s))).
  - unfold sum_of. induction (sort_by le (sub_accounts s)) as [|x xs IH]; [done|]. cbn. by rewrite IH.
  - rewrite (sum_of_permutation _ _ _ (sort_by_permutation le _)). unfold sub_accounts, sum_of.
    induction PoolAccountIndexes as [|i xs IH]; [done|]. cbn. by rewrite IH.
Qed.
Lemma receive_all_wp s : bridge_ok (sp_bridge s) ->
  wp (receive_from_bridge pool_account_id (relaychain_free_balance s))
    (fun _ t => moves s t (relaychain_free_balance s)) (fun _ t => exists d, 0 <= d /\ moves s t d) s.
Proof.
  intros Hb. pose proof (relaychain_free_u128 s Hb) as Hn. unfold receive_from_bridge.
  destruct (Z.eqb_spec (relaychain_free_balance s) 0) as [->|_]; [apply wp_ret, moves_refl|].
  apply wp_bind, wp_gets. set (xs := distribute_decrement _ _).
  assert (Hxs : amounts_u128 xs) by (apply distribute_decrement_u128; [done|by apply with_free_amounts]).
  eapply wp_mono; [apply (wp_loop _ snd); [done|]| |].
  - intros x t Hx Ht. apply wp_outside; [done|]. by apply receive_from_bridge_law, Hxs.
  - intros [] t Ht. apply (moves_eq _ _ _ _ Ht). unfold xs.
    rewrite distribute_decrement_sum, sum_with_free, relaychain_free_eq by (done || by apply with_free_amounts). lia.
  - intros e t (k & _ & Ht). eexists. split; [|exact Ht]. apply sum_of_nonneg.
    intros x Hx. apply (subseteq_take k xs x) in Hx. by apply Hxs in Hx as [].
Qed.
Lemma transfer_to_bridge_wp n s : is_u128 n -> bridge_ok (sp_bridge s) ->
  wp (transfer_to_bridge pool_account_id n) (fun _ t => exists d, - n <= d /\ moves s t d)
    (fun _ t => moves s t 0) s.
Proof.
  intros Hn Hb. unfold transfer_to_bridge. destruct (n =? 0).
  { apply wp_ret. exists 0. split; [uarith|apply moves_refl]. }
  apply wp_bind, wp_gets. unfold distribute_increment. destruct (map _ _) as [|x xs]; cbn [for_each].
  { apply wp_ret. exists 0. split; [uarith|apply moves_refl]. }
  apply wp_bind. eapply wp_mono; [apply wp_outside; [done|by apply transfer_to_bridge_law]| |done].
  intros [] t Ht. apply wp_ret. exists (- n). split; [lia|done].
Qed.

(** *** Records of eras that expired *)
Lemma map_sum_plus {K V} `{Countable K} (f g : K -> V -> Z) (m : gmap K V) :
  map_sum (fun k v => f k v + g k v) m = map_sum f m + map_sum g m.
Proof.
  induction m as [|k v m Hk IH] using map_ind; [by rewrite !map_sum_empty|].
  rewrite !map_sum_insert_None by done. lia.
Qed.
Lemma map_sum_filter {K V} `{Countable K} (P : K * V -> Prop) `{forall x, Decision (P x)}
    (f : K -> V -> Z) (m : gmap K V) :
  map_sum f (filter P m) = map_sum (fun k v => if decide (P (k, v)) then f k v else 0) m.
Proof.
  induction m as [|k v m Hk IH] using map_ind; [by rewrite map_filter_empty, !map_sum_empty|].
  rewrite (map_sum_insert_None _ m) by done. case_decide as Hp.
  - rewrite map_filter_insert_True, map_sum_insert_None by (done || by apply map_lookup_filter_None; left). lia.
  - rewrite map_filter_insert_not' by (done || (intros ? Hs; congruence)). lia.
Qed.

Definition kept (current : EraIndex) (m : gmap EraIndex (Balance * Balance * Balance)) :=
  filter (fun kv => current < kv.1) m.
Lemma kept_sum current s :
  map_sum (fun _ r => claimed r) (kept current (Unbonding s)) = set_aside s - map_sum (expired current) (Unbonding s).
Proof.
  unfold kept. rewrite map_sum_filter. unfold set_aside.
  enough (map_sum (fun _ r => claimed r) (Unbonding s) =
    map_sum (fun e r => (if decide (current < (e, r).1) then claimed r else 0) + expired current e r) (Unbonding s)) as ->.
  { rewrite map_sum_plus. lia. }
  apply map_sum_ext. intros e r _. unfold expired. cbn. case_decide; destruct (Z.leb_spec e current); lia.
Qed.
Lemma kept_lookup current m e : kept current m !! e = if decide (current < e) then m !! e else None.
Proof.
  unfold kept. destruct (m !! e) as [r|] eqn:E; case_decide.
  - by apply map_lookup_filter_Some.
  - apply map_lookup_filter_None. right. intros r' _. cbn. lia.
  - by apply map_lookup_filter_None; left.
  - by apply map_lookup_filter_None; left.
Qed.

Definition drop_expired (current : EraIndex) (xs : list (EraIndex * (Balance * Balance * Balance)))
    (m : gmap EraIndex (Balance * Balance * Balance)) :=
  foldl (fun m kv => if kv.1 <=? current then delete kv.1 m else m) m xs.
Lemma drop_expired_cons current kv xs m :
  drop_expired current (kv :: xs) m = drop_expired current xs (if kv.1 <=? current then delete kv.1 m else m).
Proof. done. Qed.
Lemma drop_expired_lookup current xs m e :
  drop_expired current xs m !! e = if decide (e ∈ xs.*1 /\ e <= current) then None else m !! e.
Proof.
  revert m. induction xs as [|kv xs IH]; intros m.
  { rewrite decide_False; [done|]. intros [[]%elem_of_nil _]. }
  rewrite drop_expired_cons, IH. cbn [fmap list_fmap]. destruct (Z.leb_spec kv.1 current) as [Hle|Hlt].
  - destruct (decide (e = kv.1)) as [-> |Hne].
    + rewrite lookup_delete_eq, (decide_True (P := _ ∈ kv.1 :: _ /\ _)) by (split; [left|done]). by case_decide.
    + rewrite lookup_delete_ne by done. repeat case_decide; rewrite ?elem_of_cons in *; naive_solver.
  - repeat case_decide; rewrite ?elem_of_cons in *; naive_solver lia.
Qed.
Lemma drop_expired_kept current xs m : xs ≡ₚ map_to_list m -> drop_expired current xs m = kept current m.
Proof.
  intros Hxs. apply map_eq. intros e. rewrite drop_expired_lookup, kept_lookup.
  assert (Hmem : e ∈ xs.*1 <-> e ∈ (map_to_list m).*1) by (by rewrite Hxs).
  destruct (m !! e) as [r|] eqn:E; [|by repeat case_decide].
  assert (e ∈ (map_to_list m).*1) by (apply list_elem_of_fmap; exists (e, r); split; [done|by apply elem_of_map_to_list]).
  repeat case_decide; naive_solver lia.
Qed.
Lemma expired_nonneg current xs : (forall kv, kv ∈ xs -> record_ok kv.2) -> 0 <= list_sum (expired current) xs.
Proof.
  induction xs as [|kv xs IH]; intros Hxs; [done|]. rewrite list_sum_cons.
  pose proof (Hxs kv ltac:(left)) as Hr. unfold record_ok in Hr. unfold expired at 1.
  assert (0 <= list_sum (expired current) xs) by (apply IH; intros; apply Hxs; by right).
  destruct (_ <=? _); lia.
Qed.
Lemma expire_loop_run current xs a b s :
  (forall kv, kv ∈ xs -> record_ok kv.2) -> is_u128 a -> is_u128 b ->
  exists a', is_u128 a' /\ expire_loop current xs a b s =
    (Ok (a', Z.min U128_MAX (b + list_sum (expired current) xs)), set_unbonding (drop_expired current xs) s).
Proof.
  revert a b s. induction xs as [|[e [[u c] i]] xs IH]; intros a b s Hxs Ha Hb; cbn [expire_loop].
  { exists a. split; [done|]. unfold mret, M_ret. change (list_sum (expired current) []) with 0.
    rewrite Z.min_r by uarith. rewrite Z.add_0_r. by destruct s. }
  pose proof (Hxs _ ltac:(left)) as Hr. unfold record_ok in Hr. cbn in Hr.
  assert (Htl : forall kv, kv ∈ xs -> record_ok kv.2) by (intros; apply Hxs; by right).
  rewrite list_sum_cons. unfold expired at 1. cbn [fst snd].
  assert (0 <= list_sum (expired current) xs) by (by apply expired_nonneg).
  change (set_unbonding (drop_expired current ((e, (u, c, i)) :: xs)) s) with
    (set_unbonding (fun m => drop_expired current xs (if e <=? current then delete e m else m)) s).
  destruct (e <=? current); [|destruct (IH a b s Htl Ha Hb) as (a' & ? & ->); eauto].
  destruct (IH (U128.saturating_add a u) (U128.saturating_add b c) (set_unbonding (delete e) s)) as (a' & ? & E);
    [done|uarith|uarith|].
  exists a'. split; [done|]. unfold mbind, M_bind, modify. rewrite E. do 3 f_equal. uarith.
Qed.

(** *** Redemptions that start to unbond *)
Lemma sum_of_ext {A} (f g : A -> Z) xs : (forall x, f x = g x) -> sum_of f xs = sum_of g xs.
Proof. intros Hfg. induction xs as [|x xs IH]; [done|]. by rewrite !sum_of_cons, Hfg, IH. Qed.
Lemma in_era_eq e who n : in_era e (who, e) n = n.
Proof. unfold in_era. by rewrite decide_True. Qed.
Definition add_redemptions e (xs : list (AccountId * Balance)) (m : gmap (AccountId * EraIndex) Balance) :=
  foldl (fun m wn => <[(wn.1, e) := wn.2]> m) m xs.
Lemma add_redemptions_run e xs s :
  for_each (E := DispatchError) (fun wn => modify (set_unbondings <[(wn.1, e) := wn.2]>)) xs s =
  (Ok tt, set_unbondings (add_redemptions e xs) s).
Proof.
  revert s. induction xs as [|wn xs IH]; intros s; cbn [for_each]; [by destruct s|].
  unfold mbind, M_bind, modify at 1. by rewrite IH.
Qed.
Lemma add_redemptions_sum f e xs m : NoDup xs.*1 -> (forall who, m !! (who, e) = None) ->
  map_sum f (add_redemptions e xs m) = map_sum f m + sum_of (fun wn => f (wn.1, e) wn.2) xs.
Proof.
  enough (forall m, NoDup xs.*1 -> (forall who, who ∈ xs.*1 -> m !! (who, e) = None) ->
    map_sum f (add_redemptions e xs m) = map_sum f m + sum_of (fun wn => f (wn.1, e) wn.2) xs) by auto.
  clear m. induction xs as [|wn xs IH]; intros m Hd Hm; [cbn; rewrite sum_of_nil; lia|].
  apply NoDup_cons in Hd as [Hx Hd]. rewrite sum_of_cons. cbn [add_redemptions foldl].
  change (foldl _ ?m' xs) with (add_redemptions e xs m'). rewrite IH; [|done|].
  - rewrite map_sum_insert_None by (apply Hm; left). lia.
  - intros who Hwho. rewrite lookup_insert_ne by (intros [= <-]; done). apply Hm. by right.
Qed.
Lemma add_redemptions_lookup e xs m k n : add_redemptions e xs m !! k = Some n ->
  m !! k = Some n \/ k.2 = e /\ (k.1, n) ∈ xs.
Proof.
  revert m. induction xs as [|wn xs IH]; intros m Hk; [by left|]. cbn [add_redemptions foldl] in Hk.
  apply IH in Hk as [Hk|[? ?]]; [|right; split; [done|by right]].
  destruct (decide ((wn.1, e) = k)) as [<-|Hne].
  - rewrite lookup_insert_eq in Hk. injection Hk as <-. right. split; [done|]. destruct wn. left.
  - rewrite lookup_insert_ne in Hk by done. by left.
Qed.

(** *** Phases and eras *)
Lemma put_phase_inv s ph : RebalancePhase s <> Finished \/ ph = Finished -> pool_inv s -> pool_inv (put_phase ph s).
Proof.
  intros Hph [I0 I1 I2 I3 I4 I5 I6 I7 I8 I9 I10 I11].
  split; auto; intros; [apply I9 in H2|apply I10 in H2]; unfold horizon in *; cbn in *;
    repeat case_decide; try lia; destruct Hph; congruence.
Qed.
Lemma new_era_inv s e : CurrentEra s < e -> e + BondingDuration <= U32_MAX -> pool_inv s ->
  pool_inv (put_phase Started (put_current_era e s)).
Proof.
  intros He Hmax [I0 I1 I2 I3 I4 I5 I6 I7 I8 I9 I10 I11].
  split; auto; unfold horizon in *; cbn in *.
  - lia.
  - intros e' ?. apply I8. lia.
  - intros e' H'%I9. repeat case_decide; try done; lia.
  - intros who e' H'%I10. repeat case_decide; try done; lia.
Qed.

Lemma remain_percent_u128 p r : params_ok p -> is_u128 r -> is_u128 (remain_available_percent p r).
Proof.
  intros [P1 P2 P3 P4] Hr. unfold remain_available_percent.
  destruct (fx_checked_div _ _) as [q|] eqn:E; cbn; [|uarith].
  by apply fcd_Some in E as (_ & Hq & _); [|uarith..].
Qed.

(** The ledger that is put back at the end of a phase *)
Lemma put_ledger_inv s l :
  pool_inv s -> ledger_typed l -> pl_to_unbond_next_era l = pl_to_unbond_next_era (StakingPoolLedger s) ->
  pl_free_pool l <= pl_free_pool (StakingPoolLedger s) -> pool_inv (put_pool_ledger l s).
Proof.
  intros [I0 I1 I2 I3 I4 I5 I6 I7 I8 I9 I10 I11] Hl Hto Hfree. split; auto.
  - cbn. by rewrite Hto.
  - cbn. unfold redemptions, set_aside, pool_balance in *. cbn. lia.
Qed.

Lemma rebalance_started_wp nominees s : pool_inv s -> RebalancePhase s = Started ->
  wp (rebalance_started nominees) (fun _ t => pool_inv t) (fun _ _ => False) s.
Proof.
  intros Hs Hph. unfold rebalance_started, sp_nominate, sp_withdraw_unbonded, sp_payout_stakers.
  pose proof (pi_bridge _ Hs) as Hb. apply wp_bind.
  eapply wp_mono; [apply era_start_loop; [done|intros i; apply nominate_law]| |done]. intros [] t Ht.
  apply wp_bind. eapply wp_mono;
    [apply era_start_loop; [by apply (mv_bridge _ _ _ Ht)|intros i; apply withdraw_unbonded_law]| |done].
  intros [] u Hu. apply (moves_trans _ _ _ _ _ Ht) in Hu. apply wp_bind, wp_gets, wp_bind.
  eapply wp_mono; [apply era_start_loop; [by apply (mv_bridge _ _ _ Hu)|intros i; apply payout_law]| |done].
  intros [] v Hv. apply (moves_trans _ _ _ _ _ Hu) in Hv. apply wp_modify. apply put_phase_inv.
  - left. rewrite (oo_phase _ _ (mv_only _ _ _ Hv)). congruence.
  - apply (moves_inv _ _ _ Hv); [lia|done].
Qed.

(** What came back from the relay chain covers the claims that expired. *)
Definition returns_cover s : Prop :=
  RebalancePhase s = RelaychainUpdated -> expired_claims s <= relaychain_free_balance s.

Lemma ledger_received_typed l bonded free unbonding : ledger_typed l -> is_u128 bonded -> is_u128 free -> is_u128 unbonding ->
  ledger_typed (set_free_pool free (set_unbonding_to_free unbonding (set_bonded bonded l))).
Proof. intros [H1' H2' H3' H4'] ???. by split. Qed.

Lemma expire_inv s t n a totals l : pool_inv s -> moves s t n -> RebalancePhase s = RelaychainUpdated ->
  n = relaychain_free_balance s -> expired_claims s <= n -> is_u128 a ->
  totals = Z.min U128_MAX (expired_claims s) -> is_u128 (pl_bonded l) ->
  l = set_bonded (pl_bonded l) (StakingPoolLedger s) ->
  pool_inv (put_phase LedgerUpdated (put_pool_ledger
    (set_free_pool (U128.saturating_add (pl_free_pool l) (U128.saturating_sub n totals))
      (set_unbonding_to_free (U128.saturating_sub (pl_unbonding_to_free l) (U128.saturating_sub a totals)) l))
    (set_unbonding (kept (CurrentEra s)) t))).
Proof.
  intros Hs Ht Hph Hn Hcover Ha Htot Hbond Hl.
  pose proof (relaychain_free_u128 s (pi_bridge _ Hs)) as Hnu. rewrite <- Hn in Hnu.
  pose proof (moves_inv _ _ _ Ht ltac:(destruct Hnu; lia) Hs) as Hinv.
  pose proof (moves_trans _ _ _ _ _ (moves_refl s) Ht) as [[E1 E2 E3 E4 E5 E6 E7] Hbr Hbal].
  assert (Hexp : 0 <= expired_claims s).
  { apply map_sum_nonneg. intros e r Hr. apply (pi_record _ Hs) in Hr. unfold record_ok, expired in *. destruct (_ <=? _); lia. }
  destruct (pi_ledger _ Hs) as [L1 L2 L3 L4]. destruct Hinv as [I0 I1 I2 I3 I4 I5 I6 I7 I8 I9 I10 I11].
  assert (Hlk : forall e r, kept (CurrentEra s) (Unbonding t) !! e = Some r -> Unbonding t !! e = Some r).
  { intros e r. rewrite kept_lookup. by case_decide. }
  rewrite Hl. split; cbn; auto.
  - split; cbn; auto; uarith.
  - intros e r Hr%Hlk. by apply (I4 e).
  - by rewrite I7, E5.
  - intros e He. specialize (I8 e He). unfold sp_unbonding in *. cbn. rewrite kept_lookup, decide_True by lia. done.
  - intros e [r Hr%Hlk]. unfold horizon. cbn. rewrite decide_False by done.
    specialize (I9 e ltac:(by exists r)). unfold horizon in I9. rewrite E6, decide_False in I9 by congruence. done.
  - intros who e Hk. unfold horizon. cbn. rewrite decide_False by done.
    specialize (I10 who e Hk). unfold horizon in I10. rewrite E6, decide_False in I10 by congruence. done.
  - pose proof (pi_solvent _ Hs) as Hsol. unfold redemptions, pool_balance in *. unfold set_aside at 1. cbn.
    rewrite E3, E4, kept_sum. fold (expired_claims s). rewrite Z.min_r in Htot by (unfold is_u128 in *; lia). subst totals.
    unfold U128.saturating_add, U128.saturating_sub. lia.
Qed.

Lemma relaychain_active_u128 s : bridge_ok (sp_bridge s) -> is_u128 (ps_active (relaychain_staking_ledger s)).
Proof.
  intros Hb. unfold relaychain_staking_ledger. cbn [ps_active].
  assert (Hacc : is_u128 (ps_active (mkPolkadotLedger 0 0 []))) by (cbn; uarith). revert Hacc.
  generalize (mkPolkadotLedger 0 0 []). induction PoolAccountIndexes as [|i xs IH]; intros acc Hacc; [done|].
  cbn [foldl]. apply IH. cbn. apply saturating_add_u128; [done|]. by apply active_u128.
Qed.

Lemma rebalance_relaychain_updated_wp s : pool_inv s -> RebalancePhase s = RelaychainUpdated -> returns_cover s ->
  wp rebalance_relaychain_updated (fun _ t => pool_inv t) (fun _ _ => False) s.
Proof.
  intros Hs Hph Hret. specialize (Hret Hph). pose proof (pi_bridge _ Hs) as Hb.
  pose proof (relaychain_active_u128 s Hb) as Hact. unfold rebalance_relaychain_updated.
  do 3 apply wp_bind, wp_gets. set (l := set_bonded _ _). apply wp_bind, wp_attempt.
  eapply wp_mono; [by apply receive_all_wp| |].
  - intros [] t Ht. apply wp_bind. do 2 apply wp_bind, wp_gets. apply wp_bind.
    pose proof (mv_only _ _ _ Ht) as [E1 E2 E3 E4 E5 E6 E7]. rewrite E1, E3.
    pose proof (storage_order_permutation _ (map_to_list (Unbonding s))) as Hperm.
    destruct (expire_loop_run (CurrentEra s) (storage_order (map_to_list (Unbonding s))) 0 0 t) as (a & Ha & Hrun).
    { intros kv Hkv. rewrite Hperm in Hkv. destruct kv as [e r]. apply elem_of_map_to_list in Hkv.
      by apply (pi_record _ Hs) in Hkv. }
    { uarith. } { uarith. }
    unfold wp at 1. rewrite Hrun. apply wp_ret, wp_bind, wp_modify, wp_modify.
    assert (Hset : set_unbonding (drop_expired (CurrentEra s) (storage_order (map_to_list (Unbonding s)))) t =
      set_unbonding (kept (CurrentEra s)) t).
    { unfold set_unbonding. rewrite E3. by rewrite drop_expired_kept. }
    rewrite Hset. apply expire_inv with (s := s) (n := relaychain_free_balance s); auto.
    rewrite (list_sum_permutation _ _ _ Hperm), <- map_sum_list. done.
  - intros e t (d & Hd & Ht). apply wp_bind, wp_ret, wp_bind, wp_modify, wp_modify.
    pose proof (mv_only _ _ _ Ht) as [E1 E2 E3 E4 E5 E6 E7]. apply put_phase_inv.
    { left. cbn. congruence. }
    apply put_ledger_inv; [by apply (moves_inv _ _ _ Ht)| | |]; unfold l; cbn; rewrite ?E5; [|done|done].
    destruct (pi_ledger _ Hs) as [L1 L2 L3 L4]. by split.
Qed.

(** *** Bonding and unbonding *)
Lemma put_ledger_idem l l' s : put_pool_ledger l (put_pool_ledger l' s) = put_pool_ledger l s.
Proof. done. Qed.
Lemma moves_put_ledger s t d l : moves s t d -> moves (put_pool_ledger l s) (put_pool_ledger l t) d.
Proof. intros [[E1 E2 E3 E4 E5 E6 E7] Hb Hd]. split; [by split|done|done]. Qed.

(** The books with a ledger that is still to be put back *)
Definition inv_with l s : Prop := pool_inv (put_pool_ledger l s).
Lemma inv_with_bridge l s : inv_with l s -> bridge_ok (sp_bridge s).
Proof. intros Hs. apply (pi_bridge _ Hs). Qed.
Lemma inv_with_moves l l' s t d : inv_with l s -> moves s t d -> ledger_typed l' ->
  pl_to_unbond_next_era l' = pl_to_unbond_next_era l -> pl_free_pool l' <= pl_free_pool l + d -> inv_with l' t.
Proof.
  intros Hs [[E1 E2 E3 E4 E5 E6 E7] Hbr Hbal] Hl Hto Hfree.
  destruct Hs as [I0 I1 I2 I3 I4 I5 I6 I7 I8 I9 I10 I11].
  split; unfold sp_unbonding, horizon, redemptions, redemptions_of, set_aside, pool_balance in *; cbn in *;
    rewrite ?E1, ?E2, ?E3, ?E4, ?E6, ?E7, ?Hto; auto. lia.
Qed.

Lemma bond_tail_wp n l s : inv_with l s -> is_u128 n ->
  wp (bonded ← attempt (sp_bond_extra n);
      mret match bonded with
        | inl _ => set_bonded (U128.saturating_add (pl_bonded l) n) l
        | inr _ => l
        end)
    (fun l' t => inv_with l' t /\ outside_only s t /\ pl_to_unbond_next_era l' = pl_to_unbond_next_era l)
    (fun _ _ => False) s.
Proof.
  intros Hs Hn. pose proof (pi_ledger _ Hs) as Hl. cbn in Hl. apply wp_bind, wp_attempt.
  eapply wp_mono; [apply bond_extra_wp; [done|by apply (inv_with_bridge _ _ Hs)]| |].
  - intros [] t Ht. apply wp_ret. split_and!; [|apply Ht|done].
    eapply inv_with_moves; [done|done| |done|cbn; lia]. destruct Hl. split; auto. cbn. by apply saturating_add_u128.
  - intros e t Ht. apply wp_ret. split_and!; [|apply Ht|done].
    eapply inv_with_moves; [exact Hs|exact Ht|done|done|lia].
Qed.
Lemma bond_from_free_wp n l s : inv_with l s -> 0 <= n <= pl_free_pool l ->
  wp (bond_from_free n l)
    (fun l' t => inv_with l' t /\ outside_only s t /\ pl_to_unbond_next_era l' = pl_to_unbond_next_era l)
    (fun _ _ => False) s.
Proof.
  intros Hs Hn. pose proof (inv_with_bridge _ _ Hs) as Hb. pose proof (pi_ledger _ Hs) as Hl. cbn in Hl.
  pose proof (lt_free _ Hl).
  assert (Hnu : is_u128 n) by (unfold is_u128 in *; lia).
  unfold bond_from_free. destruct (negb _); [|by apply wp_ret].
  apply wp_bind, wp_attempt.
  eapply (wp_mono _ (fun _ t => exists d, - n <= d /\ moves s t d) _ (fun _ t => moves s t 0));
    [by apply transfer_to_bridge_wp| |].
  - intros [] t (d & Hd & Ht). rewrite saturating_sub_exact by lia.
    eapply wp_mono; [apply bond_tail_wp; [|done]| |done].
    + eapply inv_with_moves; [done|done| |done|cbn; lia]. destruct Hl. split; cbn; auto. unfold is_u128 in *; lia.
    + intros l' u (? & ? & ?). split_and!; [done| |done]. apply (outside_trans _ t); [apply Ht|done].
  - intros e t Ht. eapply wp_mono; [apply bond_tail_wp; [|done]| |done].
    + eapply inv_with_moves; [done|done|done|done|lia].
    + intros l' u (? & ? & ?). split_and!; [done| |done]. apply (outside_trans _ t); [apply Ht|done].
Qed.

(** The redemptions of the next era get a record that sets their sum aside. *)
Lemma start_unbonding_inv n c l s : inv_with l s -> RebalancePhase s = LedgerUpdated ->
  (pl_to_unbond_next_era l).2 = c -> c <= n <= U128_MAX -> is_u128 (pl_unbonding_to_free l) ->
  let e := CurrentEra s + BondingDuration in
  let drained := storage_order (map_to_list (NextEraUnbonds s)) in
  inv_with (set_to_unbond (0, 0)
      (set_unbonding_to_free (U128.saturating_add (pl_unbonding_to_free l) (U128.saturating_sub n c))
        (set_bonded (U128.saturating_sub (pl_bonded l) n) l)))
    (put_phase Finished (set_unbondings (add_redemptions e drained)
      (set_next_era_unbonds (fun _ => ∅) (set_unbonding <[e := (n, c, c)]> s)))).
Proof.
  intros [I0 I1 I2 I3 I4 I5 I6 I7 I8 I9 I10 I11] Hph Hc Hn Hu e drained.
  pose proof (storage_order_permutation _ (map_to_list (NextEraUnbonds s))) as Hperm. fold drained in Hperm.
  unfold horizon in I9, I10. cbn in *. rewrite decide_False in I9 by congruence. setoid_rewrite decide_False in I10; [|congruence].
  assert (Hfresh : Unbonding s !! e = None).
  { apply eq_None_not_Some. intros H'%I9. unfold e in H'. lia. }
  assert (Hfreshes : forall who, Unbondings s !! (who, e) = None).
  { intros who. apply eq_None_not_Some. intros H'%I10. unfold e in H'. lia. }
  assert (Hdup : NoDup drained.*1).
  { rewrite Hperm. apply NoDup_fst_map_to_list. }
  assert (Hdrained : forall wn, wn ∈ drained -> 0 <= wn.2).
  { intros [who m] Hwn. rewrite Hperm in Hwn. apply elem_of_map_to_list in Hwn. by apply (I5 who). }
  assert (Hsum : sum_of (fun wn => wn.2) drained = c).
  { rewrite (sum_of_permutation _ _ _ Hperm), <- Hc, <- I7, map_sum_list. unfold sum_of, list_sum. done. }
  assert (0 <= c) by (rewrite <- Hsum; by apply sum_of_nonneg).
  destruct I1 as [L1 L2 L3 L4]. cbn in *.
  split; unfold sp_unbonding, horizon, redemptions, redemptions_of, set_aside, pool_balance in *; cbn in *; auto.
  - split; cbn; auto; uarith.
  - intros e' r. rewrite lookup_insert_Some. intros [[_ <-]|[_ Hr]]; [unfold record_ok; cbn; lia|by apply (I4 e')].
  - intros who m. by rewrite lookup_empty.
  - intros k m [Hk|[_ Hk]]%add_redemptions_lookup; [by apply (I6 k)|by apply Hdrained in Hk].
  - intros e' He'. rewrite add_redemptions_sum by done. destruct (decide (e' = e)) as [-> |Hne].
    + rewrite lookup_insert_eq. cbn. rewrite <- Hsum.
      rewrite map_sum_zero; [symmetry; apply sum_of_ext; intros wn; apply in_era_eq|].
      intros [who e''] m Hk. unfold in_era. cbn. rewrite decide_False; [done|]. intros ->. by rewrite Hfreshes in Hk.
    + rewrite lookup_insert_ne by done. rewrite I8 by done. rewrite sum_of_zero; [lia|].
      intros wn _. unfold in_era. cbn. by rewrite decide_False.
  - intros e'. rewrite decide_True by done. intros [r Hr]. rewrite lookup_insert_Some in Hr.
    destruct Hr as [[<- _]|[_ Hr]]; [unfold e; lia|]. specialize (I9 e' ltac:(by exists r)). lia.
  - intros who e'. rewrite decide_True by done. intros [m [Hk|[He _]]%add_redemptions_lookup]; [|cbn in He; unfold e in He; lia].
    specialize (I10 who e' ltac:(by exists m)). lia.
  - rewrite add_redemptions_sum, map_sum_insert, Hfresh by done. cbn. lia.
Qed.

Lemma unbond_next_era_wp n c l s : inv_with l s -> RebalancePhase s = LedgerUpdated ->
  (pl_to_unbond_next_era l).2 = c -> c <= n <= U128_MAX ->
  wp (unbond_next_era n c l) (fun l' t => inv_with l' (put_phase Finished t)) (fun _ _ => False) s.
Proof.
  intros Hs Hph Hc Hn. pose proof (pi_ledger _ Hs) as Hl. cbn in Hl. pose proof (lt_next _ Hl).
  assert (Hdone : forall t, moves s t 0 -> inv_with l (put_phase Finished t)).
  { intros t Ht. apply (put_phase_inv (put_pool_ledger l t)); [by right|].
    eapply inv_with_moves; [exact Hs|exact Ht|done|done|lia]. }
  unfold unbond_next_era. destruct (negb _); [|apply wp_ret, Hdone, moves_refl].
  apply wp_bind, wp_attempt.
  eapply wp_mono; [apply unbond_wp; [split; lia|by apply (inv_with_bridge _ _ Hs)]| |].
  - intros [] t Ht. apply wp_bind, wp_gets.
    assert (Hlt : inv_with l t) by (eapply inv_with_moves; [exact Hs|exact Ht|done|done|lia]).
    pose proof (pi_era _ Hlt) as He. cbn in He. rewrite Z.min_l by lia.
    apply wp_bind, wp_modify, wp_bind, wp_gets, wp_bind, wp_modify, wp_bind.
    unfold wp at 1. rewrite add_redemptions_run. apply wp_ret.
    apply (start_unbonding_inv n c l t); [done| |done|done|by apply lt_unbonding].
    by rewrite (oo_phase _ _ (mv_only _ _ _ Ht)).
  - intros e t Ht. apply wp_ret. by apply Hdone.
Qed.

Section Ratios.
Variables (s : PoolSt) (l : PoolLedger).
Hypotheses (Hl : ledger_typed l).
Lemma pool_total_u128 : is_u128 (total_belong_to_liquid_holders l).
Proof. destruct Hl. unfold total_belong_to_liquid_holders, pool_total. uarith. Qed.
Lemma bonded_belong_u128 : is_u128 (bonded_belong_to_liquid_holders l).
Proof. destruct Hl. unfold bonded_belong_to_liquid_holders. uarith. Qed.
Lemma free_pool_ratio_u128 : is_u128 (free_pool_ratio l).
Proof. destruct Hl. apply cfr_default_u128; [done|apply pool_total_u128]. Qed.
Lemma amount_to_bond_bounds p : params_ok p -> 0 <= amount_to_bond p l <= pl_free_pool l.
Proof.
  intros [P1 P2 P3 P4]. unfold amount_to_bond. pose proof (lt_free _ Hl) as [? ?].
  assert (is_u128 (saturating_mul_int (U128.saturating_sub (free_pool_ratio l) (target_max_free_unbonded_ratio p))
    (total_belong_to_liquid_holders l))) as [? ?]; [|lia].
  apply smi_u128; [|apply pool_total_u128]. apply saturating_sub_u128; [apply free_pool_ratio_u128|done].
Qed.
Lemma amount_to_unbond_nonneg p : params_ok p -> 0 <= amount_to_unbond_to_free p l.
Proof.
  intros [P1 P2 P3 P4]. unfold amount_to_unbond_to_free. apply Z.min_glb; [|apply bonded_belong_u128].
  apply smi_u128; [|apply pool_total_u128].
  assert (is_u128 (unbonding_to_free_ratio l)) by (destruct Hl; apply cfr_default_u128; [done|apply pool_total_u128]).
  uarith.
Qed.
End Ratios.

Lemma rebalance_ledger_updated_wp s : pool_inv s -> RebalancePhase s = LedgerUpdated ->
  wp rebalance_ledger_updated (fun _ t => pool_inv t) (fun _ _ => False) s.
Proof.
  intros Hs Hph. pose proof (pi_ledger _ Hs) as Hl. pose proof (pi_params _ Hs) as Hp.
  unfold rebalance_ledger_updated. do 2 apply wp_bind, wp_gets.
  destruct (pl_to_unbond_next_era (StakingPoolLedger s)) as [n c] eqn:Hto.
  pose proof (amount_to_bond_bounds _ Hl _ Hp). pose proof (amount_to_unbond_nonneg _ Hl _ Hp).
  pose proof (lt_next _ Hl) as Hnext. rewrite Hto in Hnext. cbn in Hnext.
  apply wp_bind. eapply wp_mono; [apply bond_from_free_wp; [|done]| |done].
  { unfold inv_with. by destruct s. }
  intros l1 t (Hl1 & Ht & Hto1). apply wp_bind.
  eapply wp_mono; [apply unbond_next_era_wp; [done| | |]| |done].
  - by rewrite (oo_phase _ _ Ht).
  - by rewrite Hto1, Hto.
  - uarith.
  - intros l2 u Hu. apply wp_bind, wp_modify, wp_modify. exact Hu.
Qed.

(** Rebalancing neither fails nor panics and keeps the books. *)
Lemma rebalance_wp nominees s : pool_inv s -> returns_cover s ->
  wp (sp_rebalance nominees) (fun _ t => pool_inv t) (fun _ _ => False) s.
Proof.
  intros Hs Hret. unfold sp_rebalance. apply wp_bind, wp_gets. destruct (RebalancePhase s) eqn:Hph.
  - by apply rebalance_started_wp.
  - by apply rebalance_relaychain_updated_wp.
  - by apply rebalance_ledger_updated_wp.
  - by apply wp_ret.
Qed.

(** ** The calls of users *)
Lemma event_moves ev s : wp (pool_event ev) (fun _ t => moves s t 0) (fun _ _ => False) s.
Proof. apply wp_modify. split; [done|done|]. unfold pool_balance. cbn. lia. Qed.
Lemma inv_ledger s : pool_inv s <-> inv_with (StakingPoolLedger s) s.
Proof. unfold inv_with. by destruct s. Qed.
Lemma moves_ledger_inv s t d l : pool_inv s -> moves s t d -> ledger_typed l ->
  pl_to_unbond_next_era l = pl_to_unbond_next_era (StakingPoolLedger s) ->
  pl_free_pool l <= pl_free_pool (StakingPoolLedger s) + d -> pool_inv (put_pool_ledger l t).
Proof. intros Hs%inv_ledger. apply (inv_with_moves _ _ _ _ _ Hs). Qed.
Lemma exchange_rate_u128 s : pool_inv s -> is_u128 (pool_liquid_exchange_rate s).
Proof.
  intros Hs. unfold pool_liquid_exchange_rate. destruct (_ =? 0); [apply default_rate_u128|].
  apply cfr_default_u128; [by apply pool_total_u128, pi_ledger|apply total_issuance_u128].
Qed.
Lemma reciprocal_default_u128 r : is_u128 (default 0 (sp_reciprocal r)).
Proof. destruct (sp_reciprocal r) eqn:E; cbn; [by eapply reciprocal_u128|uarith]. Qed.

(** A call keeps the books, fails without a trace, and does not panic. *)
Abbreviation keeps_books m s := (wp m (fun _ t => pool_inv t) (fun _ t => t = s) s).

Lemma sp_mint_wp who n s : pool_inv s -> who <> pool_account_id -> is_u128 n -> keeps_books (sp_mint who n) s.
Proof.
  intros Hs Hw Hn. unfold sp_mint. apply wp_transactional. destruct (n =? 0); [by apply wp_ret|]. wp_guards.
  apply cmi_Some in Hopt as [Ha _]; [|apply reciprocal_default_u128|done].
  eapply wp_mono; [by apply pay_in_wp| |done]. intros [] t Ht. cbv beta. wp_guards.
  eapply wp_mono; [by apply issue_wp| |done]. intros [] u Hu. cbv beta. wp_guards.
  eapply wp_mono; [apply event_moves| |done]. intros [] v Hv. cbv beta. wp_guards.
  pose proof (moves_trans _ _ _ _ _ (moves_trans _ _ _ _ _ Ht Hu) Hv) as Hm.
  pose proof (pi_ledger _ Hs) as [L1 L2 L3 L4].
  eapply moves_ledger_inv; [done|exact Hm| |done|cbn; uarith]. split; cbn; auto. by apply saturating_add_u128.
Qed.

Lemma limit_demand_wp n d a s : is_u128 n -> is_u128 d -> is_u128 a ->
  wp (limit_demand n d a) (fun r t => t = s /\ is_u128 r.1 /\ r.2 = Z.min d a) (fun _ _ => False) s.
Proof.
  intros Hn Hd Ha. unfold limit_demand. destruct (Z.ltb_spec a d); [|apply wp_ret; split_and!; cbn; [done|done|lia]].
  apply wp_bind, wp_expect. destruct (checked_from_rational a d) as [r|] eqn:E.
  - exists r. split; [done|]. apply wp_ret. apply cfr_Some in E as (_ & Hr & _); [|done..].
    split_and!; cbn; [done|by apply smi_u128|lia].
  - exfalso. apply cfr_None in E; [|done..]. unfold DIV in E. uarith.
Qed.

(** A change of the storage commutes with what moves around it. *)
Lemma moves_next f s t d : moves s t d -> moves (set_next_era_unbonds f s) (set_next_era_unbonds f t) d.
Proof. intros [[E1 E2 E3 E4 E5 E6 E7] Hb Hd]. split; [split; cbn; congruence|done|done]. Qed.
Lemma moves_unbonding f s t d : moves s t d -> moves (set_unbonding f s) (set_unbonding f t) d.
Proof. intros [[E1 E2 E3 E4 E5 E6 E7] Hb Hd]. split; [split; cbn; congruence|done|done]. Qed.
Lemma moves_unbondings f s t d : moves s t d -> moves (set_unbondings f s) (set_unbondings f t) d.
Proof. intros [[E1 E2 E3 E4 E5 E6 E7] Hb Hd]. split; [split; cbn; congruence|done|done]. Qed.

Lemma queue_inv who n s : pool_inv s -> 0 <= n <= bonded_belong_to_liquid_holders (StakingPoolLedger s) ->
  let l := StakingPoolLedger s in
  inv_with (set_to_unbond (U128.saturating_add (pl_to_unbond_next_era l).1 n,
                           U128.saturating_add (pl_to_unbond_next_era l).2 n) l)
    (set_next_era_unbonds (fun m => <[who := U128.saturating_add (default 0 (m !! who)) n]> m) s).
Proof.
  intros Hs Hn l. destruct Hs as [I0 I1 I2 I3 I4 I5 I6 I7 I8 I9 I10 I11]. fold l in I1, I7, I11, Hn.
  destruct I1 as [L1 L2 L3 L4].
  assert (Hc : (pl_to_unbond_next_era l).2 + n <= U128_MAX).
  { unfold bonded_belong_to_liquid_holders in Hn. uarith. }
  assert (Hold : 0 <= default 0 (NextEraUnbonds s !! who) <= (pl_to_unbond_next_era l).2).
  { rewrite <- I7. destruct (NextEraUnbonds s !! who) as [m|] eqn:E; cbn.
    - split; [by eapply I5|]. by apply (map_sum_lookup_le (fun _ v => v)) with (k := who).
    - split; [done|]. by apply map_sum_nonneg. }
  split; cbn; auto.
  - split; cbn; auto. uarith.
  - intros who' m. rewrite lookup_insert_Some. intros [[_ <-]|[_ Hm]]; [uarith|by apply (I5 who')].
  - rewrite map_sum_insert, I7, !saturating_add_exact by lia.
    destruct (NextEraUnbonds s !! who); cbn; lia.
Qed.

Lemma sp_redeem_by_unbond_wp who n s : pool_inv s -> who <> pool_account_id -> is_u128 n ->
  keeps_books (sp_redeem_by_unbond who n) s.
Proof.
  intros Hs Hw Hn. unfold sp_redeem_by_unbond. apply wp_transactional. destruct (n =? 0); [by apply wp_ret|]. wp_guards.
  pose proof (exchange_rate_u128 s Hs) as Hx. apply cmi_Some in Hopt as [Ha _]; [|done|done].
  pose proof (pi_ledger _ Hs) as Hl. pose proof (bonded_belong_u128 _ Hl) as Hbb.
  set (l := StakingPoolLedger s) in *. destruct (negb _ && negb _) eqn:Hz; [|by apply wp_ret].
  match goal with |- wp (let '(_, _) := ?p in _) _ _ _ => assert (Hp : is_u128 p.1 /\ 0 <= p.2 <= bonded_belong_to_liquid_holders l);
    [|destruct p as [burn stake]; destruct Hp as [Hburn Hstake]; cbn [fst snd] in *] end.
  { destruct (Z.ltb_spec (bonded_belong_to_liquid_holders l) a); cbn; unfold is_u128 in *; split; try lia.
    apply smi_u128; [apply reciprocal_default_u128|done]. }
  wp_guards. eapply wp_mono; [by apply burn_wp| |done]. intros [] t Ht. cbv beta. wp_guards.
  destruct (pl_to_unbond_next_era l) as [n0 c0] eqn:Hto. wp_guards.
  eapply wp_mono; [apply event_moves| |done]. intros [] u Hu. cbv beta. wp_guards.
  pose proof (moves_trans _ _ _ _ _ (moves_next _ _ _ _ Ht) Hu) as Hm.
  pose proof (queue_inv who stake s Hs Hstake) as Hq. cbv zeta in Hq. fold l in Hq.
  rewrite Hto in Hq. cbn [fst snd] in Hq.
  rewrite (oo_next _ _ (mv_only _ _ _ Ht)) in Hm.
  eapply inv_with_moves; [exact Hq|exact Hm|apply (pi_ledger _ Hq)|done|lia].
Qed.

Lemma sp_redeem_by_free_unbonded_wp who n s : pool_inv s -> who <> pool_account_id -> is_u128 n ->
  keeps_books (sp_redeem_by_free_unbonded who n) s.
Proof.
  intros Hs Hw Hn. unfold sp_redeem_by_free_unbonded. apply wp_transactional.
  destruct (n =? 0); [by apply wp_ret|]. wp_guards.
  apply cmi_Some in Hopt as [Ha _]; [|by apply exchange_rate_u128|done].
  pose proof (pi_ledger _ Hs) as Hl. pose proof (pi_params _ Hs) as [P1 P2 P3 P4].
  set (l := StakingPoolLedger s) in *. set (p := StakingPoolParams s) in *.
  pose proof (smi_u128 _ _ P2 (pool_total_u128 l Hl)) as Hmin. pose proof (lt_free _ Hl) as Hf.
  destruct (negb _ && negb _); [|by apply wp_ret]. wp_guards.
  eapply wp_mono; [apply limit_demand_wp; [done|done|by apply saturating_sub_u128]| |done].
  intros [burn d] t (-> & Hburn & Hd). cbn [fst snd] in *. cbv beta iota. wp_guards.
  pose proof (free_pool_ratio_u128 l Hl) as Hfr. pose proof (pi_params _ Hs) as Hpar.
  apply fee_u128 in Hopt; [|by apply remain_percent_u128|by apply saturating_sub_u128|uarith].
  assert (Hret : is_u128 (U128.saturating_sub d a0) /\
      U128.saturating_sub d a0 <= pl_free_pool l) by uarith. destruct Hret as [Hret Hle].
  set (n' := U128.saturating_sub d a0) in *.
  eapply wp_mono; [by apply burn_wp| |done]. intros [] t Ht. cbv beta. wp_guards.
  eapply wp_mono; [by apply pay_out_wp| |done]. intros [] u Hu. cbv beta. wp_guards.
  eapply wp_mono; [apply event_moves| |done]. intros [] v Hv. cbv beta. wp_guards.
  pose proof (moves_trans _ _ _ _ _ (moves_trans _ _ _ _ _ Ht Hu) Hv) as Hm.
  rewrite saturating_sub_exact by done.
  eapply moves_ledger_inv; [done|exact Hm| |done|cbn; fold l; lia]. destruct Hl. split; cbn; auto.
  unfold is_u128 in *. lia.
Qed.

Lemma redemption_le who e s : pool_inv s ->
  0 <= default 0 (Unbondings s !! (who, e)) <= redemptions_of e s.
Proof.
  intros Hs. assert (Hpos : forall k m, Unbondings s !! k = Some m -> 0 <= in_era e k m).
  { intros k m Hk. unfold in_era. case_decide; [by eapply pi_unbondings|done]. }
  destruct (Unbondings s !! (who, e)) as [m|] eqn:E; cbn.
  - split; [by eapply pi_unbondings|].
    rewrite <- (in_era_eq e who m). by apply (map_sum_lookup_le (in_era e)) with (k := (who, e)).
  - split; [done|]. by apply map_sum_nonneg.
Qed.
Lemma in_era_ne e e' who n : e' <> e -> in_era e' (who, e) n = 0.
Proof. intros Hne. unfold in_era. rewrite decide_False; [done|]. cbn. congruence. Qed.
Lemma claim_unbonding_inv who e n s u c i x : pool_inv s -> sp_unbonding e s = (u, c, i) -> 0 <= n <= u - c ->
  CurrentEra s < e <= horizon s -> is_u128 x ->
  inv_with (set_unbonding_to_free x (StakingPoolLedger s))
    (set_unbonding <[e := (u, U128.saturating_add c n, i)]>
      (set_unbondings <[(who, e) := U128.saturating_add (default 0 (Unbondings s !! (who, e))) n]> s)).
Proof.
  intros Hs Hr Hn He Hx. pose proof (redemption_le who e s Hs) as Hold.
  rewrite <- (pi_era_sum _ Hs) in Hold by lia. rewrite Hr in Hold. cbn in Hold.
  assert (Hok : record_ok (u, c, i)).
  { unfold sp_unbonding in Hr. destruct (Unbonding s !! e) eqn:E; cbn in Hr.
    - apply (pi_record _ Hs e). by rewrite E, Hr.
    - injection Hr as <- <- <-. unfold record_ok. cbn. uarith. }
  unfold record_ok in Hok. cbn in Hok. rewrite !saturating_add_exact by lia.
  destruct Hs as [I0 I1 I2 I3 I4 I5 I6 I7 I8 I9 I10 I11]. destruct I1 as [L1 L2 L3 L4].
  split; unfold sp_unbonding, horizon, redemptions, redemptions_of, set_aside, pool_balance in *; cbn in *; auto.
  - by split.
  - intros e' r. rewrite lookup_insert_Some. intros [[_ <-]|[_ Hm]]; [unfold record_ok; cbn; lia|by apply (I4 e')].
  - intros k m. rewrite lookup_insert_Some. intros [[_ <-]|[_ Hm]]; [lia|by apply (I6 k)].
  - intros e' He'. rewrite map_sum_insert. destruct (decide (e' = e)) as [-> |Hne].
    + rewrite lookup_insert_eq. cbn. specialize (I8 e He'). rewrite Hr in I8. cbn in I8. rewrite I8.
      rewrite in_era_eq. destruct (Unbondings s !! (who, e)); cbn; rewrite ?in_era_eq; lia.
    + rewrite lookup_insert_ne, I8 by done. rewrite in_era_ne by done.
      destruct (Unbondings s !! (who, e)); cbn; rewrite ?in_era_ne by done; lia.
  - intros e' [r H']. rewrite lookup_insert_Some in H'. destruct H' as [[<- _]|[_ H']]; [lia|]. apply I9. by exists r.
  - intros who' e' [m H']. rewrite lookup_insert_Some in H'. destruct H' as [[[= <- <-] _]|[_ H']]; [lia|].
    apply (I10 who'). by exists m.
  - rewrite !map_sum_insert. destruct (Unbonding s !! e) eqn:E; cbn in Hr; [subst|injection Hr as <- <- <-];
      destruct (Unbondings s !! (who, e)); cbn in *; lia.
Qed.

(** The ratio of what is unclaimed now to what was at first is at most one. *)
Lemma unclaimed_ratio (u c i : Balance) : record_ok (u, c, i) -> 0 < u - c ->
  exists r, checked_from_rational (U128.saturating_sub u c) (U128.saturating_sub u i) = Some r /\ is_u128 r.
Proof.
  intros Hok Hpos. unfold record_ok in Hok. cbn in Hok. rewrite !saturating_sub_exact by lia.
  assert (Hu : is_u128 (u - c) /\ is_u128 (u - i)) by uarith. destruct Hu.
  destruct (checked_from_rational (u - c) (u - i)) as [r|] eqn:E.
  - exists r. split; [done|]. by apply cfr_Some in E as (_ & ? & _).
  - exfalso. apply cfr_None in E; [|done..]. unfold DIV in E. uarith.
Qed.
Lemma unbonding_record_ok e s u c i : pool_inv s -> sp_unbonding e s = (u, c, i) -> record_ok (u, c, i).
Proof.
  intros Hs Hr. unfold sp_unbonding in Hr. destruct (Unbonding s !! e) eqn:E; cbn in Hr.
  - apply (pi_record _ Hs e). by rewrite E, Hr.
  - injection Hr as <- <- <-. unfold record_ok. cbn. uarith.
Qed.

Lemma sp_redeem_by_claim_unbonding_wp who n e s : pool_inv s -> who <> pool_account_id -> is_u128 n ->
  keeps_books (sp_redeem_by_claim_unbonding who n e) s.
Proof.
  intros Hs Hw Hn. unfold sp_redeem_by_claim_unbonding. apply wp_transactional.
  destruct (n =? 0); [by apply wp_ret|]. wp_guards.
  apply cmi_Some in Hopt as [Ha _]; [|by apply exchange_rate_u128|done].
  apply bool_decide_eq_true in Hens. apply andb_true_iff in Hens0 as [He1%Z.ltb_lt He2%Z.leb_le].
  pose proof (pi_era _ Hs) as Hera. pose proof bonding_pos as Hbp.
  unfold u32_wrapping_add in He2. rewrite Z.mod_small in He2 by (unfold U32_MAX in Hera; lia).
  pose proof (pi_ledger _ Hs) as Hl. pose proof (pi_params _ Hs) as [P1 P2 P3 P4].
  destruct (sp_unbonding e s) as [[u c] i] eqn:Hr. wp_guards.
  pose proof (unbonding_record_ok _ _ _ _ _ Hs Hr) as Hok. assert (Hok' := Hok). unfold record_ok in Hok'. cbn in Hok'.
  set (minimum := saturating_mul_int _ _).
  assert (Hmin : is_u128 minimum) by (apply smi_u128; [done|uarith]).
  set (available := U128.saturating_sub _ minimum).
  assert (Hav : is_u128 available /\ available <= u - c) by uarith. destruct Hav as [Hav Hle].
  destruct (negb _ && negb _) eqn:Hz; [|by apply wp_ret].
  apply andb_true_iff in Hz as [_ Hz%negb_true_iff%Z.eqb_neq]. wp_guards.
  eapply wp_mono; [by apply limit_demand_wp| |done].
  intros [burn d] t (-> & Hburn & Hd). cbn [fst snd] in *. cbv beta iota.
  destruct (unclaimed_ratio u c i Hok) as (r & Hratio & Hru); [unfold is_u128 in Hav; lia|].
  rewrite Hratio. cbn [expect]. wp_guards. pose proof (pi_params _ Hs) as Hpar.
  apply fee_u128 in Hopt; [|by apply remain_percent_u128|done|clear -Hd Ha Hav; uarith].
  assert (Hn' : 0 <= U128.saturating_sub d a0 <= u - c) by (clear -Hopt Hd Hav Hle Ha; uarith).
  set (n' := U128.saturating_sub d a0) in *.
  eapply wp_mono; [by apply burn_wp| |done]. intros [] t Ht. cbv beta. wp_guards.
  eapply wp_mono; [apply event_moves| |done]. intros [] v Hv. cbv beta. wp_guards.
  pose proof (mv_only _ _ _ Ht) as [E1 E2 E3 E4 E5 E6 E7].
  unfold sp_unbonding in Hv, Hr. cbn in Hv. rewrite E3, E4, Hr in Hv.
  pose proof (moves_trans _ _ _ _ _ (moves_unbonding _ _ _ _ (moves_unbondings _ _ _ _ Ht)) Hv) as Hm.
  set (x := U128.saturating_sub _ n') in |- *.
  assert (Hx : is_u128 x) by (destruct Hl; uarith).
  pose proof (claim_unbonding_inv who e n' s u c i x Hs Hr Hn') as Hq.
  eapply inv_with_moves; [apply Hq|exact Hm| |done|cbn; lia].
  - unfold horizon. rewrite decide_True by done. lia.
  - done.
  - destruct Hl. by split.
Qed.

(** *** Withdrawing *)
Definition drop_redemptions who (xs : list (EraIndex * Balance)) (m : gmap (AccountId * EraIndex) Balance) :=
  foldl (fun m en => delete (who, en.1) m) m xs.
Lemma withdraw_loop_run who xs a s : is_u128 a -> (forall en, en ∈ xs -> 0 <= en.2) ->
  withdraw_loop who xs a s =
  (Ok (Z.min U128_MAX (a + sum_of snd xs)), set_unbondings (drop_redemptions who xs) s).
Proof.
  revert a s. induction xs as [|[e n] xs IH]; intros a s Ha Hxs; cbn [withdraw_loop].
  { rewrite sum_of_nil, Z.min_r by uarith. rewrite Z.add_0_r. by destruct s. }
  assert (Htl : forall en, en ∈ xs -> 0 <= en.2) by (intros; apply Hxs; by right).
  pose proof (Hxs _ ltac:(left)) as Hn. cbn in Hn. assert (0 <= sum_of snd xs) by (by apply sum_of_nonneg).
  unfold mbind, M_bind, modify. rewrite IH by (done || uarith). rewrite sum_of_cons. cbn [snd].
  do 2 f_equal. uarith.
Qed.
Lemma drop_redemptions_lookup who xs m k n : drop_redemptions who xs m !! k = Some n -> m !! k = Some n.
Proof.
  revert m. induction xs as [|en xs IH]; intros m Hk; [done|]. cbn [drop_redemptions foldl] in Hk.
  apply IH in Hk. by apply lookup_delete_Some in Hk as [_ ?].
Qed.
Lemma drop_redemptions_sum f who xs m : NoDup xs.*1 -> (forall en, en ∈ xs -> m !! (who, en.1) = Some en.2) ->
  map_sum f (drop_redemptions who xs m) = map_sum f m - sum_of (fun en => f (who, en.1) en.2) xs.
Proof.
  revert m. induction xs as [|en xs IH]; intros m Hd Hm; [rewrite sum_of_nil; cbn; lia|].
  apply NoDup_cons in Hd as [Hx Hd]. rewrite sum_of_cons. cbn [drop_redemptions foldl].
  change (foldl _ ?m' xs) with (drop_redemptions who xs m'). rewrite IH; [|done|].
  - rewrite map_sum_delete, (Hm en) by left. cbn. lia.
  - intros en' Hen'. rewrite lookup_delete_ne; [apply Hm; by right|]. intros [= E]. apply Hx.
    rewrite E. apply list_elem_of_fmap. eauto.
Qed.
Lemma due_unbondings_elem who s e n :
  (e, n) ∈ due_unbondings who s <-> Unbondings s !! (who, e) = Some n /\ e <= CurrentEra s.
Proof.
  unfold due_unbondings, unbondings_of. rewrite list_elem_of_filter, storage_order_permutation, list_elem_of_fmap. cbn.
  split.
  - intros [He ([[who' e'] n'] & [= -> ->] & [Hw Hk]%list_elem_of_filter)]. cbn in Hw. subst who'.
    by apply elem_of_map_to_list in Hk.
  - intros [Hk He]. split; [done|]. exists ((who, e), n). split; [done|].
    apply list_elem_of_filter. split; [done|]. by apply elem_of_map_to_list.
Qed.
Lemma due_unbondings_nodup who s : NoDup (due_unbondings who s).*1.
Proof.
  apply NoDup_fmap_2_strong.
  - intros [e n] [e' n'] [Hk _]%due_unbondings_elem [Hk' _]%due_unbondings_elem. cbn. intros ->. congruence.
  - unfold due_unbondings, unbondings_of. apply NoDup_filter. rewrite storage_order_permutation.
    apply NoDup_fmap_2_strong; [|apply NoDup_filter, NoDup_map_to_list].
    intros [[w e] n] [[w' e'] n'] [Hw _]%list_elem_of_filter [Hw' _]%list_elem_of_filter. cbn in *. by intros [= -> ->]; subst.
Qed.

Lemma withdrawn_inv who s t d : pool_inv s ->
  moves (set_unbondings (drop_redemptions who (due_unbondings who s)) s) t d ->
  - sum_of snd (due_unbondings who s) <= d -> pool_inv t.
Proof.
  intros Hs [[E1 E2 E3 E4 E5 E6 E7] Hbr Hbal] Hd. cbn in *.
  assert (Hdrop : forall f, map_sum f (Unbondings t) = map_sum f (Unbondings s) -
    sum_of (fun en => f (who, en.1) en.2) (due_unbondings who s)).
  { intros f. rewrite E4. apply drop_redemptions_sum; [apply due_unbondings_nodup|].
    intros [e n] [? _]%due_unbondings_elem. done. }
  assert (Hlk : forall k n, Unbondings t !! k = Some n -> Unbondings s !! k = Some n).
  { intros k n. rewrite E4. apply drop_redemptions_lookup. }
  destruct Hs as [I0 I1 I2 I3 I4 I5 I6 I7 I8 I9 I10 I11].
  split; unfold sp_unbonding, horizon, redemptions, redemptions_of, set_aside in *;
    rewrite ?E1, ?E2, ?E3, ?E5, ?E6, ?E7; auto.
  - intros k n Hk%Hlk. by apply (I6 k).
  - intros e He. rewrite Hdrop, I8 by done. rewrite sum_of_zero; [lia|].
    intros [e' n] [_ Hle]%due_unbondings_elem. cbn. apply in_era_ne. lia.
  - intros who' e [n Hk%Hlk]. apply (I10 who'). by exists n.
  - rewrite Hdrop, Hbal, (sum_of_ext _ snd) by done. unfold pool_balance in *. cbn in *. lia.
Qed.
Lemma sp_withdraw_redemption_wp who s : pool_inv s -> who <> pool_account_id ->
  keeps_books (sp_withdraw_redemption who) s.
Proof.
  intros Hs Hw. unfold sp_withdraw_redemption. apply wp_transactional, wp_bind, wp_gets, wp_bind.
  assert (Hpos : forall en, en ∈ due_unbondings who s -> 0 <= en.2).
  { intros [e n] [Hk _]%due_unbondings_elem. by apply (pi_unbondings _ Hs) in Hk. }
  pose proof (sum_of_nonneg snd _ Hpos). unfold wp at 1. rewrite withdraw_loop_run by (done || uarith).
  set (n := Z.min U128_MAX _). assert (Hn : is_u128 n) by uarith. apply wp_bind.
  eapply wp_mono; [by apply pay_out_wp| |done]. intros [] t Ht. apply wp_ret.
  apply (withdrawn_inv who s t _ Hs Ht). unfold n. lia.
Qed.
End Specs.
