(* ===== verification/StakingSafety.v ===== *)
(** * Histories of the staking pool

    What the pool promises to Homa, as a class that the pool's storage meets; the
    calls of users, the eras, the rebalancing and what happens around the pool as
    a step relation; and that the pool stays solvent over every history. *)
From stdpp Require Import relations.
From S2P Require Import Prelude FixedPoint Primitives Runtime Support PolkadotBridge StakingPool StakingSpecs.

(** ** What Homa relies on

    A call of [HomaProtocol] by [user] keeps [I], or fails without a trace. *)
Class HomaLaws {S : Type} `{HomaProtocol S} (I : S -> Prop) (user : AccountId -> Prop) : Prop := {
  homa_mint_law who n s : I s -> user who -> is_u128 n ->
    wp (homa_mint who n) (fun _ => I) (fun _ t => t = s) s;
  homa_redeem_by_unbond_law who n s : I s -> user who -> is_u128 n ->
    wp (homa_redeem_by_unbond who n) (fun _ => I) (fun _ t => t = s) s;
  homa_redeem_by_free_unbonded_law who n s : I s -> user who -> is_u128 n ->
    wp (homa_redeem_by_free_unbonded who n) (fun _ => I) (fun _ t => t = s) s;
  homa_redeem_by_claim_unbonding_law who n e s : I s -> user who -> is_u128 n ->
    wp (homa_redeem_by_claim_unbonding who n e) (fun _ => I) (fun _ t => t = s) s;
  homa_withdraw_redemption_law who s : I s -> user who ->
    wp (homa_withdraw_redemption who) (fun _ => I) (fun _ t => t = s) s }.

Inductive HomaCall :=
  | Mint (amount : Balance)
  | Redeem (amount : Balance) (strategy : RedeemStrategy)
  | WithdrawRedemption.
Definition homa_amount (c : HomaCall) : Balance :=
  match c with Mint n | Redeem n _ => n | WithdrawRedemption => 0 end.

Section Homa.
Context {S : Type} {I : S -> Prop} {user : AccountId -> Prop} `{HL : HomaLaws S I user}.
Definition run_homa (o : Origin) (c : HomaCall) : M DispatchError S unit :=
  match c with
  | Mint n => mint o n
  | Redeem n strategy => redeem o n strategy
  | WithdrawRedemption => withdraw_redemption o
  end.
Lemma homa_call_wp o c (s : S) : I s -> is_u128 (homa_amount c) ->
  (forall who, o = Signed who -> user who) ->
  wp (run_homa o c) (fun _ => I) (fun _ t => t = s) s.
Proof.
  intros Hs Hn Ho. destruct o as [|who|]; [by destruct c| |by destruct c].
  specialize (Ho who eq_refl). destruct c as [n|n [|e|]|]; cbn [run_homa]; apply wp_transactional, wp_bind, wp_ret.
  - apply wp_bind. eapply wp_mono; [by apply homa_mint_law|by intros|done].
  - eapply wp_mono; [by apply homa_redeem_by_free_unbonded_law|done|done].
  - eapply wp_mono; [by apply homa_redeem_by_claim_unbonding_law|done|done].
  - eapply wp_mono; [by apply homa_redeem_by_unbond_law|done|done].
  - apply wp_bind. eapply wp_mono; [by apply homa_withdraw_redemption_law|by intros|done].
Qed.
End Homa.

Section Safety.
Context `{PL : PoolLaws}.
Implicit Types (s t : PoolSt) (who : AccountId) (e : EraIndex) (n : Balance).

Definition pool_user who : Prop := who <> pool_account_id.
#[export] Instance staking_pool_homa_laws : HomaLaws pool_inv pool_user.
Proof.
  split; intros.
  - by apply sp_mint_wp.
  - by apply sp_redeem_by_unbond_wp.
  - by apply sp_redeem_by_free_unbonded_wp.
  - by apply sp_redeem_by_claim_unbonding_wp.
  - by apply sp_withdraw_redemption_wp.
Qed.

(** Setting the parameters *)
Definition change_ok {A} (P : A -> Prop) (c : Change A) : Prop :=
  match c with NewValue v => P v | NoChange => True end.
Lemma new_or_u128 (c : Change Z) v : change_ok is_u128 c -> is_u128 v -> is_u128 (new_or c v).
Proof. by destruct c. Qed.
Lemma put_params_inv p s : params_ok p -> pool_inv s -> pool_inv (put_params p s).
Proof. intros Hp [I0 I1 I2 I3 I4 I5 I6 I7 I8 I9 I10 I11]. by split. Qed.
Lemma set_params_wp o mx mn tf adj fee s : pool_inv s ->
  change_ok is_u128 mx -> change_ok is_u128 mn -> change_ok is_u128 tf -> change_ok is_u128 adj ->
  wp (set_staking_pool_params o mx mn tf adj fee) (fun _ => pool_inv) (fun _ t => t = s) s.
Proof.
  intros Hs Hmx Hmn Htf Hadj. unfold set_staking_pool_params. wp_guards. apply put_params_inv; [|done].
  destruct (pi_params _ Hs). split; cbn; by apply new_or_u128.
Qed.

(** ** Histories

    Users call Homa; the parameters are set; an era begins; the hook of a block
    rebalances, when the relay chain returned what the expired records claim; and
    around the pool other accounts and the relay chain act, which may add to the
    balance of the pool but not take from it. *)
Inductive pool_step : PoolSt -> PoolSt -> Prop :=
  | step_homa o c s r t : (forall who, o = Signed who -> pool_user who) -> is_u128 (homa_amount c) ->
      run_homa o c s = (r, t) -> pool_step s t
  | step_params o mx mn tf adj fee s r t :
      change_ok is_u128 mx -> change_ok is_u128 mn -> change_ok is_u128 tf -> change_ok is_u128 adj ->
      set_staking_pool_params o mx mn tf adj fee s = (r, t) -> pool_step s t
  | step_new_era e s r t : CurrentEra s < e -> e + BondingDuration <= U32_MAX ->
      sp_on_new_era e s = (r, t) -> pool_step s t
  | step_rebalance nominees s r t : returns_cover s -> sp_rebalance nominees s = (r, t) -> pool_step s t
  | step_around s t : outside_only s t -> bridge_ok (sp_bridge t) -> pool_balance s <= pool_balance t ->
      pool_step s t.

Ltac by_run Hw Hrun := unfold wp in Hw; rewrite Hrun in Hw; lazymatch type of Hw with
  match ?r with _ => _ end => destruct r; subst; done end.
Lemma pool_step_inv s t : pool_step s t -> pool_inv s -> pool_inv t.
Proof.
  intros [o c s' r t' Ho Hn Hrun|o mx mn tf adj fee s' r t' ???? Hrun|e s' r t' He Hmax Hrun
    |nominees s' r t' Hret Hrun|s' t' Ho Hb Hbal] Hs.
  - pose proof (homa_call_wp o c s' Hs Hn Ho) as Hw. by_run Hw Hrun.
  - pose proof (set_params_wp o mx mn tf adj fee s' Hs) as Hw. do 4 (specialize (Hw ltac:(done))). by_run Hw Hrun.
  - injection Hrun as _ <-. by apply new_era_inv.
  - pose proof (rebalance_wp nominees s' Hs Hret) as Hw. by_run Hw Hrun.
  - eapply (moves_inv s' t' (pool_balance t' - pool_balance s')); [split; [done|by intros|lia]|lia|done].
Qed.

(** ** What is due *)
Definition due current (k : AccountId * EraIndex) n : Z := if decide (k.2 <= current) then n else 0.
Definition redemptions_due s : Z := map_sum (due (CurrentEra s)) (Unbondings s).

Lemma map_sum_swap {K1 V1 K2 V2} `{Countable K1} `{Countable K2} (f : K1 -> V1 -> K2 -> V2 -> Z)
    (m1 : gmap K1 V1) (m2 : gmap K2 V2) :
  map_sum (fun k1 v1 => map_sum (f k1 v1) m2) m1 = map_sum (fun k2 v2 => map_sum (fun k1 v1 => f k1 v1 k2 v2) m1) m2.
Proof.
  induction m1 as [|k v m1 Hk IH] using map_ind.
  - rewrite map_sum_empty. symmetry. apply map_sum_zero. intros. apply map_sum_empty.
  - rewrite map_sum_insert_None, IH, <- map_sum_plus by done. apply map_sum_ext. intros k2 v2 _.
    by rewrite map_sum_insert_None.
Qed.

(** What eras to come have set aside is what is redeemed in them. *)
Lemma set_aside_later s : pool_inv s -> set_aside s - expired_claims s = redemptions s - redemptions_due s.
Proof.
  intros Hs.
  set (later := fun e => if decide (CurrentEra s < e) then 1 else 0).
  assert (Hs1 : set_aside s = expired_claims s + map_sum (fun e r => later e * snd (fst r)) (Unbonding s)).
  { unfold expired_claims, set_aside. rewrite <- map_sum_plus. apply map_sum_ext. intros e r _.
    unfold expired, later. case_decide; destruct (Z.leb_spec e (CurrentEra s)); lia. }
  assert (Hs2 : redemptions s = redemptions_due s + map_sum (fun (k : AccountId * EraIndex) n => later k.2 * n) (Unbondings s)).
  { unfold redemptions_due. rewrite <- map_sum_plus. apply map_sum_ext. intros k n _.
    unfold due, later. repeat case_decide; lia. }
  enough (map_sum (fun e r => later e * snd (fst r)) (Unbonding s) =
    map_sum (fun (k : AccountId * EraIndex) n => later k.2 * n) (Unbondings s)) by lia.
  transitivity (map_sum (fun e (_ : Balance * Balance * Balance) =>
    map_sum (fun k n => later e * in_era e k n) (Unbondings s)) (Unbonding s)).
  - apply map_sum_ext. intros e r Hr. unfold later. case_decide as He.
    + pose proof (pi_era_sum _ Hs e He) as Hsum. unfold sp_unbonding in Hsum. rewrite Hr in Hsum. cbn in Hsum.
      rewrite Hsum. unfold redemptions_of. rewrite Z.mul_1_l. apply map_sum_ext. intros. lia.
    + symmetry. rewrite Z.mul_0_l. apply map_sum_zero. intros. lia.
  - rewrite map_sum_swap. apply map_sum_ext. intros [who e] n Hk.
    rewrite (map_sum_single _ _ e) by (intros e' r Hne; rewrite in_era_ne; [lia|done]).
    destruct (Unbonding s !! e) eqn:E; cbn; rewrite ?in_era_eq; [done|].
    unfold later. case_decide as He; [|lia].
    pose proof (pi_era_sum _ Hs e He) as Hsum. unfold sp_unbonding in Hsum. rewrite E in Hsum. cbn in Hsum.
    pose proof (redemption_le who e s Hs) as Hle. rewrite Hk in Hle. cbn in Hle. lia.
Qed.

(** The redemptions of one account that are due *)
Lemma due_of_le who s : pool_inv s -> sum_of snd (due_unbondings who s) <= redemptions_due s.
Proof.
  intros Hs. assert (Hpos : forall k n, Unbondings s !! k = Some n -> 0 <= due (CurrentEra s) k n).
  { intros k n Hk. unfold due. case_decide; [by eapply pi_unbondings|done]. }
  pose proof (drop_redemptions_sum (due (CurrentEra s)) who (due_unbondings who s) (Unbondings s)
    (due_unbondings_nodup who s)) as Hd.
  assert (Hrest : 0 <= map_sum (due (CurrentEra s)) (drop_redemptions who (due_unbondings who s) (Unbondings s))).
  { apply map_sum_nonneg. intros k n Hk%drop_redemptions_lookup. by apply Hpos. }
  rewrite Hd in Hrest by (intros [e n] [? _]%due_unbondings_elem; done).
  enough (sum_of (fun en => due (CurrentEra s) (who, en.1) en.2) (due_unbondings who s) =
    sum_of snd (due_unbondings who s)) by (unfold redemptions_due; lia).
  assert (Hin : forall en, en ∈ due_unbondings who s -> due (CurrentEra s) (who, en.1) en.2 = en.2).
  { intros [e n] [_ He]%due_unbondings_elem. unfold due. cbn. by rewrite decide_True. }
  revert Hin. generalize (due_unbondings who s). intros xs. induction xs as [|x xs IH]; intros Hin; [done|].
  rewrite !sum_of_cons, IH, Hin; [done|by left|]. intros. apply Hin. by right.
Qed.

(** C6: over every history of calls, eras, rebalancing and what happens around
    the pool, the books of the pool stay in order: the free pool and every
    redemption that is due are covered by the pool's balance and what is about to
    return from the relay chain for expired records; once that came back, an
    account that withdraws is paid in full unless the transfer itself fails.  No
    call of a user panics, and one that fails leaves no trace. *)
Theorem pool_histories_solvent s t : pool_inv s -> rtc pool_step s t ->
  pool_inv t /\
  pl_free_pool (StakingPoolLedger t) + redemptions_due t <= pool_balance t + expired_claims t /\
  (expired_claims t = 0 -> forall who, sum_of snd (due_unbondings who t) <= pool_balance t) /\
  (forall o c, (forall who, o = Signed who -> pool_user who) -> is_u128 (homa_amount c) ->
     match run_homa o c t with
     | (Ok _, u) => pool_inv u
     | (Err _, u) => u = t
     | (Panic, _) => False
     end).
Proof.
  intros Hs Hst. assert (Ht : pool_inv t).
  { induction Hst as [|x y z Hxy _ IH]; [done|]. by apply IH, (pool_step_inv _ _ Hxy). }
  pose proof (pi_solvent _ Ht) as Hsol. pose proof (set_aside_later _ Ht) as Hl.
  split; [done|]. split; [lia|]. split.
  - intros He who. pose proof (due_of_le who t Ht). destruct (lt_free _ (pi_ledger _ Ht)). lia.
  - intros o c Ho Hn. pose proof (homa_call_wp o c t Ht Hn Ho) as Hw. unfold wp in Hw. exact Hw.
Qed.
End Safety.
