(* ===== verification/FeeModel.v ===== *)
(** * The fee of an early redemption

    [CurveFeeModel] of [runtime/common/src/homa.rs], the fee model that the
    runtimes give the staking pool: the fee rate is interpolated between the rates
    of a matrix, by the share of the buffer that is used and by the share of what
    is available that is asked for.  The theorem is that the matrix is never
    indexed out of its bounds and that the fee is at most what is available. *)
From S2P Require Import Prelude FixedPoint Primitives.

(** Operations of [sp_arithmetic] that no pallet uses *)
Class FeeMath `{FixedU128} := {
  saturating_from_rational : Z -> Z -> Ratio;
  fx_frac : Ratio -> Ratio }.
Class FeeMathLaws `{FeeMath} : Prop := {
  fee_fixed :: FixedU128Laws;
  sfr_checked n d : 0 < d -> saturating_from_rational n d = default U128_MAX (checked_from_rational n d);
  frac_law x : is_u128 x -> fx_frac x = x mod DIV }.

Section Model.
Context `{FeeMath}.
Abbreviation rate := saturating_from_rational.

(** A row for each tenth of the buffer in use, a column for each tenth of what is
    available in demand *)
Definition FeeRateMatrix : list (list Rate) :=
  [[0; rate 231487 100000000; rate 526013 100000000; rate 106148 10000000; rate 243221 10000000;
    rate 597041 10000000; rate 126422 1000000; rate 214815 1000000; rate 311560 1000000; rate 410715 1000000;
    rate 510500 1000000];
   [0; rate 260999 100000000; rate 584962 100000000; rate 114942 10000000; rate 254703 10000000;
    rate 610531 10000000; rate 127866 1000000; rate 216285 1000000; rate 313035 1000000; rate 412191 1000000;
    rate 511976 1000000];
   [0; rate 376267 100000000; rate 815202 100000000; rate 149288 10000000; rate 299546 10000000;
    rate 663214 10000000; rate 133503 1000000; rate 222025 1000000; rate 318797 1000000; rate 417955 1000000;
    rate 517741 1000000];
   [0; rate 807626 100000000; rate 167679 10000000; rate 277809 10000000; rate 467319 10000000;
    rate 860304 10000000; rate 154595 1000000; rate 243507 1000000; rate 340357 1000000; rate 439528 1000000;
    rate 539315 1000000];
   [0; rate 219503 10000000; rate 444770 10000000; rate 691029 10000000; rate 100646 1000000;
    rate 149348 1000000; rate 222388 1000000; rate 312586 1000000; rate 409701 1000000; rate 508916 1000000;
    rate 608707 1000000];
   [0; rate 511974 10000000; rate 102871 1000000; rate 156110 1000000; rate 213989 1000000;
    rate 282343 1000000; rate 364989 1000000; rate 458110 1000000; rate 555871 1000000; rate 655197 1000000;
    rate 755000 1000000];
   [0; rate 804354 10000000; rate 161193 1000000; rate 242816 1000000; rate 326520 1000000;
    rate 414156 1000000; rate 506779 1000000; rate 603334 1000000; rate 701969 1000000; rate 801470 1000000;
    rate 901293 1000000];
   [0; rate 942895 10000000; rate 188758 1000000; rate 283590 1000000; rate 379083 1000000;
    rate 475573 1000000; rate 573220 1000000; rate 671864 1000000; rate 771169 1000000; rate 870838 1000000;
    rate 970685 1000000];
   [0; rate 985811 10000000; rate 197241 1000000; rate 296017 1000000; rate 394949 1000000;
    rate 494073 1000000; rate 593401 1000000; rate 692920 1000000; rate 792596 1000000; rate 892388 1000000;
    rate 992259 1000000];
   [0; rate 997132 10000000; rate 199444 1000000; rate 299194 1000000; rate 398965 1000000;
    rate 498757 1000000; rate 598570 1000000; rate 698404 1000000; rate 798259 1000000; rate 898132 1000000;
    rate 998024 1000000];
   [0; fx_one; fx_one; fx_one; fx_one; fx_one; fx_one; fx_one; fx_one; fx_one; fx_one]].
(** An index out of bounds panics. *)
Definition rate_at (x y : nat) : outcome unit Rate :=
  match row ← FeeRateMatrix !! x; row !! y with Some r => Ok r | None => Panic end.

(** [Err tt] is the [None] of the code. *)
Definition curve_get_fee (remain_available_percent : Ratio) (available_amount request_amount : Balance)
    (_ : Rate) : outcome unit Balance :=
  if (remain_available_percent =? 0) || (fx_one <? remain_available_percent)
     || (available_amount <? request_amount) || (request_amount =? 0)
  then Err tt else
  let ten := saturating_from_rational 10 1 in
  let used_buffer_percent := U128.saturating_sub fx_one remain_available_percent in
  let demand_in_available_percent := saturating_from_rational request_amount available_amount in
  let x := fx_saturating_mul used_buffer_percent ten in
  let x0 := Z.to_nat (x / DIV) in
  let prefix_x := fx_frac x in
  let y := fx_saturating_mul demand_in_available_percent ten in
  let y0 := Z.to_nat (y / DIV) in
  let prefix_y := fx_frac y in
  multiplier ←
    (if (prefix_x =? 0) && (prefix_y =? 0) then rate_at x0 y0
     else
       let '(y0, prefix_y) :=
         if (y0 =? 10)%nat
         then ((y0 - 1)%nat, U128.saturating_add prefix_y (saturating_from_rational 10 100))
         else (y0, prefix_y) in
       x0_y0_rate ← rate_at x0 y0;
       x0_y1_rate ← rate_at x0 (y0 + 1);
       x1_y0_rate ← rate_at (x0 + 1) y0;
       x1_y1_rate ← rate_at (x0 + 1) (y0 + 1);
       let y0_x := U128.saturating_add
         (fx_saturating_mul prefix_x (U128.saturating_sub x1_y0_rate x0_y0_rate)) x0_y0_rate in
       let y1_x := U128.saturating_add
         (fx_saturating_mul prefix_x (U128.saturating_sub x1_y1_rate x0_y1_rate)) x0_y1_rate in
       mret (U128.saturating_add
         (fx_saturating_mul (U128.saturating_sub y1_x y0_x) prefix_y) y0_x));
  ook_or (checked_mul_int multiplier available_amount) tt.
End Model.

Section Theorems.
Context `{FL : FeeMathLaws}.
#[local] Existing Instance fee_fixed.

Lemma DIV_u128 : is_u128 DIV.
Proof. unfold DIV. uarith. Qed.
(** A ratio that is at most one *)
Lemma rate_le_one n d : 0 <= n <= d -> 0 < d <= U128_MAX -> 0 <= saturating_from_rational n d <= DIV.
Proof.
  intros Hn Hd. rewrite sfr_checked by lia. assert (Hnu : is_u128 n /\ is_u128 d) by uarith. destruct Hnu.
  destruct (checked_from_rational n d) as [q|] eqn:E; cbn.
  - split; [by apply cfr_Some in E as (_ & [] & _)|]. apply (cfr_le_one n d); done || lia.
  - exfalso. apply cfr_None in E; [|done..]. unfold DIV in E. uarith.
Qed.
Lemma ten_eq : saturating_from_rational 10 1 = 10 * DIV.
Proof.
  rewrite sfr_checked by lia. destruct (checked_from_rational 10 1) as [q|] eqn:E; cbn.
  - apply cfr_Some in E as (_ & _ & Hr); [|uarith..]. unfold rounds in Hr. lia.
  - exfalso. apply cfr_None in E; [|uarith..]. unfold DIV in E. uarith.
Qed.
(** Ten times a ratio of at most one is exact. *)
Lemma times_ten r : 0 <= r <= DIV -> fx_saturating_mul r (saturating_from_rational 10 1) = 10 * r.
Proof.
  intros Hr. rewrite ten_eq, fsm_checked.
  assert (Hu : is_u128 r /\ is_u128 (10 * DIV)) by (unfold DIV in *; uarith). destruct Hu.
  destruct (fx_checked_mul r (10 * DIV)) as [q|] eqn:E; cbn.
  - apply fcm_Some in E as [_ Hq]; [|done..]. unfold rounds, DIV in *. lia.
  - exfalso. apply fcm_None in E; [|done..]. unfold DIV in *. uarith.
Qed.
(** A part of [z] at a ratio of at most one *)
Lemma part_le x z : 0 <= x <= DIV -> 0 <= z <= DIV -> 0 <= fx_saturating_mul x z <= z.
Proof.
  intros Hx Hz. rewrite fsm_checked. assert (Hu : is_u128 x /\ is_u128 z) by (unfold DIV in *; uarith). destruct Hu.
  destruct (fx_checked_mul x z) as [q|] eqn:E; cbn.
  - apply fcm_Some in E as [[] Hq]; [|done..]. unfold rounds, DIV in *. nia.
  - exfalso. apply fcm_None in E; [|done..]. unfold DIV in *. unfold U128_MAX in E. nia.
Qed.
(** Interpolating between two rates gives a rate. *)
Lemma interpolate_rate x a b : 0 <= x <= DIV -> 0 <= a <= DIV -> 0 <= b <= DIV ->
  0 <= U128.saturating_add (fx_saturating_mul x (U128.saturating_sub b a)) a <= DIV /\
  0 <= U128.saturating_add (fx_saturating_mul (U128.saturating_sub b a) x) a <= DIV.
Proof.
  intros Hx Ha Hb. assert (Hs : 0 <= U128.saturating_sub b a <= DIV /\ U128.saturating_sub b a <= Z.max (b - a) 0) by uarith.
  destruct Hs as [Hs1 Hs2]. pose proof (part_le _ _ Hx Hs1) as H1'. 
  assert (H2' : 0 <= fx_saturating_mul (U128.saturating_sub b a) x <= U128.saturating_sub b a).
  { rewrite fsm_checked. assert (Hu : is_u128 x /\ is_u128 (U128.saturating_sub b a)) by (unfold DIV in *; uarith). destruct Hu.
    destruct (fx_checked_mul (U128.saturating_sub b a) x) as [q|] eqn:E; cbn.
    - apply fcm_Some in E as [[] Hq]; [|done..]. unfold rounds, DIV in *. nia.
    - exfalso. apply fcm_None in E; [|done..]. unfold DIV, U128_MAX in *. nia. }
  unfold U128.saturating_add. unfold DIV, U128_MAX in *. lia.
Qed.

(** The matrix is complete, and its entries are rates. *)
Lemma matrix_ok : length FeeRateMatrix = 11%nat /\
  Forall (fun row => length row = 11%nat /\ Forall (fun r => 0 <= r <= DIV) row) FeeRateMatrix.
Proof.
  split; [done|]. unfold FeeRateMatrix.
  repeat (apply Forall_cons; split); try apply Forall_nil; try done; try (split; [done|]);
    repeat (apply Forall_cons; split); try apply Forall_nil; try done;
    first [apply rate_le_one; uarith | unfold fx_one; unfold DIV; lia].
Qed.
Lemma rate_at_ok x y : (x <= 10)%nat -> (y <= 10)%nat -> exists r, rate_at x y = Ok r /\ 0 <= r <= DIV.
Proof.
  intros Hx Hy. destruct matrix_ok as [Hlen Hall]. unfold rate_at.
  destruct (lookup_lt_is_Some_2 FeeRateMatrix x) as [row Hrow]; [lia|].
  rewrite Hrow. cbn. eapply Forall_lookup_1 in Hall as [Hl Hr]; [|done].
  destruct (lookup_lt_is_Some_2 row y) as [r Hy']; [lia|]. rewrite Hy'. exists r. split; [done|].
  by eapply Forall_lookup_1 in Hr.
Qed.

(** The four rates around a point, and what is interpolated between them *)
Lemma interpolated x y px py : (x <= 9)%nat -> (y <= 9)%nat -> 0 <= px <= DIV -> 0 <= py <= DIV ->
  exists m, 0 <= m <= DIV /\
    (x0_y0_rate ← rate_at x y; x0_y1_rate ← rate_at x (y + 1);
     x1_y0_rate ← rate_at (x + 1) y; x1_y1_rate ← rate_at (x + 1) (y + 1);
     let y0_x := U128.saturating_add (fx_saturating_mul px (U128.saturating_sub x1_y0_rate x0_y0_rate)) x0_y0_rate in
     let y1_x := U128.saturating_add (fx_saturating_mul px (U128.saturating_sub x1_y1_rate x0_y1_rate)) x0_y1_rate in
     mret (U128.saturating_add (fx_saturating_mul (U128.saturating_sub y1_x y0_x) py) y0_x)) = Ok m.
Proof.
  intros Hx Hy Hpx Hpy.
  destruct (rate_at_ok x y) as (r00 & -> & H00); [lia..|]. destruct (rate_at_ok x (y + 1)) as (r01 & -> & H01); [lia..|].
  destruct (rate_at_ok (x + 1) y) as (r10 & -> & H10); [lia..|].
  destruct (rate_at_ok (x + 1) (y + 1)) as (r11 & -> & H11); [lia..|]. cbn.
  eexists. split; [|done]. apply interpolate_rate; [done|apply interpolate_rate; done..].
Qed.

(** What can be asked for *)
Definition fee_defined (remain available request : Z) : bool :=
  (0 <? remain) && (remain <=? DIV) && (0 <? request) && (request <=? available).

(** C40: the fee is defined exactly when something is asked for, no more than is
    available, and some but not more than all of the buffer remains; then the
    matrix is indexed within its bounds and the fee is at most what is available. *)
Theorem curve_fee_bounded remain available request base :
  is_u128 remain -> is_u128 available -> is_u128 request ->
  if fee_defined remain available request
  then exists fee, curve_get_fee remain available request base = Ok fee /\ 0 <= fee <= available
  else curve_get_fee remain available request base = Err tt.
Proof.
  intros Hr Ha Hq. unfold curve_get_fee, fee_defined, fx_one.
  destruct (Z.eqb_spec remain 0), (Z.ltb_spec DIV remain), (Z.ltb_spec available request), (Z.eqb_spec request 0),
    (Z.ltb_spec 0 remain), (Z.leb_spec remain DIV), (Z.ltb_spec 0 request), (Z.leb_spec request available);
    cbn [andb orb]; try done; try (exfalso; unfold is_u128 in *; lia).
  assert (HD : DIV = 1000000000000000000) by done.
  pose proof (rate_le_one request available ltac:(lia) ltac:(unfold is_u128 in *; lia)) as Hd.
  rewrite !times_ten by (done || uarith). rewrite saturating_sub_exact by lia.
  set (x := 10 * (DIV - remain)). set (y := 10 * saturating_from_rational request available) in *.
  assert (Hxy : is_u128 x /\ is_u128 y) by (unfold x, y; uarith). destruct Hxy.
  rewrite (frac_law x), (frac_law y) by done.
  pose proof (Z.mod_pos_bound x DIV ltac:(lia)) as Hpx. pose proof (Z.mod_pos_bound y DIV ltac:(lia)) as Hpy.
  assert (Hx0 : 0 <= x / DIV <= 9) by (split; [apply Z.div_pos; lia|apply Z.lt_succ_r, Z.div_lt_upper_bound; lia]).
  assert (Hy0 : 0 <= y / DIV <= 10) by (split; [apply Z.div_pos; lia|apply Z.lt_succ_r, Z.div_lt_upper_bound; lia]).
  match goal with |- exists fee, (multiplier ← ?M; _) = _ /\ _ => assert (Hm : exists m, 0 <= m <= DIV /\ M = Ok m) end.
  { destruct ((x mod DIV =? 0) && (y mod DIV =? 0)).
    { destruct (rate_at_ok (Z.to_nat (x / DIV)) (Z.to_nat (y / DIV))) as (r & E & Hrr); [lia..|]. by exists r. }
    destruct (Nat.eqb_spec (Z.to_nat (y / DIV)) 10) as [E10|Hne].
    - assert (Ey : y mod DIV = 0) by (pose proof (Z.div_mod y DIV); unfold y in *; lia).
      rewrite Ey. pose proof (rate_le_one 10 100 ltac:(lia) ltac:(uarith)).
      apply interpolated; [lia..|uarith].
    - apply interpolated; lia. }
  destruct Hm as (m & Hm & ->). cbn.
  assert (Hmu : is_u128 m) by uarith.
  destruct (checked_mul_int m available) as [fee|] eqn:E; cbn.
  - exists fee. split; [done|]. split; [by apply cmi_Some in E as [[] _]|]. apply (cmi_le_one m available); done || lia.
  - exfalso. apply cmi_None in E; [|done..]. unfold is_u128 in Ha. unfold U128_MAX in *. nia.
Qed.
End Theorems.
