(* ===== verification/StakingSample.v ===== *)
(** * A staking pool on the simulated relay chain

    The pool over the simulator of [PolkadotBridge.v] with the fee model of
    [FeeModel.v], and the theorems of the pool, the bridge and the fee model at
    concrete inputs: a history over four eras. *)
From stdpp Require Import relations.
From S2P Require Import Prelude FixedPoint Primitives Runtime Sample Support PolkadotBridge FeeModel.
From S2P Require Import StakingPool StakingSpecs StakingSafety.

#[local] Existing Instance sample_fixed.
#[local] Existing Instance sample_fixed_laws.
#[local] Existing Instance sample.
#[local] Existing Instance sample_laws.

#[local] Instance sample_sim : SimConfig := {|
  SimBondingDuration := 2; EraLength := 10; MaxUnbonding := 4 |}.
#[local] Instance sample_sim_laws : SimLaws.
Proof. by split. Qed.

#[local] Instance sample_fee : FeeMath := {
  saturating_from_rational n d := default U128_MAX (checked_from_rational n d);
  fx_frac x := x mod DIV }.
#[local] Instance sample_fee_laws : FeeMathLaws.
Proof. split; [exact _|done|done]. Qed.

#[local] Instance sample_pool : PoolConfig := {
  get_fee p a d r := ok (curve_get_fee p a d r);
  sp_reciprocal r := if r =? 0 then None else Some (Z.max 0 (Z.min U128_MAX (DIV * DIV / r)));
  DefaultExchangeRate := DIV / 10;
  PoolAccountIndexes := [0; 1];
  PoolUpdateOrigin o := match o with Root => true | _ => false end;
  pool_account_id := 1008%N;
  storage_order A l := l }.
#[local] Instance sample_pool_laws : PoolLaws.
Proof.
  split; try exact _.
  - intros p a d r fee Hp Ha Hd Hfee. cbn in Hfee. pose proof (curve_fee_bounded p a d r Hp Ha Hd) as Hb.
    destruct (fee_defined p a d); [destruct Hb as (fee' & E & Hf)|rename Hb into E]; rewrite E in Hfee; [|done].
    injection Hfee as <-. unfold is_u128 in *. lia.
  - intros r q. cbn. destruct (Z.eqb_spec r 0); [done|]. intros [= <-]. uarith.
  - by split.
  - done.
Defined.

(** ** A history

    The pool bonds what alice minted; her redemption of 60 LDOT waits for the era
    that follows, unbonds for two eras and is due in the fourth. *)
Definition pool_genesis : PoolSt :=
  mkPool 0 ∅ ∅ ∅ (mkPoolLedger 0 0 0 (0, 0)) Started (mkParams (DIV / 10) (DIV / 20) (DIV / 50) (DIV / 100) 0)
    (l_of_list [(Token DOT, alice, 1000)]) (mkSim 0 0 None ∅) [].

Definition after_homa (c : HomaCall) (s : PoolSt) : PoolSt := (run_homa (Signed alice) c s).2.
Definition next_block (s : PoolSt) : PoolSt := (sp_rebalance [] s).2.
Definition relay_era (era : EraIndex) (s : PoolSt) : PoolSt :=
  put_outside (sp_ledger s, mkSim era 0 None (SubAccounts (sp_bridge s))) s.
Definition next_era (s : PoolSt) : PoolSt :=
  next_block (next_block (next_block (sp_on_new_era (CurrentEra s + 1) (relay_era (CurrentEra s + 1) s)).2)).
Definition pool_minted : PoolSt :=
  next_era (after_homa (Mint 500) (next_block (next_block (next_block pool_genesis)))).
Definition pool_redeemed : PoolSt :=
  next_era (next_era (next_era (after_homa (Redeem 600 WaitForUnbonding) pool_minted))).

Definition reached (s : PoolSt) : Prop := pool_inv s /\ rtc pool_step pool_genesis s.
Lemma reached_step s t : reached s -> pool_step s t -> reached t.
Proof. intros [Hs Hr] Hst. split; [by eapply pool_step_inv|by eapply rtc_r]. Qed.
Lemma sample_status_ok i : status_ok (sub_account i (sp_bridge pool_genesis)).
Proof. split; [by split|by split|by intros ev []%elem_of_nil|done|by split]. Qed.
Lemma reached_genesis : reached pool_genesis.
Proof.
  split; [|apply rtc_refl].
  split; cbn; try done; try (by intros ? ? ?); try (by intros ? ? []).
  { intros i. apply sample_status_ok. }
  by intros e [r Hr].
Qed.
Lemma reached_homa c s : reached s -> is_u128 (homa_amount c) -> reached (after_homa c s).
Proof.
  intros Hs Hn. apply (reached_step s); [done|].
  apply (step_homa (Signed alice) c s (run_homa (Signed alice) c s).1); [|done|apply surjective_pairing].
  by intros who [= <-].
Qed.
Lemma reached_block s : reached s -> returns_cover s -> reached (next_block s).
Proof.
  intros Hs Hc. apply (reached_step s); [done|].
  exact (step_rebalance [] s _ _ Hc (surjective_pairing _)).
Qed.
Lemma reached_era s : reached s -> CurrentEra s < 100 -> reached (sp_on_new_era (CurrentEra s + 1) (relay_era (CurrentEra s + 1) s)).2.
Proof.
  intros Hs He. apply (reached_step (relay_era (CurrentEra s + 1) s)).
  - apply (reached_step s); [done|]. apply step_around; [done| |done]. apply (pi_bridge _ (proj1 Hs)).
  - refine (step_new_era (CurrentEra s + 1) _ _ _ _ _ (surjective_pairing _)); cbn; uarith.
Qed.
(** Only the second block of an era looks at what returned. *)
Lemma reached_next_era s : reached s -> CurrentEra s < 100 ->
  let s1 := (sp_on_new_era (CurrentEra s + 1) (relay_era (CurrentEra s + 1) s)).2 in
  RebalancePhase (next_block (next_block s1)) <> RelaychainUpdated ->
  expired_claims (next_block s1) <= relaychain_free_balance (next_block s1) -> reached (next_era s).
Proof.
  intros Hs He s1 Hph Hret. unfold next_era. fold s1.
  apply reached_block; [|by intros ?]. apply reached_block; [|by intros _].
  apply reached_block; [by apply reached_era|]. by intros ?.
Qed.

Lemma reached_minted : reached pool_minted.
Proof.
  unfold pool_minted. apply reached_next_era; [|vm_compute; reflexivity|vm_compute; discriminate|vm_compute; discriminate].
  apply reached_homa; [|by split].
  apply reached_block; [|vm_compute; discriminate]. apply reached_block; [|vm_compute; discriminate].
  apply reached_block; [apply reached_genesis|vm_compute; discriminate].
Qed.
Lemma reached_redeemed : reached pool_redeemed.
Proof.
  unfold pool_redeemed.
  do 3 (apply reached_next_era; [|vm_compute; reflexivity|vm_compute; discriminate|vm_compute; discriminate]).
  apply reached_homa; [apply reached_minted|by split].
Qed.

(** [pool_histories_solvent] at the end of the history: the redemption is covered and paid. *)
Example pool_histories_solvent_witness :
  redemptions_due pool_redeemed = 60 /\ pl_free_pool (StakingPoolLedger pool_redeemed) = 45 /\
  pool_balance pool_redeemed = 105 /\
  pl_free_pool (StakingPoolLedger pool_redeemed) + redemptions_due pool_redeemed <= pool_balance pool_redeemed + 0 /\
  sum_of snd (due_unbondings alice pool_redeemed) <= pool_balance pool_redeemed /\
  (run_homa (Signed alice) WithdrawRedemption pool_redeemed).1 = Ok tt.
Proof.
  destruct (pool_histories_solvent pool_genesis pool_redeemed (proj1 reached_genesis) (proj2 reached_redeemed))
    as (_ & Hsol & Hdue & _).
  assert (He : expired_claims pool_redeemed = 0) by (vm_compute; reflexivity).
  rewrite He in Hsol. split_and!; [vm_compute; reflexivity..|exact Hsol|exact (Hdue He alice)|vm_compute; reflexivity].
Defined.

(** [curve_fee_bounded] where 45% of the buffer is used.  Asking for all of what is available
    costs less than asking for 99% of it, and as much as asking for 91%: the last
    cell of the matrix is entered at a tenth of its width. *)
Example curve_fee_bounded_witness :
  (exists fee, curve_get_fee (DIV * 55 / 100) 1000000 990000 0 = Ok fee /\ 0 <= fee <= 1000000) /\
  curve_get_fee (DIV * 55 / 100) 1000000 990000 0 = Ok 671873 /\
  curve_get_fee (DIV * 55 / 100) 1000000 1000000 0 = Ok 592036 /\
  curve_get_fee (DIV * 55 / 100) 1000000 910000 0 = Ok 592036.
Proof.
  split; [|split_and!; vm_compute; reflexivity].
  exact (curve_fee_bounded (DIV * 55 / 100) 1000000 990000 0 ltac:(vm_compute; split; discriminate)
    ltac:(by split) ltac:(by split)).
Defined.

(** [bridge_conserves] when alice rebonds a part of the last of two chunks *)
Definition bridge_sample : Ledger * SimSt :=
  (l_of_list [(Token DOT, alice, 1000)],
   mkSim 7 0 None {[ 0 := mkSub 100 20 [(8, 30); (9, 40)] 0 ]}).
Example bridge_conserves_witness :
  let y := (run_bridge_call (Rebond 0 50) bridge_sample).2 in
  staking_total y = staking_total bridge_sample /\ staking_total bridge_sample = 1190 /\
  sub_account 0 y.2 = mkSub 150 20 [(8, 20)] 0.
Proof.
  assert (Hok : sim_ok bridge_sample.2).
  { intros i. unfold sub_account.
    change (SubAccounts bridge_sample.2) with (<[0 := mkSub 100 20 [(8, 30); (9, 40)] 0]> (∅ : gmap Z SubAccountStatus)).
    destruct (decide (i = 0)) as [-> |Hi].
    - rewrite lookup_insert_eq. split; [by split|by split| |done|by split].
      by intros ev [-> |[-> |[]%elem_of_nil]%elem_of_cons]%elem_of_cons.
    - rewrite lookup_insert_ne by done. apply (sample_status_ok 0). }
  pose proof (bridge_conserves (Rebond 0 50) bridge_sample ltac:(by split) Hok ltac:(vm_compute; discriminate)) as Hc.
  unfold wp in Hc. destruct (run_bridge_call (Rebond 0 50) bridge_sample) as [r y] eqn:E.
  assert (Hr : r = Ok tt) by (change r with (r, y).1; rewrite <- E; vm_compute; reflexivity).
  rewrite Hr in Hc. split; [apply (proj2 Hc)|]. split; [vm_compute; reflexivity|].
  change y with (r, y).2. rewrite <- E. vm_compute. reflexivity.
Defined.
