(* ===== verification/EvmAccounts.v ===== *)
(** * EVM accounts

    [modules/evm-accounts/src/lib.rs]: the two-way mapping between the accounts
    of the chain and the addresses of the EVM, and the trait [AddressMapping] of
    [modules/support/src/lib.rs] it implements.  An account is the number its 32
    bytes are, big-endian, an address the number of its 20 bytes. *)
From S2P Require Import Prelude Primitives Runtime Bytes.

(** ** The trait [AddressMapping] *)
Class AddressMapping (St : Type) := {
  get_account_id : EvmAddress -> St -> AccountId;
  get_evm_address : AccountId -> St -> option EvmAddress;
  get_or_create_evm_address : AccountId -> St -> EvmAddress * St;
  get_default_evm_address : AccountId -> EvmAddress;
  is_linked : AccountId -> EvmAddress -> St -> bool }.

(** ** What the pallet calls *)
Class EvmAccountsConfig := {
  (* [sp_io]: hashes of 32 bytes, and the 64 bytes of the key that signed *)
  blake2_256 : bytes -> bytes;
  keccak_256 : bytes -> bytes;
  secp256k1_ecdsa_recover : bytes -> bytes -> option bytes;
  (* [secp256k1]: keys, a signature of 64 bytes and its recovery id *)
  SecretKey : Type;
  PublicKey : Type;
  from_secret_key : SecretKey -> PublicKey;
  serialize : PublicKey -> bytes;
  secp256k1_sign : bytes -> SecretKey -> bytes * Z;
  (* accounts and balances; moving all of them may reap accounts *)
  ChainSt : Type;
  account_exists : AccountId -> ChainSt -> bool;
  transfer_all : AccountId -> AccountId -> ChainSt -> (ChainSt * list AccountId) + DispatchError }.

(** Lengths are those of the Rust array types; the key a signature recovers to is
    the one that signed; what is reaped is the account that was emptied. *)
Class EvmAccountsLaws `(EvmAccountsConfig) : Prop := {
  blake2_bytes bs : Forall is_u8 (blake2_256 bs) /\ length (blake2_256 bs) = 32%nat;
  keccak_bytes bs : Forall is_u8 (keccak_256 bs) /\ length (keccak_256 bs) = 32%nat;
  sign_length m k : length (secp256k1_sign m k).1 = 64%nat;
  serialize_length p : length (serialize p) = 65%nat;
  recover_sign m k :
    secp256k1_ecdsa_recover ((secp256k1_sign m k).1 ++ [(secp256k1_sign m k).2]) m =
    Some (drop 1 (serialize (from_secret_key k)));
  transfer_all_reaps from to c c' killed :
    transfer_all from to c = inl (c', killed) -> forall x, x ∈ killed -> x = from }.

(** ** Bytes *)
Definition account_bytes (a : AccountId) : bytes := to_be_bytes 32 (Z.of_N a).
(** [EvmAddress::from_slice], of 20 bytes *)
Definition address_from_slice (bs : bytes) : EvmAddress := Z.to_N (from_be_bytes bs).

(** Text as its ASCII codes *)
Definition ascii_bytes (s : string) : bytes :=
  (fun c => Z.of_N (Ascii.N_of_ascii c)) <$> String.list_ascii_of_string s.

Definition evm_prefix : bytes := ascii_bytes "evm:".

Definition push_nibble (n : Z) : Z := if n <? 10 then 48 + n else 97 - 10 + n.
Fixpoint to_ascii_hex (data : bytes) : bytes :=
  match data with
  | [] => []
  | b :: data => push_nibble (b / 16) :: push_nibble (b mod 16) :: to_ascii_hex data
  end.

(** [while l > 0 { rev.push(b'0' + l % 10); l /= 10 }]; twenty digits are enough
    for a machine word. *)
Fixpoint push_digits (fuel : nat) (l : Z) : bytes :=
  match fuel with
  | O => []
  | S fuel => if 0 <? l then 48 + l mod 10 :: push_digits fuel (l / 10) else []
  end.
Definition digits_fuel : nat := 20.

Definition ethereum_signable_message (what extra : bytes) : bytes :=
  let prefix := ascii_bytes "acala evm:" in
  let l := len prefix + len what + len extra in
  let digits := push_digits digits_fuel l in
  [25] ++ ascii_bytes "Ethereum Signed Message:" ++ [10] ++ rev digits ++ prefix ++ what ++ extra.

(** ** Storage *)
Inductive EvmAccountsEvent := ClaimAccount (who : AccountId) (a : EvmAddress).

Record EvmAccounts `{EvmAccountsConfig} := mkEvmAccounts {
  Accounts : gmap EvmAddress AccountId;
  EvmAddresses : gmap AccountId EvmAddress;
  ea_chain : ChainSt;
  ea_events : list EvmAccountsEvent }.

Section Pallet.
Context `{EvmAccountsConfig}.

Definition set_accounts (m : gmap EvmAddress AccountId) (s : EvmAccounts) : EvmAccounts :=
  mkEvmAccounts _ m (EvmAddresses s) (ea_chain s) (ea_events s).
Definition set_evm_addresses (m : gmap AccountId EvmAddress) (s : EvmAccounts) : EvmAccounts :=
  mkEvmAccounts _ (Accounts s) m (ea_chain s) (ea_events s).
Definition set_chain (c : ChainSt) (s : EvmAccounts) : EvmAccounts :=
  mkEvmAccounts _ (Accounts s) (EvmAddresses s) c (ea_events s).
Definition ea_deposit_event (e : EvmAccountsEvent) (s : EvmAccounts) : EvmAccounts :=
  mkEvmAccounts _ (Accounts s) (EvmAddresses s) (ea_chain s) (ea_events s ++ [e]).

(** ** Signatures *)
Definition eth_recover (s what extra : bytes) : option EvmAddress :=
  let msg := keccak_256 (ethereum_signable_message what extra) in
  key ← secp256k1_ecdsa_recover s msg;
  Some (address_from_slice (drop 12 (keccak_256 key))).
Definition eth_public (secret : SecretKey) : PublicKey := from_secret_key secret.
Definition eth_address (secret : SecretKey) : EvmAddress :=
  address_from_slice (drop 12 (keccak_256 (take 64 (drop 1 (serialize (eth_public secret)))))).
Definition eth_sign (secret : SecretKey) (what extra : bytes) : bytes :=
  let msg := keccak_256 (ethereum_signable_message (to_ascii_hex what) extra) in
  let (sig, recovery_id) := secp256k1_sign msg secret in
  sig ++ [recovery_id].

(** ** The mapping *)
Definition account_to_default_evm_address (account_id : AccountId) : EvmAddress :=
  address_from_slice (take 20 (blake2_256 (evm_prefix ++ account_bytes account_id))).

(** [data[0..4] = "evm:"; data[4..24] = address] *)
Definition padded_account (address : EvmAddress) : AccountId :=
  Z.to_N (from_be_bytes (evm_prefix ++ to_be_bytes 20 (Z.of_N address) ++ repeat 0 8)).

Definition ea_get_account_id (address : EvmAddress) (s : EvmAccounts) : AccountId :=
  match Accounts s !! address with
  | Some acc => acc
  | None => padded_account address
  end.

Definition underlying_evm_address (account_id : AccountId) : option EvmAddress :=
  let data := account_bytes account_id in
  if starts_with data evm_prefix then Some (address_from_slice (take 20 (drop 4 data))) else None.

Definition ea_get_evm_address (account_id : AccountId) (s : EvmAccounts) : option EvmAddress :=
  match EvmAddresses s !! account_id with
  | Some addr => Some addr
  | None => underlying_evm_address account_id
  end.

Definition ea_get_or_create_evm_address (account_id : AccountId) (s : EvmAccounts) :
    EvmAddress * EvmAccounts :=
  match ea_get_evm_address account_id s with
  | Some addr => (addr, s)
  | None =>
      let addr := account_to_default_evm_address account_id in
      let s := set_accounts (<[addr := account_id]> (Accounts s)) s in
      let s := set_evm_addresses (<[account_id := addr]> (EvmAddresses s)) s in
      (addr, s)
  end.

Definition ea_is_linked (account_id : AccountId) (evm : EvmAddress) (s : EvmAccounts) : bool :=
  bool_decide (ea_get_evm_address account_id s = Some evm)
  || (account_to_default_evm_address account_id =? evm)%N.

#[export] Instance evm_address_mapping : AddressMapping EvmAccounts := {
  get_account_id := ea_get_account_id;
  get_evm_address := ea_get_evm_address;
  get_or_create_evm_address := ea_get_or_create_evm_address;
  get_default_evm_address := account_to_default_evm_address;
  is_linked := ea_is_linked }.

(** [OnKilledAccount] *)
Definition on_killed_account (who : AccountId) (s : EvmAccounts) : EvmAccounts :=
  let s := set_accounts (delete (account_to_default_evm_address who) (Accounts s)) s in
  match EvmAddresses s !! who with
  | Some evm_addr =>
      let s := set_accounts (delete evm_addr (Accounts s)) s in
      set_evm_addresses (delete who (EvmAddresses s)) s
  | None => s
  end.

(** ** The extrinsics *)

(** [TransferAll::transfer_all], with the hook of what it reaps *)
Definition ea_transfer_all (from to : AccountId) : M DispatchError EvmAccounts unit := fun s =>
  match transfer_all from to (ea_chain s) with
  | inl (c, killed) => (Ok tt, foldl (fun s who => on_killed_account who s) (set_chain c s) killed)
  | inr e => (Err e, s)
  end.

Definition claim_account (origin : Origin) (eth_address : EvmAddress) (eth_signature : bytes) :
    M DispatchError EvmAccounts unit :=
  transactional (
    who ← ensure_signed origin;
    s ← gets id;
    ensure (negb (bool_decide (is_Some (EvmAddresses s !! who))))
      (EvmAccountsE EvmAccountsError.AccountIdHasMapped);;
    ensure (negb (bool_decide (is_Some (Accounts s !! eth_address))))
      (EvmAccountsE EvmAccountsError.EthAddressHasMapped);;
    address ← ok_or (eth_recover eth_signature (to_ascii_hex (account_bytes who)) [])
      (EvmAccountsE EvmAccountsError.BadSignature);
    ensure (eth_address =? address)%N (EvmAccountsE EvmAccountsError.InvalidSignature);;
    account_id ← gets (get_account_id eth_address);
    exists_ ← gets (fun s => account_exists account_id (ea_chain s));
    (if exists_ : bool then ea_transfer_all account_id who else mret tt);;
    modify (fun s => set_accounts (<[eth_address := who]> (Accounts s)) s);;
    modify (fun s => set_evm_addresses (<[who := eth_address]> (EvmAddresses s)) s);;
    modify (ea_deposit_event (ClaimAccount who eth_address))).

Definition claim_default_account (origin : Origin) : M DispatchError EvmAccounts unit :=
  who ← ensure_signed origin;
  s ← gets id;
  ensure (negb (bool_decide (is_Some (EvmAddresses s !! who))))
    (EvmAccountsE EvmAccountsError.AccountIdHasMapped);;
  let (eth_address, s) := get_or_create_evm_address who s in
  modify (fun _ => s);;
  modify (ea_deposit_event (ClaimAccount who eth_address)).

(** ** [StaticLookup] *)
Inductive MultiAddress :=
  | Id (a : AccountId)
  | Index (i : Z)
  | Raw (bs : bytes)
  | Address32 (bs : bytes)
  | Address20 (a : EvmAddress).

(** The error is [LookupError]. *)
Definition ea_lookup (a : MultiAddress) (s : EvmAccounts) : option AccountId :=
  match a with
  | Address20 i => Some (get_account_id i s)
  | _ => None
  end.
Definition ea_unlookup (a : AccountId) : MultiAddress := Id a.
End Pallet.

(** ** What the bytes are *)
Section ByteFacts.
Lemma push_nibble_inj m n : 0 <= m < 16 -> 0 <= n < 16 -> push_nibble m = push_nibble n -> m = n.
Proof. unfold push_nibble. intros. destruct (Z.ltb_spec m 10), (Z.ltb_spec n 10); lia. Qed.
Lemma to_ascii_hex_inj bs bs' :
  Forall is_u8 bs -> Forall is_u8 bs' -> to_ascii_hex bs = to_ascii_hex bs' -> bs = bs'.
Proof.
  intros Hbs. revert bs'. induction Hbs as [|b bs Hb _ IH]; intros bs' Hbs'; destruct Hbs' as [|b' bs' Hb' Hbs'];
    [done..|]. cbn [to_ascii_hex]. unfold is_u8 in *. intros [= Hhi Hlo Hr].
  apply push_nibble_inj in Hhi; [|split; [apply Z.div_pos|apply Z.div_lt_upper_bound]; lia..].
  apply push_nibble_inj in Hlo; [|apply Z.mod_pos_bound; lia..].
  f_equal; [|by apply IH]. rewrite (Z.div_mod b 16), (Z.div_mod b' 16) by lia. congruence.
Qed.
Lemma length_to_ascii_hex bs : length (to_ascii_hex bs) = (2 * length bs)%nat.
Proof. induction bs as [|b bs IH]; [done|]. cbn [to_ascii_hex length]. lia. Qed.

(** The decimal digits, the last one first, and the number they stand for *)
Definition decimal_value (digits : bytes) : Z := foldr (fun d acc => (d - 48) + 10 * acc) 0 digits.
Definition is_digit (d : Z) : Prop := 48 <= d <= 57.

Lemma push_digits_spec fuel l : 0 <= l < 10 ^ Z.of_nat fuel ->
  Forall is_digit (push_digits fuel l) /\ decimal_value (push_digits fuel l) = l /\
  (0 < l -> exists d, last (push_digits fuel l) = Some d /\ d <> 48).
Proof.
  revert l. induction fuel as [|fuel IH]; intros l Hl; cbn [push_digits].
  { change (10 ^ Z.of_nat 0) with 1 in Hl. split_and!; [constructor|cbn; lia|lia]. }
  rewrite Nat2Z.inj_succ, Z.pow_succ_r in Hl by lia.
  destruct (Z.ltb_spec 0 l) as [Hpos|Hz].
  2:{ split_and!; [constructor|cbn; lia|lia]. }
  pose proof (Z.mod_pos_bound l 10 ltac:(lia)). pose proof (Z.div_mod l 10 ltac:(lia)) as Hdm.
  destruct (IH (l / 10)) as (HF & Hv & Hlast).
  { split; [apply Z.div_pos; lia | apply Z.div_lt_upper_bound; lia]. }
  split_and!.
  - constructor; [unfold is_digit; lia | done].
  - unfold decimal_value in *. cbn [foldr]. rewrite Hv. lia.
  - intros _. rewrite last_cons. destruct (Z.eq_dec (l / 10) 0) as [Hq|Hq].
    + exists (48 + l mod 10). rewrite Hq. destruct fuel; cbn; (split; [done|lia]).
    + destruct Hlast as (d & -> & Hd); [|by exists d].
      assert (0 <= l / 10) by (apply Z.div_pos; lia). lia.
Qed.

Lemma account_bytes_inj a b : (a < 2 ^ 256)%N -> (b < 2 ^ 256)%N -> account_bytes a = account_bytes b -> a = b.
Proof.
  intros Ha Hb Hab. apply N2Z.inj, (to_be_inj 32); [| |exact Hab];
    change (256 ^ Z.of_nat 32) with (2 ^ 256); lia.
Qed.
Lemma address_from_be x : (x < 2 ^ 160)%N -> address_from_slice (to_be_bytes 20 (Z.of_N x)) = x.
Proof.
  intros Hx. unfold address_from_slice. rewrite from_to_be_small.
  - apply N2Z.id.
  - change (256 ^ Z.of_nat 20) with (2 ^ 160). lia.
Qed.
Lemma evm_prefix_length : length evm_prefix = 4%nat.
Proof. done. Qed.

Lemma padded_account_bytes e : account_bytes (padded_account e) = evm_prefix ++ to_be_bytes 20 (Z.of_N e) ++ repeat 0 8.
Proof.
  set (bs := evm_prefix ++ to_be_bytes 20 (Z.of_N e) ++ repeat 0 8).
  assert (Hu : Forall is_u8 bs).
  { unfold bs. rewrite !Forall_app. split_and!; [|apply to_be_u8|];
      vm_compute; repeat constructor; congruence. }
  assert (Hl : length bs = 32%nat) by (unfold bs; by rewrite !length_app, length_to_be).
  unfold account_bytes, padded_account. fold bs. pose proof (from_be_bound bs Hu).
  rewrite Z2N.id by lia. rewrite <- Hl. by apply to_from_be.
Qed.
Lemma underlying_padded e : (e < 2 ^ 160)%N -> underlying_evm_address (padded_account e) = Some e.
Proof.
  intros He. unfold underlying_evm_address. rewrite padded_account_bytes, starts_with_app. f_equal.
  change (drop 4 (evm_prefix ++ ?l)) with l.
  rewrite take_app_length' by (by rewrite length_to_be). by apply address_from_be.
Qed.

(** The message to sign names the account: no two accounts sign the same. *)
Lemma signable_message_inj a b : (a < 2 ^ 256)%N -> (b < 2 ^ 256)%N ->
  ethereum_signable_message (to_ascii_hex (account_bytes a)) [] =
  ethereum_signable_message (to_ascii_hex (account_bytes b)) [] -> a = b.
Proof.
  intros Ha Hb. unfold ethereum_signable_message. rewrite !app_nil_r.
  assert (Hl : forall x, len (to_ascii_hex (account_bytes x)) = 64).
  { intros x. unfold len, account_bytes. by rewrite length_to_ascii_hex, length_to_be. }
  rewrite !Hl. intros Heq. do 5 apply app_inv_head in Heq.
  apply account_bytes_inj; [done..|]. by apply to_ascii_hex_inj; [apply to_be_u8..|].
Qed.
End ByteFacts.

(** ** Signatures *)
Section Signatures.
Context `{EvmAccountsLaws}.

Lemma hash_address bs : Forall is_u8 bs -> length bs = 20%nat -> (address_from_slice bs < 2 ^ 160)%N.
Proof.
  intros Hu Hl. unfold address_from_slice. pose proof (from_be_bound bs Hu) as Hb.
  unfold len in Hb. rewrite Hl in Hb. change (256 ^ Z.of_nat 20) with (2 ^ 160) in Hb. lia.
Qed.
Lemma default_address_160 a : (account_to_default_evm_address a < 2 ^ 160)%N.
Proof.
  destruct (blake2_bytes (evm_prefix ++ account_bytes a)) as [Hu Hl].
  apply hash_address; [by apply Forall_take|]. rewrite length_take, Hl. done.
Qed.
Lemma recovered_address_160 sig what extra e : eth_recover sig what extra = Some e -> (e < 2 ^ 160)%N.
Proof.
  unfold eth_recover. destruct (secp256k1_ecdsa_recover _ _) as [key|]; [|done]. intros [= <-].
  destruct (keccak_bytes key) as [Hu Hl]. apply hash_address; [by apply Forall_drop|].
  by rewrite length_drop, Hl.
Qed.
Lemma eth_recover_sign k what extra :
  eth_recover (eth_sign k what extra) (to_ascii_hex what) extra = Some (eth_address k).
Proof.
  unfold eth_recover, eth_sign, eth_address, eth_public.
  set (msg := keccak_256 _). pose proof (recover_sign msg k) as Hr.
  destruct (secp256k1_sign msg k) as [sig id]. cbn [fst snd] in Hr. rewrite Hr. cbn.
  rewrite (take_ge (drop 1 _)); [done|]. rewrite length_drop, serialize_length. done.
Qed.
End Signatures.

(** ** Histories *)
Section Histories.
Context `{EvmAccountsLaws} (known : AccountId -> Prop).

(** An account someone holds the key of: not the padding of an address *)
Definition holds_key (a : AccountId) : Prop := known a /\ underlying_evm_address a = None.

(** The address was proved to be the account's. *)
Definition proved (a : AccountId) (e : EvmAddress) : Prop :=
  e = account_to_default_evm_address a \/
  exists sig, eth_recover sig (to_ascii_hex (account_bytes a)) [] = Some e.

Inductive ea_step (s : EvmAccounts) : EvmAccounts -> Prop :=
  | step_claim who e p sig s' : holds_key who -> p = padded_account e -> known p ->
      claim_account (Signed who) e sig s = (Ok tt, s') -> ea_step s s'
  | step_claim_default who s' : holds_key who ->
      claim_default_account (Signed who) s = (Ok tt, s') -> ea_step s s'
  | step_create a : known a -> ea_step s (get_or_create_evm_address a s).2
  | step_kill a : known a -> ea_step s (on_killed_account a s)
  | step_chain c : ea_step s (set_chain c s).

(** The hashes do not collide on the accounts that are in use. *)
Context (default_inj : forall a b, known a -> known b ->
  account_to_default_evm_address a = account_to_default_evm_address b -> a = b).
Context (no_default_key : forall a b sig, known a -> known b ->
  eth_recover sig (to_ascii_hex (account_bytes b)) [] <> Some (account_to_default_evm_address a)).

Record mapping_ok (s : EvmAccounts) : Prop := {
  mapping_inverse e a : Accounts s !! e = Some a <-> EvmAddresses s !! a = Some e;
  mapping_proved e a : Accounts s !! e = Some a -> holds_key a /\ proved a e }.

Lemma mapping_none s e : mapping_ok s -> Accounts s !! e = None <-> forall a, EvmAddresses s !! a <> Some e.
Proof.
  intros Hs. split.
  - intros He a Ha%(mapping_inverse _ Hs). congruence.
  - intros He. destruct (Accounts s !! e) as [a|] eqn:Ha; [|done].
    apply (mapping_inverse _ Hs) in Ha. by apply He in Ha.
Qed.

(** The default address of an account is bound to no other one. *)
Lemma default_bound s a b : mapping_ok s -> known a ->
  Accounts s !! account_to_default_evm_address a = Some b -> b = a.
Proof.
  intros Hs Ha Hb. destruct (mapping_proved _ Hs _ _ Hb) as [[Hk _] [Hd|[sig Hsig]]].
  - by apply default_inj.
  - by apply no_default_key in Hsig.
Qed.

(** Binding an unbound account to an unbound address *)
Lemma bind_ok s a e ch ev : mapping_ok s -> holds_key a -> proved a e ->
  EvmAddresses s !! a = None -> Accounts s !! e = None ->
  mapping_ok (mkEvmAccounts _ (<[e := a]> (Accounts s)) (<[a := e]> (EvmAddresses s)) ch ev).
Proof.
  intros Hs Ha Hp Hna Hne. pose proof (proj1 (mapping_none s e Hs) Hne) as Hno. constructor; cbn.
  - intros e' a'. rewrite !lookup_insert_Some, (mapping_inverse _ Hs). split.
    + intros [[<- <-]|[Hx Hy]]; [by left|]. right. split; [|done]. intros <-. congruence.
    + intros [[<- <-]|[Hx Hy]]; [by left|]. right. split; [|done]. intros <-. by apply Hno in Hy.
  - intros e' a'. rewrite lookup_insert_Some. intros [[<- <-]|[_ Hx]]; [done|].
    by apply (mapping_proved _ Hs).
Qed.

(** A killed account loses its address; nobody else does. *)
Lemma killed_lookup s a : mapping_ok s -> known a ->
  (forall e b, Accounts (on_killed_account a s) !! e = Some b <-> Accounts s !! e = Some b /\ b <> a) /\
  (forall e b, EvmAddresses (on_killed_account a s) !! b = Some e <-> EvmAddresses s !! b = Some e /\ b <> a).
Proof.
  intros Hs Ha. unfold on_killed_account. cbn.
  pose proof (fun b => default_bound s a b Hs Ha) as Hd.
  destruct (EvmAddresses s !! a) as [ea|] eqn:Hea; cbn; split; intros e b.
  - rewrite !lookup_delete_Some. split; [|intros [He Hb]].
    + intros (Hne & Hnd & He). split; [done|]. intros ->.
      apply (mapping_inverse _ Hs) in He. congruence.
    + split_and!; [..|done].
      * intros <-. apply (mapping_inverse _ Hs) in Hea. congruence.
      * intros <-. by apply Hd in He.
  - rewrite lookup_delete_Some. split; [intros []; auto|intros []; auto].
  - rewrite lookup_delete_Some. split; [|intros [He Hb]].
    + intros (Hnd & He). split; [done|]. intros ->.
      apply (mapping_inverse _ Hs) in He. congruence.
    + split; [|done]. intros <-. by apply Hd in He.
  - split; [|by intros []]. intros He. split; [done|]. intros ->. congruence.
Qed.
Lemma killed_ok s a : mapping_ok s -> known a -> mapping_ok (on_killed_account a s).
Proof.
  intros Hs Ha. destruct (killed_lookup s a Hs Ha) as [H1 H2]. constructor.
  - intros e b. by rewrite H1, H2, (mapping_inverse _ Hs).
  - intros e b [He _]%H1. by apply (mapping_proved _ Hs).
Qed.

Lemma padded_unbound s e : mapping_ok s -> (e < 2 ^ 160)%N -> EvmAddresses s !! padded_account e = None.
Proof.
  intros Hs He. destruct (EvmAddresses s !! _) as [e'|] eqn:Ha; [|done].
  apply (mapping_inverse _ Hs), (mapping_proved _ Hs) in Ha as [[_ Hu] _].
  by rewrite underlying_padded in Hu.
Qed.

(** Killing an account that is bound to nothing changes no binding. *)
Lemma kill_unbound s a : mapping_ok s -> known a -> EvmAddresses s !! a = None ->
  Accounts (on_killed_account a s) = Accounts s /\ EvmAddresses (on_killed_account a s) = EvmAddresses s.
Proof.
  intros Hs Hk Ha. unfold on_killed_account. cbn. rewrite Ha. cbn. split; [|done].
  apply delete_id. destruct (Accounts s !! _) as [b|] eqn:Hb; [|done].
  pose proof (default_bound s a b Hs Hk Hb) as ->. apply (mapping_inverse _ Hs) in Hb. congruence.
Qed.
Lemma transfer_all_keeps s s' from to : mapping_ok s -> known from -> EvmAddresses s !! from = None ->
  ea_transfer_all from to s = (Ok tt, s') -> Accounts s' = Accounts s /\ EvmAddresses s' = EvmAddresses s.
Proof.
  intros Hs Hk Ha. unfold ea_transfer_all. destruct (transfer_all _ _ _) as [[c killed]|] eqn:Ht; [|done].
  intros [= <-]. pose proof (transfer_all_reaps _ _ _ _ _ Ht) as Hr. clear Ht.
  assert (Hall : forall t, Accounts t = Accounts s -> EvmAddresses t = EvmAddresses s ->
    Accounts (foldl (fun s who => on_killed_account who s) t killed) = Accounts s /\
    EvmAddresses (foldl (fun s who => on_killed_account who s) t killed) = EvmAddresses s);
    [|by apply Hall].
  induction killed as [|x killed IH]; intros t HA HE; [done|]. cbn [foldl].
  pose proof (Hr x ltac:(left)) as ->.
  assert (Ht : mapping_ok t).
  { constructor; intros; rewrite ?HA, ?HE in *; [by apply (mapping_inverse s Hs)|by apply (mapping_proved s Hs)]. }
  destruct (kill_unbound t from Ht Hk ltac:(congruence)) as [H1 H2].
  apply IH; [intros y Hy; apply Hr; by right|congruence..].
Qed.

(** What a claim that succeeds has checked and done *)
Lemma claim_account_inv who e sig s s' : mapping_ok s -> known (padded_account e) ->
  claim_account (Signed who) e sig s = (Ok tt, s') ->
  EvmAddresses s !! who = None /\ Accounts s !! e = None /\
  eth_recover sig (to_ascii_hex (account_bytes who)) [] = Some e /\
  exists ch ev, s' = mkEvmAccounts _ (<[e := who]> (Accounts s)) (<[who := e]> (EvmAddresses s)) ch ev.
Proof.
  intros Hs Hk Hc. unfold claim_account in Hc. apply (proj1 (transactional_Ok _ _ _ _)) in Hc.
  apply bind_Ok_inv in Hc as (w & t0 & Hw & Hc). injection Hw as <- <-.
  apply bind_Ok_inv in Hc as (u & t0 & Hu & Hc). injection Hu as <- <-.
  apply bind_Ok_inv in Hc as (u1 & t1 & He1 & Hc). apply ensure_Ok in He1 as [He1 ->].
  apply bind_Ok_inv in Hc as (u2 & t2 & He2 & Hc). apply ensure_Ok in He2 as [He2 ->].
  apply negb_true_iff, bool_decide_eq_false, eq_None_not_Some in He1, He2.
  apply bind_Ok_inv in Hc as (ad & t3 & Hr & Hc). apply ok_or_Ok in Hr as [Hr ->].
  apply bind_Ok_inv in Hc as (u4 & t4 & He3 & Hc). apply ensure_Ok in He3 as [He3 ->].
  apply N.eqb_eq in He3 as <-. cbn [id] in *.
  apply bind_Ok_inv in Hc as (p & t5 & Hp & Hc). injection Hp as <- <-.
  apply bind_Ok_inv in Hc as (b & t5 & Hb & Hc). injection Hb as <- <-.
  apply bind_Ok_inv in Hc as ([] & t6 & Ht & Hc). injection Hc as <-.
  split_and!; [done..|]. unfold get_account_id in Ht. cbn in Ht. unfold ea_get_account_id in Ht.
  rewrite He2 in Ht.
  enough (Accounts t6 = Accounts s /\ EvmAddresses t6 = EvmAddresses s) as [<- <-] by (eexists _, _; reflexivity).
  destruct (account_exists _ _); [|by injection Ht as ->].
  eapply transfer_all_keeps; [done| |by apply padded_unbound, (recovered_address_160 _ _ _ _ Hr)|done]. done.
Qed.

(** The default address is only generated where it is free. *)
Lemma create_inv s a : mapping_ok s -> known a ->
  (get_or_create_evm_address a s).2 = s \/
  (EvmAddresses s !! a = None /\ underlying_evm_address a = None /\
   Accounts s !! account_to_default_evm_address a = None /\
   (get_or_create_evm_address a s).2 =
     mkEvmAccounts _ (<[account_to_default_evm_address a := a]> (Accounts s))
       (<[a := account_to_default_evm_address a]> (EvmAddresses s)) (ea_chain s) (ea_events s)).
Proof.
  intros Hs Hk. cbn. unfold ea_get_or_create_evm_address, ea_get_evm_address.
  destruct (EvmAddresses s !! a) as [e|] eqn:Ha; [by left|].
  destruct (underlying_evm_address a) as [e|] eqn:Hu; [by left|]. right. split_and!; [done..| |done].
  destruct (Accounts s !! _) as [b|] eqn:Hb; [|done].
  pose proof (default_bound s a b Hs Hk Hb) as ->. apply (mapping_inverse _ Hs) in Hb. congruence.
Qed.

(** A step binds one free account to one free address, releases a killed account,
    or leaves the bindings alone. *)
Lemma ea_step_inv s s' : mapping_ok s -> ea_step s s' ->
  (Accounts s' = Accounts s /\ EvmAddresses s' = EvmAddresses s) \/
  (exists a e ch ev, EvmAddresses s !! a = None /\ Accounts s !! e = None /\ holds_key a /\ proved a e /\
     s' = mkEvmAccounts _ (<[e := a]> (Accounts s)) (<[a := e]> (EvmAddresses s)) ch ev) \/
  (exists a, known a /\ s' = on_killed_account a s).
Proof.
  intros Hs Hstep. destruct Hstep as [who e p sig s' Hw -> Hp Hc|who s' Hw Hc|a Ha|a Ha|c].
  - apply claim_account_inv in Hc as (Hnw & Hne & Hsig & ch & ev & ->); [|done..].
    right. left. exists who, e, ch, ev. split_and!; try done. right. by exists sig.
  - unfold claim_default_account in Hc.
    apply bind_Ok_inv in Hc as (w & t0 & Ht & Hc). injection Ht as <- <-.
    apply bind_Ok_inv in Hc as (u & t0 & Ht & Hc). injection Ht as <- <-.
    apply bind_Ok_inv in Hc as (u1 & t1 & Hb & Hc). apply ensure_Ok in Hb as [Hb ->].
    apply negb_true_iff, bool_decide_eq_false, eq_None_not_Some in Hb.
    pose proof (create_inv s who Hs (proj1 Hw)) as Hcr. cbn in Hcr. cbn in Hc.
    destruct (ea_get_or_create_evm_address who s) as [e t] eqn:Ht. cbn in Hc, Hcr. injection Hc as <-.
    destruct Hcr as [->|(_ & _ & Hne & ->)]; [by left|].
    right. left. eexists who, _, _, _. split_and!; try done. by left.
  - destruct (create_inv s a Hs Ha) as [->|(Hna & Hu & Hne & ->)]; [by left|].
    right. left. eexists a, _, _, _. split_and!; try done. by left.
  - right. right. by exists a.
  - by left.
Qed.
Lemma ea_step_ok s s' : mapping_ok s -> ea_step s s' -> mapping_ok s'.
Proof.
  intros Hs Hstep. destruct (ea_step_inv s s' Hs Hstep)
    as [[HA HE]|[(a & e & ch & ev & Ha & He & Hk & Hp & ->)|(a & Hk & ->)]].
  - constructor; intros e a; rewrite ?HA, ?HE; [by apply (mapping_inverse s Hs)|by apply (mapping_proved s Hs)].
  - by apply bind_ok.
  - by apply killed_ok.
Qed.
Lemma ea_steps_ok s s' : mapping_ok s -> rtc ea_step s s' -> mapping_ok s'.
Proof. intros Hs Hr. induction Hr as [|x y z Hxy _ IH]; [done|]. apply IH. by eapply ea_step_ok. Qed.

(** C13: after any history of claims, generated addresses and killed accounts,
    where hashes do not collide on the accounts in use, the two maps are inverse
    to each other; whoever is bound to an address owns it - it is the one
    generated for the account, or was claimed with a signature of its key; every
    address leads to an account that leads back to it, although a claim moves the
    address away from its padded account; and a binding lasts until its account
    is killed. *)
Theorem evm_mapping_histories (s0 s : EvmAccounts) :
  Accounts s0 = ∅ -> EvmAddresses s0 = ∅ -> rtc ea_step s0 s ->
  (forall e a, Accounts s !! e = Some a <-> EvmAddresses s !! a = Some e) /\
  (forall e a, Accounts s !! e = Some a -> proved a e) /\
  (forall e, (e < 2 ^ 160)%N -> get_evm_address (get_account_id e s) s = Some e) /\
  (forall e a s', Accounts s !! e = Some a -> ea_step s s' ->
     Accounts s' !! e = Some a \/ s' = on_killed_account a s /\ Accounts s' !! e = None).
Proof.
  intros HA HE Hr.
  assert (Hs : mapping_ok s).
  { eapply ea_steps_ok; [|exact Hr]. constructor; intros e a; rewrite HA, ?HE, ?lookup_empty; done. }
  split_and!.
  - intros. by apply mapping_inverse.
  - intros e a Ha. by apply (mapping_proved _ Hs).
  - intros e He. cbn. unfold ea_get_account_id, ea_get_evm_address.
    destruct (Accounts s !! e) as [a|] eqn:Ha.
    + apply (mapping_inverse _ Hs) in Ha. by rewrite Ha.
    + by rewrite padded_unbound, underlying_padded by done.
  - intros e a s' Ha Hstep. destruct (ea_step_inv s s' Hs Hstep)
      as [[HA' _]|[(b & e' & ch & ev & Hb & He' & _ & _ & ->)|(b & Hk & ->)]].
    + left. congruence.
    + left. cbn. rewrite lookup_insert_ne; [done|]. intros <-. congruence.
    + destruct (killed_lookup s b Hs Hk) as [Hl _]. destruct (decide (b = a)) as [->|Hne].
      * right. split; [done|]. destruct (Accounts (on_killed_account a s) !! e) as [x|] eqn:Hx; [|done].
        apply Hl in Hx as [Hx Hxa]. congruence.
      * left. apply Hl. auto.
Qed.

Lemma killed_rest killed s : let s' := foldl (fun s who => on_killed_account who s) s killed in
  ea_chain s' = ea_chain s /\ ea_events s' = ea_events s.
Proof.
  revert s. induction killed as [|x killed IH]; intros s; [done|]. cbn [foldl].
  destruct (IH (on_killed_account x s)) as [-> ->].
  unfold on_killed_account. cbn. by destruct (EvmAddresses s !! x).
Qed.

(** Moving the funds of the padded account, when there are any *)
Definition merged (who : AccountId) (e : EvmAddress) (s : EvmAccounts) (c : ChainSt) : Prop :=
  if account_exists (padded_account e) (ea_chain s)
  then exists killed, transfer_all (padded_account e) who (ea_chain s) = inl (c, killed)
  else c = ea_chain s.

Lemma merged_run who e s c : mapping_ok s -> known (padded_account e) -> (e < 2 ^ 160)%N ->
  merged who e s c -> exists t,
    (if account_exists (padded_account e) (ea_chain s)
     then ea_transfer_all (padded_account e) who else mret tt) s = (Ok tt, t) /\
    Accounts t = Accounts s /\ EvmAddresses t = EvmAddresses s /\ ea_chain t = c /\ ea_events t = ea_events s.
Proof.
  intros Hs Hk He Hm. unfold merged in Hm. destruct (account_exists _ _); [|by exists s].
  destruct Hm as [killed Hm]. destruct (killed_rest killed (set_chain c s)) as [Hc Hev].
  set (t := foldl _ _ _) in *. exists t.
  assert (Ht : ea_transfer_all (padded_account e) who s = (Ok tt, t))
    by (unfold ea_transfer_all; by rewrite Hm).
  split; [done|]. apply transfer_all_keeps in Ht as [-> ->]; auto using padded_unbound.
Qed.
Lemma claim_account_run who e sig s c : mapping_ok s -> known (padded_account e) ->
  EvmAddresses s !! who = None -> Accounts s !! e = None ->
  eth_recover sig (to_ascii_hex (account_bytes who)) [] = Some e -> merged who e s c ->
  claim_account (Signed who) e sig s =
    (Ok tt, mkEvmAccounts _ (<[e := who]> (Accounts s)) (<[who := e]> (EvmAddresses s)) c
              (ea_events s ++ [ClaimAccount who e])).
Proof.
  intros Hs Hk Hwho He Hsig Hm.
  destruct (merged_run who e s c Hs Hk (recovered_address_160 _ _ _ _ Hsig) Hm)
    as (t & Ht & HA & HE & Hc & Hev).
  unfold claim_account, transactional, mbind, M_bind, ensure_signed, gets, id.
  cbn [mret M_ret]. rewrite Hwho, He, Hsig.
  rewrite !bool_decide_false by (by intros []). cbn. rewrite N.eqb_refl. cbn.
  unfold ea_get_account_id. rewrite He, Ht. destruct t; cbn in *. by subst.
Qed.

(** An account can bind the address of a key by signing its own bytes with
    it - [eth_sign] and [eth_recover] agree - when neither is bound and moving
    the funds of the padded account succeeds; both directions of the mapping
    then lead to the other.  The signature is good for this account only: what
    another account would have to sign is another message. *)
Theorem claim_own_address (who : AccountId) (k : SecretKey) (s : EvmAccounts) (c : ChainSt)
    (e := eth_address k) :
  mapping_ok s -> known (padded_account e) ->
  EvmAddresses s !! who = None -> Accounts s !! e = None -> merged who e s c ->
  exists s',
    claim_account (Signed who) e (eth_sign k (account_bytes who) []) s = (Ok tt, s') /\
    ea_chain s' = c /\ ea_events s' = ea_events s ++ [ClaimAccount who e] /\
    get_evm_address who s' = Some e /\ get_account_id e s' = who /\
    is_linked who e s' = true /\ is_linked who (account_to_default_evm_address who) s' = true /\
    (forall a, (who < 2 ^ 256)%N -> (a < 2 ^ 256)%N -> a <> who ->
       ethereum_signable_message (to_ascii_hex (account_bytes a)) [] <>
       ethereum_signable_message (to_ascii_hex (account_bytes who)) []).
Proof.
  intros Hs Hk Hwho He Hm. eexists. split; [apply claim_account_run; try done; apply eth_recover_sign|].
  cbn. unfold ea_is_linked, ea_get_evm_address, ea_get_account_id. cbn. rewrite !lookup_insert_eq.
  split_and!; [done..|by rewrite bool_decide_true|by rewrite N.eqb_refl, orb_true_r|].
  intros a Hw Ha Hne Heq. by apply Hne, signable_message_inj.
Qed.
End Histories.

(** ** The message to sign *)
(** The length of the message to sign is its decimal representation. *)
Lemma message_length_decimal what extra : len what + len extra < 2 ^ 64 ->
  exists digits : bytes,
    ethereum_signable_message what extra =
      ([25] ++ ascii_bytes "Ethereum Signed Message:" ++ [10]) ++ rev digits ++
      ascii_bytes "acala evm:" ++ what ++ extra /\
    Forall is_digit digits /\ decimal_value digits = len (ascii_bytes "acala evm:" ++ what ++ extra) /\
    exists d, last digits = Some d /\ d <> 48.
Proof.
  intros Hl. set (l := len (ascii_bytes "acala evm:") + len what + len extra).
  assert (Hlen : 10 <= l < 10 ^ Z.of_nat digits_fuel).
  { unfold l. pose proof (Nat2Z.is_nonneg (length what)). pose proof (Nat2Z.is_nonneg (length extra)).
    change (len (ascii_bytes _)) with 10. unfold len in *. change (10 ^ _) with 100000000000000000000. lia. }
  destruct (push_digits_spec digits_fuel l ltac:(lia)) as (HF & Hv & Hd).
  exists (push_digits digits_fuel l). split_and!; [done|done| |apply Hd; lia].
  rewrite Hv, !len_app. unfold l. lia.
Qed.
