(* ===== verification/EvmAccountsSample.v ===== *)
(** * Two keys and toy hashes

    An instance of the EVM accounts pallet the witnesses run: hashes that keep the
    last bytes, signatures that name the message and the key, and balances
    without fees. *)
From S2P Require Import Prelude Primitives Runtime Bytes EvmAccounts.

Definition fit (n : nat) (bs : bytes) : bytes := take n (((fun b => b mod 256) <$> bs) ++ repeat 0 n).
Lemma fit_bytes n bs : Forall is_u8 (fit n bs) /\ length (fit n bs) = n.
Proof.
  unfold fit. split.
  - apply Forall_take, Forall_app. split; [|apply Forall_forall; intros x Hx].
    + apply Forall_fmap, Forall_true. intros b. unfold compose, is_u8. apply Z.mod_pos_bound. lia.
    + apply list_elem_of_In, repeat_spec in Hx as ->. unfold is_u8. lia.
  - rewrite length_take, length_app, length_fmap, repeat_length. lia.
Qed.
Definition key_bytes (k : bool) : bytes := repeat (if k then 17 else 34) 64.
Definition toy_sign (m : bytes) (k : bool) : bytes * Z := (fit 32 m ++ repeat (if k then 1 else 2) 32, 0).
Definition toy_recover (sig m : bytes) : option bytes :=
  if bool_decide (sig = (toy_sign m true).1 ++ [0]) then Some (key_bytes true) else
  if bool_decide (sig = (toy_sign m false).1 ++ [0]) then Some (key_bytes false) else None.
Definition toy_transfer_all (from to : AccountId) (c : gmap AccountId Z) :
    (gmap AccountId Z * list AccountId) + DispatchError :=
  inl (<[to := default 0 (c !! to) + default 0 (c !! from)]> (delete from c), [from]).

#[local] Instance toy : EvmAccountsConfig := {
  blake2_256 bs := fit 32 (rev bs);
  keccak_256 bs := rev (fit 32 (rev bs));
  secp256k1_ecdsa_recover := toy_recover;
  SecretKey := bool;
  PublicKey := bool;
  from_secret_key k := k;
  serialize k := 4 :: key_bytes k;
  secp256k1_sign := toy_sign;
  ChainSt := gmap AccountId Z;
  account_exists a c := bool_decide (is_Some (c !! a));
  transfer_all := toy_transfer_all }.
#[local] Instance toy_laws : EvmAccountsLaws toy.
Proof.
  constructor; cbn.
  - intros. apply fit_bytes.
  - intros bs. rewrite length_rev. destruct (fit_bytes 32 (rev bs)) as [Hu Hl].
    split; [|done]. by apply Forall_rev.
  - intros m k. destruct (fit_bytes 32 m) as [_ Hl]. rewrite length_app, Hl. by destruct k.
  - intros []; done.
  - intros m k. unfold toy_recover. destruct k; [by rewrite bool_decide_true|].
    rewrite bool_decide_false, bool_decide_true; [done|done|].
    intros Heq. unfold toy_sign in Heq. cbn [fst] in Heq. rewrite <- !app_assoc in Heq.
    by apply app_inv_head in Heq.
  - unfold toy_transfer_all. intros from to c c' killed [= <- <-] x Hx. by apply list_elem_of_singleton in Hx.
Defined.

(** Two accounts, the padded accounts of the two keys, and a third with funds *)
Definition in_use : list AccountId :=
  Eval vm_compute in [1; 2; padded_account (eth_address true); padded_account (eth_address false)]%N.
Definition toy_known (a : AccountId) : Prop := a ∈ in_use.
Definition start : EvmAccounts :=
  mkEvmAccounts _ ∅ ∅ (<[padded_account (eth_address true) := 70]> (<[1%N := 30]> ∅)) [].

Lemma toy_default_inj a b : toy_known a -> toy_known b ->
  account_to_default_evm_address a = account_to_default_evm_address b -> a = b.
Proof.
  intros Ha Hb Hab. apply list_elem_of_lookup in Ha as [i Ha], Hb as [j Hb].
  assert (Hd : NoDup (account_to_default_evm_address <$> in_use))
    by (apply (bool_decide_unpack _); vm_compute; exact I).
  enough (i = j) as -> by congruence.
  eapply (NoDup_lookup _ i j); [exact Hd| |]; rewrite list_lookup_fmap; [by rewrite Ha|rewrite Hb; exact (f_equal Some (eq_sym Hab))].
Qed.
Lemma toy_no_default_key a b sig : toy_known a -> toy_known b ->
  eth_recover sig (to_ascii_hex (account_bytes b)) [] <> Some (account_to_default_evm_address a).
Proof.
  intros Ha _ Hr. assert (Hin : account_to_default_evm_address a ∈ (account_to_default_evm_address <$> in_use))
    by (apply list_elem_of_fmap; by exists a).
  assert (Hnot : (eth_address true ∉ (account_to_default_evm_address <$> in_use)) /\
                 (eth_address false ∉ (account_to_default_evm_address <$> in_use)))
    by (split; apply (bool_decide_unpack _); vm_compute; exact I).
  assert (He : account_to_default_evm_address a = eth_address true \/
               account_to_default_evm_address a = eth_address false).
  { unfold eth_recover in Hr. change secp256k1_ecdsa_recover with toy_recover in Hr. unfold toy_recover in Hr.
    repeat case_bool_decide; [left|right|done]; injection Hr as Hr; rewrite <- Hr; vm_compute; reflexivity. }
  destruct He as [He|He]; rewrite He in Hin; tauto.
Qed.

(** Account 1 claims the address of the first key and gets its funds; account 2
    takes a generated address. *)
Definition address : EvmAddress := eth_address true.
Definition signature : bytes := eth_sign true (account_bytes 1%N) [].
Definition claimed : EvmAccounts :=
  (claim_account (Signed 1%N) address signature start).2.
Definition generated : EvmAccounts := (get_or_create_evm_address 2%N claimed).2.

Lemma padded_in_use (k : bool) : toy_known (padded_account (eth_address k)).
Proof. unfold toy_known. destruct k; apply (bool_decide_unpack _); vm_compute; exact I. Qed.
Lemma start_ok : mapping_ok toy_known start.
Proof. constructor; cbn; intros e a; rewrite lookup_empty; done. Qed.
Lemma start_claimed : ea_step toy_known start claimed.
Proof.
  apply (step_claim toy_known start 1%N address (padded_account address) signature).
  - split; [apply (bool_decide_unpack _)|]; vm_compute; [exact I|reflexivity].
  - reflexivity.
  - apply padded_in_use.
  - apply run_split. vm_compute. reflexivity.
Qed.

(** A witness of [claim_own_address]: the funds of the padded account are merged. *)
Lemma claim_own_address_witness : exists s',
  claim_account (Signed 1%N) address signature start = (Ok tt, s') /\
  (ea_chain s' : gmap AccountId Z) !! 1%N = Some 100 /\ get_account_id address s' = 1%N.
Proof.
  destruct (claim_own_address toy_known toy_default_inj toy_no_default_key 1%N (true : @SecretKey toy) start
    (<[1%N := 100]> ∅) start_ok (padded_in_use true)) as (s' & Hc & Hch & _ & _ & Hg & _).
  - reflexivity.
  - reflexivity.
  - unfold merged. replace (account_exists _ _) with true by (vm_compute; reflexivity).
    exists [padded_account address]. vm_compute. reflexivity.
  - exists s'. split; [exact Hc|]. split; [|exact Hg]. rewrite Hch. reflexivity.
Defined.

(** A witness of [evm_mapping_histories]: a claimed and a generated address *)
Lemma evm_mapping_histories_witness :
  rtc (ea_step toy_known) start generated /\
  EvmAddresses generated !! 1%N = Some address /\
  proved 2%N (account_to_default_evm_address 2%N) /\
  get_evm_address (get_account_id 5%N generated) generated = Some 5%N.
Proof.
  assert (Hr : rtc (ea_step toy_known) start generated).
  { eapply rtc_l; [exact start_claimed|]. apply rtc_once.
    apply step_create. apply (bool_decide_unpack _). vm_compute. exact I. }
  destruct (evm_mapping_histories toy_known toy_default_inj toy_no_default_key start generated
    eq_refl eq_refl Hr) as (Hinv & Hp & Hl & _).
  split; [exact Hr|]. split_and!.
  - apply (proj1 (Hinv address 1%N)). vm_compute. reflexivity.
  - apply (Hp (account_to_default_evm_address 2%N) 2%N). vm_compute. reflexivity.
  - apply (Hl 5%N). reflexivity.
Defined.
