(* ===== verification/Currencies.v ===== *)
(** * Currencies

    [modules/currencies/src/lib.rs]: one interface for the native currency of
    the balances pallet, the tokens of the tokens pallet and ERC-20 contracts.
    The traits of [orml_traits] and [frame_support] are classes over the state of
    the chain; what the pallet offers is an instance of the class it dispatches
    to, as in the code. *)
From S2P Require Import Prelude Primitives Runtime Bytes EvmBridge EvmAccounts.

(** ** The traits *)
Abbreviation LockIdentifier := Z.
Inductive BalanceStatus := Free | Reserved.

#[local] Abbreviation C := (M DispatchError).

(** [BasicCurrencyExtended], [BasicLockableCurrency], [BasicReservableCurrency] *)
Class BasicCurrency (St : Type) := {
  bc_minimum_balance : Balance;
  bc_total_issuance : C St Balance;
  bc_total_balance : AccountId -> C St Balance;
  bc_free_balance : AccountId -> C St Balance;
  bc_ensure_can_withdraw : AccountId -> Balance -> C St unit;
  bc_transfer : AccountId -> AccountId -> Balance -> C St unit;
  bc_deposit : AccountId -> Balance -> C St unit;
  bc_withdraw : AccountId -> Balance -> C St unit;
  bc_can_slash : AccountId -> Balance -> C St bool;
  bc_slash : AccountId -> Balance -> C St Balance;
  bc_update_balance : AccountId -> Amount -> C St unit;
  bc_set_lock : LockIdentifier -> AccountId -> Balance -> C St unit;
  bc_extend_lock : LockIdentifier -> AccountId -> Balance -> C St unit;
  bc_remove_lock : LockIdentifier -> AccountId -> C St unit;
  bc_can_reserve : AccountId -> Balance -> C St bool;
  bc_slash_reserved : AccountId -> Balance -> C St Balance;
  bc_reserved_balance : AccountId -> C St Balance;
  bc_reserve : AccountId -> Balance -> C St unit;
  bc_unreserve : AccountId -> Balance -> C St Balance;
  bc_repatriate_reserved : AccountId -> AccountId -> Balance -> BalanceStatus -> C St Balance }.

(** [MultiCurrencyExtended], [MultiLockableCurrency], [MultiReservableCurrency] *)
Class MultiCurrency (St : Type) := {
  mc_minimum_balance : CurrencyId -> Balance;
  mc_total_issuance : CurrencyId -> C St Balance;
  mc_total_balance : CurrencyId -> AccountId -> C St Balance;
  mc_free_balance : CurrencyId -> AccountId -> C St Balance;
  mc_ensure_can_withdraw : CurrencyId -> AccountId -> Balance -> C St unit;
  mc_transfer : CurrencyId -> AccountId -> AccountId -> Balance -> C St unit;
  mc_deposit : CurrencyId -> AccountId -> Balance -> C St unit;
  mc_withdraw : CurrencyId -> AccountId -> Balance -> C St unit;
  mc_can_slash : CurrencyId -> AccountId -> Balance -> C St bool;
  mc_slash : CurrencyId -> AccountId -> Balance -> C St Balance;
  mc_update_balance : CurrencyId -> AccountId -> Amount -> C St unit;
  mc_set_lock : LockIdentifier -> CurrencyId -> AccountId -> Balance -> C St unit;
  mc_extend_lock : LockIdentifier -> CurrencyId -> AccountId -> Balance -> C St unit;
  mc_remove_lock : LockIdentifier -> CurrencyId -> AccountId -> C St unit;
  mc_can_reserve : CurrencyId -> AccountId -> Balance -> C St bool;
  mc_slash_reserved : CurrencyId -> AccountId -> Balance -> C St Balance;
  mc_reserved_balance : CurrencyId -> AccountId -> C St Balance;
  mc_reserve : CurrencyId -> AccountId -> Balance -> C St unit;
  mc_unreserve : CurrencyId -> AccountId -> Balance -> C St Balance;
  mc_repatriate_reserved : CurrencyId -> AccountId -> AccountId -> Balance -> BalanceStatus -> C St Balance }.

(** [TransferAll] *)
Class TransferAll (St : Type) := { ta_transfer_all : AccountId -> AccountId -> C St unit }.

(** [frame_support]: [Currency], [LockableCurrency], [ReservableCurrency]; a call
    that returns an imbalance is the call with the imbalance dropped, and
    [slash] the part that could not be slashed. *)
Inductive ExistenceRequirement := KeepAlive | AllowDeath.
Abbreviation WithdrawReasons := Z.
Definition WithdrawReasons_all : WithdrawReasons := 31.

Class PalletCurrency (St : Type) := {
  pc_minimum_balance : Balance;
  pc_total_issuance : C St Balance;
  pc_total_balance : AccountId -> C St Balance;
  pc_free_balance : AccountId -> C St Balance;
  pc_ensure_can_withdraw : AccountId -> Balance -> WithdrawReasons -> Balance -> C St unit;
  pc_transfer : AccountId -> AccountId -> Balance -> ExistenceRequirement -> C St unit;
  pc_deposit_creating : AccountId -> Balance -> C St unit;
  pc_withdraw : AccountId -> Balance -> WithdrawReasons -> ExistenceRequirement -> C St unit;
  pc_can_slash : AccountId -> Balance -> C St bool;
  pc_slash : AccountId -> Balance -> C St Balance;
  pc_set_lock : LockIdentifier -> AccountId -> Balance -> WithdrawReasons -> C St unit;
  pc_extend_lock : LockIdentifier -> AccountId -> Balance -> WithdrawReasons -> C St unit;
  pc_remove_lock : LockIdentifier -> AccountId -> C St unit;
  pc_can_reserve : AccountId -> Balance -> C St bool;
  pc_slash_reserved : AccountId -> Balance -> C St Balance;
  pc_reserved_balance : AccountId -> C St Balance;
  pc_reserve : AccountId -> Balance -> C St unit;
  pc_unreserve : AccountId -> Balance -> C St Balance;
  pc_repatriate_reserved : AccountId -> AccountId -> Balance -> BalanceStatus -> C St Balance }.

(** ** The pallet *)
Inductive CurrenciesEvent :=
  | Transferred (c : CurrencyId) (from to : AccountId) (amount : Balance)
  | BalanceUpdated (c : CurrencyId) (who : AccountId) (amount : Amount)
  | Deposited (c : CurrencyId) (who : AccountId) (amount : Balance)
  | Withdrawn (c : CurrencyId) (who : AccountId) (amount : Balance).

Class CurrenciesConfig (St : Type) := {
  tokens :: MultiCurrency St;
  tokens_all :: TransferAll St;
  native :: BasicCurrency St;
  cur_mapping :: AddressMapping St;
  cur_bridge :: EVMBridge St;
  GetNativeCurrencyId : CurrencyId;
  cur_lookup : MultiAddress -> St -> option AccountId;
  cur_blake2_256 : bytes -> bytes;
  deposit_currency_event : CurrenciesEvent -> St -> St }.

Section Pallet.
Context {St : Type} `{CurrenciesConfig St}.

(** [match currency_id { Erc20(contract) => .., id if id == native => .., _ => .. }] *)
Definition on_currency {A} (c : CurrencyId) (erc20 : EvmAddress -> A) (native_ other : A) : A :=
  match c with
  | Erc20 contract => erc20 contract
  | _ => if decide (c = GetNativeCurrencyId) then native_ else other
  end.

(** [.unwrap_or_default()] on a balance *)
Definition unwrap_or_default (m : M DispatchError St Balance) : M DispatchError St Balance :=
  r ← attempt m;
  mret (match r with inl v => v | inr _ => 0 end).

(** A context that only reads *)
Definition view_context (contract : EvmAddress) : InvokeContext := mkInvokeContext contract 0%N 0%N.

Definition reserve_address (address : EvmAddress) : EvmAddress :=
  address_from_slice (take 20 (cur_blake2_256 (ascii_bytes "erc20:" ++ to_be_bytes 20 (Z.of_N address)))).

Definition currency_event (e : CurrenciesEvent) : M DispatchError St unit :=
  modify (deposit_currency_event e).

Definition on_currency_err {A} (e : DispatchError) (c : CurrencyId) (native_ other : M DispatchError St A) :
    M DispatchError St A :=
  on_currency c (fun _ => throw e) native_ other.
Abbreviation invalid_erc20 := (on_currency_err (CurrenciesE CurrenciesError.Erc20InvalidOperation)).

(** *** [MultiCurrency] *)
Definition cu_minimum_balance (currency_id : CurrencyId) : Balance :=
  on_currency currency_id (fun _ => 0) bc_minimum_balance (mc_minimum_balance currency_id).

Definition cu_total_issuance (currency_id : CurrencyId) : M DispatchError St Balance :=
  on_currency currency_id
    (fun contract => unwrap_or_default (eb_total_supply (view_context contract)))
    bc_total_issuance (mc_total_issuance currency_id).

Definition cu_total_balance (currency_id : CurrencyId) (who : AccountId) : M DispatchError St Balance :=
  on_currency currency_id
    (fun contract =>
       maybe_address ← gets (get_evm_address who);
       match maybe_address with
       | Some address => unwrap_or_default (eb_balance_of (view_context contract) address)
       | None => mret 0
       end)
    (bc_total_balance who) (mc_total_balance currency_id who).

Definition cu_free_balance (currency_id : CurrencyId) (who : AccountId) : M DispatchError St Balance :=
  on_currency currency_id
    (fun contract =>
       maybe_address ← gets (get_evm_address who);
       match maybe_address with
       | Some address => unwrap_or_default (eb_balance_of (view_context contract) address)
       | None => mret 0
       end)
    (bc_free_balance who) (mc_free_balance currency_id who).

Definition cu_ensure_can_withdraw (currency_id : CurrencyId) (who : AccountId) (amount : Balance) :
    M DispatchError St unit :=
  on_currency currency_id
    (fun contract =>
       maybe_address ← gets (get_evm_address who);
       address ← ok_or maybe_address (CurrenciesE CurrenciesError.EvmAccountNotFound);
       balance ← unwrap_or_default (eb_balance_of (view_context contract) address);
       ensure (amount <=? balance) (CurrenciesE CurrenciesError.BalanceTooLow))
    (bc_ensure_can_withdraw who amount) (mc_ensure_can_withdraw currency_id who amount).

(** [AddressMapping::get_or_create_evm_address] in the state of the chain *)
Definition get_or_create (who : AccountId) : M DispatchError St EvmAddress :=
  fun s => let (e, s') := get_or_create_evm_address who s in (Ok e, s').

Definition cu_transfer (currency_id : CurrencyId) (from to : AccountId) (amount : Balance) :
    M DispatchError St unit :=
  if (amount =? 0) || (from =? to)%N then mret tt else
  on_currency currency_id
    (fun contract =>
       maybe_sender ← gets (get_evm_address from);
       sender ← ok_or maybe_sender (CurrenciesE CurrenciesError.EvmAccountNotFound);
       origin ← gets (fun s => default 0%N (eb_get_origin s));
       origin_address ← get_or_create origin;
       address ← get_or_create to;
       eb_transfer (mkInvokeContext contract sender origin_address) address amount)
    (bc_transfer from to amount) (mc_transfer currency_id from to amount);;
  currency_event (Transferred currency_id from to amount).

Definition cu_deposit (currency_id : CurrencyId) (who : AccountId) (amount : Balance) :
    M DispatchError St unit :=
  if amount =? 0 then mret tt else
  invalid_erc20 currency_id (bc_deposit who amount) (mc_deposit currency_id who amount);;
  currency_event (Deposited currency_id who amount).

Definition cu_withdraw (currency_id : CurrencyId) (who : AccountId) (amount : Balance) :
    M DispatchError St unit :=
  if amount =? 0 then mret tt else
  invalid_erc20 currency_id (bc_withdraw who amount) (mc_withdraw currency_id who amount);;
  currency_event (Withdrawn currency_id who amount).

Definition cu_can_slash (currency_id : CurrencyId) (who : AccountId) (amount : Balance) :
    M DispatchError St bool :=
  on_currency currency_id (fun _ => mret false)
    (bc_can_slash who amount) (mc_can_slash currency_id who amount).

Definition cu_slash (currency_id : CurrencyId) (who : AccountId) (amount : Balance) :
    M DispatchError St Balance :=
  on_currency currency_id (fun _ => mret 0)
    (bc_slash who amount) (mc_slash currency_id who amount).

(** *** [MultiCurrencyExtended], [MultiLockableCurrency] *)
Definition cu_update_balance (currency_id : CurrencyId) (who : AccountId) (by_amount : Amount) :
    M DispatchError St unit :=
  invalid_erc20 currency_id (bc_update_balance who by_amount) (mc_update_balance currency_id who by_amount);;
  currency_event (BalanceUpdated currency_id who by_amount).

Definition cu_set_lock (lock_id : LockIdentifier) (currency_id : CurrencyId) (who : AccountId)
    (amount : Balance) : M DispatchError St unit :=
  invalid_erc20 currency_id (bc_set_lock lock_id who amount) (mc_set_lock lock_id currency_id who amount).

Definition cu_extend_lock (lock_id : LockIdentifier) (currency_id : CurrencyId) (who : AccountId)
    (amount : Balance) : M DispatchError St unit :=
  invalid_erc20 currency_id (bc_extend_lock lock_id who amount) (mc_extend_lock lock_id currency_id who amount).

Definition cu_remove_lock (lock_id : LockIdentifier) (currency_id : CurrencyId) (who : AccountId) :
    M DispatchError St unit :=
  invalid_erc20 currency_id (bc_remove_lock lock_id who) (mc_remove_lock lock_id currency_id who).

(** *** [MultiReservableCurrency] *)
Definition cu_can_reserve (currency_id : CurrencyId) (who : AccountId) (value : Balance) :
    M DispatchError St bool :=
  on_currency currency_id
    (fun _ => r ← attempt (cu_ensure_can_withdraw currency_id who value);
              mret (match r with inl _ => true | inr _ => false end))
    (bc_can_reserve who value) (mc_can_reserve currency_id who value).

Definition cu_slash_reserved (currency_id : CurrencyId) (who : AccountId) (value : Balance) :
    M DispatchError St Balance :=
  on_currency currency_id (fun _ => mret value)
    (bc_slash_reserved who value) (mc_slash_reserved currency_id who value).

Definition cu_reserved_balance (currency_id : CurrencyId) (who : AccountId) : M DispatchError St Balance :=
  on_currency currency_id
    (fun contract =>
       maybe_address ← gets (get_evm_address who);
       match maybe_address with
       | Some address =>
           unwrap_or_default (eb_balance_of (view_context contract) (reserve_address address))
       | None => mret 0
       end)
    (bc_reserved_balance who) (mc_reserved_balance currency_id who).

Definition cu_reserve (currency_id : CurrencyId) (who : AccountId) (value : Balance) :
    M DispatchError St unit :=
  on_currency currency_id
    (fun contract =>
       if value =? 0 then mret tt else
       maybe_address ← gets (get_evm_address who);
       address ← ok_or maybe_address (CurrenciesE CurrenciesError.EvmAccountNotFound);
       eb_transfer (mkInvokeContext contract address address) (reserve_address address) value)
    (bc_reserve who value) (mc_reserve currency_id who value).

(** [value - actual] on machine integers *)
Definition cu_unreserve (currency_id : CurrencyId) (who : AccountId) (value : Balance) :
    M DispatchError St Balance :=
  on_currency currency_id
    (fun contract =>
       if value =? 0 then mret value else
       maybe_address ← gets (get_evm_address who);
       match maybe_address with
       | Some address =>
           let sender := reserve_address address in
           reserved_balance ← unwrap_or_default (eb_balance_of (view_context contract) sender);
           let actual := Z.min reserved_balance value in
           r ← attempt (eb_transfer (mkInvokeContext contract sender address) address actual);
           mret (match r with inl _ => u128_wrapping_sub value actual | inr _ => value end)
       | None => mret value
       end)
    (bc_unreserve who value) (mc_unreserve currency_id who value).

Definition cu_repatriate_reserved (currency_id : CurrencyId) (slashed beneficiary : AccountId)
    (value : Balance) (status : BalanceStatus) : M DispatchError St Balance :=
  on_currency currency_id
    (fun contract =>
       if value =? 0 then mret value else
       if (slashed =? beneficiary)%N then
         match status with
         | Free => cu_unreserve currency_id slashed value
         | Reserved =>
             reserved ← cu_reserved_balance currency_id slashed;
             mret (U128.saturating_sub value reserved)
         end
       else
       maybe_address ← gets (get_evm_address slashed);
       slashed_address ← ok_or maybe_address (CurrenciesE CurrenciesError.EvmAccountNotFound);
       beneficiary_address ← get_or_create beneficiary;
       let slashed_reserve_address := reserve_address slashed_address in
       let beneficiary_reserve_address := reserve_address beneficiary_address in
       slashed_reserved_balance ←
         unwrap_or_default (eb_balance_of (view_context contract) slashed_reserve_address);
       let actual := Z.min slashed_reserved_balance value in
       match status with
       | Free =>
           eb_transfer (mkInvokeContext contract slashed_reserve_address slashed_address)
             beneficiary_address actual
       | Reserved =>
           eb_transfer (mkInvokeContext contract slashed_reserve_address slashed_address)
             beneficiary_reserve_address actual
       end;;
       mret (u128_wrapping_sub value actual))
    (bc_repatriate_reserved slashed beneficiary value status)
    (mc_repatriate_reserved currency_id slashed beneficiary value status).

Definition currencies : MultiCurrency St := {|
  mc_minimum_balance := cu_minimum_balance;
  mc_total_issuance := cu_total_issuance;
  mc_total_balance := cu_total_balance;
  mc_free_balance := cu_free_balance;
  mc_ensure_can_withdraw := cu_ensure_can_withdraw;
  mc_transfer := cu_transfer;
  mc_deposit := cu_deposit;
  mc_withdraw := cu_withdraw;
  mc_can_slash := cu_can_slash;
  mc_slash := cu_slash;
  mc_update_balance := cu_update_balance;
  mc_set_lock := cu_set_lock;
  mc_extend_lock := cu_extend_lock;
  mc_remove_lock := cu_remove_lock;
  mc_can_reserve := cu_can_reserve;
  mc_slash_reserved := cu_slash_reserved;
  mc_reserved_balance := cu_reserved_balance;
  mc_reserve := cu_reserve;
  mc_unreserve := cu_unreserve;
  mc_repatriate_reserved := cu_repatriate_reserved |}.

(** *** [TransferAll] *)
Definition currencies_transfer_all : TransferAll St := {|
  ta_transfer_all source dest :=
    transactional (
      ta_transfer_all source dest;;
      free ← bc_free_balance source;
      bc_transfer source dest free) |}.

(** *** The extrinsics *)
Definition cur_lookup_source (source : MultiAddress) : M DispatchError St AccountId :=
  target ← gets (cur_lookup source);
  ok_or target CannotLookup.
Definition currencies_transfer (origin : Origin) (dest : MultiAddress) (currency_id : CurrencyId)
    (amount : Balance) : M DispatchError St unit :=
  from ← ensure_signed origin;
  to ← cur_lookup_source dest;
  cu_transfer currency_id from to amount.
Definition transfer_native_currency (origin : Origin) (dest : MultiAddress) (amount : Balance) :
    M DispatchError St unit :=
  from ← ensure_signed origin;
  to ← cur_lookup_source dest;
  bc_transfer from to amount;;
  currency_event (Transferred GetNativeCurrencyId from to amount).
Definition update_balance (origin : Origin) (who : MultiAddress) (currency_id : CurrencyId)
    (amount : Amount) : M DispatchError St unit :=
  match origin with Root => mret tt | _ => throw BadOrigin end;;
  dest ← cur_lookup_source who;
  cu_update_balance currency_id dest amount.
End Pallet.

(** ** [Currency<T, GetCurrencyId>]: one of the currencies by itself *)
Definition currency `{CurrenciesConfig St} (GetCurrencyId : CurrencyId) : BasicCurrency St := {|
  bc_minimum_balance := cu_minimum_balance GetCurrencyId;
  bc_total_issuance := cu_total_issuance GetCurrencyId;
  bc_total_balance := cu_total_balance GetCurrencyId;
  bc_free_balance := cu_free_balance GetCurrencyId;
  bc_ensure_can_withdraw := cu_ensure_can_withdraw GetCurrencyId;
  bc_transfer := cu_transfer GetCurrencyId;
  bc_deposit := cu_deposit GetCurrencyId;
  bc_withdraw := cu_withdraw GetCurrencyId;
  bc_can_slash := cu_can_slash GetCurrencyId;
  bc_slash := cu_slash GetCurrencyId;
  bc_update_balance := cu_update_balance GetCurrencyId;
  bc_set_lock lock_id := cu_set_lock lock_id GetCurrencyId;
  bc_extend_lock lock_id := cu_extend_lock lock_id GetCurrencyId;
  bc_remove_lock lock_id := cu_remove_lock lock_id GetCurrencyId;
  bc_can_reserve := cu_can_reserve GetCurrencyId;
  bc_slash_reserved := cu_slash_reserved GetCurrencyId;
  bc_reserved_balance := cu_reserved_balance GetCurrencyId;
  bc_reserve := cu_reserve GetCurrencyId;
  bc_unreserve := cu_unreserve GetCurrencyId;
  bc_repatriate_reserved := cu_repatriate_reserved GetCurrencyId |}.

(** ** [BasicCurrencyAdapter]: the balances pallet as the native currency *)
Section Adapter.
Context {St : Type} `{PalletCurrency St}.

Definition adapter_ensure_can_withdraw (who : AccountId) (amount : Balance) : M DispatchError St unit :=
  free ← pc_free_balance who;
  new_balance ← ok_or (U128.checked_sub free amount) (CurrenciesE CurrenciesError.BalanceTooLow);
  pc_ensure_can_withdraw who amount WithdrawReasons_all new_balance.
Definition adapter_deposit (who : AccountId) (amount : Balance) : M DispatchError St unit :=
  pc_deposit_creating who amount.
Definition adapter_withdraw (who : AccountId) (amount : Balance) : M DispatchError St unit :=
  pc_withdraw who amount WithdrawReasons_all AllowDeath.

(** [i128::abs], wrapping at the minimum, and [try_into] an unsigned balance *)
Definition i128_wrapping_abs (x : Z) : Z := if x =? I128_MIN then I128_MIN else Z.abs x.
Definition balance_try_from (x : Z) : option Balance := if 0 <=? x then Some x else None.
Definition adapter_update_balance (who : AccountId) (by_amount : Amount) : M DispatchError St unit :=
  by_balance ← ok_or (balance_try_from (i128_wrapping_abs by_amount))
    (CurrenciesE CurrenciesError.AmountIntoBalanceFailed);
  if I128.is_positive by_amount then adapter_deposit who by_balance
  else adapter_withdraw who by_balance.

Definition basic_currency_adapter : BasicCurrency St := {|
  bc_minimum_balance := pc_minimum_balance;
  bc_total_issuance := pc_total_issuance;
  bc_total_balance := pc_total_balance;
  bc_free_balance := pc_free_balance;
  bc_ensure_can_withdraw := adapter_ensure_can_withdraw;
  bc_transfer from to amount := pc_transfer from to amount AllowDeath;
  bc_deposit := adapter_deposit;
  bc_withdraw := adapter_withdraw;
  bc_can_slash := pc_can_slash;
  bc_slash := pc_slash;
  bc_update_balance := adapter_update_balance;
  bc_set_lock lock_id who amount := pc_set_lock lock_id who amount WithdrawReasons_all;
  bc_extend_lock lock_id who amount := pc_extend_lock lock_id who amount WithdrawReasons_all;
  bc_remove_lock := pc_remove_lock;
  bc_can_reserve := pc_can_reserve;
  bc_slash_reserved := pc_slash_reserved;
  bc_reserved_balance := pc_reserved_balance;
  bc_reserve := pc_reserve;
  bc_unreserve := pc_unreserve;
  bc_repatriate_reserved := pc_repatriate_reserved |}.
End Adapter.
