(* ===== verification/CurrenciesSpecs.v ===== *)
(** * One ledger for all currencies

    What the currencies pallet promises to its callers, whatever holds the
    balances: every currency is a column of one book, written under the account
    for the native currency and the tokens, and under the address of the account
    for an ERC-20 contract. *)
From S2P Require Import Prelude Primitives Runtime Bytes EvmBridge EvmAccounts Currencies.

(** ** The book *)
Section Book.
Context {St : Type} `{CurrenciesConfig St}.
Context (native_book : AccountId -> St -> Balance) (token_book : CurrencyId -> AccountId -> St -> Balance)
  (erc20_book : EvmAddress -> EvmAddress -> St -> Balance).

Definition book_of (c : CurrencyId) (x : N) (s : St) : Balance :=
  on_currency c (fun contract => erc20_book contract x s) (native_book x s) (token_book c x s).

(** Where the balance of an account is written *)
Definition key_of (c : CurrencyId) (a : AccountId) (s : St) : option N :=
  on_currency c (fun _ => get_evm_address a s) (Some a) (Some a).
End Book.

(** ** What the parts promise *)
Class LedgerParts (St : Type) `{CurrenciesConfig St} := {
  native_book : AccountId -> St -> Balance;
  token_book : CurrencyId -> AccountId -> St -> Balance;
  erc20_book : EvmAddress -> EvmAddress -> St -> Balance;
  (* the contracts that are ERC-20 contracts as the standard says *)
  standard : EvmAddress -> Prop;
  (* what a transfer of theirs may cost in deposits: the price of the storage it
     may use, and the existential deposit *)
  deposit_cap : Balance }.

Section Changes.
Context {St : Type} `{LedgerParts St}.
Definition book : CurrencyId -> N -> St -> Balance := book_of native_book token_book erc20_book.

(** An amount moved, appeared or disappeared, and nothing else in the book changed. *)
Definition book_moved (c : CurrencyId) (from to : N) (n : Balance) (s s' : St) : Prop :=
  forall c' x, book c' x s' = book c' x s + delta c to n c' x - delta c from n c' x.
Definition book_added (c : CurrencyId) (to : N) (n : Z) (s s' : St) : Prop :=
  forall c' x, book c' x s' = book c' x s + delta c to n c' x.
Definition same_book (s s' : St) : Prop := forall c x, book c x s' = book c x s.
(** A contract is written to on deposits of the native currency, which the origin
    of the call pays and an account that frees storage gets back: only the other
    columns of the book move exactly.  An account that is left with nothing is
    reaped, and loses its address. *)
Definition same_tokens (s s' : St) : Prop := forall c x, c <> GetNativeCurrencyId -> book c x s' = book c x s.
Definition tokens_moved (c : CurrencyId) (from to : N) (n : Balance) (s s' : St) : Prop :=
  forall c' x, c' <> GetNativeCurrencyId -> book c' x s' = book c' x s + delta c to n c' x - delta c from n c' x.
Definition costs_at_most (n : Balance) (s s' : St) : Prop :=
  forall who, native_book who s - n <= native_book who s'.
Definition addressed (a : AccountId) (e : EvmAddress) (s : St) : Prop :=
  get_evm_address a s = Some e \/ native_book a s = 0.
Definition erc20_moved (contract from to : EvmAddress) (n : Balance) (s s' : St) : Prop :=
  tokens_moved (Erc20 contract) from to n s s' /\ costs_at_most deposit_cap s s' /\
  forall a e, get_evm_address a s = Some e -> addressed a e s'.

(** What a transfer does to the book *)
Definition moved_in_book (c : CurrencyId) (from to : N) (n : Balance) (s s' : St) : Prop :=
  match c with Erc20 contract => erc20_moved contract from to n s s' | _ => book_moved c from to n s s' end.

(** Accounts keep their addresses. *)
Definition keeps_addresses (s s' : St) : Prop :=
  forall a e, get_evm_address a s = Some e -> get_evm_address a s' = Some e.

(** Nothing in the book changed, and no address was lost. *)
Definition untouched (s s' : St) : Prop := same_book s s' /\ keeps_addresses s s'.

Definition ordinary (c : CurrencyId) : Prop :=
  match c with Erc20 contract => standard contract | _ => True end.
End Changes.

(** The balances and tokens pallets move, issue and burn as documented or fail
    without effect, where no dust is removed.  The views of a standard contract do
    not change anything; its transfers move the tokens and cost the deposits of the
    storage they use, or fail with the book as it was.  Generating an address binds
    it and moves nothing. *)
Class LedgerPartsLaws (St : Type) `{LedgerParts St} : Prop := {
  book_u128 c x s : is_u128 (book c x s);

  native_free who s : bc_free_balance who s = (Ok (native_book who s), s);
  native_transfer from to n s : is_u128 n -> wp (bc_transfer from to n)
    (fun _ => book_moved GetNativeCurrencyId from to n s) (fun _ s' => s' = s) s;
  native_deposit who n s : is_u128 n -> wp (bc_deposit who n)
    (fun _ => book_added GetNativeCurrencyId who n s) (fun _ s' => s' = s) s;
  native_withdraw who n s : is_u128 n -> wp (bc_withdraw who n)
    (fun _ => book_added GetNativeCurrencyId who (- n) s) (fun _ s' => s' = s) s;
  native_is_no_contract contract : GetNativeCurrencyId <> Erc20 contract;

  token_free c who s : mc_free_balance c who s = (Ok (token_book c who s), s);
  token_transfer c from to n s : is_erc20_currency_id c = false -> c <> GetNativeCurrencyId ->
    is_u128 n -> wp (mc_transfer c from to n) (fun _ => book_moved c from to n s) (fun _ s' => s' = s) s;
  token_deposit c who n s : is_erc20_currency_id c = false -> c <> GetNativeCurrencyId ->
    is_u128 n -> wp (mc_deposit c who n) (fun _ => book_added c who n s) (fun _ s' => s' = s) s;
  token_withdraw c who n s : is_erc20_currency_id c = false -> c <> GetNativeCurrencyId ->
    is_u128 n -> wp (mc_withdraw c who n) (fun _ => book_added c who (- n) s) (fun _ s' => s' = s) s;

  contract_view contract e s : standard contract ->
    eb_balance_of (view_context contract) e s = (Ok (erc20_book contract e s), s);
  contract_transfer contract sender origin to n s : standard contract -> is_u128 n ->
    wp (eb_transfer (mkInvokeContext contract sender origin) to n)
      (fun _ => erc20_moved contract sender to n s) (fun _ => untouched s) s;
  deposit_cap_nonneg : 0 <= deposit_cap;

  create_law a s : let (e, s') := get_or_create_evm_address a s in
    get_evm_address a s' = Some e /\ keeps_addresses s s' /\ same_book s s';
  event_law ev s : same_book s (deposit_currency_event ev s) /\
    (forall a, get_evm_address a (deposit_currency_event ev s) = get_evm_address a s) }.

(** ** The ledger *)
Section Ledger.
Context {St : Type} `{LedgerPartsLaws St}.

Lemma on_currency_cases {A} c (f : EvmAddress -> A) x y (P : A -> Prop) :
  (forall contract, c = Erc20 contract -> P (f contract)) ->
  (c = GetNativeCurrencyId -> is_erc20_currency_id c = false -> P x) ->
  (c <> GetNativeCurrencyId -> is_erc20_currency_id c = false -> P y) -> P (on_currency c f x y).
Proof.
  intros Hf Hx Hy. destruct c; cbn in *; try (case_decide; [by apply Hx|by apply Hy]). by apply Hf.
Qed.
Lemma key_of_account c a s : is_erc20_currency_id c = false -> key_of c a s = Some a.
Proof. intros Hc. destruct c; cbn; try (by case_decide). done. Qed.

Lemma same_book_trans s t u : same_book s t -> same_book t u -> same_book s u.
Proof. intros Hst Htu c x. by rewrite Htu, Hst. Qed.
Lemma same_book_moved c a b n s t u : same_book s t -> book_moved c a b n t u -> book_moved c a b n s u.
Proof. intros Hst Htu c' x. by rewrite Htu, Hst. Qed.
Lemma moved_same_book c a b n s t u : book_moved c a b n s t -> same_book t u -> book_moved c a b n s u.
Proof. intros Hst Htu c' x. by rewrite Htu, Hst. Qed.
Lemma added_same_book c a n s t u : book_added c a n s t -> same_book t u -> book_added c a n s u.
Proof. intros Hst Htu c' x. by rewrite Htu, Hst. Qed.

Lemma wp_get_or_create a Q R s :
  (forall e t, get_evm_address a t = Some e -> keeps_addresses s t -> same_book s t -> Q e t) ->
  wp (get_or_create a) Q R s.
Proof.
  intros HQ. pose proof (create_law a s) as Hc. unfold wp, get_or_create.
  destruct (get_or_create_evm_address a s) as [e t]. destruct Hc as (? & ? & ?). auto.
Qed.
Lemma wp_contract_view contract e Q R s : standard contract ->
  Q (erc20_book contract e s) s ->
  wp (unwrap_or_default (eb_balance_of (view_context contract) e)) Q R s.
Proof.
  intros Hk HQ. unfold unwrap_or_default, wp, mbind, M_bind, attempt. by rewrite contract_view.
Qed.
Lemma erc20_book_u128 contract e s : is_u128 (erc20_book contract e s).
Proof. apply (book_u128 (Erc20 contract) e s). Qed.

Lemma untouched_refl s : untouched s s.
Proof. split; [intros c x|intros a e]; done. Qed.
#[local] Hint Resolve untouched_refl : core.

(** *** Reading *)
Lemma free_balance_book c who s : ordinary c ->
  cu_free_balance c who s = (Ok (default 0 ((fun x => book c x s) <$> key_of c who s)), s).
Proof.
  intros Hc. unfold cu_free_balance, key_of. destruct c as [t|d0 d1|contract|i]; cbn;
    try (case_decide; cbn; by rewrite ?native_free, ?token_free).
  unfold mbind, M_bind, gets. destruct (get_evm_address who s) as [e|]; [|done]. cbn.
  unfold unwrap_or_default, mbind, M_bind, attempt. by rewrite contract_view.
Qed.

(** *** Moving *)
Lemma contract_not_native contract : Erc20 contract <> GetNativeCurrencyId.
Proof. intros Heq. by apply (native_is_no_contract contract). Qed.
Lemma untouched_trans s t u : untouched s t -> untouched t u -> untouched s u.
Proof. intros [Hb Ha] [Hb' Ha']. split; [by eapply same_book_trans|]. intros a e He. auto. Qed.
Lemma native_same s t who : same_book s t -> native_book who t = native_book who s.
Proof.
  intros Hb. specialize (Hb GetNativeCurrencyId who). unfold book, book_of in Hb. revert Hb.
  apply (on_currency_cases GetNativeCurrencyId _ _ _ (fun x => x = _ -> _)); [|intros _ _|by intros ?].
  - intros contract Hc. by apply native_is_no_contract in Hc.
  - apply (on_currency_cases GetNativeCurrencyId _ _ _ (fun x => _ = x -> _)); [|done|by intros ?].
    intros contract Hc. by apply native_is_no_contract in Hc.
Qed.
Lemma untouched_moved contract a b n s t u :
  untouched s t -> erc20_moved contract a b n t u -> erc20_moved contract a b n s u.
Proof.
  intros [Hb Ha] (Hm & Hc & Hx). split_and!.
  - intros c x Hn. by rewrite Hm, Hb.
  - intros who. rewrite <- (native_same s t who Hb). apply Hc.
  - intros x e He. auto.
Qed.

Lemma erc20_transfer_moves contract from to n s : standard contract -> is_u128 n ->
  wp (maybe_sender ← gets (get_evm_address from);
      sender ← ok_or maybe_sender (CurrenciesE CurrenciesError.EvmAccountNotFound);
      origin ← gets (fun s => default 0%N (eb_get_origin s));
      origin_address ← get_or_create origin;
      address ← get_or_create to;
      eb_transfer (mkInvokeContext contract sender origin_address) address n)
    (fun _ s' => exists kf kt, get_evm_address from s = Some kf /\ addressed to kt s' /\
       erc20_moved contract kf kt n s s')
    (fun _ => untouched s) s.
Proof.
  intros Hk Hn. apply wp_bind, wp_gets, wp_bind, wp_ok_or. split; [intros kf Hkf|done].
  apply wp_bind, wp_gets, wp_bind, wp_get_or_create. intros eo t1 _ Hk1 Hb1.
  apply wp_bind, wp_get_or_create. intros kt t2 Hkt Hk2 Hb2.
  assert (Hst : untouched s t2) by (by apply (untouched_trans _ t1)).
  eapply wp_mono; [by apply contract_transfer| |].
  - intros [] t3 Hm. exists kf, kt. split_and!; [done| |by eapply untouched_moved].
    destruct Hm as (_ & _ & Ha). by apply Ha.
  - intros e t3 Ht. by eapply untouched_trans.
Qed.

(** Transferring any currency moves exactly the amount from the sender's column
    to the receiver's, records the event, and never panics; a contract costs no
    one more than the deposits.  Transferring nothing or to oneself does nothing,
    and a transfer that fails moves nothing, although the address of the receiver
    may stay generated. *)
Theorem transfer_moves_book (c : CurrencyId) (from to : AccountId) (n : Balance) (s : St) :
  ordinary c -> is_u128 n ->
  wp (cu_transfer c from to n)
    (fun _ s' => if (n =? 0) || (from =? to)%N then s' = s else
       exists kf kt t, key_of c from s = Some kf /\ (key_of c to t = Some kt \/ native_book to t = 0) /\
         moved_in_book c kf kt n s t /\ s' = deposit_currency_event (Transferred c from to n) t)
    (fun _ => untouched s) s.
Proof.
  intros Hc Hn. unfold cu_transfer. destruct ((n =? 0) || (from =? to)%N); [done|].
  apply wp_bind. eapply wp_mono with (Q := fun _ t => exists kf kt, key_of c from s = Some kf /\
    (key_of c to t = Some kt \/ native_book to t = 0) /\ moved_in_book c kf kt n s t) (R := fun _ => untouched s); [| |done].
  - apply (on_currency_cases c _ _ _ (fun m => wp m _ _ s)).
    + intros contract ->. by apply erc20_transfer_moves.
    + intros Hnat Her. eapply wp_mono; [by apply native_transfer| |by intros ? ? ->].
      intros [] t Ht. exists from, to. rewrite !key_of_account by done. rewrite <- Hnat in Ht. by destruct c; auto.
    + intros Hnat Her. eapply wp_mono; [by apply token_transfer| |by intros ? ? ->].
      intros [] t Ht. exists from, to. rewrite !key_of_account by done. by destruct c; auto.
  - intros [] t (kf & kt & Hkf & Hkt & Hm). apply wp_modify. by exists kf, kt, t.
Qed.

(** *** Issuing and burning *)
Lemma issue_event (m : M DispatchError St unit) c who n ev s :
  wp m (fun _ => book_added c who n s) (fun _ s' => s' = s) s ->
  wp (m;; currency_event ev) (fun _ => book_added c who n s) (fun _ s' => s' = s) s.
Proof.
  intros Hm. apply wp_bind. eapply wp_mono; [exact Hm| |done]. intros [] t Ht. apply wp_modify.
  eapply added_same_book; [exact Ht|]. apply event_law.
Qed.
Lemma added_zero c who s : book_added c who 0 s s.
Proof. intros c' x. rewrite delta_zero. lia. Qed.

(** Issuing or burning the native currency and tokens changes the entry of the
    account by the amount; nothing but a contract itself issues its tokens. *)
Theorem issue_book (c : CurrencyId) (who : AccountId) (n : Balance) (s : St) : is_u128 n ->
  if is_erc20_currency_id c && negb (n =? 0)
  then cu_deposit c who n s = (Err (CurrenciesE CurrenciesError.Erc20InvalidOperation), s) /\
       cu_withdraw c who n s = (Err (CurrenciesE CurrenciesError.Erc20InvalidOperation), s)
  else wp (cu_deposit c who n) (fun _ => book_added c who n s) (fun _ s' => s' = s) s /\
       wp (cu_withdraw c who n) (fun _ => book_added c who (- n) s) (fun _ s' => s' = s) s.
Proof.
  intros Hn. unfold cu_deposit, cu_withdraw. destruct (Z.eqb_spec n 0) as [->|Hz].
  { rewrite andb_false_r. split; apply added_zero. }
  cbn [negb]. rewrite andb_true_r. destruct (is_erc20_currency_id c) eqn:Her; [by destruct c|].
  unfold on_currency_err. split; apply issue_event; apply (on_currency_cases c _ _ _ (fun m => wp m _ _ s));
    try (by intros contract ->); intros Hnat _; rewrite <- ?Hnat.
  - rewrite Hnat. by apply native_deposit.
  - by apply token_deposit.
  - rewrite Hnat. by apply native_withdraw.
  - by apply token_withdraw.
Qed.

(** *** Reserving ERC-20 tokens *)
Section Reserve.
Context (contract : EvmAddress) (Hk : standard contract).

Lemma reserved_balance_book who s : cu_reserved_balance (Erc20 contract) who s =
  (Ok (default 0 ((fun e => erc20_book contract (reserve_address e) s) <$> get_evm_address who s)), s).
Proof.
  unfold cu_reserved_balance. cbn. unfold mbind, M_bind, gets.
  destruct (get_evm_address who s) as [e|]; [|done]. cbn.
  unfold unwrap_or_default, mbind, M_bind, attempt. by rewrite contract_view.
Qed.

Abbreviation moved := (erc20_moved contract).

Lemma reserve_book who n s : is_u128 n -> wp (cu_reserve (Erc20 contract) who n)
  (fun _ s' => if n =? 0 then s' = s else exists e, get_evm_address who s = Some e /\ moved e (reserve_address e) n s s')
  (fun _ => untouched s) s.
Proof.
  intros Hn. unfold cu_reserve. cbn [on_currency]. destruct (n =? 0); [done|].
  apply wp_bind, wp_gets, wp_bind, wp_ok_or. split; [intros e He|done].
  eapply wp_mono; [by apply contract_transfer| |done]. intros [] t Hm. by exists e.
Qed.

(** What is taken from the reserve of [e] and given to [to], and what is left *)
Definition released (e to : EvmAddress) (n left : Balance) (s s' : St) : Prop :=
  left = n - Z.min (erc20_book contract (reserve_address e) s) n /\
  moved (reserve_address e) to (n - left) s s'.

Lemma unreserve_book who n s : is_u128 n -> wp (cu_unreserve (Erc20 contract) who n)
  (fun left s' => left = n /\ untouched s s' \/
     exists e, get_evm_address who s = Some e /\ released e e n left s s')
  (fun _ _ => False) s.
Proof.
  intros Hn. unfold cu_unreserve. cbn [on_currency]. destruct (n =? 0); [by left|].
  apply wp_bind, wp_gets. destruct (get_evm_address who s) as [e|] eqn:He; [|by left].
  apply wp_bind, wp_contract_view; [done|]. pose proof (erc20_book_u128 contract (reserve_address e) s) as Hb.
  set (actual := Z.min _ n). assert (Ha : 0 <= actual <= n) by (unfold actual; uarith).
  apply wp_bind, wp_attempt. eapply wp_mono; [apply contract_transfer; [done|uarith]| |].
  - intros [] t Hm. right. exists e. split; [done|].
    unfold released, u128_wrapping_sub. rewrite Z.mod_small by (uarith). split; [done|].
    by replace (n - (n - actual)) with actual by lia.
  - intros err t Ht. by left.
Qed.

Lemma repatriate_book slashed beneficiary n status s : is_u128 n -> slashed <> beneficiary ->
  wp (cu_repatriate_reserved (Erc20 contract) slashed beneficiary n status)
    (fun left s' => n = 0 /\ left = 0 /\ s' = s \/
       exists e b, get_evm_address slashed s = Some e /\ addressed beneficiary b s' /\
         released e (match status with Free => b | Reserved => reserve_address b end) n left s s')
    (fun _ => untouched s) s.
Proof.
  intros Hn Hne. unfold cu_repatriate_reserved. cbn [on_currency].
  destruct (Z.eqb_spec n 0) as [->|Hz]; [by left|]. rewrite (proj2 (N.eqb_neq _ _)) by done.
  apply wp_bind, wp_gets, wp_bind, wp_ok_or. split; [intros e He|done].
  apply wp_bind, wp_get_or_create. intros b t Hb Hka Hbk.
  assert (Hst : untouched s t) by done.
  apply wp_bind, wp_contract_view; [done|].
  pose proof (erc20_book_u128 contract (reserve_address e) t) as Hu.
  pose proof (Hbk (Erc20 contract) (reserve_address e)) as Heq.
  change (erc20_book contract (reserve_address e) t = erc20_book contract (reserve_address e) s) in Heq.
  set (actual := Z.min _ n). assert (Ha : 0 <= actual <= n) by (unfold actual; uarith).
  set (to := match status with Free => b | Reserved => reserve_address b end).
  apply wp_bind. eapply wp_mono with (Q := fun _ s' => addressed beneficiary b s' /\ moved (reserve_address e) to actual s s')
    (R := fun _ => untouched s); [| |done].
  - assert (Ht : wp (eb_transfer (mkInvokeContext contract (reserve_address e) e) to actual)
      (fun _ s' => addressed beneficiary b s' /\ moved (reserve_address e) to actual s s') (fun _ => untouched s) t).
    { eapply wp_mono; [apply contract_transfer; [done|uarith]| |intros ? ? Hu2; by eapply untouched_trans].
      intros [] u Hm. split; [destruct Hm as (_ & _ & Hx); by apply Hx|]. by eapply untouched_moved. }
    by destruct status.
  - intros [] u [Hbe Hm]. right. exists e, b. split_and!; [done..|].
    unfold released, u128_wrapping_sub. rewrite Z.mod_small by uarith. unfold actual in *. rewrite Heq in *.
    split; [done|]. by replace (n - (n - Z.min _ n)) with (Z.min (erc20_book contract (reserve_address e) s) n) by lia.
Qed.

(** After reserving, all of it can be released. *)
Lemma reserved_enough e n s t : reserve_address e <> e -> 0 <= n ->
  moved e (reserve_address e) n s t -> Z.min (erc20_book contract (reserve_address e) t) n = n.
Proof.
  intros Hne Hn (Hm & _). specialize (Hm (Erc20 contract) (reserve_address e) (contract_not_native contract)).
  change (erc20_book contract (reserve_address e) t = erc20_book contract (reserve_address e) s
    + delta (Erc20 contract) (reserve_address e) n (Erc20 contract) (reserve_address e)
    - delta (Erc20 contract) e n (Erc20 contract) (reserve_address e)) in Hm.
  rewrite delta_eq, delta_ne_account in Hm by done.
  pose proof (erc20_book_u128 contract (reserve_address e) s). unfold is_u128 in *. lia.
Qed.
Lemma moved_on c a b d n s t u :
  tokens_moved c a b n s t -> tokens_moved c b d n t u -> tokens_moved c a d n s u.
Proof. intros Hab Hbd c' x Hc. rewrite Hbd, Hab by done. lia. Qed.
Lemma costs_more k m s s' : k <= m -> costs_at_most k s s' -> costs_at_most m s s'.
Proof. intros Hkm Hc who. specialize (Hc who). lia. Qed.
Lemma costs_trans k m s t u : costs_at_most k s t -> costs_at_most m t u -> costs_at_most (k + m) s u.
Proof. intros Hst Htu who. specialize (Hst who). specialize (Htu who). lia. Qed.
Lemma untouched_costs s s' : untouched s s' -> costs_at_most 0 s s'.
Proof. intros [Hb _] who. rewrite (native_same s s' who Hb). lia. Qed.
(** Who can pay for a transfer keeps the address. *)
Lemma still_addressed who e a b n s t : deposit_cap < native_book who s -> get_evm_address who s = Some e ->
  moved a b n s t -> get_evm_address who t = Some e.
Proof.
  intros Hpay He (_ & Hc & Ha). destruct (Ha who e He) as [Hkeep|Hz]; [done|]. specialize (Hc who). lia.
Qed.

(** C9: reserved ERC-20 tokens are kept at an address derived from the owner's,
    as long as that is not the owner's own.  Of an owner who can pay the deposits
    of storage that a transfer may cost, reserving and unreserving an amount
    restores every balance of tokens, unless the contract refuses to pay back, and
    then all of the amount is reported as still reserved; reserved tokens go to
    another account's balance or reserve in full, with nothing left.  A call that
    fails leaves the book as it was, or with the amount reserved, and no one pays
    more than the deposits of the transfers. *)
Theorem erc20_reserve_roundtrip (who beneficiary : AccountId) (n : Balance) (status : BalanceStatus) (s : St)
    (reserved := fun s' => exists e, get_evm_address who s = Some e /\
       tokens_moved (Erc20 contract) e (reserve_address e) n s s') :
  is_u128 n -> who <> beneficiary -> (forall e, get_evm_address who s = Some e -> reserve_address e <> e) ->
  deposit_cap < native_book who s ->
  wp (cu_reserve (Erc20 contract) who n;; cu_unreserve (Erc20 contract) who n)
    (fun left s' => costs_at_most (2 * deposit_cap) s s' /\
       (left = 0 /\ same_tokens s s' \/ left = n /\ reserved s'))
    (fun _ => same_book s) s /\
  wp (cu_reserve (Erc20 contract) who n;; cu_repatriate_reserved (Erc20 contract) who beneficiary n status)
    (fun left s' => costs_at_most (2 * deposit_cap) s s' /\ left = 0 /\ (n = 0 /\ same_tokens s s' \/
       exists e b, get_evm_address who s = Some e /\ addressed beneficiary b s' /\
         tokens_moved (Erc20 contract) e (match status with Free => b | Reserved => reserve_address b end) n s s'))
    (fun _ s' => same_book s s' \/ costs_at_most deposit_cap s s' /\ reserved s') s.
Proof.
  intros Hn Hne Hr Hpay. pose proof deposit_cap_nonneg as Hcap.
  assert (Hcost : forall t, costs_at_most (2 * deposit_cap) t t) by (intros t x; lia).
  split; apply wp_bind; (eapply wp_mono; [by apply reserve_book| |intros ? ? [Hb _]; auto]); intros [] t Ht; cbv beta in Ht;
    destruct (Z.eqb_spec n 0) as [->|Hz]; try subst t.
  - split; [done|]. by left.
  - destruct Ht as (e & He & Hm). pose proof (still_addressed _ _ _ _ _ _ _ Hpay He Hm) as Het.
    destruct (Hm) as (Htk & Hct & _).
    eapply wp_mono; [by apply unreserve_book| |done]. intros left u [[-> Hu]|(x & Hx & Hl & Hm' & Hcu & _)].
    + split. { apply (costs_more (deposit_cap + 0)); [lia|]. by apply (costs_trans _ _ _ t), untouched_costs. }
      right. split; [done|]. exists e. split; [done|]. intros c x Hc. by rewrite (proj1 Hu), Htk.
    + rewrite Het in Hx. injection Hx as <-. rewrite (reserved_enough e n s t) in Hl by (auto; apply Hn).
      assert (left = 0) as -> by lia. split.
      { apply (costs_more (deposit_cap + deposit_cap)); [lia|]. by apply (costs_trans _ _ _ t). }
      left. split; [done|]. rewrite Z.sub_0_r in Hm'.
      pose proof (moved_on _ _ _ _ _ _ _ _ Htk Hm') as Hmm. intros c x Hc. rewrite Hmm by done. lia.
  - split; [done|]. split; [done|]. by left.
  - destruct Ht as (e & He & Hm). pose proof (still_addressed _ _ _ _ _ _ _ Hpay He Hm) as Het.
    destruct (Hm) as (Htk & Hct & _).
    eapply wp_mono; [by apply repatriate_book| |].
    + intros left u [(-> & -> & ->)|(x & b & Hx & Hb & Hl & Hm' & Hcu & _)]; [done|].
      rewrite Het in Hx. injection Hx as <-. rewrite (reserved_enough e n s t) in Hl by (auto; apply Hn).
      assert (left = 0) as -> by lia. split.
      { apply (costs_more (deposit_cap + deposit_cap)); [lia|]. by apply (costs_trans _ _ _ t). }
      split; [done|]. right. exists e, b. split_and!; [done..|].
      rewrite Z.sub_0_r in Hm'. by eapply moved_on.
    + intros err u Hu. right. split.
      { apply (costs_more (deposit_cap + 0)); [lia|]. by apply (costs_trans _ _ _ t), untouched_costs. }
      exists e. split; [done|]. intros c x Hc. by rewrite (proj1 Hu), Htk.
Qed.
End Reserve.
End Ledger.
