(* ===== verification/CurrenciesSample.v ===== *)
(** * A chain with three kinds of currencies

    An instance of the currencies pallet the witnesses run: one ledger holds the
    native currency, the tokens and the balances of ERC-20 contracts, which obey
    the standard; the addresses are those of the EVM accounts pallet. *)
From S2P Require Import Prelude Primitives Runtime Sample EvmBridge EvmAccounts EvmAccountsSample Currencies CurrenciesSpecs.
From S2P Require Import Bytes.

(** ** The state *)
Record Books := mkBooks { bk_ledger : SampleLedger; bk_events : list CurrenciesEvent }.

#[local] Instance chain : EvmAccountsConfig := {
  blake2_256 bs := fit 32 (rev bs);
  keccak_256 bs := rev (fit 32 (rev bs));
  secp256k1_ecdsa_recover := toy_recover;
  SecretKey := bool;
  PublicKey := bool;
  from_secret_key k := k;
  serialize k := 4 :: key_bytes k;
  secp256k1_sign := toy_sign;
  ChainSt := Books;
  account_exists a b := 0 <? l_raw (bk_ledger b) (Token ACA) a;
  transfer_all from to b :=
    match l_transfer (Token ACA) from to (l_raw (bk_ledger b) (Token ACA) from) (bk_ledger b) with
    | inl l => inl (mkBooks l (bk_events b), [])
    | inr e => inr e
    end }.

Abbreviation St := (@EvmAccounts chain).
Definition ledger_of (s : St) : SampleLedger := bk_ledger (ea_chain s).
Definition put_ledger (l : SampleLedger) (s : St) : St := set_chain (mkBooks l (bk_events (ea_chain s))) s.

Definition on_ledger (f : SampleLedger -> SampleLedger + DispatchError) : M DispatchError St unit := fun s =>
  match f (ledger_of s) with inl l => (Ok tt, put_ledger l s) | inr e => (Err e, s) end.
Definition read (f : SampleLedger -> Balance) : M DispatchError St Balance := gets (fun s => f (ledger_of s)).
Definition by_amount (c : CurrencyId) (a : AccountId) (n : Amount) : M DispatchError St unit :=
  on_ledger (if 0 <=? n then l_deposit c a n else l_withdraw c a (- n)).

(** ** The parts; locks and reserves of tokens are not kept here. *)
#[local] Instance sample_tokens : MultiCurrency St := {
  mc_minimum_balance _ := 1;
  mc_total_issuance c := read (fun l => l_total l c);
  mc_total_balance c a := read (fun l => l_balance l c a);
  mc_free_balance c a := read (fun l => l_balance l c a);
  mc_ensure_can_withdraw c a n := b ← read (fun l => l_balance l c a); ensure (n <=? b) (ExternalError 1);
  mc_transfer c a b n := on_ledger (l_transfer c a b n);
  mc_deposit c a n := on_ledger (l_deposit c a n);
  mc_withdraw c a n := on_ledger (l_withdraw c a n);
  mc_can_slash c a n := mret true;
  mc_slash c a n := mret n;
  mc_update_balance := by_amount;
  mc_set_lock _ _ _ _ := mret tt;
  mc_extend_lock _ _ _ _ := mret tt;
  mc_remove_lock _ _ _ := mret tt;
  mc_can_reserve _ _ _ := mret false;
  mc_slash_reserved _ _ n := mret n;
  mc_reserved_balance _ _ := mret 0;
  mc_reserve _ _ _ := throw (ExternalError 3);
  mc_unreserve _ _ n := mret n;
  mc_repatriate_reserved _ _ _ n _ := mret n }.

#[local] Instance sample_native : BasicCurrency St := {
  bc_minimum_balance := mc_minimum_balance (Token ACA);
  bc_total_issuance := mc_total_issuance (Token ACA);
  bc_total_balance := mc_total_balance (Token ACA);
  bc_free_balance := mc_free_balance (Token ACA);
  bc_ensure_can_withdraw := mc_ensure_can_withdraw (Token ACA);
  bc_transfer := mc_transfer (Token ACA);
  bc_deposit := mc_deposit (Token ACA);
  bc_withdraw := mc_withdraw (Token ACA);
  bc_can_slash := mc_can_slash (Token ACA);
  bc_slash := mc_slash (Token ACA);
  bc_update_balance := mc_update_balance (Token ACA);
  bc_set_lock i := mc_set_lock i (Token ACA);
  bc_extend_lock i := mc_extend_lock i (Token ACA);
  bc_remove_lock i := mc_remove_lock i (Token ACA);
  bc_can_reserve := mc_can_reserve (Token ACA);
  bc_slash_reserved := mc_slash_reserved (Token ACA);
  bc_reserved_balance := mc_reserved_balance (Token ACA);
  bc_reserve := mc_reserve (Token ACA);
  bc_unreserve := mc_unreserve (Token ACA);
  bc_repatriate_reserved := mc_repatriate_reserved (Token ACA) }.

(** A contract that has no entry for the receiver stores one, for a deposit that
    the origin pays. *)
Definition pay_transfer (ctx : InvokeContext) (to : EvmAddress) (n : Balance) (payer : AccountId) (l : SampleLedger) :
    SampleLedger + DispatchError :=
  match l_transfer (Erc20 (ic_contract ctx)) (ic_sender ctx) to n l with
  | inl l' => if l_balance l (Erc20 (ic_contract ctx)) to =? 0 then l_withdraw (Token ACA) payer 64 l' else inl l'
  | inr e => inr e
  end.
#[local] Instance sample_mapping : AddressMapping St := evm_address_mapping.
#[local] Instance sample_bridge : EVMBridge St := {
  eb_name _ := mret [];
  eb_symbol _ := mret [];
  eb_decimals _ := mret 0;
  eb_total_supply ctx := read (fun l => l_total l (Erc20 (ic_contract ctx)));
  eb_balance_of ctx e := read (fun l => l_balance l (Erc20 (ic_contract ctx)) e);
  eb_transfer ctx to n := fun s => on_ledger (pay_transfer ctx to n (get_account_id (ic_origin ctx) s)) s;
  eb_get_origin _ := Some 1%N;
  eb_set_origin _ s := s }.

#[local] Instance sample_all : TransferAll St := {| ta_transfer_all _ _ := mret tt |}.

#[local] Instance sample_currencies : CurrenciesConfig St := {
  tokens := sample_tokens;
  tokens_all := sample_all;
  native := sample_native;
  cur_mapping := evm_address_mapping;
  cur_bridge := sample_bridge;
  GetNativeCurrencyId := Token ACA;
  cur_lookup a s := match a with Id a => Some a | _ => ea_lookup a s end;
  cur_blake2_256 bs := fit 32 (rev bs);
  deposit_currency_event ev s :=
    set_chain (mkBooks (ledger_of s) (bk_events (ea_chain s) ++ [ev])) s }.

#[local] Instance sample_parts : LedgerParts St := {
  native_book a s := l_balance (ledger_of s) (Token ACA) a;
  token_book c a s := l_balance (ledger_of s) c a;
  erc20_book k e s := l_balance (ledger_of s) (Erc20 k) e;
  standard _ := True;
  deposit_cap := 64 }.

(** ** The laws *)
Lemma sample_book c x s : book c x s = l_balance (ledger_of s) c x.
Proof.
  unfold book, book_of, on_currency. destruct c; cbn; try done; by case_decide as E; rewrite ?E.
Qed.
Lemma wp_on_ledger f Q R s :
  (forall l, f (ledger_of s) = inl l -> Q tt (put_ledger l s)) -> (forall e, R e s) ->
  wp (on_ledger f) Q R s.
Proof. intros HQ HR. unfold wp, on_ledger. destruct (f (ledger_of s)); auto. Qed.
Lemma sample_moves c a b n s : is_u128 n ->
  wp (on_ledger (l_transfer c a b n))
    (fun _ s' => book_moved c a b n s s' /\ keeps_addresses s s') (fun _ s' => s' = s) s.
Proof.
  intros Hn. apply wp_on_ledger; [|done]. intros l Hl. split; [|by intros x e].
  intros c' x. rewrite !sample_book. by apply (sample_transfer_law c a b n _ l Hn Hl).
Qed.
Lemma sample_issues c a n s : is_u128 n ->
  wp (on_ledger (l_deposit c a n)) (fun _ => book_added c a n s) (fun _ s' => s' = s) s.
Proof.
  intros Hn. apply wp_on_ledger; [|done]. intros l Hl c' x. rewrite !sample_book.
  by apply (sample_deposit_law c a n _ l Hn Hl).
Qed.
Lemma sample_burns c a n s : is_u128 n ->
  wp (on_ledger (l_withdraw c a n)) (fun _ => book_added c a (- n) s) (fun _ s' => s' = s) s.
Proof.
  intros Hn. apply wp_on_ledger; [|done]. intros l Hl c' x. rewrite !sample_book, delta_opp.
  destruct (sample_withdraw_law c a n _ l Hn Hl) as [Hf _]. cbn in Hf. change (ledger_of (put_ledger l s)) with l.
  rewrite Hf. unfold ledger_of. lia.
Qed.
Lemma create_keeps a (s : St) : let (e, s') := get_or_create_evm_address a s in
  get_evm_address a s' = Some e /\ keeps_addresses s s' /\ same_book s s'.
Proof.
  cbn. unfold ea_get_or_create_evm_address. destruct (ea_get_evm_address a s) as [e|] eqn:He.
  { split_and!; [done|by intros x y|by intros c x]. }
  unfold ea_get_evm_address in He. destruct (EvmAddresses s !! a) eqn:Ha; [done|]. split_and!.
  - unfold ea_get_evm_address. cbn. by rewrite lookup_insert_eq.
  - intros x y. cbn. unfold ea_get_evm_address. cbn. intros Hx.
    destruct (decide (x = a)) as [->|Hne]; [by rewrite Ha, He in Hx|]. by rewrite lookup_insert_ne.
  - intros c x. by rewrite !sample_book.
Qed.

Lemma pay_transfer_moves ctx to n payer s : is_u128 n ->
  wp (on_ledger (pay_transfer ctx to n payer))
    (fun _ => erc20_moved (ic_contract ctx) (ic_sender ctx) to n s) (fun _ s' => s' = s) s.
Proof.
  intros Hn. apply wp_on_ledger; [|done]. unfold pay_transfer. intros l Hl.
  destruct (l_transfer _ _ _ _ _) as [l1|] eqn:Ht; [|done].
  destruct (sample_transfer_law _ _ _ _ _ _ Hn Ht) as [Hm _].
  assert (Hpaid : forall c x, l_balance l c x = l_balance l1 c x \/
    c = Token ACA /\ l_balance l1 c x - 64 <= l_balance l c x).
  { intros c x. destruct (_ =? 0); [|injection Hl as ->; by left].
    assert (Hu : is_u128 64) by uarith. destruct (sample_withdraw_law _ _ _ _ _ Hu Hl) as [Hf _]. cbn in Hf. rewrite Hf.
    destruct (decide (c = Token ACA)) as [->|Hne]; [right|left; rewrite delta_ne_currency by done; lia].
    split; [done|]. destruct (decide (x = payer)) as [->|Hne]; [rewrite delta_eq|rewrite delta_ne_account by done]; lia. }
  split_and!.
  - intros c x Hc. rewrite !sample_book. change (ledger_of (put_ledger l s)) with l.
    destruct (Hpaid c x) as [->|[-> _]]; [apply Hm|by destruct Hc].
  - intros who. change (l_balance (ledger_of s) (Token ACA) who - 64 <= l_balance l (Token ACA) who).
    specialize (Hm (Token ACA) who). rewrite !delta_ne_currency in Hm by done.
    destruct (Hpaid (Token ACA) who) as [->|[_ Hle]]; lia.
  - intros a e He. by left.
Qed.

#[local] Instance sample_parts_laws : LedgerPartsLaws St.
Proof.
  constructor.
  - intros. rewrite sample_book. unfold l_balance. pose proof (l_raw_nonneg (ledger_of s) c x). uarith.
  - done.
  - intros. eapply wp_mono; [by apply sample_moves|by intros ? ? []|done].
  - intros. by apply sample_issues.
  - intros. by apply sample_burns.
  - done.
  - done.
  - intros. eapply wp_mono; [by apply sample_moves|by intros ? ? []|done].
  - intros. by apply sample_issues.
  - intros. by apply sample_burns.
  - done.
  - intros. eapply wp_mono; [by apply pay_transfer_moves|done|]. intros e t ->. split; [by intros c x|by intros a y].
  - vm_compute. discriminate.
  - apply create_keeps.
  - intros. split; [|done]. intros c x. by rewrite !sample_book.
Qed.

(** ** Transfers and reserves of the tokens of a contract *)

(** Account 1 has a generated address with 100 tokens of contract 7. *)
Definition bound : St := (get_or_create_evm_address 1%N (mkEvmAccounts chain ∅ ∅ (mkBooks (mkLedger ∅ ∅) []) [])).2.
Definition address_1 : EvmAddress := account_to_default_evm_address 1%N.
Definition address_2 : EvmAddress := account_to_default_evm_address 2%N.
Definition funded : St :=
  put_ledger (l_put (l_put (mkLedger ∅ ∅) (Erc20 7%N) address_1 100) (Token ACA) 1%N 1000) bound.
Definition transferred : outcome DispatchError unit * St := cu_transfer (Erc20 7%N) 1%N 2%N 30 funded.

(** The receiver gets an address and 30 tokens, and the origin pays for the entry. *)
Example transferred_tokens : transferred.1 = Ok tt /\ get_evm_address 2%N funded = None /\
  l_balance (ledger_of transferred.2) (Erc20 7%N) address_1 = 70 /\
  l_balance (ledger_of transferred.2) (Erc20 7%N) address_2 = 30 /\
  l_balance (ledger_of transferred.2) (Token ACA) 1%N = 936.
Proof. by vm_compute. Qed.

Definition round_trip : outcome DispatchError Balance * St :=
  (cu_reserve (Erc20 7%N) 1%N 40;; cu_unreserve (Erc20 7%N) 1%N 40) funded.
Lemma round_trip_ok : round_trip = (Ok 0, round_trip.2).
Proof. apply run_split. vm_compute. reflexivity. Qed.
Lemma reserve_elsewhere e : get_evm_address 1%N funded = Some e -> reserve_address e <> e.
Proof.
  assert (Hk : get_evm_address 1%N funded = Some address_1) by (vm_compute; reflexivity).
  rewrite Hk. intros He. apply (inj Some) in He. rewrite <- He.
  apply N.eqb_neq. vm_compute. reflexivity.
Qed.

(** A witness of [erc20_reserve_roundtrip] *)
Lemma erc20_reserve_roundtrip_witness :
  l_balance (ledger_of (cu_reserve (Erc20 7%N) 1%N 40 funded).2) (Erc20 7%N) (reserve_address address_1) = 40 /\
  l_balance (ledger_of round_trip.2) (Token ACA) 1%N = 936 /\
  costs_at_most 128 funded round_trip.2 /\ same_tokens funded round_trip.2.
Proof.
  split; [vm_compute; reflexivity|]. split; [vm_compute; reflexivity|].
  assert (Hn : is_u128 40) by uarith.
  assert (Hpay : deposit_cap < native_book 1%N funded) by (vm_compute; reflexivity).
  destruct (erc20_reserve_roundtrip 7%N (I : @standard St _ sample_parts 7%N) 1%N 2%N 40 Free funded Hn
    ltac:(discriminate) reserve_elsewhere Hpay) as [Hw _].
  destruct (wp_ok _ _ _ _ _ _ Hw round_trip_ok) as [Hc [[_ Hs]|[Hl _]]]; [by split|discriminate Hl].
Defined.
