(* ===== verification/Evm.v ===== *)
(** * The EVM pallet: storage, contracts and deposits

    [modules/evm/src/lib.rs] without the calls that run code, and from
    [modules/evm/src/runner/handler.rs] what a running contract may do to the
    storage of the pallet.  The calls that run code are in [EvmRunner.v]. *)
From S2P Require Import Prelude Primitives Runtime Bytes EvmBridge EvmManager EvmAccounts StorageMeter.

Abbreviation H256 := Z.

(** ** Storage *)
Record ContractInfo := mkContractInfo { code_hash : H256; maintainer : EvmAddress; deployed : bool }.
Record AccountInfo := mkAccountInfo { nonce : Z; contract_info : option ContractInfo }.
Record CodeInfo := mkCodeInfo { code_size : Z; ref_count : Z }.

Inductive ReserveIdentifier :=
  | RCollatorSelection | REvmStorageDeposit | REvmDeveloperDeposit | RHonzon | RNft | RTransactionPayment.
Definition RESERVE_ID_STORAGE_DEPOSIT : ReserveIdentifier := REvmStorageDeposit.
Definition RESERVE_ID_DEVELOPER_DEPOSIT : ReserveIdentifier := REvmDeveloperDeposit.
Inductive BalanceStatus := Free | Reserved.

#[export] Instance reserve_identifier_dec : EqDecision ReserveIdentifier.
Proof. solve_decision. Defined.
#[export] Instance contract_info_dec : EqDecision ContractInfo.
Proof. solve_decision. Defined.
#[export] Instance account_info_dec : EqDecision AccountInfo.
Proof. solve_decision. Defined.

Module EvmEvent.
Inductive t :=
  | Log (address : EvmAddress) (topics : list H256) (data : bytes)
  | Created (a : EvmAddress)
  | CreatedFailed (a : EvmAddress) (r : ExitReason) (out : bytes)
  | Executed (a : EvmAddress)
  | ExecutedFailed (a : EvmAddress) (r : ExitReason) (out : bytes)
  | TransferredMaintainer (contract new_maintainer : EvmAddress)
  | ContractDevelopmentEnabled (who : AccountId)
  | ContractDevelopmentDisabled (who : AccountId)
  | ContractDeployed (contract : EvmAddress)
  | ContractSetCode (contract : EvmAddress)
  | ContractSelfdestructed (contract : EvmAddress).
End EvmEvent.

(** The errors of [evm], by their place in its enumeration *)
Abbreviation ExitErr := Z.
Definition OutOfGas : ExitErr := 9.
Definition OtherError : ExitErr := 13.

(** The settings of the machine the pallet itself reads; the others are for the
    interpreter. *)
Record EvmSettings := mkEvmSettings { call_l64_after_gas : bool; call_stipend : Z; estimate : bool }.
Definition ACALA_CONFIG : EvmSettings := mkEvmSettings true 2300 false.

(** ** What the pallet calls

    An operation of the chain that may reap accounts says which. *)
Class EvmConfig := {
  (* [sha3] and [rlp] *)
  keccak256 : bytes -> H256;
  rlp_list : EvmAddress -> Z -> bytes;
  (* accounts, balances, reserves and fees *)
  Chain : Type;
  Imbalance : Type;
  c_mapping :: AddressMapping Chain;
  c_free_balance : AccountId -> Chain -> Balance;
  c_reserved_balance_named : ReserveIdentifier -> AccountId -> Chain -> Balance;
  c_transfer : AccountId -> AccountId -> Balance -> Chain -> (Chain * list AccountId) + DispatchError;
  c_transfer_all : AccountId -> AccountId -> Chain -> (Chain * list AccountId) + DispatchError;
  c_reserve_named : ReserveIdentifier -> AccountId -> Balance -> Chain -> Chain + DispatchError;
  c_ensure_reserved_named : ReserveIdentifier -> AccountId -> Balance -> Chain -> Chain + DispatchError;
  c_unreserve_named : ReserveIdentifier -> AccountId -> Balance -> Chain -> Balance * Chain;
  c_unreserve_all_named : ReserveIdentifier -> AccountId -> Chain -> Balance * Chain;
  c_repatriate_reserved_named : ReserveIdentifier -> AccountId -> AccountId -> Balance -> BalanceStatus ->
    Chain -> (Balance * Chain) + DispatchError;
  c_inc_providers : AccountId -> Chain -> Chain;
  c_dec_providers : AccountId -> Chain -> option (Chain * list AccountId);
  (* the hooks of a killed account that come after the pallet's *)
  c_on_killed : AccountId -> Chain -> Chain;
  c_unreserve_and_charge_fee : AccountId -> Z -> Chain -> option (Imbalance * Chain);
  c_refund_fee : AccountId -> Z -> Imbalance -> Chain -> Chain;
  c_deposit_creating : AccountId -> Balance -> Chain -> Chain;
  c_block_hash : Z -> Chain -> H256;
  c_block_number : Chain -> Z;
  c_timestamp : Chain -> Z;
  (* constants, and the feature [with-ethereum-compatibility] *)
  NewContractExtraBytes : Z;
  StorageDepositPerByte : Balance;
  MaxCodeSize : Z;
  ChainId : Z;
  GasToWeight : Z -> Z;
  NetworkContractOrigin : Origin -> bool;
  NetworkContractSource : EvmAddress;
  DeveloperDeposit : Balance;
  DeploymentFee : Balance;
  EvmTreasuryAccount : AccountId;
  FreeDeploymentOrigin : Origin -> bool;
  with_ethereum_compatibility : bool }.

Record EvmState `{EvmConfig} := mkEvm {
  Accounts : gmap EvmAddress AccountInfo;
  ContractStorageSizes : gmap EvmAddress Z;
  AccountStorages : gmap EvmAddress (gmap H256 H256);
  Codes : gmap H256 bytes;
  CodeInfos : gmap H256 CodeInfo;
  NetworkContractIndex : Z;
  ExtrinsicOrigin : option AccountId;
  chain : Chain;
  evm_events : list EvmEvent.t }.

Section Setters.
Context `{EvmConfig}.
Definition set_accounts (x : gmap EvmAddress AccountInfo) (s : EvmState) : EvmState :=
  mkEvm _ x (ContractStorageSizes s) (AccountStorages s) (Codes s) (CodeInfos s)
    (NetworkContractIndex s) (ExtrinsicOrigin s) (chain s) (evm_events s).
Definition set_sizes (x : gmap EvmAddress Z) (s : EvmState) : EvmState :=
  mkEvm _ (Accounts s) x (AccountStorages s) (Codes s) (CodeInfos s)
    (NetworkContractIndex s) (ExtrinsicOrigin s) (chain s) (evm_events s).
Definition set_storages (x : gmap EvmAddress (gmap H256 H256)) (s : EvmState) : EvmState :=
  mkEvm _ (Accounts s) (ContractStorageSizes s) x (Codes s) (CodeInfos s)
    (NetworkContractIndex s) (ExtrinsicOrigin s) (chain s) (evm_events s).
Definition set_codes (x : gmap H256 bytes) (y : gmap H256 CodeInfo) (s : EvmState) : EvmState :=
  mkEvm _ (Accounts s) (ContractStorageSizes s) (AccountStorages s) x y
    (NetworkContractIndex s) (ExtrinsicOrigin s) (chain s) (evm_events s).
Definition set_network_index (x : Z) (s : EvmState) : EvmState :=
  mkEvm _ (Accounts s) (ContractStorageSizes s) (AccountStorages s) (Codes s) (CodeInfos s)
    x (ExtrinsicOrigin s) (chain s) (evm_events s).
Definition set_extrinsic_origin (x : option AccountId) (s : EvmState) : EvmState :=
  mkEvm _ (Accounts s) (ContractStorageSizes s) (AccountStorages s) (Codes s) (CodeInfos s)
    (NetworkContractIndex s) x (chain s) (evm_events s).
Definition set_chain (x : Chain) (s : EvmState) : EvmState :=
  mkEvm _ (Accounts s) (ContractStorageSizes s) (AccountStorages s) (Codes s) (CodeInfos s)
    (NetworkContractIndex s) (ExtrinsicOrigin s) x (evm_events s).
Definition evm_deposit_event (e : EvmEvent.t) (s : EvmState) : EvmState :=
  mkEvm _ (Accounts s) (ContractStorageSizes s) (AccountStorages s) (Codes s) (CodeInfos s)
    (NetworkContractIndex s) (ExtrinsicOrigin s) (chain s) (evm_events s ++ [e]).
End Setters.

Section Pallet.
Context `{EvmConfig}.
Abbreviation MD := (M DispatchError EvmState).

Definition storage_size (address : EvmAddress) (s : EvmState) : Z :=
  default 0 (ContractStorageSizes s !! address).
(** A slot that is not stored holds the default. *)
Definition account_storages (address : EvmAddress) (index : H256) (s : EvmState) : H256 :=
  default 0 (m ← AccountStorages s !! address; m !! index).
Definition codes (h : H256) (s : EvmState) : bytes := default [] (Codes s !! h).
Definition account_of (address : EvmAddress) (s : EvmState) : AccountId := get_account_id address (chain s).
Definition contract_at (address : EvmAddress) (s : EvmState) : option ContractInfo :=
  info ← Accounts s !! address; contract_info info.

(** ** Accounts that are reaped *)

(** A reference to the code less; the last one removes it. *)
Definition deref_code (h : H256) (s : EvmState) : EvmState :=
  match CodeInfos s !! h with
  | Some info =>
      let refs := U32.saturating_sub (ref_count info) 1 in
      if refs =? 0 then set_codes (delete h (Codes s)) (delete h (CodeInfos s)) s
      else set_codes (Codes s) (<[h := mkCodeInfo (code_size info) refs]> (CodeInfos s)) s
  | None => s
  end.

Definition remove_account (address : EvmAddress) (s : EvmState) : EvmState :=
  let s := match contract_at address s with Some info => deref_code (code_hash info) s | None => s end in
  set_accounts (delete address (Accounts s)) s.

(** [CallKillAccount] *)
Definition on_killed_account (who : AccountId) (s : EvmState) : EvmState :=
  let s := match get_evm_address who (chain s) with Some address => remove_account address s | None => s end in
  remove_account (get_default_evm_address who) s.

Definition reap (killed : list AccountId) (s : EvmState) : EvmState :=
  foldl (fun s who => let s := on_killed_account who s in set_chain (c_on_killed who (chain s)) s) s killed.

(** A call into the chain, without and with accounts reaped *)
Definition on_chain (f : Chain -> Chain + DispatchError) : MD unit := fun s =>
  match f (chain s) with
  | inl c => (Ok tt, set_chain c s)
  | inr e => (Err e, s)
  end.
Definition on_chain_reaping (f : Chain -> (Chain * list AccountId) + DispatchError) : MD unit := fun s =>
  match f (chain s) with
  | inl (c, killed) => (Ok tt, reap killed (set_chain c s))
  | inr e => (Err e, s)
  end.

(** ** Contracts *)
Definition contract_not_found : DispatchError := EvmE EvmError.ContractNotFound.

(** [try_mutate_exists] holds the account it has read and writes it back. *)
Definition remove_contract (address dest : EvmAddress) : MD Z :=
  transactional (
    address_account ← gets (account_of address);
    dest_account ← gets (account_of dest);
    account ← gets (fun s => Accounts s !! address);
    account_info ← ok_or account contract_not_found;
    info ← ok_or (contract_info account_info) contract_not_found;
    on_chain_reaping (c_transfer_all address_account dest_account);;
    modify (deref_code (code_hash info));;
    modify (fun s => set_storages (delete address (AccountStorages s)) s);;
    size ← gets (storage_size address);
    modify (fun s => set_sizes (delete address (ContractStorageSizes s)) s);;
    modify (fun s => set_accounts (<[address := mkAccountInfo (nonce account_info) None]> (Accounts s)) s);;
    on_chain_reaping (fun c => match c_dec_providers address_account c with
                               | Some r => inl r
                               | None => inr ConsumerRemaining
                               end);;
    mret size).

(** [evm::backend::Basic] *)
Record Account := mkAccount { ac_nonce : Z; ac_balance : Z }.
Definition account_basic (address : EvmAddress) (s : EvmState) : Account :=
  mkAccount (match Accounts s !! address with Some info => nonce info | None => 0 end)
    (c_free_balance (account_of address s) (chain s)).

Definition code_hash_at_address (address : EvmAddress) (s : EvmState) : H256 :=
  match contract_at address s with Some info => code_hash info | None => keccak256 [] end.
Definition code_at_address (address : EvmAddress) (s : EvmState) : bytes :=
  codes (code_hash_at_address address s) s.

Definition update_contract_storage_size (address : EvmAddress) (change : Z) (s : EvmState) : EvmState :=
  if change =? 0 then s
  else
    let val := storage_size address s in
    set_sizes (<[address := if 0 <? change then U32.saturating_add val change
                            else U32.saturating_sub val (- change)]> (ContractStorageSizes s)) s.

(** One more reference to the code, which is saved with its first *)
Definition ref_code (h : H256) (code : bytes) (s : EvmState) : EvmState :=
  match CodeInfos s !! h with
  | Some info =>
      set_codes (Codes s)
        (<[h := mkCodeInfo (code_size info) (U32.saturating_add (ref_count info) 1)]> (CodeInfos s)) s
  | None => set_codes (<[h := code]> (Codes s)) (<[h := mkCodeInfo (len code) 1]> (CodeInfos s)) s
  end.

Definition on_contract_initialization (address maintainer : EvmAddress) (code : bytes) :
    M ExitErr EvmState unit :=
  ensure (len code <=? MaxCodeSize) OutOfGas;;
  let h := keccak256 code in
  let info := mkContractInfo h maintainer with_ethereum_compatibility in
  modify (update_contract_storage_size address (as_i32 (U32.saturating_add (len code) NewContractExtraBytes)));;
  modify (ref_code h code);;
  modify (fun s =>
    let n := match Accounts s !! address with Some account_info => nonce account_info | None => 0 end in
    set_accounts (<[address := mkAccountInfo n (Some info)]> (Accounts s)) s);;
  modify (fun s => set_chain (c_inc_providers (account_of address s) (chain s)) s).

Definition do_transfer_maintainer (who : AccountId) (contract new_maintainer : EvmAddress) : MD unit :=
  account ← gets (fun s => Accounts s !! contract);
  account_info ← ok_or account contract_not_found;
  info ← ok_or (contract_info account_info) contract_not_found;
  address ← gets (fun s => get_evm_address who (chain s));
  address ← ok_or address (EvmE EvmError.AddressNotMapped);
  ensure (maintainer info =? address)%N (EvmE EvmError.NoPermission);;
  modify (fun s => set_accounts (<[contract := mkAccountInfo (nonce account_info)
    (Some (mkContractInfo (code_hash info) new_maintainer (deployed info)))]> (Accounts s)) s).

Definition mark_deployed (contract : EvmAddress) (who : option EvmAddress) : MD unit :=
  account ← gets (fun s => Accounts s !! contract);
  account_info ← ok_or account contract_not_found;
  info ← ok_or (contract_info account_info) contract_not_found;
  ensure (match who with Some m => (maintainer info =? m)%N | None => true end) (EvmE EvmError.NoPermission);;
  ensure (negb (deployed info)) (EvmE EvmError.ContractAlreadyDeployed);;
  modify (fun s => set_accounts (<[contract := mkAccountInfo (nonce account_info)
    (Some (mkContractInfo (code_hash info) (maintainer info) true))]> (Accounts s)) s).

Definition do_selfdestruct (who : AccountId) (address : EvmAddress) (contract : EvmAddress) : MD unit :=
  account ← gets (fun s => Accounts s !! contract);
  account_info ← ok_or account contract_not_found;
  info ← ok_or (contract_info account_info) contract_not_found;
  ensure (maintainer info =? address)%N (EvmE EvmError.NoPermission);;
  ensure (negb (deployed info)) (EvmE EvmError.ContractAlreadyDeployed);;
  storage ← remove_contract contract address;
  contract_account ← gets (account_of contract);
  let amount := U128.saturating_mul StorageDepositPerByte storage in
  on_chain (fun c =>
    match c_repatriate_reserved_named RESERVE_ID_STORAGE_DEPOSIT contract_account who amount Free c with
    | inl (_, c) => inl c
    | inr e => inr e
    end).

(** Left is the root, right a signer. *)
Definition ensure_root_or_signed (o : Origin) : MD (unit + AccountId) :=
  match o with
  | Root => mret (inl tt)
  | Signed who => mret (inr who)
  | NoOrigin => throw BadOrigin
  end.

(** ** The extrinsics that run no code *)
Definition transfer_maintainer (origin : Origin) (contract new_maintainer : EvmAddress) : MD unit :=
  transactional (
    who ← ensure_signed origin;
    do_transfer_maintainer who contract new_maintainer;;
    modify (evm_deposit_event (EvmEvent.TransferredMaintainer contract new_maintainer))).

Definition deploy (origin : Origin) (contract : EvmAddress) : MD unit :=
  transactional (
    who ← ensure_signed origin;
    address ← gets (fun s => get_evm_address who (chain s));
    address ← ok_or address (EvmE EvmError.AddressNotMapped);
    on_chain_reaping (c_transfer who EvmTreasuryAccount DeploymentFee);;
    mark_deployed contract (Some address);;
    modify (evm_deposit_event (EvmEvent.ContractDeployed contract))).

Definition deploy_free (origin : Origin) (contract : EvmAddress) : MD unit :=
  transactional (
    ensure_origin FreeDeploymentOrigin origin;;
    mark_deployed contract None;;
    modify (evm_deposit_event (EvmEvent.ContractDeployed contract))).

Definition developer_reserve (who : AccountId) (s : EvmState) : Balance :=
  c_reserved_balance_named RESERVE_ID_DEVELOPER_DEPOSIT who (chain s).

Definition enable_contract_development (origin : Origin) : MD unit :=
  transactional (
    who ← ensure_signed origin;
    reserved ← gets (developer_reserve who);
    ensure (reserved =? 0) (EvmE EvmError.ContractDevelopmentAlreadyEnabled);;
    on_chain (c_ensure_reserved_named RESERVE_ID_DEVELOPER_DEPOSIT who DeveloperDeposit);;
    modify (evm_deposit_event (EvmEvent.ContractDevelopmentEnabled who))).

Definition disable_contract_development (origin : Origin) : MD unit :=
  transactional (
    who ← ensure_signed origin;
    reserved ← gets (developer_reserve who);
    ensure (negb (reserved =? 0)) (EvmE EvmError.ContractDevelopmentNotEnabled);;
    on_chain (fun c => inl (c_unreserve_all_named RESERVE_ID_DEVELOPER_DEPOSIT who c).2);;
    modify (evm_deposit_event (EvmEvent.ContractDevelopmentDisabled who))).

Definition selfdestruct (origin : Origin) (contract : EvmAddress) : MD unit :=
  transactional (
    who ← ensure_signed origin;
    address ← gets (fun s => get_evm_address who (chain s));
    address ← ok_or address (EvmE EvmError.AddressNotMapped);
    do_selfdestruct who address contract;;
    modify (evm_deposit_event (EvmEvent.ContractSelfdestructed contract))).

(** ** The trait [EVMStateRentTrait] *)
Definition query_new_contract_extra_bytes : Z := NewContractExtraBytes.
Definition query_storage_deposit_per_byte : Balance := StorageDepositPerByte.
Definition query_maintainer (contract : EvmAddress) (s : EvmState) : outcome DispatchError EvmAddress :=
  match contract_at contract s with Some info => Ok (maintainer info) | None => Err contract_not_found end.
Definition query_developer_deposit : Balance := DeveloperDeposit.
Definition query_deployment_fee : Balance := DeploymentFee.
Definition rent_transfer_maintainer (from : AccountId) (contract new_maintainer : EvmAddress) : MD unit :=
  do_transfer_maintainer from contract new_maintainer.

(** ** [get_origin] and [set_origin], and the signed extension [SetEvmOrigin] *)
Definition get_origin (s : EvmState) : option AccountId := ExtrinsicOrigin s.
Definition set_origin (origin : AccountId) (s : EvmState) : EvmState := set_extrinsic_origin (Some origin) s.
Definition pre_dispatch (who : AccountId) (s : EvmState) : EvmState := set_extrinsic_origin (Some who) s.
Definition post_dispatch (s : EvmState) : EvmState := set_extrinsic_origin None s.

(** ** [impl StorageMeterHandler for StorageMeterHandlerImpl] *)
Section MeterHandler.
Context (origin : EvmAddress).

Definition impl_reserve_storage (limit : Z) : MD unit :=
  if limit =? 0 then mret tt
  else
    user ← gets (account_of origin);
    let amount := U128.saturating_mul StorageDepositPerByte limit in
    on_chain (c_reserve_named RESERVE_ID_STORAGE_DEPOSIT user amount).

Definition impl_unreserve_storage (limit used refunded : Z) : MD unit :=
  let total := U32.saturating_add limit refunded in
  let unused := U32.saturating_sub total used in
  if unused =? 0 then mret tt
  else
    user ← gets (account_of origin);
    let amount := U128.saturating_mul StorageDepositPerByte unused in
    on_chain (fun c => inl (c_unreserve_named RESERVE_ID_STORAGE_DEPOSIT user amount c).2).

Definition impl_charge_storage (contract : EvmAddress) (used refunded : Z) : MD unit :=
  if used =? refunded then mret tt
  else
    user ← gets (account_of origin);
    contract_acc ← gets (account_of contract);
    if refunded <? used then
      let storage := used - refunded in
      let amount := U128.saturating_mul StorageDepositPerByte storage in
      on_chain (fun c => inl (c_unreserve_named RESERVE_ID_STORAGE_DEPOSIT user amount c).2);;
      on_chain_reaping (c_transfer user contract_acc amount);;
      on_chain (c_reserve_named RESERVE_ID_STORAGE_DEPOSIT contract_acc amount)
    else
      let storage := refunded - used in
      let amount := U128.saturating_mul StorageDepositPerByte storage in
      on_chain (fun c =>
        match c_repatriate_reserved_named RESERVE_ID_STORAGE_DEPOSIT contract_acc user amount Reserved c with
        | inl (_, c) => inl c
        | inr e => inr e
        end).

Definition storage_meter_handler_impl : StorageMeterHandler EvmState := {|
  reserve_storage := impl_reserve_storage;
  unreserve_storage := impl_unreserve_storage;
  charge_storage := impl_charge_storage;
  out_of_storage_error := fun _ => EvmE EvmError.OutOfStorage |}.
End MeterHandler.

(** ** Who may call a contract *)
Definition is_developer_or_contract (caller : EvmAddress) (s : EvmState) : bool :=
  match Accounts s !! caller with
  | Some info =>
      bool_decide (is_Some (contract_info info))
      || negb (developer_reserve (account_of caller s) s =? 0)
  | None => false
  end.

Definition can_call_contract (address caller : EvmAddress) (s : EvmState) : bool :=
  match contract_at address s with
  | Some info => deployed info || (maintainer info =? caller)%N || is_developer_or_contract caller s
  | None => true
  end.

(** ** Addresses *)
Definition SYSTEM_CONTRACT_ADDRESS_PREFIX : bytes := repeat 0 11.
Definition PREDEPLOY_ADDRESS_START : Z := 0x800.

Inductive CreateScheme :=
  | Create2 (caller : EvmAddress) (code_hash : H256) (salt : H256)
  | Legacy (caller : EvmAddress)
  | Fixed (address : EvmAddress).

(** [H160::from(H256)] keeps the last twenty bytes. *)
Definition h160_from_h256 (h : H256) : EvmAddress := Z.to_N (h mod 2 ^ 160).

(** The error is [ConflictContractAddress]. *)
Definition create_address (scheme : CreateScheme) (s : EvmState) : option EvmAddress :=
  let address :=
    match scheme with
    | Create2 caller h salt =>
        h160_from_h256 (keccak256 ([255] ++ as_bytes caller ++ to_be_bytes 32 salt ++ to_be_bytes 32 h))
    | Legacy caller => h160_from_h256 (keccak256 (rlp_list caller (ac_nonce (account_basic caller s))))
    | Fixed naddress => naddress
    end in
  if starts_with (as_bytes address) SYSTEM_CONTRACT_ADDRESS_PREFIX then None else Some address.

Definition inc_nonce (address : EvmAddress) (s : EvmState) : EvmState :=
  let info := default (mkAccountInfo 0 None) (Accounts s !! address) in
  set_accounts (<[address := mkAccountInfo (u32_wrapping_add (nonce info) 1) (contract_info info)]> (Accounts s)) s.

Definition handle_mirrored_token (address : EvmAddress) : EvmAddress :=
  let addr := as_bytes address in
  if negb (starts_with addr SYSTEM_CONTRACT_ADDRESS_PREFIX) then address
  else if starts_with addr H160_PREFIX_TOKEN || starts_with addr H160_PREFIX_DEXSHARE
  then from_low_u64_be PREDEPLOY_ADDRESS_START
  else address.
End Pallet.
