(* ===== verification/EvmRunner.v ===== *)
(** * Running code

    [modules/evm/src/runner/handler.rs], [runner/mod.rs] and the calls of
    [modules/evm/src/lib.rs] that run code.  The interpreter and the gasometer
    of the crate [evm] are the class [EvmMachine]: an interpreter steps until it
    exits or asks its handler something, and goes on with the answer.  What it
    may ask is the trait [Handler] the pallet implements.

    The gas a transaction pays for bounds the steps of all of its frames; the
    model counts them.  The number of steps is a parameter, and a run that is not
    over when they are used up is a panic, of which no theorem says anything. *)
From S2P Require Import Prelude Primitives Runtime Bytes EvmBridge EvmManager EvmAccounts StorageMeter Evm.

(** ** What an interpreter asks *)
Record CallContext := mkCallContext { ctx_address : EvmAddress; ctx_caller : EvmAddress; ctx_apparent_value : Z }.
Record Transfer := mkTransfer { tr_source : EvmAddress; tr_target : EvmAddress; tr_value : Z }.
Record Vicinity := mkVicinity { gas_price : Z; vi_origin : EvmAddress }.

Inductive Request :=
  | AskBalance (a : EvmAddress)
  | AskCodeSize (a : EvmAddress)
  | AskCodeHash (a : EvmAddress)
  | AskCode (a : EvmAddress)
  | AskStorage (a : EvmAddress) (index : H256)
  | AskOriginalStorage (a : EvmAddress) (index : H256)
  | AskGasLeft
  | AskGasPrice
  | AskOrigin
  | AskBlockHash (number : Z)
  | AskBlockNumber
  | AskBlockCoinbase
  | AskBlockTimestamp
  | AskBlockDifficulty
  | AskBlockGasLimit
  | AskChainId
  | AskExists (a : EvmAddress)
  | AskDeleted (a : EvmAddress)
  | SetStorage (a : EvmAddress) (index value : H256)
  | EmitLog (a : EvmAddress) (topics : list H256) (data : bytes)
  | MarkDelete (a target : EvmAddress)
  | Create (caller : EvmAddress) (scheme : CreateScheme) (value : Z) (init_code : bytes) (target_gas : option Z)
  | Call (code_address : EvmAddress) (transfer : option Transfer) (input : bytes) (target_gas : option Z)
      (is_static : bool) (context : CallContext)
  | PreValidate (context : CallContext) (opcode : Z) (operands : list Z).

Definition Answer (q : Request) : Type :=
  match q with
  | AskCode _ => bytes
  | AskOrigin | AskBlockCoinbase => EvmAddress
  | AskExists _ | AskDeleted _ => bool
  | SetStorage _ _ _ | EmitLog _ _ _ | MarkDelete _ _ | PreValidate _ _ _ => unit + ExitErr
  | Create _ _ _ _ _ => ExitReason * option EvmAddress * bytes
  | Call _ _ _ _ _ _ => ExitReason * bytes
  | _ => Z
  end.

(** ** The crates [evm], [evm_gasometer] and the precompiled contracts *)
Class EvmMachine `{EvmConfig} := {
  Gas : Type;
  gas_new : Z -> EvmSettings -> Gas;
  gas_left : Gas -> Z;
  gas_total_used : Gas -> Z;
  gas_refunded : Gas -> Z;
  record_cost : Z -> M ExitErr Gas unit;
  record_deposit : Z -> M ExitErr Gas unit;
  record_stipend : Z -> M ExitErr Gas unit;
  record_refund : Z -> M ExitErr Gas unit;
  gas_fail : Gas -> Gas;
  TransactionCost : Type;
  call_transaction_cost : bytes -> TransactionCost;
  record_transaction : TransactionCost -> M ExitErr Gas unit;
  MemoryCost : Type;
  static_opcode_cost : Z -> option Z;
  dynamic_opcode_cost : EvmAddress -> Z -> list Z -> bool -> EvmSettings -> EvmState -> Gas ->
    (Z * MemoryCost) + ExitErr;
  record_dynamic_cost : Z -> MemoryCost -> M ExitErr Gas unit;
  (* [evm::Runtime]; a step ends with the reason and the return value *)
  Interpreter : Type;
  runtime_new : bytes -> bytes -> CallContext -> EvmSettings -> Interpreter;
  runtime_step : Interpreter -> ExitReason * bytes + {q : Request & Answer q -> Interpreter};
  (* [Precompiles] *)
  precompiles_execute : EvmAddress -> bytes -> option Z -> CallContext -> EvmState ->
    option (ExitSucceed * bytes * Z + ExitErr) * EvmState }.

Definition is_succeed (r : ExitReason) : bool := match r with Succeed _ => true | _ => false end.
Definition l64 (gas : Z) : Z := gas - gas / 64.
Definition u64_saturating_add (a b : Z) : Z := Z.min (a + b) (2 ^ 64 - 1).
Definition u64_saturating_sub (a b : Z) : Z := Z.max (a - b) 0.

(** [Result::map_err] *)
Definition map_err {E E' S A} (f : E -> E') (m : M E S A) : M E' S A := fun s =>
  match m s with
  | (Ok a, s') => (Ok a, s')
  | (Err e, s') => (Err (f e), s')
  | (Panic, s') => (Panic, s')
  end.

(** A call that always returns a value has no errors. *)
Abbreviation Never := Empty_set.
Definition never {E} (e : Never) : E := match e with end.
(** An error is a value for the caller. *)
Definition catch {E S A} (m : M E S A) : M Never S (A + E) := fun s =>
  match m s with
  | (Ok a, s') => (Ok (inl a), s')
  | (Err e, s') => (Ok (inr e), s')
  | (Panic, s') => (Panic, s')
  end.
(** [unwrap_or_else], with what an error is replaced by *)
Definition unwrap_or {E S A} (a : A) (m : M E S A) : M Never S A := fun s =>
  match m s with
  | (Ok b, s') => (Ok b, s')
  | (Err _, s') => (Ok a, s')
  | (Panic, s') => (Panic, s')
  end.

(** Storage key size and storage value size *)
Definition STORAGE_SIZE : Z := 64.

Section Machine.
Context `{EvmMachine}.

(** ** The handler of a frame *)

(** Its gasometer, the meters of the frames that run, over the storage, and the
    steps that are left *)
Record Frame := mkFrame { gasometer : Gas; steps : nat; meters : Meters EvmState }.
Definition state_of (w : Frame) : EvmState := base (meters w).

Definition on_gas {E A} (f : M E Gas A) : M E Frame A := fun w =>
  let r := f (gasometer w) in (r.1, mkFrame r.2 (steps w) (meters w)).
Definition on_meters {E A} (f : M E (Meters EvmState) A) : M E Frame A := fun w =>
  let r := f (meters w) in (r.1, mkFrame (gasometer w) (steps w) r.2).
Definition on_state {E A} (f : M E EvmState A) : M E Frame A := on_meters (fun w =>
  let r := f (base w) in (r.1, mkMeters (stack w) r.2)).
Definition tick : M Never Frame unit := fun w =>
  match steps w with
  | O => (Panic, w)
  | S n => (Ok tt, mkFrame (gasometer w) n (meters w))
  end.

(** [used_gas]; a cast to [u64] *)
Definition handler_used_gas (w : Frame) : Z :=
  let total := gas_total_used (gasometer w) in
  total - Z.min (total / 2) (gas_refunded (gasometer w) mod 2 ^ 64).
Definition handler_used_storage (w : Frame) : Z :=
  match stack (meters w) with m :: _ => sm_used_storage m | [] => 0 end.

Definition handler_transfer (t : Transfer) : M ExitErr EvmState unit :=
  source ← gets (account_of (tr_source t));
  target ← gets (account_of (tr_target t));
  map_err (fun _ => OutOfGas) (on_chain_reaping (c_transfer source target (Z.min (tr_value t) U128_MAX))).

(** *** Reading *)
Definition handler_code_hash (address : EvmAddress) (s : EvmState) : H256 :=
  code_hash_at_address (handle_mirrored_token address) s.
Definition handler_code_size (address : EvmAddress) (s : EvmState) : Z :=
  let addr := handle_mirrored_token address in
  default 0 (len <$> Codes s !! handler_code_hash addr s).
Definition handler_code (address : EvmAddress) (s : EvmState) : bytes :=
  code_at_address (handle_mirrored_token address) s.
Definition handler_block_hash (number : Z) (s : EvmState) : H256 :=
  if U32_MAX <? number then 0 else c_block_hash number (chain s).

(** *** Writing *)
Inductive StorageChange := Unchanged | Added | Removed.

Definition set_storage (is_static : bool) (address : EvmAddress) (index value : H256) : M ExitErr Frame unit :=
  if is_static then throw OutOfGas
  else
    prev ← gets (fun w => account_storages address index (state_of w));
    let is_prev_value_default := prev =? 0 in
    let change :=
      if value =? 0 then (if is_prev_value_default then Unchanged else Removed)
      else (if is_prev_value_default then Added else Unchanged) in
    on_state (modify (fun s =>
      let slots := default ∅ (AccountStorages s !! address) in
      let slots := if value =? 0 then delete index slots else <[index := value]> slots in
      set_storages (<[address := slots]> (AccountStorages s)) s));;
    match change with
    | Added =>
        on_state (modify (update_contract_storage_size address STORAGE_SIZE));;
        map_err (fun _ => OutOfGas) (on_meters (charge STORAGE_SIZE))
    | Removed =>
        on_state (modify (update_contract_storage_size address (- STORAGE_SIZE)));;
        map_err (fun _ => OutOfGas) (on_meters (refund STORAGE_SIZE))
    | Unchanged => mret tt
    end.

Definition handler_log (address : EvmAddress) (topics : list H256) (data : bytes) : M ExitErr Frame unit :=
  on_state (modify (evm_deposit_event (EvmEvent.Log address topics data))).

Definition mark_delete (is_static : bool) (address target : EvmAddress) : M ExitErr Frame unit :=
  if is_static then throw OutOfGas
  else
    storage ← map_err (fun _ => OtherError) (on_state (remove_contract address target));
    map_err (fun _ => OtherError) (on_meters (refund storage)).

Section Vicinity.
Context (vicinity : Vicinity) (config : EvmSettings).

#[local] Instance vicinity_handler : StorageMeterHandler EvmState :=
  storage_meter_handler_impl (vi_origin vicinity).

Definition pre_validate (is_static : bool) (context : CallContext) (opcode : Z) (operands : list Z) :
    M ExitErr Frame unit :=
  match static_opcode_cost opcode with
  | Some cost => on_gas (record_cost cost)
  | None =>
      r ← gets (fun w => dynamic_opcode_cost (ctx_address context) opcode operands is_static config
                           (state_of w) (gasometer w));
      match r with
      | inl (gas_cost, memory_cost) => on_gas (record_dynamic_cost gas_cost memory_cost)
      | inr e => throw e
      end
  end.

(** *** Sub transactions

    A closure ends with [Ok] to commit and with [Err] to roll back; it works on
    the gasometer of the caller and on the frame of the callee. *)
Definition on_caller {E A} (f : M E Gas A) : M E (Gas * Frame) A := fun w =>
  let r := f w.1 in (r.1, (r.2, w.2)).
Definition on_callee {E A} (f : M E Frame A) : M E (Gas * Frame) A := fun w =>
  let r := f w.2 in (r.1, (w.1, r.2)).

Definition handler_sub_transaction {R} (gas_limit : Z) (contract : EvmAddress) (f : M R (Gas * Frame) R) :
    M DispatchError Frame R := fun w =>
  let closure := fun '(g, n, ms) =>
    match f (g, mkFrame (gas_new gas_limit config) n ms) with
    | (Ok r, (g', w')) => (Commit _ (Some r), (g', steps w', meters w'))
    | (Err r, (g', w')) => (Rollback _ (Some r), (g', steps w', meters w'))
    | (Panic, (g', w')) => (Rollback _ None, (g', steps w', meters w'))
    end in
  match run_sub_transaction contract closure (gasometer w, steps w, meters w) with
  | (Ok (Some r), (g, n, ms)) => (Ok r, mkFrame g n ms)
  | (Err e, (g, n, ms)) => (Err e, mkFrame g n ms)
  | (_, (g, n, ms)) => (Panic, mkFrame g n ms)
  end.

(** *** Frames that open frames, given how one runs *)
Section Open.
Context (run : bool -> Interpreter -> M Never Frame (ExitReason * bytes)).

Definition handler_execute (is_static : bool) (caller address : EvmAddress) (value : Z) (code input : bytes) :
    M Never Frame (ExitReason * bytes) :=
  let context := mkCallContext address caller value in
  r ← run is_static (runtime_new code input context config);
  match r with
  | (Succeed s, out) => mret (Succeed s, out)
  | (ExitError e, _) => mret (ExitError e, [])
  | (Revert, out) => mret (Revert, out)
  | (Fatal e, _) =>
      on_gas (modify gas_fail);;
      mret (Fatal e, [])
  end.

(** The closure of [create] *)
Definition create_frame (caller address : EvmAddress) (value : Z) (init_code : bytes) :
    M (ExitReason * option EvmAddress * bytes) (Gas * Frame) (ExitReason * option EvmAddress * bytes) :=
  let fail (e : ExitErr) := (ExitError e, None, []) : ExitReason * option EvmAddress * bytes in
  let try_or_rollback (m : M ExitErr (Gas * Frame) unit) := map_err fail m in
  try_or_rollback (on_callee (on_state (handler_transfer (mkTransfer caller address value))));;
  r ← map_err never (on_callee (handler_execute false caller address value init_code []));
  match r with
  | (Succeed s, out) =>
      try_or_rollback (on_callee (on_gas (record_deposit (len out))));;
      callee ← gets (fun w => gasometer w.2);
      try_or_rollback (on_caller (record_stipend (gas_left callee)));;
      try_or_rollback (on_caller (record_refund (gas_refunded callee)));;
      on_callee (on_state (modify (inc_nonce address)));;
      map_err (fun _ => fail OutOfGas) (on_callee (on_meters
        (charge (U32.saturating_add (len out mod 2 ^ 32) NewContractExtraBytes))));;
      try_or_rollback (on_callee (on_state (on_contract_initialization address (vi_origin vicinity) out)));;
      mret (Succeed s, Some address, [])
  | (Revert, out) => throw (Revert, None, out)
  | (ExitError e, _) => throw (fail e)
  | (Fatal e, _) =>
      on_caller (modify gas_fail);;
      throw (Fatal e, None, [])
  end.

Definition handler_create (is_static : bool) (caller : EvmAddress) (scheme : CreateScheme) (value : Z)
    (init_code : bytes) (target_gas : option Z) : M Never Frame (ExitReason * option EvmAddress * bytes) :=
  let fail (e : ExitErr) := (ExitError e, None, []) : ExitReason * option EvmAddress * bytes in
  if is_static then mret (fail OutOfGas)
  else
    gas ← gets (fun w => gas_left (gasometer w));
    let after_gas := if call_l64_after_gas config then l64 gas else gas in
    let target_gas := Z.min (default after_gas target_gas) after_gas in
    paid ← catch (on_gas (record_cost target_gas));
    match paid with
    | inr e => mret (fail e)
    | inl _ =>
        maybe_address ← gets (fun w => create_address scheme (state_of w));
        match maybe_address with
        | None => mret (fail OtherError)
        | Some address =>
            on_state (modify (inc_nonce caller));;
            unwrap_or (fail OtherError) (handler_sub_transaction target_gas address
              (create_frame caller address value init_code))
        end
    end.

(** The closure of [call] *)
Definition call_frame (callee_static : bool) (code_address : EvmAddress) (code : bytes)
    (transfer : option Transfer) (input : bytes) (target_gas : Z) (context : CallContext) :
    M (ExitReason * bytes) (Gas * Frame) (ExitReason * bytes) :=
  let fail (e : ExitErr) := (ExitError e, []) : ExitReason * bytes in
  let try_or_rollback (m : M ExitErr (Gas * Frame) unit) := map_err fail m in
  match transfer with
  | Some t => try_or_rollback (on_callee (on_state (handler_transfer t)))
  | None => mret tt
  end;;
  try_or_rollback (on_caller (record_cost target_gas));;
  ret ← on_callee (on_state (fun s =>
    let r := precompiles_execute code_address input (Some target_gas) context s in (Ok r.1, r.2)));
  match ret with
  | Some (inl (s, out, cost)) =>
      try_or_rollback (on_callee (on_gas (record_cost cost)));;
      callee ← gets (fun w => gasometer w.2);
      try_or_rollback (on_caller (record_stipend (gas_left callee)));;
      try_or_rollback (on_caller (record_refund (gas_refunded callee)));;
      mret (Succeed s, out)
  | Some (inr e) => throw (fail e)
  | None =>
      r ← map_err never (on_callee (handler_execute callee_static (ctx_caller context)
            (ctx_address context) (ctx_apparent_value context) code input));
      match r with
      | (Succeed s, out) =>
          callee ← gets (fun w => gasometer w.2);
          try_or_rollback (on_caller (record_stipend (gas_left callee)));;
          try_or_rollback (on_caller (record_refund (gas_refunded callee)));;
          mret (Succeed s, out)
      | (Revert, out) => throw (Revert, out)
      | (ExitError e, _) => throw (fail e)
      | (Fatal e, _) =>
          on_caller (modify gas_fail);;
          throw (Fatal e, [])
      end
  end.

Definition handler_call (is_static : bool) (code_address : EvmAddress) (transfer : option Transfer)
    (input : bytes) (target_gas : option Z) (static_call : bool) (context : CallContext) :
    M Never Frame (ExitReason * bytes) :=
  let fail (e : ExitErr) := (ExitError e, []) : ExitReason * bytes in
  if is_static && bool_decide (is_Some transfer) then mret (fail OutOfGas)
  else
    gas ← gets (fun w => gas_left (gasometer w));
    let after_gas := if call_l64_after_gas config then l64 gas else gas in
    let target_gas := Z.min (default after_gas target_gas) after_gas in
    let target_gas :=
      match transfer with
      | Some t => if tr_value t =? 0 then target_gas else u64_saturating_add target_gas (call_stipend config)
      | None => target_gas
      end in
    code ← gets (fun w => handler_code code_address (state_of w));
    unwrap_or (fail OtherError) (handler_sub_transaction target_gas (ctx_address context)
      (call_frame (is_static || static_call) code_address code transfer input target_gas context)).

(** The answer to a request; an error is part of it. *)
Definition answer (is_static : bool) (q : Request) : M Never Frame (Answer q) :=
  match q with
  | AskBalance a => gets (fun w => ac_balance (account_basic a (state_of w)))
  | AskCodeSize a => gets (fun w => handler_code_size a (state_of w))
  | AskCodeHash a => gets (fun w => handler_code_hash a (state_of w))
  | AskCode a => gets (fun w => handler_code a (state_of w))
  | AskStorage a index => gets (fun w => account_storages a index (state_of w))
  | AskOriginalStorage _ _ => mret 0
  | AskGasLeft => gets (fun w => gas_left (gasometer w))
  | AskGasPrice => mret (gas_price vicinity)
  | AskOrigin => mret (vi_origin vicinity)
  | AskBlockHash number => gets (fun w => handler_block_hash number (state_of w))
  | AskBlockNumber => gets (fun w => c_block_number (chain (state_of w)))
  | AskBlockCoinbase => mret 0%N
  | AskBlockTimestamp => gets (fun w => c_timestamp (chain (state_of w)) / 1000)
  | AskBlockDifficulty => mret 0
  | AskBlockGasLimit => mret 0
  | AskChainId => mret ChainId
  | AskExists _ => mret true
  | AskDeleted _ => mret true
  | SetStorage a index value => catch (set_storage is_static a index value)
  | EmitLog a topics data => catch (handler_log a topics data)
  | MarkDelete a target => catch (mark_delete is_static a target)
  | Create caller scheme value init_code target_gas =>
      handler_create is_static caller scheme value init_code target_gas
  | Call code_address transfer input target_gas static_call context =>
      handler_call is_static code_address transfer input target_gas static_call context
  | PreValidate context opcode operands => catch (pre_validate is_static context opcode operands)
  end.
End Open.

(** [Runtime::run]: every step is paid for. *)
Fixpoint run_frame (fuel : nat) (is_static : bool) (m : Interpreter) : M Never Frame (ExitReason * bytes) :=
  match fuel with
  | O => panic
  | S fuel =>
      tick;;
      match runtime_step m with
      | inl r => mret r
      | inr (existT q k) =>
          a ← answer (run_frame fuel) is_static q;
          run_frame fuel is_static (k a)
      end
  end.

(** [run_transaction]; a closure commits with [Ok] and rolls back with [Err].
    Both the depth of frames and their steps are at most [n]. *)
Definition handler_transaction {R} (n : nat) (gas_limit storage_limit : Z) (contract : EvmAddress)
    (f : M R Frame R) : M DispatchError EvmState R := fun s =>
  let closure := fun ms =>
    match f (mkFrame (gas_new gas_limit config) n ms) with
    | (Ok r, w) => (Commit _ (Some r), meters w)
    | (Err r, w) => (Rollback _ (Some r), meters w)
    | (Panic, w) => (Rollback _ None, meters w)
    end in
  match run_transaction storage_limit contract closure s with
  | (Ok (Some r), s') => (Ok r, s')
  | (Err e, s') => (Err e, s')
  | (_, s') => (Panic, s')
  end.

Definition execute_first (n : nat) (caller address : EvmAddress) (value : Z) (code input : bytes) :
    M Never Frame (ExitReason * bytes) :=
  handler_execute (run_frame n) false caller address value code input.
End Vicinity.

(** ** The runner *)
Record CreateInfo := mkCreateInfo {
  cr_exit_reason : ExitReason;
  cr_address : EvmAddress;
  cr_output : bytes;
  cr_used_gas : Z;
  cr_used_storage : Z }.

Definition runner_transfer (source target : EvmAddress) (value : Balance) : M DispatchError EvmState unit :=
  if value =? 0 then mret tt
  else
    from ← gets (account_of source);
    to ← gets (account_of target);
    on_chain_reaping (c_transfer from to value).

(** [?] on what the closure returns *)
Definition flatten {S A} (m : M DispatchError S (A + DispatchError)) : M DispatchError S A :=
  r ← m;
  match r with inl a => mret a | inr e => throw e end.

Section Runner.
Context (n : nat).

Definition inner_create (source : EvmAddress) (init : bytes) (value : Balance) (gas_limit storage_limit : Z)
    (assigned_address : option EvmAddress) (salt : option H256) (config : EvmSettings) :
    M DispatchError EvmState CreateInfo :=
  let vicinity := mkVicinity 1 source in
  let scheme := match salt with Some s => Create2 source (keccak256 init) s | None => Legacy source end in
  created ← gets (create_address scheme);
  address ← match assigned_address with
            | Some addr => mret addr
            | None => ok_or created (EvmE EvmError.ConflictContractAddress)
            end;
  modify (inc_nonce source);;
  flatten (handler_transaction vicinity config n gas_limit storage_limit address (
    map_err inr (on_state (runner_transfer source address value));;
    map_err (fun _ => inr (Other "OutOfGas")) (on_gas (record_transaction (call_transaction_cost init)));;
    r ← map_err never (execute_first vicinity config n source address value init []);
    let (reason, out) := r : ExitReason * bytes in
    used_gas ← gets handler_used_gas;
    used_storage ← gets handler_used_storage;
    if negb (is_succeed reason) then throw (inl (mkCreateInfo reason address out used_gas used_storage))
    else
      map_err (fun e => inl (mkCreateInfo (ExitError e) address [] used_gas used_storage))
        (on_gas (record_deposit (len out)));;
      used_gas ← gets handler_used_gas;
      on_state (modify (inc_nonce address));;
      map_err (fun _ => inl (mkCreateInfo (ExitError OutOfGas) address [] used_gas used_storage))
        (on_meters (charge (U32.saturating_add (len out mod 2 ^ 32) NewContractExtraBytes)));;
      used_storage ← gets handler_used_storage;
      map_err (fun e => inl (mkCreateInfo (ExitError e) address [] used_gas used_storage))
        (on_state (on_contract_initialization address source out));;
      mret (inl (mkCreateInfo reason address [] used_gas used_storage)))).

Definition runner_call (sender origin target : EvmAddress) (input : bytes) (value : Balance)
    (gas_limit storage_limit : Z) (config : EvmSettings) : M DispatchError EvmState CallInfo :=
  let vicinity := mkVicinity 1 origin in
  allowed ← gets (can_call_contract target sender);
  ensure allowed (EvmE EvmError.NoPermission);;
  modify (inc_nonce sender);;
  flatten (handler_transaction vicinity config n gas_limit storage_limit target (
    map_err inr (on_state (runner_transfer sender target value));;
    code ← gets (fun w => handler_code target (state_of w));
    map_err (fun _ => inr (Other "OutOfGas")) (on_gas (record_transaction (call_transaction_cost code)));;
    r ← map_err never (execute_first vicinity config n sender target value code input);
    let (reason, out) := r : ExitReason * bytes in
    used_gas ← gets handler_used_gas;
    used_storage ← gets handler_used_storage;
    let call_info := mkCallInfo reason out used_gas used_storage in
    if negb (is_succeed reason) then throw (inl call_info) else mret (inl call_info))).

Definition runner_create (source : EvmAddress) (init : bytes) (value : Balance) (gas_limit storage_limit : Z)
    (config : EvmSettings) : M DispatchError EvmState CreateInfo :=
  inner_create source init value gas_limit storage_limit None None config.
Definition runner_create2 (source : EvmAddress) (init : bytes) (salt : H256) (value : Balance)
    (gas_limit storage_limit : Z) (config : EvmSettings) : M DispatchError EvmState CreateInfo :=
  inner_create source init value gas_limit storage_limit None (Some salt) config.
Definition create_at_address (source : EvmAddress) (init : bytes) (value : Balance)
    (assigned_address : EvmAddress) (gas_limit storage_limit : Z) (config : EvmSettings) :
    M DispatchError EvmState CreateInfo :=
  inner_create source init value gas_limit storage_limit (Some assigned_address) None config.

(** ** The extrinsics that run code, which return their actual weight *)
Definition evm_address_of_signer (who : AccountId) : M DispatchError EvmState EvmAddress := fun s =>
  let (address, c) := get_or_create_evm_address who (chain s) in (Ok address, set_chain c s).

Definition actual_weight (used_gas : Z) : Z := GasToWeight (Z.min used_gas (2 ^ 64 - 1)).
Definition call_event (target : EvmAddress) (info : CallInfo) : EvmEvent.t :=
  if is_succeed (exit_reason info) then EvmEvent.Executed target
  else EvmEvent.ExecutedFailed target (exit_reason info) (output info).
Definition create_event (info : CreateInfo) : EvmEvent.t :=
  if is_succeed (cr_exit_reason info) then EvmEvent.Created (cr_address info)
  else EvmEvent.CreatedFailed (cr_address info) (cr_exit_reason info) (cr_output info).

Definition evm_call (origin : Origin) (target : EvmAddress) (input : bytes) (value : Balance)
    (gas_limit storage_limit : Z) : M DispatchError EvmState Z :=
  who ← ensure_signed origin;
  source ← evm_address_of_signer who;
  info ← runner_call source source target input value gas_limit storage_limit ACALA_CONFIG;
  modify (evm_deposit_event (call_event target info));;
  mret (actual_weight (used_gas info)).

Definition ensure_root (o : Origin) : M DispatchError EvmState unit :=
  match o with Root => mret tt | _ => throw BadOrigin end.

Definition scheduled_call (origin : Origin) (from target : EvmAddress) (input : bytes) (value : Balance)
    (gas_limit storage_limit : Z) : M DispatchError EvmState Z :=
  transactional (
    ensure_root origin;;
    from_account ← gets (account_of from);
    payed ← (if with_ethereum_compatibility then mret None
             else fun s =>
               match c_unreserve_and_charge_fee from_account (GasToWeight gas_limit) (chain s) with
               | Some (imbalance, c) => (Ok (Some imbalance), set_chain c s)
               | None => (Err (EvmE EvmError.ChargeFeeFailed), s)
               end);
    info ← runner_call from from target input value gas_limit storage_limit ACALA_CONFIG;
    modify (evm_deposit_event (call_event target info));;
    let refund_gas := u64_saturating_sub gas_limit (Z.min (used_gas info) (2 ^ 64 - 1)) in
    match payed with
    | Some imbalance =>
        if refund_gas =? 0 then mret tt
        else modify (fun s => set_chain (c_refund_fee from_account (GasToWeight refund_gas) imbalance (chain s)) s)
    | None => mret tt
    end;;
    mret (actual_weight (used_gas info))).

Definition evm_create (origin : Origin) (init : bytes) (value : Balance) (gas_limit storage_limit : Z) :
    M DispatchError EvmState Z :=
  who ← ensure_signed origin;
  source ← evm_address_of_signer who;
  info ← runner_create source init value gas_limit storage_limit ACALA_CONFIG;
  modify (evm_deposit_event (create_event info));;
  mret (actual_weight (cr_used_gas info)).

Definition evm_create2 (origin : Origin) (init : bytes) (salt : H256) (value : Balance)
    (gas_limit storage_limit : Z) : M DispatchError EvmState Z :=
  who ← ensure_signed origin;
  source ← evm_address_of_signer who;
  info ← runner_create2 source init salt value gas_limit storage_limit ACALA_CONFIG;
  modify (evm_deposit_event (create_event info));;
  mret (actual_weight (cr_used_gas info)).

Definition create_network_contract (origin : Origin) (init : bytes) (value : Balance)
    (gas_limit storage_limit : Z) : M DispatchError EvmState Z :=
  ensure_origin NetworkContractOrigin origin;;
  address ← gets (fun s => from_low_u64_be (NetworkContractIndex s));
  info ← create_at_address NetworkContractSource init value address gas_limit storage_limit ACALA_CONFIG;
  modify (fun s => set_network_index (u64_saturating_add (NetworkContractIndex s) 1) s);;
  modify (evm_deposit_event (create_event info));;
  mret (actual_weight (cr_used_gas info)).

(** [Accounts::mutate], of a closure that assigns nothing: what it has read
    before it ran is what is stored after. *)
Definition accounts_mutate {A} (contract : EvmAddress) (f : option AccountInfo -> M DispatchError EvmState A) :
    M DispatchError EvmState A := fun s =>
  let value := Accounts s !! contract in
  let r := f value s in
  (r.1, set_accounts (partial_alter (fun _ => value) contract (Accounts r.2)) r.2).

Definition do_set_code (root_or_signed : unit + AccountId) (contract : EvmAddress) (code : bytes) :
    M DispatchError EvmState unit :=
  accounts_mutate contract (fun account =>
    account_info ← ok_or account contract_not_found;
    info ← ok_or (contract_info account_info) contract_not_found;
    source ← match root_or_signed with
             | inr signer =>
                 address ← gets (fun s => get_evm_address signer (chain s));
                 address ← ok_or address (EvmE EvmError.AddressNotMapped);
                 ensure (maintainer info =? address)%N (EvmE EvmError.NoPermission);;
                 ensure (negb (deployed info)) (EvmE EvmError.ContractAlreadyDeployed);;
                 mret address
             | inl _ => mret NetworkContractSource
             end;
    if keccak256 code =? code_hash info then mret tt
    else
      ensure (len code mod 2 ^ 32 <=? MaxCodeSize) (EvmE EvmError.ContractExceedsMaxCodeSize);;
      create_at_address source code 0 contract 2100000 100000 ACALA_CONFIG;;
      mret tt).

Definition set_code (origin : Origin) (contract : EvmAddress) (code : bytes) : M DispatchError EvmState unit :=
  transactional (
    root_or_signed ← ensure_root_or_signed origin;
    do_set_code root_or_signed contract code;;
    modify (evm_deposit_event (EvmEvent.ContractSetCode contract))).

(** ** [impl EVMTrait for Pallet]; a failed execution rolls its event back too. *)
Definition evm_trait_execute (context : InvokeContext) (input : bytes) (value : Balance)
    (gas_limit storage_limit : Z) (mode : ExecutionMode) : M DispatchError EvmState CallInfo := fun s =>
  let config := match mode with
                | EstimateGas => mkEvmSettings (call_l64_after_gas ACALA_CONFIG) (call_stipend ACALA_CONFIG) true
                | _ => ACALA_CONFIG
                end in
  match runner_call (ic_sender context) (ic_origin context) (ic_contract context) input value
          gas_limit storage_limit config s with
  | (Ok info, s') =>
      match mode with
      | Execute =>
          if is_succeed (exit_reason info)
          then (Ok info, evm_deposit_event (EvmEvent.Executed (ic_contract context)) s')
          else (Ok info, s)
      | View | EstimateGas => (Ok info, s)
      end
  | (Err e, _) => (Err e, s)
  | (Panic, _) => (Panic, s)
  end.

(** ** Genesis: what [expect] and [assert!] refuse aborts. *)
Record GenesisAccount := mkGenesisAccount {
  ga_nonce : Z;
  ga_balance : Balance;
  ga_storage : list (H256 * H256);
  ga_code : bytes }.

Definition expect_ok {E S A} (m : M E S A) : M DispatchError S A := fun s =>
  match m s with
  | (Ok a, s') => (Ok a, s')
  | (_, s') => (Panic, s')
  end.

Definition genesis_contract (treasury address : EvmAddress) (account : GenesisAccount) :
    M DispatchError EvmState unit :=
  let vicinity := mkVicinity 1 NetworkContractSource in
  out ← (fun s =>
    let hdl := storage_meter_handler_impl (vi_origin vicinity) in
    match meter_new (Hdl := hdl) address 0 (mkMeters [] s) with
    | (Ok _, ms) =>
        match execute_first vicinity ACALA_CONFIG n NetworkContractSource address 0 (ga_code account) []
                (mkFrame (gas_new 2100000 ACALA_CONFIG) n ms) with
        | (Ok (Succeed _, out), w) => (Ok out, state_of w)
        | (_, w) => (Panic, state_of w)
        end
    | (_, ms) => (Panic, base ms)
    end);
  expect_ok (on_contract_initialization address NetworkContractSource out);;
  (if with_ethereum_compatibility then mret tt else expect_ok (mark_deployed address None));;
  modify (fun s =>
    set_storages (<[address :=
      foldl (fun slots kv => <[kv.1 := kv.2]> slots) (default ∅ (AccountStorages s !! address)) (ga_storage account)]>
      (AccountStorages s)) s);;
  let storage := Z.of_nat (length (ga_storage account)) * STORAGE_SIZE in
  expect_ok (impl_reserve_storage treasury storage);;
  expect_ok (impl_charge_storage treasury address storage 0).

Definition genesis_account (treasury : EvmAddress) (entry : EvmAddress * GenesisAccount) :
    M DispatchError EvmState unit :=
  let (address, account) := entry in
  account_id ← gets (account_of address);
  modify (fun s => set_accounts (<[address := mkAccountInfo (ga_nonce account) None]> (Accounts s)) s);;
  modify (fun s => set_chain (c_deposit_creating account_id (ga_balance account) (chain s)) s);;
  if decide (ga_code account = []) then mret tt else genesis_contract treasury address account.

Definition MIRRORED_NFT_ADDRESS_START : Z := 0x2000000.
Definition genesis_build (accounts : list (EvmAddress * GenesisAccount)) (treasury : AccountId) :
    M DispatchError EvmState unit :=
  treasury ← evm_address_of_signer treasury;
  for_each (genesis_account treasury) accounts;;
  modify (set_network_index MIRRORED_NFT_ADDRESS_START).
End Runner.
End Machine.
