(* ===== verification/EvmFrames.v ===== *)
(** * What every frame keeps

    A property of the storage and of the meters that open frames stand for is
    kept by any program, at any depth of calls, when the operations of the
    handler keep it.  The proof is done once, by induction on the steps; the
    theorems about storage deposits and code references instantiate it. *)
From S2P Require Import Prelude Primitives Runtime Bytes EvmBridge EvmManager EvmAccounts StorageMeter Evm EvmRunner.

(** ** Partial correctness: a run that is cut off promises nothing. *)
Section WLP.
Context {E S : Type}.
Definition wlp {A} (m : M E S A) (Q : A -> S -> Prop) (R : E -> S -> Prop) (s : S) : Prop :=
  match m s with
  | (Ok a, s') => Q a s'
  | (Err e, s') => R e s'
  | (Panic, _) => True
  end.
Lemma wlp_mono {A} (m : M E S A) (Q Q' : A -> S -> Prop) (R R' : E -> S -> Prop) s :
  wlp m Q R s -> (forall a t, Q a t -> Q' a t) -> (forall e t, R e t -> R' e t) -> wlp m Q' R' s.
Proof. unfold wlp. intros Hm HQ HR. destruct (m s) as [[a|e|] t]; auto. Qed.
Lemma wlp_bind {A B} (m : M E S A) (k : A -> M E S B) Q R s :
  wlp m (fun a => wlp (k a) Q R) R s -> wlp (m ≫= k) Q R s.
Proof. unfold wlp, mbind, M_bind. destruct (m s) as [[a|e|] t]; done. Qed.
Lemma wlp_ret {A} (a : A) (Q : A -> S -> Prop) (R : E -> S -> Prop) s : Q a s -> wlp (mret a) Q R s.
Proof. done. Qed.
Lemma wlp_throw {A} e (Q : A -> S -> Prop) (R : E -> S -> Prop) s : R e s -> wlp (throw e) Q R s.
Proof. done. Qed.
Lemma wlp_gets {A} (f : S -> A) (Q : A -> S -> Prop) (R : E -> S -> Prop) s :
  Q (f s) s -> wlp (gets f) Q R s.
Proof. done. Qed.
Lemma wlp_modify f (Q : unit -> S -> Prop) (R : E -> S -> Prop) s : Q tt (f s) -> wlp (modify f) Q R s.
Proof. done. Qed.
Lemma wlp_run {A} (m : M E S A) (Q : A -> S -> Prop) (R : E -> S -> Prop) s :
  (forall a t, m s = (Ok a, t) -> Q a t) -> (forall e t, m s = (Err e, t) -> R e t) -> wlp m Q R s.
Proof. unfold wlp. destruct (m s) as [[a|e|] t]; auto. Qed.
Lemma wlp_true {A} (m : M E S A) s : wlp m (fun _ _ => True) (fun _ _ => True) s.
Proof. unfold wlp. by destruct (m s) as [[a|e|] t]. Qed.
End WLP.
Lemma wlp_map_err {E E' S A} (f : E -> E') (m : M E S A) (Q : A -> S -> Prop) (R : E' -> S -> Prop) s :
  wlp m Q (fun e => R (f e)) s -> wlp (map_err f m) Q R s.
Proof. unfold wlp, map_err. by destruct (m s) as [[a|e|] t]. Qed.
Lemma wlp_catch {E S A} (m : M E S A) (Q : A + E -> S -> Prop) R s :
  wlp m (fun a => Q (inl a)) (fun e => Q (inr e)) s -> wlp (catch m) Q R s.
Proof. unfold wlp, catch. by destruct (m s) as [[a|e|] t]. Qed.
Lemma wlp_unwrap_or {E S A} (a : A) (m : M E S A) (Q : A -> S -> Prop) R s :
  wlp m Q (fun _ => Q a) s -> wlp (unwrap_or a m) Q R s.
Proof. unfold wlp, unwrap_or. by destruct (m s) as [[b|e|] t]. Qed.

(** ** Meters, as far as storage depends on them *)
Record core := mkCore { co_contract : EvmAddress; co_used : Z; co_refunded : Z }.
Definition core_of (m : StorageMeter) : core :=
  mkCore (sm_contract m) (sm_self_used m) (sm_self_refunded m).
Definition fresh (a : EvmAddress) : core := mkCore a 0 0.
Definition use (n : Z) (c : core) : core :=
  mkCore (co_contract c) (U32.saturating_add (co_used c) n) (co_refunded c).
Definition give_back (n : Z) (c : core) : core :=
  mkCore (co_contract c) (co_used c) (U32.saturating_add (co_refunded c) n).

Definition derived (scheme : CreateScheme) : Prop := match scheme with Fixed _ => False | _ => True end.

(** The address a frame runs as: what it asks to change is its own, and what it
    creates is at an address that is derived. *)
Definition asks_as (a : EvmAddress) (q : Request) : Prop :=
  match q with
  | SetStorage b _ _ => b = a
  | MarkDelete b _ => b = a
  | Create _ scheme _ _ _ => derived scheme
  | _ => True
  end.
Class OwnFrames `{EvmMachine} := {
  runs_as : EvmAddress -> Interpreter -> Prop;
  runtime_new_as code input ctx config : runs_as (ctx_address ctx) (runtime_new code input ctx config);
  runtime_step_as a m q k : runs_as a m -> runtime_step m = inr (existT q k) ->
    asks_as a q /\ forall x, runs_as a (k x) }.

(** ** A property of the cores of the open frames, the steps left, and the storage *)
Definition store_slot `{EvmConfig} (a : EvmAddress) (index value : H256) (s : EvmState) : EvmState :=
  let slots := default ∅ (AccountStorages s !! a) in
  let slots := if value =? 0 then delete index slots else <[index := value]> slots in
  set_storages (<[a := slots]> (AccountStorages s)) s.

Class FrameInvariant `{EvmMachine} (installs : EvmAddress -> Prop) (origin : EvmAddress)
    (P : list core -> nat -> EvmState -> Prop) : Prop := {
  inv_address scheme a s : derived scheme -> create_address scheme s = Some a -> installs a;
  inv_step l n s : P l (S n) s -> P l n s;
  inv_open a l n s : P l n s -> P (fresh a :: l) n s;
  inv_close c l n s s' : P (c :: l) n s ->
    impl_charge_storage origin (co_contract c) (co_used c) (co_refunded c) s = (Ok tt, s') -> P l n s';
  inv_reserve limit n s s' : P [] n s -> impl_reserve_storage origin limit s = (Ok tt, s') -> P [] n s';
  inv_unreserve limit u r n s s' : P [] n s -> impl_unreserve_storage origin limit u r s = (Ok tt, s') -> P [] n s';
  inv_transfer a b v l n s s' : P l n s -> on_chain_reaping (c_transfer a b v) s = (Ok tt, s') -> P l n s';
  inv_nonce a l n s : P l n s -> P l n (inc_nonce a s);
  inv_event e l n s : P l n s -> P l n (evm_deposit_event e s);
  inv_precompile a input g ctx l n s : P l (S n) s -> P l n (precompiles_execute a input g ctx s).2;
  inv_store c l n i v s : P (c :: l) (S n) s ->
    (account_storages (co_contract c) i s = 0 <-> v = 0) -> P (c :: l) n (store_slot (co_contract c) i v s);
  inv_added c l n i v s : P (c :: l) (S n) s ->
    account_storages (co_contract c) i s = 0 -> v <> 0 ->
    P (use STORAGE_SIZE c :: l) n
      (update_contract_storage_size (co_contract c) STORAGE_SIZE (store_slot (co_contract c) i v s));
  inv_removed c l n i s : P (c :: l) (S n) s ->
    account_storages (co_contract c) i s <> 0 ->
    P (give_back STORAGE_SIZE c :: l) n
      (update_contract_storage_size (co_contract c) (- STORAGE_SIZE) (store_slot (co_contract c) i 0 s));
  inv_delete c l n dest size s s' : P (c :: l) (S n) s ->
    remove_contract (co_contract c) dest s = (Ok size, s') -> P (give_back size c :: l) n s';
  inv_init c l n maintainer code s s' : installs (co_contract c) -> P (c :: l) (S n) s ->
    on_contract_initialization (co_contract c) maintainer code s = (Ok tt, s') ->
    P (use (U32.saturating_add (len code mod 2 ^ 32) NewContractExtraBytes) c :: l) n s' }.

(** ** Meters do not refuse and do not touch what their ancestors own *)
Definition healthy (l : list core) (ms : list StorageMeter) : Prop :=
  map core_of ms = l /\ Forall (fun m => sm_result m = None) ms.

Section Meters.
Context `{EvmMachine} (hdl : StorageMeterHandler EvmState).

Lemma healthy_cons c l ms : healthy (c :: l) ms ->
  exists m rest, ms = m :: rest /\ core_of m = c /\ sm_result m = None /\ healthy l rest.
Proof.
  intros [Hm Hok]. destruct ms as [|m rest]; [done|]. cbn in Hm. injection Hm as Hc Hl.
  apply Forall_cons in Hok as [Hok Hr]. by exists m, rest.
Qed.
Lemma healthy_intro m c l ms : core_of m = c -> sm_result m = None -> healthy l ms -> healthy (c :: l) (m :: ms).
Proof. intros Hc Hr [Hm Hok]. split; [cbn; by rewrite Hc, Hm|by constructor]. Qed.
Lemma healthy_total u r l ms : healthy l ms ->
  healthy l (map (fun m => add_total_used u (add_total_refunded r m)) ms).
Proof.
  intros [Hm Hok]. split.
  - rewrite <- Hm, map_map. by apply map_ext.
  - apply Forall_map. by eapply Forall_impl; [exact Hok|].
Qed.

Lemma charge_chain_healthy ms l a u r (s : EvmState) : healthy l ms ->
  charge_chain ms a u r s = ((charge_storage a u r s).1,
    (map (fun m => add_total_used u (add_total_refunded r m)) ms, (charge_storage a u r s).2)).
Proof.
  intros [_ Hok]. induction Hok as [|m ms Hm _ IH]; cbn [charge_chain map]; [done|].
  by rewrite Hm, IH.
Qed.

Lemma charge_healthy k c l ms (s : EvmState) : healthy (c :: l) ms ->
  exists ms', charge k (mkMeters ms s) = (Ok tt, mkMeters ms' s) /\ healthy (use k c :: l) ms'.
Proof.
  intros (m & rest & -> & <- & Hr & Hl)%healthy_cons. eexists. split.
  - unfold charge, handle, update_self, modify. cbn. rewrite Hr. done.
  - by apply healthy_intro.
Qed.
Lemma refund_healthy k c l ms (s : EvmState) : healthy (c :: l) ms ->
  exists ms', refund k (mkMeters ms s) = (Ok tt, mkMeters ms' s) /\ healthy (give_back k c :: l) ms'.
Proof.
  intros (m & rest & -> & <- & Hr & Hl)%healthy_cons. eexists. split.
  - unfold refund, handle, update_self, modify. cbn. rewrite Hr. done.
  - by apply healthy_intro.
Qed.
Lemma child_healthy a c l ms (s : EvmState) : healthy (c :: l) ms ->
  exists ms', child_meter a (mkMeters ms s) = (Ok tt, mkMeters ms' s) /\ healthy (fresh a :: c :: l) ms'.
Proof.
  intros Hh. pose proof (healthy_cons _ _ _ Hh) as (m & rest & -> & <- & Hr & Hl). eexists. split.
  - unfold child_meter, handle. cbn. rewrite Hr. done.
  - by apply healthy_intro.
Qed.

(** Finishing a frame that another called: the stack is kept whatever becomes of
    the charge. *)
Lemma finish_healthy c d l ms (s : EvmState) : healthy (c :: d :: l) ms ->
  wlp finish
    (fun _ ms' => healthy (d :: l) (stack ms') /\
       charge_storage (co_contract c) (co_used c) (co_refunded c) s = (Ok tt, base ms'))
    (fun _ ms' => healthy (d :: l) (stack ms')) (mkMeters ms s).
Proof.
  intros (m & rest & -> & <- & Hr & Hl)%healthy_cons. unfold wlp, finish. cbn [stack base]. rewrite Hr.
  destruct (sm_limit m <? _); [done|].
  unfold mbind, M_bind, meter_charge_storage. cbn [stack base].
  rewrite (charge_chain_healthy _ _ _ _ _ _ Hl). cbn [fst snd stack base].
  destruct (charge_storage _ _ _ s) as [[[]|e|] s'] eqn:Hcs; cbn [fst snd]; [|by apply healthy_total|done].
  pose proof (healthy_total (sm_self_used m) (sm_self_refunded m) _ _ Hl) as Ht.
  unfold meter_unreserve_storage. cbn [stack]. pose proof (healthy_cons _ _ _ Hl) as (? & ? & -> & _).
  cbn [map] in *. done.
Qed.

(** Finishing the first frame, which also hands back what is left of the limit *)
Lemma finish_first_healthy c ms (s : EvmState) : healthy [c] ms ->
  forall ms', finish (mkMeters ms s) = (Ok tt, ms') ->
  exists limit s1, charge_storage (co_contract c) (co_used c) (co_refunded c) s = (Ok tt, s1) /\
    unreserve_storage limit (co_used c) (co_refunded c) s1 = (Ok tt, base ms').
Proof.
  intros (m & rest & -> & <- & Hr & [Hl _])%healthy_cons ms'. destruct rest; [|done].
  unfold finish. cbn [stack base]. rewrite Hr.
  destruct (sm_limit m <? _); [done|].
  unfold mbind, M_bind, meter_charge_storage. cbn [stack base charge_chain fst snd].
  destruct (charge_storage _ _ _ s) as [[[]|e|] s1] eqn:Hcs; cbn [fst snd]; [|done|done].
  unfold meter_unreserve_storage, on_base. cbn [stack base fst snd].
  intros Hu. injection Hu as Hu <-. cbn [base]. eexists _, _. split; [done|].
  by rewrite <- Hu, <- surjective_pairing.
Qed.
End Meters.

(** ** The induction *)
Section Frames.
Context `{EvmMachine} {Own : OwnFrames} (vicinity : Vicinity) (config : EvmSettings).
Context (installs : EvmAddress -> Prop) (P : list core -> nat -> EvmState -> Prop)
  {Inv : FrameInvariant installs (vi_origin vicinity) P}.
Abbreviation hdl := (vicinity_handler vicinity).

Lemma inv_steps l n n' s : (n' <= n)%nat -> P l n s -> P l n' s.
Proof.
  induction 1 as [|n Hle IH]; [done|]. intros Hs. apply IH. by eapply inv_step.
Qed.

(** The frames of [w] are those of [l], and the property holds with [k] steps. *)
Definition frame_holds (l : list core) (k : nat) (w : Frame) : Prop :=
  healthy l (stack (meters w)) /\ P l k (state_of w).
(** After an operation the frame is the one it was, with what it used. *)
Definition goes_on (c : core) (l : list core) (n : nat) (w : Frame) : Prop :=
  (steps w <= n)%nat /\ exists c', co_contract c' = co_contract c /\ frame_holds (c' :: l) (steps w) w.
(** After a run the step that ended it is still to be spent. *)
Definition has_run (c : core) (l : list core) (n : nat) (w : Frame) : Prop :=
  (S (steps w) <= n)%nat /\ exists c', co_contract c' = co_contract c /\ frame_holds (c' :: l) (S (steps w)) w.
(** After a failure the meters are those they were. *)
Definition fails (c : core) (l : list core) (n : nat) (w : Frame) : Prop :=
  (steps w <= n)%nat /\ exists c', co_contract c' = co_contract c /\ healthy (c' :: l) (stack (meters w)).

Lemma goes_on_refl c l w : frame_holds (c :: l) (steps w) w -> goes_on c l (steps w) w.
Proof. split; [lia|]. by exists c. Qed.
Lemma goes_on_holds c l n w : steps w = n -> frame_holds (c :: l) n w -> goes_on c l n w.
Proof. intros <-. apply goes_on_refl. Qed.
Lemma holds_fails c l k w : frame_holds (c :: l) k w -> fails c l (steps w) w.
Proof. intros [Hh _]. split; [done|]. by exists c. Qed.
Lemma goes_on_fails c l n w : goes_on c l n w -> fails c l n w.
Proof. intros (Hn & c' & Hc & [Hh _]). split; [done|]. by exists c'. Qed.
Lemma has_run_goes_on c l n w : has_run c l n w -> goes_on c l n w.
Proof.
  intros (Hn & c' & Hc & [Hh HP]). split; [lia|]. exists c'. split; [done|]. split; [done|].
  by eapply inv_step.
Qed.

(** *** Operations on the parts of a frame *)
Lemma wlp_on_gas {E A} (f : M E Gas A) (Q : A -> Frame -> Prop) R w :
  (forall a g, Q a (mkFrame g (steps w) (meters w))) -> (forall e g, R e (mkFrame g (steps w) (meters w))) ->
  wlp (on_gas f) Q R w.
Proof. intros HQ HR. unfold wlp, on_gas. destruct (f (gasometer w)) as [[a|e|] g]; cbn; auto. Qed.
Lemma wlp_on_state {E A} (f : M E EvmState A) (Q : A -> Frame -> Prop) R w :
  wlp f (fun a s => Q a (mkFrame (gasometer w) (steps w) (mkMeters (stack (meters w)) s)))
    (fun e s => R e (mkFrame (gasometer w) (steps w) (mkMeters (stack (meters w)) s))) (state_of w) ->
  wlp (on_state f) Q R w.
Proof.
  unfold wlp, on_state, on_meters, state_of. destruct (f (base (meters w))) as [[a|e|] s]; done.
Qed.
Lemma wlp_on_caller {E A} (f : M E Gas A) (Q : A -> Gas * Frame -> Prop) R w :
  (forall a g, Q a (g, w.2)) -> (forall e g, R e (g, w.2)) -> wlp (on_caller f) Q R w.
Proof. intros HQ HR. unfold wlp, on_caller. destruct (f w.1) as [[a|e|] g]; cbn; auto. Qed.
Lemma wlp_on_callee {E A} (f : M E Frame A) (Q : A -> Gas * Frame -> Prop) R w :
  wlp f (fun a w' => Q a (w.1, w')) (fun e w' => R e (w.1, w')) w.2 -> wlp (on_callee f) Q R w.
Proof. unfold wlp, on_callee. destruct (f w.2) as [[a|e|] w']; done. Qed.

Lemma holds_gas l k g w : frame_holds l k w -> frame_holds l k (mkFrame g (steps w) (meters w)).
Proof. done. Qed.
Lemma holds_state l k k' s w : frame_holds l k w -> P l k' s ->
  frame_holds l k' (mkFrame (gasometer w) (steps w) (mkMeters (stack (meters w)) s)).
Proof. intros [Hh _] Hs. by split. Qed.

Lemma wlp_transfer a b v l k s : P l k s ->
  wlp (on_chain_reaping (c_transfer a b v)) (fun _ => P l k) (fun _ => P l k) s.
Proof.
  intros Hs. apply wlp_run.
  - intros [] s' Hs'. eapply inv_transfer; [exact Hs|exact Hs'].
  - intros e s' Hs'. unfold on_chain_reaping in Hs'.
    destruct (c_transfer _ _ _ _) as [[]|]; [done|]. by injection Hs' as _ <-.
Qed.
(** An operation on the storage that keeps the property, whatever it returns *)
Lemma wlp_on_state_keeps {E A} (f : M E EvmState A) l k w (Q : A -> Frame -> Prop) R :
  frame_holds l k w -> wlp f (fun _ => P l k) (fun _ => P l k) (state_of w) ->
  (forall a w', steps w' = steps w -> frame_holds l k w' -> Q a w') ->
  (forall e w', steps w' = steps w -> frame_holds l k w' -> R e w') ->
  wlp (on_state f) Q R w.
Proof.
  intros Hw Hf HQ HR. apply wlp_on_state. eapply wlp_mono; [exact Hf|..].
  - intros a s Hs. apply HQ; [done|]. by eapply holds_state.
  - intros e s Hs. apply HR; [done|]. by eapply holds_state.
Qed.
Lemma wlp_handler_transfer t l k s : P l k s ->
  wlp (handler_transfer t) (fun _ => P l k) (fun _ => P l k) s.
Proof. intros Hs. apply wlp_bind, wlp_gets, wlp_bind, wlp_gets, wlp_map_err. by apply wlp_transfer. Qed.
Lemma wlp_runner_transfer a b v l k s : P l k s ->
  wlp (runner_transfer a b v) (fun _ => P l k) (fun _ => P l k) s.
Proof.
  intros Hs. unfold runner_transfer. destruct (v =? 0); [done|].
  apply wlp_bind, wlp_gets, wlp_bind, wlp_gets. by apply wlp_transfer.
Qed.

(** The meter of the frame *)
Lemma wlp_charge k c l w (Q : unit -> Frame -> Prop) (R : DispatchError -> Frame -> Prop) :
  healthy (c :: l) (stack (meters w)) ->
  (forall w', steps w' = steps w -> state_of w' = state_of w ->
     healthy (use k c :: l) (stack (meters w')) -> Q tt w') ->
  wlp (on_meters (charge k)) Q R w.
Proof.
  intros Hh HQ. destruct w as [g n [st s]]. unfold on_meters, wlp. cbn [meters] in *.
  destruct (charge_healthy k c l st s Hh) as (ms & -> & Hms). by apply HQ.
Qed.
Lemma wlp_refund k c l w (Q : unit -> Frame -> Prop) (R : DispatchError -> Frame -> Prop) :
  healthy (c :: l) (stack (meters w)) ->
  (forall w', steps w' = steps w -> state_of w' = state_of w ->
     healthy (give_back k c :: l) (stack (meters w')) -> Q tt w') ->
  wlp (on_meters (refund k)) Q R w.
Proof.
  intros Hh HQ. destruct w as [g n [st s]]. unfold on_meters, wlp. cbn [meters] in *.
  destruct (refund_healthy k c l st s Hh) as (ms & -> & Hms). by apply HQ.
Qed.
Lemma goes_on_intro c' c l n w : (steps w <= n)%nat -> co_contract c' = co_contract c ->
  healthy (c' :: l) (stack (meters w)) -> P (c' :: l) (steps w) (state_of w) -> goes_on c l n w.
Proof. intros Hn Hc Hh HP. split; [done|]. by exists c'. Qed.

Lemma wlp_set_storage is_static i v c l w : frame_holds (c :: l) (S (steps w)) w ->
  wlp (set_storage is_static (co_contract c) i v) (fun _ => goes_on c l (steps w))
    (fun _ => goes_on c l (steps w)) w.
Proof.
  intros [Hh HP]. unfold set_storage. destruct is_static.
  { apply wlp_throw, goes_on_refl. split; [done|]. eapply inv_step, HP. }
  apply wlp_bind, wlp_gets, wlp_bind, wlp_on_state, wlp_modify. cbv zeta.
  fold (store_slot (co_contract c) i v (state_of w)).
  destruct (Z.eqb_spec v 0) as [->|Hv], (Z.eqb_spec (account_storages (co_contract c) i (state_of w)) 0) as [Hp|Hp].
  - apply wlp_ret. apply (goes_on_intro c); [done..|]. by apply inv_store.
  - apply wlp_bind, wlp_on_state, wlp_modify, wlp_map_err, (wlp_refund _ c l); [done|].
    intros w' Hn Hs Hh'. apply (goes_on_intro (give_back STORAGE_SIZE c)); [by rewrite Hn|done|done|].
    rewrite Hn, Hs. by apply inv_removed.
  - apply wlp_bind, wlp_on_state, wlp_modify, wlp_map_err, (wlp_charge _ c l); [done|].
    intros w' Hn Hs Hh'. apply (goes_on_intro (use STORAGE_SIZE c)); [by rewrite Hn|done|done|].
    rewrite Hn, Hs. by apply inv_added.
  - apply wlp_ret. apply (goes_on_intro c); [done..|]. by apply inv_store.
Qed.

Lemma wlp_mark_delete is_static dest c l w : frame_holds (c :: l) (S (steps w)) w ->
  wlp (mark_delete is_static (co_contract c) dest) (fun _ => goes_on c l (steps w))
    (fun _ => goes_on c l (steps w)) w.
Proof.
  intros [Hh HP]. assert (Hgo : goes_on c l (steps w) w).
  { apply goes_on_refl. split; [done|]. eapply inv_step, HP. }
  unfold mark_delete. destruct is_static; [by apply wlp_throw|].
  apply wlp_bind, wlp_map_err, wlp_on_state, wlp_run.
  - intros size s Hs. apply wlp_map_err, (wlp_refund _ c l); [done|].
    intros w' Hn Hst Hh'. apply (goes_on_intro (give_back size c)); [by rewrite Hn|done|done|].
    rewrite Hn, Hst. eapply inv_delete; [exact HP|exact Hs].
  - intros e s Hs. apply transactional_Err in Hs. subst s. by destruct w as [? ? [? ?]].
Qed.

(** *** Frames that open frames *)
Lemma wlp_sub_transaction {R} k gas_limit contract (f : M R (Gas * Frame) R) c l w :
  frame_holds (c :: l) (k + steps w) w ->
  (forall g w1, steps w1 = steps w -> frame_holds (fresh contract :: c :: l) (k + steps w1) w1 ->
     wlp f (fun _ x => goes_on (fresh contract) (c :: l) (steps w) x.2)
           (fun _ x => fails (fresh contract) (c :: l) (steps w) x.2) (g, w1)) ->
  wlp (handler_sub_transaction vicinity config gas_limit contract f)
    (fun _ => goes_on c l (steps w)) (fun _ => goes_on c l (steps w)) w.
Proof.
  intros [Hh HP] Hf. unfold handler_sub_transaction, run_sub_transaction.
  destruct w as [g n [st s]]. cbn [gasometer steps meters stack base state_of] in *.
  destruct (child_healthy hdl contract c l st s Hh) as (ms & Hch & Hms).
  unfold wlp at 1. cbv beta iota. cbn [gasometer steps meters stack base]. rewrite Hch.
  specialize (Hf g (mkFrame (gas_new gas_limit config) n (mkMeters ms s)) eq_refl).
  specialize (Hf ltac:(split; [done|by apply inv_open])).
  unfold wlp in Hf. destruct (f _) as [[r|r|] [g' [g1 n' [ms' s']]]]; cbn [gasometer steps meters stack base snd] in *.
  - destruct Hf as (Hn & c' & Hc & [Hh' HP']). cbn [meters stack state_of base steps] in *.
    pose proof (finish_healthy hdl c' c l ms' s' Hh') as Hfin. unfold wlp in Hfin.
    destruct (finish (mkMeters ms' s')) as [[[]|e|] [ms2 s2]]; cbn [stack base] in *; [|..|done].
    + destruct Hfin as [Hh2 Hcs]. split; [done|]. exists c. split; [done|]. split; [done|].
      eapply inv_close; [exact HP'|exact Hcs].
    + split; [done|]. exists c. split; [done|]. split; [done|]. eapply inv_steps; [|exact HP]. cbn [steps]. lia.
  - destruct Hf as (Hn & c' & Hc & Hh'). cbn [meters stack steps] in *.
    apply healthy_cons in Hh' as (m & rest & -> & _ & _ & Hrest).
    split; [done|]. exists c. split; [done|]. split; [done|]. eapply inv_steps; [|exact HP]. cbn [steps]. lia.
  - done.
Qed.

Section Open.
Context (run : bool -> Interpreter -> M Never Frame (ExitReason * bytes)).
Definition run_keeps : Prop := forall is_static m c l w,
  runs_as (co_contract c) m -> frame_holds (c :: l) (steps w) w ->
  wlp (run is_static m) (fun _ => has_run c l (steps w)) (fun _ _ => False) w.
Context (Hrun : run_keeps).

Lemma wlp_execute is_static caller value code input c l w : frame_holds (c :: l) (steps w) w ->
  wlp (handler_execute config run is_static caller (co_contract c) value code input)
    (fun _ => has_run c l (steps w)) (fun _ _ => False) w.
Proof.
  intros Hw. unfold handler_execute. apply wlp_bind. eapply wlp_mono; [apply Hrun; [|exact Hw]| |done].
  { exact (runtime_new_as code input (mkCallContext (co_contract c) caller value) config). }
  intros [r out] t Ht. cbv beta. destruct r; cbn; [done..|].
  destruct t. exact Ht.
Qed.

(** What a frame makes of its storage once its code has run *)
Lemma goes_on_frame c l n w : goes_on c l n w ->
  exists c', co_contract c' = co_contract c /\ frame_holds (c' :: l) (steps w) w.
Proof. by intros [_ Hc]. Qed.
Lemma has_run_fails c l n w : has_run c l n w -> fails c l n w.
Proof. intros Hr. by apply goes_on_fails, has_run_goes_on. Qed.
Lemma goes_on_gas c l n g w : goes_on c l n w -> goes_on c l n (mkFrame g (steps w) (meters w)).
Proof. done. Qed.

(** Storing the code of a contract, with the step its constructor left *)
Lemma wlp_init {E} (f : E -> ExitErr) maintainer code c l n w (Q : unit -> Frame -> Prop) R :
  installs (co_contract c) -> (S (steps w) <= n)%nat -> healthy (use (U32.saturating_add (len code mod 2 ^ 32) NewContractExtraBytes) c :: l)
    (stack (meters w)) -> P (c :: l) (S (steps w)) (state_of w) ->
  (forall w', goes_on c l n w' -> Q tt w') -> (forall e w', fails c l n w' -> R e w') ->
  wlp (on_state (on_contract_initialization (co_contract c) maintainer code)) Q R w.
Proof.
  intros Hi Hn Hh HP HQ HR. set (u := use _ c) in *. apply wlp_on_state, wlp_run.
  - intros [] s Hs. apply HQ. apply (goes_on_intro u); cbn [steps meters stack]; [lia|done|done|].
    eapply inv_init; [exact Hi|exact HP|exact Hs].
  - intros e s _. apply HR. split; cbn [steps]; [lia|]. by exists u.
Qed.

(** The frame of a constructor *)
Lemma wlp_create_frame caller address value init_code l n g w :
  installs address -> steps w = n -> frame_holds (fresh address :: l) (steps w) w ->
  wlp (create_frame vicinity config run caller address value init_code)
    (fun _ x => goes_on (fresh address) l n x.2) (fun _ x => fails (fresh address) l n x.2) (g, w).
Proof.
  intros Hi <- Hw. unfold create_frame. cbv zeta.
  apply wlp_bind, wlp_map_err, wlp_on_callee.
  eapply wlp_on_state_keeps; [exact Hw|apply wlp_handler_transfer, Hw| |].
  2:{ intros e w' Hn Hw'. cbn [fst snd] in *. rewrite <- Hn in *. by apply goes_on_fails, goes_on_refl. }
  intros [] w' Hn Hw'. cbn [fst snd] in *. rewrite <- Hn in *. clear w Hn Hw.
  apply wlp_bind, wlp_map_err, wlp_on_callee. cbn [fst snd].
  eapply wlp_mono; [apply (wlp_execute false _ _ _ _ (fresh address)); exact Hw'| |done].
  intros [r out] w Hr. cbn [fst snd]. destruct r as [r|e| |e]; cbn [fst snd].
  - apply wlp_bind, wlp_map_err, wlp_on_callee, wlp_on_gas; [|intros; by apply has_run_fails].
    intros [] g1. apply wlp_bind, wlp_gets. cbn [fst snd].
    apply wlp_bind, wlp_map_err, wlp_on_caller; [|intros; by apply has_run_fails].
    intros [] g2. apply wlp_bind, wlp_map_err, wlp_on_caller; [|intros; by apply has_run_fails].
    intros [] g3. cbn [fst snd]. destruct Hr as (Hn & c' & Hc & [Hh HP]).
    apply wlp_bind, wlp_on_callee, wlp_on_state, wlp_modify. cbn [fst snd steps meters].
    apply wlp_bind, wlp_map_err, wlp_on_callee, (wlp_charge _ c' l); [done|].
    intros w1 Hn1 Hs1 Hh1. cbn [fst snd steps meters state_of base] in *.
    apply wlp_bind, wlp_map_err, wlp_on_callee. cbn [fst snd].
    change address with (co_contract (fresh address)). rewrite <- Hc.
    eapply (wlp_init never _ _ c' l); [by rewrite Hc|rewrite Hn1; exact Hn|exact Hh1|..].
    + rewrite Hn1, Hs1. by apply inv_nonce.
    + intros w2 (? & c2 & Hc2 & ?). apply wlp_ret. split; [done|]. exists c2. by rewrite Hc2.
    + intros e w2 (? & c2 & Hc2 & ?). split; [done|]. exists c2. by rewrite Hc2.
  - apply wlp_throw. by apply has_run_fails.
  - apply wlp_throw. by apply has_run_fails.
  - apply wlp_bind. unfold on_caller, wlp, modify. cbn. by apply has_run_fails.
Qed.

Lemma wlp_create caller scheme value init_code target_gas is_static c l w :
  derived scheme -> frame_holds (c :: l) (steps w) w ->
  wlp (handler_create vicinity config run is_static caller scheme value init_code target_gas)
    (fun _ => goes_on c l (steps w)) (fun _ _ => False) w.
Proof.
  intros Hd Hw. pose proof (goes_on_refl _ _ _ Hw) as Hgo.
  unfold handler_create. cbv zeta. destruct is_static; [done|].
  apply wlp_bind, wlp_gets, wlp_bind, wlp_catch, wlp_on_gas; [|by intros e g].
  intros [] g. apply wlp_bind, wlp_gets. cbn [state_of meters].
  destruct (create_address _ _) as [address|] eqn:Ha; [|done].
  apply wlp_bind, wlp_on_state, wlp_modify, wlp_unwrap_or.
  set (w1 := mkFrame _ _ _). change (steps w) with (steps w1).
  assert (Hw1 : frame_holds (c :: l) (steps w1) w1).
  { split; [apply Hw|]. cbn. apply inv_nonce. apply Hw. }
  clearbody w1. eapply wlp_mono; [apply (wlp_sub_transaction 0); [exact Hw1|]|done|done].
  intros g' w' Hn Hw'. apply wlp_create_frame; [|done..]. by eapply inv_address.
Qed.

(** The frame of a call *)
Lemma wlp_call_frame callee_static code_address code transfer input target_gas context l n g w :
  steps w = n -> frame_holds (fresh (ctx_address context) :: l) (S (steps w)) w ->
  wlp (call_frame config run callee_static code_address code transfer input target_gas context)
    (fun _ x => goes_on (fresh (ctx_address context)) l n x.2)
    (fun _ x => fails (fresh (ctx_address context)) l n x.2) (g, w).
Proof.
  intros <- Hw. unfold call_frame. cbv zeta. set (c := fresh (ctx_address context)) in *.
  apply wlp_bind.
  assert (Ht : wlp (match transfer with
      | Some t => map_err (fun e => (ExitError e, []) : ExitReason * bytes) (on_callee (on_state (handler_transfer t)))
      | None => mret tt
      end) (fun _ x => steps x.2 = steps w /\ frame_holds (c :: l) (S (steps x.2)) x.2)
      (fun _ x => fails c l (steps w) x.2) (g, w)).
  { destruct transfer as [t|]; [|by apply wlp_ret].
    apply wlp_map_err, wlp_on_callee.
    eapply wlp_on_state_keeps; [exact Hw|apply wlp_handler_transfer, Hw| |];
      intros ? w' Hn Hw'; cbn [fst snd] in *; rewrite <- Hn in *; [done|].
    by eapply holds_fails. }
  eapply wlp_mono; [exact Ht| |done]. clear Ht Hw g. intros [] [g w1] [Hn Hw]. cbn [snd] in *.
  rewrite <- Hn. clear w Hn. rename w1 into w.
  apply wlp_bind, wlp_map_err, wlp_on_caller; cbn [fst snd].
  2:{ intros e g'. by eapply (holds_fails _ _ (S (steps w))). }
  intros [] g'. apply wlp_bind, wlp_on_callee, wlp_on_state. unfold wlp at 1. cbv beta iota zeta. cbn [fst snd].
  set (s' := (precompiles_execute _ _ _ _ _).2).
  assert (Hp : frame_holds (c :: l) (steps w) (mkFrame (gasometer w) (steps w) (mkMeters (stack (meters w)) s'))).
  { eapply holds_state; [exact Hw|]. apply inv_precompile, Hw. }
  clear Hw.
  destruct (precompiles_execute _ _ _ _ _).1 as [[[[r out] cost]|e]|].
  - apply wlp_bind, wlp_map_err, wlp_on_callee, wlp_on_gas; intros ? g1; cbn [fst snd];
      [|by apply goes_on_fails, goes_on_holds].
    apply wlp_bind, wlp_gets, wlp_bind, wlp_map_err, wlp_on_caller; intros ? g2; cbn [fst snd];
      [|by apply goes_on_fails, goes_on_holds].
    apply wlp_bind, wlp_map_err, wlp_on_caller; intros ? g3; cbn [fst snd];
      [|by apply goes_on_fails, goes_on_holds].
    apply wlp_ret. by apply goes_on_holds.
  - apply wlp_throw. by apply goes_on_fails, goes_on_holds.
  - apply wlp_bind, wlp_map_err, wlp_on_callee. cbn [fst snd].
    eapply wlp_mono; [apply (wlp_execute callee_static _ _ _ _ c); exact Hp| |done].
    intros [r out] w' Hr. cbn [fst snd steps] in *. destruct r as [r|e| |e]; cbn [fst snd].
    + apply wlp_bind, wlp_gets, wlp_bind, wlp_map_err, wlp_on_caller; intros ? g2; cbn [fst snd];
        [|by apply has_run_fails].
      apply wlp_bind, wlp_map_err, wlp_on_caller; intros ? g3; cbn [fst snd]; [|by apply has_run_fails].
      apply wlp_ret. by apply has_run_goes_on.
    + apply wlp_throw. by apply has_run_fails.
    + apply wlp_throw. by apply has_run_fails.
    + apply wlp_bind. unfold on_caller, wlp, modify. cbn. by apply has_run_fails.
Qed.

Lemma wlp_call code_address transfer input target_gas static_call context is_static c l w :
  frame_holds (c :: l) (S (steps w)) w ->
  wlp (handler_call vicinity config run is_static code_address transfer input target_gas static_call context)
    (fun _ => goes_on c l (steps w)) (fun _ _ => False) w.
Proof.
  intros Hw. assert (Hgo : goes_on c l (steps w) w) by (apply goes_on_refl; split; [apply Hw|eapply inv_step, Hw]).
  unfold handler_call. cbv zeta. destruct (is_static && _); [done|].
  apply wlp_bind, wlp_gets, wlp_bind, wlp_gets, wlp_unwrap_or.
  eapply wlp_mono; [apply (wlp_sub_transaction 1); [exact Hw|]|done|done].
  intros g' w' Hn Hw'. by apply wlp_call_frame.
Qed.

(** Every request leaves the frame as it was, but for what it used. *)
Lemma wlp_answer is_static q c l w : asks_as (co_contract c) q -> frame_holds (c :: l) (S (steps w)) w ->
  wlp (answer vicinity config run is_static q) (fun _ => goes_on c l (steps w)) (fun _ _ => False) w.
Proof.
  intros Hq Hw.
  assert (Hw1 : frame_holds (c :: l) (steps w) w) by (split; [apply Hw|eapply inv_step, Hw]).
  pose proof (goes_on_refl _ _ _ Hw1) as Hgo.
  destruct q; cbn [answer asks_as] in *; try done; subst.
  - apply wlp_catch. by apply wlp_set_storage.
  - apply wlp_catch, wlp_on_state, wlp_modify. apply (goes_on_intro c); cbn; [lia|done|apply Hw1|].
    apply inv_event, Hw1.
  - apply wlp_catch. by apply wlp_mark_delete.
  - by apply wlp_create.
  - by apply wlp_call.
  - apply wlp_catch. unfold pre_validate. destruct (static_opcode_cost _) as [cost|].
    + by apply wlp_on_gas.
    + apply wlp_bind, wlp_gets. destruct (dynamic_opcode_cost _ _ _ _ _ _ _) as [[gc mc]|e]; [|by apply wlp_throw].
      by apply wlp_on_gas.
Qed.
End Open.

Lemma goes_on_trans c c' l n w : co_contract c' = co_contract c -> has_run c' l n w -> has_run c l n w.
Proof. intros Hc (Hn & c2 & Hc2 & Hw). split; [done|]. exists c2. by rewrite Hc2. Qed.

(** The induction on the steps *)
Lemma run_frame_keeps fuel : run_keeps (run_frame vicinity config fuel).
Proof.
  induction fuel as [|fuel IH]; intros is_static m c l w Hm Hw; cbn [run_frame]; [done|].
  apply wlp_bind. unfold wlp at 1, tick. destruct w as [g [|n] ms]; cbn [steps]; [done|].
  destruct (runtime_step m) as [r|[q k]] eqn:Hst.
  { apply wlp_ret. split; [done|]. by exists c. }
  destruct (runtime_step_as _ _ _ _ Hm Hst) as [Hq Hk].
  apply wlp_bind. eapply wlp_mono; [apply (wlp_answer _ IH is_static q c l); [exact Hq|exact Hw]| |done].
  intros a w' (Hn & c' & Hc & Hw'). cbn [steps] in *.
  eapply wlp_mono; [apply (IH is_static _ c' l); [rewrite Hc; apply Hk|exact Hw']| |done].
  intros r' w2 (Hn2 & c2 & Hc2 & Hw2). split; [lia|]. exists c2. by rewrite Hc2.
Qed.

(** *** The first frame *)
Lemma wlp_first n caller value code input c l w : frame_holds (c :: l) (steps w) w ->
  wlp (execute_first vicinity config n caller (co_contract c) value code input)
    (fun _ => has_run c l (steps w)) (fun _ _ => False) w.
Proof. apply wlp_execute, run_frame_keeps. Qed.

Lemma wlp_transaction {R} n gas_limit storage_limit contract (f : M R Frame R) s :
  P [] n s ->
  (forall w, steps w = n -> frame_holds [fresh contract] n w ->
     wlp f (fun _ => goes_on (fresh contract) [] n) (fun _ _ => True) w) ->
  wlp (handler_transaction vicinity config n gas_limit storage_limit contract f)
    (fun _ => P [] 0) (fun _ => P [] 0) s.
Proof.
  intros HP Hf. pose proof (inv_steps _ _ 0 s (Nat.le_0_l _) HP) as Hz.
  unfold wlp at 1, handler_transaction, run_transaction, meter_new, meter_reserve_storage.
  cbn [stack]. unfold mbind, M_bind, on_base, modify. cbn [base stack].
  destruct (reserve_storage storage_limit s) as [[[]|e|] s1] eqn:Hres; cbn [fst snd]; [|done|done].
  set (w := mkFrame _ _ _).
  assert (Hw : frame_holds [fresh contract] n w).
  { split; [by apply healthy_intro|]. apply inv_open. cbn. eapply inv_reserve; [exact HP|exact Hres]. }
  specialize (Hf w eq_refl Hw). unfold wlp in Hf.
  destruct (f w) as [[r|r|] [g n' [ms s2]]]; cbn [meters] in *; [|done|done].
  destruct Hf as (Hn & c' & Hc & [Hh HP']). cbn [meters stack steps state_of base] in *.
  pose proof (finish_first_healthy hdl c' ms s2 Hh) as Hfin.
  destruct (finish (mkMeters ms s2)) as [[[]|e|] ms'] eqn:Hf'; [|done|done].
  destruct (Hfin ms' eq_refl) as (limit & s3 & Hch & Hun).
  eapply inv_steps; [apply Nat.le_0_l|]. eapply inv_unreserve; [|exact Hun].
  eapply inv_close; [exact HP'|exact Hch].
Qed.
End Frames.

Lemma wlp_flatten {S A} (m : M DispatchError S (A + DispatchError)) (I : S -> Prop) s :
  wlp m (fun _ => I) (fun _ => I) s -> wlp (flatten m) (fun _ => I) (fun _ => I) s.
Proof.
  intros Hm. apply wlp_bind. eapply wlp_mono; [exact Hm| |done]. by intros [a|e] t Ht.
Qed.

(** ** Calls and creations keep the property. *)
Section Runner.
Context `{EvmMachine} {Own : OwnFrames} (n : nat) (config : EvmSettings).
Context (installs : EvmAddress -> Prop) (P : list core -> nat -> EvmState -> Prop).

Lemma wlp_runner_call sender origin target input value gas_limit storage_limit s
    {Inv : FrameInvariant installs origin P} : P [] n s ->
  wlp (runner_call n sender origin target input value gas_limit storage_limit config)
    (fun _ => P [] 0) (fun _ => P [] 0) s.
Proof.
  intros Hs. set (vicinity := mkVicinity 1 origin).
  pose proof (inv_steps vicinity installs P _ _ 0 s (Nat.le_0_l _) Hs) as Hz.
  unfold runner_call. apply wlp_bind, wlp_gets, wlp_bind. destruct (can_call_contract _ _ _); [|by apply wlp_throw].
  apply wlp_ret, wlp_bind, wlp_modify, wlp_flatten.
  apply (wlp_transaction vicinity config installs P); [by apply inv_nonce|].
  intros w Hn Hw. apply wlp_bind, wlp_map_err. subst n.
  eapply wlp_on_state_keeps; [exact Hw|apply (wlp_runner_transfer vicinity installs P (Inv := Inv)), Hw| |done].
  intros [] w1 Hn1 Hw1. rewrite <- Hn1 in *. clear w Hw Hn1.
  apply wlp_bind, wlp_gets, wlp_bind, wlp_map_err, wlp_on_gas; [|done]. intros [] g.
  apply wlp_bind, wlp_map_err.
  eapply wlp_mono; [apply (wlp_first vicinity config installs P (Inv := Inv) _ _ _ _ _ (fresh target) [])| |done].
  { exact Hw1. }
  intros [r out] w2 Hr. cbn [steps] in Hr. apply wlp_bind, wlp_gets, wlp_bind, wlp_gets.
  cbv zeta. destruct (negb _); [done|]. apply wlp_ret. by apply (has_run_goes_on vicinity installs P (Inv := Inv)).
Qed.

Lemma wlp_inner_create source init value gas_limit storage_limit assigned salt s
    {Inv : FrameInvariant installs source P} : (forall a, assigned = Some a -> installs a) -> P [] n s ->
  wlp (inner_create n source init value gas_limit storage_limit assigned salt config)
    (fun _ => P [] 0) (fun _ => P [] 0) s.
Proof.
  intros Hi Hs. set (vicinity := mkVicinity 1 source).
  pose proof (inv_steps vicinity installs P _ _ 0 s (Nat.le_0_l _) Hs) as Hz.
  unfold inner_create. cbv zeta. apply wlp_bind, wlp_gets, wlp_bind.
  assert (Ha : wlp (match assigned with Some addr => mret addr
      | None => ok_or (create_address match salt with Some s => Create2 source (keccak256 init) s
                                      | None => Legacy source end s) (EvmE EvmError.ConflictContractAddress)
      end) (fun address s => installs address /\ P [] n s) (fun _ => P [] 0) s).
  { destruct assigned; [split; [by apply Hi|done]|].
    destruct (create_address _ _) as [address|] eqn:Hc; [|done]. split; [|done].
    eapply inv_address; [|exact Hc]. by destruct salt. }
  eapply wlp_mono; [exact Ha| |done]. clear Hs Hz Ha s. intros address s [Hia Hs].
  apply wlp_bind, wlp_modify, wlp_flatten.
  apply (wlp_transaction vicinity config installs P); [by apply inv_nonce|].
  intros w Hn Hw. apply wlp_bind, wlp_map_err. subst n.
  eapply wlp_on_state_keeps; [exact Hw|apply (wlp_runner_transfer vicinity installs P (Inv := Inv)), Hw| |done].
  intros [] w1 Hn1 Hw1. rewrite <- Hn1 in *. clear w Hw Hn1.
  apply wlp_bind, wlp_map_err, wlp_on_gas; [|done]. intros [] g.
  apply wlp_bind, wlp_map_err.
  eapply wlp_mono; [apply (wlp_first vicinity config installs P (Inv := Inv) _ _ _ _ _ (fresh address) [])| |done].
  { exact Hw1. }
  intros [r out] w2 Hr. cbn [steps] in Hr. apply wlp_bind, wlp_gets, wlp_bind, wlp_gets.
  destruct (negb _); [done|]. apply wlp_bind, wlp_map_err, wlp_on_gas; [|done]. intros [] g2.
  destruct Hr as (Hn & c' & Hc & [Hh HP]).
  apply wlp_bind, wlp_gets, wlp_bind, wlp_on_state, wlp_modify.
  apply wlp_bind, wlp_map_err, (wlp_charge _ c' []); [done|]. intros w3 Hn3 Hs3 Hh3.
  apply wlp_bind, wlp_gets, wlp_bind, wlp_map_err.
  change address with (co_contract (fresh address)). rewrite <- Hc.
  eapply (wlp_init vicinity installs P never _ _ c' []); [by rewrite Hc|rewrite Hn3; exact Hn|exact Hh3|..|done].
  - rewrite Hn3, Hs3. cbn. by apply inv_nonce.
  - intros w4 (? & c4 & Hc4 & ?). apply wlp_ret. split; [done|]. exists c4. by rewrite Hc4.
Qed.
End Runner.
