(* ===== verification/EvmMoves.v ===== *)
(** * What runs of contracts do to the pallet

    The chain around the pallet, the steps frames take on its storage, and what
    precompiled contracts do to it: they take such steps, of their own or by
    running contracts. *)
From S2P Require Import Prelude Primitives Runtime Bytes EvmBridge EvmManager EvmAccounts StorageMeter Evm EvmRunner EvmFrames.

(** ** The chain

    [program] are the addresses contracts are created at: no one holds a key of
    them, so their accounts are fixed, and no one else's.  The network's contracts
    are numbered from a positive index on: address zero, the source the runtimes
    give them, is no program.  [held] counts the
    provider references the pallet has taken on an account; an account with one
    is not reaped. *)
Class EvmChainLaws `{EvmConfig} := {
  program : EvmAddress -> Prop;
  acct : EvmAddress -> AccountId;
  held : AccountId -> Chain -> Z;
  reserve (who : AccountId) (c : Chain) : Balance := c_reserved_balance_named RESERVE_ID_STORAGE_DEPOSIT who c;
  same_reserves (c c' : Chain) : Prop := forall who, reserve who c' = reserve who c /\ held who c' = held who c;

  program_account a c : program a -> get_account_id a c = acct a;
  account_program a e c : program a -> get_account_id e c = acct a -> e = a;
  address_account who c e : get_evm_address who c = Some e -> program e -> who = acct e;
  default_not_program who : ~ program (get_default_evm_address who);
  derived_program scheme s a : derived scheme -> create_address scheme s = Some a -> program a;
  network_program i : 0 < i < 2 ^ 64 -> program (from_low_u64_be i);
  network_source_not_program : ~ program NetworkContractSource;

  reserve_nonneg who c : 0 <= reserve who c;
  held_nonneg who c : 0 <= held who c;
  transfer_law a b v c c' killed : c_transfer a b v c = inl (c', killed) ->
    same_reserves c c' /\ forall who, who ∈ killed -> held who c' <= 0;
  transfer_all_law a b c c' killed : c_transfer_all a b c = inl (c', killed) ->
    same_reserves c c' /\ forall who, who ∈ killed -> held who c' <= 0;
  on_killed_law who c : same_reserves c (c_on_killed who c);
  reserve_law who n c c' : c_reserve_named RESERVE_ID_STORAGE_DEPOSIT who n c = inl c' ->
    forall x, reserve x c' = reserve x c + (if decide (x = who) then n else 0) /\ held x c' = held x c;
  unreserve_law who n c x :
    (x <> who -> reserve x (c_unreserve_named RESERVE_ID_STORAGE_DEPOSIT who n c).2 = reserve x c) /\
    held x (c_unreserve_named RESERVE_ID_STORAGE_DEPOSIT who n c).2 = held x c;
  repatriate_law from to n st c rest c' :
    c_repatriate_reserved_named RESERVE_ID_STORAGE_DEPOSIT from to n st c = inl (rest, c') ->
    forall x, (x <> from -> reserve x c <= reserve x c') /\ reserve from c - n <= reserve from c' /\
      held x c' = held x c;
  inc_providers_law who c x : reserve x (c_inc_providers who c) = reserve x c /\
    held x (c_inc_providers who c) = held x c + if decide (x = who) then 1 else 0;
  dec_providers_law who c c' killed : c_dec_providers who c = Some (c', killed) ->
    (forall x, reserve x c' = reserve x c /\ held x c - (if decide (x = who) then 1 else 0) <= held x c') /\
    forall x, x ∈ killed -> held x c' <= 0;
  developer_reserve_law who n c c' : c_ensure_reserved_named RESERVE_ID_DEVELOPER_DEPOSIT who n c = inl c' ->
    same_reserves c c';
  developer_unreserve_law who c : same_reserves c (c_unreserve_all_named RESERVE_ID_DEVELOPER_DEPOSIT who c).2;
  charge_fee_law who w c i c' : c_unreserve_and_charge_fee who w c = Some (i, c') -> same_reserves c c';
  refund_fee_law who w i c : same_reserves c (c_refund_fee who w i c);
  create_address_law who c : same_reserves c (get_or_create_evm_address who c).2 /\
    (get_evm_address who c = Some (get_or_create_evm_address who c).1 \/
     (get_or_create_evm_address who c).1 = get_default_evm_address who);

  deposit_price : 0 <= StorageDepositPerByte /\ StorageDepositPerByte * U32_MAX <= U128_MAX;
  extra_bytes : 0 <= NewContractExtraBytes /\ 0 <= MaxCodeSize /\ MaxCodeSize + NewContractExtraBytes < 2 ^ 31 }.

Section Chain.
Context `{Laws : EvmChainLaws}.
Lemma same_refl c : same_reserves c c.
Proof. done. Qed.
Lemma same_trans c1 c2 c3 : same_reserves c1 c2 -> same_reserves c2 c3 -> same_reserves c1 c3.
Proof. intros H1 H2 who. destruct (H1 who), (H2 who). split; congruence. Qed.

Lemma on_chain_Ok f s u s' : on_chain f s = (Ok u, s') -> exists c, f (chain s) = inl c /\ s' = set_chain c s.
Proof. unfold on_chain. destruct (f (chain s)) as [c|e]; [|done]. intros [= _ <-]. by exists c. Qed.
Lemma reaping_Ok f s u s' : on_chain_reaping f s = (Ok u, s') ->
  exists c killed, f (chain s) = inl (c, killed) /\ s' = reap killed (set_chain c s).
Proof.
  unfold on_chain_reaping. destruct (f (chain s)) as [[c killed]|]; [|done]. intros [= _ <-]. by exists c, killed.
Qed.
End Chain.

(** ** The steps

    On the frames that are open, the steps that are left and the storage.  Who
    pays for a frame is no program. *)
Abbreviation Moment := (list core * nat * EvmState)%type.
Inductive pallet_op `{Laws : EvmChainLaws} (installs : EvmAddress -> Prop) : Moment -> Moment -> Prop :=
  | op_step l n s : pallet_op installs (l, S n, s) (l, n, s)
  | op_open a l n s : pallet_op installs (l, n, s) (fresh a :: l, n, s)
  | op_close origin c l n s s' : ~ program origin ->
      impl_charge_storage origin (co_contract c) (co_used c) (co_refunded c) s = (Ok tt, s') ->
      pallet_op installs (c :: l, n, s) (l, n, s')
  | op_reserve origin limit l n s s' : ~ program origin ->
      impl_reserve_storage origin limit s = (Ok tt, s') -> pallet_op installs (l, n, s) (l, n, s')
  | op_unreserve origin limit u r l n s s' : ~ program origin ->
      impl_unreserve_storage origin limit u r s = (Ok tt, s') -> pallet_op installs (l, n, s) (l, n, s')
  (* balances, tokens and whatever else is around; accounts may be reaped *)
  | op_chain c killed l n s : same_reserves (chain s) c -> (forall who, who ∈ killed -> held who c <= 0) ->
      pallet_op installs (l, n, s) (l, n, reap killed (set_chain c s))
  | op_origin o l n s : pallet_op installs (l, n, s) (l, n, set_extrinsic_origin o s)
  | op_nonce a l n s : pallet_op installs (l, n, s) (l, n, inc_nonce a s)
  | op_event e l n s : pallet_op installs (l, n, s) (l, n, evm_deposit_event e s)
  | op_maintainer who a m l n s s' : rent_transfer_maintainer who a m s = (Ok tt, s') ->
      pallet_op installs (l, n, s) (l, n, s')
  | op_store c l n i v s : (account_storages (co_contract c) i s = 0 <-> v = 0) ->
      pallet_op installs (c :: l, S n, s) (c :: l, n, store_slot (co_contract c) i v s)
  | op_added c l n i v s : account_storages (co_contract c) i s = 0 -> v <> 0 ->
      pallet_op installs (c :: l, S n, s) (use STORAGE_SIZE c :: l, n,
        update_contract_storage_size (co_contract c) STORAGE_SIZE (store_slot (co_contract c) i v s))
  | op_removed c l n i s : account_storages (co_contract c) i s <> 0 ->
      pallet_op installs (c :: l, S n, s) (give_back STORAGE_SIZE c :: l, n,
        update_contract_storage_size (co_contract c) (- STORAGE_SIZE) (store_slot (co_contract c) i 0 s))
  | op_delete c l n dest size s s' : remove_contract (co_contract c) dest s = (Ok size, s') ->
      pallet_op installs (c :: l, S n, s) (give_back size c :: l, n, s')
  | op_init c l n m code s s' : installs (co_contract c) ->
      on_contract_initialization (co_contract c) m code s = (Ok tt, s') ->
      pallet_op installs (c :: l, S n, s)
        (use (U32.saturating_add (len code mod 2 ^ 32) NewContractExtraBytes) c :: l, n, s').

(** What precompiled contracts do: they move money, deposit events, hand over the
    maintenance of contracts, and run contracts at addresses that are derived, of
    no more than [precompile_steps] steps for a call.  Frames they open they close. *)
Class PrecompileLaws `{EvmMachine} {Laws : EvmChainLaws} := {
  precompile_steps : nat;
  precompile_law a input g ctx l n s :
    rtc (pallet_op program) (l, (precompile_steps + n)%nat, s) (l, n, (precompiles_execute a input g ctx s).2) }.

(** A property the steps keep *)
Class MovesInvariant `{Laws : EvmChainLaws} (installs : EvmAddress -> Prop)
    (P : list core -> nat -> EvmState -> Prop) : Prop :=
  moves_kept l n s l' n' s' : pallet_op installs (l, n, s) (l', n', s') -> P l n s -> P l' n' s'.

Section Moves.
Context `{Laws : EvmChainLaws} (installs : EvmAddress -> Prop) (P : list core -> nat -> EvmState -> Prop)
  {Kept : MovesInvariant installs P}.

Lemma moves_rtc x y : rtc (pallet_op installs) x y -> P x.1.1 x.1.2 x.2 -> P y.1.1 y.1.2 y.2.
Proof.
  induction 1 as [|[[l n] s] [[l' n'] s'] z Hop _ IH]; [done|]. intros Hx. by apply IH, (moves_kept l n s).
Qed.
Lemma moves_steps l n n' s : (n' <= n)%nat -> P l n s -> P l n' s.
Proof. induction 1 as [|n Hle IH]; [done|]. intros Hs. eapply IH, moves_kept, Hs. apply op_step. Qed.
End Moves.
Lemma pallet_op_mono `{Laws : EvmChainLaws} (p q : EvmAddress -> Prop) x y :
  (forall a, p a -> q a) -> pallet_op p x y -> pallet_op q x y.
Proof. intros Hpq. destruct 1; econstructor; solve [eauto]. Qed.
(** Steps do not depend on the frames below, nor on the steps that are not taken. *)
Lemma pallet_op_above `{Laws : EvmChainLaws} installs l0 k l n s l' n' s' :
  pallet_op installs (l, n, s) (l', n', s') -> pallet_op installs (l ++ l0, (n + k)%nat, s) (l' ++ l0, (n' + k)%nat, s').
Proof. inversion 1; subst; cbn [app Nat.add]; econstructor; solve [eauto]. Qed.

(** ** Frames take these steps.

    Where a precompiled contract may take [k] steps, a step of a frame counts for
    [S k]. *)
Definition in_steps `{EvmConfig} (k : nat) (P : list core -> nat -> EvmState -> Prop) l (n : nat) s : Prop :=
  P l (n * S k)%nat s.

Section Frames.
Context `{EvmMachine} {Own : OwnFrames} {Laws : EvmChainLaws} {Pre : PrecompileLaws}.
Context (installs : EvmAddress -> Prop) (Hinst : forall a, program a -> installs a).
Context (P : list core -> nat -> EvmState -> Prop) {Kept : MovesInvariant installs P}.

Lemma one_step l l' n s s' : pallet_op installs (l, S (n * S precompile_steps), s) (l', (n * S precompile_steps)%nat, s') ->
  in_steps precompile_steps P l (S n) s -> in_steps precompile_steps P l' n s'.
Proof.
  unfold in_steps. intros Hop HP. eapply moves_kept; [exact Hop|].
  eapply (moves_steps installs P); [|exact HP]. lia.
Qed.
Lemma no_step l l' n s s' :
  pallet_op installs (l, (n * S precompile_steps)%nat, s) (l', (n * S precompile_steps)%nat, s') ->
  in_steps precompile_steps P l n s -> in_steps precompile_steps P l' n s'.
Proof. unfold in_steps. intros Hop HP. eapply moves_kept; [exact Hop|exact HP]. Qed.
Lemma frames_of_moves origin : ~ program origin -> FrameInvariant installs origin (in_steps precompile_steps P).
Proof.
  intros Ho. constructor.
  - intros scheme a s Hd Ha. by eapply Hinst, derived_program.
  - intros l n s. apply one_step, op_step.
  - intros a l n s. apply no_step, op_open.
  - intros c l n s s' HP Hc. eapply no_step, HP. by apply (op_close _ origin).
  - intros limit n s s' HP Hc. eapply no_step, HP. by apply (op_reserve _ origin limit).
  - intros limit u r n s s' HP Hc. eapply no_step, HP. by apply (op_unreserve _ origin limit u r).
  - intros a b v l n s s' HP (c & killed & Hc & ->)%reaping_Ok. apply transfer_law in Hc as [Hs Hk].
    eapply no_step, HP. by apply op_chain.
  - intros a l n s. apply no_step, op_nonce.
  - intros e l n s. apply no_step, op_event.
  - intros a input g ctx l n s HP.
    apply (moves_rtc installs P (l, (precompile_steps + n * S precompile_steps)%nat, s) (l, (n * S precompile_steps)%nat, _)).
    { eapply rtc_subrel, precompile_law. intros x y. by apply pallet_op_mono. }
    eapply (moves_steps installs P); [|exact HP]. cbn. lia.
  - intros c l n i v s HP Hi. eapply one_step, HP. by apply op_store.
  - intros c l n i v s HP Hi Hv. eapply one_step, HP. by apply op_added.
  - intros c l n i s HP Hi. eapply one_step, HP. by apply op_removed.
  - intros c l n dest size s s' HP Hd. eapply one_step, HP. by apply (op_delete _ _ _ _ dest).
  - intros c l n m code s s' Hi HP Hd. eapply one_step, HP. by apply (op_init _ _ _ _ m).
Qed.
End Frames.

(** ** Contracts that other pallets run take these steps, too.

    A precompiled contract that calls the currencies, which call a contract, keeps
    [PrecompileLaws] if the precompiled contracts of that run do. *)
Section Runs.
Context `{EvmMachine} {Own : OwnFrames} {Laws : EvmChainLaws} {Pre : PrecompileLaws}.

Definition reached (l0 : list core) (k : nat) (start : Moment) (l : list core) (n : nat) (s : EvmState) : Prop :=
  rtc (pallet_op program) start (l ++ l0, (n + k)%nat, s).
#[local] Instance reached_moves l0 k start : MovesInvariant program (reached l0 k start).
Proof. intros l n s l' n' s' Hop Hs. eapply rtc_r; [exact Hs|]. by apply pallet_op_above. Qed.

Lemma execute_moves n context input value gas_limit storage_limit mode s r s' l k :
  ~ program (ic_origin context) ->
  evm_trait_execute n context input value gas_limit storage_limit mode s = (r, s') -> r <> Panic ->
  rtc (pallet_op program) (l, (n * S precompile_steps + k)%nat, s) (l, k, s').
Proof.
  intros Ho. set (start := (l, (n * S precompile_steps + k)%nat, s)).
  assert (Hend : forall m t, reached l k start [] m t -> rtc (pallet_op program) start (l, k, t)).
  { intros m t Ht. by apply (moves_steps program (reached l k start) [] m 0 t (Nat.le_0_l _)). }
  assert (Hs : reached l k start [] (n * S precompile_steps) s) by apply rtc_refl.
  unfold evm_trait_execute. cbv zeta. set (config := match mode with EstimateGas => _ | _ => _ end).
  pose proof (wlp_runner_call n config program (in_steps precompile_steps (reached l k start))
    (ic_sender context) (ic_origin context) (ic_contract context) input value gas_limit storage_limit s
    (Inv := frames_of_moves program (fun a Ha => Ha) _ _ Ho) Hs) as Hrun.
  unfold wlp in Hrun. destruct (runner_call n _ _ _ _ _ _ _ _ s) as [[info|e|] t].
  - apply Hend in Hrun. apply Hend in Hs. destruct mode; [destruct (is_succeed _)|..]; intros [= _ <-] _; try done.
    eapply rtc_r; [exact Hrun|]. apply op_event.
  - intros [= _ <-] _. by eapply Hend.
  - intros [= <- _] Hp. done.
Qed.
End Runs.
