(* ===== verification/EvmSpecs.v ===== *)
(** * What the EVM pallet keeps

    Two invariants of its storage, over any history of calls: the deposits of a
    contract cover the storage it uses, and the code of a contract is there.
    Both are properties every frame keeps ([EvmFrames.v]). *)
From S2P Require Import Prelude Primitives Runtime Bytes EvmBridge EvmManager EvmAccounts StorageMeter Evm EvmRunner EvmFrames EvmMoves.

(** ** What the operations of the pallet do to its storage *)
Section Effects.
Context `{Laws : EvmChainLaws}.

(** Storage of contracts: untouched, or changed by accounts that were reaped *)
Definition same_storage (s s' : EvmState) : Prop :=
  ContractStorageSizes s' = ContractStorageSizes s /\ AccountStorages s' = AccountStorages s.

Lemma deref_code_storage h s : same_storage s (deref_code h s) /\ chain (deref_code h s) = chain s.
Proof. unfold deref_code. destruct (CodeInfos s !! h); [|done]. by destruct (_ =? 0). Qed.
Lemma remove_account_storage a s : same_storage s (remove_account a s) /\ chain (remove_account a s) = chain s.
Proof. unfold remove_account. destruct (contract_at a s); [apply deref_code_storage|done]. Qed.
Lemma on_killed_storage who s : same_storage s (on_killed_account who s) /\ chain (on_killed_account who s) = chain s.
Proof.
  unfold on_killed_account. destruct (get_evm_address who (chain s)) as [e|].
  - destruct (remove_account_storage e s) as [[H1 H2] H3].
    destruct (remove_account_storage (get_default_evm_address who) (remove_account e s)) as [[H4 H5] H6].
    unfold same_storage. split_and!; congruence.
  - apply remove_account_storage.
Qed.
Lemma reap_storage killed : forall s, same_storage s (reap killed s) /\ same_reserves (chain s) (chain (reap killed s)).
Proof.
  induction killed as [|who killed IH]; intros s; cbn [reap foldl]; [done|].
  destruct (on_killed_storage who s) as [[H1 H2] H3].
  set (s1 := set_chain _ _). destruct (IH s1) as [[H4 H5] H6]. fold (reap killed s1).
  split; [split; [by rewrite H4|by rewrite H5]|].
  eapply same_trans; [|exact H6]. subst s1. cbn [chain set_chain]. rewrite H3. apply on_killed_law.
Qed.

Lemma reap_after killed c s : same_storage s (reap killed (set_chain c s)) /\
  same_reserves c (chain (reap killed (set_chain c s))).
Proof. apply (reap_storage killed (set_chain c s)). Qed.
Lemma transfer_storage a b v s u s' : on_chain_reaping (c_transfer a b v) s = (Ok u, s') ->
  same_storage s s' /\ same_reserves (chain s) (chain s').
Proof.
  intros (c & killed & Hc & ->)%reaping_Ok. destruct (reap_after killed c s) as [Hs Hr]. split; [exact Hs|].
  eapply same_trans; [apply (transfer_law _ _ _ _ _ _ Hc)|exact Hr].
Qed.

(** What a removal goes through *)
Lemma remove_contract_Ok a dest s size s' : remove_contract a dest s = (Ok size, s') ->
  exists acc info c killed c2 killed2,
    Accounts s !! a = Some acc /\ contract_info acc = Some info /\
    c_transfer_all (account_of a s) (account_of dest s) (chain s) = inl (c, killed) /\
    let t := deref_code (code_hash info) (reap killed (set_chain c s)) in
    c_dec_providers (account_of a s) (chain t) = Some (c2, killed2) /\
    size = storage_size a t /\
    s' = reap killed2 (set_chain c2
      (set_accounts (<[a := mkAccountInfo (nonce acc) None]> (Accounts t))
        (set_sizes (delete a (ContractStorageSizes t)) (set_storages (delete a (AccountStorages t)) t)))).
Proof.
  unfold remove_contract. intros Hr. apply (proj1 (transactional_Ok _ _ _ _)) in Hr.
  minv Hr. apply reaping_Ok in Hm1 as (c & killed & Hc & ->).
  apply reaping_Ok in Hm2 as (c2 & killed2 & Hc2 & ->). cbn [chain set_accounts set_sizes set_storages] in Hc2.
  destruct (c_dec_providers _ _) as [[c3 k3]|] eqn:Hd; [|done]. injection Hc2 as -> ->.
  eexists _, _, c, killed, c2, killed2. split_and!; [done..| |done|done]. exact Hd.
Qed.
Lemma remove_contract_storage a dest s size s' : remove_contract a dest s = (Ok size, s') ->
  size = storage_size a s /\ ContractStorageSizes s' = delete a (ContractStorageSizes s) /\
  AccountStorages s' = delete a (AccountStorages s) /\
  forall who, reserve who (chain s') = reserve who (chain s).
Proof.
  intros (acc & info & c & killed & c2 & killed2 & _ & _ & Hc & Hd & Hsz & ->)%remove_contract_Ok.
  set (t0 := reap killed (set_chain c s)) in *. destruct (reap_after killed c s) as [[Hs Hst] Hr]. fold t0 in Hs, Hst, Hr.
  destruct (deref_code_storage (code_hash info) t0) as [[Hs1 Hst1] Hc1].
  set (t := deref_code _ t0) in *. set (u := set_accounts _ _).
  destruct (reap_after killed2 c2 u) as [[Hs2 Hst2] Hr2].
  rewrite Hs2, Hst2, Hsz. unfold storage_size. rewrite Hs1, Hs. split_and!; [done| | |].
  { cbn. by rewrite Hs1, Hs. }
  { cbn. by rewrite Hst1, Hst. }
  intros who.
  destruct (Hr2 who) as [-> _]. destruct (proj1 (dec_providers_law _ _ _ _ Hd) who) as [-> _].
  rewrite Hc1. destruct (Hr who) as [-> _]. apply (transfer_all_law _ _ _ _ _ Hc).
Qed.

Lemma update_size_other a k s : let s' := update_contract_storage_size a k s in
  Accounts s' = Accounts s /\ AccountStorages s' = AccountStorages s /\ Codes s' = Codes s /\
  CodeInfos s' = CodeInfos s /\ chain s' = chain s.
Proof. unfold update_contract_storage_size. by destruct (k =? 0). Qed.
Lemma ref_code_other h code s : let s' := ref_code h code s in
  Accounts s' = Accounts s /\ AccountStorages s' = AccountStorages s /\
  ContractStorageSizes s' = ContractStorageSizes s /\ chain s' = chain s.
Proof. unfold ref_code. by destruct (CodeInfos s !! h). Qed.
Lemma update_size_spec a k b s : storage_size b (update_contract_storage_size a k s) =
  if decide (b = a) then
    (if k =? 0 then storage_size a s
     else if 0 <? k then U32.saturating_add (storage_size a s) k else U32.saturating_sub (storage_size a s) (- k))
  else storage_size b s.
Proof.
  unfold update_contract_storage_size. destruct (Z.eqb_spec k 0) as [->|Hk].
  { by destruct (decide (b = a)) as [->|]. }
  unfold storage_size at 1. cbn [ContractStorageSizes set_sizes].
  destruct (decide (b = a)) as [->|Hne]; [by rewrite lookup_insert_eq|by rewrite lookup_insert_ne].
Qed.

(** What a change of maintainer is *)
Lemma rent_transfer_maintainer_Ok who a m s u s' : rent_transfer_maintainer who a m s = (Ok u, s') ->
  exists acc info, Accounts s !! a = Some acc /\ contract_info acc = Some info /\
    s' = set_accounts (<[a := mkAccountInfo (nonce acc) (Some (mkContractInfo (code_hash info) m (deployed info)))]> (Accounts s)) s.
Proof.
  unfold rent_transfer_maintainer, do_transfer_maintainer. intros Hr. minv Hr. eexists _, _. by split_and!.
Qed.

(** What an initialization is *)
Lemma on_contract_initialization_Ok a m code s u s' : on_contract_initialization a m code s = (Ok u, s') ->
  let t := ref_code (keccak256 code) code
    (update_contract_storage_size a (as_i32 (U32.saturating_add (len code) NewContractExtraBytes)) s) in
  let acc := default (mkAccountInfo 0 None) (Accounts s !! a) in
  len code <= MaxCodeSize /\
  s' = set_chain (c_inc_providers (account_of a s) (chain s))
    (set_accounts (<[a := mkAccountInfo (nonce acc)
       (Some (mkContractInfo (keccak256 code) m with_ethereum_compatibility))]> (Accounts s)) t).
Proof.
  unfold on_contract_initialization. intros Hi. minv Hi. split; [by apply Z.leb_le|].
  set (t1 := update_contract_storage_size a _ s) in *. set (t := ref_code _ code t1) in *.
  destruct (update_size_other a (as_i32 (U32.saturating_add (len code) NewContractExtraBytes)) s) as (Ha & _ & _ & _ & Hc).
  destruct (ref_code_other (keccak256 code) code t1) as (Ha1 & _ & _ & Hc1). fold t1 in Ha, Hc. fold t in Ha1, Hc1.
  unfold account_of. cbn [chain set_accounts]. rewrite Hc1, Hc, Ha1, Ha. by destruct (Accounts s !! a).
Qed.
End Effects.

(** ** Deposits cover storage *)
Section Backing.
Context `{Laws : EvmChainLaws}.

(** What frames of [a] that are open have used and not been charged for *)
Definition pending (a : EvmAddress) (l : list core) : Z :=
  foldr (fun c acc => (if decide (co_contract c = a) then co_used c - co_refunded c else 0) + acc) 0 l.
Definition slots (a : EvmAddress) (s : EvmState) : gmap H256 H256 := default ∅ (AccountStorages s !! a).
Definition slot_bytes (a : EvmAddress) (s : EvmState) : Z := STORAGE_SIZE * Z.of_nat (size (slots a s)).
(** The most bytes one step can use *)
Definition most_bytes : Z := Z.max STORAGE_SIZE (MaxCodeSize + NewContractExtraBytes).

(** Every recorded byte is paid for, by the reserve of the contract or by a meter;
    every slot is recorded; the counters have room for [n] steps. *)
Record backed (l : list core) (n : nat) (s : EvmState) : Prop := {
  backed_deposit a : program a ->
    StorageDepositPerByte * storage_size a s <= reserve (acct a) (chain s) + StorageDepositPerByte * pending a l;
  backed_slots a : slot_bytes a s <= storage_size a s;
  backed_stored a i v : slots a s !! i = Some v -> v <> 0;
  backed_room a : storage_size a s + most_bytes * Z.of_nat n <= U32_MAX;
  backed_used c : c ∈ l -> 0 <= co_used c /\ co_used c + most_bytes * Z.of_nat n <= U32_MAX /\ 0 <= co_refunded c }.

Lemma most_bytes_bounds : 64 <= most_bytes /\ MaxCodeSize + NewContractExtraBytes <= most_bytes.
Proof. unfold most_bytes, STORAGE_SIZE. lia. Qed.
Lemma slot_bytes_nonneg a s : 0 <= slot_bytes a s.
Proof. unfold slot_bytes, STORAGE_SIZE. lia. Qed.
Lemma backed_size_nonneg l n s a : backed l n s -> 0 <= storage_size a s.
Proof. intros Hb. pose proof (backed_slots _ _ _ Hb a). pose proof (slot_bytes_nonneg a s). lia. Qed.
Lemma slots_lookup a i s : account_storages a i s = default 0 (slots a s !! i).
Proof. unfold account_storages, slots. by destruct (AccountStorages s !! a). Qed.

Lemma backed_same l n s s' : same_storage s s' ->
  (forall a, program a -> reserve (acct a) (chain s) <= reserve (acct a) (chain s')) ->
  backed l n s -> backed l n s'.
Proof.
  intros [Hs Hst] Hr [Hd Hsl Hz Hroom Hu].
  assert (Hsz : forall a, storage_size a s' = storage_size a s) by (intros; unfold storage_size; by rewrite Hs).
  assert (Hslots : forall a, slots a s' = slots a s) by (intros; unfold slots; by rewrite Hst).
  constructor.
  - intros a Ha. rewrite Hsz. pose proof (Hd a Ha). pose proof (Hr a Ha). lia.
  - intros a. unfold slot_bytes. rewrite Hsz, Hslots. apply Hsl.
  - intros a i v. rewrite Hslots. apply Hz.
  - intros a. rewrite Hsz. apply Hroom.
  - exact Hu.
Qed.
Lemma backed_step l n s : backed l (S n) s -> backed l n s.
Proof.
  pose proof most_bytes_bounds.
  intros [Hd Hsl Hz Hroom Hu]. constructor; [done..| |]; [intros a; specialize (Hroom a)|intros c Hc; specialize (Hu c Hc)]; lia.
Qed.
(** A charge of the price of [k] bytes does not overflow. *)
Lemma price_of k : 0 <= k <= U32_MAX -> U128.saturating_mul StorageDepositPerByte k = StorageDepositPerByte * k.
Proof. intros Hk. destruct deposit_price as [Hp Hmax]. unfold U128.saturating_mul. nia. Qed.
Lemma price_at_most k : U128.saturating_mul StorageDepositPerByte k <= StorageDepositPerByte * k.
Proof. unfold U128.saturating_mul. lia. Qed.

Lemma pending_cons a c l : pending a (c :: l) =
  (if decide (co_contract c = a) then co_used c - co_refunded c else 0) + pending a l.
Proof. done. Qed.

(** The account that signs is not the account of a program. *)
Lemma origin_account origin a s : ~ program origin -> program a -> account_of origin s <> acct a.
Proof. intros Ho Ha Heq. apply Ho. by rewrite (account_program a origin (chain s) Ha Heq). Qed.
Lemma other_account b a s : program a -> b <> a -> account_of b s <> acct a.
Proof. intros Ha Hne Heq. apply Hne. by apply (account_program a b (chain s)). Qed.

Lemma backed_close origin c l n s s' : ~ program origin -> backed (c :: l) n s ->
  impl_charge_storage origin (co_contract c) (co_used c) (co_refunded c) s = (Ok tt, s') -> backed l n s'.
Proof.
  intros Ho Hb Hc. destruct (backed_used _ _ _ Hb c ltac:(left)) as (Hu0 & Hu & Hr0).
  pose proof most_bytes_bounds as [Hmb _].
  assert (Hk : forall s1, same_storage s s1 ->
    (forall a, program a -> reserve (acct a) (chain s) +
       (if decide (co_contract c = a) then StorageDepositPerByte * (co_used c - co_refunded c) else 0) <=
       reserve (acct a) (chain s1)) -> backed l n s1).
  { intros s1 [Hs Hst] Hr. destruct Hb as [Hd Hsl Hz Hroom Hused].
    assert (Hsz : forall a, storage_size a s1 = storage_size a s) by (intros; unfold storage_size; by rewrite Hs).
    assert (Hslots : forall a, slots a s1 = slots a s) by (intros; unfold slots; by rewrite Hst).
    constructor.
    - intros a Ha. rewrite Hsz. specialize (Hd a Ha). specialize (Hr a Ha). rewrite pending_cons in Hd.
      case_decide; lia.
    - intros a. unfold slot_bytes. rewrite Hsz, Hslots. apply Hsl.
    - intros a i v. rewrite Hslots. apply Hz.
    - intros a. rewrite Hsz. apply Hroom.
    - intros d Hd'. apply Hused. by right. }
  unfold impl_charge_storage in Hc. destruct (Z.eqb_spec (co_used c) (co_refunded c)) as [He|Hne].
  - injection Hc as <-. apply Hk; [done|]. intros a _. rewrite He. case_decide; lia.
  - apply bind_Ok_inv in Hc as (user & t & [-> ->]%gets_Ok & Hc).
    apply bind_Ok_inv in Hc as (con & t & [-> ->]%gets_Ok & Hc).
    destruct (Z.ltb_spec (co_refunded c) (co_used c)) as [Hlt|Hge].
    + rewrite price_of in Hc by (unfold U32_MAX in *; lia).
      apply bind_Ok_inv in Hc as ([] & s1 & (c1 & [= <-] & ->)%on_chain_Ok & Hc).
      apply bind_Ok_inv in Hc as ([] & s2 & [Hs2 Hr2]%transfer_storage & Hc).
      apply on_chain_Ok in Hc as (c3 & Hc3 & ->). apply Hk; [exact Hs2|].
      intros a Ha. cbn [chain set_chain] in *. rewrite (proj1 (reserve_law _ _ _ _ Hc3 (acct a))).
      rewrite (proj1 (Hr2 (acct a))).
      rewrite (proj1 (unreserve_law _ _ _ (acct a))) by (intros Heq; by apply (origin_account origin a s Ho Ha)).
      destruct (decide (co_contract c = a)) as [Heq|Hne'].
      * rewrite decide_True; [lia|]. rewrite Heq. unfold account_of. by rewrite program_account.
      * rewrite decide_False; [lia|]. intros Heq. by apply (other_account (co_contract c) a s).
    + apply on_chain_Ok in Hc as (c1 & Hc1 & ->). apply Hk; [done|]. intros a Ha. cbn [chain set_chain].
      destruct (c_repatriate_reserved_named _ _ _ _ _ _) as [[rest c2]|] eqn:Hrep; [|done]. injection Hc1 as ->.
      pose proof (price_at_most (co_refunded c - co_used c)) as Hpr.
      destruct (repatriate_law _ _ _ _ _ _ _ Hrep (acct a)) as (Hother & Hfrom & _).
      destruct (decide (co_contract c = a)) as [Heq|Hne'].
      * rewrite Heq in Hfrom. unfold account_of in Hfrom. rewrite program_account in Hfrom by done. lia.
      * rewrite Z.add_0_r. apply Hother. intros Heq. by apply (other_account (co_contract c) a s).
Qed.

Lemma backed_reserve origin limit l n s s' : ~ program origin -> backed l n s ->
  impl_reserve_storage origin limit s = (Ok tt, s') -> backed l n s'.
Proof.
  unfold impl_reserve_storage. intros Ho Hb Hr. destruct (limit =? 0); [by injection Hr as <-|].
  apply bind_Ok_inv in Hr as (user & t & [-> ->]%gets_Ok & (c & Hc & ->)%on_chain_Ok).
  apply (backed_same _ _ s); [done| |exact Hb]. intros a Ha. cbn [chain set_chain].
  rewrite (proj1 (reserve_law _ _ _ _ Hc (acct a))), decide_False; [lia|].
  intros Heq. by apply (origin_account origin a s Ho Ha).
Qed.
Lemma backed_unreserve origin limit u r l n s s' : ~ program origin -> backed l n s ->
  impl_unreserve_storage origin limit u r s = (Ok tt, s') -> backed l n s'.
Proof.
  unfold impl_unreserve_storage. intros Ho Hb Hr. destruct (_ =? 0); [by injection Hr as <-|].
  apply bind_Ok_inv in Hr as (user & t & [-> ->]%gets_Ok & (c & [= <-] & ->)%on_chain_Ok).
  apply (backed_same _ _ s); [done| |exact Hb]. intros a Ha. cbn [chain set_chain].
  rewrite (proj1 (unreserve_law _ _ _ (acct a))); [lia|].
  intros Heq. by apply (origin_account origin a s Ho Ha).
Qed.

(** Storing a slot *)
Lemma slots_store a b i v s : slots b (store_slot a i v s) =
  if decide (b = a) then (if v =? 0 then delete i (slots a s) else <[i := v]> (slots a s)) else slots b s.
Proof.
  unfold slots, store_slot. cbn [AccountStorages set_storages].
  destruct (decide (b = a)) as [->|Hne]; [by rewrite lookup_insert_eq|by rewrite lookup_insert_ne].
Qed.
Lemma store_slot_size a b i v s : storage_size b (store_slot a i v s) = storage_size b s.
Proof. done. Qed.
Lemma stored_zero l n a i s : backed l n s -> account_storages a i s = 0 <-> slots a s !! i = None.
Proof.
  intros Hb. rewrite slots_lookup. destruct (slots a s !! i) as [v|] eqn:Hv; [|done].
  pose proof (backed_stored _ _ _ Hb _ _ _ Hv). cbn. naive_solver.
Qed.
Lemma stored_after a i v s : (forall b j w, slots b s !! j = Some w -> w <> 0) ->
  forall b j w, slots b (store_slot a i v s) !! j = Some w -> w <> 0.
Proof.
  intros Hz b j w. rewrite slots_store. destruct (decide (b = a)) as [->|]; [|apply Hz].
  destruct (Z.eqb_spec v 0) as [->|Hv].
  - rewrite lookup_delete_Some. intros [_ Hw]. by apply Hz in Hw.
  - rewrite lookup_insert_Some. intros [[_ <-]|[_ Hw]]; [done|by apply Hz in Hw].
Qed.

Lemma backed_store c l n i v s : backed (c :: l) (S n) s ->
  (account_storages (co_contract c) i s = 0 <-> v = 0) ->
  backed (c :: l) n (store_slot (co_contract c) i v s).
Proof.
  intros Hb Hiff. set (a := co_contract c) in *.
  assert (Hsl : forall b, slot_bytes b (store_slot a i v s) = slot_bytes b s).
  { intros b. unfold slot_bytes. rewrite slots_store. destruct (decide (b = a)) as [->|]; [|done].
    rewrite (stored_zero _ _ _ _ _ Hb) in Hiff. destruct (Z.eqb_spec v 0) as [Hv|Hv].
    - rewrite delete_id; [done|]. by apply Hiff.
    - rewrite map_size_insert. destruct (slots a s !! i) eqn:Hi; [done|]. exfalso. by apply Hv, Hiff. }
  pose proof (stored_after a i v s (backed_stored _ _ _ Hb)) as Hz.
  destruct (backed_step _ _ _ Hb) as [Hd Hs _ Hr Hu]. constructor; [exact Hd|..|exact Hz|exact Hr|exact Hu].
  intros b. rewrite Hsl. apply Hs.
Qed.

(** Bytes that one step adds to a contract and to its meter *)
Lemma backed_grow c l n k s s' : backed (c :: l) (S n) s -> 0 <= k <= most_bytes ->
  let a := co_contract c in
  (forall b, storage_size b s' = if decide (b = a) then U32.saturating_add (storage_size a s) k else storage_size b s) ->
  (forall b, slot_bytes b s' <= slot_bytes b s + if decide (b = a) then k else 0) ->
  (forall b j w, slots b s' !! j = Some w -> w <> 0) ->
  (forall b, program b -> reserve (acct b) (chain s) <= reserve (acct b) (chain s')) ->
  backed (use k c :: l) n s'.
Proof.
  intros Hb Hk a Hs Hsl Hz Hr. pose proof (backed_size_nonneg _ _ _ a Hb) as Hpos.
  pose proof (backed_room _ _ _ Hb) as Hroom. pose proof most_bytes_bounds as [Hmb _].
  destruct (backed_used _ _ _ Hb c ltac:(left)) as (Hu0 & Hu & Hr0).
  assert (Hadd : U32.saturating_add (storage_size a s) k = storage_size a s + k).
  { unfold U32.saturating_add. specialize (Hroom a). lia. }
  assert (Huse : co_used (use k c) = co_used c + k).
  { cbn. unfold U32.saturating_add. lia. }
  constructor.
  - intros b Hpb. pose proof (backed_deposit _ _ _ Hb b Hpb) as Hd. specialize (Hr b Hpb). rewrite Hs, pending_cons in *.
    change (co_contract (use k c)) with a. change (co_contract c) with a in Hd. rewrite Huse, Hadd.
    change (co_refunded (use k c)) with (co_refunded c).
    destruct (decide (b = a)) as [->|Hne]; [rewrite decide_True in * by done|rewrite decide_False in * by done]; lia.
  - intros b. pose proof (backed_slots _ _ _ Hb b) as Hb1. specialize (Hsl b). rewrite Hs, Hadd.
    destruct (decide (b = a)) as [->|]; lia.
  - exact Hz.
  - intros b. rewrite Hs, Hadd. specialize (Hroom b). destruct (decide (b = a)) as [->|]; lia.
  - intros d Hd. apply elem_of_cons in Hd as [->|Hd].
    + rewrite Huse. cbn [co_refunded use]. lia.
    + destruct (backed_used _ _ _ Hb d ltac:(by right)). lia.
Qed.
(** Bytes that one step gives back *)
Lemma backed_shrink c l n k s s' : backed (c :: l) (S n) s -> 0 <= k ->
  let a := co_contract c in
  (forall b, storage_size b s' = if decide (b = a) then storage_size a s - k else storage_size b s) ->
  (forall b, slot_bytes b s' <= storage_size b s') ->
  (forall b j w, slots b s' !! j = Some w -> w <> 0) ->
  (forall b, program b -> reserve (acct b) (chain s) <= reserve (acct b) (chain s')) ->
  backed (give_back k c :: l) n s'.
Proof.
  intros Hb Hk a Hs Hsl Hz Hr. pose proof most_bytes_bounds as [Hmb _].
  pose proof deposit_price as [Hp _].
  destruct (backed_used _ _ _ Hb c ltac:(left)) as (Hu0 & Hu & Hr0).
  assert (Hg : co_refunded (give_back k c) <= co_refunded c + k /\ 0 <= co_refunded (give_back k c)).
  { cbn. unfold U32.saturating_add, U32_MAX. lia. }
  constructor.
  - intros b Hpb. pose proof (backed_deposit _ _ _ Hb b Hpb) as Hd. specialize (Hr b Hpb). rewrite Hs, pending_cons in *.
    change (co_contract (give_back k c)) with a. change (co_contract c) with a in Hd.
    change (co_used (give_back k c)) with (co_used c).
    destruct (decide (b = a)) as [->|Hne]; [rewrite decide_True in * by done|rewrite decide_False in * by done]; nia.
  - exact Hsl.
  - exact Hz.
  - intros b. pose proof (backed_room _ _ _ Hb b). rewrite Hs. destruct (decide (b = a)) as [->|]; lia.
  - intros d Hd. apply elem_of_cons in Hd as [->|Hd].
    + change (co_used (give_back k c)) with (co_used c). lia.
    + destruct (backed_used _ _ _ Hb d ltac:(by right)). lia.
Qed.

Lemma size_after_store a k i v s b : storage_size b (update_contract_storage_size a k (store_slot a i v s)) =
  if decide (b = a) then
    (if k =? 0 then storage_size a s
     else if 0 <? k then U32.saturating_add (storage_size a s) k else U32.saturating_sub (storage_size a s) (- k))
  else storage_size b s.
Proof. by rewrite update_size_spec. Qed.
Lemma slots_after_size a k s b : slots b (update_contract_storage_size a k s) = slots b s.
Proof. unfold slots. by rewrite (proj1 (proj2 (update_size_other a k s))). Qed.

Lemma backed_added c l n i v s : backed (c :: l) (S n) s ->
  account_storages (co_contract c) i s = 0 -> v <> 0 ->
  backed (use STORAGE_SIZE c :: l) n
    (update_contract_storage_size (co_contract c) STORAGE_SIZE (store_slot (co_contract c) i v s)).
Proof.
  intros Hb Hi Hv. set (a := co_contract c) in *. apply (stored_zero _ _ _ _ _ Hb) in Hi.
  apply (backed_grow c l n STORAGE_SIZE s); [done|unfold STORAGE_SIZE; pose proof most_bytes_bounds; lia|..].
  - intros b. by rewrite size_after_store.
  - intros b. unfold slot_bytes. rewrite slots_after_size, slots_store. fold a.
    destruct (decide (b = a)) as [->|]; [|lia]. destruct (Z.eqb_spec v 0) as [|_]; [done|].
    rewrite map_size_insert_None by done. unfold STORAGE_SIZE. lia.
  - intros b j w. rewrite slots_after_size. by apply stored_after, (backed_stored _ _ _ Hb).
  - intros b _. by rewrite (proj2 (proj2 (proj2 (proj2 (update_size_other a STORAGE_SIZE _))))).
Qed.

Lemma backed_removed c l n i s : backed (c :: l) (S n) s ->
  account_storages (co_contract c) i s <> 0 ->
  backed (give_back STORAGE_SIZE c :: l) n
    (update_contract_storage_size (co_contract c) (- STORAGE_SIZE) (store_slot (co_contract c) i 0 s)).
Proof.
  intros Hb Hi. set (a := co_contract c) in *.
  assert (Hsome : exists v, slots a s !! i = Some v).
  { destruct (slots a s !! i) as [v|] eqn:Hv; [by exists v|]. by apply (stored_zero _ _ _ _ _ Hb) in Hv. }
  destruct Hsome as [v Hv].
  assert (Hdel : slot_bytes a s = slot_bytes a (store_slot a i 0 s) + STORAGE_SIZE).
  { unfold slot_bytes. rewrite slots_store, decide_True by done. cbn [Z.eqb].
    rewrite map_size_delete_Some by done. pose proof (map_size_ne_0_lookup_2 _ _ (ex_intro _ v Hv)).
    unfold STORAGE_SIZE. lia. }
  pose proof (backed_slots _ _ _ Hb a) as Hsl. pose proof (slot_bytes_nonneg a (store_slot a i 0 s)) as Hpos.
  apply (backed_shrink c l n STORAGE_SIZE s); [done|done|..].
  - intros b. rewrite size_after_store. fold a. destruct (decide (b = a)); [|done].
    change (- STORAGE_SIZE =? 0) with false. change (0 <? - STORAGE_SIZE) with false.
    change (- - STORAGE_SIZE) with STORAGE_SIZE. unfold U32.saturating_sub. lia.
  - intros b. rewrite size_after_store. unfold slot_bytes in *. rewrite slots_after_size. fold a.
    destruct (decide (b = a)) as [->|Hne].
    + change (- STORAGE_SIZE =? 0) with false. change (0 <? - STORAGE_SIZE) with false.
      change (- - STORAGE_SIZE) with STORAGE_SIZE. unfold U32.saturating_sub. lia.
    + rewrite slots_store, decide_False by done. apply (backed_slots _ _ _ Hb b).
  - intros b j w. rewrite slots_after_size. by apply stored_after, (backed_stored _ _ _ Hb).
  - intros b _. by rewrite (proj2 (proj2 (proj2 (proj2 (update_size_other a (- STORAGE_SIZE) _))))).
Qed.

Lemma backed_delete c l n dest size s s' : backed (c :: l) (S n) s ->
  remove_contract (co_contract c) dest s = (Ok size, s') -> backed (give_back size c :: l) n s'.
Proof.
  intros Hb (-> & Hs & Hst & Hr)%remove_contract_storage. set (a := co_contract c) in *.
  assert (Hsize : forall b, storage_size b s' = if decide (b = a) then 0 else storage_size b s).
  { intros b. unfold storage_size. rewrite Hs.
    destruct (decide (b = a)) as [->|]; [by rewrite lookup_delete_eq|by rewrite lookup_delete_ne]. }
  assert (Hslots : forall b, slots b s' = if decide (b = a) then ∅ else slots b s).
  { intros b. unfold slots. rewrite Hst.
    destruct (decide (b = a)) as [->|]; [by rewrite lookup_delete_eq|by rewrite lookup_delete_ne]. }
  apply (backed_shrink c l n (storage_size a s) s); [done|by apply (backed_size_nonneg _ _ _ a Hb)|..].
  - intros b. rewrite Hsize. fold a. destruct (decide (b = a)); lia.
  - intros b. unfold slot_bytes. rewrite Hsize, Hslots. destruct (decide (b = a)); [done|apply (backed_slots _ _ _ Hb b)].
  - intros b j w. rewrite Hslots. destruct (decide (b = a)); [done|apply (backed_stored _ _ _ Hb)].
  - intros b _. by rewrite Hr.
Qed.

Lemma backed_init c l n maintainer code s s' : backed (c :: l) (S n) s ->
  on_contract_initialization (co_contract c) maintainer code s = (Ok tt, s') ->
  backed (use (U32.saturating_add (len code mod 2 ^ 32) NewContractExtraBytes) c :: l) n s'.
Proof.
  intros Hb [Hlen ->]%on_contract_initialization_Ok. set (a := co_contract c) in *.
  destruct extra_bytes as (He & Hm & Hem). pose proof (Nat2Z.is_nonneg (length code)) as Hl. fold (len code) in Hl.
  pose proof most_bytes_bounds as [_ Hmb].
  assert (Hk : U32.saturating_add (len code mod 2 ^ 32) NewContractExtraBytes = len code + NewContractExtraBytes).
  { rewrite Z.mod_small by lia. unfold U32.saturating_add, U32_MAX. lia. }
  assert (Hk' : U32.saturating_add (len code) NewContractExtraBytes = len code + NewContractExtraBytes).
  { unfold U32.saturating_add, U32_MAX. lia. }
  assert (Hi : as_i32 (len code + NewContractExtraBytes) = len code + NewContractExtraBytes).
  { unfold as_i32. rewrite (proj2 (Z.ltb_lt _ _)) by lia. done. }
  rewrite Hk, Hk', Hi. set (k := len code + NewContractExtraBytes) in *.
  assert (Hkb : 0 <= k <= most_bytes) by (subst k; lia). clearbody k.
  destruct (ref_code_other (keccak256 code) code (update_contract_storage_size a k s)) as (_ & Hst & Hsz & _).
  assert (Hslots : forall b x y, slots b (set_chain x (set_accounts y (ref_code (keccak256 code) code
    (update_contract_storage_size a k s)))) = slots b s).
  { intros b x y. unfold slots. cbn [AccountStorages set_chain set_accounts]. rewrite Hst. apply slots_after_size. }
  apply (backed_grow c l n k s); [done|done|..].
  - intros b. unfold storage_size at 1. cbn [ContractStorageSizes set_chain set_accounts]. rewrite Hsz.
    fold (storage_size b (update_contract_storage_size a k s)). rewrite update_size_spec. fold a.
    destruct (decide (b = a)); [|done]. destruct (Z.eqb_spec k 0) as [->|]; [|by destruct (Z.ltb_spec 0 k); [|lia]].
    unfold U32.saturating_add. pose proof (backed_room _ _ _ Hb a). pose proof most_bytes_bounds. nia.
  - intros b. unfold slot_bytes at 1. rewrite Hslots. fold (slot_bytes b s). fold a. destruct (decide (b = a)); lia.
  - intros b j w. rewrite Hslots. apply (backed_stored _ _ _ Hb).
  - intros b _. cbn [chain set_chain]. by rewrite (proj1 (inc_providers_law _ _ _)).
Qed.

#[export] Instance backed_moves : MovesInvariant (fun _ => True) backed.
Proof.
  intros l n s l' n' s' Hop Hb. inversion Hop; subst.
  - by apply backed_step.
  - destruct Hb as [Hd Hsl Hz Hr Hu]. constructor; [|done..|].
    + intros b Hb. rewrite pending_cons. cbn. specialize (Hd b Hb). case_decide; lia.
    + intros c [->|Hc]%elem_of_cons; [|by apply Hu]. cbn. specialize (Hr 0%N).
      pose proof (Hsl 0%N). pose proof (slot_bytes_nonneg 0%N s'). lia.
  - by eapply backed_close.
  - by eapply backed_reserve.
  - by eapply backed_unreserve.
  - destruct (reap_after killed c s) as [Hs Hr]. apply (backed_same _ _ s); [exact Hs| |done].
    intros a _. destruct (Hr (acct a)) as [-> _]. by match goal with Hc : same_reserves _ c |- _ => destruct (Hc (acct a)) as [-> _] end.
  - by apply (backed_same _ _ s).
  - by apply (backed_same _ _ s).
  - by apply (backed_same _ _ s).
  - match goal with Hm : rent_transfer_maintainer _ _ _ _ = _ |- _ =>
      apply rent_transfer_maintainer_Ok in Hm as (acc & info & _ & _ & ->) end.
    by apply (backed_same _ _ s).
  - by apply backed_store.
  - by apply backed_added.
  - by apply backed_removed.
  - by eapply backed_delete.
  - by eapply backed_init.
Qed.
End Backing.
