(* ===== verification/EvmHistories.v ===== *)
(** * Histories of the EVM pallet

    What any sequence of extrinsics, of calls by other pallets and of changes of
    the chain around the pallet keeps. *)
From S2P Require Import Prelude Primitives Runtime Bytes EvmBridge EvmManager EvmAccounts StorageMeter Evm EvmRunner EvmFrames EvmMoves EvmSpecs.

(** ** The extrinsics as data *)
Inductive Extrinsic :=
  | XCall (target : EvmAddress) (input : bytes) (value : Balance) (gas_limit storage_limit : Z)
  | XScheduledCall (from target : EvmAddress) (input : bytes) (value : Balance) (gas_limit storage_limit : Z)
  | XCreate (init : bytes) (value : Balance) (gas_limit storage_limit : Z)
  | XCreate2 (init : bytes) (salt : H256) (value : Balance) (gas_limit storage_limit : Z)
  | XCreateNetworkContract (init : bytes) (value : Balance) (gas_limit storage_limit : Z)
  | XTransferMaintainer (contract new_maintainer : EvmAddress)
  | XDeploy (contract : EvmAddress)
  | XDeployFree (contract : EvmAddress)
  | XEnableContractDevelopment
  | XDisableContractDevelopment
  | XSetCode (contract : EvmAddress) (code : bytes)
  | XSelfdestruct (contract : EvmAddress).

Section Dispatch.
Context `{EvmMachine} (n : nat).

Definition void {A} (m : M DispatchError EvmState A) : M DispatchError EvmState unit := m;; mret tt.
Definition dispatch (origin : Origin) (x : Extrinsic) : M DispatchError EvmState unit :=
  match x with
  | XCall t i v g l => void (evm_call n origin t i v g l)
  | XScheduledCall f t i v g l => void (scheduled_call n origin f t i v g l)
  | XCreate i v g l => void (evm_create n origin i v g l)
  | XCreate2 i s v g l => void (evm_create2 n origin i s v g l)
  | XCreateNetworkContract i v g l => void (create_network_contract n origin i v g l)
  | XTransferMaintainer c m => transfer_maintainer origin c m
  | XDeploy c => deploy origin c
  | XDeployFree c => deploy_free origin c
  | XEnableContractDevelopment => enable_contract_development origin
  | XDisableContractDevelopment => disable_contract_development origin
  | XSetCode c code => set_code n origin c code
  | XSelfdestruct c => selfdestruct origin c
  end.
End Dispatch.

Section Keeps.
Context {E S : Type}.
(** A failed call that is undone leaves the state it started from. *)
Lemma wlp_transactional {A} (m : M E S A) (Q : S -> Prop) s :
  Q s -> wlp m (fun _ => Q) (fun _ _ => True) s -> wlp (transactional m) (fun _ => Q) (fun _ => Q) s.
Proof. unfold wlp, transactional. destruct (m s) as [[a|e|] t]; done. Qed.
Lemma wlp_weaken {A} (m : M E S A) (Q : A -> S -> Prop) (R : E -> S -> Prop) s :
  wlp m Q R s -> wlp m Q (fun _ _ => True) s.
Proof. intros Hm. by eapply wlp_mono. Qed.
Lemma wlp_ok_or {A} (o : option A) (e : E) (Q : A -> S -> Prop) (R : E -> S -> Prop) s :
  (forall a, o = Some a -> Q a s) -> (o = None -> R e s) -> wlp (ok_or o e) Q R s.
Proof. destruct o; cbn; auto. Qed.
Lemma wlp_ensure b (e : E) (Q : unit -> S -> Prop) (R : E -> S -> Prop) s :
  (b = true -> Q tt s) -> (b = false -> R e s) -> wlp (ensure b e) Q R s.
Proof. destruct b; cbn; auto. Qed.
Lemma wlp_signed {S'} o (Q : AccountId -> S' -> Prop) (R : DispatchError -> S' -> Prop) s :
  (forall who, o = Signed who -> Q who s) -> R BadOrigin s -> wlp (ensure_signed o) Q R s.
Proof. destruct o; cbn; auto. Qed.
Lemma wlp_elim {A} (m : M E S A) (I : S -> Prop) s r s' :
  wlp m (fun _ => I) (fun _ => I) s -> m s = (r, s') -> r <> Panic -> I s'.
Proof. unfold wlp. intros Hm Heq Hr. rewrite Heq in Hm. by destruct r. Qed.
End Keeps.

(** ** Histories

    [allowed] are the extrinsics a history may have, [ready] the states a
    transaction may start in, [around] what others may do to the chain. *)
Section Steps.
Context `{EvmMachine} {Laws : EvmChainLaws} (n : nat).

(** A signer holds the key of an account, so it is no program. *)
Definition signs (o : Origin) : Prop := forall who, o = Signed who -> forall a, program a -> who <> acct a.
Definition from_user (x : Extrinsic) : Prop :=
  match x with XScheduledCall from _ _ _ _ _ => ~ program from | _ => True end.

Context (allowed : Extrinsic -> Prop) (ready : EvmState -> Prop) (around : Chain -> Chain -> Prop).
Inductive evm_step (s : EvmState) : EvmState -> Prop :=
  | step_extrinsic o x r s' : signs o -> from_user x -> allowed x -> ready s ->
      dispatch n o x s = (r, s') -> r <> Panic -> evm_step s s'
  | step_execute context i v g l mode r s' : ~ program (ic_origin context) -> ready s ->
      evm_trait_execute n context i v g l mode s = (r, s') -> r <> Panic -> evm_step s s'
  | step_rent who c m r s' : rent_transfer_maintainer who c m s = (r, s') -> r <> Panic -> evm_step s s'
  | step_killed who : evm_step s (on_killed_account who s)
  | step_origin o : evm_step s (set_extrinsic_origin o s)
  | step_chain c : around (chain s) c -> evm_step s (set_chain c s).
End Steps.


(** ** What a property needs to hold over histories

    [installs] are the addresses contracts may be created at. *)
Class HistoryInvariant `{EvmMachine} {Laws : EvmChainLaws} (n : nat) (installs : EvmAddress -> Prop)
    (allowed : Extrinsic -> Prop) (ready : EvmState -> Prop) (I : EvmState -> Prop) : Prop := {
  hist_ready s c : ready s -> ready (set_chain c s);
  hist_call sender origin target input value g l config s : ~ program origin -> ready s -> I s ->
    wlp (runner_call n sender origin target input value g l config) (fun _ => I) (fun _ => I) s;
  hist_create source init value g l assigned salt config s : ~ program source ->
    (forall a, assigned = Some a -> installs a) -> ready s -> I s ->
    wlp (inner_create n source init value g l assigned salt config) (fun _ => I) (fun _ => I) s;
  hist_network s : ready s -> installs (from_low_u64_be (NetworkContractIndex s));
  hist_event e s : I s -> I (evm_deposit_event e s);
  hist_index x s : I s -> I (set_network_index x s);
  hist_origin o s : I s -> I (set_extrinsic_origin o s);
  hist_chain c s : same_reserves (chain s) c -> I s -> I (set_chain c s);
  hist_killed who s : I s -> I (on_killed_account who s);
  hist_account a acc info m d s : Accounts s !! a = Some acc -> contract_info acc = Some info -> I s ->
    I (set_accounts (<[a := mkAccountInfo (nonce acc) (Some (mkContractInfo (code_hash info) m d))]> (Accounts s)) s);
  hist_set_code a code : allowed (XSetCode a code) ->
    installs a /\ forall v s, I s -> I (set_accounts (partial_alter (fun _ => v) a (Accounts s)) s);
  hist_selfdestruct who e a s : I s -> wlp (do_selfdestruct who e a) (fun _ => I) (fun _ _ => True) s }.

Section Histories.
Context `{EvmMachine} {Laws : EvmChainLaws} (n : nat) (installs : EvmAddress -> Prop).
Context (allowed : Extrinsic -> Prop) (ready : EvmState -> Prop) (I : EvmState -> Prop).
Context {Hist : HistoryInvariant n installs allowed ready I}.

Lemma signer_address o who s : signs o -> o = Signed who ->
  ~ program (get_or_create_evm_address who (chain s)).1.
Proof.
  intros Ho -> Hp. destruct (create_address_law who (chain s)) as [_ [Heq|Heq]].
  - by apply (Ho who eq_refl _ Hp), (address_account who (chain s)).
  - rewrite Heq in Hp. by apply default_not_program in Hp.
Qed.
Lemma signer_evm_address o who s e : signs o -> o = Signed who -> get_evm_address who (chain s) = Some e -> ~ program e.
Proof. intros Ho -> He Hp. by apply (Ho who eq_refl _ Hp), (address_account who (chain s)). Qed.

(** *** The address of who signs *)
Lemma keeps_signer o {A} (k : AccountId -> EvmAddress -> M DispatchError EvmState A) s :
  signs o -> I s -> ready s ->
  (forall who e t, ~ program e -> I t -> ready t -> wlp (k who e) (fun _ => I) (fun _ => I) t) ->
  wlp (who ← ensure_signed o; source ← evm_address_of_signer who; k who source) (fun _ => I) (fun _ => I) s.
Proof.
  intros Ho Hb Hr Hk. apply wlp_bind. destruct o as [|who|]; cbn [ensure_signed]; [by apply wlp_throw| |by apply wlp_throw].
  apply wlp_ret, wlp_bind. unfold evm_address_of_signer, wlp at 1.
  pose proof (signer_address _ who s Ho eq_refl) as He. pose proof (create_address_law who (chain s)) as [Hs _].
  destruct (get_or_create_evm_address who (chain s)) as [e c]. cbn [fst snd] in *.
  apply (Hk who); [done|by eapply hist_chain|by eapply hist_ready].
Qed.
Lemma keeps_void {A} (m : M DispatchError EvmState A) s :
  wlp m (fun _ => I) (fun _ => I) s -> wlp (void m) (fun _ => I) (fun _ => I) s.
Proof. intros Hm. apply wlp_bind. eapply wlp_mono; [exact Hm| |done]. intros a t Ht. exact Ht. Qed.
(** A call that ends with an event and a value *)
Lemma keeps_then_event {A B} (m : M DispatchError EvmState A) (e : A -> EvmEvent.t) (b : A -> B)
    (R : DispatchError -> EvmState -> Prop) s :
  wlp m (fun _ => I) R s ->
  wlp (a ← m; modify (evm_deposit_event (e a));; mret (b a)) (fun _ => I) R s.
Proof.
  intros Hm. apply wlp_bind. eapply wlp_mono; [exact Hm| |done]. intros a t Ht.
  apply wlp_bind, wlp_modify, wlp_ret. by eapply hist_event.
Qed.
Lemma keeps_event {A} (m : M DispatchError EvmState A) e (R : DispatchError -> EvmState -> Prop) s :
  wlp m (fun _ => I) R s -> wlp (m;; modify (evm_deposit_event e)) (fun _ => I) R s.
Proof.
  intros Hm. apply wlp_bind. eapply wlp_mono; [exact Hm| |done]. intros a t Ht.
  apply wlp_modify. by eapply hist_event.
Qed.

(** *** The extrinsics that run code *)
Lemma keeps_evm_call o t i v g l s : signs o -> I s -> ready s ->
  wlp (evm_call n o t i v g l) (fun _ => I) (fun _ => I) s.
Proof.
  intros Ho Hb Hr. apply keeps_signer; [done..|]. intros who e u He Hu Hru.
  eapply keeps_then_event. by eapply hist_call.
Qed.
Lemma keeps_evm_create o i v g l s : signs o -> I s -> ready s ->
  wlp (evm_create n o i v g l) (fun _ => I) (fun _ => I) s.
Proof.
  intros Ho Hb Hr. apply keeps_signer; [done..|]. intros who e u He Hu Hru.
  eapply keeps_then_event. by eapply hist_create.
Qed.
Lemma keeps_evm_create2 o i salt v g l s : signs o -> I s -> ready s ->
  wlp (evm_create2 n o i salt v g l) (fun _ => I) (fun _ => I) s.
Proof.
  intros Ho Hb Hr. apply keeps_signer; [done..|]. intros who e u He Hu Hru.
  eapply keeps_then_event. by eapply hist_create.
Qed.
Lemma keeps_network o i v g l s : I s -> ready s ->
  wlp (create_network_contract n o i v g l) (fun _ => I) (fun _ => I) s.
Proof.
  intros Hb Hr. apply wlp_bind. unfold ensure_origin. apply wlp_ensure; intros _; [|done].
  apply wlp_bind, wlp_gets, wlp_bind.
  eapply wlp_mono; [eapply hist_create; [apply network_source_not_program| |exact Hr|exact Hb]| |done].
  { intros a [= <-]. by apply hist_network. }
  intros info w Hw. apply wlp_bind, wlp_modify, wlp_bind, wlp_modify, wlp_ret.
  eapply hist_event. by eapply hist_index.
Qed.
Lemma keeps_scheduled o f t i v g l s : ~ program f -> I s -> ready s ->
  wlp (scheduled_call n o f t i v g l) (fun _ => I) (fun _ => I) s.
Proof.
  intros Hf Hb Hr. apply wlp_transactional; [done|]. apply wlp_bind. destruct o; [|by apply wlp_throw..].
  apply wlp_ret, wlp_bind, wlp_gets, wlp_bind.
  assert (Hp : wlp (if with_ethereum_compatibility then mret None
      else fun s' => match c_unreserve_and_charge_fee (account_of f s) (GasToWeight g) (chain s') with
        | Some (imbalance, c) => (Ok (Some imbalance), set_chain c s')
        | None => (Err (EvmE EvmError.ChargeFeeFailed), s')
        end) (fun _ t => I t /\ ready t) (fun _ _ => True) s).
  { destruct with_ethereum_compatibility; [done|]. unfold wlp.
    destruct (c_unreserve_and_charge_fee _ _ _) as [[im c]|] eqn:Hc; [|done].
    split; [|by eapply hist_ready]. eapply hist_chain; [|done]. by eapply charge_fee_law. }
  eapply wlp_mono; [exact Hp| |done]. intros payed u [Hu Hru].
  apply wlp_bind. eapply wlp_mono; [by eapply hist_call| |done]. intros info w Hw.
  apply wlp_bind, wlp_modify, wlp_bind. cbv zeta. apply (hist_event (call_event t info)) in Hw.
  eapply (wlp_mono _ (fun _ => I) _ (fun _ _ => True)); [|intros [] w' Hw'; exact Hw'|done].
  destruct payed as [im|]; [|done]. destruct (_ =? 0); [done|]. apply wlp_modify. eapply hist_chain; [|done].
  apply refund_fee_law.
Qed.

(** *** Replacing the code of a contract *)
Lemma keeps_mutate {A} a (f : option AccountInfo -> M DispatchError EvmState A) s :
  (forall v s, I s -> I (set_accounts (partial_alter (fun _ => v) a (Accounts s)) s)) ->
  (forall v, wlp (f v) (fun _ => I) (fun _ => I) s) -> wlp (accounts_mutate a f) (fun _ => I) (fun _ => I) s.
Proof.
  intros Hback Hf. specialize (Hf (Accounts s !! a)). unfold wlp, accounts_mutate in *.
  destruct (f _ s) as [[x|e|] t]; cbn [fst snd]; [by apply Hback..|done].
Qed.
Lemma keeps_set_code o contract code s : signs o -> allowed (XSetCode contract code) -> I s -> ready s ->
  wlp (set_code n o contract code) (fun _ => I) (fun _ => I) s.
Proof.
  intros Ho [Hin Hback]%hist_set_code Hb Hr. apply wlp_transactional; [done|]. apply wlp_bind.
  assert (Hset : forall who, (forall w e, who = inr w -> get_evm_address w (chain s) = Some e -> ~ program e) ->
    wlp (do_set_code n who contract code) (fun _ => I) (fun _ => I) s).
  { intros who Hwho. apply keeps_mutate; [exact Hback|]. intros v.
    apply wlp_bind, wlp_ok_or; [intros acc Hv|done].
    apply wlp_bind, wlp_ok_or; [intros info Hi|done]. apply wlp_bind.
    eapply (wlp_mono _ (fun e t => t = s /\ ~ program e) _ (fun _ => I)); [|intros e t [-> He]|done].
    { destruct who as [[]|w]; [by apply wlp_ret; split; [|apply network_source_not_program]|].
      apply wlp_bind, wlp_gets, wlp_bind, wlp_ok_or; [intros e He|done].
      apply wlp_bind, wlp_ensure; [intros _|done]. apply wlp_bind, wlp_ensure; [intros _|done].
      apply wlp_ret. split; [done|]. by eapply Hwho. }
    case_match; [by apply wlp_ret|]. apply wlp_bind, wlp_ensure; [intros _|done].
    apply wlp_bind. eapply wlp_mono; [eapply hist_create; [done| |done|done]|done|done].
    by intros a [= <-]. }
  destruct o as [|who|]; cbn [ensure_root_or_signed]; [| |by apply wlp_throw]; apply wlp_ret;
    apply keeps_event; (eapply wlp_weaken, Hset); [done|].
  intros w e [= <-] He. by eapply signer_evm_address.
Qed.

(** *** The extrinsics that run no code *)
Lemma keeps_reap killed : forall s, I s -> I (reap killed s).
Proof.
  induction killed as [|who killed IH]; intros s Hs; [done|]. cbn [reap foldl].
  set (s1 := set_chain _ _). fold (reap killed s1). apply IH. subst s1.
  eapply hist_chain; [apply on_killed_law|]. by eapply hist_killed.
Qed.
Lemma keeps_reaping f s : I s -> (forall c c' killed, f c = inl (c', killed) -> same_reserves c c') ->
  wlp (on_chain_reaping f) (fun _ => I) (fun _ _ => True) s.
Proof.
  intros Hb Hf. apply wlp_run; [|done]. intros [] t (c & killed & Hc & ->)%reaping_Ok.
  apply keeps_reap. eapply hist_chain; [by eapply Hf|done].
Qed.
Lemma keeps_on_chain f s : I s -> (forall c c', f c = inl c' -> same_reserves c c') ->
  wlp (on_chain f) (fun _ => I) (fun _ _ => True) s.
Proof.
  intros Hb Hf. apply wlp_run; [|done]. intros [] t (c & Hc & ->)%on_chain_Ok.
  eapply hist_chain; [by eapply Hf|done].
Qed.
Lemma keeps_mark_deployed contract who s : I s ->
  wlp (mark_deployed contract who) (fun _ => I) (fun _ _ => True) s.
Proof.
  intros Hb. apply wlp_bind, wlp_gets, wlp_bind, wlp_ok_or; [intros acc Hacc|done].
  apply wlp_bind, wlp_ok_or; [intros info Hi|done]. apply wlp_bind, wlp_ensure; [intros _|done].
  apply wlp_bind, wlp_ensure; [intros _|done]. apply wlp_modify. by eapply hist_account.
Qed.
Lemma keeps_transfer_maintainer who contract m s : I s ->
  wlp (do_transfer_maintainer who contract m) (fun _ => I) (fun _ => I) s.
Proof.
  intros Hb. apply wlp_bind, wlp_gets, wlp_bind, wlp_ok_or; [intros acc Hacc|done].
  apply wlp_bind, wlp_ok_or; [intros info Hi|done]. apply wlp_bind, wlp_gets, wlp_bind, wlp_ok_or; [intros e _|done].
  apply wlp_bind, wlp_ensure; [intros _|done]. apply wlp_modify. by eapply hist_account.
Qed.

Lemma keeps_dispatch o x s : signs o -> from_user x -> allowed x -> I s -> ready s ->
  wlp (dispatch n o x) (fun _ => I) (fun _ => I) s.
Proof.
  intros Ho Hx Ha Hb Hr. destruct x; cbn [dispatch from_user] in *.
  - by apply keeps_void, keeps_evm_call.
  - by apply keeps_void, keeps_scheduled.
  - by apply keeps_void, keeps_evm_create.
  - by apply keeps_void, keeps_evm_create2.
  - by apply keeps_void, keeps_network.
  - apply wlp_transactional; [done|]. apply wlp_bind, wlp_signed; [intros who _|done].
    apply keeps_event. by eapply wlp_weaken, keeps_transfer_maintainer.
  - apply wlp_transactional; [done|]. apply wlp_bind, wlp_signed; [intros who _|done].
    apply wlp_bind, wlp_gets, wlp_bind, wlp_ok_or; [intros e _|done]. apply wlp_bind.
    eapply wlp_mono; [apply keeps_reaping; [done|]| |done].
    { intros c c' killed Hc. by apply transfer_law in Hc as [? _]. }
    intros [] t Ht. by apply keeps_event, keeps_mark_deployed.
  - apply wlp_transactional; [done|]. apply wlp_bind, wlp_ensure; [intros _|done].
    by apply keeps_event, keeps_mark_deployed.
  - apply wlp_transactional; [done|]. apply wlp_bind, wlp_signed; [intros who _|done].
    apply wlp_bind, wlp_gets, wlp_bind, wlp_ensure; [intros _|done].
    apply keeps_event, keeps_on_chain; [done|]. intros c c' Hc. by eapply developer_reserve_law.
  - apply wlp_transactional; [done|]. apply wlp_bind, wlp_signed; [intros who _|done].
    apply wlp_bind, wlp_gets, wlp_bind, wlp_ensure; [intros _|done].
    apply keeps_event, keeps_on_chain; [done|]. intros c c' [= <-]. apply developer_unreserve_law.
  - by apply keeps_set_code.
  - apply wlp_transactional; [done|]. apply wlp_bind, wlp_signed; [intros who _|done].
    apply wlp_bind, wlp_gets, wlp_bind, wlp_ok_or; [intros e _|done].
    by apply keeps_event, hist_selfdestruct.
Qed.

Lemma keeps_execute context i v g l mode s : ~ program (ic_origin context) -> I s -> ready s ->
  wlp (evm_trait_execute n context i v g l mode) (fun _ => I) (fun _ => I) s.
Proof.
  intros Ho Hb Hr. unfold evm_trait_execute, wlp. cbv zeta. set (config := match mode with EstimateGas => _ | _ => _ end).
  pose proof (hist_call (ic_sender context) (ic_origin context) (ic_contract context) i v g l config s Ho Hr Hb) as Hc.
  unfold wlp in Hc.
  destruct (runner_call n _ _ _ _ _ _ _ _ s) as [[info|e|] t]; [|done|done].
  destruct mode; [|done|done]. destruct (is_succeed _); [by eapply hist_event|done].
Qed.

Lemma keeps_step around s s' : (forall c, around (chain s) c -> I s -> I (set_chain c s)) ->
  evm_step n allowed ready around s s' -> I s -> I s'.
Proof.
  intros Haround [o x r u Ho Hx Hal Hr Hd Hp|context i v g l mode r u Ho Hr Hd Hp|who c m r u Hd Hp|who|o|c Hc] Hb.
  - eapply wlp_elim; [by apply (keeps_dispatch o x)|exact Hd|exact Hp].
  - eapply wlp_elim; [by apply (keeps_execute context i v g l mode)|exact Hd|exact Hp].
  - eapply wlp_elim; [by apply (keeps_transfer_maintainer who c m)|exact Hd|exact Hp].
  - by eapply hist_killed.
  - by eapply hist_origin.
  - by apply Haround.
Qed.
Lemma keeps_history around s s' : (forall s c, around (chain s) c -> I s -> I (set_chain c s)) ->
  rtc (evm_step n allowed ready around) s s' -> I s -> I s'.
Proof.
  intros Haround Hs. induction Hs as [|x y z Hxy _ IH]; [done|]. intros Hb.
  apply IH. by eapply keeps_step; [intros c; apply Haround|exact Hxy|].
Qed.
End Histories.

(** ** Deposits over histories *)
Section Backed.
Context `{EvmMachine} {Own : OwnFrames} {Laws : EvmChainLaws} {Pre : PrecompileLaws} (n : nat).
Abbreviation B := (backed [] 0).

Definition any_extrinsic (x : Extrinsic) : Prop := True.
Definition any_address (a : EvmAddress) : Prop := True.
Definition reserves_kept (c c' : Chain) : Prop := forall a, program a -> reserve (acct a) c <= reserve (acct a) c'.
(** Room for the steps of one transaction, and for those of the contracts that
    precompiled contracts run *)
Definition roomy (s : EvmState) : Prop :=
  forall a, storage_size a s + most_bytes * Z.of_nat (n * S precompile_steps) <= U32_MAX.

Lemma backed_roomy s : B s -> roomy s -> in_steps precompile_steps backed [] n s.
Proof. intros [Hd Hs Hz _ Hu] Hr. constructor; [done..|]. intros c Hc. by apply not_elem_of_nil in Hc. Qed.
Lemma backed_chain l k s c : backed l k s -> reserves_kept (chain s) c -> backed l k (set_chain c s).
Proof. intros Hb Hr. by apply (backed_same _ _ s). Qed.

Lemma backed_remove contract dest s size s' : B s ->
  remove_contract contract dest s = (Ok size, s') ->
  B s' /\ storage_size contract s' = 0 /\ forall who, reserve who (chain s') = reserve who (chain s).
Proof.
  intros [Hd Hsl Hz Hr Hu] (-> & Hs & Hst & Hres)%remove_contract_storage.
  assert (Hsize : forall b, storage_size b s' = if decide (b = contract) then 0 else storage_size b s).
  { intros b. unfold storage_size. rewrite Hs.
    destruct (decide (b = contract)) as [->|]; [by rewrite lookup_delete_eq|by rewrite lookup_delete_ne]. }
  assert (Hslots : forall b, slots b s' = if decide (b = contract) then ∅ else slots b s).
  { intros b. unfold slots. rewrite Hst.
    destruct (decide (b = contract)) as [->|]; [by rewrite lookup_delete_eq|by rewrite lookup_delete_ne]. }
  split; [|split; [by rewrite Hsize, decide_True|done]]. constructor; [..|exact Hu].
  - intros b Hb. rewrite Hsize, Hres. specialize (Hd b Hb). pose proof (reserve_nonneg (acct b) (chain s)).
    destruct (decide (b = contract)); cbn in *; lia.
  - intros b. unfold slot_bytes. rewrite Hsize, Hslots. destruct (decide (b = contract)); [done|apply Hsl].
  - intros b j w. rewrite Hslots. destruct (decide (b = contract)); [done|apply Hz].
  - intros b. rewrite Hsize. specialize (Hr b). destruct (decide (b = contract)); unfold U32_MAX in *; lia.
Qed.

Lemma backed_selfdestruct who e contract s : B s ->
  wlp (do_selfdestruct who e contract) (fun _ => B) (fun _ _ => True) s.
Proof.
  intros Hb.
  unfold do_selfdestruct. apply wlp_bind, wlp_gets, wlp_bind, wlp_ok_or; [intros acc _|done].
  apply wlp_bind, wlp_ok_or; [intros info _|done]. apply wlp_bind, wlp_ensure; [intros _|done].
  apply wlp_bind, wlp_ensure; [intros _|done]. apply wlp_bind, wlp_run; [|done].
  intros size t (Hbt & Hz & Hres)%backed_remove; [|done].
  apply wlp_bind, wlp_gets, wlp_run; [|done]. intros [] u (c & Hcu & ->)%on_chain_Ok.
  destruct (c_repatriate_reserved_named _ _ _ _ _ _) as [[rest c2]|] eqn:Hrep; [|done]. injection Hcu as ->.
  destruct Hbt as [Hd Hsl Hst Hr Hu]. constructor; [|done..]. intros a Ha. cbn [chain set_chain].
  change (storage_size a (set_chain c t)) with (storage_size a t).
  destruct (repatriate_law _ _ _ _ _ _ _ Hrep (acct a)) as (Hother & _ & _).
  destruct (decide (a = contract)) as [->|Hne].
  - rewrite Hz. pose proof (reserve_nonneg (acct contract) c). cbn. lia.
  - specialize (Hd a Ha). assert (reserve (acct a) (chain t) <= reserve (acct a) c); [|lia].
    apply Hother. intros Heq. by apply (other_account contract a t).
Qed.

Lemma backed_frames origin : ~ program origin ->
  FrameInvariant any_address origin (in_steps precompile_steps backed).
Proof. apply (frames_of_moves any_address); [done|apply backed_moves]. Qed.

#[export] Instance backed_histories : HistoryInvariant n any_address any_extrinsic roomy B.
Proof.
  constructor; try done.
  - intros sender origin target input value g l config s Ho Hr Hs.
    apply (wlp_runner_call n config any_address (in_steps precompile_steps backed));
      [by apply backed_frames|by apply backed_roomy].
  - intros source init value g l assigned salt config s Ho _ Hr Hs.
    apply (wlp_inner_create n config any_address (in_steps precompile_steps backed));
      [by apply backed_frames|done|by apply backed_roomy].
  - intros e s Hs. by apply (backed_same _ _ s).
  - intros x s Hs. by apply (backed_same _ _ s).
  - intros o s Hs. by apply (backed_same _ _ s).
  - intros c s Hc Hs. apply backed_chain; [done|]. intros a _. by rewrite (proj1 (Hc (acct a))).
  - intros who s Hs. destruct (on_killed_storage who s) as [Hsame Hch]. apply (backed_same _ _ s); [exact Hsame| |done].
    intros a _. by rewrite Hch.
  - intros a acc info m d s _ _ Hs. by apply (backed_same _ _ s).
  - intros a code _. split; [done|]. intros v s Hs. by apply (backed_same _ _ s).
  - apply backed_selfdestruct.
Qed.

End Backed.
