(* ===== verification/EvmCodes.v ===== *)
(** * The code of contracts

    Code is stored once for all the contracts that have it, with a count of
    references.  The count never falls below the number of contracts, so the code
    of a contract is there. *)
From S2P Require Import Prelude Primitives Runtime Bytes EvmBridge EvmManager EvmAccounts StorageMeter Evm EvmRunner EvmFrames EvmMoves EvmSpecs EvmHistories.

Section Codes.
Context `{EvmMachine} {Own : OwnFrames} {Laws : EvmChainLaws} {Pre : PrecompileLaws}.

(** ** References *)
Definition has_code (h : H256) (info : AccountInfo) : Z :=
  match contract_info info with Some c => if code_hash c =? h then 1 else 0 | None => 0 end.
(** The contracts with the code *)
Definition uses (h : H256) (s : EvmState) : Z := map_sum (fun _ => has_code h) (Accounts s).
Definition refs (h : H256) (s : EvmState) : Z :=
  match CodeInfos s !! h with Some info => ref_count info | None => 0 end.

Record coded (n : nat) (s : EvmState) : Prop := {
  coded_uses h : uses h s <= refs h s;
  coded_info h info : CodeInfos s !! h = Some info -> 1 <= ref_count info /\
    exists code, Codes s !! h = Some code /\ keccak256 code = h /\ len code = code_size info;
  coded_room h : refs h s + Z.of_nat n <= U32_MAX;
  coded_held a info : contract_at a s = Some info -> program a /\ 1 <= held (acct a) (chain s) }.

Lemma has_code_bound h info : 0 <= has_code h info <= 1.
Proof. unfold has_code. destruct (contract_info info); [|lia]. destruct (_ =? _); lia. Qed.
Lemma uses_insert h a info s : uses h (set_accounts (<[a := info]> (Accounts s)) s) =
  uses h s - from_option (has_code h) 0 (Accounts s !! a) + has_code h info.
Proof. unfold uses. cbn [Accounts set_accounts]. exact (map_sum_insert (fun _ => has_code h) (Accounts s) a info). Qed.
Lemma uses_delete h a s : uses h (set_accounts (delete a (Accounts s)) s) =
  uses h s - from_option (has_code h) 0 (Accounts s !! a).
Proof. unfold uses. cbn [Accounts set_accounts]. exact (map_sum_delete (fun _ => has_code h) (Accounts s) a). Qed.
Lemma uses_nonneg h s : 0 <= uses h s.
Proof. apply map_sum_nonneg. intros a info _. apply has_code_bound. Qed.
Lemma uses_positive a info s : contract_at a s = Some info -> 1 <= uses (code_hash info) s.
Proof.
  unfold contract_at. intros Ha. apply bind_Some in Ha as (acc & Hacc & Hinfo).
  pose proof (uses_nonneg (code_hash info) (set_accounts (delete a (Accounts s)) s)) as Hn.
  rewrite uses_delete, Hacc in Hn. cbn in Hn. unfold has_code in Hn. rewrite Hinfo, Z.eqb_refl in Hn. lia.
Qed.

(** Only the accounts, the codes and the references matter. *)
Lemma coded_same n s s' : Accounts s' = Accounts s -> Codes s' = Codes s -> CodeInfos s' = CodeInfos s ->
  (forall a, program a -> held (acct a) (chain s) <= held (acct a) (chain s')) -> coded n s -> coded n s'.
Proof.
  intros Ha Hc Hi Hh [Hu Hinfo Hr Hheld].
  assert (Huse : forall h, uses h s' = uses h s) by (intros; unfold uses; by rewrite Ha).
  assert (Href : forall h, refs h s' = refs h s) by (intros; unfold refs; by rewrite Hi).
  constructor.
  - intros h. rewrite Huse, Href. apply Hu.
  - intros h info. rewrite Hi, Hc. apply Hinfo.
  - intros h. rewrite Href. apply Hr.
  - intros a info. unfold contract_at. rewrite Ha. intros Hca. destruct (Hheld a info Hca) as [Hp Hle].
    split; [done|]. specialize (Hh a Hp). lia.
Qed.
Lemma coded_step n s : coded (S n) s -> coded n s.
Proof. intros [Hu Hi Hr Hh]. constructor; [done..| |done]. intros h. specialize (Hr h). lia. Qed.
Lemma coded_chain n s c : coded n s -> (forall a, program a -> held (acct a) (chain s) <= held (acct a) c) ->
  coded n (set_chain c s).
Proof. intros Hs Hh. by apply (coded_same n s). Qed.

(** *** A reference less, and a contract less *)
Lemma deref_code_refs h h' s : 1 <= refs h s ->
  refs h' (deref_code h s) = refs h' s - if h =? h' then 1 else 0.
Proof.
  unfold deref_code, refs. intros Hr. destruct (CodeInfos s !! h) as [info|] eqn:Hi; [|lia].
  unfold U32.saturating_sub. destruct (Z.eqb_spec h h') as [<-|Hne].
  - rewrite Hi. destruct (Z.eqb_spec (Z.max (ref_count info - 1) 0) 0); cbn [CodeInfos set_codes].
    + rewrite lookup_delete_eq. lia.
    + rewrite lookup_insert_eq. cbn [ref_count]. lia.
  - destruct (Z.eqb_spec (Z.max (ref_count info - 1) 0) 0); cbn [CodeInfos set_codes].
    + rewrite lookup_delete_ne by done. lia.
    + rewrite lookup_insert_ne by done. lia.
Qed.
Lemma deref_code_accounts h s : Accounts (deref_code h s) = Accounts s.
Proof. unfold deref_code. destruct (CodeInfos s !! h); [|done]. by destruct (_ =? 0). Qed.
Lemma deref_code_info h h' info s :
  (forall h info, CodeInfos s !! h = Some info -> 1 <= ref_count info /\
     exists code, Codes s !! h = Some code /\ keccak256 code = h /\ len code = code_size info) ->
  CodeInfos (deref_code h s) !! h' = Some info -> 1 <= ref_count info /\
    exists code, Codes (deref_code h s) !! h' = Some code /\ keccak256 code = h' /\ len code = code_size info.
Proof.
  intros Hinfo. unfold deref_code. destruct (CodeInfos s !! h) as [i|] eqn:Hi; [|apply Hinfo].
  destruct (Hinfo _ _ Hi) as (Hpos & code & Hc & Hk & Hl). unfold U32.saturating_sub.
  destruct (Z.eqb_spec (Z.max (ref_count i - 1) 0) 0) as [Hz|Hz]; cbn [CodeInfos Codes set_codes].
  - rewrite lookup_delete_Some. intros [Hne Hh']. rewrite lookup_delete_ne by done. by apply Hinfo.
  - rewrite lookup_insert_Some. intros [[<- <-]|[Hne Hh']]; [|by apply Hinfo].
    cbn [ref_count code_size]. split; [lia|]. by exists code.
Qed.

(** What becomes of the accounts when [a] is no contract any more, and its code
    has a reference less *)
Lemma coded_drop n a acc new s s' :
  coded n s -> Accounts s !! a = Some acc -> from_option (fun i => contract_info i) None new = None ->
  Accounts s' = partial_alter (fun _ => new) a (Accounts s) ->
  (let t := match contract_info acc with Some info => deref_code (code_hash info) s | None => s end in
   Codes s' = Codes t /\ CodeInfos s' = CodeInfos t) ->
  (forall b, program b -> b <> a -> held (acct b) (chain s) <= held (acct b) (chain s')) ->
  coded n s'.
Proof.
  intros Hs Hacc Hnew Ha [Hc Hi] Hh. destruct Hs as [Hu Hinfo Hr Hheld].
  assert (Huse : forall h, uses h s' = uses h s - has_code h acc).
  { intros h. unfold uses. rewrite Ha. destruct new as [new|].
    - change (partial_alter (fun _ => Some new) a (Accounts s)) with (<[a := new]> (Accounts s)).
      rewrite map_sum_insert, Hacc. cbn [from_option] in *. unfold has_code at 3. rewrite Hnew. lia.
    - change (partial_alter (fun _ => None) a (Accounts s)) with (delete a (Accounts s)).
      rewrite map_sum_delete, Hacc. done. }
  assert (Href : forall h, refs h s' = refs h s - has_code h acc).
  { intros h. unfold refs. rewrite Hi. unfold has_code. destruct (contract_info acc) as [info|] eqn:Hca; [|lia].
    fold (refs h (deref_code (code_hash info) s)). fold (refs h s). apply deref_code_refs.
    etrans; [|apply Hu]. apply (uses_positive a). unfold contract_at. by rewrite Hacc. }
  constructor.
  - intros h. rewrite Huse, Href. specialize (Hu h). lia.
  - intros h info. rewrite Hc, Hi. destruct (contract_info acc) as [ci|]; [|apply Hinfo].
    by apply deref_code_info.
  - intros h. rewrite Href. specialize (Hr h). pose proof (has_code_bound h acc). lia.
  - intros b info. unfold contract_at. rewrite Ha. destruct (decide (b = a)) as [->|Hne].
    + rewrite lookup_partial_alter_eq. destruct new as [new|]; cbn in *; [by rewrite Hnew|done].
    + rewrite lookup_partial_alter_ne by done. intros Hb. destruct (Hheld b info Hb) as [Hp Hle].
      split; [done|]. specialize (Hh b Hp Hne). lia.
Qed.

Lemma coded_remove_account n a s : coded n s -> coded n (remove_account a s).
Proof.
  intros Hs. destruct (remove_account_storage a s) as [_ Hch].
  destruct (Accounts s !! a) as [acc|] eqn:Hacc.
  - apply (coded_drop n a acc None s); [done..| | |].
    + unfold remove_account. cbn [Accounts set_accounts]. unfold contract_at. rewrite Hacc. cbn.
      destruct (contract_info acc); [by rewrite deref_code_accounts|done].
    + unfold remove_account. unfold contract_at. rewrite Hacc. cbn. by destruct (contract_info acc).
    + intros b _ _. by rewrite Hch.
  - unfold remove_account, contract_at. rewrite Hacc. cbn. apply (coded_same n s); try done.
    cbn. by apply delete_id.
Qed.
Lemma coded_killed n who s : coded n s -> coded n (on_killed_account who s).
Proof.
  intros Hs. unfold on_killed_account. destruct (get_evm_address who (chain s)); by repeat apply coded_remove_account.
Qed.
Lemma coded_reap n killed : forall s, coded n s -> coded n (reap killed s).
Proof.
  induction killed as [|who killed IH]; intros s Hs; [done|]. cbn [reap foldl]. fold (reap killed).
  apply IH, coded_chain; [by apply coded_killed|]. intros a _. by rewrite (proj2 (on_killed_law who _ (acct a))).
Qed.
Lemma coded_transfer n a b v s u s' : coded n s -> on_chain_reaping (c_transfer a b v) s = (Ok u, s') -> coded n s'.
Proof.
  intros Hs (c & killed & Hc & ->)%reaping_Ok. apply coded_reap, coded_chain; [done|].
  intros x _. by rewrite (proj2 (proj1 (transfer_law _ _ _ _ _ _ Hc) (acct x))).
Qed.

(** *** A contract with a provider reference survives the reaping of others. *)
Lemma remove_account_other a b s : b <> a -> Accounts (remove_account b s) !! a = Accounts s !! a.
Proof.
  intros Hne. unfold remove_account. cbn [Accounts set_accounts]. rewrite lookup_delete_ne by done.
  destruct (contract_at b s); [by rewrite deref_code_accounts|done].
Qed.
Lemma killed_other a who s : program a -> held who (chain s) <= 0 -> 1 <= held (acct a) (chain s) ->
  Accounts (on_killed_account who s) !! a = Accounts s !! a.
Proof.
  intros Ha Hw Hh. unfold on_killed_account. rewrite remove_account_other.
  2:{ intros Heq. apply (default_not_program who). by rewrite Heq. }
  destruct (get_evm_address who (chain s)) as [e|] eqn:He; [|done]. apply remove_account_other.
  intros ->. rewrite (address_account _ _ _ He Ha) in Hw. lia.
Qed.
Lemma reap_other a killed : forall s, program a -> (forall who, who ∈ killed -> held who (chain s) <= 0) ->
  1 <= held (acct a) (chain s) -> Accounts (reap killed s) !! a = Accounts s !! a.
Proof.
  induction killed as [|who killed IH]; intros s Ha Hk Hh; [done|]. cbn [reap foldl].
  set (s1 := set_chain _ _). fold (reap killed s1).
  assert (Hs1 : forall x, held x (chain s1) = held x (chain s)).
  { intros x. subst s1. cbn [chain set_chain]. rewrite (proj2 (on_killed_law who _ x)).
    by rewrite (proj2 (on_killed_storage who s)). }
  rewrite IH; [|done| |by rewrite Hs1].
  - subst s1. cbn [Accounts set_chain]. apply killed_other; [done| |done]. apply Hk. left.
  - intros x Hx. rewrite Hs1. apply Hk. by right.
Qed.
Lemma acct_inj a b (c : Chain) : program a -> program b -> acct b = acct a -> b = a.
Proof. intros Ha Hb Heq. apply (account_program a b c Ha). by rewrite program_account. Qed.

Lemma coded_remove n a dest s size s' : coded n s -> remove_contract a dest s = (Ok size, s') -> coded n s'.
Proof.
  intros Hs (acc & info & c & killed & c2 & killed2 & Hacc & Hinfo & Hc & Hd & _ & ->)%remove_contract_Ok.
  destruct (transfer_all_law _ _ _ _ _ Hc) as [Hsame Hkill].
  destruct (coded_held _ _ Hs a info) as [Hp Hh]; [unfold contract_at; by rewrite Hacc|].
  set (t0 := reap killed (set_chain c s)) in *.
  assert (Hacc0 : Accounts t0 !! a = Some acc).
  { subst t0. rewrite reap_other; [done..|]. cbn. by rewrite (proj2 (Hsame (acct a))). }
  assert (Ht0 : coded n t0).
  { apply coded_reap, coded_chain; [done|]. intros x _. by rewrite (proj2 (Hsame (acct x))). }
  destruct (deref_code_storage (code_hash info) t0) as [_ Hch].
  apply coded_reap. apply (coded_drop n a acc (Some (mkAccountInfo (nonce acc) None)) t0); [done|done|done|..].
  - cbn. by rewrite deref_code_accounts.
  - rewrite Hinfo. done.
  - intros b Hb Hne. cbn [chain set_chain]. rewrite Hch in Hd.
    destruct (proj1 (dec_providers_law _ _ _ _ Hd) (acct b)) as [_ Hle].
    rewrite decide_False in Hle; [lia|]. unfold account_of. rewrite program_account by done.
    intros Heq. by apply Hne, (acct_inj a b c).
Qed.

(** *** A new contract *)
Lemma ref_code_refs h h' code s : refs h s + 1 <= U32_MAX ->
  refs h' (ref_code h code s) = refs h' s + if h =? h' then 1 else 0.
Proof.
  unfold ref_code, refs. intros Hr. destruct (CodeInfos s !! h) as [info|] eqn:Hi; cbn [CodeInfos set_codes].
  - destruct (Z.eqb_spec h h') as [<-|Hne].
    + rewrite lookup_insert_eq, Hi. cbn. unfold U32.saturating_add. lia.
    + rewrite lookup_insert_ne by done. lia.
  - destruct (Z.eqb_spec h h') as [<-|Hne].
    + rewrite lookup_insert_eq, Hi. done.
    + rewrite lookup_insert_ne by done. lia.
Qed.
Lemma ref_code_info code s :
  (forall h info, CodeInfos s !! h = Some info -> 1 <= ref_count info /\
     exists code, Codes s !! h = Some code /\ keccak256 code = h /\ len code = code_size info) ->
  let s' := ref_code (keccak256 code) code s in
  forall h info, CodeInfos s' !! h = Some info -> 1 <= ref_count info /\
     exists code, Codes s' !! h = Some code /\ keccak256 code = h /\ len code = code_size info.
Proof.
  intros Hinfo s' h info. subst s'. unfold ref_code.
  destruct (CodeInfos s !! keccak256 code) as [i|] eqn:Hi; cbn [CodeInfos Codes set_codes];
    rewrite lookup_insert_Some; intros [[<- <-]|[Hne Hh]].
  - destruct (Hinfo _ _ Hi) as (Hpos & code' & Hc & Hk & Hl). cbn. unfold U32.saturating_add, U32_MAX.
    split; [lia|]. by exists code'.
  - by apply Hinfo.
  - cbn. split; [lia|]. exists code. by rewrite lookup_insert_eq.
  - rewrite lookup_insert_ne by done. by apply Hinfo.
Qed.

Lemma coded_init n a m code s s' : program a -> coded (S n) s ->
  on_contract_initialization a m code s = (Ok tt, s') -> coded n s'.
Proof.
  intros Hp Hs [Hlen ->]%on_contract_initialization_Ok.
  set (k := as_i32 _). set (s1 := update_contract_storage_size a k s).
  destruct (update_size_other a k s) as (Ha1 & _ & Hc1 & Hi1 & Hch1). fold s1 in Ha1, Hc1, Hi1, Hch1.
  destruct Hs as [Hu Hinfo Hr Hheld]. set (h := keccak256 code) in *.
  assert (Href : forall h', refs h' s1 = refs h' s) by (intros; unfold refs; by rewrite Hi1).
  set (info := mkAccountInfo _ _).
  assert (Hcode : forall h', has_code h' info = if h =? h' then 1 else 0) by done.
  constructor.
  - intros h'. change (uses h' (set_accounts (<[a := info]> (Accounts s)) s) <= refs h' (ref_code h code s1)).
    rewrite uses_insert, Hcode, ref_code_refs, Href by (specialize (Hr h); rewrite Href; lia).
    specialize (Hu h'). destruct (Accounts s !! a) as [old|]; cbn [from_option];
      [pose proof (has_code_bound h' old)|]; lia.
  - apply ref_code_info. intros h' i. rewrite Hi1, Hc1. apply Hinfo.
  - intros h'. change (refs h' (ref_code h code s1) + Z.of_nat n <= U32_MAX).
    rewrite ref_code_refs, Href by (specialize (Hr h); rewrite Href; lia). specialize (Hr h').
    destruct (h =? h'); lia.
  - intros b i. unfold contract_at. cbn [Accounts chain set_chain set_accounts].
    destruct (inc_providers_law (account_of a s) (chain s) (acct b)) as [_ ->].
    unfold account_of. rewrite program_account by done.
    destruct (decide (b = a)) as [->|Hne].
    + intros _. split; [done|]. rewrite decide_True by done. pose proof (held_nonneg (acct a) (chain s)). lia.
    + rewrite lookup_insert_ne by done. intros Hb. destruct (Hheld b i Hb) as [Hpb Hle]. split; [done|].
      case_decide; lia.
Qed.

Lemma uses_nonce h a s : uses h (inc_nonce a s) = uses h s.
Proof.
  unfold inc_nonce. rewrite uses_insert. destruct (Accounts s !! a) as [info|]; cbn; unfold has_code; cbn; lia.
Qed.
Lemma coded_nonce n a s : coded n s -> coded n (inc_nonce a s).
Proof.
  intros [Hu Hi Hr Hh]. constructor; [|exact Hi|exact Hr|].
  - intros h. rewrite uses_nonce. apply Hu.
  - intros b info Hb. apply (Hh b info). revert Hb. unfold contract_at, inc_nonce. cbn [Accounts set_accounts].
    destruct (decide (b = a)) as [->|Hne]; [|by rewrite lookup_insert_ne].
    rewrite lookup_insert_eq. cbn. by destruct (Accounts s !! a).
Qed.

Lemma coded_held_same n s c : coded n s -> (forall who, held who c = held who (chain s)) -> coded n (set_chain c s).
Proof. intros Hs Hh. apply coded_chain; [done|]. intros a _. by rewrite Hh. Qed.
Lemma coded_charge origin a u r n s s' : coded n s ->
  impl_charge_storage origin a u r s = (Ok tt, s') -> coded n s'.
Proof.
  unfold impl_charge_storage. intros Hs Hc. destruct (u =? r); [by injection Hc as <-|].
  apply bind_Ok_inv in Hc as (user & t & [-> ->]%gets_Ok & Hc).
  apply bind_Ok_inv in Hc as (con & t & [-> ->]%gets_Ok & Hc). destruct (r <? u).
  - apply bind_Ok_inv in Hc as ([] & s1 & (c1 & [= <-] & ->)%on_chain_Ok & Hc).
    apply bind_Ok_inv in Hc as ([] & s2 & Ht & Hc). apply on_chain_Ok in Hc as (c3 & Hc3 & ->).
    apply coded_held_same; [|intros x; apply (reserve_law _ _ _ _ Hc3)].
    eapply coded_transfer; [|exact Ht]. apply coded_held_same; [done|].
    intros x. by destruct (unreserve_law (account_of origin s)
      (U128.saturating_mul StorageDepositPerByte (u - r)) (chain s) x) as [_ ?].
  - apply on_chain_Ok in Hc as (c1 & Hc1 & ->).
    destruct (c_repatriate_reserved_named _ _ _ _ _ _) as [[rest c2]|] eqn:Hrep; [|done]. injection Hc1 as ->.
    apply coded_held_same; [done|]. intros x. apply (repatriate_law _ _ _ _ _ _ _ Hrep).
Qed.

Lemma coded_reserve origin limit n s s' : coded n s ->
  impl_reserve_storage origin limit s = (Ok tt, s') -> coded n s'.
Proof.
  unfold impl_reserve_storage. intros Hs Hr. destruct (limit =? 0); [by injection Hr as <-|].
  apply bind_Ok_inv in Hr as (user & t & [-> ->]%gets_Ok & (c & Hc & ->)%on_chain_Ok).
  apply coded_held_same; [done|]. intros x. apply (reserve_law _ _ _ _ Hc).
Qed.
Lemma coded_unreserve origin limit u r n s s' : coded n s ->
  impl_unreserve_storage origin limit u r s = (Ok tt, s') -> coded n s'.
Proof.
  unfold impl_unreserve_storage. intros Hs Hr. destruct (_ =? 0); [by injection Hr as <-|].
  apply bind_Ok_inv in Hr as (user & t & [-> ->]%gets_Ok & (c & [= <-] & ->)%on_chain_Ok).
  apply coded_held_same; [done|]. intros x. by destruct (unreserve_law (account_of origin s)
    (U128.saturating_mul StorageDepositPerByte (U32.saturating_sub (U32.saturating_add limit r) u)) (chain s) x) as [_ ?].
Qed.
(** Storing a slot of a contract, whatever becomes of its size *)
Lemma coded_resize n a k i v s : coded n s -> coded n (update_contract_storage_size a k (store_slot a i v s)).
Proof.
  intros Hs. destruct (update_size_other a k (store_slot a i v s)) as (? & _ & ? & ? & Hch).
  apply (coded_same n s); [done..| |done]. by rewrite Hch.
Qed.
Lemma coded_account a acc info m d k s : Accounts s !! a = Some acc -> contract_info acc = Some info -> coded k s ->
  coded k (set_accounts (<[a := mkAccountInfo (nonce acc) (Some (mkContractInfo (code_hash info) m d))]> (Accounts s)) s).
Proof.
  intros Ha Hinfo [Hu Hi Hr Hh]. constructor; [|exact Hi|exact Hr|].
  - intros h. rewrite uses_insert, Ha. cbn [from_option]. specialize (Hu h).
    unfold has_code. rewrite Hinfo. cbn. change (refs h (set_accounts _ s)) with (refs h s). lia.
  - intros b i. unfold contract_at. cbn [Accounts set_accounts chain].
    destruct (decide (b = a)) as [->|Hne]; [|rewrite lookup_insert_ne by done; apply Hh].
    intros _. apply (Hh a info). unfold contract_at. by rewrite Ha.
Qed.

#[export] Instance coded_moves : MovesInvariant program (fun _ => coded).
Proof.
  intros l n s l' n' s' Hop Hs. inversion Hop; subst.
  - by apply coded_step.
  - done.
  - by eapply coded_charge.
  - by eapply coded_reserve.
  - by eapply coded_unreserve.
  - apply coded_reap, coded_held_same; [done|]. intros x.
    match goal with Hc : same_reserves _ c |- _ => apply (Hc x) end.
  - by apply (coded_same _ s).
  - by apply coded_nonce.
  - by apply (coded_same _ s).
  - match goal with Hm : rent_transfer_maintainer _ _ _ _ = _ |- _ =>
      apply rent_transfer_maintainer_Ok in Hm as (acc & info & Ha & Hi & ->) end.
    by apply coded_account.
  - apply coded_step in Hs. by apply (coded_same _ s).
  - apply coded_resize. by apply coded_step in Hs.
  - apply coded_resize. by apply coded_step in Hs.
  - apply coded_step in Hs. by eapply coded_remove.
  - by eapply coded_init.
Qed.
Lemma coded_frames origin : ~ program origin ->
  FrameInvariant program origin (in_steps precompile_steps (fun _ => coded)).
Proof. apply (frames_of_moves program); [done|apply coded_moves]. Qed.

(** ** Histories *)
Context (n : nat).

Definition no_set_code (x : Extrinsic) : Prop := match x with XSetCode _ _ => False | _ => True end.
(** Room in the reference counts for the steps of one transaction, and of the
    contracts precompiled contracts run; the network index is a [u64] that the
    genesis starts from a positive number. *)
Definition countable (s : EvmState) : Prop :=
  (forall h, refs h s + Z.of_nat (n * S precompile_steps) <= U32_MAX) /\ 0 < NetworkContractIndex s < 2 ^ 64.
Definition holds_kept (c c' : Chain) : Prop := forall a, program a -> held (acct a) c <= held (acct a) c'.

Lemma coded_countable s : coded 0 s -> countable s -> in_steps precompile_steps (fun _ => coded) [] n s.
Proof. by intros [Hu Hi _ Hh] [Hr _]. Qed.
Lemma coded_selfdestruct who e a s : coded 0 s ->
  wlp (do_selfdestruct who e a) (fun _ => coded 0) (fun _ _ => True) s.
Proof.
  intros Hs. unfold do_selfdestruct. apply wlp_bind, wlp_gets, wlp_bind, wlp_ok_or; [intros acc _|done].
  apply wlp_bind, wlp_ok_or; [intros info _|done]. apply wlp_bind, wlp_ensure; [intros _|done].
  apply wlp_bind, wlp_ensure; [intros _|done]. apply wlp_bind, wlp_run; [|done].
  intros size t Ht. apply wlp_bind, wlp_gets, wlp_run; [|done]. intros [] u (c & Hc & ->)%on_chain_Ok.
  destruct (c_repatriate_reserved_named _ _ _ _ _ _) as [[rest c2]|] eqn:Hrep; [|done]. injection Hc as ->.
  apply coded_held_same; [by eapply coded_remove|]. intros x. apply (repatriate_law _ _ _ _ _ _ _ Hrep).
Qed.

#[export] Instance coded_histories : HistoryInvariant n program no_set_code countable (coded 0).
Proof.
  constructor; try done.
  - intros sender origin target input value g l config s Ho Hr Hs.
    apply (wlp_runner_call n config program (in_steps precompile_steps (fun _ => coded)));
      [by apply coded_frames|by apply coded_countable].
  - intros source init value g l assigned salt config s Ho Ha Hr Hs.
    apply (wlp_inner_create n config program (in_steps precompile_steps (fun _ => coded)));
      [by apply coded_frames|done|by apply coded_countable].
  - intros s [_ Hi]. by apply network_program.
  - intros e s Hs. by apply (coded_same 0 s).
  - intros x s Hs. by apply (coded_same 0 s).
  - intros o s Hs. by apply (coded_same 0 s).
  - intros c s Hc Hs. apply coded_held_same; [done|]. intros x. apply (Hc x).
  - intros who s. apply coded_killed.
  - intros a acc info m d s. apply coded_account.
  - apply coded_selfdestruct.
Qed.

End Codes.
