(* ===== verification/EvmGas.v ===== *)
(** * Gas bounds the execution

    The model cuts a transaction off after a number of steps.  With the number
    its gas pays for it is never cut off: every frame pays for the frames it
    opens, and an interpreter asks only so much between two charges. *)
From S2P Require Import Prelude Primitives Runtime Bytes EvmBridge EvmManager EvmAccounts StorageMeter Evm EvmRunner.

(** ** What the crates [evm] and [evm_gasometer] promise *)
Definition spends `{EvmMachine} (f : M ExitErr Gas unit) (least : Z) : Prop := forall g,
  wp f (fun _ g' => gas_left g' + least <= gas_left g) (fun _ g' => gas_left g' <= gas_left g) g.

Class GasLaws `{EvmMachine} := {
  gas_nonneg g : 0 <= gas_left g;
  gas_new_left gas config : 0 <= gas -> gas_left (gas_new gas config) = gas;
  record_cost_law c : 0 <= c -> spends (record_cost c) c;
  record_deposit_law n : spends (record_deposit n) 0;
  record_stipend_law n : spends (record_stipend n) (- n);
  record_refund_law n : spends (record_refund n) 0;
  record_transaction_law c : spends (record_transaction c) 0;
  record_dynamic_law c m : spends (record_dynamic_cost c m) 0;
  static_cost_law opcode c : static_opcode_cost opcode = Some c -> 0 <= c;
  gas_fail_law g : gas_left (gas_fail g) <= gas_left g;
  precompile_cost_law address input gas ctx s r out cost :
    (precompiles_execute address input gas ctx s).1 = Some (inl (r, out, cost)) -> 0 <= cost;

  (* how much an interpreter may still ask before it is charged again; opening a
     frame counts for what that frame may ask before it is *)
  idle : Interpreter -> Z;
  start_idle : Z;
  charge_idle : Z;
  idle_nonneg m : 0 <= idle m;
  idle_bounds : 0 <= start_idle /\ 0 <= charge_idle;
  runtime_new_idle code input ctx config : idle (runtime_new code input ctx config) <= start_idle;
  (* the opcodes an interpreter goes on after *)
  charging : Z -> bool;
  charging_static opcode c : charging opcode = true -> static_opcode_cost opcode = Some c -> 1 <= c;
  charging_dynamic opcode address operands static config s g c m :
    charging opcode = true -> dynamic_opcode_cost address opcode operands static config s g = inl (c, m) ->
    spends (record_dynamic_cost c m) 1;
  progress (m : Interpreter) (q : Request) : (Answer q -> Interpreter) -> Prop :=
    match q as q return (Answer q -> Interpreter) -> Prop with
    | PreValidate _ opcode _ => fun k =>
        (forall e, idle (k (inr e)) < idle m) /\
        (idle (k (inl tt)) < idle m \/ charging opcode = true /\ idle (k (inl tt)) <= charge_idle)
    | Create _ _ _ _ gas => fun k =>
        (forall g, gas = Some g -> 0 <= g) /\ forall x, idle (k x) + start_idle + 2 <= idle m
    | Call _ _ _ gas _ _ => fun k =>
        (forall g, gas = Some g -> 0 <= g) /\ forall x, idle (k x) + start_idle + 2 <= idle m
    | _ => fun k => forall x, idle (k x) < idle m
    end;
  runtime_step_progress m q k : runtime_step m = inr (existT q k) -> progress m q k }.

(** ** No operation of the pallet panics. *)
Definition total {E S A} (m : M E S A) : Prop := forall s, (m s).1 <> Panic.
Create HintDb total.
Section Total.
Context {E S : Type}.
Lemma total_bind {A B} (m : M E S A) (k : A -> M E S B) : total m -> (forall a, total (k a)) -> total (m ≫= k).
Proof.
  intros Hm Hk s. specialize (Hm s). unfold mbind, M_bind. destruct (m s) as [[a|e|] t]; [apply Hk|done|done].
Qed.
Lemma total_ret {A} (a : A) : total (mret a : M E S A).
Proof. done. Qed.
Lemma total_throw {A} e : total (throw e : M E S A).
Proof. done. Qed.
Lemma total_gets {A} (f : S -> A) : total (gets f : M E S A).
Proof. done. Qed.
Lemma total_modify f : total (modify f : M E S unit).
Proof. done. Qed.
Lemma total_ensure b e : total (ensure b e : M E S unit).
Proof. by destruct b. Qed.
Lemma total_ok_or {A} (o : option A) e : total (ok_or o e : M E S A).
Proof. by destruct o. Qed.
Lemma total_transactional {A} (m : M E S A) : total m -> total (transactional m).
Proof. intros Hm s. specialize (Hm s). unfold transactional. by destruct (m s) as [[a|e|] t]. Qed.
Lemma total_if {A} (b : bool) (m k : M E S A) : total m -> total k -> total (if b then m else k).
Proof. by destruct b. Qed.
End Total.
Lemma total_map_err {E E' S A} (f : E -> E') (m : M E S A) : total m -> total (map_err f m).
Proof. intros Hm s. specialize (Hm s). unfold map_err. by destruct (m s) as [[a|e|] t]. Qed.
#[export] Hint Resolve total_ret total_throw total_gets total_modify total_ensure total_ok_or total_transactional
  total_map_err total_if : total.
#[export] Hint Extern 1 (total (_ ≫= _)) => apply total_bind; [|intros ?] : total.

Section PalletTotal.
Context `{EvmConfig}.
Lemma on_chain_total f : total (on_chain f).
Proof. intros s. unfold on_chain. by destruct (f (chain s)). Qed.
Lemma on_chain_reaping_total f : total (on_chain_reaping f).
Proof. intros s. unfold on_chain_reaping. by destruct (f (chain s)) as [[]|]. Qed.
#[local] Hint Resolve on_chain_total on_chain_reaping_total : total.

Lemma remove_contract_total a dest : total (remove_contract a dest).
Proof. unfold remove_contract. eauto 30 with total. Qed.
Lemma on_contract_initialization_total a m code : total (on_contract_initialization a m code).
Proof. unfold on_contract_initialization. eauto 20 with total. Qed.
Lemma impl_reserve_total origin limit : total (impl_reserve_storage origin limit).
Proof. unfold impl_reserve_storage. eauto 20 with total. Qed.
Lemma impl_unreserve_total origin limit u r : total (impl_unreserve_storage origin limit u r).
Proof. unfold impl_unreserve_storage. cbv zeta. eauto 20 with total. Qed.
Lemma impl_charge_total origin a u r : total (impl_charge_storage origin a u r).
Proof. unfold impl_charge_storage. cbv zeta. eauto 20 with total. Qed.
End PalletTotal.

Section HandlerTotal.
Context `{EvmMachine}.
Lemma handler_transfer_total t : total (handler_transfer t).
Proof. unfold handler_transfer. eauto 10 using on_chain_reaping_total with total. Qed.
Lemma runner_transfer_total a b v : total (runner_transfer a b v).
Proof. unfold runner_transfer. eauto 10 using on_chain_reaping_total with total. Qed.
End HandlerTotal.
Section Bound.
Context `{EvmMachine} {Laws : GasLaws} (vicinity : Vicinity) (config : EvmSettings)
  (Hstipend : 0 <= call_stipend config).

Definition steps_per_gas : Z := charge_idle + 1.
Definition left_of (w : Frame) : Z := gas_left (gasometer w).
Definition depth (w : Frame) : nat := length (stack (meters w)).

(** No meter is lost, no gas is made but the [bonus], and the steps that were
    taken are paid for but the [extra]. *)
Definition settled (bonus extra : Z) (n : nat) (g : Z) (n' : nat) (g' : Z) : Prop :=
  g' <= g + bonus /\ (n' <= n)%nat /\
  Z.of_nat n + steps_per_gas * g' <= Z.of_nat n' + steps_per_gas * (g + bonus) + extra.
Definition paid (bonus extra : Z) (w w' : Frame) : Prop :=
  depth w' = depth w /\ settled bonus extra (steps w) (left_of w) (steps w') (left_of w').

Lemma per_gas_pos : 1 <= steps_per_gas.
Proof. unfold steps_per_gas. pose proof idle_bounds. lia. Qed.
Lemma left_nonneg w : 0 <= left_of w.
Proof. apply gas_nonneg. Qed.
Lemma settled_less n g g' : g' <= g -> settled 0 0 n g n g'.
Proof. intros Hg. pose proof per_gas_pos. unfold settled. split_and!; [lia|done|nia]. Qed.
Lemma settled_trans b1 b2 e1 e2 n1 g1 n2 g2 n3 g3 :
  settled b1 e1 n1 g1 n2 g2 -> settled b2 e2 n2 g2 n3 g3 -> settled (b1 + b2) (e1 + e2) n1 g1 n3 g3.
Proof. unfold settled. intros (? & ? & ?) (? & ? & ?). split_and!; [lia..|nia]. Qed.
Lemma settled_weaken e1 e2 b n g n' g' : e1 <= e2 -> settled b e1 n g n' g' -> settled b e2 n g n' g'.
Proof. unfold settled. intros ? (? & ? & ?). split_and!; [lia..|nia]. Qed.
Lemma frame_paid_trans b1 b2 e1 e2 w1 w2 w3 : paid b1 e1 w1 w2 -> paid b2 e2 w2 w3 -> paid (b1 + b2) (e1 + e2) w1 w3.
Proof. intros [Hd1 Hs1] [Hd2 Hs2]. split; [congruence|]. by eapply settled_trans. Qed.
Lemma paid_weaken e1 e2 b w1 w2 : e1 <= e2 -> paid b e1 w1 w2 -> paid b e2 w1 w2.
Proof. intros He [Hd Hs]. split; [done|]. by eapply settled_weaken. Qed.

(** *** Operations on the parts of a frame *)
Definition same_frame (w w' : Frame) : Prop :=
  depth w' = depth w /\ steps w' = steps w /\ gasometer w' = gasometer w.
Lemma same_paid w w' : same_frame w w' -> paid 0 0 w w'.
Proof. intros (Hd & Hs & Hg). split; [done|]. unfold left_of. rewrite Hs, Hg. by apply settled_less. Qed.

Lemma wp_on_state {E A} (f : M E EvmState A) w : total f ->
  wp (on_state f) (fun _ w' => same_frame w w') (fun _ w' => same_frame w w') w.
Proof.
  intros Hf. specialize (Hf (base (meters w))). unfold wp, on_state, on_meters.
  destruct (f (base (meters w))) as [[a|e|] s]; done.
Qed.
Lemma wp_on_gas f least w : spends f least ->
  wp (on_gas f) (fun _ w' => depth w' = depth w /\ steps w' = steps w /\ left_of w' + least <= left_of w)
    (fun _ w' => depth w' = depth w /\ steps w' = steps w /\ left_of w' <= left_of w) w.
Proof.
  intros Hf. specialize (Hf (gasometer w)). unfold wp, on_gas, left_of in *.
  destruct (f (gasometer w)) as [[a|e|] g]; cbn; done.
Qed.
(** The meter of a frame *)
Lemma wp_on_meter (f : M DispatchError (Meters EvmState) unit) (upd : StorageMeter -> StorageMeter) w :
  (1 <= depth w)%nat -> (forall w, f w = handle (fun _ => update_self upd) w) ->
  wp (on_meters f) (fun _ w' => same_frame w w') (fun _ w' => same_frame w w') w.
Proof.
  intros Hd Hf. unfold wp, on_meters. rewrite Hf. unfold handle, depth in *.
  destruct w as [g n [[|m ms] s]]; cbn in *; [lia|]. by destruct (sm_result m).
Qed.
Lemma wp_charge k w : (1 <= depth w)%nat ->
  wp (on_meters (charge k)) (fun _ w' => same_frame w w') (fun _ w' => same_frame w w') w.
Proof. intros Hd. by eapply wp_on_meter. Qed.
Lemma wp_refund k w : (1 <= depth w)%nat ->
  wp (on_meters (refund k)) (fun _ w' => same_frame w w') (fun _ w' => same_frame w w') w.
Proof. intros Hd. by eapply wp_on_meter. Qed.
Lemma same_frame_trans w1 w2 w3 : same_frame w1 w2 -> same_frame w2 w3 -> same_frame w1 w3.
Proof. unfold same_frame. intros (? & ? & ?) (? & ? & ?). split_and!; congruence. Qed.

Lemma wp_map_err {E E' S A} (f : E -> E') (m : M E S A) (Q : A -> S -> Prop) (R : E' -> S -> Prop) s :
  wp m Q (fun e => R (f e)) s -> wp (map_err f m) Q R s.
Proof. unfold wp, map_err. by destruct (m s) as [[a|e|] t]. Qed.
Lemma wp_catch {E S A} (m : M E S A) (Q : A + E -> S -> Prop) R s :
  wp m (fun a => Q (inl a)) (fun e => Q (inr e)) s -> wp (catch m) Q R s.
Proof. unfold wp, catch. by destruct (m s) as [[a|e|] t]. Qed.
Lemma wp_unwrap_or {E S A} (a : A) (m : M E S A) (Q : A -> S -> Prop) R s :
  wp m Q (fun _ => Q a) s -> wp (unwrap_or a m) Q R s.
Proof. unfold wp, unwrap_or. by destruct (m s) as [[b|e|] t]. Qed.

(** *** Requests that open no frame *)
Lemma wp_set_storage is_static a i v w : (1 <= depth w)%nat ->
  wp (set_storage is_static a i v) (fun _ w' => same_frame w w') (fun _ w' => same_frame w w') w.
Proof.
  intros Hd. unfold set_storage. destruct is_static; [done|]. apply wp_bind, wp_gets, wp_bind.
  eapply wp_mono; [apply wp_on_state; auto with total| |done]. intros [] w1 Hw1.
  assert (Hd1 : (1 <= depth w1)%nat) by (destruct Hw1 as (-> & _); lia).
  cbv zeta. destruct (v =? 0), (_ =? 0); cbn beta iota; try done; apply wp_bind;
    (eapply wp_mono; [apply wp_on_state; auto with total| |]); intros ? w2 Hw2; try exact (same_frame_trans _ _ _ Hw1 Hw2).
  all: assert (Hd2 : (1 <= depth w2)%nat) by (destruct Hw2 as (-> & _); lia); apply wp_map_err.
  - eapply wp_mono; [by apply wp_refund|..]; intros ? w3 Hw3; exact (same_frame_trans _ _ _ Hw1 (same_frame_trans _ _ _ Hw2 Hw3)).
  - eapply wp_mono; [by apply wp_charge|..]; intros ? w3 Hw3; exact (same_frame_trans _ _ _ Hw1 (same_frame_trans _ _ _ Hw2 Hw3)).
Qed.
Lemma wp_mark_delete is_static a t w : (1 <= depth w)%nat ->
  wp (mark_delete is_static a t) (fun _ w' => same_frame w w') (fun _ w' => same_frame w w') w.
Proof.
  intros Hd. unfold mark_delete. destruct is_static; [done|]. apply wp_bind, wp_map_err.
  eapply wp_mono; [apply wp_on_state, remove_contract_total| |done]. intros size w1 Hw1. apply wp_map_err.
  assert (Hd1 : (1 <= depth w1)%nat) by (destruct Hw1 as (-> & _); lia).
  eapply wp_mono; [by apply wp_refund|..]; intros ? w3 Hw3; exact (same_frame_trans _ _ _ Hw1 Hw3).
Qed.

(** *** Finishing a frame *)
Abbreviation hdl := (vicinity_handler vicinity).

Lemma charge_chain_total ms a u r : forall s : EvmState,
  (charge_chain (Hdl := hdl) ms a u r s).1 <> Panic /\
  length (charge_chain (Hdl := hdl) ms a u r s).2.1 = length ms.
Proof.
  induction ms as [|m ms IH]; intros s; cbn [charge_chain].
  - split; [|done]. cbn. apply impl_charge_total.
  - destruct (sm_result m); [done|]. destruct (IH s) as [Hp Hl]. cbn. split; [done|]. by rewrite Hl.
Qed.
Lemma meter_unreserve_total limit u r : total (meter_unreserve_storage (Hdl := hdl) limit u r).
Proof.
  intros [[|m ms] s]; unfold meter_unreserve_storage; cbn [stack]; [|done].
  unfold on_base. cbn. apply impl_unreserve_total.
Qed.
Lemma meter_unreserve_depth limit u r ms :
  length (stack (meter_unreserve_storage (Hdl := hdl) limit u r ms).2) = length (stack ms).
Proof. unfold meter_unreserve_storage. destruct ms as [[|m ms] s]; cbn [stack]; [|done]. by unfold on_base. Qed.
Lemma finish_total m ms s : wp (finish (Hdl := hdl))
  (fun _ w => length (stack w) = length ms) (fun _ w => length (stack w) = length ms) (mkMeters (m :: ms) s).
Proof.
  unfold wp, finish. cbn [stack base]. destruct (sm_result m); [done|]. destruct (sm_limit m <? _); [done|].
  unfold mbind, M_bind, meter_charge_storage. cbn [stack base].
  destruct (charge_chain_total ms (sm_contract m) (sm_self_used m) (sm_self_refunded m) s) as [Hp Hl].
  destruct (charge_chain ms _ _ _ s) as [o [ms' s']]. cbn [fst snd] in *.
  destruct o as [[]|e|]; [|done|done]. set (w := mkMeters ms' s'). set (limit := U32.saturating_sub _ _).
  pose proof (meter_unreserve_total limit (sm_self_used m) (sm_self_refunded m) w) as Ht.
  pose proof (meter_unreserve_depth limit (sm_self_used m) (sm_self_refunded m) w) as Hd.
  destruct (meter_unreserve_storage _ _ _ w) as [[a|e|] w']; cbn in *; [by rewrite Hd|by rewrite Hd|done].
Qed.
Lemma child_meter_total a w s : (1 <= length w)%nat ->
  wp (child_meter (Hdl := hdl) a) (fun _ w' => length (stack w') = S (length w))
    (fun _ w' => length (stack w') = length w) (mkMeters w s).
Proof.
  intros Hw. unfold wp, child_meter, handle. destruct w as [|m ms]; cbn in *; [lia|]. by destruct (sm_result m).
Qed.

(** A closure that settles with the caller *)
Lemma wp_sub_transaction {R} gas_limit contract (f : M R (Gas * Frame) R) b e w :
  0 <= gas_limit -> 0 <= b -> 0 <= e -> (1 <= depth w)%nat ->
  let post := fun (_ : R) x => depth x.2 = S (depth w) /\
    settled b e (steps w) (left_of w) (steps x.2) (gas_left x.1) in
  (forall w1, depth w1 = S (depth w) -> steps w1 = steps w -> left_of w1 = gas_limit ->
     wp f post post (gasometer w, w1)) ->
  wp (handler_sub_transaction vicinity config gas_limit contract f) (fun _ => paid b e w) (fun _ => paid b e w) w.
Proof.
  intros Hg Hb He Hd post Hf. unfold handler_sub_transaction, run_sub_transaction.
  destruct w as [g n [st s]]. unfold depth, left_of in *. cbn [gasometer steps meters stack base] in *.
  assert (Hself : settled b e n (gas_left g) n (gas_left g)).
  { pose proof per_gas_pos. unfold settled. split_and!; [lia|done|nia]. }
  unfold wp at 1. cbv beta iota. cbn [gasometer steps meters stack base].
  pose proof (child_meter_total contract st s Hd) as Hch. unfold wp in Hch.
  destruct (child_meter contract (mkMeters st s)) as [[[]|err|] [ms s1]]; cbn [stack base] in *;
    [|split; [done|exact Hself]|done].
  specialize (Hf (mkFrame (gas_new gas_limit config) n (mkMeters ms s1)) Hch eq_refl (gas_new_left _ _ Hg)).
  unfold wp, post in Hf. destruct (f _) as [[r|r|] [g' [g1 n' [ms' s']]]]; cbn [gasometer steps meters stack base fst snd] in *;
    [| |done].
  - destruct Hf as [Hl Hs]. destruct ms' as [|m ms']; [done|].
    pose proof (finish_total m ms' s') as Hfin. unfold wp in Hfin. cbn in Hl.
    destruct (finish (mkMeters (m :: ms') s')) as [[[]|err|] [ms2 s2]]; cbn [stack base] in *; [| |done];
      (split; [unfold depth; cbn; lia|exact Hs]).
  - destruct Hf as [Hl Hs]. destruct ms' as [|m ms']; [done|]. cbn in Hl.
    split; [unfold depth; cbn; lia|exact Hs].
Qed.

(** *** Frames that open frames *)
Section Open.
Context (run : bool -> Interpreter -> M Never Frame (ExitReason * bytes)) (most : nat).
(** A run is paid by what its interpreter may ask and by its gas. *)
Definition run_pays : Prop := forall is_static m w, (1 <= depth w)%nat -> (steps w <= most)%nat ->
  idle m + 1 + steps_per_gas * left_of w <= Z.of_nat (steps w) ->
  wp (run is_static m) (fun _ => paid 0 (idle m + 1) w) (fun _ _ => False) w.
Context (Hrun : run_pays).

Lemma wp_execute is_static caller address value code input w : (1 <= depth w)%nat -> (steps w <= most)%nat ->
  start_idle + 1 + steps_per_gas * left_of w <= Z.of_nat (steps w) ->
  wp (handler_execute config run is_static caller address value code input)
    (fun _ => paid 0 (start_idle + 1) w) (fun _ _ => False) w.
Proof.
  intros Hd Hm Hs. unfold handler_execute. apply wp_bind. set (m := runtime_new _ _ _ _).
  assert (Hi : idle m <= start_idle) by apply runtime_new_idle.
  eapply wp_mono; [apply Hrun; [done|done|lia]| |done]. intros [r out] w' Hp. cbv beta.
  apply (paid_weaken _ (start_idle + 1)) in Hp; [|lia]. destruct r; [done..|].
  unfold wp, mbind, M_bind, on_gas, modify. cbn. change 0 with (0 + 0). rewrite <- (Z.add_0_r (start_idle + 1)).
  eapply frame_paid_trans; [exact Hp|]. split; [done|]. apply settled_less. cbn. apply gas_fail_law.
Qed.

(** What the callee leaves goes back to the caller, and no more. *)
Lemma settled_back n n' G G' t t' e :
  settled 0 e n t n' t' -> 0 <= t' -> G' <= G + t' -> 0 <= t -> settled t e n G n' G'.
Proof.
  pose proof per_gas_pos. unfold settled. intros (Hg1 & Hn & Hs) Ht' Hg Ht. split_and!; [lia|done|nia].
Qed.

Lemma wp_on_callee {E A} (f : M E Frame A) (Q : A -> Gas * Frame -> Prop) R x :
  wp f (fun a w => Q a (x.1, w)) (fun e w => R e (x.1, w)) x.2 -> wp (on_callee f) Q R x.
Proof. unfold wp, on_callee. destruct (f x.2) as [[a|e|] w]; done. Qed.
Lemma wp_on_caller f least x : spends f least ->
  wp (on_caller f) (fun _ y => y.2 = x.2 /\ gas_left y.1 + least <= gas_left x.1)
    (fun _ y => y.2 = x.2 /\ gas_left y.1 <= gas_left x.1) x.
Proof.
  intros Hf. specialize (Hf x.1). unfold wp, on_caller in *. destruct (f x.1) as [[a|e|] g]; cbn; done.
Qed.

(** A frame called with the gas [t] of [w1] by a caller whose gas was [G]: before
    and after the caller is given back what is left *)
Definition running (G : Z) (w1 : Frame) (x : Gas * Frame) : Prop :=
  depth x.2 = depth w1 /\ settled 0 (start_idle + 1) (steps w1) (left_of w1) (steps x.2) (left_of x.2) /\
  gas_left x.1 <= G.
Definition returned (G : Z) (w1 : Frame) (x : Gas * Frame) : Prop :=
  depth x.2 = depth w1 /\ settled (left_of w1) (start_idle + 1) (steps w1) G (steps x.2) (gas_left x.1).

Lemma settled_start n g : settled 0 (start_idle + 1) n g n g.
Proof. eapply settled_weaken; [|by apply settled_less]. pose proof idle_bounds. lia. Qed.
Lemma running_returned G w1 x : running G w1 x -> returned G w1 x.
Proof.
  intros (Hd & Hs & Hg). split; [done|]. pose proof (left_nonneg x.2). pose proof (left_nonneg w1).
  eapply settled_back; [exact Hs|done|lia|done].
Qed.
Lemma running_same G w1 g w w' : running G w1 (g, w) -> same_frame w w' -> running G w1 (g, w').
Proof.
  intros (Hd & Hs & Hg) (Hd' & Hs' & Hg'). unfold running, left_of in *. cbn [fst snd] in *. by rewrite Hd', Hs', Hg'.
Qed.
Lemma returned_same G w1 g w w' : returned G w1 (g, w) -> same_frame w w' -> returned G w1 (g, w').
Proof.
  intros (Hd & Hs) (Hd' & Hs' & Hg'). unfold returned in *. cbn [fst snd] in *. by rewrite Hd', Hs'.
Qed.
Lemma running_less G w1 g w w' : running G w1 (g, w) -> depth w' = depth w -> steps w' = steps w ->
  left_of w' <= left_of w -> running G w1 (g, w').
Proof.
  intros (Hd & Hs & Hg) Hd' Hs' Hl. unfold running in *. cbn [fst snd] in *. rewrite Hd', Hs'. split_and!; [done| |done].
  pose proof (settled_trans 0 0 (start_idle + 1) 0 _ _ _ _ _ _ Hs (settled_less (steps w) _ _ Hl)) as Ht.
  by rewrite !Z.add_0_r in Ht.
Qed.

(** The caller is given back what the callee has left. *)
Lemma wp_give_back {E B} (f : ExitErr -> E) callee (k : M E (Gas * Frame) B) G w1 g w Q (R : E -> Gas * Frame -> Prop) :
  running G w1 (g, w) -> callee = gasometer w ->
  (forall g', returned G w1 (g', w) -> wp k Q R (g', w)) ->
  (forall e g', returned G w1 (g', w) -> R e (g', w)) ->
  wp (map_err f (on_caller (record_stipend (gas_left callee)));;
      map_err f (on_caller (record_refund (gas_refunded callee)));; k) Q R (g, w).
Proof.
  intros Hr -> HQ HR. destruct Hr as (Hd & Hs & Hg). cbn [fst snd] in *.
  assert (Hback : forall g', gas_left g' <= gas_left g + left_of w -> returned G w1 (g', w)).
  { intros g' Hg'. split; [done|]. eapply settled_back; [exact Hs|apply left_nonneg|cbn; lia|apply left_nonneg]. }
  apply wp_bind, wp_map_err. eapply wp_mono; [apply wp_on_caller, record_stipend_law|..].
  - intros [] [g1 ?] [Heq Hg1]. cbn [fst snd] in *. subst. apply wp_bind, wp_map_err.
    eapply wp_mono; [apply wp_on_caller, record_refund_law|..]; intros [] [g2 ?] [Heq Hg2]; cbn [fst snd] in *; subst.
    all: assert (Hr : returned G w1 (g2, w)) by (apply Hback; unfold left_of; lia).
    all: try by apply HQ. all: by apply HR.
  - intros e [g1 ?] [Heq Hg1]. cbn [fst snd] in *. subst. apply HR, Hback. pose proof (left_nonneg w). lia.
Qed.

Lemma wp_run_callee caller address value code input is_static G w1 g w :
  running G w1 (g, w) -> (1 <= depth w1)%nat -> (steps w1 <= most)%nat ->
  same_frame w1 w -> start_idle + 1 + steps_per_gas * left_of w1 <= Z.of_nat (steps w1) ->
  wp (on_callee (handler_execute config run is_static caller address value code input))
    (fun _ => running G w1) (fun _ _ => False) (g, w).
Proof.
  intros (Hd & Hs & Hg) Hd1 Hm (Hdw & Hsw & Hgw) Hle. cbn [fst snd] in *. apply wp_on_callee. cbn [fst snd].
  assert (Hl : left_of w = left_of w1) by (unfold left_of; by rewrite Hgw).
  eapply wp_mono; [apply wp_execute; [lia|lia|rewrite Hl, Hsw; lia]| |done].
  intros r w' [Hd' Hs']. unfold running. cbn [fst snd]. rewrite <- Hl, <- Hsw. split_and!; [lia|done|done].
Qed.

(** Steps inside the closure that leave the caller alone *)
Lemma wp_callee_state {E A} (f : M E EvmState A) G w1 x : total f -> running G w1 x ->
  wp (on_callee (on_state f)) (fun _ => running G w1) (fun _ => running G w1) x.
Proof.
  intros Hf Hr. destruct x as [g w]. apply wp_on_callee. cbn [fst snd].
  eapply wp_mono; [by apply wp_on_state|..]; intros ? w' Hw'; by eapply running_same.
Qed.
Lemma wp_callee_gas f least G w1 x : spends f least -> 0 <= least -> running G w1 x ->
  wp (on_callee (on_gas f)) (fun _ => running G w1) (fun _ => running G w1) x.
Proof.
  intros Hf Hl Hr. destruct x as [g w]. apply wp_on_callee. cbn [fst snd].
  eapply wp_mono; [by apply wp_on_gas|..]; intros ? w' (Hd & Hs & Hg); eapply running_less; try done; lia.
Qed.

Lemma wp_create_frame caller address value init_code g w1 :
  (1 <= depth w1)%nat -> (steps w1 <= most)%nat ->
  start_idle + 1 + steps_per_gas * left_of w1 <= Z.of_nat (steps w1) ->
  wp (create_frame vicinity config run caller address value init_code)
    (fun _ => returned (gas_left g) w1) (fun _ => returned (gas_left g) w1) (g, w1).
Proof.
  intros Hd Hm Hle. set (G := gas_left g).
  unfold create_frame. cbv zeta. apply wp_bind, wp_map_err, wp_on_callee.
  eapply wp_mono; [apply wp_on_state, handler_transfer_total|..]; cbn [fst snd];
    intros e w Hw; (assert (H1 : running G w1 (g, w));
      [eapply running_same; [|exact Hw]; split_and!; [done|apply settled_start|done]|]).
  2:{ by apply running_returned. }
  apply wp_bind, wp_map_err.
  eapply wp_mono; [by eapply wp_run_callee| |done].
  clear w Hw H1. intros [r out] x Hr. destruct r as [r|e'| |e'].
  - apply wp_bind, wp_map_err.
    eapply wp_mono; [eapply wp_callee_gas; [apply record_deposit_law|lia|exact Hr]|..]; clear x Hr; intros ? [g1 w] Hr;
      [|by apply running_returned].
    apply wp_bind, wp_gets. eapply wp_give_back; [exact Hr|done|..]; [|done]. clear g1 Hr. intros g1 Hr.
    assert (Hd2 : forall w2, returned G w1 (g1, w2) -> (1 <= depth w2)%nat) by (intros w2 [Heq _]; cbn in Heq; lia).
    apply wp_bind, wp_on_callee. cbn [fst snd]. eapply wp_mono; [apply wp_on_state, total_modify|..]; intros ? w2 Hw2;
      (assert (Hr2 : returned G w1 (g1, w2)) by (by eapply returned_same)); [|done].
    apply wp_bind, wp_map_err, wp_on_callee. cbn [fst snd].
    eapply wp_mono; [apply wp_charge; auto|..]; intros ? w3 Hw3;
      (assert (Hr3 : returned G w1 (g1, w3)) by (by eapply returned_same)); [|done].
    apply wp_bind, wp_map_err, wp_on_callee. cbn [fst snd].
    eapply wp_mono; [apply wp_on_state, on_contract_initialization_total|..]; intros ? w4 Hw4;
      by eapply returned_same.
  - apply wp_throw. by apply running_returned.
  - apply wp_throw. by apply running_returned.
  - apply wp_bind. unfold wp, on_caller, modify. cbn. apply running_returned. destruct x as [g1 w].
    destruct Hr as (Hd1 & Hs1 & Hg1). split_and!; [done|done|]. cbn. pose proof (gas_fail_law g1). cbn in *. lia.
Qed.

Lemma wp_call_frame callee_static code_address code transfer input target_gas context g w1 :
  (1 <= depth w1)%nat -> (steps w1 <= most)%nat -> left_of w1 = target_gas ->
  start_idle + 1 + steps_per_gas * gas_left g <= Z.of_nat (steps w1) ->
  let post := fun (_ : ExitReason * bytes) x => depth x.2 = depth w1 /\
    settled 0 (start_idle + 1) (steps w1) (gas_left g) (steps x.2) (gas_left x.1) in
  wp (call_frame config run callee_static code_address code transfer input target_gas context) post post (g, w1).
Proof.
  intros Hd Hm Hl Hle post. unfold call_frame. cbv zeta. pose proof (left_nonneg w1) as Htg. rewrite Hl in Htg.
  assert (Hstay : forall r g' w, same_frame w1 w -> gas_left g' <= gas_left g -> post r (g', w)).
  { intros r g' w (Hd' & Hs' & _) Hg'. split; [done|]. cbn [fst snd]. rewrite Hs'.
    eapply settled_weaken; [|by apply settled_less]. pose proof idle_bounds. lia. }
  apply wp_bind. apply (wp_mono _ (fun _ x => x.1 = g /\ same_frame w1 x.2) _ (fun _ x => x.1 = g /\ same_frame w1 x.2)).
  { destruct transfer as [tr|]; [|by apply wp_ret]. apply wp_map_err, wp_on_callee.
    eapply wp_mono; [apply wp_on_state, handler_transfer_total|..]; done. }
  2:{ intros r [g' w] [Heq Hw]. cbn [fst snd] in *. subst. by apply Hstay. }
  intros [] [g' w] [Heq Hw]. cbn [fst snd] in *. subst g'. apply wp_bind, wp_map_err.
  eapply wp_mono; [by apply wp_on_caller, record_cost_law|..]; intros ? [g1 ?] [Heq Hg1]; cbn [fst snd] in *; subst;
    [|by apply Hstay].
  pose proof (gas_nonneg g1) as Hg0. pose proof per_gas_pos as Hpos. set (G := gas_left g1) in *.
  assert (Hr : running G w1 (g1, w)).
  { eapply running_same; [|exact Hw]. split_and!; [done|apply settled_start|done]. }
  assert (Hback : forall r x, returned G w1 x -> post r x).
  { intros r x [Hdx Hsx]. split; [done|]. destruct Hsx as (Ha & Hb & Hc). unfold settled.
    split_and!; [lia|done|nia]. }
  assert (Hfail : forall r x, running G w1 x -> post r x) by (intros; by apply Hback, running_returned).
  apply wp_bind, wp_on_callee. unfold on_state, on_meters. unfold wp at 1. cbv beta iota zeta. cbn [fst snd].
  set (s' := (precompiles_execute _ _ _ _ _).2).
  pose proof (precompile_cost_law code_address input (Some (left_of w1)) context (base (meters w))) as Hcost.
  set (w2 := mkFrame _ _ _). assert (Hw2 : same_frame w w2) by done. apply (running_same _ _ _ _ _ Hr) in Hw2 as Hr2.
  apply (same_frame_trans _ _ _ Hw) in Hw2. clearbody w2. clear Hr.
  destruct (precompiles_execute _ _ _ _ _).1 as [[[[r out] cost]|e]|].
  - specialize (Hcost _ _ _ eq_refl). apply wp_bind, wp_map_err.
    eapply wp_mono; [eapply wp_callee_gas; [by apply record_cost_law|done|exact Hr2]|..]; intros ? [g3 w3] Hr3;
      [|by apply Hfail].
    apply wp_bind, wp_gets. eapply wp_give_back; [exact Hr3|done|..]; intros; [apply wp_ret|]; by apply Hback.
  - apply wp_throw. by apply Hfail.
  - apply wp_bind, wp_map_err. eapply wp_mono; [eapply wp_run_callee; [exact Hr2|done|done|done|nia]| |done].
    intros [r out] [g3 w3] Hr3. destruct r as [r|e'| |e'].
    + apply wp_bind, wp_gets. eapply wp_give_back; [exact Hr3|done|..]; intros; [apply wp_ret|]; by apply Hback.
    + apply wp_throw. by apply Hfail.
    + apply wp_throw. by apply Hfail.
    + apply wp_bind. unfold wp, on_caller, modify. cbn. apply Hfail.
      destruct Hr3 as (Hd3 & Hs3 & Hg3). split_and!; [done|done|]. cbn. pose proof (gas_fail_law g3). cbn in *. lia.
Qed.

Lemma paid_self w : paid 0 (start_idle + 1) w w.
Proof. eapply paid_weaken; [|by apply same_paid]. pose proof idle_bounds. lia. Qed.

Lemma wp_create is_static caller scheme value init_code target_gas w :
  (forall g, target_gas = Some g -> 0 <= g) -> (1 <= depth w)%nat -> (steps w <= most)%nat ->
  start_idle + 1 + steps_per_gas * left_of w <= Z.of_nat (steps w) ->
  wp (handler_create vicinity config run is_static caller scheme value init_code target_gas)
    (fun _ => paid 0 (start_idle + 1) w) (fun _ _ => False) w.
Proof.
  intros Ht Hd Hm Hle. unfold handler_create. cbv zeta. destruct is_static; [apply wp_ret, paid_self|].
  apply wp_bind, wp_gets, wp_bind, wp_catch. set (after := if call_l64_after_gas config then _ else _).
  assert (Ha : 0 <= after).
  { pose proof (gas_nonneg (gasometer w)). subst after. destruct (call_l64_after_gas config); [|done].
    unfold l64. pose proof (Z.div_le_upper_bound (gas_left (gasometer w)) 64 (gas_left (gasometer w))). lia. }
  set (target := Z.min _ after).
  assert (Htg : 0 <= target) by (subst target; destruct target_gas as [g|]; cbn; [specialize (Ht g eq_refl)|]; lia).
  clearbody target. clear Ht Ha after.
  eapply wp_mono; [by apply wp_on_gas, record_cost_law|..]; intros ? w1 (Hd1 & Hs1 & Hg1).
  2:{ apply wp_ret. apply (paid_weaken 0); [pose proof idle_bounds; lia|]. split; [done|]. rewrite Hs1. by apply settled_less. }
  assert (Hw1 : paid 0 (start_idle + 1) w w1).
  { apply (paid_weaken 0); [pose proof idle_bounds; lia|]. split; [done|]. rewrite Hs1. apply settled_less. lia. }
  apply wp_bind, wp_gets. destruct (create_address _ _) as [address|]; [|by apply wp_ret].
  apply wp_bind. eapply wp_mono; [apply wp_on_state, total_modify| |done]. intros ? w2 (Hd2 & Hs2 & Hg2).
  assert (Hl2 : left_of w2 + target <= left_of w) by (unfold left_of in *; by rewrite Hg2).
  assert (Hdone : forall w', paid target (start_idle + 1) w2 w' -> paid 0 (start_idle + 1) w w').
  { intros w' [Hdp (Hp1 & Hp2 & Hp3)]. split; [congruence|]. pose proof per_gas_pos. unfold settled. split_and!; [lia..|nia]. }
  pose proof idle_bounds. pose proof per_gas_pos. pose proof (left_nonneg w2). apply wp_unwrap_or.
  eapply wp_mono; [apply (wp_sub_transaction _ _ _ target (start_idle + 1)); [done|done|lia|lia|]|..].
  - intros w3 Hd3 Hs3 Hg3. eapply wp_mono; [apply wp_create_frame; [lia|lia|nia]|..];
      intros r x [Hdx Hsx]; rewrite Hs3, Hg3 in *; (split; [congruence|exact Hsx]).
  - intros r w'. apply Hdone.
  - intros r w'. apply Hdone.
Qed.

Lemma wp_call is_static code_address transfer input target_gas static_call context w :
  (forall g, target_gas = Some g -> 0 <= g) -> (1 <= depth w)%nat -> (steps w <= most)%nat ->
  start_idle + 1 + steps_per_gas * left_of w <= Z.of_nat (steps w) ->
  wp (handler_call vicinity config run is_static code_address transfer input target_gas static_call context)
    (fun _ => paid 0 (start_idle + 1) w) (fun _ _ => False) w.
Proof.
  intros Ht Hd Hm Hle. unfold handler_call. cbv zeta. destruct (is_static && _); [apply wp_ret, paid_self|].
  apply wp_bind, wp_gets. set (after := if call_l64_after_gas config then _ else _).
  assert (Ha : 0 <= after).
  { pose proof (gas_nonneg (gasometer w)). subst after. destruct (call_l64_after_gas config); [|done].
    unfold l64. pose proof (Z.div_le_upper_bound (gas_left (gasometer w)) 64 (gas_left (gasometer w))). lia. }
  set (target0 := Z.min _ after).
  assert (Htg : 0 <= target0) by (subst target0; destruct target_gas as [g|]; cbn; [specialize (Ht g eq_refl)|]; lia).
  clearbody target0. clear Ht Ha after. set (target := match transfer with Some _ => _ | None => _ end).
  assert (Htt : 0 <= target).
  { subst target. destruct transfer as [tr|]; [|done]. destruct (_ =? _); [done|]. unfold u64_saturating_add. lia. }
  clearbody target. apply wp_bind, wp_gets, wp_unwrap_or. pose proof idle_bounds.
  eapply wp_mono; [apply (wp_sub_transaction _ _ _ 0 (start_idle + 1)); [done|done|lia|lia|]|done|done].
  intros w3 Hd3 Hs3 Hg3. eapply wp_mono; [apply wp_call_frame; [lia|lia|done|rewrite Hs3; exact Hle]|..];
    intros r x [Hdx Hsx]; rewrite Hs3 in *; (split; [congruence|exact Hsx]).
Qed.

(** Every request is paid by what the interpreter may no longer ask. *)
Lemma wp_answer is_static m q k w : progress m q k -> (1 <= depth w)%nat -> (steps w <= most)%nat ->
  idle m + steps_per_gas * left_of w <= Z.of_nat (steps w) ->
  wp (answer vicinity config run is_static q) (fun a => paid 0 (idle m - idle (k a) - 1) w) (fun _ _ => False) w.
Proof.
  intros Hp Hd Hm Hle.
  assert (Hsame : forall a w', idle (k a) < idle m -> same_frame w w' -> paid 0 (idle m - idle (k a) - 1) w w').
  { intros a w' Hi Hw'. apply (paid_weaken 0); [lia|]. by apply same_paid. }
  destruct q; cbn [answer progress] in *; try (by apply wp_gets, Hsame); try (by apply wp_ret, Hsame).
  - apply wp_catch. eapply wp_mono; [by apply wp_set_storage|..]; intros; by apply Hsame.
  - apply wp_catch. eapply wp_mono; [apply wp_on_state, total_modify|..]; intros; by apply Hsame.
  - apply wp_catch. eapply wp_mono; [by apply wp_mark_delete|..]; intros; by apply Hsame.
  - destruct Hp as [Hg Hk]. pose proof (idle_nonneg (k (ExitError 0, None, []))). pose proof (Hk (ExitError 0, None, [])).
    eapply wp_mono; [apply wp_create; [done|done|done|lia]| |done].
    intros a w'. apply paid_weaken. specialize (Hk a). lia.
  - destruct Hp as [Hg Hk]. pose proof (idle_nonneg (k (ExitError 0, []))). pose proof (Hk (ExitError 0, [])).
    eapply wp_mono; [apply wp_call; [done|done|done|lia]| |done].
    intros a w'. apply paid_weaken. specialize (Hk a). lia.
  - destruct Hp as [He Hk]. apply wp_catch.
    assert (Hless : forall a w', depth w' = depth w -> steps w' = steps w -> left_of w' <= left_of w ->
      idle (k a) < idle m -> paid 0 (idle m - idle (k a) - 1) w w').
    { intros a w' Hd' Hs' Hg' Hi. apply (paid_weaken 0); [lia|]. split; [done|]. rewrite Hs'. by apply settled_less. }
    assert (Hpay : forall f, spends f 0 -> (charging opcode = true -> spends f 1) ->
      wp (on_gas f) (fun a => paid 0 (idle m - idle (k (inl a)) - 1) w) (fun e => paid 0 (idle m - idle (k (inr e)) - 1) w) w).
    { intros f Hf0 Hf1. destruct Hk as [Hk|[Hc Hk]].
      - eapply wp_mono; [by apply wp_on_gas|..]; [intros []|intros e]; intros w' (Hd' & Hs' & Hg'); apply Hless; try done; lia.
      - eapply wp_mono; [apply wp_on_gas, Hf1, Hc|..]; [intros []|intros e]; intros w' (Hd' & Hs' & Hg').
        + split; [done|]. rewrite Hs'. pose proof per_gas_pos. pose proof (idle_nonneg m). unfold settled, steps_per_gas in *.
          split_and!; [lia|done|nia].
        + by apply Hless. }
    unfold pre_validate. destruct (static_opcode_cost opcode) as [cost|] eqn:Hcost.
    + pose proof (static_cost_law _ _ Hcost) as Hc0. apply Hpay.
      * intros g. eapply wp_mono; [by apply record_cost_law|..]; cbn; intros; lia.
      * intros Hc g. pose proof (charging_static _ _ Hc Hcost). eapply wp_mono; [by apply record_cost_law|..]; cbn; intros; lia.
    + apply wp_bind, wp_gets.
      destruct (dynamic_opcode_cost _ _ _ _ _ _ _) as [[gc mc]|e] eqn:Hdyn; [|apply wp_throw, Hless; done || apply He].
      apply Hpay; [apply record_dynamic_law|]. intros Hc. by eapply charging_dynamic.
Qed.
End Open.

(** The induction on the steps *)
Lemma run_frame_pays fuel : run_pays (run_frame vicinity config fuel) fuel.
Proof.
  induction fuel as [|fuel IH]; intros is_static m w Hd Hm Hle; pose proof (idle_nonneg m) as Hi;
    pose proof per_gas_pos as Hpos; pose proof (left_nonneg w) as Hw; cbn [run_frame]; [lia|].
  destruct w as [g [|n] ms]; unfold left_of in *; cbn [steps gasometer] in *; [nia|].
  set (w1 := mkFrame g n ms). assert (Ht : paid 0 1 (mkFrame g (S n) ms) w1).
  { split; [done|]. unfold settled, left_of. cbn [steps gasometer w1]. rewrite !Z.add_0_r. split_and!; lia. }
  apply wp_bind. change (wp (match runtime_step m with inl r => mret r | inr (existT q k) =>
    a ← answer vicinity config (run_frame vicinity config fuel) is_static q;
    run_frame vicinity config fuel is_static (k a) end) (fun _ => paid 0 (idle m + 1) (mkFrame g (S n) ms)) (fun _ _ => False) w1).
  destruct (runtime_step m) as [r|[q k]] eqn:Hst.
  { apply wp_ret. eapply paid_weaken; [|exact Ht]. lia. }
  apply wp_bind. eapply wp_mono; [apply (wp_answer _ fuel IH _ m q k); [by apply runtime_step_progress|done|cbn; lia|..]| |done].
  { unfold left_of. cbn [steps gasometer w1]. lia. }
  intros a w2 Hp. destruct Hp as [Hd2 Hs2] eqn:Heq. clear Heq. destruct Hs2 as (Hg2 & Hn2 & Hs2). unfold left_of in *.
  cbn [steps gasometer w1] in *.
  eapply wp_mono; [apply IH; [unfold depth in *; cbn in *; lia|lia|unfold left_of; nia]| |done].
  intros r w3 Hw3. pose proof (frame_paid_trans _ _ _ _ _ _ _ (frame_paid_trans _ _ _ _ _ _ _ Ht Hp) Hw3) as Hall.
  eapply paid_weaken; [|exact Hall]. lia.
Qed.

(** *** The first frame *)
Definition enough (n : nat) (gas_limit : Z) : Prop := start_idle + 1 + steps_per_gas * gas_limit <= Z.of_nat n.

Lemma wp_first n caller address value code input w : (1 <= depth w)%nat -> steps w = n -> enough n (left_of w) ->
  wp (execute_first vicinity config n caller address value code input) (fun _ w' => depth w' = depth w) (fun _ _ => False) w.
Proof.
  intros Hd <- Hn. eapply wp_mono; [apply (wp_execute _ (steps w)); [apply run_frame_pays|done|done|exact Hn]| |done].
  by intros r w' [].
Qed.

Lemma transaction_total {R} n gas_limit storage_limit contract (f : M R Frame R) : 0 <= gas_limit ->
  (forall w, depth w = 1%nat -> steps w = n -> left_of w = gas_limit ->
     wp f (fun _ w' => depth w' = 1%nat) (fun _ _ => True) w) ->
  total (handler_transaction vicinity config n gas_limit storage_limit contract f).
Proof.
  intros Hg Hf s. unfold handler_transaction, run_transaction, meter_new, meter_reserve_storage.
  cbn [stack]. unfold mbind, M_bind, on_base, modify. cbn [base stack].
  assert (Hres : (reserve_storage (StorageMeterHandler := hdl) storage_limit s).1 <> Panic) by apply impl_reserve_total.
  destruct (reserve_storage storage_limit s) as [[[]|e|] s1]; cbn [fst snd] in *; [|done|done].
  set (w := mkFrame _ _ _). specialize (Hf w eq_refl eq_refl (gas_new_left _ _ Hg)). unfold wp in Hf.
  destruct (f w) as [[r|r|] [g n' [ms s2]]]; cbn [meters fst snd] in *; [|done|done].
  destruct ms as [|m ms]; [done|]. pose proof (finish_total m ms s2) as Hfin. unfold wp in Hfin.
  destruct (finish (mkMeters (m :: ms) s2)) as [[[]|e|] ms']; done.
Qed.
Lemma flatten_total {S A} (m : M DispatchError S (A + DispatchError)) : total m -> total (flatten m).
Proof. intros Hm. apply total_bind; [done|]. intros [a|e]; auto with total. Qed.

(** What the two closures start with *)
Lemma wp_begin {E} (f : DispatchError -> E) a b v w (Q : unit -> Frame -> Prop) (R : E -> Frame -> Prop) :
  (forall w', same_frame w w' -> Q tt w') -> (forall e w', R e w') ->
  wp (map_err f (on_state (runner_transfer a b v))) Q R w.
Proof.
  intros HQ HR. apply wp_map_err. eapply wp_mono; [apply wp_on_state, runner_transfer_total|..]; [intros []; apply HQ|].
  intros. apply HR.
Qed.
Lemma wp_spend {E} (f : ExitErr -> E) g least w (Q : unit -> Frame -> Prop) (R : E -> Frame -> Prop) : spends g least -> 0 <= least ->
  (forall w', depth w' = depth w -> steps w' = steps w -> left_of w' <= left_of w -> Q tt w') -> (forall e w', R e w') ->
  wp (map_err f (on_gas g)) Q R w.
Proof.
  intros Hg Hl HQ HR. apply wp_map_err. eapply wp_mono; [by apply wp_on_gas|..]; [|intros; apply HR].
  intros [] w' (Hd & Hs & Hw). apply HQ; [done|done|lia].
Qed.
Lemma enough_less n g g' : g' <= g -> enough n g -> enough n g'.
Proof. unfold enough. pose proof per_gas_pos. nia. Qed.
End Bound.

Section Ends.
Context `{EvmMachine} {Laws : GasLaws} (config : EvmSettings) (n : nat) (gas_limit storage_limit : Z).
Context (Hstipend : 0 <= call_stipend config) (Hgas : 0 <= gas_limit) (Hn : enough n gas_limit).

Lemma runner_call_total sender origin target input value :
  total (runner_call n sender origin target input value gas_limit storage_limit config).
Proof.
  unfold runner_call. cbv zeta. do 3 (apply total_bind; [auto with total|intros ?]).
  apply flatten_total, transaction_total; [done|]. intros w Hd Hs Hl.
  apply wp_bind, wp_begin; [|done]. intros w1 (Hd1 & Hs1 & Hg1).
  apply wp_bind, wp_gets, wp_bind. eapply wp_spend; [apply record_transaction_law|lia| |done].
  intros w2 Hd2 Hs2 Hl2. assert (Hl1 : left_of w1 = left_of w) by (unfold left_of; by rewrite Hg1).
  apply wp_bind, wp_map_err. eapply wp_mono; [eapply wp_first; [done|lia|lia|]| |done].
  { eapply enough_less; [|exact Hn]. lia. }
  intros [r out] w3 Hd3. apply wp_bind, wp_gets, wp_bind, wp_gets. destruct (negb _); [done|]. apply wp_ret. lia.
Qed.

Lemma inner_create_total source init value assigned salt :
  total (inner_create n source init value gas_limit storage_limit assigned salt config).
Proof.
  unfold inner_create. cbv zeta. apply total_bind; [auto with total|intros created].
  apply total_bind; [destruct assigned; auto with total|intros address].
  apply total_bind; [auto with total|intros ?].
  apply flatten_total, transaction_total; [done|]. intros w Hd Hs Hl.
  apply wp_bind, wp_begin; [|done]. intros w1 (Hd1 & Hs1 & Hg1).
  apply wp_bind. eapply wp_spend; [apply record_transaction_law|lia| |done].
  intros w2 Hd2 Hs2 Hl2. assert (Hl1 : left_of w1 = left_of w) by (unfold left_of; by rewrite Hg1).
  apply wp_bind, wp_map_err. eapply wp_mono; [eapply wp_first; [done|lia|lia|]| |done].
  { eapply enough_less; [|exact Hn]. lia. }
  intros [r out] w3 Hd3. apply wp_bind, wp_gets, wp_bind, wp_gets. destruct (negb _); [done|].
  apply wp_bind. eapply wp_spend; [apply record_deposit_law|lia| |done]. intros w4 Hd4 Hs4 Hl4.
  apply wp_bind, wp_gets, wp_bind. eapply wp_mono; [apply wp_on_state, total_modify| |done]. intros ? w5 (Hd5 & _).
  apply wp_bind, wp_map_err. eapply wp_mono; [apply wp_charge; lia| |done]. intros ? w6 (Hd6 & _).
  apply wp_bind, wp_gets, wp_bind, wp_map_err.
  eapply wp_mono; [apply wp_on_state, on_contract_initialization_total| |done]. intros ? w7 (Hd7 & _).
  apply wp_ret. lia.
Qed.
End Ends.

(** C14: the gas that was paid for ends the execution.  Whatever code a call or a
    creation runs, however often it calls and creates contracts in turn, its
    frames take at most a fixed number of steps for each unit of the gas limit:
    with that many steps the run is never cut off, and it returns a value or an
    error in every state. *)
Theorem gas_ends_execution `{EvmMachine} {Laws : GasLaws} (config : EvmSettings) (n : nat) (gas_limit storage_limit : Z)
    (Hstipend : 0 <= call_stipend config) (Hgas : 0 <= gas_limit) (Hn : enough n gas_limit) s :
  (forall sender origin target input value,
     (runner_call n sender origin target input value gas_limit storage_limit config s).1 <> Panic) /\
  (forall source init value assigned salt,
     (inner_create n source init value gas_limit storage_limit assigned salt config s).1 <> Panic).
Proof. split; intros; [by apply runner_call_total|by apply inner_create_total]. Qed.
