(* ===== verification/EvmCalls.v ===== *)
(** * What the calls of the EVM pallet promise

    To who creates a contract or replaces its code, and to the pallets that call
    contracts through the class [EVM] of [EvmBridge.v]. *)
From S2P Require Import Prelude Primitives Runtime Bytes EvmBridge EvmManager EvmAccounts StorageMeter Evm EvmRunner EvmFrames EvmMoves EvmSpecs EvmHistories EvmCodes.

(** ** Finishing a transaction, whatever the meters are *)
Section Finish.
Context `{EvmMachine} (hdl : StorageMeterHandler EvmState) (I : EvmState -> Prop).
Context (Hcharge : forall a u r s s', charge_storage (StorageMeterHandler := hdl) a u r s = (Ok tt, s') -> I s -> I s').
Context (Hunreserve : forall l u r s s', unreserve_storage (StorageMeterHandler := hdl) l u r s = (Ok tt, s') -> I s -> I s').

Lemma charge_chain_base ms a u r : forall (s : EvmState) x,
  charge_chain ms a u r s = (Ok tt, x) -> charge_storage a u r s = (Ok tt, x.2).
Proof.
  induction ms as [|m ms IH]; intros s x; cbn [charge_chain].
  - destruct (charge_storage a u r s) as [o t]. by intros [= -> <-].
  - destruct (sm_result m); [done|]. destruct (charge_chain ms a u r s) as [o t] eqn:Hc. intros [= -> <-].
    by apply IH in Hc.
Qed.
Lemma finish_keeps (w : Meters EvmState) : I (base w) -> wlp finish (fun _ w' => I (base w')) (fun _ _ => True) w.
Proof.
  intros Hs. unfold wlp, finish. destruct (stack w) as [|m ms]; [done|].
  destruct (sm_result m); [done|]. destruct (sm_limit m <? _); [done|].
  unfold mbind, M_bind, meter_charge_storage. cbn [stack base].
  destruct (charge_chain ms _ _ _ (base w)) as [[[]|e|] x] eqn:Hc; cbn [fst snd]; [|done|done].
  apply charge_chain_base, Hcharge in Hc; [|exact Hs]. unfold meter_unreserve_storage. cbn [stack base].
  destruct x as [[|m' ms'] s']; cbn [fst snd] in *; [|exact Hc]. unfold on_base. cbn [base].
  destruct (unreserve_storage _ _ _ s') as [[[]|e|] s2] eqn:Hu; cbn; [|done|done]. by eapply Hunreserve.
Qed.
End Finish.

Section Transaction.
Context `{EvmMachine} (vicinity : Vicinity) (config : EvmSettings) {R : Type} (Q : R -> EvmState -> Prop).
Context (Hcharge : forall x a u r s s', impl_charge_storage (vi_origin vicinity) a u r s = (Ok tt, s') -> Q x s -> Q x s').
Context (Hunreserve : forall x l u r s s', impl_unreserve_storage (vi_origin vicinity) l u r s = (Ok tt, s') -> Q x s -> Q x s').

(** The first frame of a transaction *)
Definition first_frame n gas_limit storage_limit contract s : Frame :=
  mkFrame (gas_new gas_limit config) n (mkMeters [mkMeter contract storage_limit 0 0 0 0 None] s).

(** What a committed closure has established is there after the transaction. *)
Lemma wlp_transaction_ends (T : R -> Prop) n gas_limit storage_limit contract (f : M R Frame R) s :
  (forall s1, impl_reserve_storage (vi_origin vicinity) storage_limit s = (Ok tt, s1) ->
     wlp f (fun r w' => T r -> Q r (state_of w')) (fun r _ => ~ T r)
       (first_frame n gas_limit storage_limit contract s1)) ->
  wlp (handler_transaction vicinity config n gas_limit storage_limit contract f) (fun r s' => T r -> Q r s') (fun _ _ => True) s.
Proof.
  intros Hf. unfold wlp at 1, handler_transaction, run_transaction, meter_new, meter_reserve_storage.
  cbn [stack]. unfold mbind, M_bind, on_base, modify. cbn [base stack].
  destruct (reserve_storage storage_limit s) as [[[]|e|] s1] eqn:Hres; cbn [fst snd]; [|done|done].
  specialize (Hf s1 Hres). fold (first_frame n gas_limit storage_limit contract s1). unfold wlp in Hf.
  destruct (f _) as [[r|r|] w]; [|by intros HT|done].
  destruct (finish (meters w)) as [[[]|e|] ms'] eqn:Hfin; [|done|done]. intros HT.
  pose proof (finish_keeps (vicinity_handler vicinity) (Q r) (Hcharge r) (Hunreserve r) (meters w) (Hf HT)) as Hk.
  unfold wlp in Hk. by rewrite Hfin in Hk.
Qed.
End Transaction.

(** ** Contracts that are created *)
Section Creation.
Context `{EvmMachine} {Laws : EvmChainLaws}.

Definition installed (a : EvmAddress) (info : ContractInfo) (s : EvmState) : Prop :=
  contract_at a s = Some info /\ 1 <= held (acct a) (chain s).

Lemma installed_same a info s c : (forall who, held who c = held who (chain s)) ->
  installed a info s -> installed a info (set_chain c s).
Proof. intros Hc [Ha Hh]. split; [done|]. cbn. by rewrite Hc. Qed.
Lemma installed_transfer a info x y v s u s' : program a -> installed a info s ->
  on_chain_reaping (c_transfer x y v) s = (Ok u, s') -> installed a info s'.
Proof.
  intros Hp [Ha Hh] (c & killed & Hc & ->)%reaping_Ok. destruct (transfer_law _ _ _ _ _ _ Hc) as [Hs Hk].
  destruct (reap_after killed c s) as [_ Hr]. split.
  - unfold contract_at. rewrite reap_other; [exact Ha|exact Hp|exact Hk|]. cbn. by rewrite (proj2 (Hs (acct a))).
  - by rewrite (proj2 (Hr (acct a))), (proj2 (Hs (acct a))).
Qed.
Lemma installed_charge a info origin b u r s s' : program a ->
  impl_charge_storage origin b u r s = (Ok tt, s') -> installed a info s -> installed a info s'.
Proof.
  unfold impl_charge_storage. intros Hp Hc Hs. destruct (u =? r); [by injection Hc as <-|].
  apply bind_Ok_inv in Hc as (user & t & [-> ->]%gets_Ok & Hc).
  apply bind_Ok_inv in Hc as (con & t & [-> ->]%gets_Ok & Hc). destruct (r <? u).
  - apply bind_Ok_inv in Hc as ([] & s1 & (c1 & [= <-] & ->)%on_chain_Ok & Hc).
    apply bind_Ok_inv in Hc as ([] & s2 & Ht & Hc). apply on_chain_Ok in Hc as (c3 & Hc3 & ->).
    apply installed_same; [intros x; apply (reserve_law _ _ _ _ Hc3)|].
    eapply installed_transfer; [done| |exact Ht]. apply installed_same; [|done].
    intros x. by destruct (unreserve_law (account_of origin s)
      (U128.saturating_mul StorageDepositPerByte (u - r)) (chain s) x) as [_ ?].
  - apply on_chain_Ok in Hc as (c1 & Hc1 & ->).
    destruct (c_repatriate_reserved_named _ _ _ _ _ _) as [[rest c2]|] eqn:Hrep; [|done]. injection Hc1 as ->.
    apply installed_same; [|done]. intros x. apply (repatriate_law _ _ _ _ _ _ _ Hrep).
Qed.
Lemma installed_unreserve a info origin l u r s s' :
  impl_unreserve_storage origin l u r s = (Ok tt, s') -> installed a info s -> installed a info s'.
Proof.
  unfold impl_unreserve_storage. intros Hr Hs. destruct (_ =? 0); [by injection Hr as <-|].
  apply bind_Ok_inv in Hr as (user & t & [-> ->]%gets_Ok & (c & [= <-] & ->)%on_chain_Ok).
  apply installed_same; [|done]. intros x. by destruct (unreserve_law (account_of origin s)
    (U128.saturating_mul StorageDepositPerByte (U32.saturating_sub (U32.saturating_add l r) u)) (chain s) x) as [_ ?].
Qed.
Lemma installed_init a m code s s' : program a -> on_contract_initialization a m code s = (Ok tt, s') ->
  installed a (mkContractInfo (keccak256 code) m with_ethereum_compatibility) s'.
Proof.
  intros Hp [_ ->]%on_contract_initialization_Ok. split.
  - unfold contract_at. cbn [Accounts set_chain set_accounts]. by rewrite lookup_insert_eq.
  - cbn [chain set_chain]. destruct (inc_providers_law (account_of a s) (chain s) (acct a)) as [_ ->].
    unfold account_of. rewrite program_account, decide_True by done. pose proof (held_nonneg (acct a) (chain s)). lia.
Qed.

(** *** The constructor

    It runs on what the source has left once the limit of storage is reserved and
    the value is moved. *)
Definition constructor_returned (n : nat) (source address : EvmAddress) (init : bytes) (value : Balance)
    (gas_limit storage_limit : Z) (config : EvmSettings) (s : EvmState) (reason : ExitReason) (out : bytes) : Prop :=
  exists s1 s2 g w,
    impl_reserve_storage source storage_limit (inc_nonce source s) = (Ok tt, s1) /\
    runner_transfer source address value s1 = (Ok tt, s2) /\
    record_transaction (call_transaction_cost init) (gas_new gas_limit config) = (Ok tt, g) /\
    execute_first (mkVicinity 1 source) config n source address value init []
      (mkFrame g n (mkMeters [mkMeter address storage_limit 0 0 0 0 None] s2)) = (Ok (reason, out), w).

(** Of a result that counts as a creation *)
Definition creates (r : CreateInfo + DispatchError) : Prop :=
  match r with inl info => is_succeed (cr_exit_reason info) = true | inr _ => False end.

Definition created_by (source address : EvmAddress) (returned : ExitReason -> bytes -> Prop)
    (r : CreateInfo + DispatchError) (s : EvmState) : Prop :=
  match r with
  | inl info => cr_address info = address /\
      exists code, returned (cr_exit_reason info) code /\ len code <= MaxCodeSize /\
        installed address (mkContractInfo (keccak256 code) source with_ethereum_compatibility) s
  | inr _ => False
  end.
Lemma created_by_keeps source address returned r s s' :
  (forall info, installed address info s -> installed address info s') ->
  created_by source address returned r s -> created_by source address returned r s'.
Proof.
  intros Hk. destruct r as [info|e]; [|done]. intros (Ha & code & Hr & Hl & Hi). split; [done|].
  exists code. split_and!; [done..|by apply Hk].
Qed.

Section Constructor.
Context (n : nat) (source : EvmAddress) (init : bytes) (value : Balance) (gas_limit storage_limit : Z).
Context (config : EvmSettings).
Abbreviation constructed address := (constructor_returned n source address init value gas_limit storage_limit config).

Lemma inner_create_installs assigned salt s :
  (forall a, assigned = Some a -> program a) ->
  wlp (inner_create n source init value gas_limit storage_limit assigned salt config)
    (fun info s' => is_succeed (cr_exit_reason info) = true ->
       match assigned with
       | Some a => cr_address info = a
       | None => create_address match salt with Some x => Create2 source (keccak256 init) x | None => Legacy source end s
                   = Some (cr_address info)
       end /\ created_by source (cr_address info) (constructed (cr_address info) s) (inl info) s')
    (fun _ _ => True) s.
Proof.
  intros Has. unfold inner_create. cbv zeta. apply wlp_bind, wlp_gets, wlp_bind.
  set (scheme := match salt with Some _ => _ | None => _ end).
  apply (wlp_mono _ (fun address t => t = s /\ program address /\
    match assigned with Some a => address = a | None => create_address scheme s = Some address end) _ (fun _ _ => True));
    [| |done].
  { destruct assigned as [a|]; [split_and!; [done|by apply Has|done]|].
    destruct (create_address scheme s) as [address|] eqn:Ha; [|done]. split_and!; [done| |done].
    eapply derived_program; [|exact Ha]. by destruct salt. }
  intros address ? (-> & Hp & Haddr). apply wlp_bind, wlp_modify. unfold flatten. apply wlp_bind.
  eapply wlp_mono; [apply (wlp_transaction_ends _ _ (created_by source address (constructed address s)))|..].
  - intros x a u r t t' Hc. apply created_by_keeps. intros info. by eapply installed_charge.
  - intros x l u r t t' Hc. apply created_by_keeps. intros info. by eapply installed_unreserve.
  - intros s1 Hres. instantiate (1 := creates).
    apply wlp_bind, wlp_map_err, wlp_on_state, wlp_run; [intros [] s2 Ht|intros ? ? _ Hc; by cbn in Hc].
    apply wlp_bind, wlp_map_err. unfold wlp at 1, on_gas. cbn [gasometer first_frame steps meters stack].
    destruct (record_transaction _ _) as [[[]|e|] g] eqn:Hg; cbn [fst snd]; [|intros Hc; by cbn in Hc|done].
    apply wlp_bind, wlp_map_err, wlp_run; [intros [reason out] w Hexec|by intros []].
    apply wlp_bind, wlp_gets, wlp_bind, wlp_gets. destruct (is_succeed reason) eqn:Hr; [|apply wlp_throw; cbn; congruence].
    apply wlp_bind, wlp_map_err. eapply wlp_mono; [apply wlp_true|intros [] ? _|intros ? ? _ Hc; by cbn in Hc].
    apply wlp_bind, wlp_gets, wlp_bind, wlp_on_state, wlp_modify.
    apply wlp_bind, wlp_map_err. eapply wlp_mono; [apply wlp_true|intros [] w1 _|intros ? ? _ Hc; by cbn in Hc].
    apply wlp_bind, wlp_gets, wlp_bind, wlp_map_err, wlp_on_state, wlp_run; [|intros ? ? _ Hc; by cbn in Hc].
    intros [] st Hst. apply wlp_ret. intros _. split; [done|]. exists out. split; [|split].
    + by exists s1, s2, g, w.
    + by apply on_contract_initialization_Ok in Hst as [? _].
    + by eapply installed_init.
  - intros r t Hr. destruct r as [info|e]; [|done]. apply wlp_ret. intros Hok.
    destruct (Hr Hok) as [Heq Hi]. split; [by rewrite Heq|]. rewrite Heq. by split.
  - done.
Qed.
End Constructor.

End Creation.

(** ** Replacing the code of a contract *)
Section SetCode.
Context `{EvmMachine} {Laws : EvmChainLaws} (n : nat).

(** Who may set the code of a contract, and the address they do it from *)
Definition may_set_code (origin : Origin) (info : ContractInfo) (source : EvmAddress) (s : EvmState) : Prop :=
  match origin with
  | Root => source = NetworkContractSource
  | Signed who => get_evm_address who (chain s) = Some source /\ maintainer info = source /\ deployed info = false
  | _ => False
  end.
Abbreviation creation source contract code :=
  (create_at_address n source code 0 contract 2100000 100000 ACALA_CONFIG).

(** Why [set_code] fails *)
Inductive set_code_fails (origin : Origin) (contract : EvmAddress) (code : bytes) (s : EvmState) : DispatchError -> Prop :=
  | fails_origin : origin <> Root -> (forall who, origin <> Signed who) ->
      set_code_fails origin contract code s BadOrigin
  | fails_no_contract : contract_at contract s = None ->
      set_code_fails origin contract code s (EvmE EvmError.ContractNotFound)
  | fails_not_mapped who : origin = Signed who -> get_evm_address who (chain s) = None ->
      set_code_fails origin contract code s (EvmE EvmError.AddressNotMapped)
  | fails_no_permission who source info : origin = Signed who -> get_evm_address who (chain s) = Some source ->
      contract_at contract s = Some info -> maintainer info <> source ->
      set_code_fails origin contract code s (EvmE EvmError.NoPermission)
  | fails_deployed who info : origin = Signed who -> contract_at contract s = Some info -> deployed info = true ->
      set_code_fails origin contract code s (EvmE EvmError.ContractAlreadyDeployed)
  | fails_size : MaxCodeSize < len code mod 2 ^ 32 ->
      set_code_fails origin contract code s (EvmE EvmError.ContractExceedsMaxCodeSize)
  | fails_creation info source e s1 : contract_at contract s = Some info -> may_set_code origin info source s ->
      creation source contract code s = (Err e, s1) -> set_code_fails origin contract code s e.

(** What [set_code] of another code does: it creates a contract of what the code
    returns, and puts the account back *)
Definition code_set_back (source contract : EvmAddress) (code : bytes) (account : AccountInfo) (s s' : EvmState) : Prop :=
  exists info s1, creation source contract code s = (Ok info, s1) /\
    s' = set_accounts (<[contract := account]> (Accounts s1)) s1 /\
    (program contract -> is_succeed (cr_exit_reason info) = true -> exists out,
       constructor_returned n source contract code 0 2100000 100000 ACALA_CONFIG s (cr_exit_reason info) out /\
       contract_at contract s1 = Some (mkContractInfo (keccak256 out) source with_ethereum_compatibility)).

Lemma set_accounts_id (s : EvmState) : set_accounts (Accounts s) s = s.
Proof. by destruct s. Qed.
Lemma write_back_id contract account s : Accounts s !! contract = Some account ->
  set_accounts (<[contract := account]> (Accounts s)) s = s.
Proof. intros Ha. by rewrite insert_id, set_accounts_id. Qed.

Lemma creation_installs source contract code s info s1 : creation source contract code s = (Ok info, s1) ->
  program contract -> is_succeed (cr_exit_reason info) = true -> exists out,
    constructor_returned n source contract code 0 2100000 100000 ACALA_CONFIG s (cr_exit_reason info) out /\
    contract_at contract s1 = Some (mkContractInfo (keccak256 out) source with_ethereum_compatibility).
Proof.
  intros Hc Hp Hok.
  pose proof (inner_create_installs n source code 0 2100000 100000 ACALA_CONFIG (Some contract) None s
    ltac:(by intros a [= <-])) as Hi.
  unfold wlp in Hi. unfold create_at_address in Hc. rewrite Hc in Hi.
  destruct (Hi Hok) as (Ha & _ & out & Hr & _ & Hi' & _). rewrite Ha in *. by exists out.
Qed.

(** The check of the code, once it is known who sets it *)
Definition set_checked (source contract : EvmAddress) (info : ContractInfo) (code : bytes) : M DispatchError EvmState unit :=
  if keccak256 code =? code_hash info then mret tt
  else
    ensure (len code mod 2 ^ 32 <=? MaxCodeSize) (EvmE EvmError.ContractExceedsMaxCodeSize);;
    creation source contract code;;
    mret tt.
Definition set_or_fails origin contract code account info source s
    (r : outcome DispatchError unit * EvmState) : Prop :=
  match r.1 with
  | Ok _ => let s' := set_accounts (partial_alter (fun _ => Some account) contract (Accounts r.2)) r.2 in
      (keccak256 code = code_hash info /\ s' = s) \/
      (keccak256 code <> code_hash info /\ len code mod 2 ^ 32 <= MaxCodeSize /\
       code_set_back source contract code account s s')
  | Err e => set_code_fails origin contract code s e
  | Panic => exists s1, creation source contract code s = (Panic, s1)
  end.
Lemma set_checked_spec origin contract code account info source s :
  Accounts s !! contract = Some account -> contract_info account = Some info -> may_set_code origin info source s ->
  set_or_fails origin contract code account info source s (set_checked source contract info code s).
Proof.
  intros Ha Hi Hm. assert (Hc : contract_at contract s = Some info) by (unfold contract_at; by rewrite Ha).
  unfold set_checked. destruct (Z.eqb_spec (keccak256 code) (code_hash info)) as [He|Hne].
  { left. split; [done|]. by apply write_back_id. }
  unfold ensure. destruct (Z.leb_spec (len code mod 2 ^ 32) MaxCodeSize) as [Hl|Hl]; cbn; [|by apply fails_size].
  unfold mbind, M_bind. cbn.
  destruct (creation source contract code s) as [[cinfo|e|] s1] eqn:Hcr; cbn.
  - right. split; [done|]. split; [done|]. exists cinfo, s1. split; [done|]. split; [done|].
    by apply creation_installs.
  - by eapply fails_creation.
  - by exists s1.
Qed.

Definition set_code_ends origin contract code s (r : outcome DispatchError unit * EvmState) : Prop :=
  match r with
  | (Ok _, t) => exists account info source,
      Accounts s !! contract = Some account /\ contract_info account = Some info /\ may_set_code origin info source s /\
      ((keccak256 code = code_hash info /\ t = s) \/
       (keccak256 code <> code_hash info /\ len code mod 2 ^ 32 <= MaxCodeSize /\
        code_set_back source contract code account s t))
  | (Err e, _) => set_code_fails origin contract code s e
  | (Panic, _) => exists source s1, creation source contract code s = (Panic, s1)
  end.
Lemma set_checked_ends origin contract code account info source s :
  Accounts s !! contract = Some account -> contract_info account = Some info -> may_set_code origin info source s ->
  let r := set_checked source contract info code s in
  set_code_ends origin contract code s
    (r.1, set_accounts (partial_alter (fun _ => Some account) contract (Accounts r.2)) r.2).
Proof.
  intros Ha Hi Hm. pose proof (set_checked_spec origin contract code account info source s Ha Hi Hm) as Hs.
  unfold set_or_fails in Hs. cbv zeta.
  destruct (set_checked source contract info code s) as [[[]|e|] t]; cbn [fst snd set_code_ends] in *; [|done|].
  - by exists account, info, source.
  - destruct Hs as [s1 Hs]. by exists source, s1.
Qed.
Lemma do_set_code_spec origin who contract code s :
  match origin with Root => who = inl tt | Signed w => who = inr w | _ => False end ->
  set_code_ends origin contract code s (do_set_code n who contract code s).
Proof.
  intros Hw. unfold do_set_code, accounts_mutate.
  destruct (Accounts s !! contract) as [account|] eqn:Ha.
  2:{ apply fails_no_contract. unfold contract_at. by rewrite Ha. }
  destruct (contract_info account) as [info|] eqn:Hi.
  2:{ unfold mbind, M_bind, ok_or, mret, M_ret. cbv beta iota. rewrite Hi. apply fails_no_contract. unfold contract_at. by rewrite Ha. }
  assert (Hc : contract_at contract s = Some info) by (unfold contract_at; by rewrite Ha).
  pose proof (fun source => set_checked_ends origin contract code account info source s Ha Hi) as Hend.
  unfold set_checked, mbind, M_bind, ok_or, mret, M_ret in *. cbv beta iota. rewrite Hi. cbv beta iota.
  destruct origin as [|w|]; [..|done]; subst who; unfold ensure, gets, mret, M_ret in *; cbv beta iota.
  - by apply (Hend NetworkContractSource).
  - destruct (get_evm_address w (chain s)) as [source|] eqn:He; [|by eapply fails_not_mapped].
    destruct (N.eqb_spec (maintainer info) source) as [Hm|Hm]; [|by eapply fails_no_permission].
    destruct (deployed info) eqn:Hd; [by eapply fails_deployed|]. by apply (Hend source).
Qed.

End SetCode.

(** ** The pallet as the EVM of other pallets *)
Section Trait.
Context `{EvmMachine} (n : nat) (usize : Z).

#[export] Instance evm_pallet : EVM := {
  EvmSt := EvmState;
  evm_execute context input value gas_limit storage_limit mode :=
    evm_trait_execute n context input value gas_limit storage_limit mode;
  evm_get_origin := get_origin;
  evm_set_origin := set_origin;
  usize_max := usize }.

(** An interpreter returns bytes, as many as memory holds. *)
Definition output_fits (out : bytes) : Prop := Forall is_u8 out /\ len out <= usize.
Class OutputLaws : Prop := {
  usize_range : U32_MAX <= usize < 2 ^ 64;
  runtime_output m r out : runtime_step m = inl (r, out) -> output_fits out }.
Context {Fits : OutputLaws}.

Lemma output_fits_nil : output_fits [].
Proof. split; [done|]. change (len []) with 0. destruct usize_range as [Hr _]. unfold U32_MAX in Hr. lia. Qed.

Section Frame.
Context (vicinity : Vicinity) (config : EvmSettings).
Lemma run_frame_output fuel : forall is_static m w,
  wlp (run_frame vicinity config fuel is_static m) (fun r _ => output_fits r.2) (fun _ _ => True) w.
Proof.
  induction fuel as [|fuel IH]; intros is_static m w; cbn [run_frame]; [done|].
  apply wlp_bind. eapply wlp_mono; [apply wlp_true|intros [] ? _|done].
  destruct (runtime_step m) as [[r out]|[q k]] eqn:Hst; [apply wlp_ret; by eapply runtime_output|].
  apply wlp_bind. eapply wlp_mono; [apply wlp_true|intros a ? _|done]. apply IH.
Qed.
Lemma execute_first_output fuel caller address value code input w :
  wlp (execute_first vicinity config fuel caller address value code input) (fun r _ => output_fits r.2) (fun _ _ => True) w.
Proof.
  unfold execute_first, handler_execute. apply wlp_bind. eapply wlp_mono; [apply run_frame_output| |done].
  intros [r out] ? Hr. destruct r; [exact Hr|apply output_fits_nil|exact Hr|].
  apply wlp_bind. eapply wlp_mono; [apply wlp_true|intros [] ? _; apply output_fits_nil|done].
Qed.
End Frame.

Lemma runner_call_output sender origin target input value gas_limit storage_limit config s :
  wlp (runner_call n sender origin target input value gas_limit storage_limit config)
    (fun info _ => output_fits (output info)) (fun _ _ => True) s.
Proof.
  unfold runner_call. cbv zeta. apply wlp_bind, wlp_gets, wlp_bind.
  destruct (can_call_contract _ _ _); [apply wlp_ret|done]. apply wlp_bind, wlp_modify, wlp_bind.
  set (good := fun r : CallInfo + DispatchError => match r with inl info => output_fits (output info) | inr _ => True end).
  apply (wlp_mono _ (fun r _ => good r) _ (fun _ _ => True));
    [|intros [info|e] ? Hr; [exact Hr|done]|done].
  unfold wlp at 1, handler_transaction, run_transaction. destruct (meter_new _ _ _) as [[[]|e|] ms]; [|done|done].
  set (f := _ ≫= _). assert (Hf : forall w, wlp f (fun r _ => good r) (fun r _ => good r) w).
  { intros w. subst f. apply wlp_bind, wlp_map_err. eapply wlp_mono; [apply wlp_true|intros [] ? _|done].
    apply wlp_bind, wlp_gets, wlp_bind, wlp_map_err. eapply wlp_mono; [apply wlp_true|intros [] ? _|done].
    apply wlp_bind, wlp_map_err. eapply wlp_mono; [apply execute_first_output|intros [reason out] ? Hr|by intros []].
    apply wlp_bind, wlp_gets, wlp_bind, wlp_gets. by destruct (negb _). }
  clearbody f. specialize (Hf (mkFrame (gas_new gas_limit config) n ms)). unfold wlp in Hf.
  destruct (f _) as [[r|r|] w]; [|exact Hf|done]. by destruct (finish (meters w)) as [[[]|e|] ms'].
Qed.

(** C28: the pallet is the EVM its clients rely on.  A view leaves no trace,
    however it ends, and what a call returns is bytes that fit in memory: what is
    proved of the bridge to ERC-20 contracts against the class [EVM] holds of it
    over this pallet. *)
Theorem evm_pallet_implements : EVMLaws evm_pallet.
Proof.
  constructor.
  - apply usize_range.
  - intros c i v g l s. cbn [evm_execute evm_pallet]. unfold evm_trait_execute.
    by destruct (runner_call n _ _ _ _ _ _ _ _ s) as [[info|e|] s'].
  - intros c i v g l m s info s'. cbn [evm_execute evm_pallet]. unfold evm_trait_execute. cbv zeta.
    set (config := match m with EstimateGas => _ | _ => _ end).
    pose proof (runner_call_output (ic_sender c) (ic_origin c) (ic_contract c) i v g l config s) as Hc.
    unfold wlp in Hc. destruct (runner_call n _ _ _ _ _ _ _ _ s) as [[x|e|] t]; [|done|done].
    destruct m; [destruct (is_succeed _)|..]; intros [= -> _]; exact Hc.
Qed.
End Trait.
