(* ===== verification/EvmPalletSample.v ===== *)
(** * The EVM pallet at work

    A chain of maps, an interpreter of five instructions and a gasometer of one
    number satisfy the laws the theorems ask for; each theorem is applied to runs
    of them. *)
From S2P Require Import Prelude Primitives Runtime Bytes EvmBridge EvmManager EvmAccounts StorageMeter Evm EvmRunner EvmFrames EvmMoves EvmSpecs EvmHistories EvmCodes EvmGas EvmCalls.

(** ** A chain *)
Record ToyChain := mkToy {
  toy_free : gmap N N;
  toy_deposits : gmap N N;
  toy_developers : gmap N N;
  toy_providers : gmap N N }.
Definition at_least (m : gmap N N) (who : N) : Z := Z.of_N (default 0%N (m !! who)).
Definition put (who : N) (x : Z) (m : gmap N N) : gmap N N := <[who := Z.to_N x]> m.

Definition toy_map_of (id : ReserveIdentifier) (c : ToyChain) : gmap N N :=
  match id with REvmStorageDeposit => toy_deposits c | REvmDeveloperDeposit => toy_developers c | _ => ∅ end.
Definition set_map (id : ReserveIdentifier) (m : gmap N N) (c : ToyChain) : ToyChain :=
  match id with
  | REvmStorageDeposit => mkToy (toy_free c) m (toy_developers c) (toy_providers c)
  | REvmDeveloperDeposit => mkToy (toy_free c) (toy_deposits c) m (toy_providers c)
  | _ => c
  end.
Definition set_free (m : gmap N N) (c : ToyChain) : ToyChain :=
  mkToy m (toy_deposits c) (toy_developers c) (toy_providers c).
Definition set_providers (m : gmap N N) (c : ToyChain) : ToyChain :=
  mkToy (toy_free c) (toy_deposits c) (toy_developers c) m.
Definition add_free (who : N) (x : Z) (c : ToyChain) : ToyChain :=
  set_free (put who (at_least (toy_free c) who + x) (toy_free c)) c.
Definition free_of (who : N) (c : ToyChain) : Z := at_least (toy_free c) who.
Definition providers_of (who : N) (c : ToyChain) : Z := at_least (toy_providers c) who.

(** An account is reaped with its last coin when no provider holds it. *)
Definition reaped (who : N) (c : ToyChain) : list N :=
  if (free_of who c =? 0) && (providers_of who c =? 0) then [who] else [].

Definition toy_transfer (a b : N) (v : Z) (c : ToyChain) : (ToyChain * list N) + DispatchError :=
  if (0 <=? v) && (v <=? free_of a c)
  then let c' := add_free b v (add_free a (- v) c) in inl (c', reaped a c')
  else inr (Other "InsufficientBalance").
Definition toy_reserve (id : ReserveIdentifier) (who : N) (n : Z) (c : ToyChain) : ToyChain + DispatchError :=
  if (0 <=? n) && (n <=? free_of who c)
  then inl (set_map id (put who (at_least (toy_map_of id c) who + n) (toy_map_of id c)) (add_free who (- n) c))
  else inr (Other "InsufficientBalance").
Definition toy_release (id : ReserveIdentifier) (who : N) (n : Z) (c : ToyChain) : Z * ToyChain :=
  let m := toy_map_of id c in
  let k := Z.min (Z.max n 0) (at_least m who) in
  (k, set_map id (put who (at_least m who - k) m) c).
Definition toy_unreserve (id : ReserveIdentifier) (who : N) (n : Z) (c : ToyChain) : Z * ToyChain :=
  let (k, c') := toy_release id who n c in (n - k, add_free who k c').
Definition toy_repatriate (id : ReserveIdentifier) (from to : N) (n : Z) (st : BalanceStatus) (c : ToyChain) :
    (Z * ToyChain) + DispatchError :=
  let (k, c') := toy_release id from n c in
  if n <? 0 then inr (Other "Negative")
  else inl (n - k, match st with
                   | Free => add_free to k c'
                   | Reserved => let m := toy_map_of id c' in set_map id (put to (at_least m to + k) m) c'
                   end).
Definition toy_dec_providers (who : N) (c : ToyChain) : option (ToyChain * list N) :=
  let c' := set_providers (put who (providers_of who c - 1) (toy_providers c)) c in Some (c', reaped who c').

#[export] Instance toy_mapping : AddressMapping ToyChain := {
  get_account_id a _ := a;
  get_evm_address who _ := Some who;
  get_or_create_evm_address who c := (who, c);
  get_default_evm_address who := (2 * who + 2 ^ 65)%N;
  is_linked who a _ := (who =? a)%N }.

(** Users are even numbers from [2 ^ 64] on. *)
Definition alice : N := (2 ^ 64)%N.
Definition bob : N := (2 ^ 64 + 2)%N.
Definition toy_hash (bs : bytes) : Z := 2 ^ 151 + 2 * (from_be_bytes bs mod 2 ^ 100) + 1.

#[export] Instance toy_evm : EvmConfig := {
  keccak256 := toy_hash;
  rlp_list a n := to_be_bytes 20 (Z.of_N a) ++ to_be_bytes 4 n;
  Chain := ToyChain;
  Imbalance := Z;
  c_free_balance := free_of;
  c_reserved_balance_named id who c := at_least (toy_map_of id c) who;
  c_transfer := toy_transfer;
  c_transfer_all a b c := toy_transfer a b (free_of a c) c;
  c_reserve_named := toy_reserve;
  c_ensure_reserved_named := toy_reserve;
  c_unreserve_named := toy_unreserve;
  c_unreserve_all_named id who c := toy_unreserve id who (at_least (toy_map_of id c) who) c;
  c_repatriate_reserved_named := toy_repatriate;
  c_inc_providers who c := set_providers (put who (providers_of who c + 1) (toy_providers c)) c;
  c_dec_providers := toy_dec_providers;
  c_on_killed _ c := c;
  c_unreserve_and_charge_fee who w c := if w <=? free_of who c then Some (w, add_free who (- w) c) else None;
  c_refund_fee who w _ c := add_free who w c;
  c_deposit_creating who x c := add_free who x c;
  c_block_hash _ _ := 0;
  c_block_number _ := 1;
  c_timestamp _ := 0;
  NewContractExtraBytes := 10;
  StorageDepositPerByte := 1;
  MaxCodeSize := 100;
  ChainId := 595;
  GasToWeight g := g;
  NetworkContractOrigin o := match o with Root => true | _ => false end;
  NetworkContractSource := from_low_u64_be 0;
  DeveloperDeposit := 1000;
  DeploymentFee := 200;
  EvmTreasuryAccount := (2 ^ 66)%N;
  FreeDeploymentOrigin o := match o with Root => true | _ => false end;
  with_ethereum_compatibility := false }.

(** *** It keeps the laws *)
Lemma at_least_nonneg m who : 0 <= at_least m who.
Proof. unfold at_least. lia. Qed.
Lemma at_least_put m who x y : 0 <= x ->
  at_least (put who x m) y = if decide (y = who) then x else at_least m y.
Proof.
  intros Hx. unfold at_least, put. destruct (decide (y = who)) as [->|Hne].
  - rewrite lookup_insert_eq. cbn. lia.
  - by rewrite lookup_insert_ne.
Qed.
Lemma toy_hash_odd bs : N.odd (h160_from_h256 (toy_hash bs)) = true.
Proof.
  unfold h160_from_h256, toy_hash. set (r := from_be_bytes bs mod 2 ^ 100).
  assert (Hr : 0 <= r < 2 ^ 100) by (apply Z.mod_pos_bound; lia).
  rewrite Z.mod_small by lia. replace (2 ^ 151 + 2 * r + 1) with (2 * (2 ^ 150 + r) + 1) by lia.
  rewrite Z2N.inj_add, Z2N.inj_mul by lia. apply N.odd_odd.
Qed.

Definition toy_program (a : EvmAddress) : Prop := N.odd a = true \/ (0 < a < 2 ^ 64)%N.
Lemma toy_user (a : N) : N.odd a = false -> (2 ^ 64 <= a \/ a = 0)%N -> ~ toy_program a.
Proof. intros Ho Ha [H1|H1]; [congruence|lia]. Qed.

(** What an operation leaves alone: deposits and providers *)
Lemma reaped_unheld who c x : x ∈ reaped who c -> providers_of x c <= 0.
Proof.
  unfold reaped. destruct (Z.eqb_spec (providers_of who c) 0) as [Hz|]; [|rewrite andb_false_r; by intros ?%not_elem_of_nil].
  destruct (free_of who c =? 0); cbn [andb]; [|by intros ?%not_elem_of_nil].
  intros ->%list_elem_of_singleton. by rewrite Hz.
Qed.
Lemma toy_transfer_Ok a b v c c' killed : toy_transfer a b v c = inl (c', killed) ->
  (toy_deposits c' = toy_deposits c /\ toy_providers c' = toy_providers c) /\
  forall who, who ∈ killed -> providers_of who c' <= 0.
Proof.
  unfold toy_transfer. destruct (_ && _); [|done]. cbv zeta. intros [= <- <-]. split; [done|]. apply reaped_unheld.
Qed.
Lemma toy_release_deposit who n c k c' : toy_release REvmStorageDeposit who n c = (k, c') ->
  0 <= k <= Z.max n 0 /\ toy_providers c' = toy_providers c /\
  forall x, at_least (toy_deposits c') x = at_least (toy_deposits c) x - if decide (x = who) then k else 0.
Proof.
  unfold toy_release. cbv zeta. cbn [toy_map_of]. intros [= <- <-].
  pose proof (at_least_nonneg (toy_deposits c) who). split; [lia|]. split; [done|]. intros x.
  cbn [toy_deposits set_map]. rewrite at_least_put by lia. case_decide; [subst; lia|lia].
Qed.

Lemma toy_derived_odd scheme a s : derived scheme -> create_address scheme s = Some a -> N.odd a = true.
Proof.
  intros Hd. unfold create_address. destruct scheme as [caller h salt|caller|]; [| |done]; cbv zeta;
    (destruct (starts_with _ _); [discriminate|]); intros Heq; apply Some_inj in Heq; rewrite <- Heq; apply toy_hash_odd.
Qed.

Abbreviation deposit_of who c := (at_least (toy_deposits c) who).
Definition toy_same (c c' : ToyChain) : Prop :=
  forall who, deposit_of who c' = deposit_of who c /\ providers_of who c' = providers_of who c.
Lemma toy_same_maps c c' : toy_deposits c' = toy_deposits c -> toy_providers c' = toy_providers c -> toy_same c c'.
Proof. intros Hd Hp who. unfold providers_of. by rewrite Hd, Hp. Qed.

Lemma toy_transfer_law a b v c c' killed : toy_transfer a b v c = inl (c', killed) ->
  toy_same c c' /\ forall who, who ∈ killed -> providers_of who c' <= 0.
Proof. intros [[Hd Hp] Hk]%toy_transfer_Ok. split; [by apply toy_same_maps|exact Hk]. Qed.
Lemma toy_reserve_law who n c c' : toy_reserve REvmStorageDeposit who n c = inl c' -> forall x,
  deposit_of x c' = deposit_of x c + (if decide (x = who) then n else 0) /\ providers_of x c' = providers_of x c.
Proof.
  unfold toy_reserve. destruct (Z.leb_spec 0 n); [|done]. destruct (n <=? _); [|done].
  cbn [andb]. intros [= <-] x. split; [|done]. cbn [toy_deposits set_map toy_map_of].
  pose proof (at_least_nonneg (toy_deposits c) who). rewrite at_least_put by lia. case_decide; [by subst|lia].
Qed.
Lemma toy_unreserve_law who n c x :
  (x <> who -> deposit_of x (toy_unreserve REvmStorageDeposit who n c).2 = deposit_of x c) /\
  providers_of x (toy_unreserve REvmStorageDeposit who n c).2 = providers_of x c.
Proof.
  unfold toy_unreserve. destruct (toy_release REvmStorageDeposit who n c) as [k c'] eqn:Hr.
  apply toy_release_deposit in Hr as (_ & Hp & Hd). cbn. unfold providers_of. cbn. rewrite Hp. split; [|done].
  intros Hne. rewrite Hd, decide_False by done. lia.
Qed.
Lemma toy_repatriate_law from to n st c rest c' :
  toy_repatriate REvmStorageDeposit from to n st c = inl (rest, c') -> forall x,
  (x <> from -> deposit_of x c <= deposit_of x c') /\ deposit_of from c - n <= deposit_of from c' /\
  providers_of x c' = providers_of x c.
Proof.
  unfold toy_repatriate. destruct (toy_release REvmStorageDeposit from n c) as [k c1] eqn:Hr.
  pose proof (at_least_nonneg (toy_deposits c) from) as H0. pose proof (at_least_nonneg (toy_deposits c1) to) as H1.
  apply toy_release_deposit in Hr as (Hk & Hp & Hd). destruct (Z.ltb_spec n 0); [done|]. intros [= _ <-] x.
  pose proof (Hd x) as Hx. pose proof (Hd from) as Hf. rewrite decide_True in Hf by done.
  destruct st; cbn [toy_deposits toy_providers add_free set_free set_map toy_map_of].
  - unfold providers_of. cbn. rewrite Hp. split_and!; [|lia|done]. intros Hne. rewrite Hx, decide_False by done. lia.
  - unfold providers_of. cbn [toy_deposits toy_providers set_map]. rewrite Hp, !at_least_put by lia.
    assert (Hmore : forall y, deposit_of y c1 <= if decide (y = to) then deposit_of to c1 + k else deposit_of y c1)
      by (intros y; destruct (decide (y = to)); subst; lia).
    pose proof (Hmore x). pose proof (Hmore from). split_and!; [|lia|done].
    intros Hne. rewrite decide_False in Hx by done. lia.
Qed.
Lemma toy_dec_law who c c' killed : toy_dec_providers who c = Some (c', killed) ->
  (forall x, deposit_of x c' = deposit_of x c /\ providers_of x c - (if decide (x = who) then 1 else 0) <= providers_of x c') /\
  forall x, x ∈ killed -> providers_of x c' <= 0.
Proof.
  unfold toy_dec_providers. cbv zeta. intros [= <- <-]. split; [|intros x; apply reaped_unheld].
  intros x. split; [done|]. unfold providers_of. cbn. unfold at_least, put.
  destruct (decide (x = who)) as [->|Hne]; [rewrite lookup_insert_eq; cbn; lia|rewrite lookup_insert_ne by done; lia].
Qed.

#[export] Instance toy_laws : EvmChainLaws.
Proof.
  refine {| program := toy_program; acct a := a; held := providers_of |}.
  - done.
  - intros a e c _ Heq. exact Heq.
  - intros who c e Heq _. by apply Some_inj in Heq.
  - intros who. apply toy_user; cbn [get_default_evm_address toy_mapping c_mapping toy_evm]; [|left; lia].
    by rewrite N.odd_add, N.odd_mul.
  - intros scheme a s Hd Ha. left. by eapply toy_derived_odd.
  - intros i Hi. right. unfold from_low_u64_be. lia.
  - apply toy_user; [done|by right].
  - intros who c. apply at_least_nonneg.
  - intros who c. apply at_least_nonneg.
  - exact toy_transfer_law.
  - intros a b c c' killed. exact (toy_transfer_law a b _ c c' killed).
  - done.
  - exact toy_reserve_law.
  - exact toy_unreserve_law.
  - exact toy_repatriate_law.
  - intros who c x. split; [done|]. change (providers_of x (set_providers (put who (providers_of who c + 1) (toy_providers c)) c)
      = providers_of x c + if decide (x = who) then 1 else 0).
    unfold providers_of. cbn. pose proof (at_least_nonneg (toy_providers c) who). rewrite at_least_put by lia.
    case_decide; subst; lia.
  - exact toy_dec_law.
  - intros who n c c'. cbn. unfold toy_reserve. destruct (_ && _); [|done]. intros [= <-]. by apply toy_same_maps.
  - intros who c. by apply toy_same_maps.
  - intros who w c i c'. cbn. destruct (w <=? _); [|done]. intros [= _ <-]. by apply toy_same_maps.
  - intros who w i c. by apply toy_same_maps.
  - intros who c. split; [done|]. by left.
  - split; vm_compute; discriminate.
  - split_and!; [done|done|reflexivity].
Defined.

(** ** A machine

    Its instructions are: store a value, end the contract, call an address, create
    a contract of the rest of the code, return the rest of the code. *)
Inductive ToyVM :=
  | Running (self : EvmAddress) (code : bytes) (charged : bool)
  | Done (r : ExitReason).

Definition toy_spend (c : Z) : M ExitErr (Z * N) unit := fun g =>
  if (0 <=? c) && (c <=? Z.of_N g.2) then (Ok tt, (g.1, Z.to_N (Z.of_N g.2 - c))) else (Err OutOfGas, g).
Definition toy_earn (c : Z) : M ExitErr (Z * N) unit := fun g =>
  if 0 <=? c then (Ok tt, (g.1, Z.to_N (Z.of_N g.2 + c))) else (Err OtherError, g).

Definition goes_or_fails (rest : ToyVM) (x : unit + ExitErr) : ToyVM :=
  match x with inl _ => rest | inr e => Done (ExitError e) end.
Definition toy_step (m : ToyVM) : ExitReason * bytes + {q : Request & Answer q -> ToyVM} :=
  match m with
  | Done r => inl (r, [])
  | Running self code false =>
      inr (existT (PreValidate (mkCallContext self self 0) 0 []) (goes_or_fails (Running self code true)))
  | Running self code true =>
      match code with
      | 1 :: i :: v :: rest => inr (existT (SetStorage self i v) (goes_or_fails (Running self rest false)))
      | 2 :: _ => inr (existT (MarkDelete self alice) (goes_or_fails (Done (Succeed Suicided))))
      | 3 :: a :: rest =>
          inr (existT (Call (Z.to_N a) None [] None false (mkCallContext (Z.to_N a) self 0))
            (fun _ => Running self rest false))
      | 4 :: init =>
          inr (existT (Create self (Create2 self (toy_hash init) 0) 0 init None) (fun _ => Done (Succeed Stopped)))
      | 5 :: out => inl (Succeed Returned, map (fun b => b mod 256) (take 100 out))
      | [] => inl (Succeed Stopped, [])
      | _ => inl (ExitError 1, [])
      end
  end.

(** What its precompiled contracts do is a parameter. *)
Definition toy_machine_over (pre : EvmAddress -> bytes -> option Z -> CallContext -> EvmState ->
    option (ExitSucceed * bytes * Z + ExitErr) * EvmState) : EvmMachine := {|
  Gas := Z * N;
  gas_new gas _ := (gas, Z.to_N gas);
  gas_left g := Z.of_N g.2;
  gas_total_used g := g.1 - Z.of_N g.2;
  gas_refunded _ := 0;
  record_cost := toy_spend;
  record_deposit n := toy_spend (Z.max n 0);
  record_stipend := toy_earn;
  record_refund _ := mret tt;
  gas_fail g := (g.1, 0%N);
  TransactionCost := unit;
  call_transaction_cost _ := tt;
  record_transaction _ := toy_spend 2;
  MemoryCost := unit;
  static_opcode_cost _ := Some 1;
  dynamic_opcode_cost _ _ _ _ _ _ _ := inr OtherError;
  record_dynamic_cost c _ := toy_spend (Z.max c 0);
  Interpreter := ToyVM;
  runtime_new code _ ctx _ := Running (ctx_address ctx) code false;
  runtime_step := toy_step;
  precompiles_execute := pre |}.

Definition toy_runs_as (a : EvmAddress) (m : ToyVM) : Prop :=
  match m with Running self _ _ => self = a | Done _ => True end.
(** What a charged interpreter may ask *)
Lemma toy_charged_cases self code (P : ExitReason * bytes + {q : Request & Answer q -> ToyVM} -> Prop) :
  (forall x, P (inl x)) ->
  (forall i v rest, P (inr (existT (SetStorage self i v) (goes_or_fails (Running self rest false))))) ->
  P (inr (existT (MarkDelete self alice) (goes_or_fails (Done (Succeed Suicided))))) ->
  (forall a input rest, P (inr (existT (Call a None input None false (mkCallContext a self 0)) (fun _ => Running self rest false)))) ->
  (forall h init, P (inr (existT (Create self (Create2 self h 0) 0 init None) (fun _ => Done (Succeed Stopped))))) ->
  P (toy_step (Running self code true)).
Proof.
  intros Hend Hset Hdel Hcall Hcreate. unfold toy_step.
  repeat (match goal with |- P (match ?x with _ => _ end) => destruct x end; auto).
Qed.
Definition asks_own (a : EvmAddress) (x : ExitReason * bytes + {q : Request & Answer q -> ToyVM}) : Prop :=
  match x with inl _ => True | inr (existT q k) => asks_as a q /\ forall x, toy_runs_as a (k x) end.
Lemma toy_step_as a m : toy_runs_as a m -> asks_own a (toy_step m).
Proof.
  destruct m as [self code [|]|r]; [| |done]; cbn [toy_runs_as]; intros ->.
  - apply toy_charged_cases; [done|..]; intros; (split; [done|]); intros x; by try destruct x.
  - split; [done|]. by intros [].
Qed.
Lemma toy_frames_over pre : @OwnFrames toy_evm (toy_machine_over pre).
Proof.
  refine {| runs_as a (m : @Interpreter toy_evm (toy_machine_over pre)) := toy_runs_as a m |}; [done|].
  intros a m q k Hm Hst. pose proof (toy_step_as a m Hm) as Hs. cbn [runtime_step toy_machine_over] in Hst.
  by rewrite Hst in Hs.
Defined.

(** *** Its precompiled contracts

    One hands the maintenance of a contract to [bob] for whoever calls it, one runs
    the contract, and [alice] pays for that.  The contract runs on a machine that
    has no precompiled contracts. *)
Definition writer_address : EvmAddress := 2854495385411919762116571938900147113952545811%N.
Definition plain_machine : EvmMachine := toy_machine_over (fun _ _ _ _ s => (None, s)).
Definition run_writer (caller : EvmAddress) : M DispatchError EvmState CallInfo :=
  @evm_trait_execute toy_evm plain_machine 30 (mkInvokeContext writer_address caller alice) [] 0 20 1000 Execute.
Definition ends_with {A} (s : EvmState) (r : outcome DispatchError A * EvmState) :
    option (ExitSucceed * bytes * Z + ExitErr) * EvmState :=
  match r with (Ok _, s') => (Some (inl (Stopped, [], 0)), s') | _ => (Some (inr OtherError), s) end.
Definition toy_precompile (a : EvmAddress) (input : bytes) (gas : option Z) (ctx : CallContext) (s : EvmState) :
    option (ExitSucceed * bytes * Z + ExitErr) * EvmState :=
  if (a =? 9)%N then ends_with s (rent_transfer_maintainer (account_of (ctx_caller ctx) s) writer_address bob s)
  else if (a =? 10)%N then ends_with s (run_writer (ctx_caller ctx) s)
  else (None, s).
#[export] Instance toy_machine : EvmMachine := toy_machine_over toy_precompile.
#[export] Instance toy_frames : OwnFrames := toy_frames_over toy_precompile.

Lemma plain_precompiles : @PrecompileLaws toy_evm plain_machine toy_laws.
Proof. refine {| precompile_steps := 0 : nat |}. intros. apply rtc_refl. Defined.
Lemma steps_off l n s : rtc (pallet_op program) (l, (30 + n)%nat, s) (l, n, s).
Proof. generalize 30%nat. intros k. induction k as [|k IH]; [apply rtc_refl|]. by eapply rtc_l; [apply op_step|]. Qed.
Lemma ends_with_moves {A} (r : outcome DispatchError A * EvmState) l n s :
  (forall s', r.2 = s' -> r.1 <> Panic -> (exists x, r.1 = Ok x) -> rtc (pallet_op program) (l, (30 + n)%nat, s) (l, n, s')) ->
  rtc (pallet_op program) (l, (30 + n)%nat, s) (l, n, (ends_with s r).2).
Proof.
  intros Hr.
  destruct r as [[x|e|] t]; [|apply steps_off..]. apply (Hr t); [done|done|by exists x].
Qed.
#[export] Instance toy_precompiles : PrecompileLaws.
Proof.
  refine {| precompile_steps := 30 : nat |}. intros a input g ctx l n s.
  cbn [precompiles_execute toy_machine toy_machine_over]. unfold toy_precompile.
  destruct (a =? 9)%N; [|destruct (a =? 10)%N].
  - apply ends_with_moves. intros s' <- _ [[] Hx]. eapply rtc_r; [apply steps_off|].
    eapply op_maintainer. etrans; [apply surjective_pairing|]. by rewrite Hx.
  - apply ends_with_moves. intros s' <- Hp _.
    apply (@execute_moves toy_evm plain_machine (toy_frames_over _) toy_laws plain_precompiles 30
      (mkInvokeContext writer_address (ctx_caller ctx) alice) [] 0 20 1000 Execute s (run_writer (ctx_caller ctx) s).1);
      [|apply surjective_pairing|exact Hp].
    apply toy_user; [done|left; by vm_compute].
  - apply steps_off.
Defined.

(** An interpreter that is charged asks one thing, which may open a frame. *)
Definition toy_idle (m : ToyVM) : Z := match m with Running _ _ true => 4 | Running _ _ false => 1 | Done _ => 0 end.
Definition asks_less (m : ToyVM) (x : ExitReason * bytes + {q : Request & Answer q -> ToyVM}) : Prop :=
  match x with inl _ => True | inr (existT q k) =>
    match q as q return (Answer q -> ToyVM) -> Prop with
    | PreValidate _ _ _ => fun k => (forall e, toy_idle (k (inr e)) < toy_idle m) /\
        (toy_idle (k (inl tt)) < toy_idle m \/ true = true /\ toy_idle (k (inl tt)) <= 4)
    | Create _ _ _ _ gas => fun k => (forall g, gas = Some g -> 0 <= g) /\ forall x, toy_idle (k x) + 1 + 2 <= toy_idle m
    | Call _ _ _ gas _ _ => fun k => (forall g, gas = Some g -> 0 <= g) /\ forall x, toy_idle (k x) + 1 + 2 <= toy_idle m
    | _ => fun k => forall x, toy_idle (k x) < toy_idle m
    end k
  end.
Lemma toy_step_progress m : asks_less m (toy_step m).
Proof.
  destruct m as [self code [|]|r]; [| |done].
  - apply toy_charged_cases; [done|..]; intros; cbn; try (split; [done|]); try intros []; cbn; lia.
  - cbn. split; [done|]. right. split; [done|lia].
Qed.
Lemma toy_spend_law c least : 0 <= least <= c -> spends (toy_spend c) least.
Proof.
  intros Hc g. unfold wp, toy_spend. cbn [gas_left toy_machine toy_machine_over]. destruct (Z.leb_spec 0 c), (Z.leb_spec c (Z.of_N g.2)); cbn; lia.
Qed.
Lemma toy_earn_law c : spends (toy_earn c) (- c).
Proof. intros g. unfold wp, toy_earn. cbn [gas_left toy_machine toy_machine_over]. destruct (Z.leb_spec 0 c); cbn; lia. Qed.
Lemma toy_precompile_cost a input gas ctx s r out cost :
  (toy_precompile a input gas ctx s).1 = Some (inl (r, out, cost)) -> 0 <= cost.
Proof.
  assert (Hend : forall A (x : outcome DispatchError A * EvmState),
    (ends_with s x).1 = Some (inl (r, out, cost)) -> 0 <= cost) by (intros A [[y|e|] t]; [intros [= _ _ <-]|done..]; done).
  unfold toy_precompile. destruct (a =? 9)%N; [apply Hend|]. destruct (a =? 10)%N; [apply Hend|done].
Qed.
#[export] Instance toy_gas : GasLaws.
Proof.
  refine {| idle (m : Interpreter) := toy_idle m; start_idle := 1; charge_idle := 4; charging _ := true |};
    cbn [gas_left toy_machine toy_machine_over gas_new record_cost record_deposit record_stipend record_refund record_transaction
      record_dynamic_cost gas_fail static_opcode_cost dynamic_opcode_cost].
  - intros g. lia.
  - intros gas config Hg. cbn. lia.
  - intros c Hc. apply toy_spend_law. lia.
  - intros n. apply toy_spend_law. lia.
  - apply toy_earn_law.
  - intros n g. cbn. lia.
  - intros c. apply toy_spend_law. lia.
  - intros c m. apply toy_spend_law. lia.
  - intros _ c [= <-]. lia.
  - intros g. cbn. lia.
  - apply toy_precompile_cost.
  - intros [self code [|]|r]; cbn; lia.
  - lia.
  - intros. cbn. lia.
  - intros _ c _ [= <-]. lia.
  - done.
  - intros m q k Hst. pose proof (toy_step_progress m) as Hs. cbn [runtime_step toy_machine toy_machine_over] in Hst. by rewrite Hst in Hs.
Defined.

(** ** Runs *)
Lemma run_splits {A B} (p : A * B) a : p.1 = a -> p = (a, p.2).
Proof. destruct p. by intros <-. Qed.
Definition funded : gmap N N := {[alice := 1000000%N; bob := 1000000%N]}.
Definition start : EvmState := mkEvm _ ∅ ∅ ∅ ∅ ∅ (2 ^ 25) None (mkToy funded ∅ ∅ ∅) [].
(** A contract that stores 4 at 3 when it is called, and 9 at 7 when it is created *)
Definition writer : bytes := [1; 3; 4].
Definition writer_init : bytes := [1; 7; 9; 5] ++ writer.
Definition many : nat := 110.
Definition create_writer : Extrinsic := XCreate2 writer_init 5 0 20 1000.
Definition created : EvmState := (dispatch many (Signed alice) create_writer start).2.
(** A contract that has the writer run and handed over, by precompiled contracts *)
Definition agent_init : bytes := [5; 3; 10; 3; 9].
Definition agent_address : EvmAddress := 2854495385411919762116571938898990358868790311%N.
Definition create_agent : Extrinsic := XCreate2 agent_init 6 0 20 1000.
Definition staffed : EvmState := (dispatch many (Signed alice) create_agent created).2.
Definition entrust : Extrinsic := XTransferMaintainer writer_address agent_address.
Definition entrusted : EvmState := (dispatch many (Signed alice) entrust staffed).2.
Definition call_agent : Extrinsic := XCall agent_address [] 0 40 1000.
Definition called : EvmState := (dispatch many (Signed alice) call_agent entrusted).2.
Lemma alice_signs : signs (Signed alice).
Proof.
  intros who [= <-] a Ha Heq. change (alice = a) in Heq. revert Ha. rewrite <- Heq. apply toy_user; [done|left; by vm_compute].
Qed.
Lemma alice_step allowed ready around x s : from_user x -> allowed x -> ready s ->
  (dispatch many (Signed alice) x s).1 <> Panic ->
  evm_step many allowed ready around s (dispatch many (Signed alice) x s).2.
Proof.
  intros Hx Ha Hr Hp. eapply step_extrinsic; [apply alice_signs|exact Hx|exact Ha|exact Hr|apply surjective_pairing|exact Hp].
Qed.
Lemma small_roomy s : map_Forall (fun _ k => k <= 1000) (ContractStorageSizes s) -> roomy many s.
Proof.
  intros Hs a. unfold storage_size. assert (Hk : default 0 (ContractStorageSizes s !! a) <= 1000).
  { destruct (ContractStorageSizes s !! a) as [k|] eqn:Ha; [by apply (Hs a)|done]. }
  change (default 0 (ContractStorageSizes s !! a) + 375100 <= U32_MAX). unfold U32_MAX. lia.
Qed.
Lemma few_countable s : map_Forall (fun _ i => ref_count i <= 1000) (CodeInfos s) ->
  0 < NetworkContractIndex s < 2 ^ 64 -> countable many s.
Proof.
  intros Hs Hi. split; [|exact Hi]. intros h. unfold refs.
  assert (Hk : match CodeInfos s !! h with Some info => ref_count info | None => 0 end <= 1000).
  { destruct (CodeInfos s !! h) as [k|] eqn:Ha; [by apply (Hs h)|done]. }
  change (match CodeInfos s !! h with Some info => ref_count info | None => 0 end + 3410 <= U32_MAX). unfold U32_MAX. lia.
Qed.
Ltac ready_state :=
  first [apply small_roomy | apply few_countable; [|by vm_compute]]; apply (bool_decide_unpack _); by vm_compute.

Lemma called_history allowed ready around :
  (forall x, x = create_writer \/ x = create_agent \/ x = entrust \/ x = call_agent -> allowed x) ->
  Forall ready [start; created; staffed; entrusted] -> rtc (evm_step many allowed ready around) start called.
Proof.
  intros Ha Hr. do 4 (apply Forall_cons in Hr as [? Hr]).
  apply (rtc_l _ _ created); [apply (alice_step _ _ _ create_writer start); [exact I|apply Ha; auto|assumption|vm_compute; discriminate]|].
  apply (rtc_l _ _ staffed); [apply (alice_step _ _ _ create_agent created); [exact I|apply Ha; auto|assumption|vm_compute; discriminate]|].
  apply (rtc_l _ _ entrusted); [apply (alice_step _ _ _ entrust staffed); [exact I|apply Ha; auto|assumption|vm_compute; discriminate]|].
  apply (rtc_l _ _ called); [apply (alice_step _ _ _ call_agent entrusted); [exact I|apply Ha; auto|assumption|vm_compute; discriminate]|].
  apply rtc_refl.
Qed.



(** Who created a contract and gave it away takes it back once it is deployed. *)
Definition given : EvmState := (dispatch many (Signed alice) (XTransferMaintainer writer_address bob) created).2.
Definition live : EvmState := (dispatch many Root (XDeployFree writer_address) given).2.
Definition again : outcome DispatchError CreateInfo * EvmState :=
  inner_create many alice writer_init 0 20 1000 None (Some 5) ACALA_CONFIG live.
Definition again_info : CreateInfo := mkCreateInfo (Succeed Returned) writer_address [] 7 13.


(** The code that was to be set is counted and used by no one. *)
Definition reset : outcome DispatchError unit * EvmState := set_code many (Signed alice) writer_address [5; 7] created.

Definition returns_bytes (x : ExitReason * bytes + {q : Request & Answer q -> ToyVM}) : Prop :=
  match x with inl (_, out) => output_fits U32_MAX out | inr _ => True end.
Lemma no_bytes_fit : output_fits U32_MAX [].
Proof. split; [done|]. vm_compute. discriminate. Qed.
Lemma toy_step_output m : returns_bytes (toy_step m).
Proof.
  destruct m as [self code [|]|r]; [|done|exact no_bytes_fit]. unfold toy_step.
  repeat (match goal with |- returns_bytes (match ?x with _ => _ end) => destruct x end; try done; try exact no_bytes_fit).
  split.
  - apply Forall_map, Forall_forall. intros b _. cbn. apply Z.mod_pos_bound. lia.
  - unfold len. rewrite length_map, length_take. unfold U32_MAX. lia.
Qed.
#[export] Instance toy_outputs : OutputLaws U32_MAX.
Proof.
  constructor; [vm_compute; split; [discriminate|reflexivity]|]. intros m r out Hm.
  pose proof (toy_step_output m) as Hs. cbn [runtime_step toy_machine toy_machine_over] in Hm. by rewrite Hm in Hs.
Qed.
Lemma evm_pallet_implements_witness : EVMLaws (evm_pallet many U32_MAX).
Proof. apply (evm_pallet_implements many U32_MAX). Defined.

(** A contract that calls itself for as long as it may *)
Definition loop_address : EvmAddress := 7%N.
Definition loop : bytes := [3; 7].
Definition looping : EvmState :=
  mkEvm _ {[loop_address := mkAccountInfo 0 (Some (mkContractInfo (toy_hash loop) alice true))]} ∅ ∅
    {[toy_hash loop := loop]} {[toy_hash loop := mkCodeInfo 2 1]} (2 ^ 25) None (mkToy funded ∅ ∅ ∅) [].
Lemma gas_ends_execution_witness :
  (runner_call many alice alice loop_address [] 0 20 0 ACALA_CONFIG looping).1 =
    Ok (mkCallInfo (ExitError OutOfGas) [] 20 0) /\
  (runner_call many alice alice loop_address [] 0 20 0 ACALA_CONFIG looping).1 <> Panic.
Proof.
  split; [vm_compute; reflexivity|].
  apply (gas_ends_execution ACALA_CONFIG many 20 0); [done|done|].
  vm_compute. discriminate.
Defined.
