(* ===== verification/TransactionPayment.v ===== *)
(** * Transaction fees

    [modules/transaction-payment/src/lib.rs]: what a transaction costs, which of
    an account's currencies pays for it, the refund after its dispatch, and the
    multiplier that follows the load of the blocks.  The native currency and its
    imbalances are parameters; an imbalance is its amount. *)
From S2P Require Import Prelude FixedPoint Primitives Runtime Currencies.

(** ** Types of the framework *)
Abbreviation Weight := Z.
Abbreviation Multiplier := Z.
Definition U64_MAX : Z := 18446744073709551615.
Inductive DispatchClass := Normal | Operational | Mandatory.
Inductive Pays := Yes | No.
#[export] Instance Pays_eq_dec : EqDecision Pays.
Proof. solve_decision. Defined.

Record DispatchInfo := mkDispatchInfo { weight : Weight; class : DispatchClass; pays_fee : Pays }.
Record PostDispatchInfo := mkPostDispatchInfo { actual_weight : option Weight; post_pays_fee : Pays }.

Record InclusionFee := mkInclusionFee {
  base_fee : Balance;
  len_fee : Balance;
  adjusted_weight_fee : Balance }.
Record FeeDetails := mkFeeDetails { inclusion_fee : option InclusionFee; fd_tip : Balance }.
Record RuntimeDispatchInfo := mkRuntimeDispatchInfo {
  rdi_weight : Weight;
  rdi_class : DispatchClass;
  partial_fee : Balance }.

(** What is left of two opposite imbalances *)
Inductive SameOrOther := SoSame (n : Balance) | SoNone | SoOther (n : Balance).

(** [TransactionValidityError]: the only one the pallet makes *)
Inductive ValidityError := Payment.

Definition TRANSACTION_PAYMENT : WithdrawReasons := 1.
Definition TIP : WithdrawReasons := 16.

(** ** What the pallet calls *)
Class PaymentConfig := {
  pay_fixed :: FixedU128;
  saturating_from_rational : Z -> Z -> Z;
  fx_div : Z -> Z -> Z;
  perquintill_mul : Z -> Weight -> Weight;

  final_fee : FeeDetails -> Balance;
  calc_actual_weight : PostDispatchInfo -> DispatchInfo -> Weight;
  calc_pays_fee : PostDispatchInfo -> DispatchInfo -> Pays;
  WeightToFee_calc : Weight -> Balance;
  bw_max_block : Weight;
  bw_max_total : DispatchClass -> option Weight;
  bw_base_extrinsic : DispatchClass -> Weight;
  block_length_max : Z;

  (* the native currency, with imbalances; other currencies; the exchange *)
  PaySt : Type;
  block_weight : DispatchClass -> PaySt -> Weight;
  pay_free_balance : AccountId -> PaySt -> Balance;
  pay_can_withdraw : AccountId -> Balance -> WithdrawReasons -> Balance -> PaySt -> bool;
  pay_withdraw : AccountId -> Balance -> WithdrawReasons -> ExistenceRequirement -> PaySt ->
    (PaySt * Balance) + DispatchError;
  pay_deposit_into_existing : AccountId -> Balance -> PaySt -> (PaySt * Balance) + DispatchError;
  pay_reserve_named : AccountId -> Balance -> PaySt -> PaySt + DispatchError;
  pay_unreserve_named : AccountId -> Balance -> PaySt -> PaySt;
  imbalance_offset : Balance -> Balance -> SameOrOther;
  imbalance_split : Balance -> Balance -> Balance * Balance;
  drop_negative : Balance -> PaySt -> PaySt;
  drop_positive : Balance -> PaySt -> PaySt;
  on_unbalanced : Balance -> PaySt -> PaySt;
  on_unbalanceds : list Balance -> PaySt -> PaySt;
  pay_multi_free : CurrencyId -> AccountId -> PaySt -> Balance;
  dex_swap_exact_target : AccountId -> list CurrencyId -> Balance -> Balance -> option Ratio -> PaySt ->
    PaySt + DispatchError;

  (* constants *)
  AllNonNativeCurrencyIds : list CurrencyId;
  NativeCurrencyId : CurrencyId;
  StableCurrencyId : CurrencyId;
  TransactionByteFee : Balance;
  TargetBlockFullness : Z;
  AdjustmentVariable : Multiplier;
  MinimumMultiplier : Multiplier;
  PayMaxSlippage : Ratio }.

(** ** Storage *)
Record PaymentSt `{PaymentConfig} := mkPayment {
  NextFeeMultiplier : Multiplier;
  DefaultFeeCurrencyId : gmap AccountId CurrencyId;
  pay_chain : PaySt }.

(** [DefaultFeeMultiplier] *)
Definition DefaultFeeMultiplier : Multiplier := fx_from_integer 1.

Section Pallet.
Context `{PaymentConfig}.

Definition put_multiplier (m : Multiplier) (s : PaymentSt) : PaymentSt :=
  mkPayment _ m (DefaultFeeCurrencyId s) (pay_chain s).
Definition put_default (d : gmap AccountId CurrencyId) (s : PaymentSt) : PaymentSt :=
  mkPayment _ (NextFeeMultiplier s) d (pay_chain s).
Definition put_chain (c : PaySt) (s : PaymentSt) : PaymentSt :=
  mkPayment _ (NextFeeMultiplier s) (DefaultFeeCurrencyId s) c.

(** ** [TargetedFeeAdjustment] *)
Definition fee_multiplier_convert (block_weight_now : Weight) (previous : Multiplier) : Multiplier :=
  let min_multiplier := MinimumMultiplier in
  let previous := Z.max previous min_multiplier in
  let normal_max_weight := default bw_max_block (bw_max_total Normal) in
  let normal_block_weight := Z.min block_weight_now normal_max_weight in
  let s := TargetBlockFullness in
  let v := AdjustmentVariable in
  let target_weight := perquintill_mul s normal_max_weight in
  let block_weight := normal_block_weight in
  let positive := target_weight <=? block_weight in
  let diff_abs := Z.max block_weight target_weight - Z.min block_weight target_weight in
  let diff := saturating_from_rational diff_abs (Z.max normal_max_weight 1) in
  let diff_squared := fx_saturating_mul diff diff in
  let v_squared_2 := fx_div (fx_saturating_mul v v) (fx_from_integer 2) in
  let first_term := fx_saturating_mul v diff in
  let second_term := fx_saturating_mul v_squared_2 diff_squared in
  if positive then
    let excess := fx_saturating_mul (U128.saturating_add first_term second_term) previous in
    Z.max (U128.saturating_add previous excess) min_multiplier
  else
    let negative := fx_saturating_mul (U128.saturating_sub first_term second_term) previous in
    Z.max (U128.saturating_sub previous negative) min_multiplier.

Definition pay_on_finalize (s : PaymentSt) : PaymentSt :=
  put_multiplier (fee_multiplier_convert (block_weight Normal (pay_chain s)) (NextFeeMultiplier s)) s.

Definition set_default_fee_token (origin : Origin) (fee_token : option CurrencyId) :
    M DispatchError PaymentSt unit :=
  who ← ensure_signed origin;
  match fee_token with
  | Some currency_id => modify (fun s => put_default (<[who := currency_id]> (DefaultFeeCurrencyId s)) s)
  | None => modify (fun s => put_default (delete who (DefaultFeeCurrencyId s)) s)
  end.

(** ** The fee of a transaction *)
Definition weight_to_fee (weight : Weight) : Balance :=
  let capped_weight := Z.min weight bw_max_block in
  WeightToFee_calc capped_weight.

Definition compute_fee_raw (len : Z) (weight : Weight) (tip : Balance) (pays : Pays) (class : DispatchClass)
    (s : PaymentSt) : FeeDetails :=
  if decide (pays = Yes) then
    let per_byte := TransactionByteFee in
    let fixed_len_fee := U128.saturating_mul per_byte len in
    let unadjusted_weight_fee := weight_to_fee weight in
    let multiplier := NextFeeMultiplier s in
    let adjusted := saturating_mul_int multiplier unadjusted_weight_fee in
    let base := weight_to_fee (bw_base_extrinsic class) in
    mkFeeDetails (Some (mkInclusionFee base fixed_len_fee adjusted)) tip
  else mkFeeDetails None tip.

Definition compute_fee_details (len : Z) (info : DispatchInfo) (tip : Balance) (s : PaymentSt) : FeeDetails :=
  compute_fee_raw len (weight info) tip (pays_fee info) (class info) s.
Definition compute_fee (len : Z) (info : DispatchInfo) (tip : Balance) (s : PaymentSt) : Balance :=
  final_fee (compute_fee_details len info tip s).
Definition compute_actual_fee_details (len : Z) (info : DispatchInfo) (post_info : PostDispatchInfo)
    (tip : Balance) (s : PaymentSt) : FeeDetails :=
  compute_fee_raw len (calc_actual_weight post_info info) tip (calc_pays_fee post_info info) (class info) s.
Definition compute_actual_fee (len : Z) (info : DispatchInfo) (post_info : PostDispatchInfo)
    (tip : Balance) (s : PaymentSt) : Balance :=
  final_fee (compute_actual_fee_details len info post_info tip s).

Definition query_info (dispatch_info : DispatchInfo) (len : Z) (s : PaymentSt) : RuntimeDispatchInfo :=
  let fee := compute_fee len dispatch_info 0 s in
  mkRuntimeDispatchInfo (weight dispatch_info) (class dispatch_info) fee.
Definition query_fee_details (dispatch_info : DispatchInfo) (len : Z) (s : PaymentSt) : FeeDetails :=
  compute_fee_details len dispatch_info 0 s.
(** [Convert<Weight, Balance>] *)
Definition weight_convert (w : Weight) (s : PaymentSt) : Balance :=
  saturating_mul_int (NextFeeMultiplier s) (weight_to_fee w).

(** ** The currency that pays *)

(** [Vec::dedup]: of repetitions in a row the first one stays. *)
Fixpoint dedup (l : list CurrencyId) : list CurrencyId :=
  match l with
  | c :: ((d :: _) as rest) => if decide (c = d) then c :: tail (dedup rest) else c :: dedup rest
  | _ => l
  end.

Definition charge_fee_order (who : AccountId) (s : PaymentSt) : list CurrencyId :=
  dedup (match DefaultFeeCurrencyId s !! who with
         | Some default_fee_currency_id =>
             [default_fee_currency_id; NativeCurrencyId] ++ AllNonNativeCurrencyIds
         | None => [NativeCurrencyId] ++ AllNonNativeCurrencyIds
         end).

Definition native_is_enough (who : AccountId) (fee : Balance) (reason : WithdrawReasons) (c : PaySt) : bool :=
  match U128.checked_sub (pay_free_balance who c) fee with
  | Some new_free_balance => pay_can_withdraw who fee reason new_free_balance c
  | None => false
  end.

Definition fee_trading_path (currency_id : CurrencyId) : list CurrencyId :=
  if decide (currency_id = StableCurrencyId) then [StableCurrencyId; NativeCurrencyId]
  else [currency_id; StableCurrencyId; NativeCurrencyId].

Section Errors.
Context {E : Type}.

Definition fee_swap (who : AccountId) (currency_id : CurrencyId) (fee : Balance) : M DispatchError PaymentSt unit :=
  fun s =>
    match dex_swap_exact_target who (fee_trading_path currency_id) fee
            (pay_multi_free currency_id who (pay_chain s)) (Some PayMaxSlippage) (pay_chain s) with
    | inl c => (Ok tt, put_chain c s)
    | inr e => (Err e, s)
    end.

(** [m.is_ok()], whatever the error *)
Definition is_ok (m : M DispatchError PaymentSt unit) : M E PaymentSt bool := fun s =>
  match m s with
  | (Ok _, t) => (Ok true, t)
  | (Err _, t) => (Ok false, t)
  | (Panic, t) => (Panic, t)
  end.

Fixpoint charge_loop (who : AccountId) (fee : Balance) (reason : WithdrawReasons) (order : list CurrencyId) :
    M E PaymentSt unit :=
  match order with
  | [] => mret tt
  | currency_id :: order =>
      if decide (currency_id = NativeCurrencyId) then
        enough ← gets (fun s => native_is_enough who fee reason (pay_chain s));
        if enough : bool then mret tt else charge_loop who fee reason order
      else
        swapped ← is_ok (fee_swap who currency_id fee);
        if swapped : bool then mret tt else charge_loop who fee reason order
  end.

Definition ensure_can_charge_fee (who : AccountId) (fee : Balance) (reason : WithdrawReasons) :
    M E PaymentSt unit :=
  order ← gets (charge_fee_order who);
  charge_loop who fee reason order.
End Errors.

(** ** [ChargeTransactionPayment] *)
Definition withdraw_native (who : AccountId) (fee : Balance) (reason : WithdrawReasons) :
    M ValidityError PaymentSt Balance := fun s =>
  match pay_withdraw who fee reason KeepAlive (pay_chain s) with
  | inl (c, imbalance) => (Ok imbalance, put_chain c s)
  | inr _ => (Err Payment, s)
  end.

(** [len as u32] *)
Definition len_as_u32 (len : Z) : Z := len mod 2 ^ 32.

Definition withdraw_fee (tip : Balance) (who : AccountId) (info : DispatchInfo) (len : Z) :
    M ValidityError PaymentSt (Balance * option Balance) :=
  fee ← gets (compute_fee (len_as_u32 len) info tip);
  if fee =? 0 then mret (fee, None) else
  let reason := if tip =? 0 then TRANSACTION_PAYMENT else Z.lor TRANSACTION_PAYMENT TIP in
  ensure_can_charge_fee who fee reason;;
  imbalance ← withdraw_native who fee reason;
  mret (fee, Some imbalance).

Definition get_priority (len : Z) (info : DispatchInfo) (fee : Balance) : Z :=
  let weight_saturation := bw_max_block / Z.max (weight info) 1 in
  let len_saturation := block_length_max / Z.max len 1 in
  let coefficient := Z.min weight_saturation len_saturation in
  Z.min (U128.saturating_mul fee coefficient) U64_MAX.

(** The imbalance is dropped. *)
Definition validate (tip : Balance) (who : AccountId) (info : DispatchInfo) (len : Z) :
    M ValidityError PaymentSt Z :=
  r ← withdraw_fee tip who info len;
  modify (fun s => put_chain (match r.2 with Some i => drop_negative i (pay_chain s) | None => pay_chain s end) s);;
  mret (get_priority len info r.1).

Definition Pre : Type := Balance * AccountId * option Balance * Balance.

Definition pre_dispatch (tip : Balance) (who : AccountId) (info : DispatchInfo) (len : Z) :
    M ValidityError PaymentSt Pre :=
  r ← withdraw_fee tip who info len;
  mret (tip, who, r.2, r.1).

(** The refund of what was paid too much, when the account still exists; the
    rest is what was really paid. *)
Definition refund_payment (who : AccountId) (refund payed : Balance) : M ValidityError PaymentSt Balance := fun s =>
  match pay_deposit_into_existing who refund (pay_chain s) with
  | inl (c, refund_imbalance) =>
      match imbalance_offset payed refund_imbalance with
      | SoSame actual_payment => (Ok actual_payment, put_chain c s)
      | SoNone => (Ok 0, put_chain c s)
      | SoOther rest => (Err Payment, put_chain (drop_positive rest c) s)
      end
  | inr _ => (Ok payed, s)
  end.

Definition post_dispatch (pre : Pre) (info : DispatchInfo) (post_info : PostDispatchInfo) (len : Z) :
    M ValidityError PaymentSt unit :=
  let '(tip, who, imbalance, fee) := pre in
  match imbalance with
  | Some payed =>
      actual_fee ← gets (compute_actual_fee (len_as_u32 len) info post_info tip);
      let refund := U128.saturating_sub fee actual_fee in
      actual_payment ← refund_payment who refund payed;
      let (tip, fee) := imbalance_split actual_payment tip in
      modify (fun s => put_chain (on_unbalanceds [fee; tip] (pay_chain s)) s)
  | None => mret tt
  end.

(** ** The interface [TransactionPayment], for the EVM *)
Definition reserve_native (who : AccountId) (fee : Balance) : M DispatchError PaymentSt unit := fun s =>
  match pay_reserve_named who fee (pay_chain s) with
  | inl c => (Ok tt, put_chain c s)
  | inr e => (Err e, s)
  end.

Definition reserve_fee (who : AccountId) (w : Weight) : M DispatchError PaymentSt Balance :=
  let fee := weight_to_fee w in
  ensure_can_charge_fee who fee TRANSACTION_PAYMENT;;
  reserve_native who fee;;
  mret fee.

Definition unreserve_fee (who : AccountId) (fee : Balance) : M ValidityError PaymentSt unit :=
  modify (fun s => put_chain (pay_unreserve_named who fee (pay_chain s)) s).

Definition unreserve_and_charge_fee (who : AccountId) (w : Weight) :
    M ValidityError PaymentSt (Balance * Balance) :=
  let fee := weight_to_fee w in
  modify (fun s => put_chain (pay_unreserve_named who fee (pay_chain s)) s);;
  imbalance ← withdraw_native who fee TRANSACTION_PAYMENT;
  mret (fee, imbalance).

Definition refund_fee (who : AccountId) (refund_weight : Weight) (payed : Balance) :
    M ValidityError PaymentSt unit :=
  let refund := weight_to_fee refund_weight in
  actual_payment ← refund_payment who refund payed;
  modify (fun s => put_chain (on_unbalanced actual_payment (pay_chain s)) s).

Definition charge_fee (who : AccountId) (len : Z) (w : Weight) (tip : Balance) (pays : Pays)
    (class : DispatchClass) : M ValidityError PaymentSt unit :=
  fee ← gets (fun s => final_fee (compute_fee_raw len w tip pays class s));
  ensure_can_charge_fee who fee TRANSACTION_PAYMENT;;
  actual_payment ← withdraw_native who fee TRANSACTION_PAYMENT;
  modify (fun s => put_chain (on_unbalanced actual_payment (pay_chain s)) s).
End Pallet.

(** The trait [TransactionPayment] of [modules/support/src/lib.rs] *)
Class TransactionPayment (St : Type) := {
  tp_reserve_fee : AccountId -> Weight -> M DispatchError St Balance;
  tp_unreserve_fee : AccountId -> Balance -> M ValidityError St unit;
  tp_unreserve_and_charge_fee : AccountId -> Weight -> M ValidityError St (Balance * Balance);
  tp_refund_fee : AccountId -> Weight -> Balance -> M ValidityError St unit;
  tp_charge_fee : AccountId -> Z -> Weight -> Balance -> Pays -> DispatchClass -> M ValidityError St unit }.
#[export] Instance transaction_payment `{PaymentConfig} : TransactionPayment PaymentSt := {
  tp_reserve_fee := reserve_fee;
  tp_unreserve_fee := unreserve_fee;
  tp_unreserve_and_charge_fee := unreserve_and_charge_fee;
  tp_refund_fee := refund_fee;
  tp_charge_fee := charge_fee }.
