(* ===== verification/PaymentSpecs.v ===== *)
(** * What a transaction pays

    The currency that pays is the first one of the account's order that works;
    what was withdrawn too much is refunded, and the rest goes to the handler of
    fees; the multiplier follows the load. *)
From S2P Require Import Prelude FixedPoint Primitives Runtime Currencies TransactionPayment.

(** ** Documented behaviour of the framework *)

(** What the handler of fees received, and whom it pays *)
Class PaymentObs `{PaymentConfig} := {
  collected : PaySt -> Z;
  beneficiary : AccountId -> Prop }.

Definition taken (who : AccountId) (n : Z) (x : AccountId) : Z := if (x =? who)%N then n else 0.

(** Fixed-point operations saturate and rounding is monotone; the final fee is the
    inclusion fee and the tip; the actual weight is no more than the announced one
    and pays at most what was announced; more weight costs no less; withdrawing
    and depositing change the balance by the amount or fail without effect; the
    handler receives what it is given. *)
Class PaymentLaws `{PaymentObs} : Prop := {
  pay_fixed_laws :: FixedU128Laws;
  smi_mono x m n : is_u128 x -> 0 <= m <= n -> is_u128 n -> saturating_mul_int x m <= saturating_mul_int x n;
  sfr_checked n d : 0 < d -> saturating_from_rational n d = default U128_MAX (checked_from_rational n d);
  fx_div_checked x y q : fx_checked_div x y = Some q -> fx_div x y = q;
  perquintill_part w : 0 <= w -> 0 <= perquintill_mul TargetBlockFullness w <= w;

  final_fee_law d : final_fee d = U128.saturating_add
    (match inclusion_fee d with
     | Some i => U128.saturating_add (U128.saturating_add (base_fee i) (len_fee i)) (adjusted_weight_fee i)
     | None => 0
     end) (fd_tip d);
  actual_weight_le post info : 0 <= weight info -> 0 <= calc_actual_weight post info <= weight info;
  actual_pays post info : calc_pays_fee post info = Yes -> pays_fee info = Yes;
  weight_fee_u128 w : is_u128 (WeightToFee_calc w);
  weight_fee_mono v w : 0 <= v <= w -> WeightToFee_calc v <= WeightToFee_calc w;
  weights_u64 : 0 <= bw_max_block <= U64_MAX /\
    (forall c w, bw_max_total c = Some w -> 0 <= w <= U64_MAX) /\ is_u128 TransactionByteFee /\
    is_u128 MinimumMultiplier /\ is_u128 AdjustmentVariable;

  free_u128 who c : is_u128 (pay_free_balance who c);
  withdraw_law who n r k c c' i : pay_withdraw who n r k c = inl (c', i) -> i = n /\
    (forall x, pay_free_balance x c' = pay_free_balance x c - taken who n x) /\ collected c' = collected c;
  deposit_existing_law who n c c' i : pay_deposit_into_existing who n c = inl (c', i) -> i = n /\
    (forall x, pay_free_balance x c' = pay_free_balance x c + taken who n x) /\ collected c' = collected c;
  offset_law a b : imbalance_offset a b =
    if b <? a then SoSame (a - b) else if a =? b then SoNone else SoOther (b - a);
  split_law a n : imbalance_split a n = (Z.min a n, a - Z.min a n);
  unbalanceds_law l c : collected (on_unbalanceds l c) = collected c + sum_of id l /\
    (forall x, ~ beneficiary x -> pay_free_balance x (on_unbalanceds l c) = pay_free_balance x c);
  unbalanced_law n c : collected (on_unbalanced n c) = collected c + n /\
    (forall x, ~ beneficiary x -> pay_free_balance x (on_unbalanced n c) = pay_free_balance x c) }.

(** ** The order of the currencies *)
Section Order.
Lemma dedup_elem l c : c ∈ dedup l <-> c ∈ l.
Proof.
  induction l as [|x [|y rest] IH]; [done..|].
  change (dedup (x :: y :: rest)) with
    (if decide (x = y) then x :: tail (dedup (y :: rest)) else x :: dedup (y :: rest)).
  case_decide as Hxy; [|rewrite !(elem_of_cons _ c x); by rewrite IH].
  subst y. assert (Hd : exists t, dedup (x :: rest) = x :: t).
  { destruct rest as [|z r]; [by exists []|]. cbn. case_decide; eexists; done. }
  destruct Hd as [t Ht]. rewrite Ht in *. cbn [tail]. rewrite IH, !elem_of_cons. tauto.
Qed.
Lemma dedup_head c l : head (dedup (c :: l)) = Some c.
Proof. destruct l as [|d l]; [done|]. cbn. by case_decide. Qed.
End Order.

Section Charging.
Context `{PaymentConfig}.

(** The effect of a currency that can pay *)
Definition pays_with (who : AccountId) (fee : Balance) (reason : WithdrawReasons) (c : CurrencyId)
    (s : PaymentSt) : option PaymentSt :=
  if decide (c = NativeCurrencyId)
  then if native_is_enough who fee reason (pay_chain s) then Some s else None
  else match fee_swap who c fee s with (Ok _, t) => Some t | _ => None end.

(** The first that can pay does, and the ones before it have no effect. *)
Definition first_pays (who : AccountId) (fee : Balance) (reason : WithdrawReasons) (order : list CurrencyId)
    (s s' : PaymentSt) : Prop :=
  (exists before c after, order = before ++ c :: after /\
     (forall d, d ∈ before -> pays_with who fee reason d s = None) /\ pays_with who fee reason c s = Some s') \/
  ((forall d, d ∈ order -> pays_with who fee reason d s = None) /\ s' = s).

Lemma fee_swap_cases who c fee s :
  (exists t, fee_swap who c fee s = (Ok tt, t)) \/ (exists e, fee_swap who c fee s = (Err e, s)).
Proof. unfold fee_swap. destruct (dex_swap_exact_target _ _ _ _ _ _); eauto. Qed.

Lemma first_pays_skip who fee reason c order s s' : pays_with who fee reason c s = None ->
  first_pays who fee reason order s s' -> first_pays who fee reason (c :: order) s s'.
Proof.
  intros Hc [(before & d & after & -> & Hb & Hd)|[Hn ->]].
  - left. exists (c :: before), d, after. split_and!; [done| |done]. intros x [-> |Hx]%elem_of_cons; auto.
  - right. split; [|done]. intros x [-> |Hx]%elem_of_cons; auto.
Qed.
Lemma first_pays_now who fee reason c order s s' : pays_with who fee reason c s = Some s' ->
  first_pays who fee reason (c :: order) s s'.
Proof. intros Hc. left. exists [], c, order. split_and!; [done| |done]. intros d Hd. by apply not_elem_of_nil in Hd. Qed.

Lemma charge_loop_run {E} who fee reason order s : exists s',
  charge_loop (E := E) who fee reason order s = (Ok tt, s') /\ first_pays who fee reason order s s'.
Proof.
  induction order as [|c order IH].
  { exists s. split; [done|]. right. split; [|done]. intros d Hd. by apply not_elem_of_nil in Hd. }
  destruct IH as (s' & Hrun & Hfirst). cbn [charge_loop]. destruct (decide (c = NativeCurrencyId)) as [Hn|Hn].
  - unfold mbind, M_bind, gets. destruct (native_is_enough who fee reason (pay_chain s)) eqn:He.
    + exists s. split; [done|]. apply first_pays_now. unfold pays_with. by rewrite decide_True, He.
    + exists s'. split; [done|]. apply first_pays_skip; [|done]. unfold pays_with. by rewrite decide_True, He.
  - unfold mbind, M_bind, is_ok. destruct (fee_swap_cases who c fee s) as [[t Ht]|[e Ht]]; rewrite Ht.
    + exists t. split; [done|]. apply first_pays_now. unfold pays_with. by rewrite decide_False, Ht.
    + exists s'. split; [done|]. apply first_pays_skip; [|done]. unfold pays_with. by rewrite decide_False, Ht.
Qed.
Lemma ensure_can_charge_run {E} who fee reason s : exists s',
  ensure_can_charge_fee (E := E) who fee reason s = (Ok tt, s') /\
  first_pays who fee reason (charge_fee_order who s) s s'.
Proof. apply charge_loop_run. Qed.

Lemma pays_with_frame who fee reason c s s' : pays_with who fee reason c s = Some s' ->
  NextFeeMultiplier s' = NextFeeMultiplier s /\ DefaultFeeCurrencyId s' = DefaultFeeCurrencyId s.
Proof.
  unfold pays_with, fee_swap. case_decide; [destruct (native_is_enough _ _ _ _); [by intros [= <-]|done]|].
  destruct (dex_swap_exact_target _ _ _ _ _ _); [by intros [= <-]|done].
Qed.
Lemma first_pays_frame who fee reason order s s' : first_pays who fee reason order s s' ->
  NextFeeMultiplier s' = NextFeeMultiplier s /\ DefaultFeeCurrencyId s' = DefaultFeeCurrencyId s.
Proof. intros [(b & c & a & _ & _ & Hc)|[_ ->]]; [by eapply pays_with_frame|done]. Qed.

(** Making sure that a fee can be charged never fails.  The currencies are
    tried in the account's order - its default currency first, the native one,
    then all the others - and the first that can pay does: nothing happens when
    that is the native currency, and otherwise one swap, for exactly the fee;
    the currencies before it are left alone, and when none can pay all are. *)
Theorem charge_order (who : AccountId) (fee : Balance) (reason : WithdrawReasons) (s : PaymentSt)
    (order := charge_fee_order who s) :
  exists s',
    ensure_can_charge_fee (E := ValidityError) who fee reason s = (Ok tt, s') /\
    first_pays who fee reason order s s' /\
    NextFeeMultiplier s' = NextFeeMultiplier s /\ DefaultFeeCurrencyId s' = DefaultFeeCurrencyId s /\
    head order = Some (default NativeCurrencyId (DefaultFeeCurrencyId s !! who)) /\
    (forall c, c ∈ order <-> Some c = DefaultFeeCurrencyId s !! who \/ c = NativeCurrencyId \/ c ∈ AllNonNativeCurrencyIds) /\
    (default NativeCurrencyId (DefaultFeeCurrencyId s !! who) = NativeCurrencyId ->
     native_is_enough who fee reason (pay_chain s) = true -> s' = s).
Proof.
  destruct (ensure_can_charge_run (E := ValidityError) who fee reason s) as (s' & Hrun & Hf).
  assert (Hh : head order = Some (default NativeCurrencyId (DefaultFeeCurrencyId s !! who))).
  { unfold order, charge_fee_order. destruct (DefaultFeeCurrencyId s !! who); apply dedup_head. }
  exists s'. destruct (first_pays_frame _ _ _ _ _ _ Hf) as [Hm Hd]. split_and!; [done..| |].
  - intros c. unfold order, charge_fee_order. rewrite dedup_elem.
    destruct (DefaultFeeCurrencyId s !! who) as [d|]; cbn; rewrite !elem_of_cons; split;
      intros; destruct_or?; simplify_eq; auto.
  - intros Hn He. rewrite Hn in Hh. fold order in Hf. destruct order as [|c rest]; [done|]. injection Hh as ->.
    assert (Hp : pays_with who fee reason NativeCurrencyId s = Some s) by (unfold pays_with; by rewrite decide_True, He).
    destruct Hf as [([|b before] & d & after & Heq & Hb & Hc)|[Hb _]].
    + injection Heq as <- _. congruence.
    + injection Heq as <- _. rewrite Hb in Hp by left. done.
    + rewrite Hb in Hp by left. done.
Qed.
End Charging.

(** ** Fees and their settlement *)
Section Fees.
Context `{PaymentLaws}.

Lemma weight_to_fee_u128 w : is_u128 (weight_to_fee w).
Proof. apply weight_fee_u128. Qed.
Lemma weight_to_fee_mono v w : 0 <= v <= w -> weight_to_fee v <= weight_to_fee w.
Proof. intros Hv. destruct weights_u64 as [? _]. apply weight_fee_mono. lia. Qed.

Lemma saturating_add_mono a b c d : a <= c -> b <= d -> U128.saturating_add a b <= U128.saturating_add c d.
Proof. intros. uarith. Qed.

Lemma compute_fee_raw_u128 len w tip pays cl s :
  is_u128 (NextFeeMultiplier s) -> 0 <= len -> is_u128 tip -> is_u128 (final_fee (compute_fee_raw len w tip pays cl s)).
Proof.
  intros Hm Hl Ht. rewrite final_fee_law. unfold compute_fee_raw.
  destruct weights_u64 as (_ & _ & Hb & _). case_decide; cbn; [|by apply saturating_add_u128].
  pose proof (weight_to_fee_u128 w) as Hw. pose proof (weight_to_fee_u128 (bw_base_extrinsic cl)).
  pose proof (smi_u128 _ _ Hm Hw). repeat apply saturating_add_u128; try done.
  unfold is_u128, U128.saturating_mul in *. nia.
Qed.

(** A lighter transaction that pays less often costs no more. *)
Lemma compute_fee_raw_mono len v w tip p q cl s :
  is_u128 (NextFeeMultiplier s) -> 0 <= len -> is_u128 tip -> 0 <= v <= w -> (p = Yes -> q = Yes) ->
  final_fee (compute_fee_raw len v tip p cl s) <= final_fee (compute_fee_raw len w tip q cl s).
Proof.
  intros Hm Hl Ht Hv Hpq. rewrite !final_fee_law. unfold compute_fee_raw.
  pose proof (weight_to_fee_mono v w Hv). pose proof (weight_to_fee_u128 v) as Hfv.
  pose proof (weight_to_fee_u128 w) as Hfw. destruct weights_u64 as (_ & _ & Hb & _).
  assert (Hlen : is_u128 (U128.saturating_mul TransactionByteFee len))
    by (unfold is_u128, U128.saturating_mul in *; nia).
  destruct (decide (p = Yes)) as [->|Hp]; [rewrite decide_True by auto|]; cbn.
  - repeat apply saturating_add_mono; try lia. apply smi_mono; [done| |done]. unfold is_u128 in *. lia.
  - apply saturating_add_mono; [|by case_decide]. case_decide; cbn; [|lia].
    apply saturating_add_u128; [apply saturating_add_u128|]; try done; [apply weight_to_fee_u128|by apply smi_u128].
Qed.

Lemma len_as_u32_nonneg len : 0 <= len_as_u32 len.
Proof. apply Z.mod_pos_bound. lia. Qed.
Hint Resolve len_as_u32_nonneg : core.

Lemma actual_fee_le len info post tip s : is_u128 (NextFeeMultiplier s) -> is_u128 tip -> 0 <= weight info -> 0 <= len ->
  0 <= compute_actual_fee len info post tip s <= compute_fee len info tip s.
Proof.
  intros Hm Ht Hw Hl. split; [by apply compute_fee_raw_u128|].
  apply compute_fee_raw_mono; [done..|by apply actual_weight_le|apply actual_pays].
Qed.

(** What an account paid when the transaction is over, of what was withdrawn *)
Definition settled (who : AccountId) (payed actual : Balance) (s s' : PaymentSt) : Prop :=
  exists paid,
    (paid = actual \/ paid = payed /\ exists e, pay_deposit_into_existing who (payed - actual) (pay_chain s) = inr e) /\
    pay_free_balance who (pay_chain s') = pay_free_balance who (pay_chain s) + (payed - paid) /\
    collected (pay_chain s') = collected (pay_chain s) + paid.

(** The refund, when it is no more than what was paid, cannot fail. *)
Lemma refund_payment_wp who refund payed s : 0 <= refund <= payed -> wp (refund_payment who refund payed)
  (fun paid s' => NextFeeMultiplier s' = NextFeeMultiplier s /\
     (paid = payed - refund \/ paid = payed /\ exists e, pay_deposit_into_existing who refund (pay_chain s) = inr e) /\
     pay_free_balance who (pay_chain s') = pay_free_balance who (pay_chain s) + (payed - paid) /\
     collected (pay_chain s') = collected (pay_chain s))
  (fun _ _ => False) s.
Proof.
  intros Hr. unfold wp, refund_payment.
  destruct (pay_deposit_into_existing who refund (pay_chain s)) as [[c i]|e] eqn:Hd.
  - apply deposit_existing_law in Hd as (-> & Hf & Hc). rewrite offset_law.
    destruct (Z.ltb_spec refund payed) as [Hlt|Hge]; [|rewrite (proj2 (Z.eqb_eq payed refund)) by lia];
      cbn; rewrite Hf, Hc; unfold taken; rewrite N.eqb_refl; split_and!; try done; first [left; lia | lia].
  - split_and!; [done| |lia|done]. right. eauto.
Qed.

Lemma unbalanceds_two a b c : collected (on_unbalanceds [a; b] c) = collected c + (a + b).
Proof. destruct (unbalanceds_law [a; b] c) as [-> _]. rewrite !sum_of_cons, sum_of_nil. cbn. lia. Qed.

(** C8: what a transaction withdraws before its dispatch is settled after it.
    Before, some currency of the account is made to pay, and the whole fee is
    withdrawn or the transaction is invalid; nothing is withdrawn for a fee of
    zero.  After the dispatch, whatever that did to the chain, as long as the block
    has not ended - the multiplier is the same - settling never fails: the actual
    fee is no more than the fee; the difference goes back, unless the account is
    gone; and the handler receives exactly what was kept, tip included. *)
Theorem transaction_fee_settles (tip : Balance) (who : AccountId) (info : DispatchInfo) (len : Z)
    (s : PaymentSt) (fee := compute_fee (len_as_u32 len) info tip s) :
  is_u128 tip -> 0 <= weight info -> is_u128 (NextFeeMultiplier s) -> ~ beneficiary who ->
  wp (pre_dispatch tip who info len)
    (fun pre s' =>
       (if fee =? 0 then pre = (tip, who, None, fee) /\ s' = s else
          pre = (tip, who, Some fee, fee) /\
          exists reason s1, first_pays who fee reason (charge_fee_order who s) s s1 /\
            pay_free_balance who (pay_chain s') = pay_free_balance who (pay_chain s1) - fee /\
            collected (pay_chain s') = collected (pay_chain s1)) /\
       (forall t post, NextFeeMultiplier t = NextFeeMultiplier s ->
          let actual := compute_actual_fee (len_as_u32 len) info post tip t in
          0 <= actual <= fee /\
          wp (post_dispatch pre info post len) (fun _ => settled who fee actual t) (fun _ _ => False) t))
    (fun _ s' => exists reason s1, first_pays who fee reason (charge_fee_order who s) s s1 /\ s' = s1) s.
Proof.
  intros Htip Hw Hm Hb.
  assert (Hpost : forall t post, NextFeeMultiplier t = NextFeeMultiplier s ->
    let actual := compute_actual_fee (len_as_u32 len) info post tip t in
    0 <= actual <= fee /\
    wp (post_dispatch (tip, who, if fee =? 0 then None else Some fee, fee) info post len)
      (fun _ => settled who fee actual t) (fun _ _ => False) t).
  { intros t post Ht actual.
    assert (Hle : 0 <= actual <= fee).
    { assert (Hfee : fee = compute_fee (len_as_u32 len) info tip t).
      { unfold fee, compute_fee, compute_fee_details, compute_fee_raw. by rewrite Ht. }
      rewrite Hfee. apply actual_fee_le; [congruence|done..|auto]. }
    split; [done|]. unfold post_dispatch. destruct (Z.eqb_spec fee 0) as [Hz|Hz].
    { exists 0. split_and!; [left; lia|lia|lia]. }
    apply wp_bind, wp_gets. fold actual. rewrite saturating_sub_exact by lia.
    apply wp_bind. eapply wp_mono; [apply refund_payment_wp; lia| |done].
    intros paid u (_ & Hp & Hf & Hc). rewrite split_law. apply wp_modify. exists paid. split_and!.
    - replace (fee - (fee - actual)) with actual in Hp by lia. exact Hp.
    - cbn. destruct (unbalanceds_law [paid - Z.min paid tip; Z.min paid tip] (pay_chain u)) as [_ Hx].
      by rewrite Hx.
    - cbn. rewrite unbalanceds_two. lia. }
  unfold pre_dispatch, withdraw_fee. rewrite wp_bind. apply wp_bind, wp_gets. fold fee.
  destruct (Z.eqb_spec fee 0) as [Hz|Hz]; [done|].
  set (reason := if tip =? 0 then _ else _). apply wp_bind.
  destruct (ensure_can_charge_run (E := ValidityError) who fee reason s) as (s1 & Hrun & Hf).
  unfold wp at 1. rewrite Hrun. apply wp_bind. unfold wp at 1, withdraw_native.
  destruct (pay_withdraw who fee reason KeepAlive (pay_chain s1)) as [[c i]|e] eqn:Hx; [|by exists reason, s1].
  apply withdraw_law in Hx as (-> & Hfree & Hc). apply wp_ret. cbn [fst snd]. apply wp_ret. split; [|exact Hpost].
  split; [done|]. exists reason, s1. cbn. rewrite Hfree, Hc. unfold taken. by rewrite N.eqb_refl.
Qed.

(** What the EVM charges for a weight and refunds of it is settled in the same way. *)
Lemma refund_fee_settles who w refund_weight s : 0 <= refund_weight <= w -> ~ beneficiary who ->
  wp (refund_fee who refund_weight (weight_to_fee w))
    (fun _ => settled who (weight_to_fee w) (weight_to_fee w - weight_to_fee refund_weight) s) (fun _ _ => False) s.
Proof.
  intros Hr Hb. pose proof (weight_to_fee_mono _ _ Hr). pose proof (weight_to_fee_u128 refund_weight) as [Hu _].
  unfold refund_fee. apply wp_bind. eapply wp_mono; [apply refund_payment_wp; lia| |done].
  intros paid u (_ & Hp & Hf & Hc). apply wp_modify. exists paid.
  destruct (unbalanced_law paid (pay_chain u)) as [Hx Hy]. split_and!.
  - by replace (weight_to_fee w - (weight_to_fee w - weight_to_fee refund_weight)) with (weight_to_fee refund_weight) by lia.
  - cbn. by rewrite Hy.
  - cbn. rewrite Hx. lia.
Qed.

(** ** The multiplier *)
Lemma fsm_zero_l x : is_u128 x -> fx_saturating_mul 0 x = 0.
Proof.
  intros Hx. rewrite fsm_checked. destruct (fx_checked_mul 0 x) eqn:E; cbn.
  - apply fcm_Some in E as [? Hr]; [|uarith|done]. unfold rounds, DIV in Hr. uarith.
  - apply fcm_None in E; [|uarith|done]. unfold DIV in *. uarith.
Qed.
Lemma fsm_zero_r x : is_u128 x -> fx_saturating_mul x 0 = 0.
Proof.
  intros Hx. rewrite fsm_checked. destruct (fx_checked_mul x 0) eqn:E; cbn.
  - apply fcm_Some in E as [? Hr]; [|done|uarith]. unfold rounds, DIV in Hr. uarith.
  - apply fcm_None in E; [|done|uarith]. unfold DIV in *. uarith.
Qed.
Lemma sfr_u128 n d : is_u128 n -> is_u128 d -> 0 < d -> is_u128 (saturating_from_rational n d).
Proof.
  intros Hn Hd Hpos. rewrite sfr_checked by done. destruct (checked_from_rational n d) eqn:E; cbn; [|uarith].
  by apply cfr_Some in E as (_ & ? & _).
Qed.
Lemma sfr_zero d : is_u128 d -> 0 < d -> saturating_from_rational 0 d = 0.
Proof.
  intros Hd Hpos. rewrite sfr_checked by done. destruct (checked_from_rational 0 d) eqn:E; cbn.
  - apply cfr_Some in E as (_ & ? & Hr); [|uarith|done]. unfold rounds in Hr. nia.
  - apply cfr_None in E; [|uarith|done]. unfold U128_MAX in *. lia.
Qed.
Lemma half_u128 x : is_u128 x -> is_u128 (fx_div x (fx_from_integer 2)).
Proof.
  intros Hx. set (two := fx_from_integer 2). assert (Htwo : two = 2 * DIV) by (vm_compute; reflexivity).
  assert (Hu : is_u128 two) by (rewrite Htwo; unfold DIV; uarith).
  destruct (fx_checked_div x two) as [q|] eqn:E.
  - rewrite (fx_div_checked _ _ _ E). by apply fcd_Some in E as (_ & ? & _).
  - apply fcd_None in E; [|done..]. unfold DIV in *. uarith.
Qed.

(** The multiplier never falls below its minimum and is always a valid number.
    A block filled more than the target does not lower it, a block filled less
    does not raise it, and a block exactly on target leaves it alone; nothing
    overflows or divides by zero. *)
Theorem multiplier_follows_load (now : Weight) (previous : Multiplier)
    (full := default bw_max_block (bw_max_total Normal))
    (target := perquintill_mul TargetBlockFullness full)
    (next := fee_multiplier_convert now previous) :
  0 <= now <= U64_MAX -> is_u128 previous ->
  is_u128 next /\ MinimumMultiplier <= next /\
  (target <= Z.min now full -> Z.max previous MinimumMultiplier <= next) /\
  (Z.min now full <= target -> next <= Z.max previous MinimumMultiplier) /\
  (Z.min now full = target -> next = Z.max previous MinimumMultiplier).
Proof.
  intros Hnow Hprev. destruct weights_u64 as (Hmb & Hmt & _ & Hmin & Hv).
  assert (Hfull : 0 <= full <= U64_MAX) by (unfold full; destruct (bw_max_total Normal) eqn:E; cbn; eauto).
  pose proof (perquintill_part full ltac:(lia)) as Ht. fold target in Ht.
  unfold next, fee_multiplier_convert. fold full. fold target. cbv zeta.
  set (now' := Z.min now full). assert (Hn' : 0 <= now' <= full) by (unfold now'; lia).
  set (p := Z.max previous MinimumMultiplier). assert (Hp : is_u128 p) by (unfold p; uarith).
  assert (HU : U64_MAX <= U128_MAX) by (unfold U64_MAX, U128_MAX; lia).
  set (d := Z.max now' target - Z.min now' target). assert (Hd : is_u128 d) by (unfold d, is_u128; lia).
  assert (Hden : is_u128 (Z.max full 1) /\ 0 < Z.max full 1) by (unfold is_u128; unfold U64_MAX, U128_MAX in *; lia).
  pose proof (sfr_u128 d _ Hd (proj1 Hden) (proj2 Hden)) as Hdiff.
  pose proof (fsm_u128 _ _ Hdiff Hdiff) as Hsq. pose proof (fsm_u128 _ _ Hv Hv) as Hvv.
  pose proof (half_u128 _ Hvv) as Hv2. pose proof (fsm_u128 _ _ Hv Hdiff) as Hfirst.
  pose proof (fsm_u128 _ _ Hv2 Hsq) as Hsecond.
  set (diff := saturating_from_rational d _) in *.
  set (first := fx_saturating_mul AdjustmentVariable diff) in *. set (second := fx_saturating_mul (fx_div _ _) _) in *.
  pose proof (fsm_u128 _ _ (saturating_add_u128 _ _ Hfirst Hsecond) Hp) as Hex.
  pose proof (fsm_u128 _ _ (saturating_sub_u128 _ _ Hfirst Hsecond) Hp) as Hneg.
  assert (Hzero : now' = target -> first = 0 /\ second = 0).
  { intros Heq. assert (Hd0 : diff = 0).
    { unfold diff. assert (d = 0) as -> by (unfold d; lia). apply sfr_zero; apply Hden. }
    unfold first, second. rewrite Hd0, (fsm_zero_r 0), !fsm_zero_r by (done || uarith). done. }
  assert (Hfix : now' = target ->
    fx_saturating_mul (U128.saturating_add first second) p = 0 /\ fx_saturating_mul (U128.saturating_sub first second) p = 0).
  { intros Heq. destruct (Hzero Heq) as [-> ->]. by split; apply fsm_zero_l. }
  assert (Hpm : MinimumMultiplier <= p) by (unfold p; lia). clearbody p first second.
  destruct (Z.leb_spec target now') as [Hpos|Hneg'].
  - pose proof (saturating_add_u128 _ _ Hp Hex). pose proof (saturating_add_ge _ _ Hp Hex).
    split_and!; [unfold is_u128 in *; lia|lia|lia| |]; intros Heq;
      destruct (Hfix ltac:(lia)) as [-> _]; rewrite saturating_add_exact; unfold is_u128 in *; lia.
  - pose proof (saturating_sub_u128 _ _ Hp Hneg). unfold U128.saturating_sub in *.
    split_and!; unfold is_u128 in *; lia.
Qed.
End Fees.
