(* ===== verification/PaymentSample.v ===== *)
(** * A chain with fees

    An instance of the fees pallet the witnesses run: the fee of a weight is the
    weight, the exchange sells two units of any currency for one of the native
    one, and the handler of fees is the treasury. *)
From S2P Require Import Prelude FixedPoint Primitives Runtime Sample Currencies TransactionPayment PaymentSpecs.

Record FeeChain := mkFeeChain { fc_ledger : SampleLedger; fc_collected : Z; fc_weight : Weight }.
Definition treasury : AccountId := 99%N.

Definition u128b (n : Z) : bool := (0 <=? n) && (n <=? U128_MAX).
Lemma u128b_spec n : u128b n = true <-> is_u128 n.
Proof. unfold u128b, is_u128. rewrite andb_true_iff, !Z.leb_le. done. Qed.

Definition fee_withdraw (who : AccountId) (n : Balance) (c : FeeChain) : (FeeChain * Balance) + DispatchError :=
  if u128b n then
    match l_withdraw (Token ACA) who n (fc_ledger c) with
    | inl l => inl (mkFeeChain l (fc_collected c) (fc_weight c), n)
    | inr e => inr e
    end
  else inr (ExternalError 0).
Definition fee_deposit (who : AccountId) (n : Balance) (c : FeeChain) : (FeeChain * Balance) + DispatchError :=
  if u128b n && (0 <? l_raw (fc_ledger c) (Token ACA) who) then
    match l_deposit (Token ACA) who n (fc_ledger c) with
    | inl l => inl (mkFeeChain l (fc_collected c) (fc_weight c), n)
    | inr e => inr e
    end
  else inr (ExternalError 0).
Definition fee_collect (n : Balance) (c : FeeChain) : FeeChain :=
  mkFeeChain (fc_ledger c) (fc_collected c + n) (fc_weight c).
Definition sell_two_for_one (who : AccountId) (path : list CurrencyId) (target max_supply : Balance) (c : FeeChain) :
    FeeChain + DispatchError :=
  match path with
  | currency :: _ =>
      if 2 * target <=? max_supply then
        match l_withdraw currency who (2 * target) (fc_ledger c) with
        | inl l => match l_deposit (Token ACA) who target l with
                   | inl l => inl (mkFeeChain l (fc_collected c) (fc_weight c))
                   | inr e => inr e
                   end
        | inr e => inr e
        end
      else inr (DexE DexError.ExcessiveSupplyAmount)
  | [] => inr (DexE DexError.InvalidTradingPathLength)
  end.

#[local] Instance fees : PaymentConfig := {
  pay_fixed := sample_fixed;
  saturating_from_rational n d := default U128_MAX (@checked_from_rational sample_fixed n d);
  fx_div x y := default 0 (@fx_checked_div sample_fixed x y);
  perquintill_mul s w := s * w / DIV;
  final_fee d := U128.saturating_add
    (match inclusion_fee d with
     | Some i => U128.saturating_add (U128.saturating_add (base_fee i) (len_fee i)) (adjusted_weight_fee i)
     | None => 0
     end) (fd_tip d);
  calc_actual_weight post info :=
    match actual_weight post with Some w => Z.max 0 (Z.min w (weight info)) | None => weight info end;
  calc_pays_fee post info := match post_pays_fee post with No => No | Yes => pays_fee info end;
  WeightToFee_calc w := Z.max 0 (Z.min w U128_MAX);
  bw_max_block := 2000;
  bw_max_total c := match c with Normal => Some 1500 | _ => None end;
  bw_base_extrinsic _ := 5;
  block_length_max := 1000;
  PaySt := FeeChain;
  block_weight _ c := fc_weight c;
  pay_free_balance who c := l_balance (fc_ledger c) (Token ACA) who;
  pay_can_withdraw _ _ _ _ _ := true;
  pay_withdraw who n _ _ c := fee_withdraw who n c;
  pay_deposit_into_existing := fee_deposit;
  pay_reserve_named who n c := match fee_withdraw who n c with inl (c, _) => inl c | inr e => inr e end;
  pay_unreserve_named who n c := match fee_deposit who n c with inl (c, _) => c | inr _ => c end;
  imbalance_offset a b := if b <? a then SoSame (a - b) else if a =? b then SoNone else SoOther (b - a);
  imbalance_split a n := (Z.min a n, a - Z.min a n);
  drop_negative _ c := c;
  drop_positive _ c := c;
  on_unbalanced := fee_collect;
  on_unbalanceds l c := fee_collect (sum_of id l) c;
  pay_multi_free c who s := l_balance (fc_ledger s) c who;
  dex_swap_exact_target who path target max_supply _ c := sell_two_for_one who path target max_supply c;
  AllNonNativeCurrencyIds := [Token AUSD; Token DOT];
  NativeCurrencyId := Token ACA;
  StableCurrencyId := Token AUSD;
  TransactionByteFee := 2;
  TargetBlockFullness := DIV / 4;
  AdjustmentVariable := DIV / 100;
  MinimumMultiplier := DIV / 1000;
  PayMaxSlippage := DIV / 10 }.

#[local] Instance fees_obs : @PaymentObs fees := {
  collected := fc_collected;
  beneficiary who := who = treasury }.

Lemma taken_delta who n x : taken who n x = delta (Token ACA) who n (Token ACA) x.
Proof. unfold taken, delta. destruct (N.eqb_spec x who); case_decide; naive_solver. Qed.

#[local] Instance fees_laws : PaymentLaws.
Proof.
  constructor; cbn -[DIV].
  - exact sample_fixed_laws.
  - intros x m n Hx Hm Hn.
    assert (Hle : x * m / DIV <= x * n / DIV).
    { apply Z.div_le_mono; [done|]. apply Z.mul_le_mono_nonneg_l; [apply Hx|lia]. }
    unfold fits. destruct (Z.leb_spec (x * m / DIV) U128_MAX), (Z.leb_spec (x * n / DIV) U128_MAX); cbn; lia.
  - done.
  - intros x y q Hq. by rewrite Hq.
  - intros w Hw. change (DIV / 4) with 250000000000000000. unfold DIV.
    split; [apply Z.div_pos; lia|]. apply Z.div_le_upper_bound; lia.
  - done.
  - intros [[w|] p] info Hw; cbn; lia.
  - intros [w []] info; done.
  - intros w. uarith.
  - intros; uarith.
  - split_and!; [lia|unfold U64_MAX; lia|intros [] w [= <-]; unfold U64_MAX; lia|uarith| |];
      [change (DIV / 1000) with 1000000000000000|change (DIV / 100) with 10000000000000000]; uarith.
  - intros who c. unfold l_balance. pose proof (l_raw_nonneg (fc_ledger c) (Token ACA) who). uarith.
  - intros who n _ _ c c' i. unfold fee_withdraw. destruct (u128b n) eqn:Hn; [|done]. apply u128b_spec in Hn.
    destruct (l_withdraw _ _ _ _) as [l|] eqn:Hl; [|done]. intros [= <- <-]. split_and!; [done| |done].
    intros x. rewrite taken_delta. by apply (sample_withdraw_law _ _ _ _ _ Hn Hl).
  - intros who n c c' i. unfold fee_deposit. destruct (u128b n) eqn:Hn; [|done]. apply u128b_spec in Hn.
    destruct (0 <? _); [|done]. cbn [andb].
    destruct (l_deposit _ _ _ _) as [l|] eqn:Hl; [|done]. intros [= <- <-]. split_and!; [done| |done].
    intros x. rewrite taken_delta. by apply (sample_deposit_law _ _ _ _ _ Hn Hl).
  - done.
  - done.
  - done.
  - done.
Qed.

(** ** A transaction paid with the stable currency *)

(** Account 1 has 10 of the native currency and 5000 of the stable one, and pays
    with the stable one by default. *)
Definition payer : PaymentSt :=
  mkPayment _ DIV (<[1%N := Token AUSD]> ∅)
    (mkFeeChain (l_put (l_put (mkLedger ∅ ∅) (Token ACA) 1%N 10) (Token AUSD) 1%N 5000) 0 900).
Definition info : DispatchInfo := mkDispatchInfo 300 Normal Yes.
Definition post_info : PostDispatchInfo := mkPostDispatchInfo (Some 100) Yes.

(** A witness of [charge_order]: the first currency pays for 405 with 810. *)
Lemma charge_order_witness : exists s',
  ensure_can_charge_fee (E := ValidityError) 1%N 405 TRANSACTION_PAYMENT payer = (Ok tt, s') /\
  first_pays 1%N 405 TRANSACTION_PAYMENT [Token AUSD; Token ACA; Token AUSD; Token DOT] payer s' /\
  l_balance (fc_ledger (pay_chain s')) (Token AUSD) 1%N = 4190 /\
  l_balance (fc_ledger (pay_chain s')) (Token ACA) 1%N = 415.
Proof.
  destruct (charge_order 1%N 405 TRANSACTION_PAYMENT payer) as (s' & Hrun & Hf & _).
  exists s'. split; [exact Hrun|]. split; [exact Hf|].
  assert (Hs : s' = (ensure_can_charge_fee (E := ValidityError) 1%N 405 TRANSACTION_PAYMENT payer).2)
    by (rewrite Hrun; reflexivity).
  rewrite Hs. split; vm_compute; reflexivity.
Defined.

Definition before : outcome ValidityError Pre * PaymentSt := pre_dispatch 20 1%N info 40 payer.
Lemma before_ok : before = (Ok (20, 1%N, Some 405, 405), before.2).
Proof. apply run_split. vm_compute. reflexivity. Qed.
Definition after : outcome ValidityError unit * PaymentSt :=
  post_dispatch (20, 1%N, Some 405, 405) info post_info 40 before.2.
Lemma after_ok : after = (Ok tt, after.2).
Proof. apply run_split. vm_compute. reflexivity. Qed.

(** A witness of [transaction_fee_settles]: of 405 withdrawn, 200 go back. *)
Lemma transaction_fee_settles_witness :
  settled 1%N 405 205 before.2 after.2 /\
  l_balance (fc_ledger (pay_chain after.2)) (Token ACA) 1%N = 210 /\ fc_collected (pay_chain after.2) = 205.
Proof.
  split; [|split; vm_compute; reflexivity].
  assert (Htip : is_u128 20) by uarith. assert (Hw : 0 <= weight info) by (cbn; lia).
  assert (Hm : is_u128 (NextFeeMultiplier payer)) by wcheck.
  assert (Hb : ~ beneficiary 1%N) by (cbn; unfold treasury; discriminate).
  pose proof (transaction_fee_settles 20 1%N info 40 payer Htip Hw Hm Hb) as Hpre.
  destruct (wp_ok _ _ _ _ _ _ Hpre before_ok) as [_ Hpost].
  assert (Hsame : NextFeeMultiplier before.2 = NextFeeMultiplier payer) by (vm_compute; reflexivity).
  destruct (Hpost before.2 post_info Hsame) as [_ Hafter].
  exact (wp_ok _ _ _ _ _ _ Hafter after_ok).
Defined.

(** A witness of [multiplier_follows_load]: a block of 900, where 375 is the target *)
Lemma multiplier_follows_load_witness : DIV <= fee_multiplier_convert 900 DIV.
Proof.
  assert (Hn : 0 <= 900 <= U64_MAX) by (unfold U64_MAX; lia). assert (Hd : is_u128 DIV) by wcheck.
  destruct (multiplier_follows_load 900 DIV Hn Hd) as (_ & _ & Hup & _).
  assert (Hb : 375 <= Z.min 900 1500) by lia. exact (Hup Hb).
Defined.
