(* ===== verification/Nft.v ===== *)
(** * Non-fungible tokens

    [modules/nft/src/lib.rs]: classes and tokens, whose storage is the crate
    [orml_nft], with a deposit reserved for each.  Proxies and balances are those
    of other crates; the storage maps of [orml_nft] the pallet reads are maps. *)
From S2P Require Import Prelude Primitives Runtime Bytes.

Abbreviation ClassId := Z.
Abbreviation TokenId := Z.
Abbreviation CID := bytes.

(** ** Data *)
Inductive ClassProperty := Transferable | Burnable.
(** [BitFlags<ClassProperty>], by its bits *)
Abbreviation Properties := Z.
Definition property_bit (p : ClassProperty) : Z := match p with Transferable => 0 | Burnable => 1 end.
Definition contains (ps : Properties) (p : ClassProperty) : bool := Z.testbit ps (property_bit p).
(** [impl Encode for Properties] and [impl Decode for Properties] *)
Definition properties_encode (ps : Properties) : bytes := [ps].
Definition properties_decode (input : bytes) : option (Properties * bytes) :=
  match input with
  | [] => None
  | field :: rest => if Z.land field (Z.lnot 3) =? 0 then Some (field, rest) else None
  end.

Record ClassData := mkClassData { cd_deposit : Balance; cd_properties : Properties }.
Record TokenData := mkTokenData { td_deposit : Balance }.
(** [orml_nft::ClassInfo] and [orml_nft::TokenInfo] *)
Record ClassInfo := mkClassInfo {
  ci_metadata : CID; ci_total_issuance : Z; ci_owner : AccountId; ci_data : ClassData }.
Record TokenInfo := mkTokenInfo { ti_metadata : CID; ti_owner : AccountId; ti_data : TokenData }.

Inductive ExistenceRequirement := KeepAlive | AllowDeath.

Inductive NftEvent :=
  | CreatedClass (owner : AccountId) (c : ClassId)
  | MintedToken (from to : AccountId) (c : ClassId) (quantity : Z)
  | TransferredToken (from to : AccountId) (c : ClassId) (t : TokenId)
  | BurnedToken (owner : AccountId) (c : ClassId) (t : TokenId)
  | BurnedTokenWithRemark (owner : AccountId) (c : ClassId) (t : TokenId) (remark_hash : Z)
  | DestroyedClass (owner : AccountId) (c : ClassId).

(** ** What the pallet calls *)
Class NftConfig := {
  (* [orml_nft] *)
  NftStore : Type;
  next_class_id : NftStore -> ClassId;
  classes : NftStore -> gmap ClassId ClassInfo;
  tokens : NftStore -> gmap (ClassId * TokenId) TokenInfo;
  tokens_by_owner : NftStore -> AccountId -> list (ClassId * TokenId);
  orml_create_class : AccountId -> CID -> ClassData -> NftStore -> (ClassId * NftStore) + DispatchError;
  orml_mint : AccountId -> ClassId -> CID -> TokenData -> NftStore -> (TokenId * NftStore) + DispatchError;
  orml_transfer : AccountId -> AccountId -> ClassId * TokenId -> NftStore -> NftStore + DispatchError;
  orml_burn : AccountId -> ClassId * TokenId -> NftStore -> NftStore + DispatchError;
  orml_destroy_class : AccountId -> ClassId -> NftStore -> NftStore + DispatchError;
  (* balances, the reserves under [RESERVE_ID], and [pallet_proxy] *)
  Coins : Type;
  nft_transfer_coins : AccountId -> AccountId -> Balance -> ExistenceRequirement -> Coins -> Coins + DispatchError;
  nft_free_balance : AccountId -> Coins -> Balance;
  nft_reserved : AccountId -> Coins -> Balance;
  nft_reserve_named : AccountId -> Balance -> Coins -> Coins + DispatchError;
  nft_unreserve_named : AccountId -> Balance -> Coins -> Balance * Coins;
  proxy_deposit : Z -> Balance;
  add_proxy_delegate : AccountId -> AccountId -> Coins -> Coins + DispatchError;
  remove_proxy_delegate : AccountId -> AccountId -> Coins -> Coins + DispatchError;
  (* [T::PalletId::into_sub_account], [T::Lookup], [T::Hashing] *)
  class_account : ClassId -> AccountId;
  NftLookupSource : Type;
  nft_lookup : NftLookupSource -> option AccountId;
  nft_hash : bytes -> Z;
  (* constants *)
  CreateClassDeposit : Balance;
  CreateTokenDeposit : Balance;
  DataDepositPerByte : Balance }.

Section Pallet.
Context `{NftConfig}.

Record NftState := mkNft { nft_store : NftStore; coins : Coins; nft_events : list NftEvent }.
Abbreviation MD := (M DispatchError NftState).

Definition in_store {A} (f : NftStore -> (A * NftStore) + DispatchError) : MD A := fun s =>
  match f (nft_store s) with
  | inl (a, st) => (Ok a, mkNft st (coins s) (nft_events s))
  | inr e => (Err e, s)
  end.
Definition in_store_ (f : NftStore -> NftStore + DispatchError) : MD unit :=
  in_store (fun st => match f st with inl st' => inl (tt, st') | inr e => inr e end).
Definition in_coins (f : Coins -> Coins + DispatchError) : MD unit := fun s =>
  match f (coins s) with
  | inl c => (Ok tt, mkNft (nft_store s) c (nft_events s))
  | inr e => (Err e, s)
  end.
Definition unreserve (who : AccountId) (n : Balance) : MD unit :=
  in_coins (fun c => inl (nft_unreserve_named who n c).2).
Definition nft_event (e : NftEvent) : MD unit :=
  modify (fun s => mkNft (nft_store s) (coins s) (nft_events s ++ [e])).
Definition nft_lookup_source (src : NftLookupSource) : MD AccountId := ok_or (nft_lookup src) CannotLookup.
Definition class_of (c : ClassId) (s : NftState) : option ClassInfo := classes (nft_store s) !! c.
Definition token_of (t : ClassId * TokenId) (s : NftState) : option TokenInfo := tokens (nft_store s) !! t.

(** ** The extrinsics *)
Definition create_class (origin : Origin) (metadata : CID) (properties : Properties) : MD unit :=
  transactional (
    who ← ensure_signed origin;
    next_id ← gets (fun s => next_class_id (nft_store s));
    let owner := class_account next_id in
    let class_deposit := CreateClassDeposit in
    let data_deposit := U128.saturating_mul DataDepositPerByte (len metadata mod 2 ^ 32) in
    let deposit := U128.saturating_add class_deposit data_deposit in
    let total_deposit := U128.saturating_add (proxy_deposit 1) deposit in
    in_coins (nft_transfer_coins who owner total_deposit KeepAlive);;
    in_coins (nft_reserve_named owner deposit);;
    in_coins (add_proxy_delegate owner who);;
    in_store (orml_create_class owner metadata (mkClassData deposit properties));;
    nft_event (CreatedClass owner next_id)).

(** [for _ in 0..quantity] *)
Fixpoint mint_loop (quantity : nat) (to : AccountId) (c : ClassId) (metadata : CID) (data : TokenData) : MD unit :=
  match quantity with
  | O => mret tt
  | S quantity => in_store (orml_mint to c metadata data);; mint_loop quantity to c metadata data
  end.

Definition mint (origin : Origin) (to : NftLookupSource) (c : ClassId) (metadata : CID) (quantity : Z) : MD unit :=
  transactional (
    who ← ensure_signed origin;
    to ← nft_lookup_source to;
    ensure (1 <=? quantity) (NftE NftError.InvalidQuantity);;
    class ← gets (class_of c);
    class_info ← ok_or class (NftE NftError.ClassIdNotFound);
    ensure (who =? ci_owner class_info)%N (NftE NftError.NoPermission);;
    let deposit := CreateTokenDeposit in
    let total_deposit := U128.saturating_mul deposit quantity in
    in_coins (nft_transfer_coins who to total_deposit KeepAlive);;
    in_coins (nft_reserve_named to total_deposit);;
    mint_loop (Z.to_nat quantity) to c metadata (mkTokenData deposit);;
    nft_event (MintedToken who to c quantity)).

Definition do_transfer (from to : AccountId) (token : ClassId * TokenId) : MD unit :=
  transactional (
    class ← gets (class_of token.1);
    class_info ← ok_or class (NftE NftError.ClassIdNotFound);
    ensure (contains (cd_properties (ci_data class_info)) Transferable) (NftE NftError.NonTransferable);;
    info ← gets (token_of token);
    token_info ← ok_or info (NftE NftError.TokenIdNotFound);
    let deposit := td_deposit (ti_data token_info) in
    in_store_ (orml_transfer from to token);;
    unreserve from deposit;;
    in_coins (nft_transfer_coins from to deposit AllowDeath);;
    in_coins (nft_reserve_named to deposit);;
    nft_event (TransferredToken from to token.1 token.2)).

Definition transfer (origin : Origin) (to : NftLookupSource) (token : ClassId * TokenId) : MD unit :=
  transactional (
    who ← ensure_signed origin;
    to ← nft_lookup_source to;
    do_transfer who to token).

Definition do_burn (who : AccountId) (token : ClassId * TokenId) : MD unit :=
  transactional (
    class ← gets (class_of token.1);
    class_info ← ok_or class (NftE NftError.ClassIdNotFound);
    ensure (contains (cd_properties (ci_data class_info)) Burnable) (NftE NftError.NonBurnable);;
    info ← gets (token_of token);
    token_info ← ok_or info (NftE NftError.TokenIdNotFound);
    ensure (who =? ti_owner token_info)%N (NftE NftError.NoPermission);;
    in_store_ (orml_burn who token);;
    unreserve who (td_deposit (ti_data token_info))).

Definition burn (origin : Origin) (token : ClassId * TokenId) : MD unit :=
  transactional (
    who ← ensure_signed origin;
    do_burn who token;;
    nft_event (BurnedToken who token.1 token.2)).

Definition burn_with_remark (origin : Origin) (token : ClassId * TokenId) (remark : bytes) : MD unit :=
  transactional (
    who ← ensure_signed origin;
    do_burn who token;;
    nft_event (BurnedTokenWithRemark who token.1 token.2 (nft_hash remark))).

Definition destroy_class (origin : Origin) (c : ClassId) (dest : NftLookupSource) : MD unit :=
  transactional (
    who ← ensure_signed origin;
    dest ← nft_lookup_source dest;
    class ← gets (class_of c);
    class_info ← ok_or class (NftE NftError.ClassIdNotFound);
    ensure (who =? ci_owner class_info)%N (NftE NftError.NoPermission);;
    ensure (ci_total_issuance class_info =? 0) (NftE NftError.CannotDestroyClass);;
    unreserve who (cd_deposit (ci_data class_info));;
    in_store_ (orml_destroy_class who c);;
    in_coins (remove_proxy_delegate who dest);;
    free ← gets (fun s => nft_free_balance who (coins s));
    in_coins (nft_transfer_coins who dest free AllowDeath);;
    nft_event (DestroyedClass who c)).

(** ** The trait [NFT] *)
Definition nft_balance (who : AccountId) (s : NftState) : Z := Z.of_nat (length (tokens_by_owner (nft_store s) who)).
Definition nft_owner (token : ClassId * TokenId) (s : NftState) : option AccountId := ti_owner <$> token_of token s.
Definition nft_trait_transfer (from to : AccountId) (token : ClassId * TokenId) : MD unit := do_transfer from to token.
End Pallet.
