(* ===== verification/NftSpecs.v ===== *)
(** * What holds of classes and tokens

    Over any history, what is reserved of an account is exactly the deposits of
    the classes and tokens it owns, classes count their tokens, and a token moves
    only by its owner. *)
From S2P Require Import Prelude Primitives Runtime Bytes Nft.

(** ** The crates *)
Class NftLaws `{NftConfig} : Prop := {
  create_class_law owner m d st c st' : orml_create_class owner m d st = inl (c, st') ->
    classes st !! c = None /\ classes st' = <[c := mkClassInfo m 0 owner d]> (classes st) /\ tokens st' = tokens st;
  mint_law to c m d st t st' : orml_mint to c m d st = inl (t, st') ->
    exists ci, classes st !! c = Some ci /\ tokens st !! (c, t) = None /\
      classes st' = <[c := mkClassInfo (ci_metadata ci) (ci_total_issuance ci + 1) (ci_owner ci) (ci_data ci)]> (classes st) /\
      tokens st' = <[(c, t) := mkTokenInfo m to d]> (tokens st);
  orml_transfer_law from to tk st st' : orml_transfer from to tk st = inl st' ->
    exists ti, tokens st !! tk = Some ti /\ ti_owner ti = from /\ classes st' = classes st /\
      tokens st' = <[tk := mkTokenInfo (ti_metadata ti) to (ti_data ti)]> (tokens st);
  orml_burn_law who tk st st' : orml_burn who tk st = inl st' ->
    exists ti ci, tokens st !! tk = Some ti /\ ti_owner ti = who /\ classes st !! tk.1 = Some ci /\
      classes st' = <[tk.1 := mkClassInfo (ci_metadata ci) (ci_total_issuance ci - 1) (ci_owner ci) (ci_data ci)]> (classes st) /\
      tokens st' = delete tk (tokens st);
  orml_destroy_law who c st st' : orml_destroy_class who c st = inl st' ->
    exists ci, classes st !! c = Some ci /\ ci_owner ci = who /\ ci_total_issuance ci = 0 /\
      classes st' = delete c (classes st) /\ tokens st' = tokens st;
  tokens_by_owner_law st who : NoDup (tokens_by_owner st who) /\
    forall tk, tk ∈ tokens_by_owner st who <-> exists ti, tokens st !! tk = Some ti /\ ti_owner ti = who;
  coins_transfer_law a b n e c c' : nft_transfer_coins a b n e c = inl c' -> forall x, nft_reserved x c' = nft_reserved x c;
  coins_reserve_law who n c c' : nft_reserve_named who n c = inl c' ->
    forall x, nft_reserved x c' = nft_reserved x c + if decide (x = who) then n else 0;
  coins_unreserve_law who n c x : 0 <= n -> nft_reserved x (nft_unreserve_named who n c).2 =
    nft_reserved x c - if decide (x = who) then Z.min n (nft_reserved who c) else 0;
  add_proxy_law a b c c' : add_proxy_delegate a b c = inl c' -> forall x, nft_reserved x c' = nft_reserved x c;
  remove_proxy_law a b c c' : remove_proxy_delegate a b c = inl c' -> forall x, nft_reserved x c' = nft_reserved x c;
  nft_constants : 0 <= CreateClassDeposit <= U128_MAX /\ 0 <= CreateTokenDeposit /\
    CreateTokenDeposit * U32_MAX <= U128_MAX /\ 0 <= DataDepositPerByte }.

Section Specs.
Context `{Laws : NftLaws}.

(** ** Deposits *)
Definition class_deposit (who : AccountId) (ci : ClassInfo) : Z :=
  if decide (ci_owner ci = who) then cd_deposit (ci_data ci) else 0.
Definition token_deposit (who : AccountId) (ti : TokenInfo) : Z :=
  if decide (ti_owner ti = who) then td_deposit (ti_data ti) else 0.
Definition deposits (who : AccountId) (st : NftStore) : Z :=
  map_sum (fun _ => class_deposit who) (classes st) + map_sum (fun _ => token_deposit who) (tokens st).
Definition in_class (c : ClassId) (tk : ClassId * TokenId) : Z := if decide (tk.1 = c) then 1 else 0.
(** The tokens of a class, counted *)
Definition issued (c : ClassId) (st : NftStore) : Z := map_sum (fun tk _ => in_class c tk) (tokens st).

(** A store whose classes count their tokens and whose deposits are not negative *)
Record store_ok (st : NftStore) : Prop := {
  ok_issuance c ci : classes st !! c = Some ci -> ci_total_issuance ci = issued c st;
  ok_class tk ti : tokens st !! tk = Some ti -> is_Some (classes st !! tk.1);
  ok_class_deposit c ci : classes st !! c = Some ci -> 0 <= cd_deposit (ci_data ci);
  ok_token_deposit tk ti : tokens st !! tk = Some ti -> 0 <= td_deposit (ti_data ti) }.
(** [owed] is reserved of [to] and not used yet. *)
Definition covered (to : AccountId) (owed : Z) (s : NftState) : Prop :=
  store_ok (nft_store s) /\
  forall who, nft_reserved who (coins s) = deposits who (nft_store s) + if decide (who = to) then owed else 0.
Definition nft_ok (s : NftState) : Prop := covered 0%N 0 s.

Lemma covered_zero to s : covered to 0 s <-> nft_ok s.
Proof.
  unfold nft_ok, covered. split; intros [Hs Hr]; (split; [done|]); intros who; rewrite Hr; by repeat case_decide.
Qed.
Lemma class_sum_nonneg who st : store_ok st -> 0 <= map_sum (fun _ => class_deposit who) (classes st).
Proof.
  intros Hs. apply map_sum_nonneg. intros c ci Hc. pose proof (ok_class_deposit _ Hs _ _ Hc). unfold class_deposit. case_decide; lia.
Qed.
Lemma token_sum_nonneg who st : store_ok st -> 0 <= map_sum (fun _ => token_deposit who) (tokens st).
Proof.
  intros Hs. apply map_sum_nonneg. intros c ti Hc. pose proof (ok_token_deposit _ Hs _ _ Hc). unfold token_deposit. case_decide; lia.
Qed.
Lemma token_deposit_le tk ti st : store_ok st -> tokens st !! tk = Some ti ->
  td_deposit (ti_data ti) <= deposits (ti_owner ti) st.
Proof.
  intros Hs Ht. pose proof (class_sum_nonneg (ti_owner ti) st Hs). unfold deposits.
  enough (token_deposit (ti_owner ti) ti <= map_sum (fun _ => token_deposit (ti_owner ti)) (tokens st)) as Hle.
  { unfold token_deposit at 1 in Hle. rewrite decide_True in Hle by done. lia. }
  apply (map_sum_lookup_le (fun _ => token_deposit (ti_owner ti)) _ tk); [|done].
  intros k v Hk. pose proof (ok_token_deposit _ Hs _ _ Hk). unfold token_deposit. case_decide; lia.
Qed.
Lemma class_deposit_le c ci st : store_ok st -> classes st !! c = Some ci ->
  cd_deposit (ci_data ci) <= deposits (ci_owner ci) st.
Proof.
  intros Hs Hc. pose proof (token_sum_nonneg (ci_owner ci) st Hs). unfold deposits.
  enough (class_deposit (ci_owner ci) ci <= map_sum (fun _ => class_deposit (ci_owner ci)) (classes st)) as Hle.
  { unfold class_deposit at 1 in Hle. rewrite decide_True in Hle by done. lia. }
  apply (map_sum_lookup_le (fun _ => class_deposit (ci_owner ci)) _ c); [|done].
  intros k v Hk. pose proof (ok_class_deposit _ Hs _ _ Hk). unfold class_deposit. case_decide; lia.
Qed.

(** *** What each operation of the store does to the deposits *)
Lemma create_ok owner m d st c st' : store_ok st -> 0 <= cd_deposit d -> orml_create_class owner m d st = inl (c, st') ->
  store_ok st' /\ forall who, deposits who st' = deposits who st + if decide (who = owner) then cd_deposit d else 0.
Proof.
  intros Hs Hd (Hnew & Hc & Ht)%create_class_law.
  assert (Hz : issued c st' = 0).
  { unfold issued. rewrite Ht. apply map_sum_zero. intros tk ti Htk. unfold in_class. case_decide as Heq; [|done].
    destruct (ok_class _ Hs _ _ Htk) as [x Hx]. rewrite Heq, Hnew in Hx. done. }
  split.
  - constructor; rewrite ?Ht, ?Hc; [| |intros k ci|apply Hs].
    + intros k ci. rewrite lookup_insert_Some. intros [[<- <-]|[Hne Hk]]; [by rewrite Hz|].
      unfold issued. rewrite Ht. by apply Hs.
    + intros tk ti Htk. apply (ok_class _ Hs) in Htk. destruct (decide (c = tk.1)) as [<-|Hne];
        [rewrite lookup_insert_eq; by eexists|by rewrite lookup_insert_ne].
    + rewrite lookup_insert_Some. intros [[<- <-]|[Hne Hk]]; [done|]. by eapply Hs.
  - intros who. unfold deposits. rewrite Ht, Hc, map_sum_insert, Hnew. cbn [from_option].
    unfold class_deposit at 2. cbn [ci_owner ci_data]. repeat case_decide; subst; try done; lia.
Qed.

(** Only the count of a class changes. *)
Lemma class_sum_count (f : AccountId -> ClassInfo -> Z) who c ci k (m : gmap ClassId ClassInfo) :
  (forall x, f who (mkClassInfo (ci_metadata ci) x (ci_owner ci) (ci_data ci)) = f who ci) -> m !! c = Some ci ->
  map_sum (fun _ => f who) (<[c := mkClassInfo (ci_metadata ci) k (ci_owner ci) (ci_data ci)]> m) = map_sum (fun _ => f who) m.
Proof. intros Hf Hc. rewrite map_sum_insert, Hc. cbn [from_option]. rewrite Hf. lia. Qed.

Lemma mint_ok to c m d st t st' : store_ok st -> 0 <= td_deposit d -> orml_mint to c m d st = inl (t, st') ->
  store_ok st' /\ forall who, deposits who st' = deposits who st + if decide (who = to) then td_deposit d else 0.
Proof.
  intros Hs Hd (ci & Hci & Hnew & Hc & Ht)%mint_law.
  assert (Hiss : forall k, issued k st' = issued k st + if decide (c = k) then 1 else 0).
  { intros k. unfold issued. rewrite Ht, map_sum_insert, Hnew. cbn [from_option]. unfold in_class at 2. cbn. lia. }
  split.
  - constructor; rewrite ?Ht, ?Hc.
    + intros k ci'. rewrite lookup_insert_Some, Hiss. intros [[<- <-]|[Hne Hk]].
      * rewrite decide_True by done. cbn. by rewrite (ok_issuance _ Hs _ _ Hci).
      * rewrite decide_False by done. rewrite (ok_issuance _ Hs _ _ Hk). lia.
    + intros tk ti. rewrite lookup_insert_Some. intros [[<- _]|[_ Htk]]; cbn [fst].
      * rewrite lookup_insert_eq. by eexists.
      * apply (ok_class _ Hs) in Htk. destruct (decide (c = tk.1)) as [<-|Hne];
          [rewrite lookup_insert_eq; by eexists|by rewrite lookup_insert_ne].
    + intros k ci'. rewrite lookup_insert_Some. intros [[<- <-]|[Hne Hk]]; cbn; by eapply Hs.
    + intros tk ti. rewrite lookup_insert_Some. intros [[<- <-]|[_ Htk]]; [done|]. by eapply Hs.
  - intros who. unfold deposits. rewrite Ht, Hc, class_sum_count by done. rewrite map_sum_insert, Hnew. cbn [from_option].
    unfold token_deposit at 2. cbn [ti_owner ti_data]. repeat case_decide; subst; try done; lia.
Qed.

Lemma transfer_ok from to tk st st' ti : store_ok st -> tokens st !! tk = Some ti -> orml_transfer from to tk st = inl st' ->
  store_ok st' /\ ti_owner ti = from /\ forall who, deposits who st' = deposits who st -
    (if decide (who = from) then td_deposit (ti_data ti) else 0) + (if decide (who = to) then td_deposit (ti_data ti) else 0).
Proof.
  intros Hs Hti (ti' & Hti' & Ho & Hc & Ht)%orml_transfer_law. rewrite Hti in Hti'. injection Hti' as <-.
  assert (Hiss : forall k, issued k st' = issued k st).
  { intros k. unfold issued. rewrite Ht, map_sum_insert, Hti. cbn [from_option]. lia. }
  split; [|split; [done|]].
  - constructor; rewrite ?Hc, ?Ht.
    + intros c ci Hci. rewrite Hiss. by apply Hs.
    + intros k i. rewrite lookup_insert_Some. intros [[<- _]|[_ Hk]]; by eapply (ok_class _ Hs).
    + apply Hs.
    + intros k i. rewrite lookup_insert_Some. intros [[<- <-]|[_ Hk]];
        [exact (ok_token_deposit _ Hs _ _ Hti)|exact (ok_token_deposit _ Hs _ _ Hk)].
  - intros who. unfold deposits. rewrite Hc, Ht, map_sum_insert, Hti. cbn [from_option]. unfold token_deposit at 2 3.
    cbn [ti_owner ti_data]. rewrite Ho. repeat case_decide; subst; try done; lia.
Qed.
Lemma burn_ok who tk st st' ti : store_ok st -> tokens st !! tk = Some ti -> orml_burn who tk st = inl st' ->
  store_ok st' /\ forall x, deposits x st' = deposits x st - if decide (x = who) then td_deposit (ti_data ti) else 0.
Proof.
  intros Hs Hti (ti' & ci & Hti' & Ho & Hci & Hc & Ht)%orml_burn_law. rewrite Hti in Hti'. injection Hti' as <-.
  assert (Hiss : forall k, issued k st' = issued k st - if decide (tk.1 = k) then 1 else 0).
  { intros k. unfold issued. rewrite Ht, map_sum_delete, Hti. done. }
  split.
  - constructor; rewrite ?Hc, ?Ht.
    + intros k i. rewrite lookup_insert_Some, Hiss. intros [[<- <-]|[Hne Hk]].
      * rewrite decide_True by done. cbn. by rewrite (ok_issuance _ Hs _ _ Hci).
      * rewrite decide_False by done. rewrite (ok_issuance _ Hs _ _ Hk). lia.
    + intros k i. rewrite lookup_delete_Some. intros [_ Hk]. apply (ok_class _ Hs) in Hk.
      destruct (decide (tk.1 = k.1)) as [->|Hne]; [rewrite lookup_insert_eq; by eexists|by rewrite lookup_insert_ne].
    + intros k i. rewrite lookup_insert_Some. intros [[<- <-]|[_ Hk]]; cbn; by eapply (ok_class_deposit _ Hs).
    + intros k i. rewrite lookup_delete_Some. intros [_ Hk]. by eapply (ok_token_deposit _ Hs).
  - intros x. unfold deposits. rewrite Hc, Ht, class_sum_count, map_sum_delete, Hti by done. cbn [from_option].
    unfold token_deposit at 2. rewrite Ho. repeat case_decide; subst; try done; lia.
Qed.
Lemma destroy_ok who c st st' ci : store_ok st -> classes st !! c = Some ci -> ci_owner ci = who ->
  orml_destroy_class who c st = inl st' ->
  store_ok st' /\ forall x, deposits x st' = deposits x st - if decide (x = who) then cd_deposit (ci_data ci) else 0.
Proof.
  intros Hs Hci Ho (ci' & Hci' & _ & Hz & Hc & Ht)%orml_destroy_law. rewrite Hci in Hci'. injection Hci' as <-.
  assert (Hnone : forall k i, tokens st !! k = Some i -> k.1 <> c).
  { intros k i Hk Heq. pose proof (ok_issuance _ Hs _ _ Hci) as Hiss. rewrite Hz in Hiss.
    pose proof (map_sum_lookup_le (fun tk _ => in_class c tk) (tokens st) k i) as Hle. fold (issued c st) in Hle.
    rewrite <- Hiss in Hle. unfold in_class in Hle at 2. rewrite decide_True in Hle by done.
    assert (1 <= 0); [|lia]. apply Hle; [|done]. intros k' v _. unfold in_class. case_decide; lia. }
  split.
  - constructor; rewrite ?Hc, ?Ht.
    + intros k i. rewrite lookup_delete_Some. intros [_ Hk]. unfold issued. rewrite Ht. by apply Hs.
    + intros k i Hk. rewrite lookup_delete_ne by (intros Heq; by eapply Hnone). by eapply (ok_class _ Hs).
    + intros k i. rewrite lookup_delete_Some. intros [_ Hk]. by eapply (ok_class_deposit _ Hs).
    + apply Hs.
  - intros x. unfold deposits. rewrite Ht, Hc, map_sum_delete, Hci. cbn [from_option].
    unfold class_deposit at 2. rewrite Ho. repeat case_decide; subst; try done; lia.
Qed.

(** ** The calls *)
Lemma wp_in_store {A} (f : NftStore -> (A * NftStore) + DispatchError) (Q : A -> NftState -> Prop) (R : DispatchError -> NftState -> Prop) s :
  (forall a st, f (nft_store s) = inl (a, st) -> Q a (mkNft st (coins s) (nft_events s))) -> (forall e, R e s) ->
  wp (in_store f) Q R s.
Proof. intros HQ HR. unfold wp, in_store. destruct (f (nft_store s)) as [[a st]|e] eqn:Hf; [by apply HQ|apply HR]. Qed.
Lemma wp_in_store_ (f : NftStore -> NftStore + DispatchError) (Q : unit -> NftState -> Prop) (R : DispatchError -> NftState -> Prop) s :
  (forall st, f (nft_store s) = inl st -> Q tt (mkNft st (coins s) (nft_events s))) -> (forall e, R e s) ->
  wp (in_store_ f) Q R s.
Proof.
  intros HQ HR. apply wp_in_store; [|done]. intros [] st. destruct (f (nft_store s)) as [st'|e] eqn:Hf; [|done].
  intros [= <-]. by apply HQ.
Qed.
Lemma wp_in_coins (f : Coins -> Coins + DispatchError) (Q : unit -> NftState -> Prop) (R : DispatchError -> NftState -> Prop) s :
  (forall c, f (coins s) = inl c -> Q tt (mkNft (nft_store s) c (nft_events s))) -> (forall e, R e s) ->
  wp (in_coins f) Q R s.
Proof. intros HQ HR. unfold wp, in_coins. destruct (f (coins s)) as [c|e] eqn:Hf; [by apply HQ|apply HR]. Qed.

Lemma covered_coins to owed st c c' ev : (forall x, nft_reserved x c' = nft_reserved x c) ->
  covered to owed (mkNft st c ev) -> covered to owed (mkNft st c' ev).
Proof. intros Hx [Hs Hr]. split; [done|]. intros who. cbn. rewrite Hx. apply Hr. Qed.
Lemma covered_event to owed st c ev ev' : covered to owed (mkNft st c ev) -> covered to owed (mkNft st c ev').
Proof. done. Qed.
Lemma covered_reserve to n st c c' ev : nft_ok (mkNft st c ev) -> nft_reserve_named to n c = inl c' ->
  covered to n (mkNft st c' ev).
Proof.
  intros [Hs Hr]%(covered_zero to) Hc. split; [done|]. intros who. cbn in *. rewrite (coins_reserve_law _ _ _ _ Hc), Hr.
  repeat case_decide; try done; lia.
Qed.
(** What the store counts is what was reserved for it. *)
Lemma covered_counted to owed n st st' c ev : covered to owed (mkNft st c ev) -> store_ok st' ->
  (forall who, deposits who st' = deposits who st + if decide (who = to) then n else 0) ->
  covered to (owed - n) (mkNft st' c ev).
Proof.
  intros [Hs Hr] Hs' Hd. split; [done|]. intros who. cbn in *. rewrite Hr, Hd. case_decide; lia.
Qed.
(** What an owner has reserved is enough to release a deposit of it. *)
Lemma unreserved who n c x : 0 <= n <= nft_reserved who c ->
  nft_reserved x (nft_unreserve_named who n c).2 = nft_reserved x c - if decide (x = who) then n else 0.
Proof. intros Hn. rewrite coins_unreserve_law by lia. by rewrite Z.min_l by lia. Qed.

(** A call keeps the deposits, or fails and leaves no trace. *)
Definition keeps (m : M DispatchError NftState unit) : Prop := forall s, nft_ok s ->
  wp m (fun _ => nft_ok) (fun _ s' => s' = s) s.
Lemma keeps_transactional (m : M DispatchError NftState unit) :
  (forall s, nft_ok s -> wp m (fun _ => nft_ok) (fun _ _ => True) s) -> keeps (transactional m).
Proof. intros Hm s Hs. apply wp_transactional. eapply wp_mono; [by apply Hm|done|done]. Qed.
Lemma keeps_weaken m s : keeps m -> nft_ok s -> wp m (fun _ => nft_ok) (fun _ _ => True) s.
Proof. intros Hm Hs. eapply wp_mono; [by apply Hm|done|done]. Qed.

Lemma keeps_create_class origin metadata properties : keeps (create_class origin metadata properties).
Proof.
  apply keeps_transactional. intros [st c ev] Hs. destruct nft_constants as (Hcd & _ & _ & Hb).
  apply wp_bind. apply wp_signed; [|done]. intros who _. apply wp_bind, wp_gets. cbv zeta. cbn [nft_store].
  set (owner := class_account _). set (deposit := U128.saturating_add _ _).
  assert (Hdep : 0 <= deposit).
  { subst deposit. unfold U128.saturating_add, U128.saturating_mul.
    pose proof (Z.mod_pos_bound (len metadata) (2 ^ 32) ltac:(lia)). nia. }
  apply wp_bind, wp_in_coins; [|done]. intros c1 Hc1. apply (covered_coins _ _ _ _ _ _ (coins_transfer_law _ _ _ _ _ _ Hc1)) in Hs.
  apply wp_bind, wp_in_coins; [|done]. intros c2 Hc2. apply (covered_reserve _ _ _ _ _ _ Hs) in Hc2.
  apply wp_bind, wp_in_coins; [|done]. intros c3 Hc3. apply (covered_coins _ _ _ _ _ _ (add_proxy_law _ _ _ _ Hc3)) in Hc2.
  apply wp_bind, wp_in_store; [|done]. intros id st' Hst. cbn [nft_store coins nft_events] in *.
  destruct (create_ok _ _ (mkClassData deposit properties) _ _ _ (proj1 Hc2) Hdep Hst) as [Hs' Hd].
  apply wp_modify, (covered_zero owner), (covered_event _ _ _ _ ev). rewrite <- (Z.sub_diag deposit).
  by eapply covered_counted.
Qed.

Lemma mint_loop_ok to c metadata data quantity : 0 <= td_deposit data -> forall s e,
  covered to (Z.of_nat quantity * td_deposit data + e) s ->
  wp (mint_loop quantity to c metadata data) (fun _ => covered to e) (fun _ _ => True) s.
Proof.
  intros Hd. induction quantity as [|quantity IH]; intros [st co ev] e Hs; cbn [mint_loop]; [done|].
  apply wp_bind, wp_in_store; [|done]. intros t st' Hst. cbn [nft_store coins nft_events] in *.
  destruct (mint_ok _ _ _ _ _ _ _ (proj1 Hs) Hd Hst) as [Hs' Hds].
  apply IH. pose proof (covered_counted _ _ _ _ _ _ _ Hs Hs' Hds) as Hc.
  replace (Z.of_nat (S quantity) * td_deposit data + e - td_deposit data) with (Z.of_nat quantity * td_deposit data + e) in Hc by lia.
  exact Hc.
Qed.
Lemma keeps_mint origin to c metadata quantity : quantity <= U32_MAX -> keeps (mint origin to c metadata quantity).
Proof.
  intros Hq. apply keeps_transactional. intros [st co ev] Hs. destruct nft_constants as (_ & Hd & Hmax & _).
  apply wp_bind, wp_signed; [|done]. intros who _. apply wp_bind, wp_ok_or; split; [intros dest _|done].
  apply wp_bind, wp_ensure; split; [intros Hone%Z.leb_le|done].
  apply wp_bind, wp_gets, wp_bind, wp_ok_or; split; [intros ci _|done].
  apply wp_bind, wp_ensure; split; [intros _|done]. cbv zeta.
  assert (Htot : U128.saturating_mul CreateTokenDeposit quantity = quantity * CreateTokenDeposit).
  { unfold U128.saturating_mul. nia. }
  rewrite Htot. apply wp_bind, wp_in_coins; [|done]. intros c1 Hc1.
  apply (covered_coins _ _ _ _ _ _ (coins_transfer_law _ _ _ _ _ _ Hc1)) in Hs.
  apply wp_bind, wp_in_coins; [|done]. intros c2 Hc2. apply (covered_reserve _ _ _ _ _ _ Hs) in Hc2.
  apply wp_bind. eapply wp_mono; [apply (mint_loop_ok dest c metadata (mkTokenData CreateTokenDeposit) _ Hd _ 0)| |done].
  - cbn [td_deposit]. rewrite Z2Nat.id, Z.add_0_r by lia. exact Hc2.
  - intros [] s' Hs'. apply wp_modify, (covered_zero dest). destruct s'. exact Hs'.
Qed.

Lemma keeps_do_transfer from to tk : keeps (do_transfer from to tk).
Proof.
  apply keeps_transactional. intros [st co ev] [Hs Hr]%(covered_zero to).
  apply wp_bind, wp_gets, wp_bind, wp_ok_or; split; [intros ci _|done].
  apply wp_bind, wp_ensure; split; [intros _|done].
  apply wp_bind, wp_gets, wp_bind, wp_ok_or; split; [intros ti Hti|done]. cbv zeta. unfold token_of in Hti. cbn in Hti, Hr.
  apply wp_bind, wp_in_store_; [|done]. intros st' Hst. cbn [nft_store coins nft_events] in *.
  destruct (transfer_ok _ _ _ _ _ _ Hs Hti Hst) as (Hs' & Ho & Hd). set (d := td_deposit (ti_data ti)) in *.
  assert (Hle : 0 <= d <= nft_reserved from co).
  { split; [exact (ok_token_deposit _ Hs _ _ Hti)|]. rewrite Hr, <- Ho. pose proof (token_deposit_le _ _ _ Hs Hti) as Hdep. fold d in Hdep.
    case_decide; lia. }
  apply wp_bind, wp_in_coins; [|done]. intros c1 [= <-]. cbn [nft_store coins nft_events].
  apply wp_bind, wp_in_coins; [|done]. intros c2 Hc2. cbn [nft_store coins nft_events] in *.
  apply wp_bind, wp_in_coins; [|done]. intros c3 Hc3. cbn [nft_store coins nft_events] in *.
  apply wp_modify, (covered_zero to). split; [done|]. intros who. cbn.
  rewrite (coins_reserve_law _ _ _ _ Hc3), (coins_transfer_law _ _ _ _ _ _ Hc2), unreserved, Hr, Hd by done.
  repeat case_decide; lia.
Qed.
Lemma keeps_transfer origin to tk : keeps (transfer origin to tk).
Proof.
  apply keeps_transactional. intros s Hs. apply wp_bind, wp_signed; [|done]. intros who _.
  apply wp_bind, wp_ok_or; split; [intros dest _|done]. by apply keeps_weaken; [apply keeps_do_transfer|].
Qed.
Lemma keeps_do_burn who tk : keeps (do_burn who tk).
Proof.
  apply keeps_transactional. intros [st co ev] [Hs Hr]%(covered_zero who).
  apply wp_bind, wp_gets, wp_bind, wp_ok_or; split; [intros ci _|done].
  apply wp_bind, wp_ensure; split; [intros _|done].
  apply wp_bind, wp_gets, wp_bind, wp_ok_or; split; [intros ti Hti|done]. unfold token_of in Hti. cbn in Hti, Hr.
  apply wp_bind, wp_ensure; split; [intros Ho%N.eqb_eq|done].
  apply wp_bind, wp_in_store_; [|done]. intros st' Hst. cbn [nft_store coins nft_events] in *.
  destruct (burn_ok _ _ _ _ _ Hs Hti Hst) as (Hs' & Hd). set (d := td_deposit (ti_data ti)) in *.
  assert (Hle : 0 <= d <= nft_reserved who co).
  { split; [exact (ok_token_deposit _ Hs _ _ Hti)|]. rewrite Hr, Ho. pose proof (token_deposit_le _ _ _ Hs Hti) as Hdep. fold d in Hdep.
    case_decide; lia. }
  apply wp_in_coins; [|done]. intros c1 [= <-]. cbn [nft_store coins nft_events].
  apply (covered_zero who). split; [done|]. intros x. cbn. rewrite unreserved, Hr, Hd by done. repeat case_decide; lia.
Qed.
Lemma nft_keeps_then_event (m : M DispatchError NftState unit) e s : keeps m -> nft_ok s ->
  wp (m;; nft_event e) (fun _ => nft_ok) (fun _ _ => True) s.
Proof.
  intros Hm Hs. apply wp_bind. eapply wp_mono; [by apply keeps_weaken| |done]. intros [] t Ht. apply wp_modify. by destruct t.
Qed.
Lemma keeps_burn origin tk : keeps (burn origin tk).
Proof.
  apply keeps_transactional. intros s Hs. apply wp_bind, wp_signed; [|done]. intros who _.
  apply nft_keeps_then_event; [apply keeps_do_burn|done].
Qed.
Lemma keeps_burn_with_remark origin tk remark : keeps (burn_with_remark origin tk remark).
Proof.
  apply keeps_transactional. intros s Hs. apply wp_bind, wp_signed; [|done]. intros who _.
  apply nft_keeps_then_event; [apply keeps_do_burn|done].
Qed.
Lemma keeps_destroy_class origin c dest : keeps (destroy_class origin c dest).
Proof.
  apply keeps_transactional. intros [st co ev] Hs0. apply wp_bind, wp_signed; [|done]. intros who _.
  pose proof (proj2 (covered_zero who _) Hs0) as [Hs Hr]. apply wp_bind, wp_ok_or; split; [intros to _|done].
  apply wp_bind, wp_gets, wp_bind, wp_ok_or; split; [intros ci Hci|done]. unfold class_of in Hci. cbn in Hs, Hci, Hr.
  apply wp_bind, wp_ensure; split; [intros Ho%N.eqb_eq|done]. apply wp_bind, wp_ensure; split; [intros _|done].
  set (d := cd_deposit (ci_data ci)) in *.
  assert (Hle : 0 <= d <= nft_reserved who co).
  { split; [exact (ok_class_deposit _ Hs _ _ Hci)|]. rewrite Hr, Ho. pose proof (class_deposit_le _ _ _ Hs Hci) as Hdep. fold d in Hdep.
    case_decide; lia. }
  apply wp_bind, wp_in_coins; [|done]. intros c1 [= <-]. cbn [nft_store coins nft_events].
  apply wp_bind, wp_in_store_; [|done]. intros st' Hst. cbn [nft_store coins nft_events] in *.
  destruct (destroy_ok _ _ _ _ _ Hs Hci (eq_sym Ho) Hst) as (Hs' & Hd). fold d in Hd.
  apply wp_bind, wp_in_coins; [|done]. intros c2 Hc2. cbn [nft_store coins nft_events] in *.
  apply wp_bind, wp_gets, wp_bind, wp_in_coins; [|done]. intros c3 Hc3. cbn [nft_store coins nft_events] in *.
  apply wp_modify, (covered_zero who). split; [done|]. intros x. cbn.
  rewrite (coins_transfer_law _ _ _ _ _ _ Hc3), (remove_proxy_law _ _ _ _ Hc2), unreserved, Hr, Hd by done.
  repeat case_decide; lia.
Qed.

(** ** Histories *)
Inductive NftCall :=
  | XCreateClass (metadata : CID) (properties : Properties)
  | XMint (to : NftLookupSource) (c : ClassId) (metadata : CID) (quantity : Z)
  | XTransfer (to : NftLookupSource) (tk : ClassId * TokenId)
  | XBurn (tk : ClassId * TokenId)
  | XBurnWithRemark (tk : ClassId * TokenId) (remark : bytes)
  | XDestroyClass (c : ClassId) (dest : NftLookupSource).
Definition nft_dispatch (o : Origin) (x : NftCall) : M DispatchError NftState unit :=
  match x with
  | XCreateClass metadata properties => create_class o metadata properties
  | XMint to c metadata quantity => mint o to c metadata quantity
  | XTransfer to tk => transfer o to tk
  | XBurn tk => burn o tk
  | XBurnWithRemark tk remark => burn_with_remark o tk remark
  | XDestroyClass c dest => destroy_class o c dest
  end.
(** The quantity is a [u32]. *)
Definition typed (x : NftCall) : Prop := match x with XMint _ _ _ q => q <= U32_MAX | _ => True end.

(** Others move coins, but not what is reserved for this pallet. *)
Inductive nft_step (s : NftState) : NftState -> Prop :=
  | nft_step_call o x r s' : typed x -> nft_dispatch o x s = (r, s') -> nft_step s s'
  | nft_step_trait from to tk r s' : nft_trait_transfer from to tk s = (r, s') -> nft_step s s'
  | nft_step_coins c : (forall who, nft_reserved who c = nft_reserved who (coins s)) ->
      nft_step s (mkNft (nft_store s) c (nft_events s)).

Lemma keeps_nft_dispatch o x : typed x -> keeps (nft_dispatch o x).
Proof.
  intros Hx. destruct x; cbn [nft_dispatch].
  - apply keeps_create_class.
  - by apply keeps_mint.
  - apply keeps_transfer.
  - apply keeps_burn.
  - apply keeps_burn_with_remark.
  - apply keeps_destroy_class.
Qed.
Lemma keeps_run m s r s' : keeps m -> m s = (r, s') -> nft_ok s -> nft_ok s'.
Proof.
  intros Hm Hr Hs. specialize (Hm s Hs). unfold wp in Hm. rewrite Hr in Hm. destruct r; [done|by subst|done].
Qed.
Lemma nft_step_ok s s' : nft_step s s' -> nft_ok s -> nft_ok s'.
Proof.
  intros [o x r s1 Hx Hr|from to tk r s1 Hr|c Hc] Hs.
  - by eapply keeps_run; [apply keeps_nft_dispatch| |].
  - by eapply keeps_run; [apply keeps_do_transfer| |].
  - destruct s as [st co ev]. by apply (covered_coins _ _ _ co).
Qed.
Lemma nft_steps_ok s s' : rtc nft_step s s' -> nft_ok s -> nft_ok s'.
Proof. induction 1 as [|x y z Hxy _ IH]; [done|]. intros Hx. by apply IH, (nft_step_ok x). Qed.

(** C12: over any history of calls what is reserved of an account for this pallet
    is exactly the deposits of the classes and the tokens it owns, a class counts
    its tokens, and the class of a token exists. *)
Theorem nft_deposits_exact (s0 s : NftState) (Hclasses : classes (nft_store s0) = ∅) (Htokens : tokens (nft_store s0) = ∅)
    (Hnone : forall who, nft_reserved who (coins s0) = 0) (Hs : rtc nft_step s0 s) :
  (forall who, nft_reserved who (coins s) = deposits who (nft_store s)) /\
  (forall c ci, class_of c s = Some ci -> ci_total_issuance ci = issued c (nft_store s)) /\
  (forall tk ti, token_of tk s = Some ti -> is_Some (class_of tk.1 s)).
Proof.
  assert (H0 : nft_ok s0).
  { split; [constructor; intros *; rewrite ?Hclasses, ?Htokens, lookup_empty; done|].
    intros who. unfold deposits. rewrite Hclasses, Htokens, !map_sum_empty, Hnone. by case_decide. }
  pose proof (nft_steps_ok _ _ Hs H0) as Hok.
  destruct Hok as [Hst Hr]. split_and!; [|apply Hst|apply Hst].
  intros who. rewrite Hr. case_decide; lia.
Qed.

(** ** What may become of a token *)
Section Token.
Context (tk : ClassId * TokenId) (ti : TokenInfo) (ci : ClassInfo).
Definition same_token (s s' : NftState) : Prop := token_of tk s' = token_of tk s.
Definition becomes (who : AccountId) (s' : NftState) : Prop :=
  token_of tk s' = Some ti \/
  who = ti_owner ti /\
  (contains (cd_properties (ci_data ci)) Transferable = true /\
     (exists to, token_of tk s' = Some (mkTokenInfo (ti_metadata ti) to (ti_data ti))) \/
   contains (cd_properties (ci_data ci)) Burnable = true /\ token_of tk s' = None).

Definition allowed (who : AccountId) (m : M DispatchError NftState unit) : Prop := forall s,
  token_of tk s = Some ti -> class_of tk.1 s = Some ci -> wp m (fun _ => becomes who) (fun _ s' => s' = s) s.
Lemma allowed_transactional who m :
  (forall s, token_of tk s = Some ti -> class_of tk.1 s = Some ci -> wp m (fun _ => becomes who) (fun _ _ => True) s) ->
  allowed who (transactional m).
Proof. intros Hm s Ht Hc. apply wp_transactional. eapply wp_mono; [by apply Hm|done|done]. Qed.
Lemma allowed_weaken who m s : allowed who m -> token_of tk s = Some ti -> class_of tk.1 s = Some ci ->
  wp m (fun _ => becomes who) (fun _ _ => True) s.
Proof. intros Hm Ht Hc. eapply wp_mono; [by apply Hm|done|done]. Qed.

Lemma mint_loop_same to c metadata data quantity : forall s, token_of tk s = Some ti ->
  wp (mint_loop quantity to c metadata data) (fun _ s' => token_of tk s' = Some ti) (fun _ _ => True) s.
Proof.
  induction quantity as [|quantity IH]; intros [st co ev] Hs; cbn [mint_loop]; [done|].
  apply wp_bind, wp_in_store; [|done]. intros t st' (x & _ & Hnew & _ & Ht)%mint_law. apply IH.
  unfold token_of in *. cbn in *. rewrite Ht. rewrite lookup_insert_ne; [done|]. intros Heq. by rewrite Heq, Hs in Hnew.
Qed.
Lemma allowed_do_transfer from to t : allowed from (do_transfer from to t).
Proof.
  apply allowed_transactional. intros [st co ev] Ht Hc. unfold token_of, class_of in *. cbn in Ht, Hc.
  apply wp_bind, wp_gets, wp_bind, wp_ok_or; split; [intros ci' Hci|done]. unfold class_of in Hci. cbn in Hci.
  apply wp_bind, wp_ensure; split; [intros Hp|done].
  apply wp_bind, wp_gets, wp_bind, wp_ok_or; split; [intros ti' Hti|done]. cbv zeta.
  apply wp_bind, wp_in_store_; [|done]. intros st' (t1 & Ht1 & Ho & _ & Hst)%orml_transfer_law. cbn [nft_store coins nft_events] in *.
  assert (Hb : becomes from (mkNft st' co ev)).
  { unfold becomes, token_of. cbn. rewrite Hst. destruct (decide (t = tk)) as [->|Hne]; [|left; by rewrite lookup_insert_ne].
    right. rewrite Ht in Ht1. injection Ht1 as <-. rewrite Hc in Hci. injection Hci as <-.
    split; [done|]. left. split; [done|]. exists to. by rewrite lookup_insert_eq. }
  do 3 (apply wp_bind, wp_in_coins; [intros ? _|done]). apply wp_modify. exact Hb.
Qed.
Lemma allowed_do_burn who t : allowed who (do_burn who t).
Proof.
  apply allowed_transactional. intros [st co ev] Ht Hc. unfold token_of, class_of in *. cbn in Ht, Hc.
  apply wp_bind, wp_gets, wp_bind, wp_ok_or; split; [intros ci' Hci|done]. unfold class_of in Hci. cbn in Hci.
  apply wp_bind, wp_ensure; split; [intros Hp|done].
  apply wp_bind, wp_gets, wp_bind, wp_ok_or; split; [intros ti' Hti|done].
  apply wp_bind, wp_ensure; split; [intros _|done].
  apply wp_bind, wp_in_store_; [|done]. intros st' (t1 & c1 & Ht1 & Ho & _ & _ & Hst)%orml_burn_law. cbn [nft_store coins nft_events] in *.
  assert (Hb : becomes who (mkNft st' co ev)).
  { unfold becomes, token_of. cbn. rewrite Hst. destruct (decide (t = tk)) as [->|Hne]; [|left; by rewrite lookup_delete_ne].
    right. rewrite Ht in Ht1. injection Ht1 as <-. rewrite Hc in Hci. injection Hci as <-.
    split; [done|]. right. split; [done|]. by rewrite lookup_delete_eq. }
  apply wp_in_coins; [intros ? _|done]. exact Hb.
Qed.
Lemma allowed_nft_dispatch who x : allowed who (nft_dispatch (Signed who) x).
Proof.
  destruct x as [metadata properties|to c metadata quantity|to t|t|t remark|c dest]; cbn [nft_dispatch];
    apply allowed_transactional; intros s Ht Hc; apply wp_bind, wp_ret.
  - destruct s as [st co ev]. apply wp_bind, wp_gets. do 3 (apply wp_bind, wp_in_coins; [intros ? _|done]).
    apply wp_bind, wp_in_store; [|done]. intros id st' (_ & _ & Hst)%create_class_law. apply wp_modify. left.
    unfold token_of in *. cbn in *. by rewrite Hst.
  - apply wp_bind, wp_ok_or; split; [intros dest _|done]. apply wp_bind, wp_ensure; split; [intros _|done].
    apply wp_bind, wp_gets, wp_bind, wp_ok_or; split; [intros ci' _|done]. apply wp_bind, wp_ensure; split; [intros _|done].
    cbv zeta. do 2 (apply wp_bind, wp_in_coins; [intros ? _|done]).
    apply wp_bind. eapply wp_mono; [by apply mint_loop_same| |done]. intros [] s' Hs'. apply wp_modify. by left.
  - apply wp_bind, wp_ok_or; split; [intros dest _|done]. by apply allowed_weaken; [apply allowed_do_transfer|..].
  - apply wp_bind. eapply wp_mono; [by apply allowed_weaken; [apply allowed_do_burn|..]|intros [] s' Hs'|done].
    apply wp_modify. exact Hs'.
  - apply wp_bind. eapply wp_mono; [by apply allowed_weaken; [apply allowed_do_burn|..]|intros [] s' Hs'|done].
    apply wp_modify. exact Hs'.
  - destruct s as [st co ev].
    apply wp_bind, wp_ok_or; split; [intros to _|done]. apply wp_bind, wp_gets, wp_bind, wp_ok_or; split; [intros ci' _|done].
    apply wp_bind, wp_ensure; split; [intros _|done]. apply wp_bind, wp_ensure; split; [intros _|done].
    apply wp_bind, wp_in_coins; [intros c1 _|done].
    apply wp_bind, wp_in_store_; [|done]. intros st' (x & _ & _ & _ & _ & Hst)%orml_destroy_law.
    apply wp_bind, wp_in_coins; [intros c2 _|done]. apply wp_bind, wp_gets, wp_bind, wp_in_coins; [intros c3 _|done].
    apply wp_modify. left. unfold token_of in *. cbn in *. by rewrite Hst.
Qed.
End Token.

(** C29: a token changes only by its owner.  Whatever call who makes, a token is
    left as it was, or who owns it and either gives it to another, when its class
    is transferable, or burns it, when its class is burnable. *)
Theorem tokens_move_by_owner tk ti ci who x s r s' (Hx : nft_dispatch (Signed who) x s = (r, s'))
    (Hti : token_of tk s = Some ti) (Hci : class_of tk.1 s = Some ci) : becomes tk ti ci who s'.
Proof.
  pose proof (allowed_nft_dispatch tk ti ci who x s Hti Hci) as Hw. unfold wp in Hw. rewrite Hx in Hw.
  destruct r; [exact Hw|subst; by left|done].
Qed.

(** The balance the trait reports counts the tokens that are owned. *)
Theorem nft_balance_counts who s :
  nft_balance who s = Z.of_nat (size (filter (fun kv : (ClassId * TokenId) * TokenInfo => ti_owner kv.2 = who) (tokens (nft_store s)))).
Proof.
  unfold nft_balance. f_equal. destruct (tokens_by_owner_law (nft_store s) who) as [Hnd Hin].
  set (m := filter _ _). rewrite <- length_map_to_list, <- (length_map fst (map_to_list m)). apply Permutation_length, NoDup_Permutation;
    [done|apply NoDup_fst_map_to_list|]. intros tk. rewrite Hin, list_elem_of_fmap. split.
  - intros (ti & Ht & Ho). exists (tk, ti). split; [done|]. apply elem_of_map_to_list, map_lookup_filter_Some. done.
  - intros ([k ti] & -> & Hk%elem_of_map_to_list). apply map_lookup_filter_Some in Hk as [Ht Ho]. by exists ti.
Qed.
End Specs.

(** Properties are read back as they were written, whatever follows. *)
Theorem properties_roundtrip ps rest (Hps : 0 <= ps < 4) : properties_decode (properties_encode ps ++ rest) = Some (ps, rest).
Proof. cbn. by assert (ps = 0 \/ ps = 1 \/ ps = 2 \/ ps = 3) as [->|[->|[->| ->]]] by lia. Qed.
