(* ===== verification/NftSample.v ===== *)
(** * A sample runtime for the token pallet

    Two maps for the crate of tokens and two for balances and reserves, which
    satisfy the laws, and the theorems at a short history. *)
From S2P Require Import Prelude Primitives Runtime Bytes Nft NftSpecs.

Module Token.
(** ** The crate of tokens *)
Record Store := mkStore {
  next_class : Z; next_token : Z; class_map : gmap ClassId ClassInfo; token_map : gmap (ClassId * TokenId) TokenInfo }.
Definition with_class (c : ClassId) (ci : ClassInfo) (st : Store) : Store :=
  mkStore (next_class st) (next_token st) (<[c := ci]> (class_map st)) (token_map st).
Definition with_tokens (m : gmap (ClassId * TokenId) TokenInfo) (st : Store) : Store :=
  mkStore (next_class st) (next_token st) (class_map st) m.
Definition counted (ci : ClassInfo) (k : Z) : ClassInfo :=
  mkClassInfo (ci_metadata ci) (ci_total_issuance ci + k) (ci_owner ci) (ci_data ci).
Definition create (owner : AccountId) (m : CID) (d : ClassData) (st : Store) : (ClassId * Store) + DispatchError :=
  match class_map st !! next_class st with
  | Some _ => inr BadOrigin
  | None => inl (next_class st, with_class (next_class st) (mkClassInfo m 0 owner d)
      (mkStore (next_class st + 1) (next_token st) (class_map st) (token_map st)))
  end.
Definition issue (to : AccountId) (c : ClassId) (m : CID) (d : TokenData) (st : Store) : (TokenId * Store) + DispatchError :=
  match class_map st !! c, token_map st !! (c, next_token st) with
  | Some ci, None => inl (next_token st, with_class c (counted ci 1)
      (mkStore (next_class st) (next_token st + 1) (class_map st) (<[(c, next_token st) := mkTokenInfo m to d]> (token_map st))))
  | _, _ => inr BadOrigin
  end.
Definition move (from to : AccountId) (tk : ClassId * TokenId) (st : Store) : Store + DispatchError :=
  match token_map st !! tk with
  | Some ti => if decide (ti_owner ti = from) then
      inl (with_tokens (<[tk := mkTokenInfo (ti_metadata ti) to (ti_data ti)]> (token_map st)) st) else inr BadOrigin
  | None => inr BadOrigin
  end.
Definition destroy (who : AccountId) (tk : ClassId * TokenId) (st : Store) : Store + DispatchError :=
  match token_map st !! tk, class_map st !! tk.1 with
  | Some ti, Some ci => if decide (ti_owner ti = who) then
      inl (with_class tk.1 (counted ci (-1)) (with_tokens (delete tk (token_map st)) st)) else inr BadOrigin
  | _, _ => inr BadOrigin
  end.
Definition remove (who : AccountId) (c : ClassId) (st : Store) : Store + DispatchError :=
  match class_map st !! c with
  | Some ci => if decide (ci_owner ci = who /\ ci_total_issuance ci = 0) then
      inl (mkStore (next_class st) (next_token st) (delete c (class_map st)) (token_map st)) else inr BadOrigin
  | None => inr BadOrigin
  end.
Definition owned (who : AccountId) (st : Store) : list (ClassId * TokenId) :=
  (map_to_list (filter (fun kv : (ClassId * TokenId) * TokenInfo => ti_owner kv.2 = who) (token_map st))).*1.

(** ** Coins *)
Record Purse := mkPurse { free : gmap AccountId Z; held : gmap AccountId Z }.
Definition amount (m : gmap AccountId Z) (who : AccountId) : Z := default 0 (m !! who).
Definition give (m : gmap AccountId Z) (who : AccountId) (n : Z) : gmap AccountId Z := <[who := amount m who + n]> m.
Definition pay (a b : AccountId) (n : Z) (e : ExistenceRequirement) (p : Purse) : Purse + DispatchError :=
  if n <=? amount (free p) a then inl (mkPurse (give (give (free p) a (- n)) b n) (held p)) else inr BadOrigin.
Definition hold (who : AccountId) (n : Z) (p : Purse) : Purse + DispatchError :=
  if n <=? amount (free p) who then inl (mkPurse (give (free p) who (- n)) (give (held p) who n)) else inr BadOrigin.
Definition release (who : AccountId) (n : Z) (p : Purse) : Z * Purse :=
  let k := Z.min n (amount (held p) who) in
  (n - k, mkPurse (give (free p) who k) (give (held p) who (- k))).

#[export] Instance config : NftConfig := {
  NftStore := Store; next_class_id := next_class; classes := class_map; tokens := token_map; tokens_by_owner st who := owned who st;
  orml_create_class := create; orml_mint := issue; orml_transfer := move; orml_burn := destroy; orml_destroy_class := remove;
  Coins := Purse; nft_transfer_coins := pay; nft_free_balance who p := amount (free p) who; nft_reserved who p := amount (held p) who;
  nft_reserve_named := hold; nft_unreserve_named := release; proxy_deposit n := n;
  add_proxy_delegate _ _ p := inl p; remove_proxy_delegate _ _ p := inl p;
  class_account c := Z.to_N (1000 + c); NftLookupSource := AccountId; nft_lookup := Some; nft_hash := len;
  CreateClassDeposit := 20; CreateTokenDeposit := 2; DataDepositPerByte := 1 }.

Lemma amount_give m who n x : amount (give m who n) x = amount m x + if decide (x = who) then n else 0.
Proof.
  unfold give. unfold amount at 1. destruct (decide (x = who)) as [->|Hne].
  - by rewrite lookup_insert_eq.
  - rewrite lookup_insert_ne by done. unfold amount. lia.
Qed.
Lemma owned_law st who : NoDup (owned who st) /\
  forall tk, tk ∈ owned who st <-> exists ti, token_map st !! tk = Some ti /\ ti_owner ti = who.
Proof.
  split; [apply NoDup_fst_map_to_list|]. intros tk. unfold owned. rewrite list_elem_of_fmap. split.
  - intros ([k ti] & -> & Hk%elem_of_map_to_list). apply map_lookup_filter_Some in Hk as [Ht Ho]. by exists ti.
  - intros (ti & Ht & Ho). exists (tk, ti). split; [done|]. by apply elem_of_map_to_list, map_lookup_filter_Some.
Qed.

#[export] Instance laws : NftLaws.
Proof.
  constructor; cbn.
  - unfold create. intros owner m d st c st'. destruct (class_map st !! next_class st) eqn:Hc; [done|]. by intros [= <- <-].
  - unfold issue. intros to c m d st t st'. destruct (class_map st !! c) as [ci|] eqn:Hc; [|done].
    destruct (token_map st !! (c, next_token st)) eqn:Ht; [done|]. intros [= <- <-]. by exists ci.
  - unfold move. intros from to tk st st'. destruct (token_map st !! tk) as [ti|] eqn:Ht; [|done].
    destruct (decide _) as [Ho|]; [|done]. intros [= <-]. by exists ti.
  - unfold destroy. intros who tk st st'. destruct (token_map st !! tk) as [ti|] eqn:Ht; [|done].
    destruct (class_map st !! tk.1) as [ci|] eqn:Hc; [|done]. destruct (decide _) as [Ho|]; [|done]. intros [= <-]. by exists ti, ci.
  - unfold remove. intros who c st st'. destruct (class_map st !! c) as [ci|] eqn:Hc; [|done].
    destruct (decide _) as [[Ho Hi]|]; [|done]. intros [= <-]. by exists ci.
  - intros st who. apply owned_law.
  - unfold pay. intros a b n e c c'. destruct (n <=? _); [|done]. by intros [= <-].
  - unfold hold. intros who n c c'. destruct (n <=? _); [|done]. intros [= <-] x. apply amount_give.
  - intros who n c x Hn. unfold release. cbn. rewrite amount_give. case_decide; lia.
  - by intros a b c c' [= <-].
  - by intros a b c c' [= <-].
  - done.
Qed.

(** ** A short history: a class, three tokens, one given away, one burnt *)
Definition at_first : NftState := mkNft (mkStore 0 0 ∅ ∅ : NftStore) (mkPurse {[ 1%N := 1000; 1000%N := 1000; 2%N := 5 ]} ∅ : Coins) [].
Definition after (o : AccountId) (x : NftCall) (s : NftState) : NftState := (nft_dispatch (Signed o) x s).2.
Definition class_made : NftState := after 1%N (XCreateClass [7] 3) at_first.
Definition minted : NftState := after 1000%N (XMint (1%N : @NftLookupSource config) 0 [8] 3) class_made.
Definition given : NftState := after 1%N (XTransfer (2%N : @NftLookupSource config) (0, 1)) minted.
Definition burnt : NftState := after 1%N (XBurn (0, 0)) given.

Lemma after_step o x s : typed x -> nft_step s (after o x s).
Proof.
  intros Hx. unfold after. destruct (nft_dispatch (Signed o) x s) as [r s'] eqn:Hr. exact (nft_step_call _ _ _ _ _ Hx Hr).
Qed.
Lemma history : rtc nft_step at_first burnt.
Proof.
  do 4 (eapply rtc_r; [|apply after_step; done]). apply rtc_refl.
Qed.

Lemma nft_deposits_exact_witness :
  (nft_reserved 1000%N (coins burnt) = 21 /\ nft_reserved 1%N (coins burnt) = 2 /\ nft_reserved 2%N (coins burnt) = 2) /\
  (forall who, nft_reserved who (coins burnt) = deposits who (nft_store burnt)).
Proof.
  split; [split_and!; by vm_compute|].
  exact (proj1 (nft_deposits_exact at_first burnt eq_refl eq_refl (fun _ => eq_refl) history)).
Defined.

Lemma tokens_move_by_owner_witness : exists ti ci,
  token_of (0, 1) minted = Some ti /\ class_of 0 minted = Some ci /\ ti_owner ti = 1%N /\ becomes (0, 1) ti ci 1%N given.
Proof.
  exists (mkTokenInfo [8] 1%N (mkTokenData 2)), (mkClassInfo [7] 3 1000%N (mkClassData 21 3)).
  split; [by vm_compute|]. split; [by vm_compute|]. split; [done|].
  apply (tokens_move_by_owner (0, 1) _ _ 1%N (XTransfer (2%N : @NftLookupSource config) (0, 1)) minted
    (nft_dispatch (Signed 1%N) (XTransfer (2%N : @NftLookupSource config) (0, 1)) minted).1 given).
  - unfold given, after. by destruct (nft_dispatch _ _ _).
  - by vm_compute.
  - by vm_compute.
Defined.
Lemma properties_roundtrip_witness : properties_decode (properties_encode 2 ++ [9]) = Some (2, [9]).
Proof. apply properties_roundtrip. lia. Defined.
End Token.
