(* ===== verification/Bridges.v ===== *)
(** * What the bridges share

    The currencies the bridges to other chains move, as the trait
    [MultiCurrency] they call it by, and the amount of a currency outside the
    account a bridge holds. *)
From S2P Require Import Prelude Primitives Runtime.

(** [T::Currency: MultiCurrency] *)
Class TokenLedger := {
  Book : Type;
  tl_issuance : CurrencyId -> Book -> Balance;
  tl_free : CurrencyId -> AccountId -> Book -> Balance;
  tl_ensure_can_withdraw : CurrencyId -> AccountId -> Balance -> Book -> option DispatchError;
  tl_transfer : CurrencyId -> AccountId -> AccountId -> Balance -> Book -> Book + DispatchError;
  tl_deposit : CurrencyId -> AccountId -> Balance -> Book -> Book + DispatchError;
  tl_withdraw : CurrencyId -> AccountId -> Balance -> Book -> Book + DispatchError }.

Class TokenLedgerLaws `{TokenLedger} : Prop := {
  tl_transfer_law c a b n k k' : 0 <= n -> tl_transfer c a b n k = inl k' ->
    (forall c' x, tl_free c' x k' = tl_free c' x k + delta c b n c' x - delta c a n c' x) /\
    (forall c', tl_issuance c' k' = tl_issuance c' k);
  tl_deposit_law c a n k k' : 0 <= n -> tl_deposit c a n k = inl k' ->
    (forall c' x, tl_free c' x k' = tl_free c' x k + delta c a n c' x) /\
    (forall c', tl_issuance c' k' = tl_issuance c' k + if decide (c' = c) then n else 0);
  tl_withdraw_law c a n k k' : 0 <= n -> tl_withdraw c a n k = inl k' ->
    (forall c' x, tl_free c' x k' = tl_free c' x k - delta c a n c' x) /\
    (forall c', tl_issuance c' k' = tl_issuance c' k - if decide (c' = c) then n else 0) }.

Section Ledger.
Context `{TokenLedger}.

(** A call of the currencies from a pallet that keeps its book with [get] and [put] *)
Definition on_book {S} (get : S -> Book) (put : Book -> S -> S) (f : Book -> Book + DispatchError) : M DispatchError S unit :=
  fun s => match f (get s) with inl k => (Ok tt, put k s) | inr e => (Err e, s) end.
Lemma wp_on_book {S} (get : S -> Book) (put : Book -> S -> S) f (Q : unit -> S -> Prop) (R : DispatchError -> S -> Prop) s :
  (forall k, f (get s) = inl k -> Q tt (put k s)) -> (forall e, f (get s) = inr e -> R e s) -> wp (on_book get put f) Q R s.
Proof. unfold wp, on_book. intros HQ HR. destruct (f (get s)) as [k|e]; [by apply HQ|by apply HR]. Qed.

(** What exists of a currency besides what an account has of it *)
Definition outside (acct : AccountId) (c : CurrencyId) (k : Book) : Z := tl_issuance c k - tl_free c acct k.
(** An account other than [acct] gives or gets [n] of [c]. *)
Definition crossing (acct who : AccountId) (c : CurrencyId) (n : Z) (c' : CurrencyId) : Z :=
  if decide (c' = c /\ who <> acct) then n else 0.

(** The account is the one that gives or gets, or another. *)
Ltac crossing_cases who acct :=
  destruct (decide (who = acct)) as [->|?];
    [rewrite delta_account|rewrite delta_ne_account by done]; repeat case_decide; naive_solver lia.

Context {Laws : TokenLedgerLaws}.
(** Paying to the account or burning takes from the rest, and paying from the
    account or issuing adds to it. *)
Lemma outside_pay_in acct who c n k k' c' : 0 <= n -> tl_transfer c who acct n k = inl k' ->
  outside acct c' k' = outside acct c' k - crossing acct who c n c'.
Proof.
  intros Hn (Hf & Hi)%tl_transfer_law; [|done]. unfold outside, crossing. rewrite Hf, Hi, delta_account.
  crossing_cases who acct.
Qed.
Lemma outside_burn acct who c n k k' c' : 0 <= n -> tl_withdraw c who n k = inl k' ->
  outside acct c' k' = outside acct c' k - crossing acct who c n c'.
Proof.
  intros Hn (Hf & Hi)%tl_withdraw_law; [|done]. unfold outside, crossing. rewrite Hf, Hi.
  crossing_cases who acct.
Qed.
Lemma outside_pay_out acct who c n k k' c' : 0 <= n -> tl_transfer c acct who n k = inl k' ->
  outside acct c' k' = outside acct c' k + crossing acct who c n c'.
Proof.
  intros Hn (Hf & Hi)%tl_transfer_law; [|done]. unfold outside, crossing. rewrite Hf, Hi, delta_account.
  crossing_cases who acct.
Qed.
Lemma outside_issue acct who c n k k' c' : 0 <= n -> tl_deposit c who n k = inl k' ->
  outside acct c' k' = outside acct c' k + crossing acct who c n c'.
Proof.
  intros Hn (Hf & Hi)%tl_deposit_law; [|done]. unfold outside, crossing. rewrite Hf, Hi.
  crossing_cases who acct.
Qed.
End Ledger.
