(* ===== verification/Starport.v ===== *)
(** * The gateway to Compound

    [ecosystem-modules/starport/src/lib.rs] and
    [ecosystem-modules/compound-cash/src/lib.rs]: assets locked within a supply
    cap, and notices of the other chain, which set caps and authorities, unlock
    assets and set the yield of the CASH token, each at most once. *)
From S2P Require Import Prelude Primitives Runtime Bridges.

(** ** The CASH token *)
Module CompoundCash.
Abbreviation CashYieldIndex := Z.
Abbreviation Moment := Z.
Record t := mkCash {
  past_yield : gmap CashYieldIndex (Balance * Moment);
  future_yield : gmap CashYieldIndex (Balance * Moment);
  current_yield : CashYieldIndex * Balance * Moment }.
Definition set_future_yield (next_cash_yield : Balance) (yield_index : CashYieldIndex) (timestamp_effective : Moment) :
    M DispatchError t unit :=
  current ← gets current_yield;
  ensure (current.2 <=? timestamp_effective) (CompoundCashE CompoundCashError.YieldIsOlderThanCurrent);;
  modify (fun s => mkCash (past_yield s) (<[yield_index := (next_cash_yield, timestamp_effective)]> (future_yield s)) (current_yield s)).
End CompoundCash.
Import CompoundCash.

(** ** Notices *)
Inductive GatewayNoticePayload :=
  | SetSupplyCap (c : CurrencyId) (amount : Balance)
  | ChangeAuthorities (new_authorities : list AccountId)
  | Unlock (c : CurrencyId) (amount : Balance) (who : AccountId)
  | SetFutureYield (next_cash_yield : Balance) (next_cash_yield_index : CashYieldIndex) (next_cash_yield_start : Moment).
Record GatewayNotice := mkNotice { notice_id : Z; payload : GatewayNoticePayload }.

Inductive StarportEvent :=
  | AssetLockedTo (c : CurrencyId) (amount : Balance) (to : AccountId)
  | AssetUnlocked (c : CurrencyId) (amount : Balance) (to : AccountId)
  | GatewayAuthoritiesChanged
  | SupplyCapSet (c : CurrencyId) (cap : Balance)
  | FutureYieldSet (yield : Balance) (index : CashYieldIndex) (start : Moment).

Class StarportConfig `{TokenLedger} := {
  starport_account : AccountId;
  MaxGatewayAuthorities : Z;
  PercentThresholdForAuthoritySignature : Z;
  (* [Perbill::from_rational], in billionths, and the hash of an encoded notice *)
  from_rational : Z -> Z -> Z;
  notice_hash : GatewayNotice -> Z }.

Section Starport.
Context `{StarportConfig}.

Record StarportState := mkStarport {
  SupplyCaps : gmap CurrencyId Balance;
  InvokedNoticeHashes : gset Z;
  GatewayAuthorities : list AccountId;
  sta_cash : CompoundCash.t;
  sta_book : Book;
  sta_events : list StarportEvent }.
Abbreviation MS := (M DispatchError StarportState).

Definition supply_caps (c : CurrencyId) (s : StarportState) : Balance := default 0 (SupplyCaps s !! c).
Definition set_supply_cap (c : CurrencyId) (n : Balance) (s : StarportState) : StarportState :=
  mkStarport (<[c := n]> (SupplyCaps s)) (InvokedNoticeHashes s) (GatewayAuthorities s) (sta_cash s) (sta_book s) (sta_events s).
Definition set_invoked (h : Z) (s : StarportState) : StarportState :=
  mkStarport (SupplyCaps s) ({[ h ]} ∪ InvokedNoticeHashes s) (GatewayAuthorities s) (sta_cash s) (sta_book s) (sta_events s).
Definition put_authorities (l : list AccountId) (s : StarportState) : StarportState :=
  mkStarport (SupplyCaps s) (InvokedNoticeHashes s) l (sta_cash s) (sta_book s) (sta_events s).
Definition put_cash (x : CompoundCash.t) (s : StarportState) : StarportState :=
  mkStarport (SupplyCaps s) (InvokedNoticeHashes s) (GatewayAuthorities s) x (sta_book s) (sta_events s).
Definition put_book (k : Book) (s : StarportState) : StarportState :=
  mkStarport (SupplyCaps s) (InvokedNoticeHashes s) (GatewayAuthorities s) (sta_cash s) k (sta_events s).
Definition starport_event (e : StarportEvent) : MS unit :=
  modify (fun s => mkStarport (SupplyCaps s) (InvokedNoticeHashes s) (GatewayAuthorities s) (sta_cash s) (sta_book s) (sta_events s ++ [e])).

Definition sta_transfer (c : CurrencyId) (a b : AccountId) (n : Balance) : MS unit := on_book sta_book put_book (tl_transfer c a b n).
Definition sta_deposit (c : CurrencyId) (a : AccountId) (n : Balance) : MS unit := on_book sta_book put_book (tl_deposit c a n).
Definition sta_withdraw (c : CurrencyId) (a : AccountId) (n : Balance) : MS unit := on_book sta_book put_book (tl_withdraw c a n).
(** [T::Cash::set_future_yield] *)
Definition in_cash (m : M DispatchError CompoundCash.t unit) : MS unit := fun s =>
  match m (sta_cash s) with (r, x) => (r, put_cash x s) end.

(** ** Verifying signatures *)
Definition count_signatories (authorities signatures : list AccountId) : Z :=
  foldl (fun count signatory => if bool_decide (signatory ∈ signatures) then count + 1 else count) 0 authorities.
Definition verify_compound_authority_signature (signatures : list AccountId) (s : StarportState) : bool :=
  PercentThresholdForAuthoritySignature <=?
    from_rational (count_signatories (GatewayAuthorities s) signatures) (Z.of_nat (length (GatewayAuthorities s))).

(** ** Locking and unlocking *)
Definition do_lock_to (from to : AccountId) (c : CurrencyId) (locked_amount : Balance) : MS unit :=
  refused ← gets (fun s => tl_ensure_can_withdraw c from locked_amount (sta_book s));
  match refused with Some e => throw e | None => mret tt end;;
  current_supply_cap ← gets (supply_caps c);
  ensure (locked_amount <=? current_supply_cap) (StarportE StarportError.InsufficientAssetSupplyCap);;
  (if decide (c = Token CASH) then sta_withdraw c from locked_amount else sta_transfer c from starport_account locked_amount);;
  modify (set_supply_cap c (current_supply_cap - locked_amount));;
  starport_event (AssetLockedTo c locked_amount to).

Definition do_unlock (c : CurrencyId) (unlock_amount : Balance) (to : AccountId) : MS unit :=
  (if decide (c = Token CASH) then sta_deposit c to unlock_amount
   else
     refused ← gets (fun s => tl_ensure_can_withdraw c starport_account unlock_amount (sta_book s));
     ensure (bool_decide (refused = None)) (StarportE StarportError.InsufficientAssetToUnlock);;
     sta_transfer c starport_account to unlock_amount);;
  starport_event (AssetUnlocked c unlock_amount to).

(** ** The extrinsics *)
Definition lock (origin : Origin) (c : CurrencyId) (locked_amount : Balance) : MS unit := transactional (
  who ← ensure_signed origin;
  do_lock_to who who c locked_amount).
Definition lock_to (origin : Origin) (to : AccountId) (c : CurrencyId) (locked_amount : Balance) : MS unit := transactional (
  from ← ensure_signed origin;
  do_lock_to from to c locked_amount).

(** The [match] of [invoke] *)
Definition take_effect (p : GatewayNoticePayload) : MS unit :=
  match p with
  | SetSupplyCap c amount => modify (set_supply_cap c amount);; starport_event (SupplyCapSet c amount)
  | ChangeAuthorities new_authorities =>
      ensure (Z.of_nat (length new_authorities) <=? MaxGatewayAuthorities) (StarportE StarportError.ExceededMaxNumberOfAuthorities);;
      ensure (negb (bool_decide (new_authorities = []))) (StarportE StarportError.AuthoritiesListCannotBeEmpty);;
      modify (put_authorities new_authorities);;
      starport_event GatewayAuthoritiesChanged
  | Unlock c amount who => do_unlock c amount who
  | SetFutureYield yield index start =>
      in_cash (set_future_yield yield index start);;
      starport_event (FutureYieldSet yield index start)
  end.
Definition invoke (origin : Origin) (notice : GatewayNotice) (signatures : list AccountId) : MS unit := transactional (
  who ← ensure_signed origin;
  let hash := notice_hash notice in
  invoked ← gets InvokedNoticeHashes;
  ensure (bool_decide (hash ∉ invoked)) (StarportE StarportError.NoticeAlreadyInvoked);;
  valid ← gets (verify_compound_authority_signature signatures);
  ensure valid (StarportE StarportError.InsufficientValidNoticeSignatures);;
  take_effect (payload notice);;
  modify (set_invoked hash)).

(** Genesis: the authorities are distinct and not too many, or it panics. *)
Definition starport_genesis (initial_authorities : list AccountId) : MS unit :=
  if bool_decide (NoDup initial_authorities) && (Z.of_nat (length initial_authorities) <=? MaxGatewayAuthorities)
  then modify (put_authorities initial_authorities) else panic.
End Starport.
