(* ===== verification/StarportSpecs.v ===== *)
(** * What holds of the gateway

    Over any history the events tell the supply caps and what left the chain,
    and no notice takes effect twice. *)
From S2P Require Import Prelude Primitives Runtime Bridges Starport.

Section Specs.
Context `{StarportConfig} {Laws : TokenLedgerLaws}.

(** ** What the events tell *)
Definition cap_after (c : CurrencyId) (cap : Balance) (e : StarportEvent) : Balance :=
  match e with
  | SupplyCapSet c' n => if decide (c' = c) then n else cap
  | AssetLockedTo c' n _ => if decide (c' = c) then cap - n else cap
  | _ => cap
  end.
(** How the amount of a currency outside the account of the gateway changes;
    CASH is burnt and issued, everything else is held by that account. *)
Definition brought (c : CurrencyId) (e : StarportEvent) : Z :=
  match e with
  | AssetLockedTo c' n _ => if decide (c' = c) then - n else 0
  | AssetUnlocked c' n to => crossing starport_account to c' n c
  | _ => 0
  end.
Definition sta_outside (c : CurrencyId) (s : StarportState) : Z := outside starport_account c (sta_book s).

(** From [s] to [s'] the events account for what changed. *)
Definition accounted (s s' : StarportState) : Prop := exists es,
  sta_events s' = sta_events s ++ es /\
  (forall c, supply_caps c s' = foldl (cap_after c) (supply_caps c s) es) /\
  (forall c, sta_outside c s' = sta_outside c s + sum_of (brought c) es) /\
  ((forall c, 0 <= supply_caps c s) -> forall c, 0 <= supply_caps c s').
#[export] Instance accounted_preorder : PreOrder accounted.
Proof.
  split.
  - intros s. exists []. rewrite app_nil_r. split_and!; [done|done|intros c; rewrite sum_of_nil; lia|done].
  - intros s t u (es & He & Hc & Ho & Hn) (es' & He' & Hc' & Ho' & Hn'). exists (es ++ es').
    rewrite He', He, app_assoc. split_and!; [done|intros c; by rewrite Hc', Hc, foldl_app| |by intros Hs; apply Hn', Hn].
    intros c. rewrite Ho', Ho, sum_of_app. lia.
Qed.
Lemma accounted_same s s' : sta_events s' = sta_events s -> SupplyCaps s' = SupplyCaps s ->
  (forall c, sta_outside c s' = sta_outside c s) -> accounted s s'.
Proof.
  intros He Hc Ho. exists []. unfold supply_caps. rewrite app_nil_r, Hc. split_and!; [done|done|intros c; rewrite Ho, sum_of_nil; lia|done].
Qed.
(** One event that tells all *)
Lemma accounted_event s s' e : sta_events s' = sta_events s ++ [e] -> (forall c, supply_caps c s' = cap_after c (supply_caps c s) e) ->
  (forall c, sta_outside c s' = sta_outside c s + brought c e) ->
  ((forall c, 0 <= supply_caps c s) -> forall c, 0 <= supply_caps c s') -> accounted s s'.
Proof. intros He Hc Ho Hn. exists [e]. split_and!; [done|done| |done]. intros c. rewrite Ho, sum_of_cons, sum_of_nil. lia. Qed.

Lemma supply_caps_set c n s s' c' : SupplyCaps s' = <[c := n]> (SupplyCaps s) ->
  supply_caps c' s' = if decide (c = c') then n else supply_caps c' s.
Proof.
  intros Hs. unfold supply_caps. rewrite Hs. case_decide as Hc; [subst; by rewrite lookup_insert_eq|by rewrite lookup_insert_ne].
Qed.

(** ** The operations *)
Definition tells (s : StarportState) (m : M DispatchError StarportState unit) : Prop :=
  wp m (fun _ s' => accounted s s' /\ InvokedNoticeHashes s' = InvokedNoticeHashes s) (fun _ _ => True) s.

Lemma do_lock_to_tells from to c n s : from <> starport_account -> 0 <= n -> tells s (do_lock_to from to c n).
Proof.
  intros Hfrom Hn. unfold tells, do_lock_to. apply wp_bind, wp_gets, wp_bind.
  destruct (tl_ensure_can_withdraw c from n (sta_book s)) as [e|]; [done|]. apply wp_ret, wp_bind, wp_gets, wp_bind, wp_ensure.
  split; [intros Hcap%Z.leb_le|done]. set (m := if decide (c = Token CASH) then _ else _).
  assert (Hm : wp m (fun _ s' => exists k, s' = put_book k s /\
    forall c', outside starport_account c' k = sta_outside c' s - crossing starport_account from c n c') (fun _ _ => True) s).
  { subst m. destruct (decide (c = Token CASH)); apply wp_on_book; [|done| |done]; intros k Hk; exists k; (split; [done|]); intros c'.
    - exact (outside_burn _ _ _ _ _ _ c' Hn Hk).
    - exact (outside_pay_in _ _ _ _ _ _ c' Hn Hk). }
  apply wp_bind. eapply wp_mono; [exact Hm| |done]. intros [] s' (k & -> & Hk). apply wp_bind, wp_modify, wp_modify.
  split; [|done]. apply (accounted_event _ _ (AssetLockedTo c n to)); [done|..].
  - intros c'. rewrite (supply_caps_set c (supply_caps c s - n) s) by done. cbn. by case_decide; subst.
  - intros c'. change (outside starport_account c' k = sta_outside c' s + brought c' (AssetLockedTo c n to)). rewrite Hk.
    unfold crossing, brought. repeat case_decide; naive_solver lia.
  - intros Hs c'. rewrite (supply_caps_set c (supply_caps c s - n) s) by done. specialize (Hs c'). case_decide; [lia|exact Hs].
Qed.

Lemma do_unlock_tells c n to s : 0 <= n -> tells s (do_unlock c n to).
Proof.
  intros Hn. unfold tells, do_unlock. set (m := if decide (c = Token CASH) then _ else _).
  assert (Hm : wp m (fun _ s' => exists k, s' = put_book k s /\
    forall c', outside starport_account c' k = sta_outside c' s + crossing starport_account to c n c') (fun _ _ => True) s).
  { subst m. destruct (decide (c = Token CASH)).
    - apply wp_on_book; [|done]. intros k Hk. exists k. split; [done|]. intros c'. exact (outside_issue _ _ _ _ _ _ c' Hn Hk).
    - apply wp_bind, wp_gets, wp_bind, wp_ensure. split; [intros _|done]. apply wp_on_book; [|done].
      intros k Hk. exists k. split; [done|]. intros c'. exact (outside_pay_out _ _ _ _ _ _ c' Hn Hk). }
  apply wp_bind. eapply wp_mono; [exact Hm| |done]. intros [] s' (k & -> & Hk). apply wp_modify.
  split; [|done]. by apply (accounted_event _ _ (AssetUnlocked c n to)).
Qed.

Lemma set_future_yield_runs y i t x : wp (CompoundCash.set_future_yield y i t) (fun _ _ => True) (fun _ _ => True) x.
Proof. by apply wp_bind, wp_gets, wp_bind, wp_ensure. Qed.

(** Amounts are unsigned. *)
Definition typed_payload (p : GatewayNoticePayload) : Prop :=
  match p with SetSupplyCap _ n | Unlock _ n _ => 0 <= n | _ => True end.
Lemma take_effect_tells p s : typed_payload p -> tells s (take_effect p).
Proof.
  intros Hp. unfold tells. destruct p as [c n|l|c n who|y i t]; cbn [take_effect].
  - apply wp_bind, wp_modify, wp_modify. split; [|done]. apply (accounted_event _ _ (SupplyCapSet c n)); [done|..].
    + intros c'. by rewrite (supply_caps_set c n s).
    + intros c'. cbn. change (sta_outside c' s = sta_outside c' s + 0). lia.
    + intros Hs c'. rewrite (supply_caps_set c n s) by done. specialize (Hs c'). case_decide; [exact Hp|exact Hs].
  - apply wp_bind, wp_ensure; split; [intros _|done]. apply wp_bind, wp_ensure; split; [intros _|done].
    apply wp_bind, wp_modify, wp_modify. split; [|done]. apply (accounted_event _ _ GatewayAuthoritiesChanged); [done|done| |done].
    intros c. cbn. change (sta_outside c s = sta_outside c s + 0). lia.
  - by apply do_unlock_tells.
  - apply wp_bind. unfold wp, in_cash. destruct (CompoundCash.set_future_yield y i t (sta_cash s)) as [[[]|e|] x] eqn:Hy; [|done|].
    + split; [|done]. apply (accounted_event _ _ (FutureYieldSet y i t)); [done|done| |done].
      intros c. cbn. change (sta_outside c s = sta_outside c s + 0). lia.
    + pose proof (set_future_yield_runs y i t (sta_cash s)) as Hw. unfold wp in Hw. by rewrite Hy in Hw.
Qed.

(** ** Histories *)
Inductive StarportCall :=
  | XLock (c : CurrencyId) (n : Balance)
  | XLockTo (to : AccountId) (c : CurrencyId) (n : Balance)
  | XInvoke (notice : GatewayNotice) (signatures : list AccountId).
Definition starport_dispatch (o : Origin) (x : StarportCall) : M DispatchError StarportState unit :=
  match x with
  | XLock c n => lock o c n
  | XLockTo to c n => lock_to o to c n
  | XInvoke notice signatures => invoke o notice signatures
  end.
(** Nobody has a key of the gateway's account, and amounts are unsigned. *)
Definition typed_call (o : Origin) (x : StarportCall) : Prop :=
  match x with
  | XLock _ n | XLockTo _ _ n => 0 <= n /\ o <> Signed starport_account
  | XInvoke notice _ => typed_payload (payload notice)
  end.
(** The notice that took effect *)
Definition effective (x : StarportCall) (r : outcome DispatchError unit) : list GatewayNotice :=
  match x, r with XInvoke notice _, Ok _ => [notice] | _, _ => [] end.

(** Others move coins but not those of the gateway's account, issue nothing that
    is not theirs, and the CASH pallet changes its yields. *)
Inductive starport_run (s0 : StarportState) : list GatewayNotice -> StarportState -> Prop :=
  | run_start : starport_run s0 [] s0
  | run_call ns s o x r s' : starport_run s0 ns s -> typed_call o x -> starport_dispatch o x s = (r, s') ->
      starport_run s0 (ns ++ effective x r) s'
  | run_coins ns s k : starport_run s0 ns s -> (forall c, outside starport_account c k = sta_outside c s) ->
      starport_run s0 ns (put_book k s)
  | run_cash ns s x : starport_run s0 ns s -> starport_run s0 ns (put_cash x s).

Lemma invoke_tells o notice signatures s : typed_payload (payload notice) ->
  wp (invoke o notice signatures)
    (fun _ s' => accounted s s' /\ (notice_hash notice ∉ InvokedNoticeHashes s) /\
       InvokedNoticeHashes s' = ({[ notice_hash notice ]} ∪ InvokedNoticeHashes s))
    (fun _ s' => s' = s) s.
Proof.
  intros Hp. apply wp_transactional, wp_bind, wp_signed; [intros who _|done]. cbv zeta. apply wp_bind, wp_gets, wp_bind, wp_ensure.
  split; [intros Hnew%bool_decide_eq_true|done]. apply wp_bind, wp_gets, wp_bind, wp_ensure. split; [intros _|done].
  apply wp_bind. eapply wp_mono; [by apply take_effect_tells| |done]. intros [] s1 [Ha Hi]. apply wp_modify.
  split_and!; [|done|cbn; by rewrite Hi]. transitivity s1; [done|]. by apply accounted_same.
Qed.
Lemma dispatch_tells o x r s s' : typed_call o x -> starport_dispatch o x s = (r, s') ->
  accounted s s' /\
  match effective x r with
  | [] => (InvokedNoticeHashes s' = InvokedNoticeHashes s)
  | n :: _ => (notice_hash n ∉ InvokedNoticeHashes s) /\ (InvokedNoticeHashes s' = ({[ notice_hash n ]} ∪ InvokedNoticeHashes s))
  end.
Proof.
  intros Hx Hr.
  assert (Hlock : forall from to c n, 0 <= n -> Signed from <> Signed starport_account -> wp (do_lock_to from to c n)
    (fun _ s' => accounted s s' /\ InvokedNoticeHashes s' = InvokedNoticeHashes s) (fun _ _ => True) s).
  { intros from to c n Hn Hfrom. apply do_lock_to_tells; [congruence|done]. }
  assert (Hw : wp (starport_dispatch o x) (fun _ s' => accounted s s' /\
    match x with
    | XInvoke n _ => (notice_hash n ∉ InvokedNoticeHashes s) /\ (InvokedNoticeHashes s' = ({[ notice_hash n ]} ∪ InvokedNoticeHashes s))
    | _ => (InvokedNoticeHashes s' = InvokedNoticeHashes s) end) (fun _ s' => s' = s) s).
  { destruct x as [c n|to c n|notice signatures]; cbn [starport_dispatch]; [..|by apply invoke_tells];
      apply wp_transactional, wp_bind, wp_signed; try done; intros who ->; destruct Hx as [Hn Ho];
      (eapply wp_mono; [by apply Hlock|done|done]). }
  unfold wp in Hw. rewrite Hr in Hw. destruct r as [[]|e|]; [|subst s'|done].
  - destruct x; cbn; apply Hw.
  - split; [reflexivity|]. by destruct x.
Qed.

(** C25: over any history of the gateway its events tell the supply caps, never
    negative, and how much of each currency went to the other chain and came back,
    and every notice that took effect is remembered and took effect once. *)
Theorem gateway_accounts_for_assets (s0 s : StarportState) (ns : list GatewayNotice) (Hrun : starport_run s0 ns s)
    (Hevents : sta_events s0 = []) (Hcaps : forall c, supply_caps c s0 = 0) (Hnone : InvokedNoticeHashes s0 = ∅) :
  (forall c, supply_caps c s = foldl (cap_after c) 0 (sta_events s) /\ 0 <= supply_caps c s) /\
  (forall c, sta_outside c s = sta_outside c s0 + sum_of (brought c) (sta_events s)) /\
  NoDup (notice_hash <$> ns) /\ (forall n, n ∈ ns -> notice_hash n ∈ InvokedNoticeHashes s).
Proof.
  assert (Hinv : accounted s0 s /\ NoDup (notice_hash <$> ns) /\ forall h, h ∈ notice_hash <$> ns <-> h ∈ InvokedNoticeHashes s).
  { induction Hrun as [|ns s o x r s' _ (Ha & Hnd & Hin) Hx Hr|ns s k _ (Ha & Hnd & Hin) Hk|ns s y _ (Ha & Hnd & Hin)].
    - split_and!; [reflexivity|apply NoDup_nil_2|]. intros h. rewrite Hnone. set_solver.
    - destruct (dispatch_tells o x r s s' Hx Hr) as [Ha' He]. split; [by transitivity s|]. rewrite fmap_app.
      assert (effective x r = [] \/ exists n, effective x r = [n]) as [Hn|[n Hn]]
        by (destruct x, r; cbn; [by left..|right; by eexists|by left|by left]).
      + rewrite Hn in *. cbn. by rewrite app_nil_r, He.
      + rewrite Hn in *. destruct He as [Hnew Hi]. split.
        * apply NoDup_app. split_and!; [done| |apply NoDup_singleton]. intros h Hh. apply Hin in Hh. set_solver.
        * intros h. rewrite Hi. set_solver.
    - split_and!; [|done|done]. transitivity s; [done|]. by apply accounted_same.
    - split_and!; [|done|done]. transitivity s; [done|]. by apply accounted_same. }
  destruct Hinv as ((es & He & Hc & Ho & Hn) & Hnd & Hin). rewrite Hevents in He. cbn in He. subst es. split_and!; [|done|done|].
  - intros c. rewrite <- (Hcaps c) at 1. split; [apply Hc|]. apply Hn. intros c'. by rewrite Hcaps.
  - intros n Hn'. apply Hin. set_solver.
Qed.

(** Signatures are names.  Whoever signs a transaction and lists the
    authorities, whose names are public, makes a fresh notice take effect. *)
Theorem anyone_may_invoke who id c cap s (Hfresh : notice_hash (mkNotice id (SetSupplyCap c cap)) ∉ InvokedNoticeHashes s)
    (Hratio : forall n, 0 < n -> PercentThresholdForAuthoritySignature <= from_rational n n)
    (Hsome : GatewayAuthorities s <> []) :
  exists s', invoke (Signed who) (mkNotice id (SetSupplyCap c cap)) (GatewayAuthorities s) s = (Ok tt, s') /\ supply_caps c s' = cap.
Proof.
  assert (Hcount : forall l k, (forall x, x ∈ l -> x ∈ GatewayAuthorities s) ->
    foldl (fun count signatory => if bool_decide (signatory ∈ GatewayAuthorities s) then count + 1 else count) k l = k + Z.of_nat (length l)).
  { induction l as [|x l IH]; intros k Hl; cbn [foldl length]; [lia|].
    rewrite bool_decide_eq_true_2, IH by (intros; apply Hl; set_solver). lia. }
  assert (Hv : verify_compound_authority_signature (GatewayAuthorities s) s = true).
  { unfold verify_compound_authority_signature, count_signatories. rewrite Hcount by done. apply Z.leb_le. rewrite Z.add_0_l.
    apply Hratio. destruct (GatewayAuthorities s); [done|cbn; lia]. }
  assert (Hw : wp (invoke (Signed who) (mkNotice id (SetSupplyCap c cap)) (GatewayAuthorities s))
    (fun _ s' => supply_caps c s' = cap) (fun _ _ => False) s).
  { apply wp_transactional, wp_bind, wp_ret. cbv zeta. apply wp_bind, wp_gets, wp_bind, wp_ensure.
    split; [intros _|by intros ?%bool_decide_eq_false]. apply wp_bind, wp_gets, wp_bind, wp_ensure. rewrite Hv. split; [intros _|done].
    apply wp_bind, wp_bind, wp_modify, wp_modify, wp_modify. unfold supply_caps. cbn. by rewrite lookup_insert_eq. }
  unfold wp in Hw. destruct (invoke _ _ _ s) as [[[]|e|] s']; [by exists s'|done..].
Qed.
End Specs.
