(* ===== verification/Renvm.v ===== *)
(** * The RenVM bridge

    [ecosystem-modules/ren/renvm-bridge/src/lib.rs]: tokens minted by unsigned
    transactions that carry a signature of RenVM, burnt by their owners, and the
    key of RenVM rotated by itself.  Hashes and the recovery of the signer are
    parameters, and the fees are those of [TransactionPayment]. *)
From S2P Require Import Prelude Primitives Runtime Bytes TransactionPayment Bridges.

Definition MINT_TX_LENGTH : Z := 168.
Definition MINT_WEIGHT : Weight := 10000.

Inductive RenvmEvent :=
  | Minted (owner : AccountId) (amount : Balance)
  | Burnt (owner : AccountId) (dest : bytes) (amount : Balance)
  | RotatedKey (new_key : bytes).

(** [InvalidTransaction] and [ValidTransaction], as far as they are made here *)
Inductive RenvmInvalid := Stale | BadProof | NotUnsigned.
Record ValidTransaction := mkValidTx {
  vt_provides : string * bytes; vt_priority : Z; vt_longevity : Z; vt_propagate : bool }.

Class RenvmConfig `{TokenLedger} := {
  BridgedToken : CurrencyId;
  CurrencyIdentifier : bytes;
  RenvmUnsignedPriority : Z;
  ren_payment :: TransactionPayment Book;
  keccak_256 : bytes -> bytes;
  secp256k1_ecdsa_recover : bytes -> bytes -> option bytes;
  encode_account : AccountId -> bytes }.

Inductive RenvmCall :=
  | XMint (who : AccountId) (p_hash : bytes) (amount : Balance) (n_hash sig : bytes)
  | XBurn (to : bytes) (amount : Balance)
  | XRotateKey (new_key sig : bytes).

Section Renvm.
Context `{RenvmConfig}.

Record RenvmState := mkRenvm {
  RenVmPublicKey : option bytes;
  Signatures : gset bytes;
  BurnEvents : gmap Z (BlockNumber * bytes * Balance);
  NextBurnEventId : Z;
  ren_block : BlockNumber;
  ren_book : Book;
  ren_events : list RenvmEvent }.
Abbreviation MR := (M DispatchError RenvmState).

Definition put_key (k : option bytes) (s : RenvmState) : RenvmState :=
  mkRenvm k (Signatures s) (BurnEvents s) (NextBurnEventId s) (ren_block s) (ren_book s) (ren_events s).
Definition use_signature (sig : bytes) (s : RenvmState) : RenvmState :=
  mkRenvm (RenVmPublicKey s) ({[ sig ]} ∪ Signatures s) (BurnEvents s) (NextBurnEventId s) (ren_block s) (ren_book s) (ren_events s).
Definition put_burn_event (i : Z) (e : BlockNumber * bytes * Balance) (s : RenvmState) : RenvmState :=
  mkRenvm (RenVmPublicKey s) (Signatures s) (<[i := e]> (BurnEvents s)) (NextBurnEventId s) (ren_block s) (ren_book s) (ren_events s).
Definition put_next_id (i : Z) (s : RenvmState) : RenvmState :=
  mkRenvm (RenVmPublicKey s) (Signatures s) (BurnEvents s) i (ren_block s) (ren_book s) (ren_events s).
Definition put_ren_book (k : Book) (s : RenvmState) : RenvmState :=
  mkRenvm (RenVmPublicKey s) (Signatures s) (BurnEvents s) (NextBurnEventId s) (ren_block s) k (ren_events s).
Definition renvm_event (e : RenvmEvent) : MR unit := modify (fun s =>
  mkRenvm (RenVmPublicKey s) (Signatures s) (BurnEvents s) (NextBurnEventId s) (ren_block s) (ren_book s) (ren_events s ++ [e])).

(** ** Signatures *)
Definition signable_mint_message (p_hash : bytes) (amount : Balance) (to n_hash token : bytes) : bytes :=
  p_hash ++ repeat 0 16 ++ to_be_bytes 16 amount ++ token ++ to ++ n_hash.
Definition signable_rotate_key_message (new_key : bytes) : bytes := new_key.
Definition verify_signature (signed_message_hash sig : bytes) (s : RenvmState) : outcome DispatchError unit :=
  recovered ← ook_or (secp256k1_ecdsa_recover sig signed_message_hash) (RenvmE RenvmError.InvalidMintSignature);
  let addr := drop 12 (keccak_256 recovered) in
  pubkey ← ook_or (RenVmPublicKey s) (RenvmE RenvmError.InvalidRenVmPublicKey);
  oensure (bool_decide (addr = pubkey)) (RenvmE RenvmError.InvalidMintSignature).
Definition verify_mint_signature (p_hash : bytes) (amount : Balance) (to n_hash sig : bytes) : RenvmState -> outcome DispatchError unit :=
  verify_signature (keccak_256 (signable_mint_message p_hash amount to n_hash CurrencyIdentifier)) sig.
Definition verify_rotate_key_signature (new_key sig : bytes) : RenvmState -> outcome DispatchError unit :=
  verify_signature (keccak_256 (signable_rotate_key_message new_key)) sig.

Definition valid_transaction (sig : bytes) : ValidTransaction :=
  mkValidTx ("renvm-bridge"%string, sig) RenvmUnsignedPriority 64 true.
Definition checked (sig : bytes) (verify_result : outcome DispatchError unit) (s : RenvmState) : ValidTransaction + RenvmInvalid :=
  if bool_decide (sig ∈ Signatures s) then inr Stale
  else match verify_result with Ok _ => inl (valid_transaction sig) | _ => inr BadProof end.
Definition renvm_validate_unsigned (x : RenvmCall) (s : RenvmState) : ValidTransaction + RenvmInvalid :=
  match x with
  | XMint who p_hash amount n_hash sig =>
      checked sig (verify_mint_signature p_hash amount (encode_account who) n_hash sig s) s
  | XRotateKey new_key sig => checked sig (verify_rotate_key_signature new_key sig s) s
  | XBurn _ _ => inr NotUnsigned
  end.

(** ** The extrinsics *)
Definition do_mint (sender : AccountId) (amount : Balance) (sig : bytes) : MR unit :=
  on_book ren_book put_ren_book (tl_deposit BridgedToken sender amount);;
  modify (use_signature sig).
Definition do_rotate_key (new_key sig : bytes) : MR unit :=
  modify (put_key (Some new_key));;
  modify (use_signature sig).
(** [charge_fee], whose result is ignored *)
Definition charge_mint_fee (who : AccountId) : MR unit := fun s =>
  match tp_charge_fee who MINT_TX_LENGTH MINT_WEIGHT 0 Yes Normal (ren_book s) with
  | (Panic, k) => (Panic, put_ren_book k s)
  | (_, k) => (Ok tt, put_ren_book k s)
  end.

Definition ren_mint (origin : Origin) (who : AccountId) (p_hash : bytes) (amount : Balance) (n_hash sig : bytes) : MR unit :=
  ensure_none origin;;
  do_mint who amount sig;;
  charge_mint_fee who;;
  renvm_event (Minted who amount).

Definition ren_burn (origin : Origin) (to : bytes) (amount : Balance) : MR unit :=
  sender ← ensure_signed origin;
  this_id ← gets NextBurnEventId;
  next_id ← ok_or (if this_id + 1 <=? U32_MAX then Some (this_id + 1) else None) ArithmeticOverflow;
  on_book ren_book put_ren_book (tl_withdraw BridgedToken sender amount);;
  now ← gets ren_block;
  modify (put_burn_event this_id (now, to, amount));;
  renvm_event (Burnt sender to amount);;
  modify (put_next_id next_id).

Definition rotate_key (origin : Origin) (new_key sig : bytes) : MR unit :=
  ensure_none origin;;
  do_rotate_key new_key sig;;
  renvm_event (RotatedKey new_key).

Definition renvm_dispatch (o : Origin) (x : RenvmCall) : MR unit :=
  match x with
  | XMint who p_hash amount n_hash sig => ren_mint o who p_hash amount n_hash sig
  | XBurn to amount => ren_burn o to amount
  | XRotateKey new_key sig => rotate_key o new_key sig
  end.
Definition renvm_genesis (ren_vm_public_key : bytes) : MR unit := modify (put_key (Some ren_vm_public_key)).
End Renvm.
