(* ===== verification/RenvmSpecs.v ===== *)
(** * What holds of the RenVM bridge

    Over any history the bridged tokens are those that RenVM signed for less
    those that were burnt, and no string of bytes is accepted twice as a
    signature; but a signature has more than one string of bytes. *)
From S2P Require Import Prelude Primitives Runtime Bytes TransactionPayment Bridges Renvm.

Class RenvmLaws `{RenvmConfig} : Prop := {
  renvm_tokens :: TokenLedgerLaws;
  (* paying a fee, by a swap if need be, issues no bridged tokens and does not panic *)
  charge_fee_law who k :
    (tp_charge_fee who MINT_TX_LENGTH MINT_WEIGHT 0 Yes Normal k).1 <> Panic /\
    tl_issuance BridgedToken (tp_charge_fee who MINT_TX_LENGTH MINT_WEIGHT 0 Yes Normal k).2 = tl_issuance BridgedToken k }.

Section Specs.
Context `{Laws : RenvmLaws}.

Definition ren_issuance (s : RenvmState) : Z := tl_issuance BridgedToken (ren_book s).

(** ** What each call does *)
Lemma ren_deposit_wp who n (Q : unit -> RenvmState -> Prop) (R : DispatchError -> RenvmState -> Prop) s : 0 <= n ->
  (forall k, tl_issuance BridgedToken k = ren_issuance s + n -> Q tt (put_ren_book k s)) -> (forall e, R e s) ->
  wp (on_book ren_book put_ren_book (tl_deposit BridgedToken who n)) Q R s.
Proof.
  intros Hn HQ HR. apply wp_on_book; [|done]. intros k Hk. apply HQ. apply tl_deposit_law in Hk as [_ Hi]; [|done].
  by rewrite Hi, decide_True.
Qed.
Lemma ren_withdraw_wp who n (Q : unit -> RenvmState -> Prop) (R : DispatchError -> RenvmState -> Prop) s : 0 <= n ->
  (forall k, tl_issuance BridgedToken k = ren_issuance s - n -> Q tt (put_ren_book k s)) -> (forall e, R e s) ->
  wp (on_book ren_book put_ren_book (tl_withdraw BridgedToken who n)) Q R s.
Proof.
  intros Hn HQ HR. apply wp_on_book; [|done]. intros k Hk. apply HQ. apply tl_withdraw_law in Hk as [_ Hi]; [|done].
  by rewrite Hi, decide_True.
Qed.
Lemma charge_mint_fee_wp who (Q : unit -> RenvmState -> Prop) (R : DispatchError -> RenvmState -> Prop) s :
  (forall k, tl_issuance BridgedToken k = ren_issuance s -> Q tt (put_ren_book k s)) -> wp (charge_mint_fee who) Q R s.
Proof.
  intros HQ. destruct (charge_fee_law who (ren_book s)) as [Hp Hi]. unfold wp, charge_mint_fee.
  destruct (tp_charge_fee _ _ _ _ _ _ _) as [[u|e|] k]; [by apply HQ|by apply HQ|done].
Qed.

(** A mint issues the amount and uses the signature. *)
Lemma ren_mint_wp o who p amount n sig s : 0 <= amount ->
  wp (ren_mint o who p amount n sig)
    (fun _ s' => o = NoOrigin /\ exists k, tl_issuance BridgedToken k = ren_issuance s + amount /\
       s' = mkRenvm (RenVmPublicKey s) ({[ sig ]} ∪ Signatures s) (BurnEvents s) (NextBurnEventId s) (ren_block s) k
         (ren_events s ++ [Minted who amount]))
    (fun _ s' => s' = s) s.
Proof.
  intros Hn. apply wp_bind, wp_none; [intros ->|done]. apply wp_bind, wp_bind, ren_deposit_wp; [done| |done].
  intros k Hk. apply wp_modify, wp_bind, charge_mint_fee_wp. intros k' Hk'. apply wp_modify. split; [done|].
  exists k'. split; [|done]. rewrite Hk'. exact Hk.
Qed.
(** A burn takes the amount out of existence and records it. *)
Lemma ren_burn_wp o to amount s : 0 <= amount ->
  wp (ren_burn o to amount)
    (fun _ s' => exists who k, o = Signed who /\ NextBurnEventId s < U32_MAX /\ tl_issuance BridgedToken k = ren_issuance s - amount /\
       s' = mkRenvm (RenVmPublicKey s) (Signatures s) (<[NextBurnEventId s := (ren_block s, to, amount)]> (BurnEvents s))
         (NextBurnEventId s + 1) (ren_block s) k (ren_events s ++ [Burnt who to amount]))
    (fun _ s' => s' = s) s.
Proof.
  intros Hn. apply wp_bind, wp_signed; [intros who ->|done]. apply wp_bind, wp_gets, wp_bind, wp_ok_or. split; [|done].
  intros i. case_match eqn:Hi; [intros [= <-]|done]. apply wp_bind, ren_withdraw_wp; [done| |done]. intros k Hk.
  apply wp_bind, wp_gets, wp_bind, wp_modify, wp_bind, wp_modify, wp_modify.
  exists who, k. split_and!; [done|apply Z.leb_le in Hi; unfold U32_MAX in *; lia|done|done].
Qed.

(** ** Histories *)
(** RenVM signed for the call, under the key it had. *)
Definition signed_by (key sig message : bytes) : Prop :=
  exists recovered, secp256k1_ecdsa_recover sig (keccak_256 message) = Some recovered /\ drop 12 (keccak_256 recovered) = key.
Definition authorized (key : bytes) (x : RenvmCall) : Prop :=
  match x with
  | XMint who p amount n sig => signed_by key sig (signable_mint_message p amount (encode_account who) n CurrencyIdentifier)
  | XRotateKey new_key sig => signed_by key sig (signable_rotate_key_message new_key)
  | XBurn _ _ => False
  end.
Definition signature_of (x : RenvmCall) : bytes := match x with XMint _ _ _ _ sig | XRotateKey _ sig => sig | XBurn _ _ => [] end.
Definition minted_by (x : RenvmCall) : Z := match x with XMint _ _ amount _ _ => amount | _ => 0 end.
Definition typed_renvm (x : RenvmCall) : Prop := match x with XMint _ _ n _ _ | XBurn _ n => 0 <= n | _ => True end.
Definition burnt_amount (e : BlockNumber * bytes * Balance) : Z := e.2.

(** An unsigned transaction is validated before it is dispatched; a signed one
    has the origin of its signer.  Others issue no bridged tokens. *)
Inductive renvm_run (s0 : RenvmState) : list (option bytes * RenvmCall) -> RenvmState -> Prop :=
  | run_genesis : renvm_run s0 [] s0
  | run_unsigned l s x vt s' : renvm_run s0 l s -> typed_renvm x -> renvm_validate_unsigned x s = inl vt ->
      renvm_dispatch NoOrigin x s = (Ok tt, s') -> renvm_run s0 (l ++ [(RenVmPublicKey s, x)]) s'
  | run_failed l s x o e s' : renvm_run s0 l s -> typed_renvm x -> renvm_dispatch o x s = (Err e, s') -> renvm_run s0 l s'
  | run_signed l s x who s' : renvm_run s0 l s -> typed_renvm x -> renvm_dispatch (Signed who) x s = (Ok tt, s') -> renvm_run s0 l s'
  | run_others l s n k : renvm_run s0 l s -> tl_issuance BridgedToken k = ren_issuance s ->
      renvm_run s0 l (mkRenvm (RenVmPublicKey s) (Signatures s) (BurnEvents s) (NextBurnEventId s) n k (ren_events s)).

Lemma verify_signature_ok h sig s u : verify_signature (keccak_256 h) sig s = Ok u ->
  exists key, RenVmPublicKey s = Some key /\ signed_by key sig h.
Proof.
  unfold verify_signature, signed_by. intros Hv. destruct (secp256k1_ecdsa_recover sig (keccak_256 h)) as [rc|] eqn:Hr; [|done].
  cbn in Hv. destruct (RenVmPublicKey s) as [key|]; [|done]. cbn in Hv. unfold oensure in Hv.
  case_bool_decide as Hk; [|done]. exists key. split; [done|]. by exists rc.
Qed.
Lemma checked_inl sig (v : outcome DispatchError unit) s vt : checked sig v s = inl vt -> (sig ∉ Signatures s) /\ v = Ok tt.
Proof. unfold checked. case_bool_decide; [done|]. by destruct v as [[]|e|]. Qed.
Lemma validate_authorized x s vt : renvm_validate_unsigned x s = inl vt ->
  (signature_of x ∉ Signatures s) /\ exists key, RenVmPublicKey s = Some key /\ authorized key x.
Proof.
  destruct x as [who p n h sig|to n|k sig]; cbn; [..|]; [intros [Hs Hv]%checked_inl|done|intros [Hs Hv]%checked_inl];
    (split; [done|exact (verify_signature_ok _ _ _ _ Hv)]).
Qed.

(** What the history adds up to *)
Record renvm_ok (s0 : RenvmState) (l : list (option bytes * RenvmCall)) (s : RenvmState) : Prop := {
  rok_issuance : ren_issuance s + map_sum (fun _ => burnt_amount) (BurnEvents s) = ren_issuance s0 + sum_of (fun kx => minted_by kx.2) l;
  rok_records i : is_Some (BurnEvents s !! i) <-> 0 <= i < NextBurnEventId s;
  rok_next : 0 <= NextBurnEventId s <= U32_MAX;
  rok_nodup : NoDup ((fun kx => signature_of kx.2) <$> l);
  rok_used kx : kx ∈ l -> signature_of kx.2 ∈ Signatures s;
  rok_signed kx : kx ∈ l -> exists key, kx.1 = Some key /\ authorized key kx.2 }.

(** A signature is used: it was not before, and is from now on. *)
Lemma renvm_ok_used s0 l s x s' : renvm_ok s0 l s -> signature_of x ∉ Signatures s ->
  (exists key, RenVmPublicKey s = Some key /\ authorized key x) -> Signatures s' = {[ signature_of x ]} ∪ Signatures s ->
  BurnEvents s' = BurnEvents s -> NextBurnEventId s' = NextBurnEventId s -> ren_issuance s' = ren_issuance s + minted_by x ->
  renvm_ok s0 (l ++ [(RenVmPublicKey s, x)]) s'.
Proof.
  intros Hs Hnew Hkey Hsig Hb Hn Hi. constructor.
  - rewrite Hb, Hi, sum_of_app, sum_of_cons, sum_of_nil. cbn [snd]. pose proof (rok_issuance _ _ _ Hs). lia.
  - rewrite Hb, Hn. apply Hs.
  - rewrite Hn. apply Hs.
  - rewrite fmap_app. apply NoDup_app. split_and!; [apply Hs| |apply NoDup_singleton].
    intros g (kx & -> & Hkx)%list_elem_of_fmap Hin%list_elem_of_singleton. cbn in Hin. apply Hnew. rewrite <- Hin. by apply (rok_used _ _ _ Hs).
  - intros kx [Hkx| ->%list_elem_of_singleton]%elem_of_app; rewrite Hsig; [apply (rok_used _ _ _ Hs) in Hkx|]; set_solver.
  - intros kx [Hkx| ->%list_elem_of_singleton]%elem_of_app; [by apply (rok_signed _ _ _ Hs)|done].
Qed.
Lemma renvm_ok_burn s0 l s k t who to n : renvm_ok s0 l s -> NextBurnEventId s < U32_MAX ->
  tl_issuance BridgedToken k = ren_issuance s - n ->
  renvm_ok s0 l (mkRenvm (RenVmPublicKey s) (Signatures s) (<[NextBurnEventId s := (t, to, n)]> (BurnEvents s))
    (NextBurnEventId s + 1) (ren_block s) k (ren_events s ++ [Burnt who to n])).
Proof.
  intros Hs Hn Hk. pose proof (rok_next _ _ _ Hs) as Hnext.
  assert (Hnone : BurnEvents s !! NextBurnEventId s = None).
  { apply eq_None_not_Some. rewrite (rok_records _ _ _ Hs). lia. }
  constructor; cbn; [|..|apply Hs|apply Hs|apply Hs].
  - unfold ren_issuance. cbn. rewrite map_sum_insert_None, Hk by done. unfold burnt_amount at 1. cbn.
    pose proof (rok_issuance _ _ _ Hs) as Hi. change (tl_issuance BridgedToken (ren_book s0)) with (ren_issuance s0). lia.
  - intros i. destruct (decide (i = NextBurnEventId s)) as [->|Hne].
    + rewrite lookup_insert_eq. split; [lia|by eexists].
    + rewrite lookup_insert_ne by done. rewrite (rok_records _ _ _ Hs). lia.
  - lia.
Qed.
Lemma renvm_ok_dispatch s0 l s x o r s' : renvm_ok s0 l s -> typed_renvm x -> renvm_dispatch o x s = (r, s') ->
  match r with
  | Ok _ =>
      match x with
      | XBurn _ _ => o <> NoOrigin /\ renvm_ok s0 l s'
      | _ => o = NoOrigin /\ (Signatures s' = ({[ signature_of x ]} ∪ Signatures s)) /\ BurnEvents s' = BurnEvents s /\
          NextBurnEventId s' = NextBurnEventId s /\ ren_issuance s' = ren_issuance s + minted_by x
      end
  | _ => s' = s
  end.
Proof.
  intros Hs Hx Hr. destruct x as [who p n h sig|to n|key sig]; cbn [renvm_dispatch typed_renvm] in *.
  - pose proof (ren_mint_wp o who p n h sig s Hx) as Hw. unfold wp in Hw. rewrite Hr in Hw. destruct r as [[]|e|]; [|done|done].
    destruct Hw as (-> & k & Hk & ->). done.
  - pose proof (ren_burn_wp o to n s Hx) as Hw. unfold wp in Hw. rewrite Hr in Hw. destruct r as [[]|e|]; [|done|done].
    destruct Hw as (who & k & -> & Hn & Hk & ->). split; [done|by apply renvm_ok_burn].
  - destruct o; cbn in Hr; injection Hr as <- <-; [done|done|]. cbn. split_and!; [done..|]. unfold ren_issuance. cbn. lia.
Qed.

(** C15: over any history the bridged tokens are those there were, those RenVM
    signed for under the key it had, and less those whose burning is recorded; the
    burnings are numbered in order, and no byte string of a signature is accepted
    twice (a signature has two of them). *)
Theorem bridged_supply_is_signed (s0 s : RenvmState) (l : list (option bytes * RenvmCall)) (Hrun : renvm_run s0 l s)
    (Hburns : BurnEvents s0 = ∅) (Hnext : NextBurnEventId s0 = 0) :
  ren_issuance s = ren_issuance s0 + sum_of (fun kx => minted_by kx.2) l - map_sum (fun _ => burnt_amount) (BurnEvents s) /\
  (forall i, is_Some (BurnEvents s !! i) <-> 0 <= i < NextBurnEventId s) /\
  NoDup ((fun kx => signature_of kx.2) <$> l) /\
  (forall key x, (key, x) ∈ l -> exists k, key = Some k /\ authorized k x).
Proof.
  assert (Hok : renvm_ok s0 l s).
  { induction Hrun as [|l s x vt s' _ IH Hx Hv Hr|l s x o e s' _ IH Hx Hr|l s x who s' _ IH Hx Hr|l s n k _ IH Hk].
    - constructor; [|intros i|..]; rewrite ?Hburns, ?Hnext, ?map_sum_empty, ?sum_of_nil; try done; [|apply NoDup_nil_2|..].
      + rewrite lookup_empty. split; [by intros [? ?]|lia].
      + by intros kx ?%not_elem_of_nil.
      + by intros kx ?%not_elem_of_nil.
    - destruct (validate_authorized x s vt Hv) as [Hnew Hkey].
      pose proof (renvm_ok_dispatch s0 l s x NoOrigin _ s' IH Hx Hr) as Hd.
      destruct x; [|by destruct Hd|]; destruct Hd as (_ & Hsig & Hb & Hn & Hi); by apply (renvm_ok_used s0 l s).
    - pose proof (renvm_ok_dispatch s0 l s x o _ s' IH Hx Hr) as Heq. cbn in Heq. by subst.
    - pose proof (renvm_ok_dispatch s0 l s x _ _ s' IH Hx Hr) as Hd. destruct x; by destruct Hd.
    - destruct IH. constructor; cbn; try done. unfold ren_issuance in *. cbn. by rewrite Hk. }
  destruct Hok. split_and!; [lia|done|done|]. intros key x Hx. by apply (rok_signed0 (key, x)).
Qed.

(** C32: a signature of RenVM has two strings of bytes, its last byte counted from 0
    or from 27, and each of them mints.  After the one was used the other is still
    valid, and using it mints the amount again. *)
Theorem one_signature_mints_twice who p amount n rs v s vt s1 (Hamount : 0 <= amount)
    (Hrecover : forall h, secp256k1_ecdsa_recover (rs ++ [v + 27]) h = secp256k1_ecdsa_recover (rs ++ [v]) h)
    (Hvalid : renvm_validate_unsigned (XMint who p amount n (rs ++ [v])) s = inl vt)
    (Hfirst : ren_mint NoOrigin who p amount n (rs ++ [v]) s = (Ok tt, s1))
    (Hother : rs ++ [v + 27] ∉ Signatures s) :
  renvm_validate_unsigned (XMint who p amount n (rs ++ [v + 27])) s1 = inl (valid_transaction (rs ++ [v + 27])) /\
  (forall s2, ren_mint NoOrigin who p amount n (rs ++ [v + 27]) s1 = (Ok tt, s2) -> ren_issuance s2 = ren_issuance s + 2 * amount).
Proof.
  pose proof (ren_mint_wp NoOrigin who p amount n (rs ++ [v]) s Hamount) as Hw. unfold wp in Hw. rewrite Hfirst in Hw.
  destruct Hw as (_ & k & Hk & Hs1). split.
  - subst s1. cbn in Hvalid |- *. apply checked_inl in Hvalid as [_ Hv]. unfold checked. cbn. rewrite bool_decide_eq_false_2.
    + unfold verify_mint_signature, verify_signature in *. cbn. by rewrite Hrecover, Hv.
    + intros [Heq%elem_of_singleton|Hin]%elem_of_union; [|done]. apply app_inj_tail in Heq as [_ Heq]. lia.
  - intros s2 Hsecond. pose proof (ren_mint_wp NoOrigin who p amount n (rs ++ [v + 27]) s1 Hamount) as Hw2.
    unfold wp in Hw2. rewrite Hsecond in Hw2. destruct Hw2 as (_ & k2 & Hk2 & ->).
    subst s1. unfold ren_issuance in *. cbn in *. lia.
Qed.
End Specs.
