(* ===== verification/Chainsafe.v ===== *)
(** * The ChainSafe bridge

    [ecosystem-modules/chainsafe/src/lib.rs]: which currency a resource of the
    bridge is, and the transfers to and from the other chains.  The pallet
    [chainbridge], which sends and receives the messages, is a parameter. *)
From S2P Require Import Prelude Primitives Runtime Bytes Bridges.

Abbreviation ChainId := Z.

Inductive ChainsafeEvent :=
  | RegisterResourceId (r : ResourceId) (c : CurrencyId)
  | UnregisterResourceId (r : ResourceId) (c : CurrencyId).

Class ChainsafeConfig `{TokenLedger} := {
  ChainsafeNativeCurrencyId : CurrencyId;
  RegistorOrigin : Origin -> bool;
  BridgeOrigin : Origin -> option AccountId;
  (* [chainbridge] *)
  Relay : Type;
  this_chain_id : ChainId;
  chain_whitelisted : ChainId -> Relay -> bool;
  bridge_account_id : AccountId;
  transfer_fungible : ChainId -> ResourceId -> bytes -> Z -> Relay -> Relay + DispatchError }.

Section Chainsafe.
Context `{ChainsafeConfig}.

Record ChainsafeState := mkChainsafe {
  ResourceIds : gmap CurrencyId ResourceId;
  CurrencyIds : gmap ResourceId CurrencyId;
  cs_relay : Relay;
  cs_book : Book;
  cs_events : list ChainsafeEvent }.
Abbreviation MC := (M DispatchError ChainsafeState).

Definition put_registry (rs : gmap CurrencyId ResourceId) (cs : gmap ResourceId CurrencyId) (s : ChainsafeState) : ChainsafeState :=
  mkChainsafe rs cs (cs_relay s) (cs_book s) (cs_events s).
Definition put_cs_book (k : Book) (s : ChainsafeState) : ChainsafeState :=
  mkChainsafe (ResourceIds s) (CurrencyIds s) (cs_relay s) k (cs_events s).
Definition chainsafe_event (e : ChainsafeEvent) : MC unit :=
  modify (fun s => mkChainsafe (ResourceIds s) (CurrencyIds s) (cs_relay s) (cs_book s) (cs_events s ++ [e])).
Definition on_relay (f : Relay -> Relay + DispatchError) : MC unit := fun s =>
  match f (cs_relay s) with
  | inl r => (Ok tt, mkChainsafe (ResourceIds s) (CurrencyIds s) r (cs_book s) (cs_events s))
  | inr e => (Err e, s)
  end.

(** [resource_id[31]]: identifiers are numbers of 32 bytes, the last of which is the lowest. *)
Definition is_origin_chain_resource (r : ResourceId) : bool := Z.of_N (N.modulo r 256) =? this_chain_id.
Definition is_chainsafe (c : CurrencyId) : bool := match c with ChainSafe _ => true | _ => false end.

Definition register_resource_id (origin : Origin) (resource_id : ResourceId) (c : CurrencyId) : MC unit := transactional (
  ensure_origin RegistorOrigin origin;;
  free ← gets (fun s => bool_decide (ResourceIds s !! c = None) && bool_decide (CurrencyIds s !! resource_id = None));
  ensure free (ChainsafeE ChainsafeError.ResourceIdAlreadyRegistered);;
  let check_match :=
    if is_origin_chain_resource resource_id then negb (is_chainsafe c)
    else match c with ChainSafe r_id => (r_id =? resource_id)%N | _ => false end in
  ensure check_match (ChainsafeE ChainsafeError.ResourceIdCurrencyIdNotMatch);;
  modify (fun s => put_registry (<[c := resource_id]> (ResourceIds s)) (<[resource_id := c]> (CurrencyIds s)) s);;
  chainsafe_event (RegisterResourceId resource_id c)).

Definition remove_resource_id (origin : Origin) (resource_id : ResourceId) : MC unit := transactional (
  ensure_origin RegistorOrigin origin;;
  taken ← gets (fun s => CurrencyIds s !! resource_id);
  match taken with
  | Some c =>
      modify (fun s => put_registry (ResourceIds s) (delete resource_id (CurrencyIds s)) s);;
      modify (fun s => put_registry (delete c (ResourceIds s)) (CurrencyIds s) s);;
      chainsafe_event (UnregisterResourceId resource_id c)
  | None => mret tt
  end).

Definition do_transfer_to_bridge (from : AccountId) (c : CurrencyId) (dest_chain_id : ChainId) (recipient : bytes) (amount : Balance) : MC unit :=
  listed ← gets (fun s => chain_whitelisted dest_chain_id (cs_relay s));
  ensure listed (ChainsafeE ChainsafeError.InvalidDestChainId);;
  id ← gets (fun s => ResourceIds s !! c);
  resource_id ← ok_or id (ChainsafeE ChainsafeError.ResourceIdNotRegistered);
  (if is_origin_chain_resource resource_id
   then on_book cs_book put_cs_book (tl_transfer c from bridge_account_id amount)
   else on_book cs_book put_cs_book (tl_withdraw c from amount));;
  on_relay (transfer_fungible dest_chain_id resource_id recipient amount).

Definition transfer_to_bridge (origin : Origin) (c : CurrencyId) (dest_chain_id : ChainId) (recipient : bytes) (amount : Balance) : MC unit :=
  transactional (who ← ensure_signed origin; do_transfer_to_bridge who c dest_chain_id recipient amount).
Definition transfer_native_to_bridge (origin : Origin) (dest_chain_id : ChainId) (recipient : bytes) (amount : Balance) : MC unit :=
  transactional (who ← ensure_signed origin; do_transfer_to_bridge who ChainsafeNativeCurrencyId dest_chain_id recipient amount).

Definition transfer_from_bridge (origin : Origin) (to : AccountId) (amount : Balance) (resource_id : ResourceId) : MC unit :=
  transactional (
    bridge_account_id ← ok_or (BridgeOrigin origin) BadOrigin;
    id ← gets (fun s => CurrencyIds s !! resource_id);
    c ← ok_or id (ChainsafeE ChainsafeError.ResourceIdNotRegistered);
    if is_origin_chain_resource resource_id
    then on_book cs_book put_cs_book (tl_transfer c bridge_account_id to amount)
    else on_book cs_book put_cs_book (tl_deposit c to amount)).
End Chainsafe.
