(* ===== verification/ChainsafeSpecs.v ===== *)
(** * What holds of the ChainSafe bridge

    Over any history currencies and resources correspond one to one, each to its
    kind, and what exists outside of the bridge's account is what there was, less
    what was sent, plus what was received; nothing of this chain is issued. *)
From S2P Require Import Prelude Primitives Runtime Bytes Bridges Chainsafe.

Class ChainsafeLaws `{ChainsafeConfig} : Prop := {
  chainsafe_tokens :: TokenLedgerLaws;
  (* [chainbridge::EnsureBridge] returns the account of the bridge *)
  bridge_origin_law o a : BridgeOrigin o = Some a -> a = bridge_account_id }.

Section Specs.
Context `{Laws : ChainsafeLaws}.

(** ** The registry *)
Record registry_ok (s : ChainsafeState) : Prop := {
  reg_inverse c r : ResourceIds s !! c = Some r <-> CurrencyIds s !! r = Some c;
  reg_kind c r : ResourceIds s !! c = Some r ->
    if is_origin_chain_resource r then is_chainsafe c = false else c = ChainSafe r }.

Lemma register_keeps o r c s : registry_ok s ->
  wp (register_resource_id o r c) (fun _ s' => registry_ok s' /\ cs_book s' = cs_book s) (fun _ s' => s' = s) s.
Proof.
  intros Hs. apply wp_transactional, wp_bind, wp_origin; [intros _|done]. apply wp_bind, wp_gets, wp_bind, wp_ensure.
  split; [|done]. intros [Hc Hr]%andb_true_iff. apply bool_decide_eq_true in Hc, Hr. cbv zeta.
  apply wp_bind, wp_ensure. split; [intros Hk|done]. apply wp_bind, wp_modify, wp_modify. split; [|done]. constructor; cbn.
  - intros c' r'. rewrite !lookup_insert_Some. pose proof (reg_inverse s Hs c' r'). naive_solver.
  - intros c' r'. rewrite lookup_insert_Some. intros [[<- <-]|[_ Hc']]; [|by apply Hs].
    destruct (is_origin_chain_resource r); [by apply negb_true_iff|]. destruct c; try done. by apply N.eqb_eq in Hk as ->.
Qed.
Lemma remove_keeps o r s : registry_ok s ->
  wp (remove_resource_id o r) (fun _ s' => registry_ok s' /\ cs_book s' = cs_book s) (fun _ s' => s' = s) s.
Proof.
  intros Hs. apply wp_transactional, wp_bind, wp_origin; [intros _|done]. apply wp_bind, wp_gets.
  destruct (CurrencyIds s !! r) as [c|] eqn:Hr; [|by apply wp_ret]. apply wp_bind, wp_modify, wp_bind, wp_modify, wp_modify.
  split; [|done]. constructor; cbn.
  - intros c' r'. rewrite !lookup_delete_Some. pose proof (reg_inverse s Hs c' r'). pose proof (reg_inverse s Hs c r').
    pose proof (reg_inverse s Hs c' r). naive_solver.
  - intros c' r'. rewrite lookup_delete_Some. intros [_ Hc']. by apply Hs.
Qed.

(** ** The transfers *)
Definition cs_outside (c : CurrencyId) (s : ChainsafeState) : Z := outside bridge_account_id c (cs_book s).
Definition cs_issuance (c : CurrencyId) (s : ChainsafeState) : Z := tl_issuance c (cs_book s).
(** Only what exists outside changes, by [f], and nothing of this chain is issued. *)
Definition shifts (f : CurrencyId -> Z) (s s' : ChainsafeState) : Prop :=
  ResourceIds s' = ResourceIds s /\ CurrencyIds s' = CurrencyIds s /\
  (forall c, cs_outside c s' = cs_outside c s + f c) /\
  (forall c, is_chainsafe c = false -> cs_issuance c s' = cs_issuance c s).

Lemma shifts_book s k (f : CurrencyId -> Z) : (forall c, outside bridge_account_id c k = cs_outside c s + f c) ->
  (forall c, is_chainsafe c = false -> tl_issuance c k = cs_issuance c s) -> shifts f s (put_cs_book k s).
Proof. done. Qed.
(** A resource of another chain is its own currency. *)
Lemma foreign_is_chainsafe s c r : registry_ok s -> ResourceIds s !! c = Some r -> is_origin_chain_resource r = false ->
  is_chainsafe c = true.
Proof. intros Hs Hc Hr. pose proof (reg_kind s Hs c r Hc) as Hk. rewrite Hr in Hk. by subst. Qed.

Lemma do_transfer_to_bridge_shifts who c dest recipient n s : registry_ok s -> 0 <= n ->
  wp (do_transfer_to_bridge who c dest recipient n) (fun _ s' => shifts (fun c' => - crossing bridge_account_id who c n c') s s') (fun _ _ => True) s.
Proof.
  intros Hs Hn. apply wp_bind, wp_gets, wp_bind, wp_ensure. split; [intros _|done]. apply wp_bind, wp_gets, wp_bind, wp_ok_or.
  split; [intros r Hr|done].
  assert (Hm : wp (if is_origin_chain_resource r then on_book cs_book put_cs_book (tl_transfer c who bridge_account_id n)
      else on_book cs_book put_cs_book (tl_withdraw c who n))
    (fun _ s' => shifts (fun c' => - crossing bridge_account_id who c n c') s s') (fun _ _ => True) s).
  { destruct (is_origin_chain_resource r) eqn:Ho; apply wp_on_book; try done; intros k Hk; apply shifts_book.
    - intros c'. rewrite (outside_pay_in _ _ _ _ _ _ c' Hn Hk). unfold cs_outside. lia.
    - intros c' _. by apply (proj2 (tl_transfer_law _ _ _ _ _ _ Hn Hk)).
    - intros c'. rewrite (outside_burn _ _ _ _ _ _ c' Hn Hk). unfold cs_outside. lia.
    - intros c' Hc'. rewrite (proj2 (tl_withdraw_law _ _ _ _ _ Hn Hk)), decide_False; [unfold cs_issuance; lia|].
      intros ->. by rewrite (foreign_is_chainsafe s c r) in Hc'. }
  apply wp_bind. eapply wp_mono; [exact Hm| |done]. intros [] s' Hs'. unfold wp, on_relay.
  by destruct (transfer_fungible _ _ _ _ (cs_relay s')).
Qed.
Lemma transfer_from_bridge_shifts o to n r s : registry_ok s -> 0 <= n ->
  wp (transfer_from_bridge o to n r)
    (fun _ s' => shifts (fun c' => match CurrencyIds s !! r with Some c => crossing bridge_account_id to c n c' | None => 0 end) s s')
    (fun _ s' => s' = s) s.
Proof.
  intros Hs Hn. apply wp_transactional, wp_bind, wp_ok_or. split; [intros a ->%bridge_origin_law|done].
  apply wp_bind, wp_gets, wp_bind, wp_ok_or. split; [intros c Hc|done]. rewrite Hc.
  destruct (is_origin_chain_resource r) eqn:Ho; apply wp_on_book; try done; intros k Hk; apply shifts_book.
  - intros c'. by rewrite (outside_pay_out _ _ _ _ _ _ c' Hn Hk).
  - intros c' _. by apply (proj2 (tl_transfer_law _ _ _ _ _ _ Hn Hk)).
  - intros c'. by rewrite (outside_issue _ _ _ _ _ _ c' Hn Hk).
  - intros c' Hc'. rewrite (proj2 (tl_deposit_law _ _ _ _ _ Hn Hk)), decide_False; [unfold cs_issuance; lia|].
    intros ->. by rewrite (foreign_is_chainsafe s c r Hs (proj2 (reg_inverse s Hs c r) Hc) Ho) in Hc'.
Qed.

(** ** Histories *)
Inductive ChainsafeCall :=
  | XRegister (r : ResourceId) (c : CurrencyId)
  | XRemove (r : ResourceId)
  | XToBridge (c : CurrencyId) (dest : ChainId) (recipient : bytes) (n : Balance)
  | XNativeToBridge (dest : ChainId) (recipient : bytes) (n : Balance)
  | XFromBridge (to : AccountId) (n : Balance) (r : ResourceId).
Definition chainsafe_dispatch (o : Origin) (x : ChainsafeCall) : M DispatchError ChainsafeState unit :=
  match x with
  | XRegister r c => register_resource_id o r c
  | XRemove r => remove_resource_id o r
  | XToBridge c dest recipient n => transfer_to_bridge o c dest recipient n
  | XNativeToBridge dest recipient n => transfer_native_to_bridge o dest recipient n
  | XFromBridge to n r => transfer_from_bridge o to n r
  end.
Definition typed_chainsafe (x : ChainsafeCall) : Prop :=
  match x with XToBridge _ _ _ n | XNativeToBridge _ _ n | XFromBridge _ n _ => 0 <= n | _ => True end.

(** What an account sent over the bridge or got from it *)
Inductive Passage := Sent (who : AccountId) (c : CurrencyId) (n : Balance) | Received (who : AccountId) (c : CurrencyId) (n : Balance).
Definition passage (c : CurrencyId) (p : Passage) : Z :=
  match p with
  | Sent who c' n => - crossing bridge_account_id who c' n c
  | Received who c' n => crossing bridge_account_id who c' n c
  end.
Definition passages (o : Origin) (x : ChainsafeCall) (s : ChainsafeState) : list Passage :=
  match x, o with
  | XToBridge c _ _ n, Signed who => [Sent who c n]
  | XNativeToBridge _ _ n, Signed who => [Sent who ChainsafeNativeCurrencyId n]
  | XFromBridge to n r, _ => match CurrencyIds s !! r with Some c => [Received to c n] | None => [] end
  | _, _ => []
  end.

(** Others move coins and the other pallet its messages, but neither issues or
    burns, or moves what the account of the bridge has. *)
Inductive chainsafe_run (s0 : ChainsafeState) : list Passage -> ChainsafeState -> Prop :=
  | run_nothing : chainsafe_run s0 [] s0
  | run_done l s o x s' : chainsafe_run s0 l s -> typed_chainsafe x -> chainsafe_dispatch o x s = (Ok tt, s') ->
      chainsafe_run s0 (l ++ passages o x s) s'
  | run_refused l s o x e s' : chainsafe_run s0 l s -> typed_chainsafe x -> chainsafe_dispatch o x s = (Err e, s') -> chainsafe_run s0 l s'
  | run_other l s m k : chainsafe_run s0 l s -> (forall c, outside bridge_account_id c k = cs_outside c s) ->
      (forall c, tl_issuance c k = cs_issuance c s) ->
      chainsafe_run s0 l (mkChainsafe (ResourceIds s) (CurrencyIds s) m k (cs_events s)).

Lemma chainsafe_dispatch_ok o x s : registry_ok s -> typed_chainsafe x ->
  wp (chainsafe_dispatch o x) (fun _ s' => registry_ok s' /\
      (forall c, cs_outside c s' = cs_outside c s + sum_of (passage c) (passages o x s)) /\
      (forall c, is_chainsafe c = false -> cs_issuance c s' = cs_issuance c s))
    (fun _ s' => s' = s) s.
Proof.
  intros Hs Hx.
  assert (Hbook : forall s', registry_ok s' /\ cs_book s' = cs_book s -> registry_ok s' /\
    (forall c, cs_outside c s' = cs_outside c s + sum_of (passage c) []) /\
    (forall c, is_chainsafe c = false -> cs_issuance c s' = cs_issuance c s)).
  { intros s' [Hs' Hk]. unfold cs_outside, cs_issuance. rewrite Hk. split_and!; [done|intros c; rewrite sum_of_nil; lia|done]. }
  assert (Hshift : forall f l s', shifts f s s' -> (forall c, sum_of (passage c) l = f c) -> registry_ok s' /\
    (forall c, cs_outside c s' = cs_outside c s + sum_of (passage c) l) /\
    (forall c, is_chainsafe c = false -> cs_issuance c s' = cs_issuance c s)).
  { intros f l s' (Hr & Hc & Ho & Hi) Hf. split_and!; [|intros c; by rewrite Ho, Hf|done].
    constructor; intros *; rewrite Hr, ?Hc; apply Hs. }
  assert (Hsend : forall who c dest recipient n, 0 <= n -> wp (do_transfer_to_bridge who c dest recipient n)
    (fun _ s' => registry_ok s' /\ (forall c', cs_outside c' s' = cs_outside c' s + sum_of (passage c') [Sent who c n]) /\
      (forall c', is_chainsafe c' = false -> cs_issuance c' s' = cs_issuance c' s)) (fun _ _ => s = s) s).
  { intros who c dest recipient n Hn. eapply wp_mono; [by apply do_transfer_to_bridge_shifts|intros [] s' Hs'|done].
    apply (Hshift _ _ _ Hs'). intros c'. rewrite sum_of_cons, sum_of_nil. cbn [passage]. lia. }
  destruct x as [r c|r|c dest recipient n|dest recipient n|to n r]; cbn [chainsafe_dispatch].
  - eapply wp_mono; [by apply register_keeps|intros [] s'; apply Hbook|done].
  - eapply wp_mono; [by apply remove_keeps|intros [] s'; apply Hbook|done].
  - apply wp_transactional, wp_bind, wp_signed; [intros who ->; by apply Hsend|done].
  - apply wp_transactional, wp_bind, wp_signed; [intros who ->; by apply Hsend|done].
  - eapply wp_mono; [by apply transfer_from_bridge_shifts|intros [] s' Hs'|done]. apply (Hshift _ _ _ Hs').
    intros c'. unfold passages. destruct (CurrencyIds s !! r); rewrite ?sum_of_cons, sum_of_nil; cbn [passage]; lia.
Qed.

(** C23: over any history currencies and resources correspond one to one, resources
    of this chain to its currencies and others to themselves; what exists of a
    currency outside the bridge's account is what there was, less what was sent,
    plus what was received; and no currency of this chain is issued or burnt. *)
Theorem bridge_books_balance (s0 s : ChainsafeState) (l : list Passage) (Hrun : chainsafe_run s0 l s)
    (Hrs : ResourceIds s0 = ∅) (Hcs : CurrencyIds s0 = ∅) :
  (forall c r, ResourceIds s !! c = Some r <-> CurrencyIds s !! r = Some c) /\
  (forall c r, ResourceIds s !! c = Some r -> if is_origin_chain_resource r then is_chainsafe c = false else c = ChainSafe r) /\
  (forall c, cs_outside c s = cs_outside c s0 + sum_of (passage c) l) /\
  (forall c, is_chainsafe c = false -> cs_issuance c s = cs_issuance c s0).
Proof.
  assert (Hok : registry_ok s /\ (forall c, cs_outside c s = cs_outside c s0 + sum_of (passage c) l) /\
    (forall c, is_chainsafe c = false -> cs_issuance c s = cs_issuance c s0)).
  { induction Hrun as [|l s o x s' _ (Hs & Ho & Hi) Hx Hr|l s o x e s' _ (Hs & Ho & Hi) Hx Hr|l s m k _ (Hs & Ho & Hi) Hk Hki].
    - split_and!; [|intros c; rewrite sum_of_nil; lia|done]. constructor; intros *; rewrite Hrs, ?Hcs, !lookup_empty; done.
    - pose proof (chainsafe_dispatch_ok o x s Hs Hx) as Hw. unfold wp in Hw. rewrite Hr in Hw. destruct Hw as (Hs' & Ho' & Hi').
      split_and!; [done|intros c; rewrite Ho', Ho, sum_of_app; lia|intros c Hc; by rewrite Hi', Hi].
    - pose proof (chainsafe_dispatch_ok o x s Hs Hx) as Hw. unfold wp in Hw. rewrite Hr in Hw. by subst.
    - split_and!; [constructor; apply Hs|intros c; by rewrite <- Ho, <- Hk|intros c Hc; by rewrite <- Hi, <- Hki]. }
  destruct Hok as ([Hinv Hkind] & Ho & Hi). done.
Qed.
End Specs.
