(* ===== verification/BridgesSample.v ===== *)
(** * A sample runtime for the bridges

    A ledger of two maps, hashes that keep what they hash and a signature that is
    the name of its signer, and the theorems of the three bridges at short
    histories. *)
From S2P Require Import Prelude Primitives Runtime Bytes TransactionPayment Bridges Starport StarportSpecs Renvm RenvmSpecs Chainsafe ChainsafeSpecs.

Module BridgeSample.
(** ** The ledger *)
Record ToyBook := mkToy { issued : gmap CurrencyId Z; held : gmap (CurrencyId * AccountId) Z }.
Definition at_key {K} `{Countable K} (m : gmap K Z) (k : K) : Z := default 0 (m !! k).
Definition plus {K} `{Countable K} (m : gmap K Z) (k : K) (n : Z) : gmap K Z := <[k := at_key m k + n]> m.
Lemma at_key_plus {K} `{Countable K} (m : gmap K Z) k n x : at_key (plus m k n) x = at_key m x + if decide (x = k) then n else 0.
Proof.
  unfold plus. unfold at_key at 1. destruct (decide (x = k)) as [->|Hne].
  - by rewrite lookup_insert_eq.
  - rewrite lookup_insert_ne by done. unfold at_key. lia.
Qed.
Lemma held_plus m c a n c' x : at_key (plus m (c, a) n) (c', x) = at_key m (c', x) + delta c a n c' x.
Proof. rewrite at_key_plus. unfold delta. repeat case_decide; naive_solver. Qed.

Definition has (c : CurrencyId) (a : AccountId) (k : ToyBook) : Z := at_key (held k) (c, a).
#[export] Instance toy_ledger : TokenLedger := {
  Book := ToyBook;
  tl_issuance c k := at_key (issued k) c;
  tl_free := has;
  tl_ensure_can_withdraw c a n k := if n <=? has c a k then None else Some BadOrigin;
  tl_transfer c a b n k := if n <=? has c a k then inl (mkToy (issued k) (plus (plus (held k) (c, a) (- n)) (c, b) n)) else inr BadOrigin;
  tl_deposit c a n k := inl (mkToy (plus (issued k) c n) (plus (held k) (c, a) n));
  tl_withdraw c a n k := if n <=? has c a k then inl (mkToy (plus (issued k) c (- n)) (plus (held k) (c, a) (- n))) else inr BadOrigin }.
#[export] Instance toy_ledger_laws : TokenLedgerLaws.
Proof.
  constructor; cbn; intros.
  - case_match; simplify_eq. split; [|done]. intros c' x. unfold has. cbn. rewrite !held_plus, delta_opp. lia.
  - simplify_eq. split; [intros c' x; apply held_plus|intros c'; apply at_key_plus].
  - case_match; simplify_eq. split; [intros c' x; unfold has; cbn; rewrite held_plus, delta_opp; lia|].
    intros c'. cbn. rewrite at_key_plus. case_decide; lia.
Qed.
Definition purse : ToyBook := mkToy {[ Token ACA := 100; Token RENBTC := 40 ]} {[ (Token ACA, 5%N) := 100; (Token RENBTC, 5%N) := 40 ]}.

(** ** The gateway *)
#[export] Instance toy_gateway : StarportConfig := {
  starport_account := 90%N; MaxGatewayAuthorities := 8; PercentThresholdForAuthoritySignature := 500000000;
  from_rational p q := p * 1000000000 / q; notice_hash := notice_id }.
Definition gateway0 : StarportState := mkStarport ∅ ∅ [1%N; 2%N] (CompoundCash.mkCash ∅ ∅ (0, 0, 0)) purse [].
Definition cap_notice : GatewayNotice := mkNotice 7 (SetSupplyCap (Token ACA) 60).
Definition unlock_notice : GatewayNotice := mkNotice 8 (Unlock (Token ACA) 20 6%N).
Definition gateway_after (o : AccountId) (x : StarportCall) (s : StarportState) : StarportState := (starport_dispatch (Signed o) x s).2.
Definition gateway1 : StarportState := gateway_after 3%N (XInvoke cap_notice [2%N]) gateway0.
Definition gateway2 : StarportState := gateway_after 5%N (XLock (Token ACA) 50) gateway1.
Definition gateway3 : StarportState := gateway_after 3%N (XInvoke unlock_notice [1%N]) gateway2.
Lemma gateway_step s0 ns s o x r : starport_run s0 ns s -> typed_call (Signed o) x -> (starport_dispatch (Signed o) x s).1 = r ->
  starport_run s0 (ns ++ effective x r) (gateway_after o x s).
Proof. intros Hs Hx Hr. exact (run_call _ _ _ _ _ _ _ Hs Hx (run_split _ _ _ Hr)). Qed.
Lemma gateway_history : starport_run gateway0 [cap_notice; unlock_notice] gateway3.
Proof.
  change [cap_notice; unlock_notice] with ((([] ++ [cap_notice]) ++ []) ++ [unlock_notice]).
  apply (gateway_step _ _ _ _ (XInvoke unlock_notice [1%N]) (Ok tt)); [|done|by vm_compute].
  apply (gateway_step _ _ _ _ (XLock (Token ACA) 50) (Ok tt)); [|done|by vm_compute].
  apply (gateway_step _ _ _ _ (XInvoke cap_notice [2%N]) (Ok tt)); [|done|by vm_compute]. apply run_start.
Qed.

Lemma gateway_accounts_for_assets_witness :
  (sta_outside (Token ACA) gateway3 = 70 /\ supply_caps (Token ACA) gateway3 = 10) /\
  (forall c, sta_outside c gateway3 = sta_outside c gateway0 + sum_of (brought c) (sta_events gateway3)).
Proof.
  split; [split; by vm_compute|].
  exact (proj1 (proj2 (gateway_accounts_for_assets gateway0 gateway3 _ gateway_history eq_refl (fun _ => eq_refl) eq_refl))).
Defined.
Lemma anyone_may_invoke_witness :
  exists s', invoke (Signed 66%N) (mkNotice 9 (SetSupplyCap (Token ACA) 1000)) [1%N; 2%N] gateway3 = (Ok tt, s') /\
    supply_caps (Token ACA) s' = 1000.
Proof.
  apply (anyone_may_invoke 66%N 9 (Token ACA) 1000 gateway3).
  - by vm_compute.
  - intros n Hn. cbn. rewrite (Z.mul_comm n), Z.div_mul by lia. done.
  - by vm_compute.
Defined.

(** ** RenVM *)
#[export] Instance toy_payment : TransactionPayment ToyBook := {
  tp_reserve_fee _ _ := mret 0; tp_unreserve_fee _ _ := mret tt; tp_unreserve_and_charge_fee _ _ := mret (0, 0);
  tp_refund_fee _ _ _ := mret tt; tp_charge_fee _ _ _ _ _ _ := mret tt }.
#[export] Instance toy_renvm : RenvmConfig := {
  BridgedToken := Token RENBTC; CurrencyIdentifier := [1]; RenvmUnsignedPriority := 1; ren_payment := toy_payment;
  keccak_256 bs := repeat 0 12 ++ bs;
  secp256k1_ecdsa_recover sig _ := (fun v => [if 26 <? v then v - 27 else v]) <$> last sig;
  encode_account a := [Z.of_N a] }.
#[export] Instance toy_renvm_laws : RenvmLaws.
Proof. constructor; [apply _|done]. Qed.
Definition renvm0 : RenvmState := mkRenvm (Some [1]) ∅ ∅ 0 3 purse [].
Definition first_mint : RenvmCall := XMint 6%N [4] 25 [5] [9; 1].
Definition renvm1 : RenvmState := (renvm_dispatch NoOrigin first_mint renvm0).2.
Definition renvm2 : RenvmState := (renvm_dispatch (Signed 5%N) (XBurn [8] 10) renvm1).2.
Lemma renvm_history : renvm_run renvm0 [(Some [1], first_mint)] renvm2.
Proof.
  apply (run_signed _ _ renvm1 (XBurn [8] 10) 5%N); [|done|by apply run_split; vm_compute].
  apply (run_unsigned _ [] renvm0 first_mint (valid_transaction [9; 1])); [apply run_genesis|done|by vm_compute|].
  by apply run_split; vm_compute.
Qed.
Lemma bridged_supply_is_signed_witness :
  ren_issuance renvm2 = 55 /\
  ren_issuance renvm2 = ren_issuance renvm0 + sum_of (fun kx => minted_by kx.2) [(Some [1], first_mint)]
    - map_sum (fun _ => burnt_amount) (BurnEvents renvm2).
Proof. split; [by vm_compute|]. exact (proj1 (bridged_supply_is_signed renvm0 renvm2 _ renvm_history eq_refl eq_refl)). Defined.
Lemma one_signature_mints_twice_witness :
  renvm_validate_unsigned (XMint 6%N [4] 25 [5] [9; 28]) renvm1 = inl (valid_transaction [9; 28]).
Proof.
  refine (proj1 (one_signature_mints_twice 6%N [4] 25 [5] [9] 1 renvm0 (valid_transaction [9; 1]) renvm1 _ _ _ _ _)).
  - done.
  - intros h. by vm_compute.
  - by vm_compute.
  - by apply (run_split (ren_mint NoOrigin 6%N [4] 25 [5] [9; 1])); vm_compute.
  - by vm_compute.
Defined.

(** ** ChainSafe *)
#[export] Instance toy_chainsafe : ChainsafeConfig := {
  ChainsafeNativeCurrencyId := Token ACA; RegistorOrigin o := match o with Root => true | _ => false end;
  BridgeOrigin o := match o with Signed 91%N => Some 91%N | _ => None end; Relay := list Z; this_chain_id := 2;
  chain_whitelisted d _ := d =? 1; bridge_account_id := 91%N; transfer_fungible _ _ _ n l := inl (l ++ [n]) }.
#[export] Instance toy_chainsafe_laws : ChainsafeLaws.
Proof. constructor; [apply _|]. cbn. intros o a. repeat case_match; naive_solver. Qed.
Definition chainsafe0 : ChainsafeState := mkChainsafe ∅ ∅ ([] : @Relay _ toy_chainsafe) (purse : @Book toy_ledger) [].
Definition chainsafe_after (o : Origin) (x : ChainsafeCall) (s : ChainsafeState) : ChainsafeState := (chainsafe_dispatch o x s).2.
Definition chainsafe1 : ChainsafeState := chainsafe_after Root (XRegister 258%N (Token ACA)) chainsafe0.
Definition chainsafe2 : ChainsafeState := chainsafe_after (Signed 5%N) (XNativeToBridge 1 [3] 30) chainsafe1.
Definition chainsafe3 : ChainsafeState := chainsafe_after (Signed 91%N) (XFromBridge 6%N 12 258%N) chainsafe2.
Definition crossed : list Passage := [Sent 5%N (Token ACA) 30; Received 6%N (Token ACA) 12].
Lemma chainsafe_step s0 l s o x p : chainsafe_run s0 l s -> typed_chainsafe x -> (chainsafe_dispatch o x s).1 = Ok tt ->
  passages o x s = p -> chainsafe_run s0 (l ++ p) (chainsafe_after o x s).
Proof. intros Hs Hx Hr <-. exact (run_done _ _ _ _ _ _ Hs Hx (run_split _ _ _ Hr)). Qed.
Lemma chainsafe_history : chainsafe_run chainsafe0 crossed chainsafe3.
Proof.
  apply (chainsafe_step _ [Sent 5%N (Token ACA) 30] chainsafe2 (Signed 91%N) (XFromBridge 6%N 12 258%N) [Received 6%N (Token ACA) 12]);
    [|done|by vm_compute..].
  apply (chainsafe_step _ [] chainsafe1 (Signed 5%N) (XNativeToBridge 1 [3] 30) [Sent 5%N (Token ACA) 30]); [|done|by vm_compute..].
  apply (chainsafe_step _ [] chainsafe0 Root (XRegister 258%N (Token ACA)) []); [apply run_nothing|done|by vm_compute..].
Qed.
Lemma bridge_books_balance_witness :
  cs_outside (Token ACA) chainsafe3 = 82 /\
  (forall c, cs_outside c chainsafe3 = cs_outside c chainsafe0 + sum_of (passage c) crossed).
Proof.
  split; [by vm_compute|].
  exact (proj1 (proj2 (proj2 (bridge_books_balance chainsafe0 chainsafe3 crossed chainsafe_history eq_refl eq_refl)))).
Defined.
End BridgeSample.
