(* ===== verification/Precompiles.v ===== *)
(** * The precompiled contracts of the chain

    [runtime/common/src/precompile/]: the contracts through which code of the EVM
    reads and moves currencies, tokens, prices, pools and schedules calls, over
    the interfaces of the pallets.  An address is its number, an input a list of
    bytes; every answer is [Returned] and costs no gas, so it is its bytes. *)
From S2P Require Import Prelude FixedPoint Primitives Runtime Support Bytes EvmBridge EvmAccounts EvmManager Currencies Evm TransactionPayment Nft.

(** ** The interfaces the contracts are built on *)
(** [CurrencyIdMapping] of [modules/support/src/lib.rs], as far as it is read here *)
Class CurrencyIdMapping (St : Type) := {
  cim_name : CurrencyId -> St -> option bytes;
  cim_symbol : CurrencyId -> St -> option bytes;
  cim_decimals : CurrencyId -> St -> option Z;
  cim_decode_evm_address : EvmAddress -> St -> option CurrencyId }.
(** The EVM manager implements it. *)
#[export] Instance manager_mapping {St} : CurrencyIdMapping (ManagerSt St) := {
  cim_name c s := mapping_name (CurrencyIdMap s) c;
  cim_symbol c s := mapping_symbol (CurrencyIdMap s) c;
  cim_decimals c s := mapping_decimals (CurrencyIdMap s) c;
  cim_decode_evm_address a s := decode_evm_address (CurrencyIdMap s) a }.

(** [orml_traits::NFT] *)
Class NFT (St : Type) := {
  nftt_balance : AccountId -> St -> Z;
  nftt_owner : ClassId * TokenId -> St -> option AccountId;
  nftt_transfer : AccountId -> AccountId -> ClassId * TokenId -> M DispatchError St unit }.
#[export] Instance nft_pallet `{NftConfig} : NFT NftState := {
  nftt_balance := nft_balance; nftt_owner := nft_owner; nftt_transfer := nft_trait_transfer }.

(** [EVMStateRentTrait] *)
Class EVMStateRent (St : Type) := {
  sr_new_contract_extra_bytes : Z;
  sr_storage_deposit_per_byte : Balance;
  sr_maintainer : EvmAddress -> St -> outcome DispatchError EvmAddress;
  sr_developer_deposit : Balance;
  sr_deployment_fee : Balance;
  sr_transfer_maintainer : AccountId -> EvmAddress -> EvmAddress -> M DispatchError St unit }.
#[export] Instance evm_state_rent `{EvmConfig} : EVMStateRent EvmState := {
  sr_new_contract_extra_bytes := query_new_contract_extra_bytes;
  sr_storage_deposit_per_byte := query_storage_deposit_per_byte;
  sr_maintainer := query_maintainer;
  sr_developer_deposit := query_developer_deposit;
  sr_deployment_fee := query_deployment_fee;
  sr_transfer_maintainer := rent_transfer_maintainer }.

(** [ExitError::Other], with a message or that of a dispatch error *)
Inductive PrecompileError := Failed (msg : string) | Dispatched (e : DispatchError).
Abbreviation PE := (M PrecompileError).
Definition dispatching {St A} (m : M DispatchError St A) : PE St A := fun s =>
  match m s with
  | (Ok a, s') => (Ok a, s')
  | (Err e, s') => (Err (Dispatched e), s')
  | (Panic, s') => (Panic, s')
  end.

(** ** [input.rs] *)
Definition INPUT_BYTES_LENGTH : Z := 32.
Definition FUNCTION_SELECTOR_LENGTH : Z := 4.
Definition PER_PARAM_BYTES : Z := 32.
Definition ACTION_INDEX : Z := 0.

Section Input.
Context (usize_max : Z) (content : bytes).
Definition nth_param (n : Z) (length : option Z) : outcome PrecompileError bytes :=
  let range :=
    if n =? ACTION_INDEX then (INPUT_BYTES_LENGTH, INPUT_BYTES_LENGTH + FUNCTION_SELECTOR_LENGTH)
    else
      let start := (INPUT_BYTES_LENGTH + FUNCTION_SELECTOR_LENGTH + PER_PARAM_BYTES * (n - 1)) mod (usize_max + 1) in
      (start, usize_add usize_max start (default PER_PARAM_BYTES length)) in
  oensure (range.2 <=? len content) (Failed "invalid input");;
  match slice content range.1 range.2 with Some bs => Ok bs | None => Panic end.

Definition action {A} (try_from : Z -> option A) : outcome PrecompileError A :=
  param ← nth_param ACTION_INDEX None;
  ook_or (try_from (from_be_bytes param)) (Failed "invalid action").
Definition evm_address_at (index : Z) : outcome PrecompileError EvmAddress :=
  param ← nth_param index None;
  mret (Z.to_N (from_be_bytes (drop 12 param))).
Definition balance_at (index : Z) : outcome PrecompileError Balance :=
  param ← nth_param index None;
  mret (from_be_bytes (drop 16 param)).
(** [i128::from_be_bytes] *)
Definition amount_at (index : Z) : outcome PrecompileError Amount :=
  param ← nth_param index None;
  let x := from_be_bytes (drop 16 param) in
  mret (if x <? 2 ^ 127 then x else x - 2 ^ 128).
Definition u64_at (index : Z) : outcome PrecompileError Z :=
  param ← nth_param index None;
  mret (from_be_bytes (drop 24 param)).
Definition u32_at (index : Z) : outcome PrecompileError Z :=
  param ← nth_param index None;
  mret (from_be_bytes (drop 28 param)).
Definition bytes_at (index length : Z) : outcome PrecompileError bytes := nth_param index (Some length).

Context {St : Type} `{AddressMapping St} `{CurrencyIdMapping St}.
Definition account_id_at (index : Z) (s : St) : outcome PrecompileError AccountId :=
  address ← evm_address_at index;
  mret (get_account_id address s).
Definition currency_id_at (index : Z) (s : St) : outcome PrecompileError CurrencyId :=
  address ← evm_address_at index;
  ook_or (cim_decode_evm_address address s) (Failed "invalid currency id").
(** [for i in 0..path_len { path.push(input.currency_id_at((start + i) as usize)?) }] *)
Fixpoint read_path (path_len : nat) (index : Z) (s : St) : outcome PrecompileError (list CurrencyId) :=
  match path_len with
  | O => mret []
  | S path_len =>
      c ← currency_id_at index s;
      path ← read_path path_len (u32_wrapping_add index 1) s;
      mret (c :: path)
  end.
End Input.

(** ** Answers *)
Definition word (x : Z) : bytes := to_be_bytes 32 x.
Definition address_word (a : EvmAddress) : bytes := word (Z.of_N a).
(** [U256::from_big_endian] panics on more than 32 bytes. *)
Definition vec_u8_from_str (b : bytes) : outcome PrecompileError bytes :=
  if len b <=? 32 then Ok (word (from_be_bytes b)) else Panic.

Section Precompiles.
Context (usize_max : Z) {St : Type} `{AddressMapping St} `{CurrencyIdMapping St}.
(** Reading the input does not change the state. *)
Definition reading {A} (r : outcome PrecompileError A) : PE St A := reads (fun _ => r).

(** ** [multicurrency.rs] *)
Inductive CurrencyAction := QueryName | QuerySymbol | QueryDecimals | QueryTotalIssuance | QueryCurrencyBalance | TransferCurrency.
Definition currency_action (n : Z) : option CurrencyAction :=
  if n =? 0x06fdde03 then Some QueryName else if n =? 0x95d89b41 then Some QuerySymbol
  else if n =? 0x313ce567 then Some QueryDecimals else if n =? 0x18160ddd then Some QueryTotalIssuance
  else if n =? 0x70a08231 then Some QueryCurrencyBalance else if n =? 0xbeabacc8 then Some TransferCurrency else None.
Definition multicurrency_execute `{MultiCurrency St} (input : bytes) (caller : EvmAddress) : PE St bytes :=
  act ← reading (action usize_max input currency_action);
  currency_id ← reads (fun s => ook_or (cim_decode_evm_address caller s) (Failed "invalid currency id"));
  match act with
  | QueryName =>
      name ← reads (fun s => ook_or (cim_name currency_id s) (Failed "Get name failed"));
      reading (vec_u8_from_str name)
  | QuerySymbol =>
      symbol ← reads (fun s => ook_or (cim_symbol currency_id s) (Failed "Get symbol failed"));
      reading (vec_u8_from_str symbol)
  | QueryDecimals =>
      decimals ← reads (fun s => ook_or (cim_decimals currency_id s) (Failed "Get decimals failed"));
      mret (word decimals)
  | QueryTotalIssuance =>
      issuance ← dispatching (mc_total_issuance currency_id);
      mret (word issuance)
  | QueryCurrencyBalance =>
      who ← reads (account_id_at usize_max input 1);
      balance ← dispatching (mc_total_balance currency_id who);
      mret (word balance)
  | TransferCurrency =>
      from ← reads (account_id_at usize_max input 1);
      to ← reads (account_id_at usize_max input 2);
      amount ← reading (balance_at usize_max input 3);
      dispatching (mc_transfer currency_id from to amount);;
      mret []
  end.

(** ** [nft.rs] *)
Inductive NftAction := QueryNftBalance | QueryOwner | TransferNft.
Definition nft_action (n : Z) : option NftAction :=
  if n =? 0x70a08231 then Some QueryNftBalance else if n =? 0xd9dad80d then Some QueryOwner
  else if n =? 0x411b252 then Some TransferNft else None.
Definition nft_execute `{NFT St} (input : bytes) (caller : EvmAddress) : PE St bytes :=
  act ← reading (action usize_max input nft_action);
  match act with
  | QueryNftBalance =>
      who ← reads (account_id_at usize_max input 1);
      balance ← gets (nftt_balance who);
      mret (word balance)
  | QueryOwner =>
      class_id ← reading (u32_at usize_max input 1);
      token_id ← reading (u64_at usize_max input 2);
      owner ← gets (fun s =>
        match nftt_owner (class_id, token_id) s with
        | Some o => default (EvmAccounts.get_default_evm_address o) (EvmAccounts.get_evm_address o s)
        | None => 0%N
        end);
      mret (address_word owner)
  | TransferNft =>
      from ← reads (account_id_at usize_max input 1);
      to ← reads (account_id_at usize_max input 2);
      class_id ← reading (u32_at usize_max input 3);
      token_id ← reading (u64_at usize_max input 4);
      dispatching (nftt_transfer from to (class_id, token_id));;
      mret []
  end.

(** ** [state_rent.rs] *)
Inductive RentAction :=
  | QueryNewContractExtraBytes | QueryStorageDepositPerByte | QueryMaintainer | QueryDeveloperDeposit
  | QueryDeploymentFee | TransferMaintainer.
Definition rent_action (n : Z) : option RentAction :=
  if n =? 0xa23e8b82 then Some QueryNewContractExtraBytes else if n =? 0x6e043998 then Some QueryStorageDepositPerByte
  else if n =? 0x06ad1355 then Some QueryMaintainer else if n =? 0x68a18855 then Some QueryDeveloperDeposit
  else if n =? 0xf2cff57f then Some QueryDeploymentFee else if n =? 0xee0d2e12 then Some TransferMaintainer else None.
Definition rent_execute `{EVMStateRent St} (input : bytes) (caller : EvmAddress) : PE St bytes :=
  act ← reading (action usize_max input rent_action);
  match act with
  | QueryNewContractExtraBytes => mret (word sr_new_contract_extra_bytes)
  | QueryStorageDepositPerByte => mret (word sr_storage_deposit_per_byte)
  | QueryMaintainer =>
      contract ← reading (evm_address_at usize_max input 1);
      maintainer ← dispatching (reads (sr_maintainer contract));
      mret (address_word maintainer)
  | QueryDeveloperDeposit => mret (word sr_developer_deposit)
  | QueryDeploymentFee => mret (word sr_deployment_fee)
  | TransferMaintainer =>
      from ← reads (account_id_at usize_max input 1);
      contract ← reading (evm_address_at usize_max input 2);
      new_maintainer ← reading (evm_address_at usize_max input 3);
      dispatching (sr_transfer_maintainer from contract new_maintainer);;
      mret []
  end.
End Precompiles.

(** ** [oracle.rs] and [dex.rs], over the state of the protocol *)
Section Protocol.
Context `{Config} (usize_max : Z) `{AddressMapping State} `{CurrencyIdMapping State}.
Abbreviation PS := (PE State).

Inductive OracleAction := GetPrice.
Definition oracle_action (n : Z) : option OracleAction := if n =? 0x41976e09 then Some GetPrice else None.
(** [wrapping_div] panics on a division by zero, as [/] does. *)
Definition vec_u8_from_price (price : Price) (adjustment_multiplier : Z) : outcome PrecompileError bytes :=
  if adjustment_multiplier =? 0 then Panic else Ok (word (price / adjustment_multiplier)).
(** [10u128.checked_pow((18 - decimals).into())], with [decimals : u8]: the
    difference wraps in the runtime, which is built without overflow checks. *)
Definition adjustment (decimals : Z) : option Z := U128.checked_pow 10 ((18 - decimals) mod 256).
Definition oracle_execute `{!PriceProvider} (input : bytes) (caller : EvmAddress) : PS bytes :=
  act ← reading (action usize_max input oracle_action);
  currency_id ← reads (currency_id_at usize_max input 1);
  price ← gets (fun s => default 0 (get_price currency_id s));
  maybe_decimals ← gets (cim_decimals currency_id);
  let '(price, decimals) := match maybe_decimals with Some decimals => (price, decimals) | None => (0, 0) end in
  let '(price, adjustment_multiplier) :=
    match adjustment decimals with Some adjustment_multiplier => (price, adjustment_multiplier) | None => (0, 0) end in
  reading (vec_u8_from_price price adjustment_multiplier).

Inductive DexAction :=
  | GetLiquidityPool | GetLiquidityTokenAddress | GetSwapTargetAmount | GetSwapSupplyAmount
  | SwapWithExactSupply | SwapWithExactTarget | AddLiquidityAction | RemoveLiquidityAction.
Definition dex_action (n : Z) : option DexAction :=
  if n =? 0xf4f31ede then Some GetLiquidityPool else if n =? 0xffd73c4a then Some GetLiquidityTokenAddress
  else if n =? 0x4d60beb1 then Some GetSwapTargetAmount else if n =? 0xdbcd19a2 then Some GetSwapSupplyAmount
  else if n =? 0x579baa18 then Some SwapWithExactSupply else if n =? 0x9782ac81 then Some SwapWithExactTarget
  else if n =? 0x67088D59 then Some AddLiquidityAction else if n =? 0x35315332 then Some RemoveLiquidityAction else None.
(** The length of the path and the path after it *)
Definition path_at (input : bytes) (index : Z) : PS (list CurrencyId) :=
  path_len ← reading (u32_at usize_max input index);
  reads (read_path usize_max input (Z.to_nat path_len) (index + 1)).
Definition dex_execute `{!DEXManager} (input : bytes) (caller : EvmAddress) : PS bytes :=
  act ← reading (action usize_max input dex_action);
  match act with
  | GetLiquidityPool =>
      currency_id_a ← reads (currency_id_at usize_max input 1);
      currency_id_b ← reads (currency_id_at usize_max input 2);
      balances ← gets (get_liquidity_pool currency_id_a currency_id_b);
      mret (word balances.1 ++ word balances.2)
  | GetLiquidityTokenAddress =>
      currency_id_a ← reads (currency_id_at usize_max input 1);
      currency_id_b ← reads (currency_id_at usize_max input 2);
      value ← reads (fun s => ook_or (get_liquidity_token_address currency_id_a currency_id_b s)
        (Failed "Dex get_liquidity_token_address failed"));
      mret (address_word value)
  | GetSwapTargetAmount =>
      supply_amount ← reading (balance_at usize_max input 2);
      path ← path_at input 3;
      value ← reads (fun s => ook_or (get_swap_target_amount path supply_amount None s) (Failed "Dex get_swap_target_amount failed"));
      mret (word value)
  | GetSwapSupplyAmount =>
      target_amount ← reading (balance_at usize_max input 2);
      path ← path_at input 3;
      value ← reads (fun s => ook_or (get_swap_supply_amount path target_amount None s) (Failed "Dex get_swap_supply_amount failed"));
      mret (word value)
  | SwapWithExactSupply =>
      who ← reads (account_id_at usize_max input 1);
      supply_amount ← reading (balance_at usize_max input 3);
      min_target_amount ← reading (balance_at usize_max input 4);
      path ← path_at input 5;
      value ← dispatching (dex_swap_with_exact_supply who path supply_amount min_target_amount None);
      mret (word value)
  | SwapWithExactTarget =>
      who ← reads (account_id_at usize_max input 1);
      target_amount ← reading (balance_at usize_max input 3);
      max_supply_amount ← reading (balance_at usize_max input 4);
      path ← path_at input 5;
      value ← dispatching (dex_swap_with_exact_target who path target_amount max_supply_amount None);
      mret (word value)
  | AddLiquidityAction =>
      who ← reads (account_id_at usize_max input 1);
      currency_id_a ← reads (currency_id_at usize_max input 2);
      currency_id_b ← reads (currency_id_at usize_max input 3);
      max_amount_a ← reading (balance_at usize_max input 4);
      max_amount_b ← reading (balance_at usize_max input 5);
      min_share_increment ← reading (balance_at usize_max input 6);
      dispatching (dex_add_liquidity who currency_id_a currency_id_b max_amount_a max_amount_b min_share_increment false);;
      mret []
  | RemoveLiquidityAction =>
      who ← reads (account_id_at usize_max input 1);
      currency_id_a ← reads (currency_id_at usize_max input 2);
      currency_id_b ← reads (currency_id_at usize_max input 3);
      remove_share ← reading (balance_at usize_max input 4);
      min_withdrawn_a ← reading (balance_at usize_max input 5);
      min_withdrawn_b ← reading (balance_at usize_max input 6);
      dispatching (dex_remove_liquidity who currency_id_a currency_id_b remove_share min_withdrawn_a min_withdrawn_b false);;
      mret []
  end.
End Protocol.

(** ** [schedule_call.rs] *)
Record TaskInfo := mkTask { task_prefix : bytes; task_id : Z; task_sender : EvmAddress; task_fee : Balance }.
(** [module_evm::Call::scheduled_call] *)
Record ScheduledCall := mkScheduled {
  sc_from : EvmAddress; sc_target : EvmAddress; sc_input : bytes; sc_value : Balance; sc_gas_limit : Z; sc_storage_limit : Z }.

Class ScheduleConfig := {
  (* the encoding of a task, and the gas a call pays for, as weight *)
  task_encode : TaskInfo -> bytes;
  task_decode : bytes -> option TaskInfo;
  schedule_gas_to_weight : Z -> Weight;
  (* [pallet_scheduler]: named tasks after a delay *)
  Scheduler : Type;
  schedule_named : bytes -> Z -> ScheduledCall -> Scheduler -> option Scheduler;
  cancel_named : bytes -> Scheduler -> option Scheduler;
  reschedule_named : bytes -> Z -> Scheduler -> Scheduler + DispatchError }.

Section Schedule.
Context `{ScheduleConfig} (usize_max : Z) {St : Type} `{AddressMapping St} `{CurrencyIdMapping St} `{TransactionPayment St}.
Record ScheduleState := mkSchedule { EvmSchedulerNextID : Z; sched : Scheduler; sched_chain : St }.
Abbreviation PT := (PE ScheduleState).

Inductive ScheduleAction := Schedule | Cancel | Reschedule.
Definition schedule_action (n : Z) : option ScheduleAction :=
  if n =? 0x64c91905 then Some Schedule else if n =? 0x93e32661 then Some Cancel
  else if n =? 0x28302f34 then Some Reschedule else None.
Definition on_chain {E A} (m : M E St A) : M E ScheduleState A := fun s =>
  match m (sched_chain s) with (r, x) => (r, mkSchedule (EvmSchedulerNextID s) (sched s) x) end.
Definition on_scheduler (f : Scheduler -> option Scheduler) (msg : string) : PT unit := fun s =>
  match f (sched s) with
  | Some x => (Ok tt, mkSchedule (EvmSchedulerNextID s) x (sched_chain s))
  | None => (Err (Failed msg), s)
  end.
Definition rescheduling (f : Scheduler -> Scheduler + DispatchError) : PT unit := fun s =>
  match f (sched s) with
  | inl x => (Ok tt, mkSchedule (EvmSchedulerNextID s) x (sched_chain s))
  | inr e => (Err (Dispatched e), s)
  end.
(** A call whose result is dropped *)
Definition ignoring {E} (m : M E St unit) : PT unit := fun s =>
  match m (sched_chain s) with
  | (Panic, x) => (Panic, mkSchedule (EvmSchedulerNextID s) (sched s) x)
  | (_, x) => (Ok tt, mkSchedule (EvmSchedulerNextID s) (sched s) x)
  end.
Definition SCHEDULE_PREFIX : bytes := string_bytes "ScheduleCall".
(** The id with its length before it, in 96 bytes; [copy_from_slice] panics beyond. *)
Definition task_id_with_len (task_id : bytes) : outcome PrecompileError bytes :=
  if len task_id <=? 64 then Ok (word (len task_id) ++ task_id ++ repeat 0 (64 - length task_id)) else Panic.
Definition own_task (from : EvmAddress) (task_id : bytes) : outcome PrecompileError TaskInfo :=
  task_info ← ook_or (task_decode task_id) (Failed "Decode task_id failed");
  oensure (task_sender task_info =? from)%N (Failed "NoPermission");;
  mret task_info.

Definition schedule_execute (input : bytes) (caller : EvmAddress) : PT bytes :=
  act ← reading (action usize_max input schedule_action);
  match act with
  | Schedule =>
      from ← reading (evm_address_at usize_max input 1);
      target ← reading (evm_address_at usize_max input 2);
      value ← reading (balance_at usize_max input 3);
      gas_limit ← reading (u64_at usize_max input 4);
      storage_limit ← reading (u32_at usize_max input 5);
      min_delay ← reading (u32_at usize_max input 6);
      input_len ← reading (u32_at usize_max input 8);
      input_data ← reading (bytes_at usize_max input 9 input_len);
      from_account ← gets (fun s => get_account_id from (sched_chain s));
      fee ← dispatching (on_chain (tp_reserve_fee from_account (schedule_gas_to_weight gas_limit)));
      let call := mkScheduled from target input_data value gas_limit storage_limit in
      current_id ← gets EvmSchedulerNextID;
      next_id ← reading (ook_or (if current_id + 1 <=? U32_MAX then Some (current_id + 1) else None) (Failed "Scheduler next id overflow"));
      modify (fun s => mkSchedule next_id (sched s) (sched_chain s));;
      let task_id := task_encode (mkTask SCHEDULE_PREFIX current_id from fee) in
      on_scheduler (schedule_named task_id min_delay call) "Schedule failed";;
      reading (task_id_with_len task_id)
  | Cancel =>
      from ← reading (evm_address_at usize_max input 1);
      task_id_len ← reading (u32_at usize_max input 3);
      task_id ← reading (bytes_at usize_max input 4 task_id_len);
      task_info ← reading (own_task from task_id);
      on_scheduler (cancel_named task_id) "Cancel schedule failed";;
      from_account ← gets (fun s => get_account_id from (sched_chain s));
      ignoring (tp_unreserve_fee from_account (task_fee task_info));;
      mret []
  | Reschedule =>
      from ← reading (evm_address_at usize_max input 1);
      min_delay ← reading (u32_at usize_max input 2);
      task_id_len ← reading (u32_at usize_max input 4);
      task_id ← reading (bytes_at usize_max input 5 task_id_len);
      task_info ← reading (own_task from task_id);
      rescheduling (reschedule_named task_id min_delay);;
      mret []
  end.
End Schedule.

(** ** [mod.rs]: who may call which contract *)
Definition PRECOMPILE_ADDRESS_START : Z := 0x400.
Definition is_system_contract (a : EvmAddress) : bool := starts_with (as_bytes a) SYSTEM_CONTRACT_ADDRESS_PREFIX.
Definition is_acala_precompile (a : EvmAddress) : bool :=
  (from_low_u64_be PRECOMPILE_ADDRESS_START <=? a)%N && (a <? from_low_u64_be PREDEPLOY_ADDRESS_START)%N.
Section Dispatch.
Context {St : Type} (evm_precompiles : EvmAddress -> bytes -> EvmAddress -> option (PE St bytes)).
Context (multicurrency nft rent oracle schedule dex : bytes -> EvmAddress -> PE St bytes).
(** [AllPrecompiles::execute]: first the contracts of Ethereum, then those of the chain *)
Definition all_precompiles (is_allowed : EvmAddress -> bool) (a : EvmAddress) (input : bytes) (caller : EvmAddress) : option (PE St bytes) :=
  match evm_precompiles a input caller with
  | Some r => Some r
  | None =>
      if is_acala_precompile a && negb (is_allowed caller) then Some (throw (Failed "no permission"))
      else if (a =? from_low_u64_be PRECOMPILE_ADDRESS_START)%N then Some (multicurrency input caller)
      else if (a =? from_low_u64_be (PRECOMPILE_ADDRESS_START + 1))%N then Some (nft input caller)
      else if (a =? from_low_u64_be (PRECOMPILE_ADDRESS_START + 2))%N then Some (rent input caller)
      else if (a =? from_low_u64_be (PRECOMPILE_ADDRESS_START + 3))%N then Some (oracle input caller)
      else if (a =? from_low_u64_be (PRECOMPILE_ADDRESS_START + 4))%N then Some (schedule input caller)
      else if (a =? from_low_u64_be (PRECOMPILE_ADDRESS_START + 5))%N then Some (dex input caller)
      else None
  end.
End Dispatch.
