(* ===== verification/PrecompileSpecs.v ===== *)
(** * What the precompiled contracts do

    A call encoded as the EVM does is read back parameter by parameter, amounts
    by their low 128 bits; a transfer of a token contract is a transfer of the
    currencies; a price is scaled by the decimals of the currency. *)
From S2P Require Import Prelude FixedPoint Primitives Runtime Support Bytes EvmBridge EvmAccounts EvmManager Currencies Evm TransactionPayment Nft Precompiles.

(** ** Reading what was encoded *)
(** The size, the selector and words, as the machine passes them *)
Definition abi_call (size selector : bytes) (words : list bytes) : bytes := size ++ selector ++ concat words.
Record abi_ok (usize_max : Z) (size selector : bytes) (words : list bytes) : Prop := {
  abi_size : length size = 32%nat;
  abi_selector : length selector = 4%nat;
  abi_words : Forall (fun w => length w = 32%nat) words;
  abi_bytes : Forall (Forall is_u8) words;
  abi_fits : len (abi_call size selector words) <= usize_max }.

Lemma slice_app a b c : slice (a ++ b ++ c) (len a) (len a + len b) = Some b.
Proof.
  unfold slice. rewrite !len_app. unfold len. rewrite (proj2 (andb_true_iff _ _)).
  - f_equal. replace (Z.to_nat _) with (length b) by lia. replace (Z.to_nat _) with (length a) by lia.
    by rewrite drop_app_length, take_app_length.
  - rewrite !Z.leb_le. lia.
Qed.
Lemma len_concat_words words : Forall (fun w => length w = 32%nat) words -> len (concat words) = 32 * Z.of_nat (length words).
Proof. induction 1 as [|w words Hw _ IH]; [done|]. cbn [concat]. rewrite len_app, IH. unfold len. rewrite Hw. cbn [length]. lia. Qed.

Section Reading.
Context (usize_max : Z) (size selector : bytes) (words : list bytes).
Context (Habi : abi_ok usize_max size selector words).
Abbreviation content := (abi_call size selector words).

Lemma nth_param_selector : nth_param usize_max content ACTION_INDEX None = Ok selector.
Proof.
  unfold nth_param. cbn [Z.eqb ACTION_INDEX fst snd]. unfold abi_call.
  pose proof (slice_app size selector (concat words)) as Hs. unfold len in Hs at 1 2 3. rewrite (abi_size _ _ _ _ Habi), (abi_selector _ _ _ _ Habi) in Hs.
  change (INPUT_BYTES_LENGTH + FUNCTION_SELECTOR_LENGTH) with (32 + 4). unfold INPUT_BYTES_LENGTH. unfold len. rewrite !length_app.
  rewrite (abi_size _ _ _ _ Habi), (abi_selector _ _ _ _ Habi). rewrite (proj2 (Z.leb_le _ _)) by lia. cbn [oensure mbind outcome_bind].
  change (Z.of_nat 32) with 32 in Hs. change (Z.of_nat 4) with 4 in Hs. by rewrite Hs.
Qed.
(** The word of a parameter, counted from one *)
Lemma nth_param_word i w : words !! i = Some w -> nth_param usize_max content (Z.of_nat i + 1) None = Ok w.
Proof.
  intros Hi. pose proof Habi as [Hsz Hsel Hws _ Hfit].
  rewrite <- (take_drop_middle words i w Hi) in Hws |- *. apply Forall_app in Hws as [Hpre [Hw Hpost]%Forall_cons].
  assert (Hl : length (take i words) = i) by (apply lookup_lt_Some in Hi; rewrite length_take; lia).
  assert (Heq : abi_call size selector (take i words ++ w :: drop (S i) words) =
    (size ++ selector ++ concat (take i words)) ++ w ++ concat (drop (S i) words)).
  { unfold abi_call. rewrite concat_app. cbn [concat]. by rewrite <- !app_assoc. }
  assert (Hstart : len (size ++ selector ++ concat (take i words)) = 36 + 32 * Z.of_nat i).
  { rewrite !len_app, len_concat_words, Hl by done. unfold len. rewrite Hsz, Hsel. lia. }
  assert (Hw32 : len w = 32) by (unfold len; by rewrite Hw).
  assert (Hlen : 36 + 32 * Z.of_nat i + 32 <= len (abi_call size selector (take i words ++ w :: drop (S i) words))).
  { rewrite Heq, len_app, Hstart, len_app, Hw32. unfold len. lia. }
  rewrite (take_drop_middle words i w Hi) in Hlen.
  unfold nth_param, ACTION_INDEX. rewrite (proj2 (Z.eqb_neq _ _)) by lia. cbn [fst snd default].
  replace (INPUT_BYTES_LENGTH + FUNCTION_SELECTOR_LENGTH + PER_PARAM_BYTES * (Z.of_nat i + 1 - 1)) with (36 + 32 * Z.of_nat i)
    by (unfold INPUT_BYTES_LENGTH, FUNCTION_SELECTOR_LENGTH, PER_PARAM_BYTES; lia).
  unfold usize_add, PER_PARAM_BYTES. rewrite !Z.mod_small by lia.
  rewrite (proj2 (Z.leb_le _ _)) by (by rewrite (take_drop_middle words i w Hi)). cbn [oensure mbind outcome_bind].
  pose proof (slice_app (size ++ selector ++ concat (take i words)) w (concat (drop (S i) words))) as Hs.
  rewrite <- Heq, Hstart, Hw32 in Hs. by rewrite Hs.
Qed.
(** No word, no parameter *)
Lemma nth_param_missing i : (length words <= i)%nat -> 36 + 32 * Z.of_nat i + 32 <= usize_max ->
  nth_param usize_max content (Z.of_nat i + 1) None = Err (Failed "invalid input").
Proof.
  intros Hi Hmax. pose proof Habi as [Hsz Hsel Hws _ Hfit].
  assert (Hlen : len content = 36 + 32 * Z.of_nat (length words)).
  { unfold abi_call. rewrite !len_app, len_concat_words by done. unfold len. rewrite Hsz, Hsel. lia. }
  unfold nth_param, ACTION_INDEX. rewrite (proj2 (Z.eqb_neq _ _)) by lia. cbn [fst snd default].
  replace (INPUT_BYTES_LENGTH + FUNCTION_SELECTOR_LENGTH + PER_PARAM_BYTES * (Z.of_nat i + 1 - 1)) with (36 + 32 * Z.of_nat i)
    by (unfold INPUT_BYTES_LENGTH, FUNCTION_SELECTOR_LENGTH, PER_PARAM_BYTES; lia).
  unfold usize_add, PER_PARAM_BYTES. rewrite !Z.mod_small by lia. by rewrite (proj2 (Z.leb_gt _ _)) by lia.
Qed.

(** The low bytes of a word are its remainder. *)
Lemma low_bytes (k : nat) w : length w = 32%nat -> Forall is_u8 w -> (k <= 32)%nat ->
  from_be_bytes (drop (32 - k) w) = from_be_bytes w mod 256 ^ Z.of_nat k.
Proof.
  intros Hw Hu Hk. rewrite <- (take_drop (32 - k) w) at 2. rewrite from_be_app.
  assert (Hl : len (drop (32 - k) w) = Z.of_nat k) by (unfold len; rewrite length_drop; lia). rewrite Hl.
  rewrite Z.add_comm, Z.mod_add by (apply Z.pow_nonzero; lia). symmetry. apply Z.mod_small. rewrite <- Hl.
  apply from_be_bound. by apply Forall_drop.
Qed.
Lemma word_ok i w : words !! i = Some w -> length w = 32%nat /\ Forall is_u8 w.
Proof. intros Hi. split; [by eapply (Forall_lookup_1 _ _ _ _ (abi_words _ _ _ _ Habi))|by eapply (Forall_lookup_1 _ _ _ _ (abi_bytes _ _ _ _ Habi))]. Qed.

Lemma action_read {A} (try_from : Z -> option A) :
  action usize_max content try_from = ook_or (try_from (from_be_bytes selector)) (Failed "invalid action").
Proof. unfold action. by rewrite nth_param_selector. Qed.
Lemma evm_address_read i w : words !! i = Some w ->
  evm_address_at usize_max content (Z.of_nat i + 1) = Ok (Z.to_N (from_be_bytes w mod 2 ^ 160)).
Proof.
  intros Hi. destruct (word_ok i w Hi). unfold evm_address_at. rewrite (nth_param_word i w Hi). cbn.
  do 2 f_equal. exact (low_bytes 20 w ltac:(done) ltac:(done) ltac:(lia)).
Qed.
Lemma balance_read i w : words !! i = Some w ->
  balance_at usize_max content (Z.of_nat i + 1) = Ok (from_be_bytes w mod 2 ^ 128).
Proof.
  intros Hi. destruct (word_ok i w Hi). unfold balance_at. rewrite (nth_param_word i w Hi). cbn.
  f_equal. exact (low_bytes 16 w ltac:(done) ltac:(done) ltac:(lia)).
Qed.
End Reading.

(** ** Token contracts *)
Section Tokens.
Context (usize_max : Z) {St : Type} `{AddressMapping St} `{CurrencyIdMapping St} `{MultiCurrency St}.
Definition transfer_selector : bytes := [0xbe; 0xab; 0xac; 0xc8].
Definition account_of (w : bytes) (s : St) : AccountId := get_account_id (Z.to_N (from_be_bytes w mod 2 ^ 160)) s.

(** C27: a call of transfer by the contract of a token transfers that currency
    between the accounts of the two addresses and answers with nothing, or fails as
    the transfer fails; the amount is the word modulo 2^128, so what a caller asks
    for beyond is dropped without an error. *)
Theorem token_contract_transfers size w1 w2 w3 rest caller c (s : St)
    (Habi : abi_ok usize_max size transfer_selector (w1 :: w2 :: w3 :: rest))
    (Hcaller : cim_decode_evm_address caller s = Some c) :
  multicurrency_execute usize_max (abi_call size transfer_selector (w1 :: w2 :: w3 :: rest)) caller s =
  match mc_transfer c (account_of w1 s) (account_of w2 s) (from_be_bytes w3 mod 2 ^ 128) s with
  | (Ok _, s') => (Ok [], s')
  | (Err e, s') => (Err (Dispatched e), s')
  | (Panic, s') => (Panic, s')
  end.
Proof.
  unfold multicurrency_execute, reading, reads, account_id_at, mbind, M_bind. rewrite (action_read _ _ _ _ Habi).
  change (currency_action (from_be_bytes transfer_selector)) with (Some TransferCurrency). cbn [ook_or]. rewrite Hcaller. cbn [ook_or].
  rewrite (evm_address_read _ _ _ _ Habi 0 w1 eq_refl : evm_address_at usize_max _ 1 = _).
  rewrite (evm_address_read _ _ _ _ Habi 1 w2 eq_refl : evm_address_at usize_max _ 2 = _).
  rewrite (balance_read _ _ _ _ Habi 2 w3 eq_refl : balance_at usize_max _ 3 = _).
  cbn [mbind outcome_bind mret outcome_ret]. unfold dispatching, account_of.
  by destruct (mc_transfer _ _ _ _ s) as [[u|e|] s'].
Qed.
End Tokens.

(** ** Prices *)
Section Prices.
Context `{Config, !PriceProvider} (usize_max : Z) `{AddressMapping State} `{CurrencyIdMapping State}.
Definition price_selector : bytes := [0x41; 0x97; 0x6e; 0x09].

Lemma adjustment_small d : 0 <= d <= 18 -> adjustment d = Some (10 ^ (18 - d)).
Proof.
  intros Hd. unfold adjustment, U128.checked_pow. rewrite Z.mod_small by lia. rewrite (proj2 (Z.leb_le _ _)); [done|].
  transitivity (10 ^ 18); [apply Z.pow_le_mono_r; lia|done].
Qed.
(** Below 2^8, the difference wraps to at least 39. *)
Lemma adjustment_large d : 18 < d <= 235 -> adjustment d = None.
Proof.
  intros Hd. unfold adjustment, U128.checked_pow.
  replace ((18 - d) mod 256) with (274 - d) by (apply (Z.mod_unique _ _ (-1)); lia).
  rewrite (proj2 (Z.leb_gt _ _)); [done|]. apply Z.lt_le_trans with (10 ^ 39); [done|]. apply Z.pow_le_mono_r; lia.
Qed.

(** C34: the price of a currency is answered in units of its decimals, zero when it
    has no price or no decimals; but more than 18 decimals wrap around, and up to
    235 of them the contract divides by the zero it meant to answer. *)
Theorem oracle_scales_price size w rest caller c (s : State)
    (Habi : abi_ok usize_max size price_selector (w :: rest))
    (Hcurrency : cim_decode_evm_address (Z.to_N (from_be_bytes w mod 2 ^ 160)) s = Some c) :
  match cim_decimals c s with
  | None => oracle_execute usize_max (abi_call size price_selector (w :: rest)) caller s = (Ok (word 0), s)
  | Some d =>
      (0 <= d <= 18 -> oracle_execute usize_max (abi_call size price_selector (w :: rest)) caller s =
         (Ok (word (default 0 (get_price c s) / 10 ^ (18 - d))), s)) /\
      (18 < d <= 235 -> oracle_execute usize_max (abi_call size price_selector (w :: rest)) caller s = (Panic, s))
  end.
Proof.
  assert (Hrun : oracle_execute usize_max (abi_call size price_selector (w :: rest)) caller s =
    let '(price, decimals) := match cim_decimals c s with Some decimals => (default 0 (get_price c s), decimals) | None => (0, 0) end in
    let '(price, adjustment_multiplier) := match adjustment decimals with Some k => (price, k) | None => (0, 0) end in
    (vec_u8_from_price price adjustment_multiplier, s)).
  { unfold oracle_execute, reading, reads, gets, currency_id_at, mbind, M_bind. rewrite (action_read _ _ _ _ Habi).
    change (oracle_action (from_be_bytes price_selector)) with (Some GetPrice). cbn [ook_or].
    rewrite (evm_address_read _ _ _ _ Habi 0 w eq_refl : evm_address_at usize_max _ 1 = _).
    cbn [mbind outcome_bind]. rewrite Hcurrency. cbn [ook_or].
    destruct (match cim_decimals c s with Some _ => _ | None => _ end) as [p d]. by destruct (match adjustment d with Some _ => _ | None => _ end). }
  rewrite Hrun. clear Hrun. destruct (cim_decimals c s) as [d|].
  - split; intros Hd.
    + rewrite adjustment_small by done. unfold vec_u8_from_price. rewrite (proj2 (Z.eqb_neq _ _)); [done|].
      apply Z.pow_nonzero; lia.
    + by rewrite adjustment_large.
  - by vm_compute.
Qed.
End Prices.

(** ** Names, tasks and callers *)
(** The EVM manager cuts names to what fits a word, so reading one never aborts. *)
Lemma truncate_fits bs : exists w, vec_u8_from_str (truncate bs) = Ok w.
Proof.
  unfold vec_u8_from_str, truncate. destruct (32 <? len bs) eqn:Hb.
  - rewrite (proj2 (Z.leb_le _ _)); [by eexists|]. unfold len. rewrite length_take. lia.
  - apply Z.ltb_ge in Hb. rewrite (proj2 (Z.leb_le _ _)) by done. by eexists.
Qed.
Theorem manager_names_fit {Chain} (s : ManagerSt Chain) c name : cim_name c s = Some name ->
  exists w, vec_u8_from_str name = Ok w.
Proof. cbn. unfold mapping_name. intros (n & _ & ->)%fmap_Some. apply truncate_fits. Qed.

(** Who does not own a task neither cancels nor delays it. *)
Theorem only_sender_owns_task `{ScheduleConfig} from task_id t : task_decode task_id = Some t -> task_sender t <> from ->
  own_task from task_id = Err (Failed "NoPermission").
Proof. unfold own_task. intros -> Hne. cbn. by rewrite (proj2 (N.eqb_neq _ _)). Qed.

(** Only system contracts reach the contracts of the chain. *)
Theorem others_are_refused {Chain} evm_precompiles multicurrency nft rent oracle schedule dex a input caller (s : Chain) :
  evm_precompiles a input caller = None -> is_acala_precompile a = true -> is_system_contract caller = false ->
  (fun m => m s) <$> all_precompiles evm_precompiles multicurrency nft rent oracle schedule dex is_system_contract a input caller =
  Some (Err (Failed "no permission"), s).
Proof. unfold all_precompiles. intros -> -> ->. done. Qed.
