(* ===== verification/PrecompileSample.v ===== *)
(** * Calls of the precompiled contracts

    A transfer by a token contract through the currencies pallet of
    [CurrenciesSample.v], and prices of currencies of 12 and of 20 decimals. *)
From S2P Require Import Prelude FixedPoint Primitives Runtime Sample Support Bytes EvmBridge EvmAccounts EvmAccountsSample EvmManager Currencies CurrenciesSample Evm TransactionPayment Nft Precompiles PrecompileSpecs.

Module PrecompileCalls.
(** ** A token contract *)
#[local] Existing Instance CurrenciesSample.chain.
#[local] Existing Instance sample_currencies.
#[local] Instance all_currencies : MultiCurrency St := currencies.
(** The mapping of the EVM manager, without contracts *)
#[local] Instance known_names : CurrencyIdMapping St := {
  cim_name c _ := mapping_name ∅ c; cim_symbol c _ := mapping_symbol ∅ c; cim_decimals c _ := mapping_decimals ∅ c;
  cim_decode_evm_address a _ := decode_evm_address ∅ a }.
Definition size_word : bytes := repeat 0 32.
Definition aca_contract : EvmAddress := from_low_u64_be 0x1000000.
Definition holding : St := put_ledger (l_put (mkLedger ∅ ∅) (Token ACA) 1%N 100) bound.
Definition transfer_words : list bytes := [address_word address_1; address_word address_2; word 30].
Definition call_transfer : outcome PrecompileError bytes * St :=
  multicurrency_execute U32_MAX (abi_call size_word transfer_selector transfer_words) aca_contract holding.
(** The amount is 2^128 too large. *)
Definition call_excess : outcome PrecompileError bytes * St :=
  multicurrency_execute U32_MAX (abi_call size_word transfer_selector [address_word address_1; address_word address_2; word (2 ^ 128 + 30)])
    aca_contract holding.
Lemma words_ok size selector words : length size = 32%nat -> length selector = 4%nat -> forallb (fun w => length w =? 32)%nat words = true ->
  forallb (fun w => forallb (fun b => (0 <=? b) && (b <? 256)) w) words = true ->
  (len (abi_call size selector words) <=? U32_MAX) = true -> abi_ok U32_MAX size selector words.
Proof.
  intros Hs Hl Hw Hb Hf. constructor; [done|done|..|by apply Z.leb_le].
  - apply Forall_forall. intros w Hi%list_elem_of_In. rewrite List.forallb_forall in Hw. by apply Nat.eqb_eq, Hw.
  - apply Forall_forall. intros w Hi%list_elem_of_In. apply Forall_forall. intros b Hbi%list_elem_of_In.
    rewrite List.forallb_forall in Hb. specialize (Hb w Hi). rewrite List.forallb_forall in Hb.
    specialize (Hb b Hbi). apply andb_true_iff in Hb as [H1%Z.leb_le H2%Z.ltb_lt]. done.
Qed.

Lemma token_contract_transfers_witness :
  (call_transfer.1 = Ok [] /\ l_balance (ledger_of call_transfer.2) (Token ACA) 1%N = 70 /\
   call_excess.1 = Ok [] /\ l_balance (ledger_of call_excess.2) (Token ACA) 1%N = 70) /\
  call_transfer =
  match mc_transfer (Token ACA) (account_of (address_word address_1) holding) (account_of (address_word address_2) holding)
      (from_be_bytes (word 30) mod 2 ^ 128) holding with
  | (Ok _, s') => (Ok [], s')
  | (Err e, s') => (Err (Dispatched e), s')
  | (Panic, s') => (Panic, s')
  end.
Proof.
  split; [split_and!; by vm_compute|].
  refine (token_contract_transfers U32_MAX size_word (address_word address_1) (address_word address_2) (word 30) []
    aca_contract (Token ACA) holding _ _).
  - apply words_ok; by vm_compute.
  - by vm_compute.
Defined.

(** ** Prices *)
#[local] Existing Instance sample.
#[local] Instance five : PriceProvider := {
  get_relative_price _ _ _ := None; get_price _ _ := Some (5 * DIV); lock_price _ := mret tt; unlock_price _ := mret tt }.
#[local] Instance plain_addresses : AddressMapping State := {
  get_account_id a _ := a; get_evm_address a _ := Some a; get_or_create_evm_address a s := (a, s);
  get_default_evm_address a := a; is_linked a b _ := (a =? b)%N }.
(** Address 7 is a contract of 20 decimals, the others of 12. *)
#[local] Instance two_contracts : CurrencyIdMapping State := {
  cim_name _ _ := None; cim_symbol _ _ := None;
  cim_decimals c _ := Some (if decide (c = Erc20 7%N) then 20 else 12);
  cim_decode_evm_address a _ := Some (Erc20 a) }.
Definition ask (a : Z) : bytes := abi_call size_word price_selector [word a].
Definition quiet : State := sample_state [] (fun _ => None).
Lemma oracle_scales_price_witness :
  oracle_execute U32_MAX (ask 6) 0%N quiet = (Ok (word (5 * DIV / 10 ^ 6)), quiet) /\
  oracle_execute U32_MAX (ask 7) 0%N quiet = (Panic, quiet).
Proof.
  split.
  - refine (proj1 (oracle_scales_price U32_MAX size_word (word 6) [] 0%N (Erc20 6%N) quiet _ _) _); [|by vm_compute|done].
    apply words_ok; by vm_compute.
  - refine (proj2 (oracle_scales_price U32_MAX size_word (word 7) [] 0%N (Erc20 7%N) quiet _ _) _); [|by vm_compute|done].
    apply words_ok; by vm_compute.
Defined.
End PrecompileCalls.
