(* ===== verification/EthPrecompiles.v ===== *)
(** * The precompiled contracts of Ethereum

    [modules/evm/src/precompiles.rs]: what an input costs, and what is answered;
    the hash functions and the recovery of a key are parameters. *)
From S2P Require Import Prelude Primitives Runtime Bytes EvmManager.

(** [ExitError], as far as it is made here *)
Inductive EthError := OutOfGas | OtherError (msg : string).
(** The output and the gas it used; the reason is [Returned]. *)
Abbreviation EthResult := (outcome EthError (bytes * Z)).

Class EthCrypto := {
  eth_recover : bytes -> bytes -> option bytes;
  eth_keccak_256 : bytes -> bytes;
  sha2_256 : bytes -> bytes;
  ripemd160 : bytes -> bytes;
  sha3_256 : bytes -> bytes;
  sha3_512 : bytes -> bytes }.

Section Contracts.
Context `{EthCrypto} (usize_max : Z).

(** [len.saturating_add(31) / 32], and checked multiplication and addition *)
Definition ensure_linear_cost (target_gas : option Z) (length base word_cost : Z) : outcome EthError Z :=
  product ← ook_or (let x := word_cost * (Z.min (length + 31) usize_max / 32) in if x <=? usize_max then Some x else None) OutOfGas;
  cost ← ook_or (let x := base + product in if x <=? usize_max then Some x else None) OutOfGas;
  match target_gas with
  | Some target_gas => oensure (cost <=? target_gas) OutOfGas
  | None => mret tt
  end;;
  mret cost.

(** [copy_from_slice] into a buffer of zeros *)
Definition padded (n : nat) (i : bytes) : bytes := take n i ++ repeat 0 (n - length i).
(** The message and the signature of a call of a recovery *)
Definition recovery_input (i : bytes) : bytes * bytes :=
  let input := padded 128 i in
  (take 32 input, take 32 (drop 64 input) ++ take 32 (drop 96 input) ++ take 1 (drop 63 input)).

Definition identity (input : bytes) (target_gas : option Z) : EthResult :=
  cost ← ensure_linear_cost target_gas (len input) 15 3;
  mret (input, cost).
Definition ec_recover_public_key (i : bytes) (target_gas : option Z) : EthResult :=
  cost ← ensure_linear_cost target_gas (len i) 3000 0;
  let '(msg, sig) := recovery_input i in
  pubkey ← ook_or (eth_recover sig msg) (OtherError "Public key recover failed");
  mret (pubkey, cost).
Definition ec_recover (i : bytes) (target_gas : option Z) : EthResult :=
  cost ← ensure_linear_cost target_gas (len i) 3000 0;
  let '(msg, sig) := recovery_input i in
  pubkey ← ook_or (eth_recover sig msg) (OtherError "Public key recover failed");
  mret (repeat 0 12 ++ drop 12 (eth_keccak_256 pubkey), cost).
Definition ripemd (input : bytes) (target_gas : option Z) : EthResult :=
  cost ← ensure_linear_cost target_gas (len input) 600 120;
  mret (repeat 0 12 ++ ripemd160 input, cost).
Definition sha256 (input : bytes) (target_gas : option Z) : EthResult :=
  cost ← ensure_linear_cost target_gas (len input) 60 12;
  mret (sha2_256 input, cost).
Definition sha3_fips_256 (input : bytes) (target_gas : option Z) : EthResult :=
  cost ← ensure_linear_cost target_gas (len input) 60 12;
  mret (sha3_256 input, cost).
Definition sha3_fips_512 (input : bytes) (target_gas : option Z) : EthResult :=
  cost ← ensure_linear_cost target_gas (len input) 60 12;
  mret (sha3_512 input, cost).

(** [EvmPrecompiles::execute] *)
Definition evm_precompiles_execute (address : EvmAddress) (input : bytes) (target_gas : option Z) : option EthResult :=
  if (address =? from_low_u64_be 1)%N then Some (ec_recover input target_gas)
  else if (address =? from_low_u64_be 2)%N then Some (sha256 input target_gas)
  else if (address =? from_low_u64_be 3)%N then Some (ripemd input target_gas)
  else if (address =? from_low_u64_be 4)%N then Some (identity input target_gas)
  else if (address =? from_low_u64_be 128)%N then Some (ec_recover_public_key input target_gas)
  else if (address =? from_low_u64_be 129)%N then Some (sha3_fips_256 input target_gas)
  else if (address =? from_low_u64_be 130)%N then Some (sha3_fips_512 input target_gas)
  else None.

(** ** Costs *)
(** The cost grows by words begun, and is paid or refused exactly. *)
Theorem linear_cost_exact target_gas n base word_cost :
  0 <= n -> 0 <= base -> 0 <= word_cost -> n + 31 <= usize_max -> base + word_cost * ((n + 31) / 32) <= usize_max ->
  ensure_linear_cost target_gas n base word_cost =
  if default (usize_max + 1) target_gas <? base + word_cost * ((n + 31) / 32) then Err OutOfGas
  else Ok (base + word_cost * ((n + 31) / 32)).
Proof.
  intros Hn Hb Hw Hmax Hfit. unfold ensure_linear_cost. rewrite Z.min_l by done.
  assert (0 <= word_cost * ((n + 31) / 32)) by (apply Z.mul_nonneg_nonneg; [done|apply Z.div_pos; lia]).
  rewrite (proj2 (Z.leb_le _ _)) by lia. cbn [ook_or mbind outcome_bind]. rewrite (proj2 (Z.leb_le _ _)) by lia.
  cbn [ook_or mbind outcome_bind]. destruct target_gas as [g|]; cbn [default].
  - unfold oensure. cbn.
    destruct (Z.leb_spec (base + word_cost * ((n + 31) / 32)) g), (Z.ltb_spec g (base + word_cost * ((n + 31) / 32))); cbn; first [done|lia].
  - by rewrite (proj2 (Z.ltb_ge _ _)) by lia.
Qed.

(** A message, the recovery id as a word and the two halves of a signature are
    read back, whatever follows; only the lowest byte of the word is looked at. *)
Theorem recovery_input_read msg high v r s rest : length msg = 32%nat -> length high = 31%nat -> length r = 32%nat ->
  length s = 32%nat -> recovery_input (msg ++ (high ++ [v]) ++ r ++ s ++ rest) = (msg, r ++ s ++ [v]).
Proof.
  intros Hm Hh Hr Hs. unfold recovery_input, padded.
  assert (Hp : take 128 (msg ++ (high ++ [v]) ++ r ++ s ++ rest) = msg ++ (high ++ [v]) ++ r ++ s).
  { replace (msg ++ (high ++ [v]) ++ r ++ s ++ rest) with ((msg ++ (high ++ [v]) ++ r ++ s) ++ rest) by (by rewrite <- !app_assoc).
    rewrite take_app_le by (rewrite !length_app, Hm, Hh, Hr, Hs; done). apply take_ge. rewrite !length_app, Hm, Hh, Hr, Hs. done. }
  rewrite Hp. replace (128 - _)%nat with 0%nat by (rewrite !length_app, Hm, Hh, Hr, Hs; cbn; lia). cbn [repeat]. rewrite app_nil_r.
  f_equal; [by rewrite take_app_le, take_ge by lia|].
  rewrite (drop_app_ge msg _ 64), (drop_app_ge msg _ 96), (drop_app_ge msg _ 63) by lia. rewrite Hm. cbn [Nat.sub].
  rewrite (drop_app_ge (high ++ [v]) _ 32), (drop_app_ge (high ++ [v]) _ 64) by (rewrite length_app, Hh; cbn; lia).
  rewrite length_app, Hh. cbn [length Nat.add Nat.sub]. rewrite drop_0, (drop_app_ge r) by lia. rewrite Hr. cbn [Nat.sub]. rewrite drop_0.
  rewrite <- (app_assoc high), (drop_app_ge high) by lia. rewrite Hh. cbn [Nat.sub]. rewrite drop_0.
  rewrite (take_app_le r) by lia. rewrite !take_ge by lia. done.
Qed.
End Contracts.
