(* ===== verification/Airdrop.v ===== *)
(** * Airdrops

    [modules/airdrop/src/lib.rs]: amounts kept for accounts by the root. *)
From S2P Require Import Prelude Primitives Runtime.

Inductive AirDropCurrencyId := AirKAR | AirACA.
#[export] Instance AirDropCurrencyId_eq_dec : EqDecision AirDropCurrencyId.
Proof. solve_decision. Defined.
#[export] Instance AirDropCurrencyId_countable : Countable AirDropCurrencyId.
Proof.
  apply (inj_countable' (fun c => match c with AirACA => true | AirKAR => false end) (fun b => if b : bool then AirACA else AirKAR)).
  by intros [].
Defined.

Inductive AirdropEvent :=
  | Airdropped (to : AccountId) (c : AirDropCurrencyId) (amount : Balance)
  | UpdatedAirdrop (to : AccountId) (c : AirDropCurrencyId) (amount : Balance).
Record AirdropState := mkAirdrop {
  AirDrops : gmap (AccountId * AirDropCurrencyId) Balance;
  air_events : list AirdropEvent }.

Section Airdrop.
Context {LookupSource : Type} (lookup : LookupSource -> option AccountId).
Abbreviation MA := (M DispatchError AirdropState).

Definition airdrops (to : AccountId) (c : AirDropCurrencyId) (s : AirdropState) : Balance := default 0 (AirDrops s !! (to, c)).
Definition put_airdrop (to : AccountId) (c : AirDropCurrencyId) (n : Balance) (s : AirdropState) : AirdropState :=
  mkAirdrop (<[(to, c) := n]> (AirDrops s)) (air_events s).
Definition airdrop_event (e : AirdropEvent) : MA unit := modify (fun s => mkAirdrop (AirDrops s) (air_events s ++ [e])).
Definition ensure_root (o : Origin) : MA unit := match o with Root => mret tt | _ => throw BadOrigin end.

(** [*balance += amount] wraps in the runtime. *)
Definition airdrop (origin : Origin) (to : LookupSource) (c : AirDropCurrencyId) (amount : Balance) : MA unit := transactional (
  ensure_root origin;;
  to ← ok_or (lookup to) CannotLookup;
  modify (fun s => put_airdrop to c (u128_wrapping_add (airdrops to c s) amount) s);;
  airdrop_event (Airdropped to c amount)).
Definition update_airdrop (origin : Origin) (to : LookupSource) (c : AirDropCurrencyId) (amount : Balance) : MA unit := transactional (
  ensure_root origin;;
  to ← ok_or (lookup to) CannotLookup;
  modify (put_airdrop to c amount);;
  airdrop_event (UpdatedAirdrop to c amount)).
Definition airdrop_genesis (accounts : list (AccountId * AirDropCurrencyId * Balance)) (s : AirdropState) : AirdropState :=
  foldl (fun s x => put_airdrop x.1.1 x.1.2 (u128_wrapping_add (airdrops x.1.1 x.1.2 s) x.2) s) s accounts.

(** ** What is kept is what the events tell *)
Definition told (to : AccountId) (c : AirDropCurrencyId) (n : Balance) (e : AirdropEvent) : Balance :=
  match e with
  | Airdropped to' c' k => if decide ((to', c') = (to, c)) then u128_wrapping_add n k else n
  | UpdatedAirdrop to' c' k => if decide ((to', c') = (to, c)) then k else n
  end.
Definition tells_true (s : AirdropState) : Prop := forall to c, airdrops to c s = foldl (told to c) 0 (air_events s).
Lemma airdrops_put to c n s to' c' : airdrops to' c' (put_airdrop to c n s) = if decide ((to, c) = (to', c')) then n else airdrops to' c' s.
Proof.
  unfold airdrops, put_airdrop. cbn. case_decide as Heq; [rewrite Heq, lookup_insert_eq|rewrite lookup_insert_ne]; done.
Qed.
Theorem airdrops_are_told o to c n s (update : bool) : tells_true s ->
  wp (if update then update_airdrop o to c n else airdrop o to c n) (fun _ s' => o = Root /\ tells_true s') (fun _ s' => s' = s) s.
Proof.
  intros Hs. destruct update; apply wp_transactional; (destruct o; [|done|done]); apply wp_bind, wp_ret, wp_bind, wp_ok_or;
    (split; [intros who _|done]); apply wp_bind, wp_modify, wp_modify; (split; [done|]); intros to' c'; cbn [air_events];
    rewrite foldl_app; cbn [foldl told].
  - change (airdrops to' c' (put_airdrop who c n s) = if decide ((who, c) = (to', c')) then n else foldl (told to' c') 0 (air_events s)).
    by rewrite airdrops_put, Hs.
  - change (airdrops to' c' (put_airdrop who c (u128_wrapping_add (airdrops who c s) n) s) =
      if decide ((who, c) = (to', c')) then u128_wrapping_add (foldl (told to' c') 0 (air_events s)) n else foldl (told to' c') 0 (air_events s)).
    rewrite airdrops_put. case_decide as Heq; [injection Heq as <- <-|]; by rewrite Hs.
Qed.
End Airdrop.
