(* ===== verification/Governance.v ===== *)
(** * Who may do what

    [runtime/mandala/src/authority.rs] (the same file in Acala, a variant in
    Karura) and the origins of the [lib.rs] of the runtimes: proportions of the
    councils, the schedule of the authority pallet, democracy, the treasury.  The
    collective, the authority and the system pallets are external crates: what
    their origins are, and how they test them, is an interface with laws. *)
From S2P Require Import Prelude Primitives Runtime.

Inductive Council := GeneralCouncil | FinancialCouncil | HomaCouncil | TechnicalCommittee.
#[export] Instance Council_eq_dec : EqDecision Council.
Proof. solve_decision. Defined.
(** [AuthoritysOriginId] *)
Inductive AuthoritysOriginId :=
  | IdRoot | IdTreasury | IdHonzonTreasury | IdHomaTreasury | IdTreasuryReserve.
#[export] Instance AuthoritysOriginId_eq_dec : EqDecision AuthoritysOriginId.
Proof. solve_decision. Defined.

#[export] Instance Origin_eq_dec : EqDecision Origin.
Proof. solve_decision. Defined.

(** ** The origins of the external pallets *)
(** An origin has a caller; it may be one of the system, the approval of a
    council by some of its seats, or an origin that has waited. *)
Class OriginKit (O C : Type) := {
  kit_eq :: EqDecision C;
  caller : O -> C;
  raw : O -> option Origin;
  system_caller : Origin -> C;
  approval : Council -> O -> option (Z * Z);
  waited : O -> option (Z * O);
  EnsureRoot : O -> bool;
  EnsureOneOf : (O -> bool) -> (O -> bool) -> O -> bool;
  EnsureProportionMoreThan : Z -> Z -> Council -> O -> bool;
  EnsureDelayed : Z -> (O -> bool) -> O -> bool }.
(** What the documentation of these pallets says of the tests, and that an
    approval has at most as many ayes as there are seats. *)
Class OriginLaws (O C : Type) `{OriginKit O C} : Prop := {
  root_law o : EnsureRoot o = bool_decide (raw o = Some Root);
  one_of_law l r o : EnsureOneOf l r o = l o || r o;
  proportion_law n d c o : EnsureProportionMoreThan n d c o =
    match approval c o with Some (ayes, seats) => bool_decide (n * seats < ayes * d) | None => false end;
  delayed_law k inner o : EnsureDelayed k inner o =
    match waited o with Some (d, o') => bool_decide (k <= d) && inner o' | None => false end;
  approval_law c o ayes seats : approval c o = Some (ayes, seats) -> 0 <= ayes <= seats }.

Section Governance.
Context {O C : Type} `{OriginKit O C}.

(** ** The origins of the runtimes *)
Definition EnsureRootOrAllGeneralCouncil : O -> bool := EnsureOneOf EnsureRoot (EnsureProportionMoreThan 1 1 GeneralCouncil).
Definition EnsureRootOrHalfGeneralCouncil : O -> bool := EnsureOneOf EnsureRoot (EnsureProportionMoreThan 1 2 GeneralCouncil).
Definition EnsureRootOrHalfFinancialCouncil : O -> bool := EnsureOneOf EnsureRoot (EnsureProportionMoreThan 1 2 FinancialCouncil).
Definition EnsureRootOrHalfHomaCouncil : O -> bool := EnsureOneOf EnsureRoot (EnsureProportionMoreThan 1 2 HomaCouncil).
Definition EnsureRootOrTwoThirdsGeneralCouncil : O -> bool := EnsureOneOf EnsureRoot (EnsureProportionMoreThan 2 3 GeneralCouncil).
Definition EnsureRootOrThreeFourthsGeneralCouncil : O -> bool := EnsureOneOf EnsureRoot (EnsureProportionMoreThan 3 4 GeneralCouncil).
Definition EnsureRootOrAllTechnicalCommittee : O -> bool := EnsureOneOf EnsureRoot (EnsureProportionMoreThan 1 1 TechnicalCommittee).
Definition EnsureRootOrOneThirdsTechnicalCommittee : O -> bool := EnsureOneOf EnsureRoot (EnsureProportionMoreThan 1 3 TechnicalCommittee).
Definition EnsureRootOrTwoThirdsTechnicalCommittee : O -> bool := EnsureOneOf EnsureRoot (EnsureProportionMoreThan 2 3 TechnicalCommittee).

(** [pallet_democracy::Config]: who moves a referendum along *)
Record DemocracyOrigins := mkDemocracy {
  ExternalOrigin : O -> bool; ExternalMajorityOrigin : O -> bool; ExternalDefaultOrigin : O -> bool;
  FastTrackOrigin : O -> bool; InstantOrigin : O -> bool; CancellationOrigin : O -> bool;
  BlacklistOrigin : O -> bool; CancelProposalOrigin : O -> bool }.
Definition democracy : DemocracyOrigins := {|
  ExternalOrigin := EnsureRootOrHalfGeneralCouncil;
  ExternalMajorityOrigin := EnsureRootOrHalfGeneralCouncil;
  ExternalDefaultOrigin := EnsureRootOrAllGeneralCouncil;
  FastTrackOrigin := EnsureRootOrTwoThirdsTechnicalCommittee;
  InstantOrigin := EnsureRootOrAllTechnicalCommittee;
  CancellationOrigin := EnsureRootOrTwoThirdsGeneralCouncil;
  BlacklistOrigin := EnsureRoot;
  CancelProposalOrigin := EnsureRootOrAllTechnicalCommittee |}.

(** ** [AuthorityConfigImpl] *)
(** [time]: blocks of [SECS_PER_BLOCK] seconds, 6 in Mandala and Acala, 12 in Karura *)
Context (SECS_PER_BLOCK : Z).
Definition MINUTES : BlockNumber := 60 / SECS_PER_BLOCK.
Definition HOURS : BlockNumber := MINUTES * 60.
Definition DAYS : BlockNumber := HOURS * 24.
Definition SevenDays : BlockNumber := 7 * DAYS.
Definition ZeroDay : BlockNumber := 0.
Definition OneDay : BlockNumber := DAYS.

Abbreviation DispatchResult := (outcome DispatchError unit).
Definition ensure_origin_of (allowed : O -> bool) (origin : O) : DispatchResult := oensure (allowed origin) BadOrigin.

Definition check_schedule_dispatch (origin : O) (_priority : Z) : DispatchResult :=
  if EnsureRoot origin then Ok tt
  else if EnsureRootOrHalfGeneralCouncil origin then Ok tt
  else if EnsureRootOrHalfFinancialCouncil origin then Ok tt
  else if EnsureRootOrHalfHomaCouncil origin then Ok tt
  else Err BadOrigin.
Definition check_fast_track_schedule (origin : O) (_initial_origin : C) (new_delay : BlockNumber) : DispatchResult :=
  if EnsureRoot origin then Ok tt
  else if new_delay / HOURS <? 12 then ensure_origin_of EnsureRootOrTwoThirdsTechnicalCommittee origin
  else ensure_origin_of EnsureRootOrOneThirdsTechnicalCommittee origin.
Definition check_delay_schedule (origin : O) (_initial_origin : C) : DispatchResult :=
  if EnsureRoot origin then Ok tt else ensure_origin_of EnsureRootOrOneThirdsTechnicalCommittee origin.
Definition check_cancel_schedule (origin : O) (initial_origin : C) : DispatchResult :=
  if EnsureRoot origin then Ok tt
  else if bool_decide (caller origin = initial_origin) || EnsureRootOrThreeFourthsGeneralCouncil origin then Ok tt
  else Err BadOrigin.

(** ** [AsOriginId] *)
Context (TreasuryAccount HonzonTreasuryAccount HomaTreasuryAccount TreasuryReserveAccount : AccountId).
Definition into_origin (id : AuthoritysOriginId) : C :=
  match id with
  | IdRoot => system_caller Root
  | IdTreasury => system_caller (Signed TreasuryAccount)
  | IdHonzonTreasury => system_caller (Signed HonzonTreasuryAccount)
  | IdHomaTreasury => system_caller (Signed HomaTreasuryAccount)
  | IdTreasuryReserve => system_caller (Signed TreasuryReserveAccount)
  end.
Definition check_dispatch_from (id : AuthoritysOriginId) (origin : O) : DispatchResult :=
  if EnsureRoot origin then Ok tt else
  match id with
  | IdRoot => ensure_origin_of (EnsureDelayed SevenDays EnsureRootOrThreeFourthsGeneralCouncil) origin
  | IdTreasury => ensure_origin_of (EnsureDelayed OneDay EnsureRootOrHalfGeneralCouncil) origin
  | IdHonzonTreasury => ensure_origin_of (EnsureDelayed OneDay EnsureRootOrHalfFinancialCouncil) origin
  | IdHomaTreasury => ensure_origin_of (EnsureDelayed OneDay EnsureRootOrHalfHomaCouncil) origin
  | IdTreasuryReserve => ensure_origin_of (EnsureDelayed ZeroDay EnsureRoot) origin
  end.
(** Karura keeps the reserve for the root. *)
Definition karura_check_dispatch_from (id : AuthoritysOriginId) (origin : O) : DispatchResult :=
  if EnsureRoot origin then Ok tt else
  match id with
  | IdRoot => ensure_origin_of (EnsureDelayed SevenDays EnsureRootOrThreeFourthsGeneralCouncil) origin
  | IdTreasury => ensure_origin_of (EnsureDelayed OneDay EnsureRootOrHalfGeneralCouncil) origin
  | IdHonzonTreasury => ensure_origin_of (EnsureDelayed OneDay EnsureRootOrHalfFinancialCouncil) origin
  | IdHomaTreasury => ensure_origin_of (EnsureDelayed OneDay EnsureRootOrHalfHomaCouncil) origin
  | IdTreasuryReserve => Err BadOrigin
  end.

(** [EnsureRootOrTreasury], who may make a vested transfer, and as whom; an
    origin of another pallet is no [RawOrigin] and is given back *)
Definition EnsureRootOrTreasury (o : O) : option AccountId :=
  match raw o with
  | Some Root => Some TreasuryAccount
  | Some (Signed who) => if bool_decide (who = TreasuryAccount) then Some who else None
  | _ => None
  end.
(** [EnsureKaruraFoundation], its place in Karura, which the root does not pass *)
Definition EnsureKaruraFoundation (KaruraFoundationAccounts : list AccountId) (o : O) : option AccountId :=
  match raw o with
  | Some (Signed who) => if bool_decide (who ∈ KaruraFoundationAccounts) then Some who else None
  | _ => None
  end.

(** ** The rule of each authority *)
(** The share of a council, of which more is needed *)
Record Share := mkShare { share_of : Council; numerator : Z; denominator : Z }.
Definition root_or (share : option Share) (o : O) : Prop :=
  raw o = Some Root \/
  exists sh ayes seats, share = Some sh /\ approval (share_of sh) o = Some (ayes, seats) /\ numerator sh * seats < ayes * denominator sh.
(** The rule of an authority: how long the origin must have waited, and whose
    approval it must have been *)
Definition rule (id : AuthoritysOriginId) : BlockNumber * option Share :=
  match id with
  | IdRoot => (SevenDays, Some (mkShare GeneralCouncil 3 4))
  | IdTreasury => (OneDay, Some (mkShare GeneralCouncil 1 2))
  | IdHonzonTreasury => (OneDay, Some (mkShare FinancialCouncil 1 2))
  | IdHomaTreasury => (OneDay, Some (mkShare HomaCouncil 1 2))
  | IdTreasuryReserve => (ZeroDay, None)
  end.
Definition may_dispatch (id : AuthoritysOriginId) (o : O) : Prop :=
  raw o = Some Root \/ exists d o', waited o = Some (d, o') /\ (rule id).1 <= d /\ root_or (rule id).2 o'.

(** ** Every test decides its rule *)
Context `{!OriginLaws O C}.
Lemma ensure_root_or n d c o : EnsureOneOf EnsureRoot (EnsureProportionMoreThan n d c) o = true <-> root_or (Some (mkShare c n d)) o.
Proof.
  rewrite one_of_law, root_law, proportion_law, orb_true_iff, bool_decide_eq_true. unfold root_or. split.
  - intros [?|Ha]; [by left|]. destruct (approval c o) as [[ayes seats]|] eqn:Hap; [|done].
    apply bool_decide_eq_true in Ha. right. by exists (mkShare c n d), ayes, seats.
  - intros [?|(sh & ayes & seats & [= <-] & Hap & Hlt)]; [by left|]. right. cbn in *. rewrite Hap. by apply bool_decide_eq_true.
Qed.
Lemma root_or_root o : EnsureRoot o = true <-> root_or None o.
Proof. rewrite root_law, bool_decide_eq_true. unfold root_or. naive_solver. Qed.
Lemma ensure_delayed k inner o share : (forall o, inner o = true <-> root_or share o) ->
  EnsureDelayed k inner o = true <-> exists d o', waited o = Some (d, o') /\ k <= d /\ root_or share o'.
Proof.
  intros Hi. rewrite delayed_law. destruct (waited o) as [[d o']|]; [|naive_solver].
  rewrite andb_true_iff, bool_decide_eq_true, Hi. naive_solver.
Qed.
Lemma decides (b : bool) (P : Prop) : (b = true <-> P) -> oensure b BadOrigin = Ok tt /\ P \/ oensure b BadOrigin = Err BadOrigin /\ ~ P.
Proof. destruct b; unfold oensure; intros; [left|right]; split; try done; naive_solver. Qed.

(** Whatever the origin, the authority pallet lets it dispatch as an
    authority exactly when it is the root, or an origin that has waited as long
    as the rule of that authority asks and was then approved by the share of the
    council it names (or was the root); otherwise the answer is a bad origin. *)
Theorem dispatch_follows_rule id o :
  check_dispatch_from id o = Ok tt /\ may_dispatch id o \/
  check_dispatch_from id o = Err BadOrigin /\ ~ may_dispatch id o.
Proof.
  assert (Hb : forall k inner share, rule id = (k, share) -> (forall o, inner o = true <-> root_or share o) ->
    let r := if EnsureRoot o then Ok tt else ensure_origin_of (EnsureDelayed k inner) o in
    r = Ok tt /\ may_dispatch id o \/ r = Err BadOrigin /\ ~ may_dispatch id o).
  { intros k inner share Hr Hi r. unfold may_dispatch. rewrite Hr. cbn. destruct (EnsureRoot o) eqn:Hroot; rewrite root_law in Hroot.
    - apply bool_decide_eq_true in Hroot. by left; split; [|left].
    - apply bool_decide_eq_false in Hroot. destruct (decides _ _ (ensure_delayed k inner o share Hi)) as [[? ?]|[? ?]]; [left|right]; naive_solver. }
  destruct id; (eapply Hb; [reflexivity|intros; first [apply ensure_root_or|apply root_or_root]]).
Qed.

(** ** A unanimous council has no approval to give *)
Lemma over_all_is_root c o : EnsureOneOf EnsureRoot (EnsureProportionMoreThan 1 1 c) o = true <-> raw o = Some Root.
Proof.
  rewrite ensure_root_or. unfold root_or. split; [|by left].
  intros [?|(sh & ayes & seats & [= <-] & Hap & Hlt)]; [done|]. apply approval_law in Hap. cbn in *. lia.
Qed.

(** The origins that democracy reserves for a unanimous general council or
    technical committee ask for more than all of its seats, so no approval of a
    council passes them, not even one by every member: only the root does.  The
    same approvals pass the thresholds below. *)
Theorem unanimity_is_refused o :
  (ExternalDefaultOrigin democracy o = true <-> raw o = Some Root) /\
  (InstantOrigin democracy o = true <-> raw o = Some Root) /\
  (CancelProposalOrigin democracy o = true <-> raw o = Some Root) /\
  (forall seats, 0 < seats -> approval GeneralCouncil o = Some (seats, seats) ->
     ExternalMajorityOrigin democracy o = true /\ CancellationOrigin democracy o = true).
Proof.
  split_and!; [apply over_all_is_root..|]. intros seats Hs Hap. unfold democracy; cbn.
  split; apply ensure_root_or; right; eexists _, seats, seats; (split; [done|]); (split; [done|]); cbn; lia.
Qed.

(** ** What is allowed grows with the share and the delay *)
Lemma root_or_weaken c n d n' d' o : 0 < d -> 0 < d' -> n' * d <= n * d' ->
  root_or (Some (mkShare c n d)) o -> root_or (Some (mkShare c n' d')) o.
Proof.
  intros Hd Hd' Hn [?|(sh & ayes & seats & [= <-] & Hap & Hlt)]; [by left|]. right.
  eexists _, ayes, seats; split; [done|]; split; [done|]. apply approval_law in Hap as ?. cbn in *.
  apply (Z.mul_lt_mono_pos_r d); [done|]. nia.
Qed.
Context (block_time : 0 < SECS_PER_BLOCK).
Lemma DAYS_nonneg : 0 <= DAYS.
Proof. unfold DAYS, HOURS, MINUTES. apply Z.div_pos with (a := 60) in block_time; lia. Qed.
(** Whoever may act as the root after seven days may act as the treasury. *)
Theorem root_dispatches_treasury o : check_dispatch_from IdRoot o = Ok tt -> check_dispatch_from IdTreasury o = Ok tt.
Proof.
  intros Hr. destruct (dispatch_follows_rule IdRoot o) as [[_ Hm]|[? _]]; [|congruence].
  destruct (dispatch_follows_rule IdTreasury o) as [[? _]|[_ []]]; [done|].
  destruct Hm as [?|(d & o' & Hw & Hd & Ho)]; [by left|]. right. exists d, o'. split; [done|]. cbn in *. split.
  - pose proof DAYS_nonneg. unfold SevenDays, OneDay in *. lia.
  - eapply root_or_weaken; [..|done]; lia.
Qed.
(** A call that may be moved to a block may be moved to any later one. *)
Theorem later_is_easier o i i' k k' : k <= k' ->
  check_fast_track_schedule o i k = Ok tt -> check_fast_track_schedule o i' k' = Ok tt.
Proof.
  intros Hk. unfold check_fast_track_schedule, ensure_origin_of. destruct (EnsureRoot o); [done|].
  assert (Hw : EnsureRootOrTwoThirdsTechnicalCommittee o = true -> EnsureRootOrOneThirdsTechnicalCommittee o = true).
  { intros Ht. apply ensure_root_or. eapply root_or_weaken; [..|by apply ensure_root_or]; lia. }
  assert (0 <= HOURS) as [Hh|<-]%Z.le_lteq by (pose proof DAYS_nonneg; unfold DAYS in *; lia).
  - pose proof (Z.div_le_mono _ _ _ Hh Hk). destruct (Z.ltb_spec (k / HOURS) 12), (Z.ltb_spec (k' / HOURS) 12);
      rewrite ?oensure_Ok; auto; lia.
  - rewrite !Z.div_0_r. done.
Qed.
(** Whoever may bring a call forward at all may put it off. *)
Theorem forward_or_back o i i' k : check_fast_track_schedule o i k = Ok tt -> check_delay_schedule o i' = Ok tt.
Proof.
  unfold check_fast_track_schedule, check_delay_schedule, ensure_origin_of. destruct (EnsureRoot o); [done|].
  destruct (_ <? _); [|done]. rewrite !oensure_Ok. intros Ht. apply ensure_root_or. eapply root_or_weaken; [..|by apply ensure_root_or]; lia.
Qed.
(** The reserve of Karura is the root's. *)
Theorem karura_differs_on_reserve id o : karura_check_dispatch_from id o =
  if decide (id = IdTreasuryReserve) then (if EnsureRoot o then Ok tt else Err BadOrigin) else check_dispatch_from id o.
Proof. by destruct id. Qed.
(** A vested transfer is made from the treasury or, in Karura, by the foundation. *)
Theorem vesting_from_treasury o who : EnsureRootOrTreasury o = Some who <-> who = TreasuryAccount /\ (raw o = Some Root \/ raw o = Some (Signed who)).
Proof. unfold EnsureRootOrTreasury. destruct (raw o) as [[]|]; try case_bool_decide; naive_solver. Qed.
End Governance.

(** ** Origins as data, on which the tests run *)
Inductive SampleOrigin :=
  | OfSystem (o : Origin)
  | OfCouncil (c : Council) (ayes noes : nat)
  | Delayed (d : Z) (o : SampleOrigin).
#[export] Instance SampleOrigin_eq_dec : EqDecision SampleOrigin.
Proof. solve_decision. Defined.
Definition sample_raw (o : SampleOrigin) : option Origin := match o with OfSystem r => Some r | _ => None end.
Definition sample_approval (c : Council) (o : SampleOrigin) : option (Z * Z) :=
  match o with OfCouncil c' ayes noes => if decide (c = c') then Some (Z.of_nat ayes, Z.of_nat (ayes + noes)) else None | _ => None end.
Definition sample_waited (o : SampleOrigin) : option (Z * SampleOrigin) := match o with Delayed d o => Some (d, o) | _ => None end.
#[export] Instance sample_origins : OriginKit SampleOrigin SampleOrigin := {
  caller := id; raw := sample_raw; system_caller := OfSystem; approval := sample_approval; waited := sample_waited;
  EnsureRoot o := bool_decide (sample_raw o = Some Root);
  EnsureOneOf l r o := l o || r o;
  EnsureProportionMoreThan n d c o :=
    match sample_approval c o with Some (ayes, seats) => bool_decide (n * seats < ayes * d) | None => false end;
  EnsureDelayed k inner o := match sample_waited o with Some (d, o') => bool_decide (k <= d) && inner o' | None => false end }.
#[export] Instance sample_origins_laws : OriginLaws SampleOrigin SampleOrigin.
Proof.
  split; try done. intros c [|c' y n|] ayes seats; try done. cbn. case_decide; intros; simplify_eq. lia.
Qed.

Example council_acts_as_treasury :
  let o := Delayed 14400 (OfCouncil GeneralCouncil 6 5) in
  let go id := check_dispatch_from 6 id o in
  go IdTreasury = Ok tt /\ go IdRoot = Err BadOrigin /\
  check_dispatch_from 6 IdTreasury (Delayed 14399 (OfCouncil GeneralCouncil 6 5)) = Err BadOrigin.
Proof. vm_compute. done. Qed.
Example unanimity_is_refused_witness :
  let o := OfCouncil TechnicalCommittee 5 0 in let g := OfCouncil GeneralCouncil 5 0 in
  InstantOrigin democracy o = false /\ ExternalDefaultOrigin democracy g = false /\
  (InstantOrigin democracy o = true <-> raw o = Some Root) /\ ExternalMajorityOrigin democracy g = true.
Proof.
  split; [vm_compute; reflexivity|]. split; [vm_compute; reflexivity|]. split.
  - apply (unanimity_is_refused (OfCouncil TechnicalCommittee 5 0)).
  - apply (unanimity_is_refused (OfCouncil GeneralCouncil 5 0)) with (seats := 5); [lia|reflexivity].
Defined.
