(* ===== verification/CallFilters.v ===== *)
(** * What calls and locations a runtime accepts

    [runtime/mandala/src/lib.rs] and [runtime/karura/src/lib.rs]: the filter of
    all calls, the types of proxies, and the locations of currencies on other
    chains.  [Call] is made by [construct_runtime] from the pallets: here it is
    the pallet and the name of its function, which is all that the filters read. *)
From S2P Require Import Prelude Primitives.

(** ** Calls *)
(** The pallets of [construct_runtime] that have calls *)
Inductive Pallet :=
  | System | Timestamp | Scheduler
  | Balances | Currencies | Vesting | TransactionPayment
  | Treasury | Bounties | Tips
  | Utility | Multisig | Recovery | Proxy | Indices | GraduallyUpdate
  | GeneralCouncil | GeneralCouncilMembership | FinancialCouncil | FinancialCouncilMembership
  | HomaCouncil | HomaCouncilMembership | TechnicalCommittee | TechnicalCommitteeMembership
  | Authority | ElectionsPhragmen | Democracy
  | AcalaOracle | OperatorMembershipAcala | BandOracle | OperatorMembershipBand
  | Auction | Rewards | Prices | Dex
  | AuctionManager | Loans | Honzon | CdpTreasury | CdpEngine | EmergencyShutdown
  | Homa | NomineesElection | StakingPool | PolkadotBridge | HomaValidatorListModule
  | Incentives | NFT | AirDrop
  | RenVmBridge | ChainBridge | ChainSafeTransfer | Starport
  | ParachainSystem | XcmpQueue | PolkadotXcm | DmpQueue | XTokens
  | EVM | EvmAccounts
  | Authorship | CollatorSelection | Session | Sudo.
#[export] Instance Pallet_eq_dec : EqDecision Pallet.
Proof. solve_decision. Defined.
Record Call := mkCall { pallet : Pallet; function : string }.
Definition is_call (p : Pallet) (f : string) (c : Call) : bool := bool_decide (pallet c = p) && bool_decide (function c = f).
Definition of_pallets (ps : list Pallet) (c : Call) : bool := bool_decide (pallet c ∈ ps).

(** [BaseCallFilter] of Mandala and of Karura *)
Definition filter_calls (c : Call) : bool := negb (is_call Democracy "propose" c).
Definition karura_filter_calls (c : Call) : bool := of_pallets
  [ System; Timestamp; ParachainSystem; Scheduler; Utility; Multisig; Proxy; Sudo;
    Authority; GeneralCouncil; GeneralCouncilMembership; FinancialCouncil; FinancialCouncilMembership;
    HomaCouncil; HomaCouncilMembership; TechnicalCommittee; TechnicalCommitteeMembership;
    AcalaOracle; OperatorMembershipAcala; Democracy ] c.

(** ** Types of proxies *)
Inductive ProxyType := Any | CancelProxy | NonTransfer | Governance | Staking.
#[export] Instance ProxyType_eq_dec : EqDecision ProxyType.
Proof. solve_decision. Defined.
Definition proxy_default : ProxyType := Any.
(** The list of [NonTransfer], less the two functions of [Vesting] *)
Definition non_transfer : list Pallet :=
  [ System; Timestamp; Scheduler; Utility; Multisig; Proxy;
    TransactionPayment; Treasury; Bounties; Tips; ParachainSystem; Authorship; CollatorSelection; Session;
    Indices; GraduallyUpdate; Authority; ElectionsPhragmen;
    GeneralCouncil; GeneralCouncilMembership; FinancialCouncil; FinancialCouncilMembership;
    HomaCouncil; HomaCouncilMembership; TechnicalCommittee; TechnicalCommitteeMembership;
    AcalaOracle; OperatorMembershipAcala; BandOracle; OperatorMembershipBand;
    Auction; Rewards; Prices; Dex; AuctionManager; Loans; Honzon; CdpTreasury; CdpEngine; EmergencyShutdown;
    Homa; NomineesElection; StakingPool; PolkadotBridge; HomaValidatorListModule;
    Incentives; AirDrop; EvmAccounts ].
Definition proxy_filter (self : ProxyType) (c : Call) : bool :=
  match self with
  | Any => true
  | CancelProxy => is_call Proxy "reject_announcement" c
  | NonTransfer => of_pallets non_transfer c || is_call Vesting "claim" c || is_call Vesting "update_vesting_schedules" c
  | Governance => of_pallets [Authority; GeneralCouncil; FinancialCouncil; HomaCouncil; TechnicalCommittee; Treasury; Bounties; Tips; Utility] c
  | Staking => of_pallets [CollatorSelection; Session; Utility] c
  end.
Definition is_superset (self o : ProxyType) : bool :=
  if bool_decide (self = o) then true else
  match self, o with
  | Any, _ => true
  | _, Any => false
  | NonTransfer, _ => true
  | _, _ => false
  end.

(** Karura and Acala know two types, and another order. *)
Inductive KaruraProxyType := KaruraAny | KaruraCancelProxy.
Definition karura_proxy_filter (self : KaruraProxyType) (c : Call) : bool :=
  match self with KaruraAny => true | KaruraCancelProxy => is_call Proxy "reject_announcement" c end.
Definition karura_is_superset (self o : KaruraProxyType) : bool :=
  match self, o with KaruraAny, _ => true | _, _ => false end.

(** ** Locations of currencies *)
Inductive NetworkId := AnyNetwork | OtherNetwork (n : Z).
(** The junctions of the XCM crate that are read, and the others *)
Inductive Junction :=
  | Parent
  | Parachain (id : Z)
  | GeneralKey (key : list Z)
  | AccountId32 (network : NetworkId) (id : AccountId)
  | OtherJunction (n : Z).
(** [X1] to [X8] as the list of their junctions *)
Abbreviation MultiLocation := (list Junction).
Inductive MultiAsset := ConcreteFungible (id : MultiLocation) (amount : Z) | OtherAsset.

(** The codec of [parity-scale-codec]: decoding reads what encoding wrote and
    leaves the rest. *)
Class CurrencyCodec := { encode : CurrencyId -> list Z; decode : list Z -> option CurrencyId }.
Class CurrencyCodecLaws `{CurrencyCodec} : Prop := { decode_encode c rest : decode (encode c ++ rest) = Some c }.

(** The currencies a chain exchanges: the one of the relay chain, and its own *)
Record CrossChain := mkCross { relay_token : TokenSymbol; own_tokens : list TokenSymbol }.
Definition mandala_cross : CrossChain := mkCross DOT [ACA; AUSD; LDOT; RENBTC].
Definition karura_cross : CrossChain := mkCross KSM [KAR; KUSD; LKSM; RENBTC].

Section Locations.
Context `{CurrencyCodec} (ParachainInfo : Z) (chain : CrossChain).
Definition native_currency_location (id : CurrencyId) : MultiLocation := [Parent; Parachain ParachainInfo; GeneralKey (encode id)].
Definition currency_location (id : CurrencyId) : option MultiLocation :=
  match id with
  | Token s => if bool_decide (s = relay_token chain) then Some [Parent]
               else if bool_decide (s ∈ own_tokens chain) then Some (native_currency_location id) else None
  | _ => None
  end.
Definition location_currency (location : MultiLocation) : option CurrencyId :=
  match location with
  | [Parent] => Some (Token (relay_token chain))
  | [Parent; Parachain id; GeneralKey key] =>
      if id =? ParachainInfo then
        match decode key with
        | Some (Token s) => if bool_decide (s ∈ own_tokens chain) then Some (Token s) else None
        | _ => None
        end
      else None
  | _ => None
  end.
Definition asset_currency (asset : MultiAsset) : option CurrencyId :=
  match asset with ConcreteFungible id _ => location_currency id | OtherAsset => None end.
Definition account_location (account : AccountId) : MultiLocation := [AccountId32 AnyNetwork account].

Context `{!CurrencyCodecLaws} (separate : relay_token chain ∉ own_tokens chain).
(** A currency of the chain, with its location *)
Definition exchanged (id : CurrencyId) : Prop := id = Token (relay_token chain) \/ exists s, id = Token s /\ s ∈ own_tokens chain.
Lemma currency_location_exchanged id : is_Some (currency_location id) <-> exchanged id.
Proof.
  unfold exchanged. destruct id as [s| | |]; cbn; [|split; [by intros []|naive_solver]..].
  repeat case_bool_decide; (split; [naive_solver|]); intros [?|(? & [= <-] & ?)]; naive_solver.
Qed.
Lemma decode_encode_nil c : decode (encode c) = Some c.
Proof. rewrite <- (app_nil_r (encode c)). apply decode_encode. Qed.
Lemma location_of_location id l : currency_location id = Some l -> location_currency l = Some id.
Proof.
  destruct id as [s| | |]; cbn; [|done..]. case_bool_decide as Hr; [intros [= <-]; cbn; congruence|].
  case_bool_decide as Ho; [|done]. intros [= <-]. cbn. rewrite Z.eqb_refl, decode_encode_nil. by rewrite bool_decide_eq_true_2.
Qed.
Lemma location_currency_exchanged l id : location_currency l = Some id -> exchanged id.
Proof.
  unfold exchanged, location_currency. destruct l as [|[] [|[] [|[] [|]]]]; try done; [naive_solver|].
  destruct (_ =? _); [|done]. destruct (decode _) as [[s| | |]|]; try done. case_bool_decide; [|done]. intros [= <-]. eauto.
Qed.

(** A location and a currency of another chain stand for each other: the
    currencies that have a location are the token of the relay chain and the
    four of this chain, the location of each reads back as it, no two share one,
    and whatever location is read, the currency it gives is one of these. *)
Theorem locations_roundtrip :
  (forall id, is_Some (currency_location id) <-> exchanged id) /\
  (forall id l, currency_location id = Some l -> location_currency l = Some id) /\
  (forall id id' l, currency_location id = Some l -> currency_location id' = Some l -> id = id') /\
  (forall l id, location_currency l = Some id -> exists l', currency_location id = Some l' /\ location_currency l' = Some id).
Proof.
  split_and!; [apply currency_location_exchanged|apply location_of_location|..].
  - intros id id' l H1%location_of_location H2%location_of_location. congruence.
  - intros l id Hl%location_currency_exchanged. apply currency_location_exchanged in Hl as [l' Hl'].
    exists l'. eauto using location_of_location.
Qed.
(** The codec leaves what follows a currency, so a key may have any bytes after
    it: reading is not one to one. *)
Theorem key_with_rest s rest : s ∈ own_tokens chain ->
  location_currency [Parent; Parachain ParachainInfo; GeneralKey (encode (Token s) ++ rest)] = Some (Token s).
Proof. intros Hs. cbn. rewrite Z.eqb_refl, decode_encode. by rewrite bool_decide_eq_true_2. Qed.
End Locations.

(** ** The order of proxies *)
(** Calls that tell the types apart *)
Definition tell_apart : list Call :=
  [mkCall Balances "transfer"; mkCall Proxy "reject_announcement"; mkCall Authority "dispatch_as"; mkCall Session "set_keys"; mkCall Utility "batch"; mkCall System "remark"].
(** One type of proxy of Mandala counts as wider than another exactly when it
    lets through every call that the other does; the order is never too generous
    and misses nothing. *)
Theorem proxy_order_is_inclusion p q :
  is_superset p q = true <-> forall c, proxy_filter q c = true -> proxy_filter p c = true.
Proof.
  split.
  - assert (Hin : forall a b c, forallb (fun x => bool_decide (x ∈ b)) a = true -> of_pallets a c = true -> of_pallets b c = true).
    { unfold of_pallets. intros a b c Ha Hc%bool_decide_eq_true. apply bool_decide_eq_true.
      rewrite forallb_forall in Ha. by eapply bool_decide_eq_true, Ha, list_elem_of_In. }
    intros Hs c Hq. destruct p, q; try done; cbn [proxy_filter] in *.
    + apply andb_true_iff in Hq as [Hp%bool_decide_eq_true _]. apply orb_true_iff; left. apply orb_true_iff; left.
      unfold of_pallets. rewrite Hp. reflexivity.
    + apply orb_true_iff; left. apply orb_true_iff; left. revert Hq. by apply Hin.
    + apply orb_true_iff; left. apply orb_true_iff; left. revert Hq. by apply Hin.
  - intros Hc. assert (Hall : forallb (fun c => implb (proxy_filter q c) (proxy_filter p c)) tell_apart = true).
    { apply forallb_forall. intros c _. specialize (Hc c). destruct (proxy_filter q c); [by rewrite Hc|done]. }
    destruct p, q; try reflexivity; vm_compute in Hall; discriminate.
Qed.
(** Karura's order is sound, but a proxy that only cancels is not even as wide as
    itself. *)
Theorem karura_order_sound p q c : karura_is_superset p q = true -> karura_proxy_filter q c = true -> karura_proxy_filter p c = true.
Proof. by destruct p. Qed.
Theorem karura_order_irreflexive : karura_is_superset KaruraCancelProxy KaruraCancelProxy = false.
Proof. done. Qed.
(** No type but [Any] lets a transfer of balances, currencies or tokens through,
    nor a vested one. *)
Theorem only_any_transfers p c : pallet c ∈ [Balances; Currencies; XTokens; NFT; EVM; ChainSafeTransfer; RenVmBridge; Starport] \/ is_call Vesting "vested_transfer" c = true ->
  proxy_filter p c = true -> p = Any.
Proof.
  destruct c as [pal f]. intros Hc Hf. destruct p; [done|exfalso..];
  (destruct Hc as [Hc|Hc]; [|apply andb_true_iff in Hc as [Hc%bool_decide_eq_true Hg%bool_decide_eq_true]; cbn in Hc, Hg; subst; by vm_compute in Hf]);
  cbn in Hc; unfold proxy_filter, is_call, of_pallets in Hf; cbn [pallet function] in Hf;
  repeat (apply elem_of_cons in Hc as [->|Hc]; [by vm_compute in Hf|]); by apply elem_of_nil in Hc.
Qed.

(** ** A codec: the number of a currency *)
#[export] Instance sample_codec : CurrencyCodec := {
  encode c := [Zpos (countable.encode c)];
  decode l := match l with Zpos p :: _ => countable.decode p | _ => None end }.
#[export] Instance sample_codec_laws : CurrencyCodecLaws.
Proof. constructor. intros c rest. cbn. apply countable.decode_encode. Qed.
Lemma locations_roundtrip_witness :
  currency_location 1000 karura_cross (Token KSM) = Some [Parent] /\
  currency_location 1000 karura_cross (Token ACA) = None /\
  (forall id l, currency_location 1000 karura_cross id = Some l -> location_currency 1000 karura_cross l = Some id).
Proof.
  split; [reflexivity|]. split; [reflexivity|]. apply (locations_roundtrip 1000 karura_cross). by apply (bool_decide_unpack _).
Defined.
